(* ===== verification/_CoqProject ===== *)
-Q . S2P
Prelude.v
GoStd.v
Sha256.v
GoTime.v
IPv4.v
NetIP.v
Model.v
AuditLog.v
Receipts.v
Routes.v
RouteState.v
Reservations.v
Firewall.v
RoutePolicies.v
NetworkSettings.v
Render.v
RouteTransfer.v
TransferSafety.v
RouteProfileEdit.v
Credentials.v
Nodes.v
CARotation.v
Networks.v
NodeLifecycle.v
FirewallRollout.v
SignedConfig.v
Enrollment.v
Recovery.v
AgentOps.v
Revocation.v
CertificateReplacement.v
CredentialSafety.v
Renewal.v
ReceiptSafety.v
StateGraph.v
Store.v
StoreSafety.v
SharedState.v
RenewalRace.v
Migrations.v
AgentState.v
AgentWorld.v
Activation.v
NodeAgent.v
AgentSafety.v
ActivationSafety.v
AgentControl.v
AgentExamples.v
Identity.v
IdentitySafety.v
IdentityPolicy.v
IdentityFlow.v
IdentityLogin.v
IdentityExamples.v
