(* ===== verification/Prelude.v ===== *)
(** * Mesh: a verification library of the control plane, its identities and the node agent

    Mesh manages Nebula overlay networks.  A control plane holds networks, nodes,
    their certificates, firewall policies and routed subnets; agents on the nodes
    enroll with one-time bearers, fetch configurations signed by the control plane
    and report what they run.  This library models the control plane's own logic,
    the Go package src/internal/control, the identities of its administrators,
    src/internal/identity, and the agent, src/internal/nodeagent, and proves what
    their callers rely on, each alone and agent and control plane together.

    ** The program's parts and the files that model them

    The control plane keeps one [State] value (model.go).  Every operation of the
    service runs as a transaction on it: the store clones the state, the operation
    changes the clone, and the clone replaces the state only when the operation
    returns no error.  An operation is therefore a function
    [State.t -> result (State.t * value)]; an error leaves the state, except for the
    one array that a clone shares with its original (Store.v, SharedState.v).

    Foundations
    - Prelude.v: results, decidable guards, record update, insertion sort and the
      list lemmas the components share, the tactics and the rewrite database
      [mesh] that opens a successful call into the guards it passed.
    - GoStd.v, Sha256.v, GoTime.v, IPv4.v, NetIP.v: what the code uses of Go's
      strings, unicode/utf8, strconv, base64, crypto/sha256, time (RFC 3339 with
      nanoseconds, formatted and parsed), net and net/netip.
    - Model.v: the structs of model.go, a module per struct, and the finders.

    Components
    - AuditLog.v: actor.go and model_validation.go; actors, audit events and the
      checks of persisted values.
    - Receipts.v: reading an audit event back as the receipt of a finished
      request; the interface [ReceiptLog] that revocations, certificate rotations
      and group changes implement.
    - Routes.v, Reservations.v: routes.go; prefixes and their reservations.
    - RouteState.v, RouteTransfer.v, RouteProfileEdit.v: route_transfer.go and
      route_profile_edit.go; ownership of routed prefixes as two state machines.
    - RoutePolicies.v: route_policies.go; weights, MTU and metrics of routes.
    - Firewall.v, FirewallRollout.v: firewall.go and firewall_rollout.go.
    - NetworkSettings.v: dns.go and relays.go.
    - Render.v: renderConfig of service.go, the configuration a node receives.
    - SignedConfig.v: crypto.go and the bundles of model.go; what is signed.
    - Credentials.v: bearers, their hashes and the checks that admit them.
    - Nodes.v: createNode, placement, address assignment and the address checks.
    - Networks.v: createNetwork, retirement.go; places reserved for ever.
    - NodeLifecycle.v: pending_cancellation.go, node_archival.go; tombstones.
    - CARotation.v: ca_rotation.go; replacing a network's authority.
    - Enrollment.v, Recovery.v, AgentOps.v: Enroll, RecoverAgent, Heartbeat,
      AgentConfig, AgentBootstrap and Renew of service.go.
    - Revocation.v: revokeOrReplaceNode of service.go and node_revocation.go.
    - CertificateReplacement.v: certificate_rotation.go and node_groups.go.
    - StateGraph.v: validateStateGraph of store.go and the persisted-material
      checks; what the store requires of a state before it commits it.
    - Store.v: store.go; cloneState, updates, reads and the durability of the file.
      A slice of the clone has an array of its own, or, for the canaries of a
      rollout, the array of the committed state; a transaction says what it leaves in
      those arrays, whether or not it is committed.
    - Migrations.v: the Ensure operations of service.go in the order of
      cmd/mesh-server/main.go; credential binding, signing keys, schema versions.

    The agent
    - AgentState.v: state.go; the persisted state, its checks, paths and addresses.
    - AgentWorld.v: the machine an agent runs on, as a monad of acts that fail, stop
      or lose messages, and the control plane as the class [AgentAPI].
    - Activation.v: activate.go and validator.go; the managed output directory,
      staging, publication, pruning, activation and rollback.
    - NodeAgent.v: agent.go, the store of state.go, recovery_key.go and client.go;
      every operation of the agent as one computation.

    Identities
    - Identity.v: token.go, model.go, audit.go, operations.go, the operations and the
      check of filestore.go, desktop_authorization.go; login attempts, sessions,
      break-glass codes and desktop requests in one document, and the class
      [Backend] that answers for its writes.
    - IdentityPolicy.v: config.go, rbac.go, breakglass.go; the configuration's normal
      form, roles, and the text of a break-glass credential.
    - IdentityFlow.v: oidc_flow.go; from a login's start to its principal, over the
      classes [Provider] and [JSONParser].

    Composition
    - IdentitySafety.v, IdentityLogin.v: every operation of the identity store,
      interleaved, as abstract steps; what no sequence of them undoes.
    - IdentityExamples.v: a sign-in from its start to its role.
    - TransferSafety.v: transfers, renewals and heartbeats interleaved.
    - CredentialSafety.v: every transaction that handles a bearer, interleaved,
      from claims to commits and releases.
    - Renewal.v: a whole renewal, with other requests between its transactions.
    - ReceiptSafety.v: a finished request is found again from its audit event.
    - StoreSafety.v: the check of the whole state gives the components the
      invariants they start from, and decides what can be committed.
    - SharedState.v: a revocation as a transaction of the store, and what it leaves
      behind when it is not committed.
    - RenewalRace.v: renewals and route transfers; what a renewed certificate is
      signed for, before and after the start of a transfer.
    - AgentSafety.v, ActivationSafety.v: an agent against every control plane and
      every pattern of failures, crashes and lost messages.
    - AgentControl.v: the agent's handlers of internal/httpapi/server.go, and the
      agent with the control plane of the other files as its server.
    - AgentExamples.v: runs of one agent, from its first synchronization to a lost
      rotation, to which the theorems are applied.

    ** What the theorems show

    - Routed prefixes: what normalisation accepts and returns; the pairwise check
      of the reservation graph is equivalent to its specification by overlap; a
      promotion moves exactly the transferred prefixes; in every interleaving of
      transfer calls, renewals and heartbeats a transferred prefix has one owner,
      and a certificate renewed then is signed for the prefixes that the node owns or
      is to own (while no profile edit is under way); profile edits publish
      atomically.
    - Firewalls and authorities: stored policies are canonical and stay so; a
      rollout reaches its canaries alone, is promoted without changing what the
      canaries run, and can always be rolled back; the authority's replacement
      keeps its invariant through every action, and each offered action succeeds.
    - Configurations: the blocklist is complete, routes lead to live owners, the
      bytes that are signed determine the artifact but for one field that a profile
      renewal leaves out, and verification accepts what was signed.
    - Credentials: the bearers the state retains stay distinct in every
      interleaving, so a bearer identifies one agent; an enrollment bearer is used
      once; a heartbeat advances its sequence; a revoked node's bearers admit
      nothing; a renewal certifies the node it claimed and no other.
    - Lifecycle: a retired network's name and range are not used again; a node is
      archived only when its certificates have expired, and its identity stays
      buried; revocations and certificate rotations are replayed from the audit.
    - The store: what it has acknowledged survives a power failure, and a failed
      update changes nothing but canaries in memory; a state that it accepts satisfies
      the invariants of the components (from v11 on); starting a server brings an
      accepted state to the current schema, unless the store refuses a state on the
      way, and changes no configuration, except that a state older than v12 has its
      native resolver switched off.
    - The agent: its durable state never goes back and its trust changes only by
      signed transitions; an activation keeps a complete bundle live wherever it
      stops, reads it back unless a file has grown over the limit, and bounds the
      versions it keeps; no heartbeat is repeated; it accepts what the control plane
      serves; a lost rotation is completed by repeating it while the agent is still
      one generation behind.
    - Identities: an ended session's credential stays out, a one-time credential is
      used once, an authenticated session is fresh, a desktop approval was granted;
      who signs in meets the policy and has the strongest role it grants; a login
      that was started can be completed; configurations have one normal form.
    - Behaviour that departs from the code's comments and documents is proved, on
      a concrete input or in general: [shared_prefix_staging_loses_routes],
      [renewal_in_flight_opens_promotion], [recovered_node_blocks_promotion],
      [failed_revocation_blocks_store], [bootstrap_strands_rotation] and
      [interrupted_switch_blocks], in the conclusions of
      [activation_keeps_a_live_bundle] and [migrations_keep_configurations], and among
      the lemmas [torn_blocks], [native_resolver_switched_off],
      [restart_serves_unsynced], [broadcast_address_assigned], [mapped_address_offered_again],
      [mapped_address_not_receipted], [replaced_references_not_canonical],
      [native_dns_without_lighthouse], [prepare_offered_but_refused] and
      [transition_unsigned_with_profile_renewal].

    ** Modelling decisions

    - Strings are byte strings; statuses are the source's string constants, so an
      unknown value is a value of the model too.  Times are nanoseconds since the
      zero [Time].  Integers are Z, with the limit of the width written out where
      the source tests it or where it can be exceeded.
    - What a request draws from outside is an argument: the clock's readings, the
      random identifiers and tokens, the audit events' identifiers.  A claim about
      them (their length, their freshness) is a hypothesis with a witness.
    - A request made of several transactions is modelled transaction by
      transaction; [others] is what other requests do to the state in between, and
      [read] is the state a preflight looked at.
    - Third-party code is a parameter: class [Crypto] (ed25519 and AES-GCM with
      the laws the code relies on), classes [Nebula] and [NebulaCertificate] (the
      certificate codec), and the issuers of authorities and certificates as
      arguments, with one answer per attempt where the source tries again.
    - Recursion that is not structural has fuel: the binary search over route
      policies (the length of the slice suffices, proved), the address search
      (offsets 10 to 65535, which covers the widest range accepted, /16), the
      eight groups of an IPv6 address, and the sixteen attempts to draw an
      identifier, which is the source's own limit.
    - Slices are values.  Sharing of arrays is modelled where a transaction writes in
      place into an array that the committed state reads: the canaries of a rollout.
      The other slice that is shared, the rules of a rollout's target policy, is only
      read.
    - The machine of an agent has one output directory, the one that the agent's
      state names and keeps; a file of a bundle is its text, or for metadata.json the
      record that is written as JSON, with the length that JSON gives it.
    - An agent's operation is a computation in a monad: each act on files, on the
      output directory, on Nebula or on the network may fail as a whole, the process
      may stop before it, and the class [Environment] says which.  Theorems hold for
      every environment, so for every pattern of failures.  The state file is
      replaced atomically and [synced] is what a power failure brings back; the
      output directory is not rolled back by a power failure.  Files that are
      written before anything reads them (the staging directory) are one act.
    - Third-party code around the agent is a parameter too: net/url (class [URLs]),
      the curve of the node's keys (class [X25519]), the nebula programs.
    - The identity store is a document and functions on it; each call takes what the
      backend answers: a refusal before anything is read, and per written document
      success, failure, or an uncertain commit, which changes the document and
      answers an error.  The sealer's text stands for the JSON and its encryption
      together, and a JSON text for the value a parser gives it.
    - Addresses of IPv6 occur only where node addresses are parsed (NetIP.v); the
      rest of the control plane refuses them.
    - Audit details are JSON values; [DInt] stands for a whole number, as written
      and as read back from disk.  Times are read in the strict RFC 3339 form.
    - Error texts are kept only where the code returns a sentinel error;
      [ErrOther] carries the message of the others.

    ** Not modelled

    - The JSON text of the state file, its permissions and locks: the model's file
      holds the state itself, and the store's errors are the outcomes of a write.
    - The HTTP API beyond the agent's handlers, the web console and the command-line
      programs: request parsing and presentation around the operations above.
    - Of the agent: ownership and permission checks on files, native DNS, active
      probes, runtime telemetry, the enrollment preflight, and the loop of
      cmd/meshctl that schedules the operations.
    - Of the identities: the file and its JSON, the migration of its first schema, the
      PostgreSQL backend, recovery snapshots, the policy fingerprint, the discovery of
      a provider and its HTTP client, and the HTTP handlers around them.
    - Installers, release verification, backup archives, package checks, Kubernetes start-up and the
      Postgres store: separate programs and packages around the control plane, with
      state of their own.
    - The view documents of the control plane, health and readiness reports and
      runtime telemetry: they read the state and change nothing. *)

From stdpp Require Export base list strings gmap sorting pretty.
From Stdlib Require Export ZArith Lia.


(** ** Errors and results

    A Go call that returns [(value, error)] is a [result].  The sentinel errors
    of internal/control/service.go and store.go are constructors; an error made
    with [errors.New] or [fmt.Errorf] without [%w] is [ErrOther]. *)
Inductive err :=
  | ErrNotFound
  | ErrConflict
  | ErrInvalid
  | ErrUnauthorized
  | ErrRateLimited
  | ErrInvalidStateStore
  | ErrUncertainCommit
  | ErrClosed
  | ErrOther (msg : string).

#[export] Instance err_eq_dec : EqDecision err.
Proof. solve_decision. Defined.

Inductive result (A : Type) :=
  | Ok (a : A)
  | Err (e : err).
Arguments Ok {A} a.
Arguments Err {A} e.

#[export] Instance result_ret : MRet result := λ A a, Ok a.
#[export] Instance result_bind : MBind result := λ A B f m,
  match m with Ok a => f a | Err e => Err e end.
#[export] Instance result_fmap : FMap result := λ A B f m,
  match m with Ok a => Ok (f a) | Err e => Err e end.

#[export] Instance result_eq_dec {A} `{EqDecision A} : EqDecision (result A).
Proof. solve_decision. Defined.

(** [if cond { return err }] *)
Definition fail_if (cond : bool) (e : err) : result unit :=
  if cond then Err e else Ok tt.

(** [value, ok := f(); if !ok { return err }] *)
Definition of_option {A} (o : option A) (e : err) : result A :=
  match o with Some a => Ok a | None => Err e end.

Definition is_ok {A} (r : result A) : bool :=
  match r with Ok _ => true | Err _ => false end.

Declare Scope mesh_scope.
Delimit Scope mesh_scope with mesh.
Notation "a == b" := (bool_decide (a = b)) (at level 70, no associativity) : mesh_scope.
Notation "a != b" := (negb (bool_decide (a = b))) (at level 70, no associativity) : mesh_scope.
#[global] Open Scope mesh_scope.
#[global] Open Scope Z_scope.

(** [guard cond e ;; k]: Go's early return on an error condition. *)
Notation "'fail' e 'when' c ;; k" := (mbind (λ _, k) (fail_if c e))
  (at level 100, e at level 9, c at level 99, k at level 200, right associativity,
   format "'fail'  e  'when'  c ;;  '//' k") : mesh_scope.

Section results.
Context {A B : Type}.

Lemma bind_Ok (m : result A) (f : A → result B) b :
  m ≫= f = Ok b ↔ ∃ a, m = Ok a ∧ f a = Ok b.
Proof. destruct m; naive_solver. Qed.

Lemma bind_Err (m : result A) (f : A → result B) e :
  m ≫= f = Err e ↔ m = Err e ∨ ∃ a, m = Ok a ∧ f a = Err e.
Proof. destruct m; naive_solver. Qed.

Lemma fmap_Ok (m : result A) (f : A → B) b :
  f <$> m = Ok b ↔ ∃ a, m = Ok a ∧ f a = b.
Proof. destruct m; naive_solver. Qed.

Lemma of_option_Ok (o : option A) e a : of_option o e = Ok a ↔ o = Some a.
Proof. destruct o; naive_solver. Qed.

Lemma is_ok_Ok (r : result A) : is_ok r = true ↔ ∃ a, r = Ok a.
Proof. destruct r; naive_solver. Qed.
End results.

Lemma fail_if_Ok c e u : fail_if c e = Ok u ↔ c = false.
Proof. destruct c, u; naive_solver. Qed.

Lemma fail_if_Err c e e' : fail_if c e = Err e' ↔ c = true ∧ e' = e.
Proof. destruct c; naive_solver. Qed.

Lemma guard_iff {A} e c (k : result A) a : (fail e when c;; k) = Ok a ↔ c = false ∧ k = Ok a.
Proof. destruct c; simpl; naive_solver. Qed.

(** The rewrite database [mesh] opens the equation of a successful call into the
    guards it passed and the values it read. *)
Create Rewrite HintDb mesh.
#[export] Hint Rewrite @bind_Ok @fmap_Ok @of_option_Ok fail_if_Ok @guard_iff : mesh.

(** [open_guards] rewrites with [mesh] everywhere in the goal. *)
Ltac open_guards := repeat (rewrite_strat (topdown (hints mesh))).

(** [inv_ok] decomposes every hypothesis that says a result computation
    succeeded, down to the guards it passed and the values it read. *)
Ltac inv_ok_step :=
  match goal with
  | H : Ok _ = Ok _ |- _ => injection H as H
  | H : Err _ = Ok _ |- _ => discriminate H
  | H : Ok _ = Err _ |- _ => discriminate H
  | H : mret _ = Ok _ |- _ => unfold mret, result_ret in H
  | H : mbind _ _ = Ok _ |- _ =>
      let a := fresh "a" in let H1 := fresh "H" in
      apply bind_Ok in H; destruct H as (a & H1 & H)
  | H : fmap _ _ = Ok _ |- _ =>
      let a := fresh "a" in let H1 := fresh "H" in
      apply fmap_Ok in H; destruct H as (a & H1 & H)
  | H : fail_if _ _ = Ok _ |- _ => apply fail_if_Ok in H
  | H : of_option _ _ = Ok _ |- _ => apply of_option_Ok in H
  end.
Ltac inv_ok := repeat inv_ok_step.

(** Boolean conditions of Go guards, split into their conjuncts. *)
Lemma negb_orb_false a b : a || b = false ↔ a = false ∧ b = false.
Proof. destruct a, b; naive_solver. Qed.

Ltac split_bools :=
  repeat match goal with
  | H : _ || _ = false |- _ => apply negb_orb_false in H; destruct H
  | H : _ && _ = true |- _ => apply andb_true_iff in H; destruct H
  | H : negb _ = false |- _ => apply negb_false_iff in H
  | H : negb _ = true |- _ => apply negb_true_iff in H
  | H : bool_decide _ = true |- _ => apply bool_decide_eq_true in H
  | H : bool_decide _ = false |- _ => apply bool_decide_eq_false in H
  | H : is_Some ?x |- _ => destruct H
  end.

(** [eval_bools] evaluates in the goal the boolean tests whose outcome is a
    hypothesis or trivial. *)
Ltac eval_bools :=
  repeat match goal with
  | |- context [bool_decide ?P] =>
      first [ rewrite (bool_decide_eq_true_2 P) by first [assumption | reflexivity | symmetry; assumption]
            | rewrite (bool_decide_eq_false_2 P) by first [assumption | apply not_eq_sym; assumption | discriminate] ]
  | H : ?b = true |- context [?b] => rewrite H
  | H : ?b = false |- context [?b] => rewrite H
  end.

(** ** Record update

    [r <| field := v |>] rebuilds the record [r] with one field replaced, the
    way the Go code assigns through a pointer.  An [Eta] instance writes a record
    as its constructor applied to its projections; the setter of a projection is
    found by abstracting that projection. *)
Class Eta (R : Type) := eta_expand : R → R.
Class Setter {R T : Type} (proj : R → T) := over : (T → T) → R → R.
Arguments over {R T} proj {Setter} f r /.
#[global] Hint Mode Setter - - ! : typeclass_instances.

Ltac derive_setter :=
  match goal with
  | |- @Setter ?R ?T ?proj =>
      let inst := constr:(_ : Eta R) in
      let body := eval hnf in inst in
      match eval pattern proj in body with
      | ?f _ =>
          let s := eval cbv beta in (λ g : T → T, f (λ r, g (proj r))) in exact s
      end
  end.
#[global] Hint Extern 0 (Setter _) => derive_setter : typeclass_instances.

Notation "r <| p := v |>" := (over p (λ _, v) r)
  (at level 12, left associativity, p at level 8, v at level 99,
   format "r  <| p  :=  v |>") : mesh_scope.

(** ** Machine integers

    Revisions, certificate generations and heartbeat sequences are Go [int64]s:
    integers with two's-complement wrap-around. *)
Definition int64_max : Z := 9223372036854775807.
Definition int64_min : Z := -9223372036854775808.
Definition wrap64 (z : Z) : Z := (z - int64_min) mod 2 ^ 64 + int64_min.
Definition in_int64 (z : Z) : Prop := int64_min ≤ z ≤ int64_max.

Lemma wrap64_in_int64 z : in_int64 (wrap64 z).
Proof.
  unfold in_int64, wrap64, int64_min, int64_max.
  pose proof (Z.mod_pos_bound (z - -9223372036854775808) (2 ^ 64)). lia.
Qed.

Lemma wrap64_id z : in_int64 z → wrap64 z = z.
Proof.
  unfold in_int64, wrap64, int64_min, int64_max. intros.
  rewrite Z.mod_small; lia.
Qed.

Lemma wrap64_succ z : in_int64 z → z ≠ int64_max → wrap64 (z + 1) = z + 1.
Proof. intros [] ?. apply wrap64_id. unfold in_int64, int64_min, int64_max in *. lia. Qed.

(** ** Time

    [time.Time] is an instant in nanoseconds; the zero [Time] is 0.  [UTC] keeps
    the instant.  [Sub] saturates at the range of [time.Duration], an [int64]. *)
Abbreviation time := Z (only parsing).
Abbreviation duration := Z (only parsing).
Definition second : duration := 1000000000.
Definition minute : duration := 60 * second.
Definition hour : duration := 60 * minute.
Definition day : duration := 24 * hour.
Definition IsZero (t : time) : bool := t =? 0.
Definition Before (a b : time) : bool := a <? b.
Definition After (a b : time) : bool := b <? a.
Definition Sub (a b : time) : duration := int64_min `max` ((a - b) `min` int64_max).

Lemma Sub_exact a b : in_int64 (a - b) → Sub a b = a - b.
Proof. unfold Sub, in_int64. lia. Qed.

(** ** Slices

    A Go slice whose nil-ness the code observes is an optional list; its
    elements are those of the list, none when it is nil. *)
Abbreviation slice A := (option (list A)) (only parsing).
Definition elems {A} (s : slice A) : list A := default [] s.
Definition is_nil {A} (s : slice A) : bool := match s with None => true | Some _ => false end.

(** [if len(result) == 0 { return nil }; return result] *)
Definition nil_if_empty {A} (l : list A) : slice A :=
  match l with [] => None | _ => Some l end.

Lemma elems_nil_if_empty {A} (l : list A) : elems (nil_if_empty l) = l.
Proof. by destruct l. Qed.

(** [slices.Contains] *)
Definition contains `{EqDecision A} (l : list A) (x : A) : bool := bool_decide (x ∈ l).

Lemma contains_true `{EqDecision A} (l : list A) x : contains l x = true ↔ x ∈ l.
Proof. apply bool_decide_eq_true. Qed.
Lemma contains_false `{EqDecision A} (l : list A) x : contains l x = false ↔ x ∉ l.
Proof. apply bool_decide_eq_false. Qed.

(** ** Sorting

    [sort.Slice] and [sort.Strings]: a permutation sorted by a total preorder.
    Every sorted sequence of the code is either totally ordered, so that the
    result is unique, or used only through its order. *)
Definition holds {A} (le : A → A → bool) : relation A := λ a b, le a b = true.
#[export] Instance holds_dec {A} (le : A → A → bool) : RelDecision (holds le).
Proof. intros a b. unfold holds. apply _. Defined.

Definition sort_by {A} (le : A → A → bool) (l : list A) : list A := merge_sort (holds le) l.

Section sort_by.
Context {A : Type} (le : A → A → bool).
Context (le_total : ∀ a b, le a b = true ∨ le b a = true).
Context (le_trans : ∀ a b c, le a b = true → le b c = true → le a c = true).

Lemma sort_by_perm l : sort_by le l ≡ₚ l.
Proof. apply merge_sort_Permutation. Qed.

Lemma sort_by_sorted l : StronglySorted (holds le) (sort_by le l).
Proof.
  apply StronglySorted_merge_sort; [intros ???; apply le_trans | exact le_total].
Qed.

Lemma sort_by_elem x l : x ∈ sort_by le l ↔ x ∈ l.
Proof. by rewrite sort_by_perm. Qed.

Lemma sort_by_length l : length (sort_by le l) = length l.
Proof. by rewrite (sort_by_perm l). Qed.

Context (le_antisym : ∀ a b, le a b = true → le b a = true → a = b).

Lemma sort_by_unique l l' :
  StronglySorted (holds le) l' → l ≡ₚ l' → sort_by le l = l'.
Proof.
  intros Hs Hp. eapply (StronglySorted_unique (holds le)).
  - apply sort_by_sorted.
  - done.
  - by rewrite sort_by_perm.
  Unshelve. intros ??; apply le_antisym.
Qed.

Lemma sort_by_id l : StronglySorted (holds le) l → sort_by le l = l.
Proof. intros. by apply sort_by_unique. Qed.
End sort_by.

(** Sorting commutes with a map that the order does not see. *)
Section sort_map.
Context {A : Type} (le : A → A → bool) (f : A → A) (le_f : ∀ a b, le (f a) (f b) = le a b).
Lemma list_merge_map (l1 l2 : list A) : list_merge (holds le) (f <$> l1) (f <$> l2) = f <$> list_merge (holds le) l1 l2.
Proof.
  revert l2. induction l1 as [|a l1 IH]; intros l2; [by destruct l2|]. induction l2 as [|b l2 IH2]; [done|].
  csimpl. destruct (decide (holds le a b)) as [H|H]; destruct (decide (holds le (f a) (f b))) as [H'|H'];
    try (unfold holds in H, H'; rewrite le_f in H'; done); csimpl; f_equal; [apply (IH (b :: l2))|apply IH2].
Qed.
Definition over_stack : option (list A) → option (list A) := option_map (map f).
Lemma stack_map (st : list (option (list A))) (l : list A) : merge_list_to_stack (holds le) (over_stack <$> st) (f <$> l) = over_stack <$> merge_list_to_stack (holds le) st l.
Proof. revert l. induction st as [|[k|] st IH]; intros l; csimpl; [done| |done]. f_equal. change (map f k) with (f <$> k). by rewrite list_merge_map, IH. Qed.
Lemma stack_merge_map (st : list (option (list A))) : merge_stack (holds le) (over_stack <$> st) = f <$> merge_stack (holds le) st.
Proof. induction st as [|[k|] st IH]; csimpl; [done| |done]. change (map f k) with (f <$> k). by rewrite IH, list_merge_map. Qed.
Lemma sort_by_map (l : list A) : sort_by le (f <$> l) = f <$> sort_by le l.
Proof.
  unfold sort_by, merge_sort. change (@nil (option (list A))) with (over_stack <$> @nil (option (list A))) at 1.
  generalize (@nil (option (list A))). induction l as [|x l IH]; intros st; csimpl; [apply stack_merge_map|].
  rewrite <- IH. f_equal. apply (stack_map st [x]).
Qed.
End sort_map.

(** ** Filters *)
Lemma filter_none {A} (P : A → Prop) `{∀ x, Decision (P x)} l :
  Forall (λ x, ¬ P x) l → filter P l = [].
Proof. induction 1; [done|]. by rewrite filter_cons_False. Qed.

Lemma filter_all {A} (P : A → Prop) `{∀ x, Decision (P x)} (l : list A) :
  (∀ x, x ∈ l → P x) → filter P l = l.
Proof.
  induction l as [|x l IH]; intros H'; [done|]. rewrite filter_cons_True by (apply H'; constructor).
  f_equal. apply IH. intros y Hy. apply H'. by constructor.
Qed.

Lemma StronglySorted_mono {A} (R S : A → A → Prop) l :
  (∀ x y, R x y → S x y) → StronglySorted R l → StronglySorted S l.
Proof. intros HRS. induction 1; constructor; [done|]. eapply Forall_impl; eauto. Qed.

(** Sorted permutations are equal when the order is antisymmetric on their
    elements. *)
Lemma sorted_unique_on {A} (R : A → A → Prop) l l' :
  (∀ x y, x ∈ l → y ∈ l → R x y → R y x → x = y) →
  StronglySorted R l → StronglySorted R l' → l ≡ₚ l' → l = l'.
Proof.
  revert l'. induction l as [|x l IH]; intros l' Hanti Hs Hs' Hp; [by apply Permutation_nil in Hp|].
  destruct l' as [|y l']; [by apply Permutation_sym, Permutation_nil in Hp|].
  apply StronglySorted_inv in Hs as [Hs Hx]. apply StronglySorted_inv in Hs' as [Hs' Hy].
  rewrite Forall_forall in Hx, Hy.
  assert (x = y) as <-.
  { assert (x ∈ y :: l') as Hxin by (rewrite <- Hp; constructor).
    assert (y ∈ x :: l) as Hyin by (rewrite Hp; constructor).
    apply elem_of_cons in Hxin as [?|Hxin], Hyin as [?|Hyin]; try done.
    apply Hanti; auto; [constructor|by constructor]. }
  f_equal. apply IH; auto; [|by eapply Permutation_cons_inv].
  intros a b ??. apply Hanti; by constructor.
Qed.
