(* ===== verification/GoStd.v ===== *)
(** * The parts of Go's standard library the control plane computes with

    [strings], [unicode/utf8], [regexp] character classes, [strconv],
    [encoding/base64] (RawURLEncoding) and [crypto/sha256].  A Go string is a
    sequence of bytes, a Rocq [string] of 8-bit characters; Go compares strings
    bytewise, which is [String.leb]. *)
From S2P Require Import Prelude.
From Stdlib Require Import Ascii.

(** ** Bytes *)
Definition byte_of (c : ascii) : Z := Z.of_N (N_of_ascii c).
Definition char_of (z : Z) : ascii := ascii_of_N (Z.to_N z).
Fixpoint bytes_of (s : string) : list Z :=
  match s with EmptyString => [] | String c s' => byte_of c :: bytes_of s' end.
Fixpoint string_of (l : list Z) : string :=
  match l with [] => "" | z :: l' => String (char_of z) (string_of l') end.
Definition len (s : string) : Z := Z.of_nat (String.length s).
Definition is_byte (z : Z) : Prop := 0 ≤ z < 256.

(** ** [strings] *)

(** UTF-8 encodings of the runes [unicode.IsSpace] accepts. *)
Definition space_encodings : list (list Z) :=
  [[9]; [10]; [11]; [12]; [13]; [32]; [194; 133]; [194; 160]; [225; 154; 128];
   [226; 128; 128]; [226; 128; 129]; [226; 128; 130]; [226; 128; 131]; [226; 128; 132];
   [226; 128; 133]; [226; 128; 134]; [226; 128; 135]; [226; 128; 136]; [226; 128; 137];
   [226; 128; 138]; [226; 128; 168]; [226; 128; 169]; [226; 128; 175]; [226; 129; 159];
   [227; 128; 128]].

Fixpoint strip_prefix (p l : list Z) : option (list Z) :=
  match p, l with
  | [], _ => Some l
  | x :: p', y :: l' => if x =? y then strip_prefix p' l' else None
  | _ :: _, [] => None
  end.

Fixpoint strip_first (ps : list (list Z)) (l : list Z) : option (list Z) :=
  match ps with
  | [] => None
  | p :: ps' => match strip_prefix p l with Some r => Some r | None => strip_first ps' l end
  end.

(** Drops spaces from the front; [fuel] bounds the number of runes dropped. *)
Fixpoint trim_front (fuel : nat) (ps : list (list Z)) (l : list Z) : list Z :=
  match fuel with
  | O => l
  | S fuel' => match strip_first ps l with Some r => trim_front fuel' ps r | None => l end
  end.

Definition TrimSpace (s : string) : string :=
  let l := bytes_of s in
  let front := trim_front (length l) space_encodings l in
  string_of (reverse (trim_front (length front) (reverse <$> space_encodings) (reverse front))).

(** [strings.ToLower] where the result can still be ASCII: the ASCII letters and
    the two non-ASCII runes (U+0130, U+212A) whose lower case is ASCII.  Other
    runes stay non-ASCII, and every caller then rejects the value. *)
Fixpoint to_lower_bytes (l : list Z) : list Z :=
  match l with
  | 196 :: 176 :: r => 105 :: to_lower_bytes r
  | 226 :: 132 :: 170 :: r => 107 :: to_lower_bytes r
  | c :: r => (if (65 <=? c) && (c <=? 90) then c + 32 else c) :: to_lower_bytes r
  | [] => []
  end.
Definition ToLower (s : string) : string := string_of (to_lower_bytes (bytes_of s)).

(** [strings.EqualFold] on names, which the name grammar keeps ASCII. *)
Definition EqualFold (a b : string) : bool := ToLower a == ToLower b.

Definition str_le (a b : string) : bool := String.leb a b.
Definition str_lt (a b : string) : bool := String.ltb a b.

Fixpoint join (sep : string) (l : list string) : string :=
  match l with
  | [] => ""
  | [s] => s
  | s :: l' => s +:+ sep +:+ join sep l'
  end.

Fixpoint contains_char (s : string) (c : ascii) : bool :=
  match s with
  | EmptyString => false
  | String d s' => bool_decide (c = d) || contains_char s' c
  end.
(** [strings.ContainsAny] *)
Definition ContainsAny (s : string) (cs : list ascii) : bool := existsb (contains_char s) cs.

(** [strings.Split] on a one-byte separator. *)
Fixpoint split_on (c : ascii) (s : string) : list string :=
  match s with
  | EmptyString => [""]
  | String d s' =>
      match split_on c s' with
      | [] => [""]
      | w :: ws => if bool_decide (c = d) then "" :: w :: ws else String d w :: ws
      end
  end.

(** ** [unicode/utf8] *)
Definition is_cont (z : Z) : bool := (128 <=? z) && (z <=? 191).
Fixpoint valid_utf8 (l : list Z) : bool :=
  match l with
  | [] => true
  | b :: r =>
      if b <? 128 then valid_utf8 r else
      match r with
      | b1 :: r1 =>
          if (194 <=? b) && (b <=? 223) then is_cont b1 && valid_utf8 r1 else
          match r1 with
          | b2 :: r2 =>
              if (224 <=? b) && (b <=? 239) then
                (if b =? 224 then 160 <=? b1 else 128 <=? b1) &&
                (if b =? 237 then b1 <=? 159 else b1 <=? 191) &&
                is_cont b2 && valid_utf8 r2
              else
              match r2 with
              | b3 :: r3 =>
                  if (240 <=? b) && (b <=? 244) then
                    (if b =? 240 then 144 <=? b1 else 128 <=? b1) &&
                    (if b =? 244 then b1 <=? 143 else b1 <=? 191) &&
                    is_cont b2 && is_cont b3 && valid_utf8 r3
                  else false
              | [] => false
              end
          | [] => false
          end
      | [] => false
      end
  end.
Definition ValidString (s : string) : bool := valid_utf8 (bytes_of s).

(** ** Character classes of the regular expressions *)
Definition lower_alpha (z : Z) : bool := (97 <=? z) && (z <=? 122).
Definition upper_alpha (z : Z) : bool := (65 <=? z) && (z <=? 90).
Definition digit (z : Z) : bool := (48 <=? z) && (z <=? 57).
Definition alnum (z : Z) : bool := lower_alpha z || upper_alpha z || digit z.

(** [^head tail{0,max}$] *)
Definition match_class (head tail : Z → bool) (max : nat) (s : string) : bool :=
  match bytes_of s with
  | [] => false
  | c :: r => head c && forallb tail r && (length r <=? max)%nat
  end.

(** ** [strconv] *)
Fixpoint digits_value (acc : Z) (l : list Z) : option Z :=
  match l with
  | [] => Some acc
  | c :: r => if digit c then digits_value (10 * acc + (c - 48)) r else None
  end.
(** [strconv.Atoi] on a string that holds no sign. *)
Definition Atoi (s : string) : option Z :=
  match bytes_of s with
  | [] => None
  | l => match digits_value 0 l with
         | Some v => if v <=? int64_max then Some v else None
         | None => None
         end
  end.
Definition Itoa (z : Z) : string := pretty z.

(** ** [encoding/base64], RawURLEncoding *)
Definition b64_digit (c : Z) : option Z :=
  if upper_alpha c then Some (c - 65)
  else if lower_alpha c then Some (c - 71)
  else if digit c then Some (c + 4)
  else if c =? 45 then Some 62
  else if c =? 95 then Some 63
  else None.
Definition b64_char (d : Z) : Z :=
  if d <? 26 then d + 65
  else if d <? 52 then d + 71
  else if d <? 62 then d - 4
  else if d =? 62 then 45
  else 95.

(** The decoder skips line breaks between digits. *)
Fixpoint b64_digits (l : list Z) : option (list Z) :=
  match l with
  | [] => Some []
  | c :: r => if (c =? 10) || (c =? 13) then b64_digits r
              else d ← b64_digit c; ds ← b64_digits r; Some (d :: ds)
  end.
Fixpoint b64_unpack (ds : list Z) : option (list Z) :=
  match ds with
  | [] => Some []
  | [_] => None
  | [a; b] => Some [(a * 64 + b) / 16]
  | [a; b; c] => let v := (a * 64 + b) * 64 + c in Some [v / 1024; v / 4 mod 256]
  | a :: b :: c :: d :: r =>
      let v := ((a * 64 + b) * 64 + c) * 64 + d in
      rest ← b64_unpack r; Some (v / 65536 :: v / 256 mod 256 :: v mod 256 :: rest)
  end.
Definition b64_decode (s : string) : option (list Z) :=
  b64_digits (bytes_of s) ≫= b64_unpack.

Fixpoint b64_pack (l : list Z) : list Z :=
  match l with
  | [] => []
  | [x] => [x / 4; x * 16 mod 64]
  | [x; y] => let v := x * 256 + y in [v / 1024; v / 16 mod 64; v * 4 mod 64]
  | x :: y :: z :: r =>
      let v := (x * 256 + y) * 256 + z in
      v / 262144 :: v / 4096 mod 64 :: v / 64 mod 64 :: v mod 64 :: b64_pack r
  end.
Definition b64_encode (l : list Z) : string := string_of (b64_char <$> b64_pack l).

(** ** Lemmas on bytes, splitting and digits *)
Lemma byte_of_range c : is_byte (byte_of c).
Proof.
  unfold is_byte, byte_of. pose proof (N_ascii_bounded c). lia.
Qed.
Lemma char_of_byte_of c : char_of (byte_of c) = c.
Proof. unfold char_of, byte_of. by rewrite N2Z.id, ascii_N_embedding. Qed.
Lemma byte_of_char_of z : is_byte z → byte_of (char_of z) = z.
Proof.
  unfold is_byte, byte_of, char_of. intros. rewrite N_ascii_embedding by lia. lia.
Qed.
Lemma string_of_bytes_of s : string_of (bytes_of s) = s.
Proof. induction s; simpl; f_equal; auto using char_of_byte_of. Qed.
Lemma bytes_of_string_of l : Forall is_byte l → bytes_of (string_of l) = l.
Proof. induction 1; simpl; f_equal; auto using byte_of_char_of. Qed.
Lemma bytes_of_app a b : bytes_of (a +:+ b) = bytes_of a ++ bytes_of b.
Proof. induction a; simpl; f_equal; auto. Qed.
Lemma bytes_of_inj a b : bytes_of a = bytes_of b → a = b.
Proof. intros H. by rewrite <- (string_of_bytes_of a), H, string_of_bytes_of. Qed.

Lemma string_app_assoc a b c : (a +:+ b) +:+ c = a +:+ b +:+ c.
Proof.
  induction a as [|x a IH]; [done|].
  change (String x ((a +:+ b) +:+ c) = String x (a +:+ b +:+ c)). by rewrite IH.
Qed.

Lemma split_on_nonempty c s : split_on c s ≠ [].
Proof.
  induction s as [|d s IH]; simpl; [done|].
  destruct (split_on c s); [done|]. by case_bool_decide.
Qed.

(** Splitting undoes joining words that do not hold the separator. *)
Lemma split_on_app c a s :
  contains_char a c = false → split_on c (a +:+ String c "" +:+ s) = a :: split_on c s.
Proof.
  intros Ha. change (String c "" +:+ s) with (String c s).
  induction a as [|d a IH]; simpl in *.
  - pose proof (split_on_nonempty c s). destruct (split_on c s); [done|].
    by rewrite bool_decide_eq_true_2.
  - split_bools. rewrite IH by done. by rewrite bool_decide_eq_false_2.
Qed.
Lemma split_on_word c a : contains_char a c = false → split_on c a = [a].
Proof.
  induction a as [|d a IH]; simpl; [done|]. intros. split_bools.
  rewrite IH by done. by rewrite bool_decide_eq_false_2.
Qed.

(** Joining undoes splitting. *)
Lemma join_split_on c s : join (String c "") (split_on c s) = s.
Proof.
  induction s as [|d s IH]; [done|]. simpl.
  pose proof (split_on_nonempty c s). destruct (split_on c s) as [|w ws]; [done|].
  case_bool_decide as Hcd; [subst d; simpl in *; by rewrite IH|].
  revert IH. destruct ws; simpl; intros <-; done.
Qed.

Lemma digits_value_lower acc l v :
  0 ≤ acc → digits_value acc l = Some v → acc * 10 ^ Z.of_nat (length l) ≤ v.
Proof.
  revert acc. induction l as [|c l IH]; intros acc Hacc; simpl.
  - intros [= <-]. rewrite Z.pow_0_r. lia.
  - destruct (digit c) eqn:Hd; [|done]. unfold digit in Hd. intros Hv. apply IH in Hv; [|lia].
    rewrite Nat2Z.inj_succ, Z.pow_succ_r by lia.
    assert (0 < 10 ^ Z.of_nat (length l)) by (apply Z.pow_pos_nonneg; lia). nia.
Qed.

Lemma digits_value_digits acc l v : digits_value acc l = Some v → Forall (λ c, 48 ≤ c < 58) l.
Proof.
  revert acc. induction l as [|c l IH]; intros acc; simpl; [constructor|].
  destruct (digit c) eqn:Hd; [|done]. unfold digit in Hd. constructor; [lia|eauto].
Qed.

(** ** The order on strings *)
Lemma str_le_total a b : str_le a b = true ∨ str_le b a = true.
Proof. apply String.leb_total. Qed.
Lemma str_le_antisym a b : str_le a b = true → str_le b a = true → a = b.
Proof. apply String.leb_antisym. Qed.
Lemma str_le_trans a b c : str_le a b = true → str_le b c = true → str_le a c = true.
Proof.
  intros Hab Hbc. apply Is_true_true. eapply (transitivity (R := String.le)); by apply Is_true_true.
Qed.
Lemma str_le_refl a : str_le a a = true.
Proof. by destruct (str_le_total a a). Qed.
Lemma str_lt_iff a b : str_lt a b = true ↔ str_le b a = false.
Proof.
  unfold str_lt, str_le, String.ltb, String.leb. rewrite (String.compare_antisym b a).
  destruct (String.compare a b); simpl; naive_solver.
Qed.
#[export] Hint Resolve str_le_total str_le_antisym str_le_trans str_le_refl : core.

#[global] Arguments Itoa : simpl never.
#[global] Arguments TrimSpace : simpl never.
#[global] Arguments ToLower : simpl never.
#[global] Arguments ValidString : simpl never.
#[global] Arguments match_class : simpl never.
#[global] Arguments b64_decode : simpl never.
#[global] Arguments b64_encode : simpl never.
#[global] Arguments Z.mul : simpl nomatch.
