(* ===== verification/Sha256.v ===== *)
(** * crypto/sha256 (FIPS 180-4), executable

    [Sum256] over byte lists.  Words are integers modulo 2^32. *)
From S2P Require Import Prelude GoStd.

Definition add32 (a b : Z) : Z := Z.land (a + b) 4294967295.
Definition rotr (n x : Z) : Z := Z.lor (Z.shiftr x n) (Z.land (Z.shiftl x (32 - n)) 4294967295).
Definition not32 (x : Z) : Z := 4294967295 - x.
Definition ch (x y z : Z) : Z := Z.lxor (Z.land x y) (Z.land (not32 x) z).
Definition maj (x y z : Z) : Z := Z.lxor (Z.lxor (Z.land x y) (Z.land x z)) (Z.land y z).
Definition bsig0 x := Z.lxor (Z.lxor (rotr 2 x) (rotr 13 x)) (rotr 22 x).
Definition bsig1 x := Z.lxor (Z.lxor (rotr 6 x) (rotr 11 x)) (rotr 25 x).
Definition ssig0 x := Z.lxor (Z.lxor (rotr 7 x) (rotr 18 x)) (Z.shiftr x 3).
Definition ssig1 x := Z.lxor (Z.lxor (rotr 17 x) (rotr 19 x)) (Z.shiftr x 10).

(** The constants of FIPS 180-4 from their definition: the first 32 bits of the
    fractional parts of the cube roots and square roots of the first primes. *)
Definition is_prime (n : Z) : bool := forallb (λ d, negb (n mod d =? 0)) (seqZ 2 (n - 2)).
Definition primes (count : nat) (bound : Z) : list Z :=
  take count (filter (λ n, is_prime n = true) (seqZ 2 bound)).
(** The largest [r < 2 ^ bits] with [r ^ 3 ≤ v], bit by bit from the top. *)
Fixpoint cube_root (bits : nat) (r v : Z) : Z :=
  match bits with
  | O => r
  | S bits' =>
      let r' := r + 2 ^ Z.of_nat bits' in cube_root bits' (if r' * r' * r' <=? v then r' else r) v
  end.
Definition sha256_k : list Z :=
  Eval vm_compute in (λ p, cube_root 36 0 (p * 2 ^ 96) mod 2 ^ 32) <$> primes 64 320.
Definition sha256_h0 : list Z :=
  Eval vm_compute in (λ p, Z.sqrt (p * 2 ^ 64) mod 2 ^ 32) <$> primes 8 20.

(** Message padding to a multiple of 64 bytes. *)
Definition be_bytes (n : nat) (v : Z) : list Z :=
  reverse ((λ i, v / 256 ^ Z.of_nat i mod 256) <$> seq 0 n).
Definition pad (m : list Z) : list Z :=
  let l := Z.of_nat (length m) in
  m ++ [128] ++ replicate (Z.to_nat ((55 - l) mod 64)) 0 ++ be_bytes 8 (8 * l).

Fixpoint words (l : list Z) : list Z :=
  match l with
  | a :: b :: c :: d :: r => ((a * 256 + b) * 256 + c) * 256 + d :: words r
  | _ => []
  end.

(** The message schedule, newest word first. *)
Fixpoint schedule (n : nat) (w : list Z) : list Z :=
  match n with
  | O => w
  | S n' =>
      let t := add32 (add32 (ssig1 (nth 1 w 0)) (nth 6 w 0)) (add32 (ssig0 (nth 14 w 0)) (nth 15 w 0)) in
      schedule n' (t :: w)
  end.

Definition round (s : list Z) (kw : Z * Z) : list Z :=
  match s with
  | [a; b; c; d; e; f; g; h] =>
      let t1 := add32 (add32 (add32 h (bsig1 e)) (add32 (ch e f g) (fst kw))) (snd kw) in
      let t2 := add32 (bsig0 a) (maj a b c) in
      [add32 t1 t2; a; b; c; add32 d t1; e; f; g]
  | _ => s
  end.
Definition compress (h : list Z) (block : list Z) : list Z :=
  let w := reverse (schedule 48 (reverse (words block))) in
  zip_with add32 h (foldl round h (zip sha256_k w)).

Fixpoint blocks (fuel : nat) (h l : list Z) : list Z :=
  match fuel, l with
  | S fuel', _ :: _ => blocks fuel' (compress h (take 64 l)) (drop 64 l)
  | _, _ => h
  end.
Definition Sum256 (m : list Z) : list Z :=
  let p := pad m in concat (be_bytes 4 <$> blocks (length p) sha256_h0 p).

(** [hex.EncodeToString] *)
Definition hex_digit (d : Z) : Z := if d <? 10 then d + 48 else d + 87.
Definition hex (l : list Z) : string :=
  string_of (concat ((λ b, [hex_digit (b / 16); hex_digit (b mod 16)]) <$> l)).

(** FIPS 180-4 test vectors. *)
Example sha256_empty :
  hex (Sum256 []) = "e3b0c44298fc1c149afbf4c8996fb92427ae41e4649b934ca495991b7852b855".
Proof. vm_compute. reflexivity. Qed.
Example sha256_two_blocks :
  hex (Sum256 (bytes_of "abcdbcdecdefdefgefghfghighijhijkijkljklmklmnlmnomnopnopq"))
  = "248d6a61d20638b8e5c026930c3e6039a33ce45964ff2167f6ecedd419db06c1".
Proof. vm_compute. reflexivity. Qed.
