(* ===== verification/GoTime.v ===== *)
(** * time.Format with time.RFC3339Nano, in UTC

    An instant is a number of nanoseconds since the zero [Time], midnight of the
    first of January of year 1.  The text determines the instant. *)
From S2P Require Import Prelude GoStd.

(** ** The calendar (the 400-year cycle of package time) *)
Definition civil (days : Z) : Z * Z :=
  let n400 := days / 146097 in
  let d := days mod 146097 in
  let n100 := d / 36524 in
  let n100 := n100 - n100 / 4 in
  let d := d - 36524 * n100 in
  let n4 := d / 1461 in
  let d := d mod 1461 in
  let n := d / 365 in
  let n := n - n / 4 in
  (400 * n400 + 100 * n100 + 4 * n4 + n + 1, d - 365 * n).

Definition leap (year : Z) : bool := (year mod 4 =? 0) && (negb (year mod 100 =? 0) || (year mod 400 =? 0)).
Definition month_lengths (is_leap : bool) : list Z := [31; if is_leap then 29 else 28; 31; 30; 31; 30; 31; 31; 30; 31; 30; 31].
Fixpoint month_day (month : Z) (lengths : list Z) (yday : Z) : Z * Z :=
  match lengths with
  | [] => (month, yday + 1)
  | l :: rest => if yday <? l then (month, yday + 1) else month_day (month + 1) rest (yday - l)
  end.

(** ** The text *)
Fixpoint digits (width : nat) (v : Z) : list Z :=
  match width with
  | O => []
  | S width => digits width (v / 10) ++ [48 + v mod 10]
  end.
Fixpoint drop_zeros (l : list Z) : list Z :=
  match l with
  | c :: r => if c =? 48 then drop_zeros r else l
  | [] => []
  end.
(** [.999999999]: the fraction without its trailing zeros, nothing when it is zero. *)
Definition fraction (nanoseconds : Z) : list Z :=
  match reverse (drop_zeros (reverse (digits 9 nanoseconds))) with
  | [] => []
  | l => 46 :: l
  end.
Definition year_text (year : Z) : list Z := if (0 <=? year) && (year <? 10000) then digits 4 year else bytes_of (Itoa year).
Definition RFC3339Nano (t : time) : string :=
  let seconds := t / second in
  let days := seconds / 86400 in
  let clock := seconds mod 86400 in
  let '(year, yday) := civil days in
  let '(month, day) := month_day 1 (month_lengths (leap year)) yday in
  string_of (year_text year ++ [45] ++ digits 2 month ++ [45] ++ digits 2 day ++ [84] ++
             digits 2 (clock / 3600) ++ [58] ++ digits 2 (clock / 60 mod 60) ++ [58] ++ digits 2 (clock mod 60) ++
             fraction (t mod second) ++ [90]).

Example RFC3339Nano_epoch : RFC3339Nano (62135596800 * second + 120000000) = "1970-01-01T00:00:00.12Z".
Proof. vm_compute. reflexivity. Qed.
Example RFC3339Nano_leap : RFC3339Nano (63844847999 * second) = "2024-02-29T23:59:59Z".
Proof. vm_compute. reflexivity. Qed.

(** ** The text determines the instant *)
Lemma civil_spec days year yday : 0 ≤ days → civil days = (year, yday) →
  1 ≤ year ∧ days = 365 * (year - 1) + (year - 1) / 4 - (year - 1) / 100 + (year - 1) / 400 + yday ∧
  0 ≤ yday < 365 + (if leap year then 1 else 0).
Proof.
  unfold civil. intros Hd [= <- <-].
  set (a := days / 146097). set (r := days mod 146097).
  assert (days = 146097 * a + r ∧ 0 ≤ r < 146097 ∧ 0 ≤ a) as (E0 & Hr & Ha) by (unfold a, r; Z.div_mod_to_equations; lia).
  clearbody a r. set (q := r / 36524). assert (0 ≤ q ≤ 4) as Hq by (unfold q; Z.div_mod_to_equations; lia).
  set (b := q - q / 4). set (s := r - 36524 * b).
  assert (0 ≤ b ≤ 3 ∧ 0 ≤ s ≤ 36524 ∧ (b ≠ 3 → s < 36524)) as (Hb & Hs & Hb3)
    by (unfold s, b, q in *; Z.div_mod_to_equations; lia).
  set (c := s / 1461). set (u := s mod 1461).
  assert (s = 1461 * c + u ∧ 0 ≤ c ≤ 24 ∧ 0 ≤ u < 1461 ∧ (c = 24 → b ≠ 3 → u < 1460)) as (E1 & Hc & Hu & Hc24)
    by (unfold c, u; Z.div_mod_to_equations; lia).
  assert (r = 36524 * b + s) as E2 by (unfold s; lia). clearbody b s c u.
  set (p := u / 365). set (e := p - p / 4).
  assert (0 ≤ e ≤ 3 ∧ 0 ≤ u - 365 * e ≤ 365 ∧ (e ≠ 3 → u - 365 * e < 365)) as (He & Hy & He3)
    by (unfold e, p in *; Z.div_mod_to_equations; lia).
  clearbody e. set (y := 400 * a + 100 * b + 4 * c + e).
  assert ((y + 1 - 1) / 4 = 100 * a + 25 * b + c ∧ (y + 1 - 1) / 100 = 4 * a + b ∧ (y + 1 - 1) / 400 = a) as (-> & -> & ->)
    by (unfold y; Z.div_mod_to_equations; lia).
  split; [unfold y; lia|]. split; [unfold y; lia|]. split; [lia|].
  destruct (Z.eq_dec e 3) as [->|]; [|destruct (leap (y + 1)); lia].
  destruct (Z.eq_dec c 24) as [->|].
  - destruct (Z.eq_dec b 3) as [->|]; [|destruct (leap (y + 1)); lia].
    assert (leap (y + 1) = true) as -> by (unfold leap, y; Z.div_mod_to_equations; lia). lia.
  - assert (leap (y + 1) = true) as -> by (unfold leap, y; Z.div_mod_to_equations; lia). lia.
Qed.

(** The day of the year from the month and the day. *)
Definition yday_of (is_leap : bool) (month day : Z) : Z :=
  foldr Z.add 0 (take (Z.to_nat (month - 1)) (month_lengths is_leap)) + day - 1.
Lemma month_day_table (is_leap : bool) :
  forallb (λ yday : Z, let '(m, d) := month_day 1 (month_lengths is_leap) yday in
             (yday_of is_leap m d =? yday) && (1 <=? m) && (m <=? 12) && (1 <=? d) && (d <=? 31)
             && (d <=? nth (Z.to_nat (m - 1)) (month_lengths is_leap) 0))
    (seqZ 0 (365 + (if is_leap then 1 else 0))) = true.
Proof. destruct is_leap; vm_compute; reflexivity. Qed.
Lemma month_day_spec (is_leap : bool) yday m d :
  0 ≤ yday < 365 + (if is_leap then 1 else 0) → month_day 1 (month_lengths is_leap) yday = (m, d) →
  yday_of is_leap m d = yday ∧ 1 ≤ m ≤ 12 ∧ (1 ≤ d ≤ 31 ∧ d ≤ nth (Z.to_nat (m - 1)) (month_lengths is_leap) 0).
Proof.
  intros Hy E. pose proof (month_day_table is_leap) as T. rewrite forallb_forall in T.
  specialize (T yday ltac:(apply list_elem_of_In, elem_of_seqZ; lia)). rewrite E in T. split_bools. lia.
Qed.

Lemma digits_length n v : length (digits n v) = n.
Proof. revert v. induction n as [|n IH]; intros v; simpl; [done|]. rewrite length_app, IH. simpl. lia. Qed.
Lemma digits_bytes n v : 0 ≤ v → Forall (λ c, 48 ≤ c < 58) (digits n v).
Proof.
  revert v. induction n as [|n IH]; intros v Hv; simpl; [constructor|]. apply Forall_app. split.
  - apply IH. Z.div_mod_to_equations; lia.
  - constructor; [|constructor]. Z.div_mod_to_equations; lia.
Qed.
Lemma digits_inj n v w : 0 ≤ v < 10 ^ Z.of_nat n → 0 ≤ w < 10 ^ Z.of_nat n → digits n v = digits n w → v = w.
Proof.
  revert v w. induction n as [|n IH]; intros v w Hv Hw E; simpl in *; [lia|].
  rewrite Nat2Z.inj_succ, Z.pow_succ_r in Hv, Hw by lia.
  apply app_inj_2 in E as [E1 E2]; [|done]. injection E2 as E2.
  apply IH in E1; Z.div_mod_to_equations; lia.
Qed.

Lemma drop_zeros_pad l : l = replicate (length l - length (drop_zeros l)) 48 ++ drop_zeros l.
Proof.
  induction l as [|c l IH]; [done|]. simpl. destruct (Z.eqb_spec c 48) as [->|].
  - assert (length (drop_zeros l) ≤ length l)%nat as Hl
      by (apply (f_equal length) in IH; rewrite length_app, length_replicate in IH; lia).
    rewrite Nat.sub_succ_l by done. simpl. by rewrite <- IH.
  - by rewrite Nat.sub_diag.
Qed.
Lemma fraction_inj v w : 0 ≤ v < 10 ^ 9 → 0 ≤ w < 10 ^ 9 → fraction v = fraction w → v = w.
Proof.
  intros Hv Hw E. apply (digits_inj 9); [done..|]. apply (inj reverse).
  rewrite (drop_zeros_pad (reverse (digits 9 v))), (drop_zeros_pad (reverse (digits 9 w))).
  assert (drop_zeros (reverse (digits 9 v)) = drop_zeros (reverse (digits 9 w))) as ->.
  { apply (inj reverse). unfold fraction in E. destruct (reverse (drop_zeros (reverse (digits 9 v)))), (reverse (drop_zeros (reverse (digits 9 w)))); congruence. }
  by rewrite !length_reverse, !digits_length.
Qed.
Lemma fraction_bytes v : 0 ≤ v → Forall is_byte (fraction v).
Proof.
  intros Hv. unfold fraction. pose proof (digits_bytes 9 v Hv) as H. apply Forall_reverse in H.
  rewrite (drop_zeros_pad (reverse (digits 9 v))) in H. apply Forall_app in H as [_ H].
  apply Forall_reverse in H. unfold is_byte. destruct (reverse _); constructor; [lia|]. eapply Forall_impl; [exact H|]. simpl. lia.
Qed.

(** The instants of the years 1 to 9999. *)
Definition valid_time (t : time) : Prop := 0 ≤ t < 3652059 * 86400 * second.

(** The fields of the text, from the instant and back. *)
Lemma time_fields t : valid_time t →
  ∃ year month day hour minute sec yday,
    RFC3339Nano t = string_of (digits 4 year ++ [45] ++ digits 2 month ++ [45] ++ digits 2 day ++ [84] ++ digits 2 hour ++
                      [58] ++ digits 2 minute ++ [58] ++ digits 2 sec ++ fraction (t mod second) ++ [90]) ∧
    1 ≤ year < 10000 ∧ 1 ≤ month ≤ 12 ∧ (1 ≤ day ≤ 31 ∧ day ≤ nth (Z.to_nat (month - 1)) (month_lengths (leap year)) 0) ∧ 0 ≤ hour < 24 ∧ 0 ≤ minute < 60 ∧ 0 ≤ sec < 60 ∧
    yday = yday_of (leap year) month day ∧
    t = ((365 * (year - 1) + (year - 1) / 4 - (year - 1) / 100 + (year - 1) / 400 + yday) * 86400
         + hour * 3600 + minute * 60 + sec) * second + t mod second.
Proof.
  unfold valid_time, second. intros Ht. unfold RFC3339Nano, second.
  set (s := t / 1000000000). set (days := s / 86400). set (clock := s mod 86400).
  assert (t = s * 1000000000 + t mod 1000000000 ∧ s = days * 86400 + clock ∧ 0 ≤ clock < 86400 ∧ 0 ≤ days < 3652059)
    as (Et & Es & Hc & Hd) by (unfold days, clock, s; Z.div_mod_to_equations; lia).
  clearbody s days clock.
  destruct (civil days) as [year yday] eqn:Hciv. apply civil_spec in Hciv as (Hy & Ed & Hyd); [|lia].
  destruct (month_day 1 _ yday) as [month day] eqn:Hmd. apply month_day_spec in Hmd as (Em & Hm & Hday); [|done].
  assert (year < 10000) as Hy9 by (Z.div_mod_to_equations; lia).
  exists year, month, day, (clock / 3600), (clock / 60 mod 60), (clock mod 60), yday.
  unfold year_text. replace ((0 <=? year) && (year <? 10000)) with true by lia.
  split_and!; try done; try lia; try (Z.div_mod_to_equations; lia).
Qed.

Lemma time_bytes year month day hour minute sec frac :
  1 ≤ year → 1 ≤ month → 1 ≤ day → 0 ≤ hour → 0 ≤ minute → 0 ≤ sec → 0 ≤ frac →
  Forall (λ c, 43 ≤ c < 91) (digits 4 year ++ [45] ++ digits 2 month ++ [45] ++ digits 2 day ++ [84] ++ digits 2 hour ++
    [58] ++ digits 2 minute ++ [58] ++ digits 2 sec ++ fraction frac ++ [90]).
Proof.
  intros. assert (∀ n v, 0 ≤ v → Forall (λ c, 43 ≤ c < 91) (digits n v)) as Hd.
  { intros n v Hv. eapply Forall_impl; [by apply digits_bytes|]. simpl. lia. }
  assert (Forall (λ c, 43 ≤ c < 91) (fraction frac)) as Hf.
  { unfold fraction. pose proof (Hd 9%nat frac ltac:(lia)) as H'. apply Forall_reverse in H'.
    rewrite (drop_zeros_pad (reverse (digits 9 frac))) in H'. apply Forall_app in H' as [_ H'].
    apply Forall_reverse in H'. destruct (reverse _); constructor; [lia|done]. }
  rewrite !Forall_app. split_and!; try apply Hd; try apply Hf; try lia; repeat constructor; lia.
Qed.

Lemma RFC3339Nano_inj t u : valid_time t → valid_time u → RFC3339Nano t = RFC3339Nano u → t = u.
Proof.
  intros Ht Hu E.
  destruct (time_fields t Ht) as (y & mo & d & h & mi & s & yd & Ft & ? & ? & ? & ? & ? & ? & -> & Et).
  destruct (time_fields u Hu) as (y' & mo' & d' & h' & mi' & s' & yd' & Fu & ? & ? & ? & ? & ? & ? & -> & Eu).
  assert (0 ≤ t mod second < 10 ^ 9 ∧ 0 ≤ u mod second < 10 ^ 9) as [Hft Hfu]
    by (unfold second; Z.div_mod_to_equations; lia).
  rewrite Ft, Fu in E. apply (f_equal bytes_of) in E. rewrite !bytes_of_string_of in E
    by (eapply Forall_impl; [apply time_bytes; lia|]; unfold is_byte; simpl; lia).
  repeat match type of E with
  | digits _ _ ++ _ = digits _ _ ++ _ =>
      let E1 := fresh "E1" in apply app_inj_1 in E as [E1 E]; [|by rewrite !digits_length]; apply digits_inj in E1; [|lia..]; subst
  | [_] ++ _ = [_] ++ _ => apply app_inj_1 in E as [_ E]; [|reflexivity]
  end.
  apply app_inj_2 in E as [E _]; [|done]. apply fraction_inj in E; [|done..]. lia.
Qed.

(** The text is one word: no character below '+'. *)
Lemma RFC3339Nano_chars t : valid_time t → Forall (λ c, 43 ≤ c < 91) (bytes_of (RFC3339Nano t)).
Proof.
  intros Ht. destruct (time_fields t Ht) as (y & mo & d & h & mi & s & yd & -> & ? & ? & ? & ? & ? & ? & _).
  assert (0 ≤ t mod second) by (unfold second; Z.div_mod_to_equations; lia).
  rewrite bytes_of_string_of by (eapply Forall_impl; [apply time_bytes; lia|]; unfold is_byte; simpl; lia).
  apply time_bytes; lia.
Qed.

(** ** time.Parse with time.RFC3339Nano, the result in UTC

    The strict form of RFC 3339: a fraction after a point, of which nine digits
    count, and Z or a numeric offset. *)
Fixpoint read_digits (width : nat) (acc : Z) (l : list Z) : option (Z * list Z) :=
  match width, l with
  | O, _ => Some (acc, l)
  | S width, c :: r => if digit c then read_digits width (acc * 10 + (c - 48)) r else None
  | S _, [] => None
  end.
Fixpoint digit_run (l : list Z) : list Z * list Z :=
  match l with
  | c :: r => if digit c then let '(run, rest) := digit_run r in (c :: run, rest) else ([], l)
  | [] => ([], [])
  end.
Definition expect (c : Z) (l : list Z) : option (list Z) :=
  match l with x :: r => if x =? c then Some r else None | [] => None end.
Definition field (width : nat) (low high : Z) (l : list Z) : option (Z * list Z) :=
  '(v, r) ← read_digits width 0 l; if (low <=? v) && (v <=? high) then Some (v, r) else None.
(** The nanoseconds of a run of digits. *)
Definition nanoseconds (run : list Z) : Z :=
  foldl (λ acc c, acc * 10 + (c - 48)) 0 (take 9 (run ++ replicate 9 48)).
Definition read_fraction (l : list Z) : Z * list Z :=
  match l with
  | 46 :: r => match digit_run r with ([], _) => (0, l) | (run, rest) => (nanoseconds run, rest) end
  | _ => (0, l)
  end.
(** The offset from UTC in seconds. *)
Definition read_zone (l : list Z) : option Z :=
  match l with
  | [90] => Some 0
  | sign :: r =>
      '(hours, r) ← field 2 0 23 r; r ← expect 58 r; '(minutes, r) ← field 2 0 59 r;
      match r with
      | [] => if sign =? 43 then Some (hours * 3600 + minutes * 60)
              else if sign =? 45 then Some (- (hours * 3600 + minutes * 60)) else None
      | _ => None
      end
  | [] => None
  end.
Definition days_before (year : Z) : Z := 365 * (year - 1) + (year - 1) / 4 - (year - 1) / 100 + (year - 1) / 400.
Definition ParseRFC3339Nano (s : string) : option time :=
  '(year, r) ← field 4 0 9999 (bytes_of s); r ← expect 45 r;
  '(month, r) ← field 2 1 12 r; r ← expect 45 r;
  '(day, r) ← field 2 1 (nth (Z.to_nat (month - 1)) (month_lengths (leap year)) 0) r; r ← expect 84 r;
  '(hour, r) ← field 2 0 23 r; r ← expect 58 r;
  '(minute, r) ← field 2 0 59 r; r ← expect 58 r;
  '(sec, r) ← field 2 0 59 r;
  let '(nsec, r) := read_fraction r in
  zone ← read_zone r;
  Some (((days_before year + yday_of (leap year) month day) * 86400 + hour * 3600 + minute * 60 + sec - zone) * second + nsec).

Example ParseRFC3339Nano_offset :
  ParseRFC3339Nano "1970-01-01T01:30:00.12+01:30" = Some (62135596800 * second + 120000000).
Proof. vm_compute. reflexivity. Qed.
Example ParseRFC3339Nano_bad :
  ParseRFC3339Nano "2023-02-29T00:00:00Z" = None ∧ ParseRFC3339Nano "2023-02-28T24:00:00Z" = None ∧
  ParseRFC3339Nano "2023-02-28T00:00:00" = None.
Proof. vm_compute. done. Qed.

(** *** What is printed is read *)
Lemma read_digits_digits n v acc r :
  0 ≤ v < 10 ^ Z.of_nat n → read_digits n acc (digits n v ++ r) = Some (acc * 10 ^ Z.of_nat n + v, r).
Proof.
  revert v acc r. induction n as [|n IH]; intros v acc r Hv.
  { simpl in *. do 2 f_equal. lia. }
  rewrite Nat2Z.inj_succ, Z.pow_succ_r in * by lia.
  cut (∀ m a l, read_digits m a l = None ∨ ∃ x l', read_digits m a l = Some (x, l') ∧
         read_digits (S m) a l = match l' with c :: r' => if digit c then Some (x * 10 + (c - 48), r') else None | [] => None end).
  - intros Hsplit. cbn [digits]. rewrite <- app_assoc. cbn [app].
    specialize (Hsplit n acc (digits n (v / 10) ++ (48 + v mod 10) :: r)).
    rewrite IH in Hsplit by (Z.div_mod_to_equations; lia).
    destruct Hsplit as [Hs|(x & l' & [= <- <-] & ->)]; [done|].
    replace (digit (48 + v mod 10)) with true by (unfold digit; Z.div_mod_to_equations; lia).
    do 2 f_equal. Z.div_mod_to_equations; lia.
  - clear. induction m as [|m IHm]; intros a l.
    + right. exists a, l. split; [done|]. by destruct l.
    + destruct l as [|c l]; [by left|]. destruct (digit c) eqn:E; [|left; simpl; by rewrite E].
      destruct (IHm (a * 10 + (c - 48)) l) as [H|(x & l' & H1 & H2)].
      * left. cbn [read_digits]. by rewrite E.
      * right. exists x, l'. split; [cbn [read_digits]; by rewrite E|]. rewrite <- H2. cbn [read_digits]. by rewrite E.
Qed.

Lemma field_digits n low high v r :
  0 ≤ v < 10 ^ Z.of_nat n → low ≤ v ≤ high → field n low high (digits n v ++ r) = Some (v, r).
Proof.
  intros Hv Hr. unfold field. rewrite read_digits_digits by done.
  rewrite Z.mul_0_l, Z.add_0_l. simpl. by replace ((low <=? v) && (v <=? high)) with true by lia.
Qed.

Lemma digit_run_digits l r : Forall (λ c, 48 ≤ c < 58) l → (∀ c, head r = Some c → digit c = false) →
  digit_run (l ++ r) = (l, r).
Proof.
  induction 1 as [|c l Hc _ IH]; intros Hr; simpl.
  - destruct r as [|c r]; [done|]. simpl. by rewrite (Hr c eq_refl).
  - replace (digit c) with true by (unfold digit; lia). by rewrite IH.
Qed.

Lemma digits_foldl n v : 0 ≤ v < 10 ^ Z.of_nat n → foldl (λ acc c, acc * 10 + (c - 48)) 0 (digits n v) = v.
Proof.
  revert v. induction n as [|n IH]; intros v Hv; simpl in *; [lia|].
  rewrite Nat2Z.inj_succ, Z.pow_succ_r in * by lia.
  rewrite foldl_app, IH by (Z.div_mod_to_equations; lia). simpl. Z.div_mod_to_equations; lia.
Qed.

(** The trailing zeros that were dropped are read back. *)
Lemma nanoseconds_trimmed v : 0 ≤ v < 10 ^ 9 → nanoseconds (reverse (drop_zeros (reverse (digits 9 v)))) = v.
Proof.
  intros Hv. unfold nanoseconds. rewrite <- (digits_foldl 9 v) at 2 by done. f_equal.
  pose proof (f_equal reverse (drop_zeros_pad (reverse (digits 9 v)))) as E.
  rewrite reverse_involutive, reverse_app, reverse_replicate in E.
  set (t := reverse (drop_zeros (reverse (digits 9 v)))) in *. set (k := (_ - _)%nat) in E.
  assert (length t + k = 9)%nat as Hl by (rewrite <- (digits_length 9 v), E, length_app, length_replicate; done).
  rewrite E, take_app, take_replicate. rewrite take_ge by lia. do 2 f_equal. lia.
Qed.

Lemma fraction_read v r : 0 ≤ v < 10 ^ 9 → head r = Some 90 → read_fraction (fraction v ++ r) = (v, r).
Proof.
  intros Hv Hr. pose proof (nanoseconds_trimmed v Hv) as Hn. unfold fraction.
  pose proof (digits_bytes 9 v ltac:(lia)) as Hd. apply Forall_reverse in Hd.
  rewrite (drop_zeros_pad (reverse (digits 9 v))) in Hd. apply Forall_app in Hd as [_ Hd]. apply Forall_reverse in Hd.
  set (l := reverse (drop_zeros (reverse (digits 9 v)))) in *. clearbody l.
  destruct l as [|c l].
  - destruct r as [|x r]; [done|]. injection Hr as ->. simpl. by rewrite <- Hn.
  - change ((46 :: c :: l) ++ r) with (46 :: ((c :: l) ++ r)). unfold read_fraction.
    rewrite digit_run_digits; [by rewrite Hn|done|]. intros x Hx. rewrite Hr in Hx. by injection Hx as <-.
Qed.

Lemma ParseRFC3339Nano_format t : valid_time t → ParseRFC3339Nano (RFC3339Nano t) = Some t.
Proof.
  intros Ht. destruct (time_fields t Ht) as (y & mo & d & h & mi & s & yd & -> & ? & ? & ? & ? & ? & ? & -> & Et).
  assert (0 ≤ t mod second < 10 ^ 9) as Hf by (unfold second; Z.div_mod_to_equations; lia).
  unfold ParseRFC3339Nano. rewrite bytes_of_string_of
    by (eapply Forall_impl; [apply time_bytes; lia|]; unfold is_byte; simpl; lia).
  repeat (rewrite field_digits by (simpl Z.of_nat; lia); cbn [mbind option_bind expect app Z.eqb Pos.eqb]).
  rewrite fraction_read by done. cbn [read_zone mbind option_bind]. f_equal. unfold days_before. lia.
Qed.
#[global] Arguments RFC3339Nano : simpl never.
#[global] Arguments ParseRFC3339Nano : simpl never.
