(* ===== verification/IPv4.v ===== *)
(** * IPv4 addresses and prefixes: [net/netip] and [net]

    An address is a 32-bit integer, a prefix an address with a bit count.  Text
    that is not IPv4 parses to [None]: every caller in internal/control rejects
    an IPv6 value exactly as it rejects a malformed one. *)
From S2P Require Import Prelude GoStd.
From Stdlib Require Import Ascii.

Record prefix := Prefix { p_addr : Z; p_bits : Z }.
#[export] Instance prefix_eq_dec : EqDecision prefix.
Proof. solve_decision. Defined.

Definition valid_addr (a : Z) : Prop := 0 ≤ a < 2 ^ 32.
Definition host_size (p : prefix) : Z := 2 ^ (32 - p_bits p).

(** ** Parsing and printing *)
Definition parse_octet (s : string) : option Z :=
  match bytes_of s with
  | [] => None
  | c :: r => if (c =? 48) && negb (length r =? 0)%nat then None
              else v ← digits_value 0 (c :: r); if v <=? 255 then Some v else None
  end.

(** [netip.ParseAddr] *)
Definition ParseAddr (s : string) : option Z :=
  match split_on "." s with
  | [a; b; c; d] =>
      a ← parse_octet a; b ← parse_octet b; c ← parse_octet c; d ← parse_octet d;
      Some (((a * 256 + b) * 256 + c) * 256 + d)
  | _ => None
  end.

(** [Addr.As4] *)
Definition As4 (a : Z) : list Z :=
  [Z.shiftr a 24; Z.land (Z.shiftr a 16) 255; Z.land (Z.shiftr a 8) 255; Z.land a 255].

(** [Addr.String] *)
Definition addr_string (a : Z) : string := join "." (Itoa <$> As4 a).

Definition parse_bits (s : string) : option Z :=
  match bytes_of s with
  | c :: _ :: _ => if (c <? 49) || (57 <? c) then None
                   else b ← Atoi s; if b <=? 32 then Some b else None
  | _ => b ← Atoi s; if b <=? 32 then Some b else None
  end.

(** [netip.ParsePrefix] *)
Definition ParsePrefix (s : string) : option prefix :=
  match split_on "/" s with
  | [a; b] => addr ← ParseAddr a; bits ← parse_bits b; Some (Prefix addr bits)
  | _ => None
  end.

(** [Prefix.String] *)
Definition prefix_string (p : prefix) : string := addr_string (p_addr p) +:+ "/" +:+ Itoa (p_bits p).

(** [net.ParseCIDR]: the address as written and the masked network.  Unlike
    [netip.ParsePrefix] the mask may have leading zeros. *)
Definition mask_addr (a bits : Z) : Z := Z.shiftl (Z.shiftr a (32 - bits)) (32 - bits).
Definition ParseCIDR (s : string) : option (Z * prefix) :=
  match split_on "/" s with
  | [a; b] =>
      addr ← ParseAddr a; bits ← Atoi b;
      if bits <=? 32 then Some (addr, Prefix (mask_addr addr bits) bits) else None
  | _ => None
  end.

(** ** Prefix operations *)

(** [Prefix.Contains] *)
Definition Contains (p : prefix) (a : Z) : bool :=
  Z.shiftr (Z.lxor (p_addr p) a) (32 - p_bits p) =? 0.

(** [Prefix.Masked] *)
Definition Masked (p : prefix) : prefix := Prefix (mask_addr (p_addr p) (p_bits p)) (p_bits p).

(** [IPNet.Contains]: the masked bytes of the network and the address agree. *)
Definition cidr_mask (bits : Z) : Z := 2 ^ 32 - 2 ^ (32 - bits).
Definition net_contains (n : prefix) (a : Z) : bool :=
  Z.land (p_addr n) (cidr_mask (p_bits n)) =? Z.land a (cidr_mask (p_bits n)).

(** [Addr.IsGlobalUnicast] *)
Definition IsGlobalUnicast (a : Z) : bool :=
  negb ((a =? 0) || (a =? 4294967295) || (Z.shiftr a 24 =? 127)
        || (Z.land (Z.shiftr a 24) 240 =? 224) || (Z.shiftr a 16 =? 43518)).

(** ** Ranges

    A masked prefix is the half-open interval [lo, hi) of its addresses. *)
Definition wf_prefix (p : prefix) : Prop :=
  valid_addr (p_addr p) ∧ 0 ≤ p_bits p ≤ 32 ∧ Masked p = p.
Definition lo (p : prefix) : Z := p_addr p.
Definition hi (p : prefix) : Z := p_addr p + host_size p.

Lemma host_size_pos p : p_bits p ≤ 32 → 0 < host_size p.
Proof. intros. unfold host_size. apply Z.pow_pos_nonneg; lia. Qed.

Lemma Contains_div p a :
  p_bits p ≤ 32 → Contains p a = (p_addr p / host_size p =? a / host_size p).
Proof.
  intros. unfold Contains, host_size.
  rewrite Z.shiftr_lxor, !Z.shiftr_div_pow2 by lia.
  apply Bool.eq_iff_eq_true. rewrite !Z.eqb_eq. apply Z.lxor_eq_0_iff.
Qed.

Lemma mask_addr_div a b : b ≤ 32 → mask_addr a b = a / 2 ^ (32 - b) * 2 ^ (32 - b).
Proof. intros. unfold mask_addr. by rewrite Z.shiftl_mul_pow2, Z.shiftr_div_pow2 by lia. Qed.

Lemma wf_prefix_aligned p : wf_prefix p → p_addr p = p_addr p / host_size p * host_size p.
Proof.
  destruct p as [a b]. intros (_ & ? & [= H]). unfold host_size in *; simpl in *.
  rewrite mask_addr_div in H by lia. done.
Qed.

Lemma Contains_range p a : wf_prefix p → Contains p a = true ↔ lo p ≤ a < hi p.
Proof.
  intros Hwf. pose proof (wf_prefix_aligned _ Hwf) as Hal. destruct Hwf as (? & ? & _).
  rewrite Contains_div by lia. unfold lo, hi.
  pose proof (host_size_pos p ltac:(lia)). rewrite Z.eqb_eq.
  pose proof (Z.div_mod a (host_size p) ltac:(lia)).
  pose proof (Z.mod_pos_bound a (host_size p) ltac:(lia)). nia.
Qed.

Lemma net_contains_Contains n a :
  0 ≤ p_bits n ≤ 32 → valid_addr (p_addr n) → valid_addr a → net_contains n a = Contains n a.
Proof.
  intros Hb Hn Ha. rewrite Contains_div by lia. unfold net_contains, cidr_mask, host_size.
  set (k := 32 - p_bits n). assert (0 ≤ k ≤ 32) by lia.
  assert (∀ x, valid_addr x → Z.land x (2 ^ 32 - 2 ^ k) = x / 2 ^ k * 2 ^ k) as Hland.
  { intros x Hx. rewrite <- Z.shiftl_mul_pow2, <- Z.shiftr_div_pow2 by lia.
    replace (2 ^ 32 - 2 ^ k) with (Z.shiftl (Z.ones (32 - k)) k).
    2:{ rewrite Z.shiftl_mul_pow2, Z.ones_equiv by lia.
        rewrite <- Z.sub_1_r, Z.mul_sub_distr_r, <- Z.pow_add_r by lia.
        f_equal; [f_equal; lia | lia]. }
    apply Z.bits_inj'. intros i Hi. rewrite Z.land_spec.
    destruct (Z.lt_ge_cases i k).
    - rewrite !Z.shiftl_spec_low by lia. apply andb_false_r.
    - rewrite !Z.shiftl_spec, Z.shiftr_spec by lia. replace (i - k + k) with i by lia.
      destruct (Z.lt_ge_cases i 32).
      + rewrite Z.ones_spec_low by lia. apply andb_true_r.
      + rewrite Z.ones_spec_high by lia. rewrite andb_false_r.
        symmetry. destruct (Z.eq_dec x 0) as [->|]; [apply Z.bits_0|].
        apply Z.bits_above_log2; [unfold valid_addr in Hx; lia|].
        apply Z.log2_lt_pow2; [unfold valid_addr in Hx; lia|].
        eapply Z.lt_le_trans; [apply Hx|]. apply Z.pow_le_mono_r; lia. }
  rewrite !Hland by done. apply Bool.eq_iff_eq_true. rewrite !Z.eqb_eq.
  assert (0 < 2 ^ k) by (apply Z.pow_pos_nonneg; lia). nia.
Qed.

(** ** Text round trips

    Each address, bit count and prefix has exactly one accepted spelling. *)
Lemma Itoa_octet_table :
  Forall (λ n, parse_octet (Itoa n) = Some n ∧ contains_char (Itoa n) "." = false
               ∧ contains_char (Itoa n) "/" = false) (seqZ 0 256).
Proof. apply (bool_decide_unpack _). vm_compute. done. Qed.

Lemma octet_text_table :
  Forall (λ a, string_of [a] = Itoa (a - 48) ∧
     Forall (λ b, (a ≠ 48 → string_of [a; b] = Itoa ((a - 48) * 10 + (b - 48))) ∧
        Forall (λ c, a ≠ 48 → string_of [a; b; c] = Itoa (((a - 48) * 10 + (b - 48)) * 10 + (c - 48)))
          (seqZ 48 10)) (seqZ 48 10)) (seqZ 48 10).
Proof. apply (bool_decide_unpack _). vm_compute. done. Qed.

Lemma Itoa_bits_table : Forall (λ b, parse_bits (Itoa b) = Some b) (seqZ 0 33).
Proof. apply (bool_decide_unpack _). vm_compute. done. Qed.

(** A digit string without a leading zero whose value is below 1000 is the
    decimal text of its value. *)
Lemma digits_text l v :
  l ≠ [] → (length l = 1%nat ∨ hd 48 l ≠ 48) → digits_value 0 l = Some v → v < 1000 →
  0 ≤ v ∧ string_of l = Itoa v.
Proof.
  intros Hne Hlead Hv Hsmall. pose proof (digits_value_digits _ _ _ Hv) as Hd.
  pose proof octet_text_table as T. rewrite Forall_forall in T.
  destruct l as [|a [|b [|c [|d l]]]]; [done| | | |]; simpl in Hlead;
    repeat match goal with H : Forall _ (_ :: _) |- _ => apply Forall_cons in H; destruct H end.
  - destruct (T a) as [Ta _]; [apply elem_of_seqZ; lia|].
    simpl in Hv. destruct (digit a); [|done]. simplify_eq. split; [lia|]. rewrite Ta. f_equal; lia.
  - destruct (T a) as [_ Tb]; [apply elem_of_seqZ; lia|].
    rewrite Forall_forall in Tb. destruct (Tb b) as [Tab _]; [apply elem_of_seqZ; lia|].
    simpl in Hv. destruct (digit a), (digit b); try done. simplify_eq.
    destruct Hlead; [done|]. split; [lia|]. rewrite Tab by done. f_equal; lia.
  - destruct (T a) as [_ Tb]; [apply elem_of_seqZ; lia|].
    rewrite Forall_forall in Tb. destruct (Tb b) as [_ Tc]; [apply elem_of_seqZ; lia|].
    rewrite Forall_forall in Tc. pose proof (Tc c ltac:(apply elem_of_seqZ; lia)) as Tabc.
    simpl in Hv. destruct (digit a), (digit b), (digit c); try done. simplify_eq.
    destruct Hlead; [done|]. split; [lia|]. rewrite Tabc by done. f_equal; lia.
  - exfalso. destruct Hlead as [?|Ha]; [done|].
    change (digits_value 0 (a :: b :: c :: d :: l)) with
      (if digit a then digits_value (10 * 0 + (a - 48)) (b :: c :: d :: l) else None) in Hv.
    destruct (digit a); [|done]. apply digits_value_lower in Hv; [|lia].
    assert (10 ^ 3 ≤ 10 ^ Z.of_nat (length (b :: c :: d :: l))).
    { apply Z.pow_le_mono_r; simpl; lia. }
    change (10 ^ 3) with 1000 in *. nia.
Qed.

Lemma parse_octet_iff s n : parse_octet s = Some n ↔ 0 ≤ n < 256 ∧ s = Itoa n.
Proof.
  split.
  - intros H. rewrite <- (string_of_bytes_of s). unfold parse_octet in H.
    set (l := bytes_of s) in *. assert (l ≠ [] ∧ (length l = 1%nat ∨ hd 48 l ≠ 48)
      ∧ ∃ v, digits_value 0 l = Some v ∧ v ≤ 255 ∧ v = n) as (Hne & Hlead & v & Hv & ? & <-).
    { destruct l as [|a l]; [done|]. split; [done|].
      destruct ((a =? 48) && negb (length l =? 0)%nat) eqn:Ea; [done|].
      split; [destruct l; [by left|right; simpl in *; lia]|].
      destruct (digits_value 0 (a :: l)) as [v|]; [|done]. exists v. simpl in H.
      case_match; simplify_eq. split_and!; [done|lia|done]. }
    destruct (digits_text l v) as [? ->]; [done..|lia|]. split; [lia|done].
  - intros [? ->]. pose proof Itoa_octet_table as T. rewrite Forall_forall in T.
    apply T, elem_of_seqZ. lia.
Qed.

Lemma parse_bits_iff s b : parse_bits s = Some b ↔ 0 ≤ b ≤ 32 ∧ s = Itoa b.
Proof.
  split.
  - intros H. rewrite <- (string_of_bytes_of s). unfold parse_bits, Atoi in H.
    set (l := bytes_of s) in *. assert (l ≠ [] ∧ (length l = 1%nat ∨ hd 48 l ≠ 48)
      ∧ digits_value 0 l = Some b ∧ b ≤ 32) as (? & ? & ? & ?).
    { destruct l as [|a [|c l]]; [done| |].
      - destruct (digits_value 0 [a]) as [v|] eqn:E; [|done]. simpl in H.
        destruct (v <=? int64_max); [|done]. simpl in H. destruct (v <=? 32) eqn:?; [|done]. simplify_eq.
        split_and!; [done|by left|done|lia].
      - destruct ((a <? 49) || (57 <? a)) eqn:Ea; [done|].
        destruct (digits_value 0 (a :: c :: l)) as [v|] eqn:E; [|done]. simpl in H.
        destruct (v <=? int64_max); [|done]. simpl in H. destruct (v <=? 32) eqn:?; [|done]. simplify_eq.
        split_and!; [done|right; simpl; lia|done|lia]. }
    destruct (digits_text l b) as [? ->]; [done..|lia|]. split; [lia|done].
  - intros [? ->]. pose proof Itoa_bits_table as T. rewrite Forall_forall in T.
    apply T, elem_of_seqZ. lia.
Qed.

Lemma As4_octets a b c d :
  0 ≤ a < 256 → 0 ≤ b < 256 → 0 ≤ c < 256 → 0 ≤ d < 256 →
  As4 (((a * 256 + b) * 256 + c) * 256 + d) = [a; b; c; d].
Proof.
  intros. unfold As4. change 255 with (Z.ones 8). rewrite !Z.land_ones, !Z.shiftr_div_pow2 by lia.
  change (2 ^ 24) with 16777216. change (2 ^ 16) with 65536. change (2 ^ 8) with 256.
  repeat f_equal; Z.div_mod_to_equations; lia.
Qed.

Lemma addr_octets x : valid_addr x → ∃ a b c d,
  0 ≤ a < 256 ∧ 0 ≤ b < 256 ∧ 0 ≤ c < 256 ∧ 0 ≤ d < 256 ∧ x = ((a * 256 + b) * 256 + c) * 256 + d.
Proof.
  intros [? ?]. change (2 ^ 32) with 4294967296 in *.
  exists (x / 16777216), (x / 65536 mod 256), (x / 256 mod 256), (x mod 256).
  split_and!; Z.div_mod_to_equations; lia.
Qed.

Lemma ParseAddr_iff s x : ParseAddr s = Some x ↔ valid_addr x ∧ s = addr_string x.
Proof.
  split.
  - unfold ParseAddr. intros H. destruct (split_on "." s) as [|a [|b [|c [|d [|]]]]] eqn:Hs; try done.
    destruct (parse_octet a) as [a'|] eqn:Ha; [|done]. destruct (parse_octet b) as [b'|] eqn:Hb; [|done].
    destruct (parse_octet c) as [c'|] eqn:Hc; [|done]. destruct (parse_octet d) as [d'|] eqn:Hd; [|done].
    simpl in H. injection H as <-. apply parse_octet_iff in Ha, Hb, Hc, Hd.
    destruct Ha as [? ->], Hb as [? ->], Hc as [? ->], Hd as [? ->].
    split; [unfold valid_addr; lia|].
    unfold addr_string. rewrite As4_octets by done. rewrite <- (join_split_on "." s), Hs. done.
  - intros [Hx ->]. destruct (addr_octets x Hx) as (a & b & c & d & ? & ? & ? & ? & ->).
    unfold addr_string. rewrite As4_octets by done. unfold ParseAddr. simpl fmap. simpl join.
    pose proof Itoa_octet_table as T. rewrite Forall_forall in T.
    destruct (T a) as (Pa & Sa & _); [apply elem_of_seqZ; lia|].
    destruct (T b) as (Pb & Sb & _); [apply elem_of_seqZ; lia|].
    destruct (T c) as (Pc & Sc & _); [apply elem_of_seqZ; lia|].
    destruct (T d) as (Pd & Sd & _); [apply elem_of_seqZ; lia|].
    rewrite !split_on_app, split_on_word by done. by rewrite Pa, Pb, Pc, Pd.
Qed.

Lemma addr_string_inj x y : valid_addr x → valid_addr y → addr_string x = addr_string y → x = y.
Proof.
  intros Hx Hy E. pose proof (proj2 (ParseAddr_iff _ _) (conj Hx eq_refl)) as H1.
  pose proof (proj2 (ParseAddr_iff _ _) (conj Hy eq_refl)) as H2. congruence.
Qed.

Lemma contains_char_app a b c : contains_char (a +:+ b) c = contains_char a c || contains_char b c.
Proof. induction a as [|d a IH]; simpl; [done|]. by rewrite IH, orb_assoc. Qed.

Lemma addr_string_no_slash x : valid_addr x → contains_char (addr_string x) "/" = false.
Proof.
  intros Hx. destruct (addr_octets x Hx) as (a & b & c & d & ? & ? & ? & ? & ->).
  unfold addr_string. rewrite As4_octets by done. simpl.
  pose proof Itoa_octet_table as T. rewrite Forall_forall in T.
  rewrite !contains_char_app.
  destruct (T a) as (_ & _ & ->); [apply elem_of_seqZ; lia|].
  destruct (T b) as (_ & _ & ->); [apply elem_of_seqZ; lia|].
  destruct (T c) as (_ & _ & ->); [apply elem_of_seqZ; lia|].
  destruct (T d) as (_ & _ & ->); [apply elem_of_seqZ; lia|]. done.
Qed.

Definition valid_prefix (p : prefix) : Prop := valid_addr (p_addr p) ∧ 0 ≤ p_bits p ≤ 32.

Lemma ParsePrefix_iff s p : ParsePrefix s = Some p ↔ valid_prefix p ∧ s = prefix_string p.
Proof.
  split.
  - unfold ParsePrefix. intros H. destruct (split_on "/" s) as [|a [|b [|]]] eqn:Hs; try done.
    destruct (ParseAddr a) as [x|] eqn:Ha; [|done]. destruct (parse_bits b) as [n|] eqn:Hb; [|done].
    simpl in H. injection H as <-. apply ParseAddr_iff in Ha as [? ->]. apply parse_bits_iff in Hb as [? ->].
    split; [done|]. rewrite <- (join_split_on "/" s), Hs. done.
  - intros [[Ha Hb] ->]. destruct p as [x n]. unfold ParsePrefix, prefix_string. cbn [p_addr p_bits] in *.
    rewrite (split_on_app _ _ _ (addr_string_no_slash x Ha)).
    pose proof Itoa_octet_table as T. rewrite Forall_forall in T.
    destruct (T n) as (_ & _ & Hn); [apply elem_of_seqZ; lia|]. rewrite split_on_word by done.
    rewrite (proj2 (ParseAddr_iff _ _) (conj Ha eq_refl)).
    by rewrite (proj2 (parse_bits_iff _ _) (conj Hb eq_refl)).
Qed.

Lemma prefix_string_inj p q :
  valid_prefix p → valid_prefix q → prefix_string p = prefix_string q → p = q.
Proof.
  intros Hp Hq E. pose proof (proj2 (ParsePrefix_iff _ _) (conj Hp eq_refl)) as H1.
  pose proof (proj2 (ParsePrefix_iff _ _) (conj Hq eq_refl)) as H2. congruence.
Qed.

#[global] Arguments addr_string : simpl never.
#[global] Arguments prefix_string : simpl never.
#[global] Arguments ParseAddr : simpl never.
#[global] Arguments ParsePrefix : simpl never.
#[global] Arguments ParseCIDR : simpl never.
#[global] Arguments Contains : simpl never.
#[global] Arguments host_size : simpl never.
#[global] Arguments IsGlobalUnicast : simpl never.
#[global] Opaque Itoa.
