(* ===== verification/NetIP.v ===== *)
(** * Package net: addresses as byte slices, and host:port text

    A [net.IP] is a slice of 4 or of 16 bytes; an IPv4 address has both forms, and
    code that indexes the bytes sees the difference. *)
From S2P Require Import Prelude GoStd IPv4.
From Stdlib Require Import Ascii.

(** ** Byte forms *)
Definition v4InV6Prefix : list Z := replicate 10 0 ++ [255; 255].
(** [net.IPv4]: the 16-byte form. *)
Definition IPv4_bytes (a : Z) : list Z := v4InV6Prefix ++ As4 a.
Definition To4 (ip : list Z) : option (list Z) :=
  if (length ip =? 4)%nat then Some ip
  else if (length ip =? 16)%nat && (take 12 ip == v4InV6Prefix) then Some (drop 12 ip)
  else None.
Definition addr_of_bytes (ip : list Z) : Z := foldl (λ acc b, acc * 256 + b) 0 ip.

(** ** [net.ParseIP] *)
Definition hex_value (c : Z) : option Z :=
  if digit c then Some (c - 48)
  else if (97 <=? c) && (c <=? 102) then Some (c - 87)
  else if (65 <=? c) && (c <=? 70) then Some (c - 55)
  else None.
(** A group of at most four hexadecimal digits. *)
Fixpoint read_hex (acc : Z) (count : nat) (l : list Z) : option (Z * nat * list Z) :=
  match l with
  | [] => Some (acc, count, [])
  | c :: r =>
      match hex_value c with
      | Some d => if (3 <? count)%nat then None else read_hex (acc * 16 + d) (S count) r
      | None => Some (acc, count, l)
      end
  end.

(** The groups of an IPv6 text: the bytes read, the position of the ellipsis and
    what is left.  Each group writes two bytes, so that eight rounds are enough. *)
Fixpoint parse_groups (fuel : nat) (ip : list Z) (ellipsis : option nat) (s : list Z) :
    option (list Z * option nat * list Z) :=
  match fuel with
  | O => Some (ip, ellipsis, s)
  | S fuel =>
      '(acc, count, rest) ← read_hex 0 0 s;
      if (count =? 0)%nat then None else
      match rest with
      | 46 :: _ =>
          if (match ellipsis with None => negb (length ip =? 12)%nat | Some _ => false end) || (16 <? length ip + 4)%nat then None
          else a ← ParseAddr (string_of s); Some (ip ++ As4 a, ellipsis, [])
      | [] => Some (ip ++ [acc / 256; acc mod 256], ellipsis, [])
      | 58 :: 58 :: rest =>
          match ellipsis with
          | Some _ => None
          | None =>
              let ip := ip ++ [acc / 256; acc mod 256] in
              if (length rest =? 0)%nat then Some (ip, Some (length ip), [])
              else parse_groups fuel ip (Some (length ip)) rest
          end
      | 58 :: c :: rest => parse_groups fuel (ip ++ [acc / 256; acc mod 256]) ellipsis (c :: rest)
      | _ => None
      end
  end.
Definition parseIPv6 (s : list Z) : option (list Z) :=
  '(ip, ellipsis, rest) ← match s with
                          | [58; 58] => Some ([], Some 0%nat, [])
                          | 58 :: 58 :: r => parse_groups 8 [] (Some 0%nat) r
                          | _ => parse_groups 8 [] None s
                          end;
  if negb (length rest =? 0)%nat then None
  else match ellipsis with
       | None => if (length ip =? 16)%nat then Some ip else None
       | Some e => if (length ip <? 16)%nat then Some (take e ip ++ replicate (16 - length ip) 0 ++ drop e ip) else None
       end.

(** The first of '.', ':' and '%' decides how the text is read; an address with a
    zone is not an IP. *)
Fixpoint first_separator (l : list Z) : option Z :=
  match l with
  | [] => None
  | c :: r => if (c =? 46) || (c =? 58) || (c =? 37) then Some c else first_separator r
  end.
Definition ParseIP (s : string) : option (list Z) :=
  if contains_char s "%" then None else
  match first_separator (bytes_of s) with
  | Some 46 => IPv4_bytes <$> ParseAddr s
  | Some 58 => parseIPv6 (bytes_of s)
  | _ => None
  end.

Example ParseIP_loopback : ParseIP "::1" = Some (replicate 15 0 ++ [1]).
Proof. vm_compute. reflexivity. Qed.
Example ParseIP_mapped : ParseIP "::ffff:10.42.0.9" = Some (IPv4_bytes 170524681).
Proof. vm_compute. reflexivity. Qed.
Example ParseIP_full : ParseIP "2001:db8:0:0:1:0:0:1" = ParseIP "2001:db8::1:0:0:1".
Proof. vm_compute. reflexivity. Qed.
Example ParseIP_bad : ParseIP "1::2::3" = None ∧ ParseIP "12345::" = None ∧ ParseIP "1:2:3:4:5:6:7" = None ∧ ParseIP "::1%eth0" = None.
Proof. vm_compute. done. Qed.

(** ** [net.SplitHostPort] *)
Fixpoint index_byte (c : Z) (l : list Z) : option nat :=
  match l with
  | [] => None
  | x :: r => if x =? c then Some 0%nat else S <$> index_byte c r
  end.
Definition last_index_byte (c : Z) (l : list Z) : option nat :=
  (λ i, (length l - 1 - i)%nat) <$> index_byte c (reverse l).
Definition SplitHostPort (hostport : string) : option (string * string) :=
  let l := bytes_of hostport in
  i ← last_index_byte 58 l;
  '(host, j, k) ← match l with
                  | 91 :: _ =>
                      end_ ← index_byte 93 l;
                      if (S end_ =? i)%nat then Some (take (end_ - 1) (drop 1 l), 1%nat, S end_) else None
                  | _ => if bool_decide (58 ∈ take i l) then None else Some (take i l, 0%nat, 0%nat)
                  end;
  if bool_decide (91 ∈ drop j l) || bool_decide (93 ∈ drop k l) then None
  else Some (string_of host, string_of (drop (S i) l)).

Example SplitHostPort_v6 : SplitHostPort "[::1]:4242" = Some ("::1", "4242").
Proof. vm_compute. reflexivity. Qed.
Example SplitHostPort_name : SplitHostPort "vpn.example.org:4242" = Some ("vpn.example.org", "4242").
Proof. vm_compute. reflexivity. Qed.
Example SplitHostPort_bad : SplitHostPort "::1:4242" = None ∧ SplitHostPort "host" = None ∧ SplitHostPort "[::1]" = None.
Proof. vm_compute. done. Qed.
