(* ===== verification/Model.v ===== *)
(** * The control-state data model (internal/control/model.go)

    One module per Go struct, its record [t] with the struct's fields in order,
    its zero value [zero] and decidable equality.  Pointers to times are optional
    times; slices whose nil-ness the code tests are optional lists. *)
From S2P Require Import Prelude GoStd.

(** The values of an audit event's details ([map[string]any]).  A map is an
    association list with distinct keys. *)
Inductive detail :=
  | DNull
  | DBool (b : bool)
  | DInt (z : Z)
  | DString (s : string)
  | DTime (t : time)
  | DNumber (finite : bool)  (* a float or json.Number *)
  | DOther  (* a value of a type the validator does not know *)
  | DArray (l : list detail)
  | DObject (l : list (string * detail)).


(** dns.go: disabled and port-less when zero *)
Module NetworkDNSSettings.
Record t := make {
  Enabled : bool;
  ListenPort : Z;
  NativeResolver : bool;
  SearchDomain : string
}.
#[global] Instance t_eta : Eta t := λ r, make (Enabled r) (ListenPort r) (NativeResolver r)
    (SearchDomain r).
#[global] Instance NetworkDNSSettings_eq_dec : EqDecision t.
Proof. solve_decision. Defined.
Definition zero : t := make false 0 false "".
End NetworkDNSSettings.

(** relays.go *)
Module NetworkRelaySettings.
Record t := make {
  Enabled : bool;
  RelayNodeIDs : slice string
}.
#[global] Instance t_eta : Eta t := λ r, make (Enabled r) (RelayNodeIDs r).
#[global] Instance NetworkRelaySettings_eq_dec : EqDecision t.
Proof. solve_decision. Defined.
Definition zero : t := make false None.
End NetworkRelaySettings.

(** ca_rotation.go: the stable state is the zero value *)
Module NetworkCARotation.
Record t := make {
  Phase : string;
  NextCACertificate : string;
  EncryptedNextCAKey : string;
  PreviousTrustBundleSHA256 : string;
  TargetCACertificateSHA256 : string;
  StartedAt : time;
  StageStartedAt : time;
  StageConfigRevision : Z
}.
#[global] Instance t_eta : Eta t := λ r, make (Phase r) (NextCACertificate r)
    (EncryptedNextCAKey r) (PreviousTrustBundleSHA256 r) (TargetCACertificateSHA256 r)
    (StartedAt r) (StageStartedAt r) (StageConfigRevision r).
#[global] Instance NetworkCARotation_eq_dec : EqDecision t.
Proof. solve_decision. Defined.
Definition zero : t := make "" "" "" "" "" 0 0 0.
End NetworkCARotation.

(** firewall.go *)
Module FirewallRule.
Record t := make {
  Proto : string;
  Port : string;
  Group : string;
  Host : string;
  PeerNodeID : string;
  TargetGroup : string;
  TargetNodeID : string
}.
#[global] Instance t_eta : Eta t := λ r, make (Proto r) (Port r) (Group r) (Host r)
    (PeerNodeID r) (TargetGroup r) (TargetNodeID r).
#[global] Instance FirewallRule_eq_dec : EqDecision t.
Proof. solve_decision. Defined.
Definition zero : t := make "" "" "" "" "" "" "".
End FirewallRule.

(** firewall.go *)
Module FirewallPolicy.
Record t := make {
  Mode : string;
  RendererVersion : Z;
  Inbound : slice FirewallRule.t;
  Outbound : slice FirewallRule.t
}.
#[global] Instance t_eta : Eta t := λ r, make (Mode r) (RendererVersion r) (Inbound r)
    (Outbound r).
#[global] Instance FirewallPolicy_eq_dec : EqDecision t.
Proof. solve_decision. Defined.
Definition zero : t := make "" 0 None None.
End FirewallPolicy.

(** firewall_rollout.go *)
Module NetworkFirewallRollout.
Record t := make {
  Phase : string;
  TargetPolicy : FirewallPolicy.t;
  CanaryNodeIDs : slice string;
  StartedAt : time;
  PausedAt : time;
  StageConfigRevision : Z
}.
#[global] Instance t_eta : Eta t := λ r, make (Phase r) (TargetPolicy r) (CanaryNodeIDs r)
    (StartedAt r) (PausedAt r) (StageConfigRevision r).
#[global] Instance NetworkFirewallRollout_eq_dec : EqDecision t.
Proof. solve_decision. Defined.
Definition zero : t := make "" FirewallPolicy.zero None 0 0 0.
End NetworkFirewallRollout.

(** model.go *)
Module NetworkRouteTransfer.
Record t := make {
  RequestID : string;
  Phase : string;
  SourceNodeID : string;
  TargetNodeID : string;
  RoutedSubnets : slice string;
  SourceOriginalSubnets : slice string;
  TargetOriginalSubnets : slice string;
  TargetCertificateGeneration : Z;
  SourceCertificateGeneration : Z;
  StartedAt : time;
  PromotedAt : time;
  FinishedAt : time
}.
#[global] Instance t_eta : Eta t := λ r, make (RequestID r) (Phase r) (SourceNodeID r)
    (TargetNodeID r) (RoutedSubnets r) (SourceOriginalSubnets r) (TargetOriginalSubnets r)
    (TargetCertificateGeneration r) (SourceCertificateGeneration r) (StartedAt r) (PromotedAt r)
    (FinishedAt r).
#[global] Instance NetworkRouteTransfer_eq_dec : EqDecision t.
Proof. solve_decision. Defined.
Definition zero : t := make "" "" "" "" None None None 0 0 0 0 0.
End NetworkRouteTransfer.

(** model.go *)
Module NetworkRouteProfileEdit.
Record t := make {
  RequestID : string;
  Phase : string;
  NodeID : string;
  OriginalSubnets : slice string;
  DesiredSubnets : slice string;
  PreparedCertificateGeneration : Z;
  CleanupCertificateGeneration : Z;
  StartedAt : time;
  PromotedAt : time;
  FinishedAt : time
}.
#[global] Instance t_eta : Eta t := λ r, make (RequestID r) (Phase r) (NodeID r)
    (OriginalSubnets r) (DesiredSubnets r) (PreparedCertificateGeneration r)
    (CleanupCertificateGeneration r) (StartedAt r) (PromotedAt r) (FinishedAt r).
#[global] Instance NetworkRouteProfileEdit_eq_dec : EqDecision t.
Proof. solve_decision. Defined.
Definition zero : t := make "" "" "" None None 0 0 0 0 0.
End NetworkRouteProfileEdit.

(** model.go *)
Module NetworkRoutePolicyGateway.
Record t := make {
  NodeID : string;
  Weight : Z
}.
#[global] Instance t_eta : Eta t := λ r, make (NodeID r) (Weight r).
#[global] Instance NetworkRoutePolicyGateway_eq_dec : EqDecision t.
Proof. solve_decision. Defined.
Definition zero : t := make "" 0.
End NetworkRoutePolicyGateway.

(** model.go *)
Module NetworkRoutePolicy.
Record t := make {
  Prefix : string;
  Gateways : list NetworkRoutePolicyGateway.t;
  MTU : Z;
  Metric : Z;
  RequestID : string;
  ConfigRevision : Z;
  UpdatedAt : time
}.
#[global] Instance t_eta : Eta t := λ r, make (Prefix r) (Gateways r) (MTU r) (Metric r)
    (RequestID r) (ConfigRevision r) (UpdatedAt r).
#[global] Instance NetworkRoutePolicy_eq_dec : EqDecision t.
Proof. solve_decision. Defined.
Definition zero : t := make "" [] 0 0 "" 0 0.
End NetworkRoutePolicy.

(** model.go *)
Module Network.
Record t := make {
  ID : string;
  Name : string;
  CIDR : string;
  DNSSettings : NetworkDNSSettings.t;
  RelaySettings : NetworkRelaySettings.t;
  CARotation : NetworkCARotation.t;
  FirewallRollout : NetworkFirewallRollout.t;
  RouteTransfer : NetworkRouteTransfer.t;
  RouteProfileEdit : NetworkRouteProfileEdit.t;
  RoutePolicies : slice NetworkRoutePolicy.t;
  FirewallPolicy : FirewallPolicy.t;
  ListenPort : Z;
  CertificateTTL : Z;
  CACertificate : string;
  EncryptedCAKey : string;
  ConfigSigningPublicKey : string;
  EncryptedConfigSigningKey : string;
  ConfigRevision : Z;
  ConfigUpdatedAt : time;
  CreatedAt : time
}.
#[global] Instance t_eta : Eta t := λ r, make (ID r) (Name r) (CIDR r) (DNSSettings r)
    (RelaySettings r) (CARotation r) (FirewallRollout r) (RouteTransfer r) (RouteProfileEdit r)
    (RoutePolicies r) (FirewallPolicy r) (ListenPort r) (CertificateTTL r) (CACertificate r)
    (EncryptedCAKey r) (ConfigSigningPublicKey r) (EncryptedConfigSigningKey r)
    (ConfigRevision r) (ConfigUpdatedAt r) (CreatedAt r).
#[global] Instance Network_eq_dec : EqDecision t.
Proof. solve_decision. Defined.
Definition zero : t := make "" "" "" NetworkDNSSettings.zero NetworkRelaySettings.zero
    NetworkCARotation.zero NetworkFirewallRollout.zero NetworkRouteTransfer.zero
    NetworkRouteProfileEdit.zero None FirewallPolicy.zero 0 0 "" "" "" "" 0 0 0.
End Network.

(** model.go *)
Module Node.
Record t := make {
  ID : string;
  NetworkID : string;
  Name : string;
  IP : string;
  RoutedSubnets : slice string;
  Site : string;
  FailureDomain : string;
  Groups : list string;
  Role : string;
  PublicEndpoint : string;
  Status : string;
  Certificate : string;
  CertificateFingerprint : string;
  CertificateAuthoritySHA256 : string;
  CertificateExpiresAt : option time;
  CertificateRenewAfter : option time;
  CertificateGeneration : Z;
  AppliedConfigRevision : Z;
  AppliedCertificateGeneration : Z;
  AppliedConfigSHA256 : string;
  ReportedCertificateFingerprint : string;
  NebulaRunning : bool;
  NativeDNSActive : bool;
  AgentVersion : string;
  NebulaVersion : string;
  AgentStatus : string;
  AgentBootID : string;
  HeartbeatSequence : Z;
  LastError : string;
  LastSeenAt : option time;
  AgentTokenHash : string;
  PreviousAgentTokenHash : string;
  PreviousAgentTokenExpiresAt : option time;
  AgentCredentialExpiresAt : option time;
  AgentCredentialLastUsedAt : option time;
  AgentCredentialGeneration : Z;
  PublicKeyHash : string;
  RenewalClaimID : string;
  RenewalClaimedAt : option time;
  LastRenewedAt : option time;
  CreatedAt : time;
  EnrolledAt : option time;
  RevokedAt : option time
}.
#[global] Instance t_eta : Eta t := λ r, make (ID r) (NetworkID r) (Name r) (IP r)
    (RoutedSubnets r) (Site r) (FailureDomain r) (Groups r) (Role r) (PublicEndpoint r)
    (Status r) (Certificate r) (CertificateFingerprint r) (CertificateAuthoritySHA256 r)
    (CertificateExpiresAt r) (CertificateRenewAfter r) (CertificateGeneration r)
    (AppliedConfigRevision r) (AppliedCertificateGeneration r) (AppliedConfigSHA256 r)
    (ReportedCertificateFingerprint r) (NebulaRunning r) (NativeDNSActive r) (AgentVersion r)
    (NebulaVersion r) (AgentStatus r) (AgentBootID r) (HeartbeatSequence r) (LastError r)
    (LastSeenAt r) (AgentTokenHash r) (PreviousAgentTokenHash r) (PreviousAgentTokenExpiresAt r)
    (AgentCredentialExpiresAt r) (AgentCredentialLastUsedAt r) (AgentCredentialGeneration r)
    (PublicKeyHash r) (RenewalClaimID r) (RenewalClaimedAt r) (LastRenewedAt r) (CreatedAt r)
    (EnrolledAt r) (RevokedAt r).
#[global] Instance Node_eq_dec : EqDecision t.
Proof. solve_decision. Defined.
Definition zero : t := make "" "" "" "" None "" "" [] "" "" "" "" "" "" None None 0 0 0 "" ""
    false false "" "" "" "" 0 "" None "" "" None None None 0 "" "" None None 0 None None.
End Node.

(** model.go *)
Module EnrollmentToken.
Record t := make {
  ID : string;
  NodeID : string;
  TokenHash : string;
  CreatedAt : time;
  ExpiresAt : time;
  UsedAt : option time;
  ClaimID : string;
  ClaimedAt : option time;
  ClaimKeyHash : string
}.
#[global] Instance t_eta : Eta t := λ r, make (ID r) (NodeID r) (TokenHash r) (CreatedAt r)
    (ExpiresAt r) (UsedAt r) (ClaimID r) (ClaimedAt r) (ClaimKeyHash r).
#[global] Instance EnrollmentToken_eq_dec : EqDecision t.
Proof. solve_decision. Defined.
Definition zero : t := make "" "" "" 0 0 None "" None "".
End EnrollmentToken.

(** model.go *)
Module EnrollmentBundle.
Record t := make {
  NodeID : string;
  NetworkID : string;
  Node : Node.t;
  Certificate : string;
  CA : string;
  Config : string;
  ConfigRevision : Z;
  CertificateExpiresAt : time;
  CertificateRenewAfter : time;
  AgentCredentialExpiresAt : time;
  AgentCredentialGeneration : Z;
  ConfigIssuedAt : time;
  ConfigSHA256 : string;
  CACertificateSHA256 : string;
  PreviousCACertificateSHA256 : string;
  CARotationRequired : bool;
  CertificateProfileRenewalRequired : bool;
  CertificateFingerprint : string;
  CertificateGeneration : Z;
  PublicKeyHash : string;
  ConfigSignature : string;
  ConfigSigningPublicKey : string
}.
#[global] Instance t_eta : Eta t := λ r, make (NodeID r) (NetworkID r) (Node r) (Certificate r)
    (CA r) (Config r) (ConfigRevision r) (CertificateExpiresAt r) (CertificateRenewAfter r)
    (AgentCredentialExpiresAt r) (AgentCredentialGeneration r) (ConfigIssuedAt r)
    (ConfigSHA256 r) (CACertificateSHA256 r) (PreviousCACertificateSHA256 r)
    (CARotationRequired r) (CertificateProfileRenewalRequired r) (CertificateFingerprint r)
    (CertificateGeneration r) (PublicKeyHash r) (ConfigSignature r) (ConfigSigningPublicKey r).
#[global] Instance EnrollmentBundle_eq_dec : EqDecision t.
Proof. solve_decision. Defined.
Definition zero : t := make "" "" Node.zero "" "" "" 0 0 0 0 0 0 "" "" "" false false "" 0 "" ""
    "".
End EnrollmentBundle.

(** model.go *)
Module RecoveryReceipt.
Record t := make {
  NodeID : string;
  NetworkID : string;
  NewAgentTokenHash : string;
  AgentCredentialGeneration : Z;
  AgentCredentialExpiresAt : time;
  ConfigSHA256 : string;
  ConfigSignature : string;
  Signature : string
}.
#[global] Instance t_eta : Eta t := λ r, make (NodeID r) (NetworkID r) (NewAgentTokenHash r)
    (AgentCredentialGeneration r) (AgentCredentialExpiresAt r) (ConfigSHA256 r)
    (ConfigSignature r) (Signature r).
#[global] Instance RecoveryReceipt_eq_dec : EqDecision t.
Proof. solve_decision. Defined.
Definition zero : t := make "" "" "" 0 0 "" "" "".
End RecoveryReceipt.

(** model.go *)
Module AgentRecoveryBundle.
Record t := make {
  Bundle : EnrollmentBundle.t;
  Receipt : RecoveryReceipt.t
}.
#[global] Instance t_eta : Eta t := λ r, make (Bundle r) (Receipt r).
#[global] Instance AgentRecoveryBundle_eq_dec : EqDecision t.
Proof. solve_decision. Defined.
Definition zero : t := make EnrollmentBundle.zero RecoveryReceipt.zero.
End AgentRecoveryBundle.

(** model.go *)
Module AgentRecoveryToken.
Record t := make {
  ID : string;
  NodeID : string;
  TokenHash : string;
  CreatedAt : time;
  ExpiresAt : time;
  UsedAt : option time;
  ClaimID : string;
  ClaimedAt : option time;
  ClaimKeyHash : string;
  ClaimedCredentialGeneration : Z;
  CredentialGeneration : Z;
  CredentialExpiresAt : option time;
  Result : option AgentRecoveryBundle.t
}.
#[global] Instance t_eta : Eta t := λ r, make (ID r) (NodeID r) (TokenHash r) (CreatedAt r)
    (ExpiresAt r) (UsedAt r) (ClaimID r) (ClaimedAt r) (ClaimKeyHash r)
    (ClaimedCredentialGeneration r) (CredentialGeneration r) (CredentialExpiresAt r) (Result r).
#[global] Instance AgentRecoveryToken_eq_dec : EqDecision t.
Proof. solve_decision. Defined.
Definition zero : t := make "" "" "" 0 0 None "" None "" 0 0 None None.
End AgentRecoveryToken.

(** model.go *)
Module CertificateRevocation.
Record t := make {
  Fingerprint : string;
  NodeID : string;
  NetworkID : string;
  Reason : string;
  At : time;
  ExpiresAt : option time
}.
#[global] Instance t_eta : Eta t := λ r, make (Fingerprint r) (NodeID r) (NetworkID r)
    (Reason r) (At r) (ExpiresAt r).
#[global] Instance CertificateRevocation_eq_dec : EqDecision t.
Proof. solve_decision. Defined.
Definition zero : t := make "" "" "" "" 0 None.
End CertificateRevocation.

(** model.go *)
Module CertificateIssuance.
Record t := make {
  Fingerprint : string;
  NodeID : string;
  NetworkID : string;
  IssuedAt : time;
  ExpiresAt : time
}.
#[global] Instance t_eta : Eta t := λ r, make (Fingerprint r) (NodeID r) (NetworkID r)
    (IssuedAt r) (ExpiresAt r).
#[global] Instance CertificateIssuance_eq_dec : EqDecision t.
Proof. solve_decision. Defined.
Definition zero : t := make "" "" "" 0 0.
End CertificateIssuance.

(** model.go *)
Module AuditEvent.
Record t := make {
  ID : string;
  Action : string;
  Resource : string;
  ResourceID : string;
  At : time;
  Details : slice (string * detail)
}.
#[global] Instance t_eta : Eta t := λ r, make (ID r) (Action r) (Resource r) (ResourceID r)
    (At r) (Details r).
Definition zero : t := make "" "" "" "" 0 None.
End AuditEvent.

(** model.go *)
Module State.
Record t := make {
  Version : Z;
  MasterKeyVerifier : string;
  AdminCredentialVerifier : string;
  Networks : list Network.t;
  Nodes : list Node.t;
  Enrollments : list EnrollmentToken.t;
  AgentRecoveries : list AgentRecoveryToken.t;
  Issuances : list CertificateIssuance.t;
  Revocations : list CertificateRevocation.t;
  Audit : list AuditEvent.t
}.
#[global] Instance t_eta : Eta t := λ r, make (Version r) (MasterKeyVerifier r)
    (AdminCredentialVerifier r) (Networks r) (Nodes r) (Enrollments r) (AgentRecoveries r)
    (Issuances r) (Revocations r) (Audit r).
Definition zero : t := make 0 "" "" [] [] [] [] [] [] [].
End State.

(** ** Constants *)
Definition ControlStateVersionCredentialBinding : Z := 2.
Definition ControlStateVersionTopology : Z := 3.
Definition ControlStateVersionNetworkDNS : Z := 4.
Definition ControlStateVersionNetworkRelays : Z := 5.
Definition ControlStateVersionCARotation : Z := 6.
Definition ControlStateVersionFirewallRollout : Z := 7.
Definition ControlStateVersionFirewallPause : Z := 8.
Definition ControlStateVersionRouteTransfer : Z := 9.
Definition ControlStateVersionRouteProfileEdit : Z := 10.
Definition ControlStateVersionRoutePolicies : Z := 11.
Definition ControlStateVersionNativeDNS : Z := 12.
Definition ControlStateVersionFirewallScopes : Z := 13.
Definition UnassignedTopologyLabel : string := "unassigned".

Definition RouteTransferPhasePreparingTarget : string := "preparing_target".
Definition RouteTransferPhaseCleaningSource : string := "cleaning_source".
Definition RouteTransferPhaseCleaningTarget : string := "cleaning_target".
Definition RouteTransferPhaseCompleted : string := "completed".
Definition RouteTransferPhaseCancelled : string := "cancelled".

Definition RouteProfileEditPhasePreparingOwner : string := "preparing_owner".
Definition RouteProfileEditPhaseCleaningOwner : string := "cleaning_owner".
Definition RouteProfileEditPhaseCleaningCancelledOwner : string := "cleaning_cancelled_owner".
Definition RouteProfileEditPhaseCompleted : string := "completed".
Definition RouteProfileEditPhaseCancelled : string := "cancelled".

Definition CARotationPhasePrepared : string := "prepared".
Definition CARotationPhaseRotating : string := "rotating".
Definition CARotationPhaseFinalizing : string := "finalizing".
Definition CARotationPhaseAborting : string := "aborting".

Definition FirewallRolloutPhaseCanary : string := "canary".
Definition FirewallRolloutPhasePaused : string := "paused".

(** ** Finders (service.go) *)
Definition findNetwork (state : State.t) (id : string) : option Network.t :=
  snd <$> list_find (λ v, Network.ID v = id) (State.Networks state).
Definition findNode (state : State.t) (id : string) : option Node.t :=
  snd <$> list_find (λ v, Node.ID v = id) (State.Nodes state).

(** [for i := range state.Networks { network := &state.Networks[i]; if network.ID
    != id { continue }; ... }]: the index and the network the loop stops at. *)
Definition network_at (state : State.t) (id : string) : option (nat * Network.t) :=
  list_find (λ v, Network.ID v = id) (State.Networks state).

(** Assignment through a pointer to the network at an index. *)
Definition put_network (state : State.t) (i : nat) (network : Network.t) : State.t :=
  state <| State.Networks := <[i := network]> (State.Networks state) |>.

(** The same for [state.Nodes]. *)
Definition node_at (state : State.t) (id : string) : option (nat * Node.t) :=
  list_find (λ v, Node.ID v = id) (State.Nodes state).
Definition put_node (state : State.t) (i : nat) (node : Node.t) : State.t :=
  state <| State.Nodes := <[i := node]> (State.Nodes state) |>.

(** [state.Audit = append(state.Audit, event)] *)
Definition append_audit (state : State.t) (event : AuditEvent.t) : State.t :=
  state <| State.Audit := State.Audit state ++ [event] |>.

(** Assignment to every node with an ID, the way the loops over [state.Nodes]
    write. *)
Definition map_nodes (f : Node.t → Node.t) (state : State.t) : State.t :=
  state <| State.Nodes := f <$> State.Nodes state |>.

(** ** Lemmas on the finders *)
Lemma findNode_Some state id n :
  findNode state id = Some n → n ∈ State.Nodes state ∧ Node.ID n = id.
Proof.
  unfold findNode. intros ([i n'] & H & ->)%fmap_Some.
  apply list_find_Some in H as (Hl & ? & _). split; [|done]. by eapply list_elem_of_lookup_2.
Qed.
Lemma findNetwork_Some state id n :
  findNetwork state id = Some n → n ∈ State.Networks state ∧ Network.ID n = id.
Proof.
  unfold findNetwork. intros ([i n'] & H & ->)%fmap_Some.
  apply list_find_Some in H as (Hl & ? & _). split; [|done]. by eapply list_elem_of_lookup_2.
Qed.
Lemma network_at_Some state id i n :
  network_at state id = Some (i, n) → State.Networks state !! i = Some n ∧ Network.ID n = id.
Proof. unfold network_at. intros (? & ? & _)%list_find_Some. done. Qed.
Lemma network_at_find state id i n :
  network_at state id = Some (i, n) → findNetwork state id = Some n.
Proof. unfold network_at, findNetwork. by intros ->. Qed.

(** ** Writing a network or the nodes back *)
Lemma network_at_put state id i n n' :
  network_at state id = Some (i, n) → Network.ID n' = Network.ID n →
  network_at (put_network state i n') id = Some (i, n').
Proof.
  unfold network_at, put_network; simpl. intros (Hi & Hid & Hlt)%list_find_Some E.
  apply list_find_Some. split_and!.
  - apply list_lookup_insert_eq. by eapply lookup_lt_Some.
  - by rewrite E.
  - intros j m Hj Hji. rewrite list_lookup_insert_ne in Hj by lia. eauto.
Qed.

Lemma network_at_append state event id : network_at (append_audit state event) id = network_at state id.
Proof. done. Qed.

Lemma network_at_map_nodes f state id : network_at (map_nodes f state) id = network_at state id.
Proof. done. Qed.

Lemma findNode_map f state nid :
  (∀ n, Node.ID (f n) = Node.ID n) → findNode (map_nodes f state) nid = f <$> findNode state nid.
Proof.
  intros Hf. unfold findNode, map_nodes; simpl. induction (State.Nodes state) as [|n l IH]; [done|].
  csimpl. destruct (decide (Node.ID n = nid)) as [E|E].
  - by rewrite !decide_True by (rewrite ?Hf; done).
  - rewrite !decide_False by (rewrite ?Hf; done).
    destruct (list_find (λ v, Node.ID v = nid) (f <$> l)) as [[i a]|],
      (list_find (λ v, Node.ID v = nid) l) as [[j b]|]; cbn in IH |- *; congruence.
Qed.

Lemma put_network_lookup state i n j m :
  State.Networks (put_network state i n) !! j = Some m →
  (j = i ∧ m = n) ∨ (j ≠ i ∧ State.Networks state !! j = Some m).
Proof.
  unfold put_network; simpl. intros H. destruct (decide (j = i)) as [->|Hne].
  - left. split; [done|]. apply list_lookup_insert_Some in H. naive_solver.
  - right. by rewrite list_lookup_insert_ne in H.
Qed.

Lemma node_at_Some state id i n :
  node_at state id = Some (i, n) → State.Nodes state !! i = Some n ∧ Node.ID n = id.
Proof. unfold node_at. intros (? & ? & _)%list_find_Some. done. Qed.
Lemma node_at_find state id i n : node_at state id = Some (i, n) → findNode state id = Some n.
Proof. unfold node_at, findNode. by intros ->. Qed.
Lemma findNode_at state id n : findNode state id = Some n → ∃ i, node_at state id = Some (i, n).
Proof. unfold findNode, node_at. intros ([i m] & -> & ->)%fmap_Some. eauto. Qed.

(** Writing a node back changes what is found under its identifier only. *)
Lemma node_at_put state id i n n' :
  node_at state id = Some (i, n) → Node.ID n' = Node.ID n → node_at (put_node state i n') id = Some (i, n').
Proof.
  unfold node_at, put_node; simpl. intros (Hi & Hid & Hlt)%list_find_Some E.
  apply list_find_Some. split_and!.
  - apply list_lookup_insert_eq. by eapply lookup_lt_Some.
  - by rewrite E.
  - intros j m Hj Hji. rewrite list_lookup_insert_ne in Hj by lia. eauto.
Qed.

Lemma find_insert_ne {A} (P : A → Prop) `{∀ x, Decision (P x)} (l : list A) i x y :
  l !! i = Some x → ¬ P x → ¬ P y → snd <$> list_find P (<[i := y]> l) = snd <$> list_find P l.
Proof.
  revert i. induction l as [|z l IH]; intros [|i] Hi Hx Hy; csimpl; try done.
  - injection Hi as ->. by rewrite !decide_False by done.
  - case_decide; [done|]. specialize (IH i Hi Hx Hy).
    destruct (list_find P (<[i := y]> l)) as [[a b]|], (list_find P l) as [[c d]|]; cbn in IH |- *; congruence.
Qed.

Lemma findNode_put state id i n n' nid :
  node_at state id = Some (i, n) → Node.ID n' = Node.ID n →
  findNode (put_node state i n') nid = if decide (nid = id) then Some n' else findNode state nid.
Proof.
  intros Hn Hid. case_decide as E.
  - subst nid. unfold findNode. change (list_find _ _) with (node_at (put_node state i n') id).
    by rewrite (node_at_put _ _ _ _ _ Hn).
  - apply node_at_Some in Hn as [Hi Hnid]. unfold findNode, put_node; simpl. apply (find_insert_ne _ _ _ n); congruence.
Qed.

(** Two nodes with one identifier are one node. *)
Lemma findNode_unique state node :
  NoDup (Node.ID <$> State.Nodes state) → node ∈ State.Nodes state → findNode state (Node.ID node) = Some node.
Proof.
  intros Hnd Hin. destruct (findNode state (Node.ID node)) as [m|] eqn:E.
  - apply findNode_Some in E as [Hm Hid]. f_equal.
    apply list_elem_of_lookup_1 in Hin as [i Hi], Hm as [j Hj].
    assert (i = j) as ->; [|congruence].
    eapply (NoDup_lookup (Node.ID <$> State.Nodes state)); [done| |];
      rewrite list_lookup_fmap; [by rewrite Hi|rewrite Hj; simpl; by rewrite Hid].
  - unfold findNode in E. apply fmap_None, list_find_None in E. rewrite Forall_forall in E.
    by destruct (E node Hin).
Qed.
