(* ===== verification/AuditLog.v ===== *)
(** * Actors, audit events and persisted-value checks (internal/control/actor.go,
    model_validation.go, and the token helpers of crypto.go, store.go, service.go)

    Every mutation appends an audit event; its details are bounded in depth, keys,
    scalars and bytes by a budget threaded through the traversal. *)
From S2P Require Import Prelude GoStd Sha256 Model.
From Stdlib Require Import Ascii.

(** ** Grammars *)
Definition name_tail (z : Z) : bool := alnum z || (z =? 46) || (z =? 95) || (z =? 45).
Definition group_tail (z : Z) : bool := alnum z || (z =? 95) || (z =? 45).
Definition topology_head (z : Z) : bool := lower_alpha z || digit z.
Definition topology_tail (z : Z) : bool := topology_head z || (z =? 46) || (z =? 95) || (z =? 45).
Definition hex_digit (z : Z) : bool := digit z || ((97 <=? z) && (z <=? 102)).

Definition namePattern (s : string) : bool := match_class alnum name_tail 62 s.
Definition groupPattern (s : string) : bool := match_class alnum group_tail 31 s.
Definition topologyLabelPattern (s : string) : bool := match_class topology_head topology_tail 62 s.
Definition fingerprintPattern (s : string) : bool :=
  forallb hex_digit (bytes_of s) && (len s =? 64).
Definition auditLabelPattern (s : string) : bool :=
  match_class alnum name_tail (String.length s) s.
Definition validTopologyLabel (s : string) : bool := topologyLabelPattern s.

Definition validPersistedID (value : string) : bool :=
  if (len value <? 1) || (128 <? len value) || (TrimSpace value != value) then false
  else forallb group_tail (bytes_of value).

Definition validBoundedUTF8 (value : string) (maxBytes : Z) (allowEmpty : bool) : bool :=
  (allowEmpty || (value != "")) && (len value <=? maxBytes) && ValidString value.
(** The runes of valid UTF-8 below 0x80 are its bytes below 0x80. *)
Definition validBoundedPlainText (value : string) (maxBytes : Z) (allowEmpty : bool) : bool :=
  validBoundedUTF8 value maxBytes allowEmpty &&
  forallb (λ c, negb ((c <? 32) || (c =? 127))) (bytes_of value).
Definition validAuditLabel (value : string) (maxBytes : Z) : bool :=
  (len value <=? maxBytes) && ValidString value && auditLabelPattern value.

Definition maxNodeGroups : Z := 64.
Fixpoint groups_loop (previous : string) (foundAll : bool) (groups : list string) : bool :=
  match groups with
  | [] => foundAll
  | group :: rest =>
      if negb (groupPattern group) || ((previous != "") && str_le group previous) then false
      else groups_loop group (foundAll || (group == "all")) rest
  end.
Definition validCanonicalNodeGroups (groups : list string) : bool :=
  if (Z.of_nat (length groups) =? 0) || (maxNodeGroups <? Z.of_nat (length groups)) then false
  else groups_loop "" false groups.

(** ** Tokens and digests (crypto.go) *)
Definition ConfigDigest (config : string) : string := hex (Sum256 (bytes_of config)).
Definition HashToken (token : string) : string := b64_encode (Sum256 (bytes_of token)).
Definition canonical32 (encoded : string) : bool :=
  match b64_decode encoded with
  | Some decoded => (length decoded =? 32)%nat && (b64_encode decoded == encoded)
  | None => false
  end.
Definition ValidTokenHash (encoded : string) : bool := canonical32 encoded.
Definition ValidBearerToken (token : string) : bool := canonical32 token.
Definition TokenHashEqual (expected actual : string) : bool :=
  match b64_decode expected, b64_decode actual with
  | Some a, Some b => (length a =? 32)%nat && (length b =? 32)%nat && (a == b)
  | _, _ => false
  end.
Definition TokenEqual (expectedHash token : string) : bool :=
  match b64_decode expectedHash with
  | Some a => (length a =? length (Sum256 (bytes_of token)))%nat && (a == Sum256 (bytes_of token))
  | None => false
  end.

(** ** Actors (actor.go) *)
Module Actor.
Record t := make { ID : string; Kind : string; SessionID : string }.
#[global] Instance Actor_eq_dec : EqDecision t.
Proof. solve_decision. Defined.
End Actor.

Definition ActorKindOIDCAdmin : string := "oidc_admin".
Definition ActorKindLegacyAdmin : string := "legacy_admin".
Definition ActorKindServiceAccount : string := "service_account".
Definition ActorKindBreakGlass : string := "break_glass".
Definition ActorKindNodeAgent : string := "node_agent".
Definition legacyAdminActorID : string := "legacy_admin".
Definition auditActorIDKey : string := "actor_id".
Definition auditActorKindKey : string := "actor_kind".
Definition auditActorSessionIDKey : string := "actor_session_id".
Definition actorKeys : list string := [auditActorIDKey; auditActorKindKey; auditActorSessionIDKey].

Definition LegacyAdminActor : Actor.t := Actor.make legacyAdminActorID ActorKindLegacyAdmin "".

(** [strings.TrimPrefix] *)
Definition TrimPrefix (s p : string) : string :=
  match strip_prefix (bytes_of p) (bytes_of s) with Some r => string_of r | None => s end.

Definition validateActorKind (actor : Actor.t) : result unit :=
  let id := Actor.ID actor in
  let kind := Actor.Kind actor in
  if kind == ActorKindOIDCAdmin then
    let suffix := TrimPrefix id "oidc_" in
    fail ErrInvalid when (suffix == id) || negb (len suffix =? 43) || negb (canonical32 suffix);; Ok tt
  else if kind == ActorKindLegacyAdmin then
    fail ErrInvalid when id != legacyAdminActorID;; Ok tt
  else if kind == ActorKindServiceAccount then
    let suffix := TrimPrefix id "service_" in
    fail ErrInvalid when (suffix == id) || negb (validPersistedID suffix);; Ok tt
  else if kind == ActorKindBreakGlass then
    let suffix := TrimPrefix id "breakglass_" in
    fail ErrInvalid when (suffix == id) || negb (validPersistedID suffix);; Ok tt
  else if kind == ActorKindNodeAgent then
    fail ErrInvalid when Actor.SessionID actor != "";; Ok tt
  else Err ErrInvalid.
Definition validateActor (actor : Actor.t) : result unit :=
  fail ErrInvalid when negb (validPersistedID (Actor.ID actor));;
  _ ← validateActorKind actor;
  fail ErrInvalid when (Actor.SessionID actor != "") && negb (validPersistedID (Actor.SessionID actor));;
  Ok tt.

(** The details of one event: an association list with distinct keys. *)
Abbreviation details := (list (string * detail)) (only parsing).
Definition detail_of (d : details) (key : string) : option detail :=
  snd <$> (snd <$> list_find (λ kv, fst kv = key) d).

(** The random event ID is an argument. *)
Definition newAudit (eventID : string) (at_ : time) (action resource id : string) (d : details) :
    AuditEvent.t :=
  AuditEvent.make eventID action resource id at_ (Some d).

Definition newAttributedAudit (eventID : string) (at_ : time) (action resource id : string)
    (d : details) (actor : Actor.t) : result AuditEvent.t :=
  _ ← validateActor actor;
  fail ErrInvalid when existsb (λ key, bool_decide (is_Some (detail_of d key))) actorKeys;;
  Ok (newAudit eventID at_ action resource id
        (d ++ [(auditActorIDKey, DString (Actor.ID actor)); (auditActorKindKey, DString (Actor.Kind actor));
               (auditActorSessionIDKey, DString (Actor.SessionID actor))])).

Definition newOptionalAttributedAudit (eventID : string) (at_ : time) (action resource id : string)
    (d : details) (actor : option Actor.t) : result AuditEvent.t :=
  match actor with
  | None => Ok (newAudit eventID at_ action resource id d)
  | Some actor => newAttributedAudit eventID at_ action resource id d actor
  end.

Definition validateAuditActorMetadata (d : details) : result unit :=
  let present := length (filter (λ key, is_Some (detail_of d key)) actorKeys) in
  if (present =? 0)%nat then Ok tt else
  fail (ErrOther "partial actor attribution metadata") when negb (present =? 3)%nat;;
  match detail_of d auditActorIDKey, detail_of d auditActorKindKey, detail_of d auditActorSessionIDKey with
  | Some (DString id), Some (DString kind), Some (DString sessionID) =>
      validateActor (Actor.make id kind sessionID)
  | _, _, _ => Err (ErrOther "actor attribution metadata must contain strings")
  end.

(** ** The detail budget (model_validation.go) *)
Definition maxAuditDetailKeysPerObject : Z := 32.
Definition maxAuditDetailArrayItems : Z := 32.
Definition maxAuditDetailDepth : Z := 4.
Definition maxAuditDetailScalars : Z := 128.
Definition maxAuditDetailTotalKeys : Z := 128.
Definition maxAuditDetailStringBytes : Z := 1024.
Definition maxAuditDetailAggregateStringBytes : Z := 16384.
Definition maxAuditActionBytes : Z := 128.
Definition maxAuditResourceBytes : Z := 64.

Module auditDetailBudget.
Record t := make { keys : Z; scalars : Z; stringBytes : Z }.
#[global] Instance t_eta : Eta t := λ r, make (keys r) (scalars r) (stringBytes r).
Definition zero : t := make 0 0 0.
End auditDetailBudget.

(** The length of [t.UTC().Format(time.RFC3339Nano)] for a year of four digits:
    the fraction loses its trailing zeros. *)
Fixpoint fraction_digits (fuel : nat) (frac : Z) : Z :=
  match fuel with
  | O => 0
  | S fuel' => if frac mod 10 =? 0 then fraction_digits fuel' (frac / 10) else Z.of_nat fuel
  end.
Definition rfc3339nano_len (t : time) : Z :=
  let frac := t mod second in
  20 + (if frac =? 0 then 0 else 1 + fraction_digits 9 frac).

Definition consumeAuditScalar (b : auditDetailBudget.t) (stringBytes : Z) : result auditDetailBudget.t :=
  let b := b <| auditDetailBudget.scalars := auditDetailBudget.scalars b + 1 |>
             <| auditDetailBudget.stringBytes := auditDetailBudget.stringBytes b + stringBytes |> in
  fail (ErrOther "details exceed scalar values") when maxAuditDetailScalars <? auditDetailBudget.scalars b;;
  fail (ErrOther "detail strings exceed aggregate bytes")
    when maxAuditDetailAggregateStringBytes <? auditDetailBudget.stringBytes b;;
  Ok b.

(** The two functions are mutually recursive in Go; here the object case takes the
    value case as an argument. *)
Definition validateAuditDetailObject
    (validateValue : detail → Z → auditDetailBudget.t → result auditDetailBudget.t)
    (value : details) (depth : Z) (b : auditDetailBudget.t) : result auditDetailBudget.t :=
  fail (ErrOther "detail nesting exceeds levels") when maxAuditDetailDepth <? depth;;
  fail (ErrOther "detail object exceeds keys") when maxAuditDetailKeysPerObject <? Z.of_nat (length value);;
  let b := b <| auditDetailBudget.keys := auditDetailBudget.keys b + Z.of_nat (length value) |> in
  fail (ErrOther "details exceed total keys") when maxAuditDetailTotalKeys <? auditDetailBudget.keys b;;
  (fix loop (l : details) (b : auditDetailBudget.t) :=
     match l with
     | [] => Ok b
     | (key, child) :: rest =>
         if negb (validAuditLabel key maxAuditResourceBytes) then Err (ErrOther "detail key is invalid")
         else match validateValue child (depth + 1) b with
              | Ok b => loop rest b
              | Err e => Err e
              end
     end) value b.

Definition validate_items
    (validateValue : detail → Z → auditDetailBudget.t → result auditDetailBudget.t) (depth : Z) :=
  fix loop (l : list detail) (b : auditDetailBudget.t) : result auditDetailBudget.t :=
    match l with
    | [] => Ok b
    | child :: rest =>
        match validateValue child (depth + 1) b with
        | Ok b => loop rest b
        | Err e => Err e
        end
    end.

Fixpoint validateAuditDetailValue (value : detail) (depth : Z) (b : auditDetailBudget.t) :
    result auditDetailBudget.t :=
  fail (ErrOther "detail nesting exceeds levels") when maxAuditDetailDepth <? depth;;
  match value with
  | DObject typed => validateAuditDetailObject validateAuditDetailValue typed depth b
  | DArray typed =>
      fail (ErrOther "detail array exceeds items") when maxAuditDetailArrayItems <? Z.of_nat (length typed);;
      validate_items validateAuditDetailValue depth typed b
  | DNull | DBool _ => consumeAuditScalar b 0
  | DString typed =>
      fail (ErrOther "string is oversized, not valid UTF-8, or contains control characters")
        when negb (validBoundedPlainText typed maxAuditDetailStringBytes true);;
      consumeAuditScalar b (len typed)
  | DTime typed =>
      fail (ErrOther "time is zero") when IsZero typed;;
      consumeAuditScalar b (rfc3339nano_len typed)
  | DNumber finite => fail (ErrOther "number is not finite") when negb finite;; consumeAuditScalar b 0
  | DInt _ => consumeAuditScalar b 0
  | DOther => Err (ErrOther "unsupported detail type")
  end.

Definition validateAuditDetails (d : details) : result unit :=
  _ ← validateAuditDetailObject validateAuditDetailValue d 1 auditDetailBudget.zero; Ok tt.

(** ** What the budget bounds: the whole tree

    [total_*] count a detail tree as a whole and [well_shaped] is what is local to
    one position of it; the traversal with its running budget decides exactly the
    conjunction of the local conditions and the three global bounds. *)
Section detail_ind.
Context (P : detail → Prop).
Context (Hscalar : ∀ v, (∀ l, v ≠ DArray l) → (∀ l, v ≠ DObject l) → P v).
Context (Harray : ∀ l, Forall P l → P (DArray l)).
Context (Hobject : ∀ l, Forall (λ kv, P (snd kv)) l → P (DObject l)).

Fixpoint detail_nested_ind (v : detail) : P v :=
  match v with
  | DArray l =>
      Harray l ((fix go l : Forall P l :=
        match l with [] => Forall_nil_2 P | x :: l' => Forall_cons_2 P x l' (detail_nested_ind x) (go l') end) l)
  | DObject l =>
      Hobject l ((fix go l : Forall (λ kv, P (snd kv)) l :=
        match l with
        | [] => Forall_nil_2 _
        | x :: l' => Forall_cons_2 _ x l' (detail_nested_ind (snd x)) (go l')
        end) l)
  | v => Hscalar v ltac:(done) ltac:(done)
  end.
End detail_ind.

Definition sum_of (l : list Z) : Z := foldr Z.add 0 l.

Fixpoint total_keys (v : detail) : Z :=
  match v with
  | DObject l => Z.of_nat (length l) + sum_of (map (λ kv, total_keys (snd kv)) l)
  | DArray l => sum_of (map total_keys l)
  | _ => 0
  end.
Fixpoint total_scalars (v : detail) : Z :=
  match v with
  | DObject l => sum_of (map (λ kv, total_scalars (snd kv)) l)
  | DArray l => sum_of (map total_scalars l)
  | _ => 1
  end.
Fixpoint total_bytes (v : detail) : Z :=
  match v with
  | DObject l => sum_of (map (λ kv, total_bytes (snd kv)) l)
  | DArray l => sum_of (map total_bytes l)
  | DString s => len s
  | DTime t => rfc3339nano_len t
  | _ => 0
  end.
Fixpoint well_shaped (depth : Z) (v : detail) : Prop :=
  depth ≤ 4 ∧
  match v with
  | DObject l => Z.of_nat (length l) ≤ 32 ∧
      foldr (λ kv P, (validAuditLabel (fst kv) 64 = true ∧ well_shaped (depth + 1) (snd kv)) ∧ P) True l
  | DArray l => Z.of_nat (length l) ≤ 32 ∧ foldr (λ x P, well_shaped (depth + 1) x ∧ P) True l
  | DString s => validBoundedPlainText s 1024 true = true
  | DTime t => t ≠ 0
  | DNumber finite => finite = true
  | DOther => False
  | _ => True
  end.

Definition in_budget (b : auditDetailBudget.t) : Prop :=
  auditDetailBudget.keys b ≤ 128 ∧ auditDetailBudget.scalars b ≤ 128 ∧
  auditDetailBudget.stringBytes b ≤ 16384.
Definition spend (b : auditDetailBudget.t) (k s n : Z) : auditDetailBudget.t :=
  auditDetailBudget.make (auditDetailBudget.keys b + k) (auditDetailBudget.scalars b + s)
    (auditDetailBudget.stringBytes b + n).

Lemma spend_spend b k s n k' s' n' :
  spend (spend b k s n) k' s' n' = spend b (k + k') (s + s') (n + n').
Proof. unfold spend; simpl. f_equal; lia. Qed.
Lemma spend_zero b : spend b 0 0 0 = b.
Proof. destruct b; unfold spend; simpl; f_equal; lia. Qed.

Lemma fraction_digits_nonneg fuel f : 0 ≤ fraction_digits fuel f.
Proof. revert f. induction fuel; intros; simpl; [done|]. case_match; [auto|lia]. Qed.
Lemma rfc3339nano_len_nonneg t : 0 ≤ rfc3339nano_len t.
Proof.
  unfold rfc3339nano_len. pose proof (fraction_digits_nonneg 9 (t mod second)).
  case_match; lia.
Qed.
Lemma sum_of_nonneg l : Forall (λ z, 0 ≤ z) l → 0 ≤ sum_of l.
Proof. induction 1; simpl; lia. Qed.

Lemma totals_nonneg v : 0 ≤ total_keys v ∧ 0 ≤ total_scalars v ∧ 0 ≤ total_bytes v.
Proof.
  induction v as [v Ha Ho|l IH|l IH] using detail_nested_ind.
  - destruct v; simpl; try lia; [| |by destruct (Ha l)|by destruct (Ho l)].
    + unfold len. lia.
    + pose proof (rfc3339nano_len_nonneg t). lia.
  - simpl. split_and!; apply sum_of_nonneg, Forall_map; eapply Forall_impl; eauto; simpl; tauto.
  - simpl. assert (0 ≤ sum_of (map (λ kv, total_keys (snd kv)) l)).
    { apply sum_of_nonneg, Forall_map. eapply Forall_impl; eauto; simpl; tauto. }
    split_and!; [lia|..]; apply sum_of_nonneg, Forall_map; eapply Forall_impl; eauto; simpl; tauto.
Qed.

(** [decides f k s n ok]: [f] succeeds from an in-budget state exactly when [ok]
    holds and the spending stays in budget, and it spends [k], [s], [n]. *)
Definition decides (f : auditDetailBudget.t → result auditDetailBudget.t) (k s n : Z) (ok : Prop) : Prop :=
  0 ≤ k ∧ 0 ≤ s ∧ 0 ≤ n ∧
  ∀ b b', in_budget b → f b = Ok b' ↔ ok ∧ b' = spend b k s n ∧ in_budget b'.

Lemma decides_consume n : 0 ≤ n → decides (λ b, consumeAuditScalar b n) 0 1 n True.
Proof.
  intros. split_and!; [lia..|]. intros b b' Hb.
  unfold consumeAuditScalar, maxAuditDetailScalars, maxAuditDetailAggregateStringBytes, in_budget, spend in *.
  destruct b as [k s m]; simpl in *. destruct (Z.ltb_spec 128 (s + 1)); simpl.
  { split; [done|]. intros (_ & -> & ?); simpl in *. lia. }
  destruct (Z.ltb_spec 16384 (m + n)); simpl.
  { split; [done|]. intros (_ & -> & ?); simpl in *. lia. }
  rewrite Z.add_0_r. split; [intros [= <-]; simpl; split_and!; done || lia|naive_solver].
Qed.

Lemma decides_guard (c : bool) e f k s n ok :
  decides f k s n ok → decides (λ b, fail e when c;; f b) k s n (c = false ∧ ok).
Proof.
  intros (?&?&?&Hf). split_and!; [done..|]. intros b b' Hb. destruct c; simpl; [naive_solver|].
  rewrite (Hf b b' Hb). naive_solver.
Qed.

Lemma decides_bind f g k s n ok k' s' n' ok' :
  decides f k s n ok → decides g k' s' n' ok' →
  decides (λ b, match f b with Ok b => g b | Err e => Err e end)
    (k + k') (s + s') (n + n') (ok ∧ ok').
Proof.
  intros (?&?&?&Hf) (?&?&?&Hg). split_and!; [lia..|]. intros b b' Hb.
  assert (in_budget (spend b (k + k') (s + s') (n + n')) → in_budget (spend b k s n)) as Hmono
    by (unfold in_budget, spend; simpl; lia).
  split.
  - destruct (f b) as [b1|] eqn:E; [|done]. apply Hf in E as (? & -> & ?); [|done].
    intros (? & -> & ?)%Hg; [|done]. by rewrite spend_spend in *.
  - intros ((Hok & Hok') & -> & Hb'). rewrite (proj2 (Hf b (spend b k s n) Hb)) by auto.
    apply Hg; [auto|]. by rewrite spend_spend.
Qed.

Lemma decides_ok : decides Ok 0 0 0 True.
Proof.
  split_and!; [lia..|]. intros b b' Hb. rewrite spend_zero. naive_solver.
Qed.

Lemma decides_equiv f g k s n ok ok' :
  (∀ b, f b = g b) → (ok ↔ ok') → decides f k s n ok → decides g k s n ok'.
Proof.
  intros E Hok (?&?&?&Hf). split_and!; [done..|]. intros b b' Hb. rewrite <- E, <- Hok. by apply Hf.
Qed.

Lemma decides_items f depth l :
  (∀ x, x ∈ l → decides (f x (depth + 1)) (total_keys x) (total_scalars x) (total_bytes x)
                  (well_shaped (depth + 1) x)) →
  decides (validate_items f depth l) (sum_of (map total_keys l)) (sum_of (map total_scalars l))
    (sum_of (map total_bytes l)) (foldr (λ x P, well_shaped (depth + 1) x ∧ P) True l).
Proof.
  induction l as [|x l IH]; intros Hl; [apply decides_ok|].
  apply (decides_bind (f x (depth + 1)) (validate_items f depth l)).
  - apply Hl. constructor.
  - apply IH. intros y Hy. apply Hl. by constructor.
Qed.

(** The loop of validateAuditDetailObject over its keys. *)
Definition object_loop (f : detail → Z → auditDetailBudget.t → result auditDetailBudget.t) (depth : Z) :=
  fix loop (l : details) (b : auditDetailBudget.t) : result auditDetailBudget.t :=
     match l with
     | [] => Ok b
     | (key, child) :: rest =>
         if negb (validAuditLabel key maxAuditResourceBytes) then Err (ErrOther "detail key is invalid")
         else match f child (depth + 1) b with Ok b => loop rest b | Err e => Err e end
     end.

Lemma decides_object_loop f depth (l : details) :
  (∀ kv, kv ∈ l → decides (f (snd kv) (depth + 1)) (total_keys (snd kv)) (total_scalars (snd kv))
                    (total_bytes (snd kv)) (well_shaped (depth + 1) (snd kv))) →
  decides (object_loop f depth l) (sum_of (map (λ kv, total_keys (snd kv)) l))
    (sum_of (map (λ kv, total_scalars (snd kv)) l)) (sum_of (map (λ kv, total_bytes (snd kv)) l))
    (foldr (λ kv P, (validAuditLabel (fst kv) 64 = true ∧ well_shaped (depth + 1) (snd kv)) ∧ P) True l).
Proof.
  induction l as [|[key x] l IH]; intros Hl; [apply decides_ok|].
  pose proof (decides_bind _ _ _ _ _ _ _ _ _ _ (Hl (key, x) ltac:(constructor))
    (IH ltac:(intros y Hy; apply Hl; by constructor))) as H.
  apply (decides_guard (negb (validAuditLabel key maxAuditResourceBytes)) (ErrOther "detail key is invalid")) in H.
  eapply decides_equiv; [| |exact H].
  - intros b. simpl. by destruct (negb _).
  - simpl. rewrite negb_false_iff. unfold maxAuditResourceBytes. tauto.
Qed.

(** Counting the keys of an object before descending into it. *)
Lemma decides_object f depth l :
  (∀ kv, kv ∈ l → decides (f (snd kv) (depth + 1)) (total_keys (snd kv)) (total_scalars (snd kv))
                    (total_bytes (snd kv)) (well_shaped (depth + 1) (snd kv))) →
  decides (validateAuditDetailObject f l depth) (total_keys (DObject l)) (total_scalars (DObject l))
    (total_bytes (DObject l)) (well_shaped depth (DObject l)).
Proof.
  intros Hl%decides_object_loop. set (m := Z.of_nat (length l)).
  assert (decides (λ b, fail (ErrOther "details exceed total keys") when 128 <? auditDetailBudget.keys b + m;;
            Ok (spend b m 0 0)) m 0 0 True) as Hk.
  { split_and!; [lia..|]. intros b b' Hb. unfold in_budget in *. destruct b as [k s n]; simpl in *.
    destruct (Z.ltb_spec 128 (k + m)); simpl.
    - split; [done|]. intros (_ & -> & ?); simpl in *. lia.
    - split; [intros [= <-]; simpl; split_and!; done || lia|naive_solver]. }
  pose proof (decides_bind _ _ _ _ _ _ _ _ _ _ Hk Hl) as H.
  apply (decides_guard (32 <? m) (ErrOther "detail object exceeds keys")) in H.
  apply (decides_guard (4 <? depth) (ErrOther "detail nesting exceeds levels")) in H.
  eapply decides_equiv; [| |exact H].
  - intros b. unfold validateAuditDetailObject, maxAuditDetailDepth, maxAuditDetailKeysPerObject,
      maxAuditDetailTotalKeys. fold m. destruct (4 <? depth); [done|]. simpl. destruct (32 <? m); [done|].
    simpl. destruct (128 <? _); [done|]. simpl. unfold spend. by rewrite !Z.add_0_r.
  - simpl. fold m. rewrite !Z.ltb_ge. tauto.
Qed.

Lemma decides_value v depth :
  decides (validateAuditDetailValue v depth) (total_keys v) (total_scalars v) (total_bytes v)
    (well_shaped depth v).
Proof.
  revert depth. induction v as [v Ha Ho|l IH|l IH] using detail_nested_ind; intros depth.
  - assert (∀ n c e, 0 ≤ n → total_bytes v = n → (well_shaped depth v ↔ depth ≤ 4 ∧ c = false) →
      (∀ b, validateAuditDetailValue v depth b =
        (fail (ErrOther "detail nesting exceeds levels") when 4 <? depth;;
         fail e when c;; consumeAuditScalar b n)) →
      total_keys v = 0 → total_scalars v = 1 →
      decides (validateAuditDetailValue v depth) (total_keys v) (total_scalars v) (total_bytes v)
        (well_shaped depth v)) as Hs.
    { intros n c e Hn -> Hw Hv -> ->.
      eapply decides_equiv; [intros b; symmetry; apply Hv| |
        apply decides_guard, decides_guard, decides_consume, Hn].
      rewrite Hw, Z.ltb_ge. tauto. }
    destruct v as [|b|z|s|t|fin| |l|l]; simpl; try by (destruct (Ha l) || destruct (Ho l)).
    1-3: eapply (Hs 0 false ErrInvalid); simpl; done || tauto.
    + eapply (Hs (len s) (negb (validBoundedPlainText s 1024 true))); simpl; try done; [unfold len; lia|].
      by rewrite negb_false_iff.
    + eapply (Hs (rfc3339nano_len t) (IsZero t)); simpl; try done; [apply rfc3339nano_len_nonneg|].
      unfold IsZero. rewrite Z.eqb_neq. tauto.
    + eapply (Hs 0 (negb fin)); simpl; try done. by rewrite negb_false_iff.
    + split_and!; [lia..|]. intros b b' _. simpl. destruct (_ <? _); simpl; naive_solver.
  - rewrite Forall_forall in IH.
    eapply decides_equiv; [intros b; reflexivity| |apply decides_guard, decides_guard, decides_items].
    + simpl. unfold maxAuditDetailDepth, maxAuditDetailArrayItems. rewrite !Z.ltb_ge. tauto.
    + intros x Hx. by apply IH.
  - rewrite Forall_forall in IH.
    eapply decides_equiv; [intros b; reflexivity| |apply decides_guard, decides_object].
    + simpl. unfold maxAuditDetailDepth. rewrite !Z.ltb_ge. tauto.
    + intros x Hx. by apply IH.
Qed.

Lemma validateAuditDetails_iff d : validateAuditDetails d = Ok tt ↔
  well_shaped 1 (DObject d) ∧ total_keys (DObject d) ≤ 128 ∧ total_scalars (DObject d) ≤ 128 ∧
  total_bytes (DObject d) ≤ 16384.
Proof.
  unfold validateAuditDetails.
  destruct (decides_object validateAuditDetailValue 1 d) as (_ & _ & _ & H);
    [intros; apply decides_value|].
  specialize (H auditDetailBudget.zero). rewrite bind_Ok. split.
  - intros (b & Hb & _). apply H in Hb as (? & -> & Hb); [|unfold in_budget; simpl; lia].
    unfold in_budget, spend in Hb; simpl in Hb. naive_solver.
  - intros (? & ? & ? & ?). eexists. split; [|done]. apply H; [unfold in_budget; simpl; lia|].
    split_and!; [done|done|]. unfold in_budget, spend. simpl in *. lia.
Qed.

(** ** Attribution *)
Lemma list_find_app_r {A} (P : A → Prop) `{∀ x, Decision (P x)} l l' :
  Forall (λ x, ¬ P x) l → snd <$> list_find P (l ++ l') = snd <$> list_find P l'.
Proof.
  induction 1 as [|x l Hx _ IH]; simpl; [done|]. rewrite decide_False by done.
  destruct (list_find P (l ++ l')) as [[]|], (list_find P l') as [[]|]; simpl in *; naive_solver.
Qed.

Lemma detail_of_None d key : detail_of d key = None → Forall (λ kv, fst kv ≠ key) d.
Proof.
  unfold detail_of. intros H. destruct (list_find _ d) as [[]|] eqn:E; [done|].
  by apply list_find_None in E.
Qed.

Lemma detail_of_app_r d d' key : detail_of d key = None → detail_of (d ++ d') key = detail_of d' key.
Proof.
  intros H%detail_of_None. unfold detail_of.
  pose proof (list_find_app_r (λ kv : string * detail, fst kv = key) d d' H) as E. by rewrite E.
Qed.

Lemma attributed_details eventID at_ action resource id d actor e :
  newAttributedAudit eventID at_ action resource id d actor = Ok e →
  validateActor actor = Ok tt ∧ Forall (λ key, detail_of d key = None) actorKeys ∧
  elems (AuditEvent.Details e) = d ++ [(auditActorIDKey, DString (Actor.ID actor));
    (auditActorKindKey, DString (Actor.Kind actor)); (auditActorSessionIDKey, DString (Actor.SessionID actor))].
Proof.
  unfold newAttributedAudit. intros H. inv_ok. subst. destruct a. split_and!; [done| |done].
  apply Forall_forall. intros key Hkey. destruct (detail_of d key) eqn:E; [|done].
  exfalso. apply not_true_iff_false in H1. apply H1. apply existsb_exists. exists key.
  split; [by apply list_elem_of_In|]. rewrite E. by apply bool_decide_eq_true.
Qed.

(** Every attributed audit event validates: when newAttributedAudit succeeds,
    the actor was valid, the stored details carry exactly that actor, and
    validateAuditActorMetadata accepts them when the state is read back. *)
Theorem attributed_audit_validates eventID at_ action resource id d actor e :
  newAttributedAudit eventID at_ action resource id d actor = Ok e →
  validateAuditActorMetadata (elems (AuditEvent.Details e)) = Ok tt ∧
  detail_of (elems (AuditEvent.Details e)) auditActorIDKey = Some (DString (Actor.ID actor)) ∧
  (∀ key, key ∉ actorKeys → detail_of (elems (AuditEvent.Details e)) key = detail_of d key).
Proof.
  intros (Hv & Hkeys & ->)%attributed_details.
  set (x := [_; _; _]). unfold actorKeys in Hkeys. rewrite !Forall_cons in Hkeys.
  destruct Hkeys as (H1 & H2 & H3 & _).
  unfold validateAuditActorMetadata, actorKeys. rewrite !filter_cons, filter_nil.
  rewrite !detail_of_app_r by done. destruct actor as [aid kind sid]. split_and!; [exact Hv|reflexivity|].
  intros key Hkey. destruct (detail_of d key) eqn:E; [|rewrite detail_of_app_r by done].
  - unfold detail_of in *.
    destruct (list_find (λ kv : string * detail, kv.1 = key) d) as [[i kv]|] eqn:El; [|done].
    by rewrite (list_find_app_l _ d x i kv El).
  - unfold detail_of, x. rewrite !not_elem_of_cons in Hkey.
    destruct Hkey as (? & ? & ? & _). simpl.
    rewrite !decide_False by (simpl; congruence). done.
Qed.

Lemma attributed_audit_validates_witness :
  ∃ e, newAttributedAudit "e1" 5 "network.created" "network" "n1" [("name", DString "home")] LegacyAdminActor = Ok e ∧
  validateAuditActorMetadata (elems (AuditEvent.Details e)) = Ok tt.
Proof.
  eexists. assert (newAttributedAudit "e1" 5 "network.created" "network" "n1" [("name", DString "home")]
    LegacyAdminActor = Ok (newAudit "e1" 5 "network.created" "network" "n1"
      [("name", DString "home"); ("actor_id", DString "legacy_admin"); ("actor_kind", DString "legacy_admin");
       ("actor_session_id", DString "")])) as E by (vm_compute; reflexivity).
  split; [exact E|]. exact (proj1 (attributed_audit_validates _ _ _ _ _ _ _ _ E)).
Defined.

(** The audit-detail validator accepts a detail object exactly when the whole
    tree is within the documented limits: at most four levels, 32 entries per
    object or array, valid labels and strings, and in total at most 128 keys, 128
    scalars and 16 KiB of text.  The running budget never rejects a tree within the
    limits and never accepts one beyond them, whatever the order of its keys. *)
Theorem audit_detail_limits d :
  (validateAuditDetails d = Ok tt ↔
    well_shaped 1 (DObject d) ∧ total_keys (DObject d) ≤ 128 ∧ total_scalars (DObject d) ≤ 128 ∧
    total_bytes (DObject d) ≤ 16384) ∧
  (∀ d', d ≡ₚ d' → validateAuditDetails d = Ok tt ↔ validateAuditDetails d' = Ok tt).
Proof.
  split; [apply validateAuditDetails_iff|]. intros d' Hp. rewrite !validateAuditDetails_iff. simpl.
  assert (∀ f : string * detail → Z, sum_of (map f d) = sum_of (map f d')) as Hsum.
  { intros f. induction Hp; simpl; lia. }
  rewrite (Permutation_length Hp), !Hsum.
  assert (∀ P : string * detail → Prop, foldr (λ kv Q, P kv ∧ Q) True d ↔ foldr (λ kv Q, P kv ∧ Q) True d')
    as Hfold. { intros P. clear -Hp. induction Hp; simpl; tauto. }
  by rewrite (Hfold (λ kv, validAuditLabel kv.1 64 = true ∧ well_shaped 2 kv.2)).
Qed.
