(* ===== verification/Receipts.v ===== *)
(** * Receipts in the audit log

    An administrator's request that carries a request identifier leaves an audit
    event from which a repeated request is answered: revocations
    (node_revocation.go), certificate rotations (certificate_rotation.go) and group
    changes (node_groups.go) keep their receipts this way.  [ReceiptLog] is what
    the three have in common, [ReceiptLaws] what answering relies on. *)
From S2P Require Import Prelude GoStd GoTime IPv4 NetIP Model AuditLog.
Open Scope Z_scope.

(** ** Reading audit details

    A whole number is a [DInt], also when it was read back from a file. *)
Definition auditNonNegativeInteger (value : option detail) : option Z :=
  match value with
  | Some (DInt z) => if 0 <=? z then Some z else None
  | _ => None
  end.
Definition auditRFC3339Time (value : option detail) : option time :=
  match value with
  | Some (DString text) => t ← ParseRFC3339Nano text; if IsZero t then None else Some t
  | Some (DTime t) => if IsZero t then None else Some t
  | _ => None
  end.
Definition audit_string (value : option detail) : option string :=
  match value with Some (DString s) => Some s | _ => None end.
Definition audit_bool (value : option detail) : option bool :=
  match value with Some (DBool b) => Some b | _ => None end.
#[global] Arguments auditNonNegativeInteger : simpl never.
#[global] Arguments auditRFC3339Time : simpl never.
(** The keys of the details are the required ones, and perhaps the actor's. *)
Definition exact_details (required : list string) (d : details) : bool :=
  forallb (λ kv, contains (required ++ actorKeys) (fst kv)) d
  && forallb (λ key, bool_decide (is_Some (detail_of d key))) required.
(** The text of an address is the one it would be printed as. *)
Definition canonical_ipv4 (ip : string) : bool :=
  match ParseIP ip ≫= To4 with Some v4 => addr_string (addr_of_bytes v4) == ip | None => false end.

(** ** Logs of receipts *)
Class ReceiptLog (R : Type) := {
  receipt_action : string;
  parse_receipt : AuditEvent.t → result (R * Z);  (* the receipt and the revision the request expected *)
  receipt_request : R → string }.

Section receipts.
Context {R : Type} `{ReceiptLog R}.

Definition receipt_for (requestID : string) (event : AuditEvent.t) : Prop :=
  AuditEvent.Action event = receipt_action
  ∧ audit_string (detail_of (elems (AuditEvent.Details event)) "request_id") = Some requestID.
#[global] Instance receipt_for_dec requestID event : Decision (receipt_for requestID event) := decide (_ ∧ _).

(** The first event that carries the request decides: the receipt, or a conflict
    when it is another request's. *)
Definition find_receipt (requestID : string) (agrees : AuditEvent.t → R → Z → bool) (state : State.t) : result (option R) :=
  match list_find (receipt_for requestID) (State.Audit state) with
  | None => Ok None
  | Some (_, event) =>
      match parse_receipt event with
      | Err _ => Err (ErrOther "persisted receipt is invalid")
      | Ok (receipt, expectedRevision) =>
          fail ErrConflict when negb (agrees event receipt expectedRevision);; Ok (Some receipt)
      end
  end.

Fixpoint receipts_loop (seen : list string) (events : list AuditEvent.t) : result unit :=
  match events with
  | [] => Ok tt
  | event :: rest =>
      if AuditEvent.Action event != receipt_action then receipts_loop seen rest else
      '(receipt, _) ← parse_receipt event;
      fail (ErrOther "duplicate request_id") when contains seen (receipt_request receipt);;
      receipts_loop (receipt_request receipt :: seen) rest
  end.
Definition validate_receipts (state : State.t) : result unit := receipts_loop [] (State.Audit state).

Class ReceiptLaws : Prop := {
  parsed_request event receipt revision : parse_receipt event = Ok (receipt, revision) →
    audit_string (detail_of (elems (AuditEvent.Details event)) "request_id") = Some (receipt_request receipt) }.

Lemma receipts_loop_parse seen events event :
  receipts_loop seen events = Ok tt → event ∈ events → AuditEvent.Action event = receipt_action →
  ∃ receipt revision, parse_receipt event = Ok (receipt, revision) ∧ receipt_request receipt ∉ seen.
Proof.
  revert seen. induction events as [|e rest IH]; intros seen Hl Hin Ha; [by apply elem_of_nil in Hin|]. cbn [receipts_loop] in Hl.
  apply elem_of_cons in Hin as [<-|Hin].
  - rewrite bool_decide_eq_true_2 in Hl by done. cbn [negb] in Hl. apply bind_Ok in Hl as ([r rev] & Hp & Hl).
    apply guard_iff in Hl as [Hc%bool_decide_eq_false _]. eauto.
  - destruct (_ != _) in Hl; [by apply IH|]. apply bind_Ok in Hl as ([r rev] & Hp & Hl). apply guard_iff in Hl as [_ Hl].
    destruct (IH _ Hl Hin Ha) as (r' & rev' & Hp' & Hn). exists r', rev'. split; [done|]. set_solver.
Qed.

(** In a validated log a request identifier has one event. *)
Lemma receipts_loop_find `{!ReceiptLaws} seen events event receipt revision :
  receipts_loop seen events = Ok tt → event ∈ events → AuditEvent.Action event = receipt_action →
  parse_receipt event = Ok (receipt, revision) →
  ∃ i, list_find (receipt_for (receipt_request receipt)) events = Some (i, event).
Proof.
  revert seen. induction events as [|e rest IH]; intros seen Hl Hin Ha Hp; [by apply elem_of_nil in Hin|].
  cbn [receipts_loop] in Hl. simpl. destruct (decide (receipt_for _ e)) as [[Hea Her]|Hne].
  - exists 0%nat. do 2 f_equal. apply elem_of_cons in Hin as [<-|Hin]; [done|]. exfalso.
    rewrite bool_decide_eq_true_2 in Hl by done. cbn [negb] in Hl. apply bind_Ok in Hl as ([r rev] & Hq & Hl).
    apply guard_iff in Hl as [_ Hl]. destruct (receipts_loop_parse _ _ _ Hl Hin Ha) as (r' & rev' & Hp' & Hn).
    apply parsed_request in Hq. assert (r' = receipt) as -> by congruence. apply Hn. apply elem_of_cons. left. congruence.
  - apply elem_of_cons in Hin as [<-|Hin]; [by destruct Hne; split; [|apply parsed_request in Hp]|].
    assert (∃ seen', receipts_loop seen' rest = Ok tt) as [seen' Hl'].
    { destruct (_ != _) in Hl; [eauto|]. apply bind_Ok in Hl as ([r rev] & _ & Hl). apply guard_iff in Hl as [_ Hl]. eauto. }
    destruct (IH _ Hl' Hin Ha Hp) as [i ->]. by eexists.
Qed.

(** So a validated log answers each recorded request with its own receipt. *)
Lemma recorded_receipt_found `{!ReceiptLaws} state event :
  validate_receipts state = Ok tt → event ∈ State.Audit state → AuditEvent.Action event = receipt_action →
  ∃ receipt revision, parse_receipt event = Ok (receipt, revision) ∧
    ∀ agrees, find_receipt (receipt_request receipt) agrees state
              = if agrees event receipt revision then Ok (Some receipt) else Err ErrConflict.
Proof.
  intros Hv Hin Ha. destruct (receipts_loop_parse _ _ _ Hv Hin Ha) as (r & rev & Hp & _). exists r, rev. split; [done|].
  intros agrees. destruct (receipts_loop_find _ _ _ _ _ Hv Hin Ha Hp) as [i Hi]. unfold find_receipt. rewrite Hi, Hp.
  by destruct (agrees event r rev).
Qed.
End receipts.
#[global] Arguments ReceiptLaws R {_}.

(** ** The details an event was made with *)
Lemma audit_detail eventID at_ action resource id d actor event key :
  newOptionalAttributedAudit eventID at_ action resource id d actor = Ok event → key ∉ actorKeys →
  detail_of (elems (AuditEvent.Details event)) key = detail_of d key.
Proof.
  destruct actor as [actor|]; simpl; [|by intros [= <-]]. intros He Hk.
  by apply (proj2 (proj2 (attributed_audit_validates _ _ _ _ _ _ _ _ He))).
Qed.
Lemma audit_metadata eventID at_ action resource id d actor event :
  newOptionalAttributedAudit eventID at_ action resource id d actor = Ok event →
  AuditEvent.Action event = action ∧ AuditEvent.Resource event = resource ∧ AuditEvent.ResourceID event = id ∧
  AuditEvent.At event = at_ ∧ AuditEvent.ID event = eventID.
Proof.
  destruct actor as [actor|]; simpl; [|by intros [= <-]]. unfold newAttributedAudit. intros He.
  apply bind_Ok in He as (u & _ & He). apply guard_iff in He as [_ He]. by injection He as <-.
Qed.

Lemma exact_details_made required eventID at_ action resource id d actor event :
  newOptionalAttributedAudit eventID at_ action resource id d actor = Ok event → exact_details required d = true →
  Forall (λ key, key ∉ actorKeys) required → exact_details required (elems (AuditEvent.Details event)) = true.
Proof.
  intros He Hex Hdisj. unfold exact_details in *. apply andb_true_iff in Hex as [H1 H2]. rewrite forallb_forall in H1, H2.
  apply andb_true_iff. rewrite !forallb_forall. split.
  - destruct actor as [actor|]; [|simpl in He; by injection He as <-]. apply attributed_details in He as (_ & _ & ->).
    intros kv [Hin|Hin]%in_app_iff; [by apply H1|]. apply contains_true, elem_of_app. right. simpl in Hin.
    destruct Hin as [<-|[<-|[<-|[]]]]; apply (bool_decide_unpack _); vm_compute; exact I.
  - intros key Hin. rewrite (audit_detail _ _ _ _ _ _ _ _ key He); [by apply H2|]. rewrite Forall_forall in Hdisj. by apply Hdisj, list_elem_of_In.
Qed.

(** Reads every field of the parsed event back from the details it was made with. *)
Ltac read_details He :=
  repeat match goal with
  | Hd : of_option (?get (detail_of (elems (AuditEvent.Details ?e)) ?key)) _ = Ok _ |- _ =>
      rewrite (audit_detail _ _ _ _ _ _ _ _ key He) in Hd by (apply (bool_decide_unpack _); vm_compute; exact I);
      apply of_option_Ok in Hd
  end.
