(* ===== verification/Routes.v ===== *)
(** * Routed subnets (internal/control/routes.go, and the subnet-set helpers of
    route_transfer.go and route_profile_edit.go)

    A routed subnet is a canonical IPv4 prefix.  This file holds the prefix
    comparison and overlap tests, the normalisation every routed-subnet list goes
    through, and the set operations on normalised lists.  The order of the
    comparison and the interval view of prefixes carry the proofs. *)
From S2P Require Import Prelude GoStd IPv4.

Definition maxRoutedSubnetsPerNode : Z := 8.

(** ** Operations *)
Definition prefixesOverlap (left right : prefix) : bool :=
  Contains left (p_addr right) || Contains right (p_addr left).

(** The loop over the bytes of both addresses; 0 when they are equal. *)
Fixpoint compare_bytes (left right : list Z) : Z :=
  match left, right with
  | l :: left', r :: right' =>
      if l <? r then -1 else if r <? l then 1 else compare_bytes left' right'
  | _, _ => 0
  end.

Definition compareIPv4Prefixes (left right : prefix) : Z :=
  let c := compare_bytes (As4 (p_addr left)) (As4 (p_addr right)) in
  if negb (c =? 0) then c
  else if p_bits left <? p_bits right then -1
  else if p_bits right <? p_bits left then 1
  else 0.

Definition parseCanonicalRoutedSubnet (value : string) : result prefix :=
  fail (ErrOther "must be a canonical IPv4 CIDR without surrounding whitespace")
    when (value == "") || (TrimSpace value != value);;
  prefix ← of_option (ParsePrefix value) (ErrOther "must be a canonical IPv4 CIDR");
  fail (ErrOther "must be a canonical IPv4 CIDR")
    when (prefix != Masked prefix) || (prefix_string prefix != value);;
  fail (ErrOther "must identify a non-default unicast IPv4 range")
    when (p_bits prefix <? 1) || negb (IsGlobalUnicast (p_addr prefix));;
  Ok prefix.

(** The first loop of normalizeRoutedSubnets: every value parsed, duplicates
    refused through the set of texts already seen. *)
Fixpoint parse_subnets (seen values : list string) : result (list prefix) :=
  match values with
  | [] => Ok []
  | raw :: rest =>
      match parseCanonicalRoutedSubnet (TrimSpace raw) with
      | Err _ => Err ErrInvalid
      | Ok prefix =>
          fail ErrInvalid when contains seen (prefix_string prefix);;
          prefixes ← parse_subnets (prefix_string prefix :: seen) rest;
          Ok (prefix :: prefixes)
      end
  end.

(** The second loop: does some prefix overlap the one before it? *)
Fixpoint adjacent_overlap (prefixes : list prefix) : bool :=
  match prefixes with
  | p :: (q :: _) as rest => prefixesOverlap p q || adjacent_overlap rest
  | _ => false
  end.

Definition prefix_le (p q : prefix) : bool := compareIPv4Prefixes p q <=? 0.

Definition normalizeRoutedSubnets (values : list string) : result (slice string) :=
  fail ErrInvalid when maxRoutedSubnetsPerNode <? Z.of_nat (length values);;
  if (length values =? 0)%nat then Ok None else
  prefixes ← parse_subnets [] values;
  let prefixes := sort_by prefix_le prefixes in
  fail ErrInvalid when adjacent_overlap prefixes;;
  Ok (Some (prefix_string <$> prefixes)).

Definition validateCanonicalRoutedSubnets (values : slice string) : result unit :=
  normalized ← normalizeRoutedSubnets (elems values);
  fail (ErrOther "routed subnets are not canonical")
    when negb (length (elems normalized) =? length (elems values))%nat;;
  fail (ErrOther "routed subnets are not canonical and deterministically ordered")
    when elems values != elems normalized;;
  Ok tt.

(** [slices.Equal]: a nil and an empty slice are equal. *)
Definition slices_equal {A} `{EqDecision A} (a b : slice A) : bool := elems a == elems b.

Definition subnetSetContainsAll (owner requested : slice string) : bool :=
  forallb (contains (elems owner)) (elems requested).

Definition subtractSubnets (owner removed : slice string) : slice string :=
  nil_if_empty (filter (λ route, contains (elems removed) route = false) (elems owner)).

(** The error of the normalisation is dropped: the result is then nil. *)
Definition mergeSubnets (left right : slice string) : slice string :=
  match normalizeRoutedSubnets (elems left ++ elems right) with
  | Ok merged => merged
  | Err _ => None
  end.

Definition subnetDifference (left right : slice string) : slice string :=
  nil_if_empty (filter (λ route, contains (elems right) route = false) (elems left)).

Definition overlap_texts (p : prefix) (value : string) : bool :=
  match ParsePrefix value with Some q => prefixesOverlap p q | None => false end.

(** The inner loop of validateRouteProfileTransition over the current subnets. *)
Fixpoint check_added (addedPrefix : prefix) (original : list string) : result unit :=
  match original with
  | [] => Ok tt
  | existing :: rest =>
      existingPrefix ← of_option (ParsePrefix existing) ErrConflict;
      fail ErrInvalid when prefixesOverlap addedPrefix existingPrefix;;
      check_added addedPrefix rest
  end.
Fixpoint check_additions (additions original : list string) : result unit :=
  match additions with
  | [] => Ok tt
  | added :: rest =>
      addedPrefix ← of_option (ParsePrefix added) ErrInvalid;
      _ ← check_added addedPrefix original;
      check_additions rest original
  end.
Definition validateRouteProfileTransition (original desired : slice string) : result unit :=
  let additions := subnetDifference desired original in
  _ ← check_additions (elems additions) (elems original);
  let unionCount := Z.of_nat (length (elems original) + length (elems additions)) in
  fail ErrInvalid when maxRoutedSubnetsPerNode <? unionCount;;
  Ok tt.

(** ** The comparison is the lexicographic order on (address, length) *)
Lemma As4_value a : ∃ b0 b1 b2 b3, As4 a = [b0; b1; b2; b3] ∧
  0 ≤ b1 < 256 ∧ 0 ≤ b2 < 256 ∧ 0 ≤ b3 < 256 ∧ a = ((b0 * 256 + b1) * 256 + b2) * 256 + b3.
Proof.
  unfold As4. change 255 with (Z.ones 8). rewrite !Z.land_ones, !Z.shiftr_div_pow2 by lia.
  change (2 ^ 24) with 16777216. change (2 ^ 16) with 65536. change (2 ^ 8) with 256.
  do 4 eexists. split; [done|]. split_and!; Z.div_mod_to_equations; lia.
Qed.

Definition prefix_compare (p q : prefix) : Z :=
  if (p_addr p <? p_addr q) then -1 else if (p_addr q <? p_addr p) then 1
  else if p_bits p <? p_bits q then -1 else if p_bits q <? p_bits p then 1 else 0.

Lemma compare_bytes_As4 x y :
  compare_bytes (As4 x) (As4 y) = if x <? y then -1 else if y <? x then 1 else 0.
Proof.
  destruct (As4_value x) as (a0 & a1 & a2 & a3 & -> & ? & ? & ? & Hx).
  destruct (As4_value y) as (b0 & b1 & b2 & b3 & -> & ? & ? & ? & Hy). simpl.
  repeat match goal with |- context [?u <? ?v] => destruct (Z.ltb_spec u v) end; lia.
Qed.

Lemma compare_spec p q : compareIPv4Prefixes p q = prefix_compare p q.
Proof.
  unfold compareIPv4Prefixes, prefix_compare. rewrite compare_bytes_As4.
  by destruct (_ <? _), (_ <? _).
Qed.

Lemma prefix_le_iff p q : prefix_le p q = true ↔
  p_addr p < p_addr q ∨ (p_addr p = p_addr q ∧ p_bits p ≤ p_bits q).
Proof.
  unfold prefix_le. rewrite compare_spec, Z.leb_le. unfold prefix_compare.
  repeat match goal with |- context [?u <? ?v] => destruct (Z.ltb_spec u v) end; lia.
Qed.
Lemma prefix_le_total p q : prefix_le p q = true ∨ prefix_le q p = true.
Proof. rewrite !prefix_le_iff. lia. Qed.
Lemma prefix_le_trans p q r : prefix_le p q = true → prefix_le q r = true → prefix_le p r = true.
Proof. rewrite !prefix_le_iff. lia. Qed.
Lemma prefix_le_antisym p q : prefix_le p q = true → prefix_le q p = true → p = q.
Proof.
  rewrite !prefix_le_iff. destruct p as [a b], q as [a' b']; simpl. intros.
  f_equal; lia.
Qed.
#[export] Hint Resolve prefix_le_total prefix_le_trans prefix_le_antisym : core.

(** ** Overlap is a shared address *)
Definition disjoint (p q : prefix) : Prop := ∀ a, ¬ (Contains p a = true ∧ Contains q a = true).

Lemma overlap_range p q :
  wf_prefix p → wf_prefix q → prefixesOverlap p q = true ↔ lo p < hi q ∧ lo q < hi p.
Proof.
  intros Hp Hq. unfold prefixesOverlap. rewrite orb_true_iff.
  fold (lo p) (lo q). rewrite !Contains_range by done.
  pose proof (host_size_pos p ltac:(destruct Hp; lia)).
  pose proof (host_size_pos q ltac:(destruct Hq; lia)).
  unfold lo, hi in *. lia.
Qed.

Lemma overlap_disjoint p q :
  wf_prefix p → wf_prefix q → prefixesOverlap p q = false ↔ disjoint p q.
Proof.
  intros Hp Hq. rewrite <- not_true_iff_false, overlap_range by done. unfold disjoint.
  setoid_rewrite Contains_range; [|done..]. split; [intros H a; lia|].
  intros H [? ?]. apply (H (lo p `max` lo q)).
  pose proof (host_size_pos p ltac:(destruct Hp; lia)).
  pose proof (host_size_pos q ltac:(destruct Hq; lia)). unfold lo, hi in *. lia.
Qed.

Lemma disjoint_sym p q : disjoint p q → disjoint q p.
Proof. unfold disjoint. naive_solver. Qed.

Lemma overlap_sym p q : prefixesOverlap p q = prefixesOverlap q p.
Proof. unfold prefixesOverlap. apply orb_comm. Qed.

Lemma overlap_refl p : prefixesOverlap p p = true.
Proof. unfold prefixesOverlap, Contains. by rewrite Z.lxor_nilpotent, Z.shiftr_0_l. Qed.

(** Masked prefixes in order that do not overlap are in interval order. *)
Lemma ordered_disjoint p q :
  wf_prefix p → wf_prefix q → prefix_le p q = true →
  prefixesOverlap p q = false ↔ hi p ≤ lo q.
Proof.
  intros Hp Hq Hle. rewrite <- not_true_iff_false, overlap_range by done.
  apply prefix_le_iff in Hle.
  pose proof (host_size_pos p ltac:(destruct Hp; lia)).
  pose proof (host_size_pos q ltac:(destruct Hq; lia)). unfold lo, hi in *. lia.
Qed.

(** The scan of neighbours in a sorted list decides pairwise disjointness. *)
Lemma adjacent_overlap_pairwise l :
  Forall wf_prefix l → StronglySorted (holds prefix_le) l →
  adjacent_overlap l = false ↔ ForallOrdPairs disjoint l.
Proof.
  intros Hwf Hs. assert (adjacent_overlap l = false ↔ StronglySorted (λ p q, hi p ≤ lo q) l) as ->.
  - induction l as [|p l IH]; [split; [constructor|done]|].
    inversion Hwf as [|?? Hp Hl]; inversion Hs as [|?? Hsl Hpl]; subst.
    specialize (IH Hl Hsl). destruct l as [|q l]; [split; [repeat constructor|done]|].
    change (adjacent_overlap (p :: q :: l))
      with (prefixesOverlap p q || adjacent_overlap (q :: l)).
    inversion Hpl as [|?? Hpq _]; inversion Hl as [|?? Hq _]; subst.
    rewrite negb_orb_false, IH, (ordered_disjoint p q Hp Hq Hpq). split.
    + intros [Hhi Hss]. constructor; [done|]. constructor; [done|].
      inversion Hss as [|?? _ Hql]; subst.
      eapply Forall_impl; [exact Hql|]. simpl. intros r ?.
      pose proof (host_size_pos q ltac:(destruct Hq; lia)). unfold lo, hi in *. lia.
    + inversion 1 as [|?? Hss Hpp]; subst. split; [by inversion Hpp|done].
  - clear -Hwf Hs. induction Hs as [|p l Hs IH Hpl]; [split; constructor|].
    inversion Hwf as [|?? Hp Hl]; subst. specialize (IH Hl).
    assert (Forall (λ q, hi p ≤ lo q) l ↔ Forall (disjoint p) l) as Heq.
    { rewrite !Forall_forall in *. apply forall_proper; intros q.
      split; intros H Hq; specialize (H Hq).
      - apply overlap_disjoint; auto. apply ordered_disjoint; auto. by apply Hpl.
      - apply ordered_disjoint; auto; [by apply Hpl|]. by apply overlap_disjoint; auto. }
    split; inversion 1; subst; constructor; by (apply Heq || apply IH).
Qed.

(** ** Canonical texts *)

(** A prefix a node may route: masked, not the default route, unicast. *)
Definition routable (p : prefix) : Prop :=
  wf_prefix p ∧ 1 ≤ p_bits p ∧ IsGlobalUnicast (p_addr p) = true.

Lemma wf_valid p : wf_prefix p → valid_prefix p.
Proof. by intros (? & ? & _). Qed.
Lemma routable_wf p : routable p → wf_prefix p.
Proof. by intros [? _]. Qed.
Lemma routable_valid p : routable p → valid_prefix p.
Proof. by intros [(? & ? & _) _]. Qed.
#[export] Hint Resolve wf_valid routable_wf routable_valid : core.

Lemma trim_front_digit fuel c l : 48 ≤ c < 58 →
  trim_front fuel space_encodings (c :: l) = c :: l ∧
  trim_front fuel (reverse <$> space_encodings) (c :: l) = c :: l.
Proof.
  intros. destruct fuel; [done|].
  assert (c = 48 ∨ c = 49 ∨ c = 50 ∨ c = 51 ∨ c = 52 ∨ c = 53 ∨ c = 54 ∨ c = 55 ∨ c = 56 ∨ c = 57)
    as Hc by lia.
  by repeat destruct Hc as [->|Hc]; subst.
Qed.

(** A text that starts and ends with a digit is already trimmed. *)
Lemma TrimSpace_digits s c l d l' :
  bytes_of s = c :: l → reverse (bytes_of s) = d :: l' → 48 ≤ c < 58 → 48 ≤ d < 58 →
  TrimSpace s = s.
Proof.
  intros Hs Hr Hc Hd. unfold TrimSpace. rewrite Hs.
  rewrite (proj1 (trim_front_digit _ c l Hc)), <- Hs, Hr.
  rewrite (proj2 (trim_front_digit _ d l' Hd)), <- Hr, reverse_involutive.
  apply string_of_bytes_of.
Qed.

Lemma Itoa_digit_table :
  forallb (λ n, forallb digit (bytes_of (Itoa n)) && (0 <? length (bytes_of (Itoa n)))%nat)
    (seqZ 0 256) = true.
Proof. vm_compute. done. Qed.

Lemma Itoa_ends n : 0 ≤ n < 256 → ∃ c l d l',
  bytes_of (Itoa n) = c :: l ∧ reverse (bytes_of (Itoa n)) = d :: l' ∧ 48 ≤ c < 58 ∧ 48 ≤ d < 58.
Proof.
  intros Hn. pose proof Itoa_digit_table as T. rewrite forallb_forall in T.
  specialize (T n ltac:(apply list_elem_of_In, elem_of_seqZ; lia)).
  set (w := bytes_of (Itoa n)) in *. split_bools.
  assert (∀ c, c ∈ w → 48 ≤ c < 58) as Hd.
  { intros c Hc%list_elem_of_In. eapply forallb_forall in Hc; [|done]. unfold digit in Hc. lia. }
  destruct w as [|c l] eqn:Hw; [done|].
  destruct (reverse (c :: l)) as [|d l'] eqn:Hr;
    [by apply (f_equal length) in Hr; rewrite length_reverse in Hr|].
  exists c, l, d, l'. split; [done|]. split; [done|]. split; apply Hd; [constructor|].
  apply elem_of_reverse. rewrite Hr. constructor.
Qed.

Lemma TrimSpace_prefix_string p : valid_prefix p → TrimSpace (prefix_string p) = prefix_string p.
Proof.
  intros [Ha Hb]. destruct (addr_octets _ Ha) as (a & b & c & d & ? & ? & ? & ? & Hx).
  destruct (Itoa_ends a ltac:(lia)) as (x & l & _ & _ & Hl & _ & ? & _).
  destruct (Itoa_ends (p_bits p) ltac:(lia)) as (_ & _ & y & l' & _ & Hl' & _ & ?).
  assert (bytes_of (addr_string (p_addr p)) =
    x :: l ++ bytes_of ("." +:+ Itoa b +:+ "." +:+ Itoa c +:+ "." +:+ Itoa d)) as Haddr.
  { rewrite Hx. unfold addr_string. rewrite As4_octets by done.
    change (bytes_of (Itoa a +:+ "." +:+ Itoa b +:+ "." +:+ Itoa c +:+ "." +:+ Itoa d) =
      x :: l ++ bytes_of ("." +:+ Itoa b +:+ "." +:+ Itoa c +:+ "." +:+ Itoa d)).
    rewrite bytes_of_app, Hl. done. }
  unfold prefix_string. eapply (TrimSpace_digits _ x _ y); [| |done|done].
  - rewrite bytes_of_app, Haddr. apply app_comm_cons.
  - rewrite !bytes_of_app, !reverse_app, Hl'. rewrite <- app_assoc. done.
Qed.

Lemma prefix_string_nonempty p : prefix_string p ≠ "".
Proof.
  intros E. apply (f_equal bytes_of) in E. unfold prefix_string in E.
  rewrite !bytes_of_app in E. destruct (bytes_of (addr_string (p_addr p))); done.
Qed.

Lemma parseCanonicalRoutedSubnet_iff v p :
  parseCanonicalRoutedSubnet v = Ok p ↔ routable p ∧ v = prefix_string p.
Proof.
  unfold parseCanonicalRoutedSubnet. split.
  - intros H. inv_ok. split_bools. subst.
    match goal with H : ParsePrefix _ = Some _ |- _ => apply ParsePrefix_iff in H as [[] ?] end.
    split; [|done]. rewrite Z.ltb_ge in *. done.
  - intros [(Hwf & Hb & Hu) ->].
    rewrite TrimSpace_prefix_string, (bool_decide_eq_false_2 (prefix_string p = ""))
      by auto using prefix_string_nonempty.
    rewrite bool_decide_eq_true_2 by done. simpl.
    rewrite (proj2 (ParsePrefix_iff (prefix_string p) p)) by auto. simpl.
    rewrite bool_decide_eq_true_2 by (by destruct Hwf as (_ & _ & ->)).
    rewrite bool_decide_eq_true_2 by done. rewrite Hu. simpl.
    by rewrite (proj2 (Z.ltb_ge _ _) Hb).
Qed.

(** ** Normalisation *)
Lemma parse_subnets_iff seen vs ps :
  parse_subnets seen vs = Ok ps ↔
  TrimSpace <$> vs = prefix_string <$> ps ∧ Forall routable ps ∧
  NoDup (prefix_string <$> ps) ∧ Forall (λ p, prefix_string p ∉ seen) ps.
Proof.
  revert seen ps. induction vs as [|v vs IH]; intros seen ps.
  { change (parse_subnets seen []) with (Ok (A := list prefix) []). split.
    - intros [= <-]. split_and!; constructor.
    - intros (H & _). by destruct ps. }
  change (parse_subnets seen (v :: vs)) with
    (match parseCanonicalRoutedSubnet (TrimSpace v) with
     | Err _ => Err ErrInvalid
     | Ok prefix => fail ErrInvalid when contains seen (prefix_string prefix);;
         prefixes ← parse_subnets (prefix_string prefix :: seen) vs; Ok (prefix :: prefixes)
     end).
  split.
  - destruct (parseCanonicalRoutedSubnet (TrimSpace v)) as [p|] eqn:Hp; [|done].
    apply parseCanonicalRoutedSubnet_iff in Hp as [Hr Ht]. intros H. inv_ok. subst.
    match goal with H : contains _ _ = false |- _ => apply contains_false in H as Hs end.
    match goal with H : parse_subnets _ _ = Ok _ |- _ => apply IH in H as (He & Hf & Hn & Hd) end.
    rewrite !fmap_cons, Ht, He. rewrite Forall_forall in Hd. split_and!; [done|by constructor| |].
    + constructor; [|done]. intros (q & E & Hq)%list_elem_of_fmap.
      apply (Hd q Hq). rewrite <- E. constructor.
    + constructor; [done|]. apply Forall_forall. intros q Hq Hin. apply (Hd q Hq). by constructor.
  - intros (He & Hf & Hn & Hd). destruct ps as [|p ps]; [done|].
    csimpl in *. injection He as Ht He.
    apply Forall_cons in Hf as [Hr Hf]. apply Forall_cons in Hd as [Hs Hd].
    apply NoDup_cons in Hn as [Hp Hn].
    rewrite (proj2 (parseCanonicalRoutedSubnet_iff _ p)) by done.
    rewrite (proj2 (contains_false _ _)) by done.
    change (mbind (λ prefixes, Ok (p :: prefixes)) (parse_subnets (prefix_string p :: seen) vs)
      = Ok (p :: ps)).
    rewrite (proj2 (IH _ ps)); [done|]. split_and!; try done.
    rewrite Forall_forall in *. intros q Hq [E|?]%elem_of_cons; [|by eapply Hd].
    apply Hp. rewrite <- E. by apply list_elem_of_fmap_2.
Qed.

Lemma ForallOrdPairs_perm {A} (R : A → A → Prop) l l' :
  (∀ x y, R x y → R y x) → l ≡ₚ l' → ForallOrdPairs R l → ForallOrdPairs R l'.
Proof.
  intros Hsym Hp. induction Hp as [|x l l' Hp IH|x y l|l l' l'' ? IH ? IH']; intros H; [done| | |].
  - inversion H as [|?? Hx Hl]; subst. constructor; [by rewrite <- Hp|auto].
  - inversion H as [|?? Hx Hl]; subst. inversion Hl as [|?? Hy Hl']; subst.
    inversion Hx; subst. repeat constructor; auto.
  - auto.
Qed.

Lemma disjoint_irrefl p : wf_prefix p → ¬ disjoint p p.
Proof. intros Hp H%overlap_disjoint; [|done..]. by rewrite overlap_refl in H. Qed.

Lemma disjoint_NoDup ps : Forall routable ps → ForallOrdPairs disjoint ps → NoDup (prefix_string <$> ps).
Proof.
  induction 2 as [|p l Hd Hl IH]; simpl; constructor; inversion H; subst; auto.
  intros (q & E & Hq)%list_elem_of_fmap. rewrite Forall_forall in *.
  assert (p = q) as <- by (apply prefix_string_inj; auto using routable_valid).
  eapply disjoint_irrefl; eauto.
Qed.

Lemma Forall_sort_by {A} (P : A → Prop) le l : Forall P (sort_by le l) ↔ Forall P l.
Proof. unfold sort_by. by rewrite merge_sort_Permutation. Qed.

Lemma normalize_iff vs r : normalizeRoutedSubnets vs = Ok r ↔
  Z.of_nat (length vs) ≤ 8 ∧ ∃ ps, TrimSpace <$> vs = prefix_string <$> ps ∧ Forall routable ps ∧
    ForallOrdPairs disjoint ps ∧ r = nil_if_empty (prefix_string <$> sort_by prefix_le ps).
Proof.
  assert (∀ ps, Forall routable ps → adjacent_overlap (sort_by prefix_le ps) = false ↔
    ForallOrdPairs disjoint ps) as Hadj.
  { intros ps Hr. rewrite adjacent_overlap_pairwise.
    - split; apply ForallOrdPairs_perm; auto using disjoint_sym; by rewrite sort_by_perm.
    - apply Forall_sort_by. eapply Forall_impl; eauto using routable_wf.
    - apply sort_by_sorted; eauto. }
  unfold normalizeRoutedSubnets, maxRoutedSubnetsPerNode. split.
  - intros H. inv_ok. rewrite Z.ltb_ge in *. split; [done|].
    destruct vs as [|v vs]; [injection H as <-; exists []; split_and!; constructor|].
    simpl (length _ =? 0)%nat in H. cbv iota in H. inv_ok.
    match goal with H : parse_subnets _ _ = Ok _ |- _ => apply parse_subnets_iff in H as (? & ? & _) end.
    exists a0. split_and!; try done; [by apply Hadj|]. subst.
    destruct (sort_by prefix_le a0) eqn:E; [|done].
    apply (f_equal length) in E. rewrite sort_by_length in E. by destruct a0.
  - intros (Hlen & ps & Ht & Hr & Hd & ->). rewrite (proj2 (Z.ltb_ge _ _)) by done.
    destruct vs as [|v vs]; [by destruct ps|]. simpl (length _ =? 0)%nat. cbv iota.
    rewrite (proj2 (parse_subnets_iff _ _ ps))
      by (split_and!; auto using disjoint_NoDup; apply Forall_true; intros; apply not_elem_of_nil).
    change (fail_if false ErrInvalid) with (Ok tt). cbn [mbind result_bind].
    rewrite (proj2 (Hadj _ Hr) Hd). cbn [mbind result_bind fail_if].
    destruct (sort_by prefix_le ps) eqn:E; [|done].
    apply (f_equal length) in E. rewrite sort_by_length in E. by destruct ps.
Qed.

(** ** Canonical lists: what a normalised list looks like *)
Definition canonical_list (l : list string) : Prop :=
  Z.of_nat (length l) ≤ 8 ∧ ∃ ps, l = prefix_string <$> ps ∧ Forall routable ps ∧
    ForallOrdPairs disjoint ps ∧ StronglySorted (holds prefix_le) ps.
Definition canonical (s : slice string) : Prop := canonical_list (elems s).

Lemma trim_prefix_strings ps :
  Forall routable ps → TrimSpace <$> (prefix_string <$> ps) = prefix_string <$> ps.
Proof.
  intros H. rewrite <- list_fmap_compose. apply list_fmap_ext. intros i p Hi. simpl.
  apply TrimSpace_prefix_string, routable_valid. eapply Forall_lookup_1 in H; eauto.
Qed.

Lemma normalize_canonical vs r :
  normalizeRoutedSubnets vs = Ok r → canonical r ∧ r = nil_if_empty (elems r).
Proof.
  intros (Hlen & ps & Ht & Hr & Hd & ->)%normalize_iff.
  unfold canonical, canonical_list. rewrite elems_nil_if_empty. split; [|done]. split.
  - rewrite length_fmap, sort_by_length. apply (f_equal length) in Ht.
    rewrite !length_fmap in Ht. lia.
  - exists (sort_by prefix_le ps). split_and!; [done|by apply Forall_sort_by| |].
    + eapply ForallOrdPairs_perm; [apply disjoint_sym|symmetry; apply sort_by_perm|done].
    + apply sort_by_sorted; eauto.
Qed.

Lemma canonical_normalize l :
  canonical_list l → normalizeRoutedSubnets l = Ok (nil_if_empty l).
Proof.
  intros (Hlen & ps & -> & Hr & Hd & Hs). apply normalize_iff. split; [done|].
  exists ps. rewrite trim_prefix_strings by done. by rewrite sort_by_id by eauto.
Qed.

Lemma validate_canonical_iff s : validateCanonicalRoutedSubnets s = Ok tt ↔ canonical s.
Proof.
  unfold validateCanonicalRoutedSubnets, canonical. split.
  - intros H. inv_ok. split_bools.
    match goal with H : elems s = _, H' : normalizeRoutedSubnets _ = _ |- _ =>
      rewrite H; by apply normalize_canonical in H' as [? _] end.
  - intros H. rewrite canonical_normalize by done. cbn [mbind result_bind].
    rewrite elems_nil_if_empty, Nat.eqb_refl. cbn. by rewrite bool_decide_eq_true_2.
Qed.

Lemma canonical_NoDup l : canonical_list l → NoDup l.
Proof. intros (_ & ps & -> & Hr & Hd & _). by apply disjoint_NoDup. Qed.

Lemma sublist_canonical l l' : l `sublist_of` l' → canonical_list l' → canonical_list l.
Proof.
  intros Hsub (Hlen & ps & -> & Hr & Hd & Hs). split; [apply sublist_length in Hsub; lia|].
  clear Hlen. remember (prefix_string <$> ps) as l' eqn:El.
  revert ps El Hr Hd Hs. induction Hsub as [|x l l' Hsub IH|x l l' Hsub IH]; intros ps El Hr Hd Hs.
  - exists []. split_and!; constructor.
  - destruct ps as [|p ps]; [done|]. injection El as -> ->.
    apply Forall_cons in Hr as [Hp Hr]. inversion Hd as [|?? Hdp Hd']; inversion Hs as [|?? Hs' Hsp]; subst.
    destruct (IH ps) as (qs & -> & ? & ? & ?); [done..|]. exists (p :: qs).
    assert (∀ q, q ∈ qs → q ∈ ps) as Hin.
    { intros q Hq. assert (prefix_string q ∈ prefix_string <$> ps) as (q' & E & Hq')%list_elem_of_fmap.
      { eapply elem_of_sublist; [|exact Hsub]. by apply list_elem_of_fmap_2. }
      rewrite Forall_forall in *. assert (q = q') as ->; [|done].
      apply prefix_string_inj; auto using routable_valid. }
    rewrite Forall_forall in Hdp, Hsp. split_and!; [done|by constructor| |];
      constructor; auto; apply Forall_forall; auto.
  - destruct ps as [|p ps]; [done|]. injection El as -> ->.
    apply Forall_cons in Hr as [Hp Hr]. inversion Hd; inversion Hs; subst. by apply (IH ps).
Qed.

Lemma elem_of_subtract owner removed x :
  x ∈ elems (subtractSubnets owner removed) ↔ x ∈ elems owner ∧ x ∉ elems removed.
Proof.
  unfold subtractSubnets. rewrite elems_nil_if_empty, list_elem_of_filter, contains_false. tauto.
Qed.

Lemma subtract_canonical owner removed : canonical owner → canonical (subtractSubnets owner removed).
Proof.
  unfold canonical, subtractSubnets. rewrite elems_nil_if_empty.
  apply sublist_canonical. apply sublist_filter.
Qed.

Lemma elem_of_difference l r x :
  x ∈ elems (subnetDifference l r) ↔ x ∈ elems l ∧ x ∉ elems r.
Proof.
  unfold subnetDifference. rewrite elems_nil_if_empty, list_elem_of_filter, contains_false. tauto.
Qed.

Lemma contains_all_iff owner requested :
  subnetSetContainsAll owner requested = true ↔ elems requested ⊆ elems owner.
Proof.
  unfold subnetSetContainsAll. rewrite forallb_forall.
  setoid_rewrite contains_true. setoid_rewrite <- list_elem_of_In. done.
Qed.

(** A normalisation that succeeds keeps the elements of canonical texts. *)
Lemma normalize_elements vs r x :
  (∀ v, v ∈ vs → TrimSpace v = v) → normalizeRoutedSubnets vs = Ok r → x ∈ elems r ↔ x ∈ vs.
Proof.
  intros Hv (_ & ps & Ht & _ & _ & ->)%normalize_iff. rewrite elems_nil_if_empty.
  rewrite (fmap_Permutation prefix_string _ _ (sort_by_perm prefix_le ps)), <- Ht.
  rewrite list_elem_of_fmap. split; [|naive_solver]. intros (y & -> & ?). by rewrite Hv.
Qed.

Lemma canonical_trimmed l v : canonical_list l → v ∈ l → TrimSpace v = v.
Proof.
  intros (_ & ps & -> & Hr & _) (p & -> & Hp)%list_elem_of_fmap.
  apply TrimSpace_prefix_string, routable_valid. rewrite Forall_forall in Hr. auto.
Qed.

Lemma elem_of_merge l r m x :
  canonical l → canonical r → normalizeRoutedSubnets (elems l ++ elems r) = Ok m →
  x ∈ elems (mergeSubnets l r) ↔ x ∈ elems l ∨ x ∈ elems r.
Proof.
  intros Hl Hr Hm. unfold mergeSubnets. rewrite Hm. rewrite <- elem_of_app.
  eapply normalize_elements; [|done]. intros v [?|?]%elem_of_app;
    [by apply (canonical_trimmed _ _ Hl)|by apply (canonical_trimmed _ _ Hr)].
Qed.

(** ** Properties *)

(** The order in which prefixes are given does not matter. *)
Lemma normalize_perm vs vs' r : vs ≡ₚ vs' → normalizeRoutedSubnets vs = Ok r → normalizeRoutedSubnets vs' = Ok r.
Proof.
  intros Hp (Hlen & ps & Ht & Hr & Hd & Hres)%normalize_iff.
  assert (∃ ps', TrimSpace <$> vs' = prefix_string <$> ps' ∧ ps ≡ₚ ps') as (ps' & Ht' & Hps).
  { pose proof (fmap_Permutation TrimSpace _ _ Hp) as Hp'. rewrite Ht in Hp'. symmetry in Hp'.
    apply Permutation_map_inv in Hp' as (ps' & ? & ?). by exists ps'. }
  apply normalize_iff. split; [by rewrite <- Hp|]. exists ps'. split_and!; [done|by rewrite <- Hps| |].
  - by eapply ForallOrdPairs_perm; [apply disjoint_sym| |].
  - rewrite Hres. do 2 f_equal. apply sort_by_unique; eauto; [apply sort_by_sorted; eauto|].
    by rewrite sort_by_perm.
Qed.

(** A prefix of both lists is refused as a duplicate. *)
Lemma normalize_app_fresh l r m x : normalizeRoutedSubnets (l ++ r) = Ok m → x ∈ l → ¬ (x ∈ r).
Proof.
  intros (_ & ps & Htrim & Hrout & Hd & _)%normalize_iff Hl Hr.
  pose proof (disjoint_NoDup _ Hrout Hd) as Hnd. rewrite <- Htrim in Hnd.
  rewrite fmap_app in Hnd. apply NoDup_app in Hnd as (_ & Hnd & _).
  apply (Hnd (TrimSpace x)); by apply list_elem_of_fmap_2.
Qed.

Lemma merge_shared l r x : x ∈ elems l → x ∈ elems r → mergeSubnets l r = None.
Proof.
  intros Hl Hr. unfold mergeSubnets. destruct (normalizeRoutedSubnets _) as [m|] eqn:E; [|done].
  by destruct (normalize_app_fresh _ _ _ x E).
Qed.

(** A canonical list is determined by its elements. *)
Lemma canonical_ext l l' : canonical_list l → canonical_list l' → (∀ x, x ∈ l ↔ x ∈ l') → l = l'.
Proof.
  intros H H' Heq. pose proof (NoDup_Permutation _ _ (canonical_NoDup _ H) (canonical_NoDup _ H') Heq) as Hp.
  pose proof (normalize_perm _ _ _ Hp (canonical_normalize _ H)) as E. rewrite canonical_normalize in E by done.
  injection E as E. by rewrite <- (elems_nil_if_empty l), <- (elems_nil_if_empty l'), E.
Qed.

(** Additions that keep clear of the current subnets can be merged with them. *)
Lemma check_added_iff p original :
  check_added p original = Ok tt ↔
  ∀ o, o ∈ original → ∃ q, ParsePrefix o = Some q ∧ prefixesOverlap p q = false.
Proof.
  induction original as [|o original IH]; [split; [|done]; intros _ o Ho; by apply elem_of_nil in Ho|].
  simpl. split.
  - intros H. inv_ok. intros o' [->|Ho]%elem_of_cons; [eauto|by apply IH].
  - intros H. destruct (H o ltac:(constructor)) as (q & Hq & Hno). rewrite Hq. cbn [of_option mbind result_bind].
    rewrite Hno. cbn [fail_if mbind result_bind]. apply IH. intros o' Ho. apply H. by constructor.
Qed.

Lemma check_additions_Ok additions original :
  check_additions additions original = Ok tt → ∀ a o, a ∈ additions → o ∈ original →
  ∃ p q, ParsePrefix a = Some p ∧ ParsePrefix o = Some q ∧ prefixesOverlap p q = false.
Proof.
  induction additions as [|b additions IH]; [intros _ a o Ha; by apply elem_of_nil in Ha|].
  simpl. intros H a o Ha Ho. apply bind_Ok in H as (p & Hp%of_option_Ok & H). apply bind_Ok in H as ([] & Hc & H).
  apply elem_of_cons in Ha as [->|Ha]; [|by apply IH].
  destruct (proj1 (check_added_iff p original) Hc o Ho) as (q & Hq & Hno). eauto.
Qed.

Lemma ForallOrdPairs_app {A} (R : A → A → Prop) l r :
  ForallOrdPairs R l → ForallOrdPairs R r → (∀ x y, x ∈ l → y ∈ r → R x y) → ForallOrdPairs R (l ++ r).
Proof.
  induction 1 as [|x l Hx Hl IH]; intros Hr H; [done|]. simpl. constructor.
  - rewrite Forall_app. split; [done|]. rewrite Forall_forall. intros y Hy. apply H; [constructor|done].
  - apply IH; [done|]. intros y z Hy Hz. apply H; [by constructor|done].
Qed.

Lemma transition_merges original desired :
  canonical original → canonical desired → validateRouteProfileTransition original desired = Ok tt →
  (∀ x, x ∈ elems desired → ¬ (x ∈ elems original)) →
  ∃ m, normalizeRoutedSubnets (elems original ++ elems desired) = Ok m.
Proof.
  intros Ho Hd H Hfresh. unfold validateRouteProfileTransition in H.
  assert (elems (subnetDifference desired original) = elems desired) as E.
  { unfold subnetDifference. rewrite elems_nil_if_empty. apply filter_all.
    intros x Hx. apply contains_false. by apply Hfresh. }
  rewrite E in H. apply bind_Ok in H as ([] & Hc & H). apply bind_Ok in H as (? & Hlen%fail_if_Ok & _).
  unfold maxRoutedSubnetsPerNode in Hlen. apply Z.ltb_ge in Hlen.
  pose proof (check_additions_Ok _ _ Hc) as Hno. unfold canonical in Ho, Hd.
  destruct Ho as (_ & ps & Eo & Hro & Hdo & _), Hd as (_ & qs & Ed & Hrd & Hdd & _).
  eexists. apply normalize_iff. split; [rewrite length_app; lia|]. exists (ps ++ qs). split_and!; [| | |done].
  - rewrite Eo, Ed, !fmap_app. by rewrite !trim_prefix_strings.
  - by apply Forall_app.
  - apply ForallOrdPairs_app; [done..|]. intros p q Hp Hq. rewrite Forall_forall in Hro, Hrd.
    destruct (Hno (prefix_string q) (prefix_string p)) as (q' & p' & Hq' & Hp' & Hov);
      [rewrite Ed; by apply list_elem_of_fmap_2|rewrite Eo; by apply list_elem_of_fmap_2|].
    rewrite (proj2 (ParsePrefix_iff _ q)) in Hq' by auto. rewrite (proj2 (ParsePrefix_iff _ p)) in Hp' by auto.
    simplify_eq. apply overlap_disjoint; auto. by rewrite overlap_sym.
Qed.

(** NormalizeRoutedSubnets accepts a list exactly when it has at most eight
    entries, each (trimmed) the canonical text of a non-default unicast prefix, and
    no two of them share an address; it then returns the texts in
    (address, length) order, nil for an empty list.  The scan of neighbours after
    sorting therefore misses no overlap and reports none that is not there. *)
Theorem normalizeRoutedSubnets_spec vs r : normalizeRoutedSubnets vs = Ok r ↔
  Z.of_nat (length vs) ≤ 8 ∧ ∃ ps, TrimSpace <$> vs = prefix_string <$> ps ∧ Forall routable ps ∧
    ForallOrdPairs disjoint ps ∧ r = nil_if_empty (prefix_string <$> sort_by prefix_le ps).
Proof. apply normalize_iff. Qed.

(** Normalisation is idempotent and order-insensitive: its result is accepted
    by validateCanonicalRoutedSubnets and normalises to itself, and any permutation
    of an accepted list normalises to the same result. *)
Theorem normalizeRoutedSubnets_canonical vs r :
  normalizeRoutedSubnets vs = Ok r →
  validateCanonicalRoutedSubnets r = Ok tt ∧ normalizeRoutedSubnets (elems r) = Ok r ∧
  (∀ vs', vs ≡ₚ vs' → normalizeRoutedSubnets vs' = Ok r).
Proof.
  intros H. destruct (normalize_canonical _ _ H) as [Hc Hn]. split_and!.
  - by apply validate_canonical_iff.
  - rewrite canonical_normalize by done. by rewrite <- Hn.
  - intros vs' Hp. by apply (normalize_perm vs).
Qed.

Lemma normalizeRoutedSubnets_canonical_witness :
  validateCanonicalRoutedSubnets (Some ["10.1.0.0/16"; "192.168.4.0/24"]) = Ok tt.
Proof.
  apply (normalizeRoutedSubnets_canonical ["192.168.4.0/24"; " 10.1.0.0/16"]).
  vm_compute. reflexivity.
Defined.

(** PrefixesOverlap answers whether two masked prefixes share an address, and
    for masked prefixes that is nesting: one of them contains the other's network
    address. *)
Theorem prefixesOverlap_shares_address p q :
  wf_prefix p → wf_prefix q →
  prefixesOverlap p q = true ↔ ∃ a, 0 ≤ a < 2 ^ 32 ∧ Contains p a = true ∧ Contains q a = true.
Proof.
  intros Hp Hq. split.
  - intros Ho. unfold prefixesOverlap in Ho. apply orb_true_iff in Ho as [Ho|Ho].
    + exists (p_addr q). split_and!; try apply Hq; [done|].
      unfold Contains. by rewrite Z.lxor_nilpotent, Z.shiftr_0_l.
    + exists (p_addr p). split_and!; try apply Hp; [|done].
      unfold Contains. by rewrite Z.lxor_nilpotent, Z.shiftr_0_l.
  - intros (a & _ & Ha). apply not_false_iff_true. intros Hd%overlap_disjoint; [|done..].
    by apply (Hd a).
Qed.

Lemma prefixesOverlap_shares_address_witness :
  ∃ a, 0 ≤ a < 2 ^ 32 ∧ Contains (Prefix 167772160 8) a = true ∧ Contains (Prefix 167837696 16) a = true.
Proof.
  apply (prefixesOverlap_shares_address (Prefix 167772160 8) (Prefix 167837696 16)); try done;
    vm_compute; reflexivity.
Defined.

(** The byte-by-byte comparison of prefixes is the numeric order on
    (address, prefix length), so sorting with it is sorting intervals by their
    first address. *)
Theorem compareIPv4Prefixes_numeric p q :
  (compareIPv4Prefixes p q < 0 ↔
    p_addr p < p_addr q ∨ (p_addr p = p_addr q ∧ p_bits p < p_bits q)) ∧
  (compareIPv4Prefixes p q = 0 ↔ p = q) ∧ compareIPv4Prefixes q p = - compareIPv4Prefixes p q.
Proof.
  rewrite !compare_spec. unfold prefix_compare. destruct p as [a b], q as [a' b']; simpl.
  assert (Prefix a b = Prefix a' b' ↔ a = a' ∧ b = b') as -> by (split; [intros [= -> ->]|intros [-> ->]]; done).
  repeat match goal with |- context [?u <? ?v] => destruct (Z.ltb_spec u v) end; lia.
Qed.
