(* ===== verification/RouteState.v ===== *)
(** * Route transfers and route-profile edits: their records and what they imply
    (internal/control/route_transfer.go, route_profile_edit.go)

    The predicates on a network's route transfer and route-profile edit, the
    subnets each phase puts into a node's certificate, and the persisted-state
    checks validateNetworkRouteTransfer and validateNetworkRouteProfileEdit. *)
From S2P Require Import Prelude GoStd IPv4 Model AuditLog Routes.
From Stdlib Require Import Ascii.

(** ** Route transfers *)
Definition zeroNetworkRouteTransfer (value : NetworkRouteTransfer.t) : bool :=
  (NetworkRouteTransfer.RequestID value == "") && (NetworkRouteTransfer.Phase value == "") &&
  (NetworkRouteTransfer.SourceNodeID value == "") && (NetworkRouteTransfer.TargetNodeID value == "") &&
  is_nil (NetworkRouteTransfer.RoutedSubnets value) &&
  is_nil (NetworkRouteTransfer.SourceOriginalSubnets value) &&
  is_nil (NetworkRouteTransfer.TargetOriginalSubnets value) &&
  (NetworkRouteTransfer.TargetCertificateGeneration value =? 0) &&
  (NetworkRouteTransfer.SourceCertificateGeneration value =? 0) &&
  IsZero (NetworkRouteTransfer.StartedAt value) && IsZero (NetworkRouteTransfer.PromotedAt value) &&
  IsZero (NetworkRouteTransfer.FinishedAt value).

Definition routeTransferTerminal (value : NetworkRouteTransfer.t) : bool :=
  zeroNetworkRouteTransfer value
  || (NetworkRouteTransfer.Phase value == RouteTransferPhaseCompleted)
  || (NetworkRouteTransfer.Phase value == RouteTransferPhaseCancelled).

Definition routeTransferActive (value : NetworkRouteTransfer.t) : bool :=
  (NetworkRouteTransfer.Phase value == RouteTransferPhasePreparingTarget)
  || (NetworkRouteTransfer.Phase value == RouteTransferPhaseCleaningSource)
  || (NetworkRouteTransfer.Phase value == RouteTransferPhaseCleaningTarget).

Definition routeTransferIncludesNode (value : NetworkRouteTransfer.t) (nodeID : string) : bool :=
  routeTransferActive value &&
  ((NetworkRouteTransfer.SourceNodeID value == nodeID) || (NetworkRouteTransfer.TargetNodeID value == nodeID)).

(** ["\r\n\t "] *)
Definition request_id_spaces : list ascii := ["013"; "010"; "009"; " "]%char.
Definition validRouteTransferRequestID (value : string) : bool :=
  let value := TrimSpace value in
  (16 <=? len value) && (len value <=? 128) && negb (ContainsAny value request_id_spaces).

(** ** Route-profile edits *)
Definition zeroNetworkRouteProfileEdit (value : NetworkRouteProfileEdit.t) : bool :=
  (NetworkRouteProfileEdit.RequestID value == "") && (NetworkRouteProfileEdit.Phase value == "") &&
  (NetworkRouteProfileEdit.NodeID value == "") &&
  is_nil (NetworkRouteProfileEdit.OriginalSubnets value) &&
  is_nil (NetworkRouteProfileEdit.DesiredSubnets value) &&
  (NetworkRouteProfileEdit.PreparedCertificateGeneration value =? 0) &&
  (NetworkRouteProfileEdit.CleanupCertificateGeneration value =? 0) &&
  IsZero (NetworkRouteProfileEdit.StartedAt value) && IsZero (NetworkRouteProfileEdit.PromotedAt value) &&
  IsZero (NetworkRouteProfileEdit.FinishedAt value).

Definition routeProfileEditTerminal (value : NetworkRouteProfileEdit.t) : bool :=
  zeroNetworkRouteProfileEdit value
  || (NetworkRouteProfileEdit.Phase value == RouteProfileEditPhaseCompleted)
  || (NetworkRouteProfileEdit.Phase value == RouteProfileEditPhaseCancelled).

Definition routeProfileEditActive (value : NetworkRouteProfileEdit.t) : bool :=
  (NetworkRouteProfileEdit.Phase value == RouteProfileEditPhasePreparingOwner)
  || (NetworkRouteProfileEdit.Phase value == RouteProfileEditPhaseCleaningOwner)
  || (NetworkRouteProfileEdit.Phase value == RouteProfileEditPhaseCleaningCancelledOwner).

Definition routeProfileEditIncludesNode (value : NetworkRouteProfileEdit.t) (nodeID : string) : bool :=
  routeProfileEditActive value && (NetworkRouteProfileEdit.NodeID value == nodeID).

Definition routeProfileEditAdditions (value : NetworkRouteProfileEdit.t) : slice string :=
  subnetDifference (NetworkRouteProfileEdit.DesiredSubnets value)
    (NetworkRouteProfileEdit.OriginalSubnets value).

Definition routeProfileEditRemovals (value : NetworkRouteProfileEdit.t) : slice string :=
  subnetDifference (NetworkRouteProfileEdit.OriginalSubnets value)
    (NetworkRouteProfileEdit.DesiredSubnets value).

Definition routeProfileEditDesiredGeneration (value : NetworkRouteProfileEdit.t) : Z :=
  let phase := NetworkRouteProfileEdit.Phase value in
  if phase == RouteProfileEditPhasePreparingOwner then
    NetworkRouteProfileEdit.PreparedCertificateGeneration value
  else if (phase == RouteProfileEditPhaseCleaningOwner)
          || (phase == RouteProfileEditPhaseCleaningCancelledOwner) then
    NetworkRouteProfileEdit.CleanupCertificateGeneration value
  else 0.

(** ** The subnets of a node's certificate *)
Definition routeProfileCertificateRoutedSubnets (network : Network.t) (node : Node.t) :
    option (slice string) :=
  let edit := Network.RouteProfileEdit network in
  let phase := NetworkRouteProfileEdit.Phase edit in
  if Node.ID node != NetworkRouteProfileEdit.NodeID edit then None
  else if phase == RouteProfileEditPhasePreparingOwner then
    Some (mergeSubnets (NetworkRouteProfileEdit.OriginalSubnets edit)
                       (NetworkRouteProfileEdit.DesiredSubnets edit))
  else if phase == RouteProfileEditPhaseCleaningOwner then
    Some (NetworkRouteProfileEdit.DesiredSubnets edit)
  else if phase == RouteProfileEditPhaseCleaningCancelledOwner then
    Some (NetworkRouteProfileEdit.OriginalSubnets edit)
  else None.

Definition routeProfileCertificateRenewalRequired (network : Network.t) (node : Node.t) : bool :=
  if Node.ID node != NetworkRouteProfileEdit.NodeID (Network.RouteProfileEdit network) then false
  else let desired := routeProfileEditDesiredGeneration (Network.RouteProfileEdit network) in
       (0 <? desired) && (Node.CertificateGeneration node <? desired).

Definition certificateRoutedSubnets (network : Network.t) (node : Node.t) : slice string :=
  let transfer := Network.RouteTransfer network in
  let phase := NetworkRouteTransfer.Phase transfer in
  let is_target := Node.ID node == NetworkRouteTransfer.TargetNodeID transfer in
  if (phase == RouteTransferPhasePreparingTarget) && is_target then
    mergeSubnets (NetworkRouteTransfer.TargetOriginalSubnets transfer)
                 (NetworkRouteTransfer.RoutedSubnets transfer)
  else if (phase == RouteTransferPhaseCleaningTarget) && is_target then
    NetworkRouteTransfer.TargetOriginalSubnets transfer
  else match routeProfileCertificateRoutedSubnets network node with
       | Some subnets => subnets
       | None => Node.RoutedSubnets node
       end.

Definition networkCertificateProfileRenewalRequired (network : Network.t) (node : Node.t) : bool :=
  let transfer := Network.RouteTransfer network in
  let phase := NetworkRouteTransfer.Phase transfer in
  if (phase == RouteTransferPhasePreparingTarget) || (phase == RouteTransferPhaseCleaningTarget) then
    (Node.ID node == NetworkRouteTransfer.TargetNodeID transfer) &&
    (Node.CertificateGeneration node <? NetworkRouteTransfer.TargetCertificateGeneration transfer)
  else if phase == RouteTransferPhaseCleaningSource then
    (Node.ID node == NetworkRouteTransfer.SourceNodeID transfer) &&
    (Node.CertificateGeneration node <? NetworkRouteTransfer.SourceCertificateGeneration transfer)
  else routeProfileCertificateRenewalRequired network node.

Definition terminalRouteTransitionReplayRevision (expected current : Z) : bool :=
  (expected =? current) || ((1 <? current) && (expected =? current - 1)).

Definition enrolled (node : Node.t) : bool :=
  match Node.EnrolledAt node with Some _ => true | None => false end.

Definition routeProfileEditStartAvailable (network : Network.t) (node : Node.t) : bool :=
  routeProfileEditTerminal (Network.RouteProfileEdit network) &&
  routeTransferTerminal (Network.RouteTransfer network) &&
  (NetworkCARotation.Phase (Network.CARotation network) == "") &&
  (NetworkFirewallRollout.Phase (Network.FirewallRollout network) == "") &&
  (Node.Status node == "active") && enrolled node &&
  (0 <? Node.CertificateGeneration node) && (Node.CertificateGeneration node <? int64_max).

(** ** Persisted-state checks *)
Definition canonicalSubnets (s : slice string) : bool := is_ok (validateCanonicalRoutedSubnets s).
Definition empty_slice {A} (s : slice A) : bool := (length (elems s) =? 0)%nat.

(** The nodes an active transfer names, against the state. *)
Definition validateTransferParticipants (state : State.t) (network : Network.t) : result unit :=
  let transfer := Network.RouteTransfer network in
  let phase := NetworkRouteTransfer.Phase transfer in
  match findNode state (NetworkRouteTransfer.SourceNodeID transfer),
        findNode state (NetworkRouteTransfer.TargetNodeID transfer) with
  | Some source, Some target =>
      fail (ErrOther "active transfer participants are not active nodes in the network")
        when (Node.NetworkID source != Network.ID network) || (Node.NetworkID target != Network.ID network)
          || (Node.Status source != "active") || (Node.Status target != "active");;
      if (phase == RouteTransferPhasePreparingTarget) || (phase == RouteTransferPhaseCleaningTarget) then
        fail (ErrOther "unpromoted transfer ownership differs from its snapshots")
          when negb (slices_equal (Node.RoutedSubnets source) (NetworkRouteTransfer.SourceOriginalSubnets transfer))
            || negb (slices_equal (Node.RoutedSubnets target) (NetworkRouteTransfer.TargetOriginalSubnets transfer));;
        Ok tt
      else if phase == RouteTransferPhaseCleaningSource then
        fail (ErrOther "promoted transfer ownership differs from its snapshots")
          when negb (slices_equal (Node.RoutedSubnets source)
                      (subtractSubnets (NetworkRouteTransfer.SourceOriginalSubnets transfer)
                                       (NetworkRouteTransfer.RoutedSubnets transfer)))
            || negb (slices_equal (Node.RoutedSubnets target)
                      (mergeSubnets (NetworkRouteTransfer.TargetOriginalSubnets transfer)
                                    (NetworkRouteTransfer.RoutedSubnets transfer)));;
        Ok tt
      else Ok tt
  | _, _ => Err (ErrOther "active transfer participants are not active nodes in the network")
  end.

Definition validateNetworkRouteTransfer (state : State.t) (network : Network.t) : result unit :=
  let transfer := Network.RouteTransfer network in
  let phase := NetworkRouteTransfer.Phase transfer in
  let promoted := negb (IsZero (NetworkRouteTransfer.PromotedAt transfer)) in
  let finished := negb (IsZero (NetworkRouteTransfer.FinishedAt transfer)) in
  let sourceGeneration := NetworkRouteTransfer.SourceCertificateGeneration transfer in
  if zeroNetworkRouteTransfer transfer then Ok tt else
  fail (ErrOther "identity, request, or start metadata is invalid")
    when negb (validRouteTransferRequestID (NetworkRouteTransfer.RequestID transfer))
      || negb (validPersistedID (NetworkRouteTransfer.SourceNodeID transfer))
      || negb (validPersistedID (NetworkRouteTransfer.TargetNodeID transfer))
      || (NetworkRouteTransfer.SourceNodeID transfer == NetworkRouteTransfer.TargetNodeID transfer)
      || IsZero (NetworkRouteTransfer.StartedAt transfer);;
  fail (ErrOther "phase is invalid")
    when (phase != RouteTransferPhasePreparingTarget) && (phase != RouteTransferPhaseCleaningSource)
      && (phase != RouteTransferPhaseCleaningTarget) && (phase != RouteTransferPhaseCompleted)
      && (phase != RouteTransferPhaseCancelled);;
  fail (ErrOther "transferred prefixes are invalid")
    when negb (canonicalSubnets (NetworkRouteTransfer.RoutedSubnets transfer))
      || empty_slice (NetworkRouteTransfer.RoutedSubnets transfer);;
  fail (ErrOther "source prefix snapshot is invalid")
    when negb (canonicalSubnets (NetworkRouteTransfer.SourceOriginalSubnets transfer))
      || empty_slice (NetworkRouteTransfer.SourceOriginalSubnets transfer);;
  fail (ErrOther "target prefix snapshot is invalid")
    when negb (canonicalSubnets (NetworkRouteTransfer.TargetOriginalSubnets transfer));;
  fail (ErrOther "transfer generations or source ownership are invalid")
    when negb (subnetSetContainsAll (NetworkRouteTransfer.SourceOriginalSubnets transfer)
                                    (NetworkRouteTransfer.RoutedSubnets transfer))
      || (NetworkRouteTransfer.TargetCertificateGeneration transfer <? 1);;
  fail (ErrOther "prepare phase has invalid transition metadata")
    when (phase == RouteTransferPhasePreparingTarget) && (promoted || finished || negb (sourceGeneration =? 0));;
  fail (ErrOther "target cleanup has invalid transition metadata")
    when (phase == RouteTransferPhaseCleaningTarget) && (promoted || finished || negb (sourceGeneration =? 0));;
  fail (ErrOther "source cleanup has invalid transition metadata")
    when (phase == RouteTransferPhaseCleaningSource) && (negb promoted || finished || (sourceGeneration <? 1));;
  fail (ErrOther "completion metadata is invalid")
    when (phase == RouteTransferPhaseCompleted) && (negb promoted || negb finished || (sourceGeneration <? 1));;
  fail (ErrOther "cancellation metadata is invalid")
    when (phase == RouteTransferPhaseCancelled) && (promoted || negb finished || negb (sourceGeneration =? 0));;
  if routeTransferActive transfer then validateTransferParticipants state network else Ok tt.

(** The phase-specific metadata of a route-profile edit (the switch). *)
Definition validateEditPhaseMetadata (edit : NetworkRouteProfileEdit.t) : result unit :=
  let phase := NetworkRouteProfileEdit.Phase edit in
  let no_additions := empty_slice (routeProfileEditAdditions edit) in
  let no_removals := empty_slice (routeProfileEditRemovals edit) in
  let promoted := negb (IsZero (NetworkRouteProfileEdit.PromotedAt edit)) in
  let finished := negb (IsZero (NetworkRouteProfileEdit.FinishedAt edit)) in
  let cleanup := NetworkRouteProfileEdit.CleanupCertificateGeneration edit in
  if phase == RouteProfileEditPhasePreparingOwner then
    fail (ErrOther "prepare phase metadata is invalid")
      when no_additions || negb (cleanup =? 0) || promoted || finished;; Ok tt
  else if phase == RouteProfileEditPhaseCleaningOwner then
    fail (ErrOther "owner cleanup metadata is invalid")
      when no_removals || (cleanup <? 1) || negb promoted || finished;; Ok tt
  else if phase == RouteProfileEditPhaseCleaningCancelledOwner then
    fail (ErrOther "cancelled-owner cleanup metadata is invalid")
      when no_additions || (cleanup <? 1) || promoted || finished;; Ok tt
  else if phase == RouteProfileEditPhaseCompleted then
    fail (ErrOther "completion metadata is invalid")
      when negb promoted || negb finished || (negb no_removals && (cleanup <? 1))
        || (no_removals && negb (cleanup =? 0));; Ok tt
  else if phase == RouteProfileEditPhaseCancelled then
    fail (ErrOther "cancellation metadata is invalid") when promoted || negb finished;; Ok tt
  else Ok tt.

(** The owner an active edit names, against the state. *)
Definition validateEditOwner (state : State.t) (network : Network.t) : result unit :=
  let edit := Network.RouteProfileEdit network in
  fail (ErrOther "route-profile edit overlaps an active route transfer")
    when routeTransferActive (Network.RouteTransfer network);;
  owner ← of_option (findNode state (NetworkRouteProfileEdit.NodeID edit))
            (ErrOther "active route-profile owner is not an active enrolled node in the network");
  fail (ErrOther "active route-profile owner is not an active enrolled node in the network")
    when (Node.NetworkID owner != Network.ID network) || (Node.Status owner != "active") || negb (enrolled owner);;
  let desiredGeneration := routeProfileEditDesiredGeneration edit in
  fail (ErrOther "active route-profile desired certificate generation is not current or next")
    when negb (desiredGeneration =? Node.CertificateGeneration owner) &&
      ((Node.CertificateGeneration owner =? int64_max)
       || negb (desiredGeneration =? wrap64 (Node.CertificateGeneration owner + 1)));;
  let expected := if NetworkRouteProfileEdit.Phase edit == RouteProfileEditPhaseCleaningOwner
                  then NetworkRouteProfileEdit.DesiredSubnets edit
                  else NetworkRouteProfileEdit.OriginalSubnets edit in
  fail (ErrOther "active route-profile ownership differs from its durable phase snapshot")
    when negb (slices_equal (Node.RoutedSubnets owner) expected);;
  Ok tt.

Definition validateNetworkRouteProfileEdit (state : State.t) (network : Network.t) : result unit :=
  let edit := Network.RouteProfileEdit network in
  let phase := NetworkRouteProfileEdit.Phase edit in
  let prepared := NetworkRouteProfileEdit.PreparedCertificateGeneration edit in
  if zeroNetworkRouteProfileEdit edit then Ok tt else
  fail (ErrOther "identity, request, or start metadata is invalid")
    when negb (validRouteTransferRequestID (NetworkRouteProfileEdit.RequestID edit))
      || negb (validPersistedID (NetworkRouteProfileEdit.NodeID edit))
      || IsZero (NetworkRouteProfileEdit.StartedAt edit);;
  fail (ErrOther "phase is invalid")
    when (phase != RouteProfileEditPhasePreparingOwner) && (phase != RouteProfileEditPhaseCleaningOwner)
      && (phase != RouteProfileEditPhaseCleaningCancelledOwner)
      && (phase != RouteProfileEditPhaseCompleted) && (phase != RouteProfileEditPhaseCancelled);;
  fail (ErrOther "original prefix snapshot is invalid")
    when negb (canonicalSubnets (NetworkRouteProfileEdit.OriginalSubnets edit));;
  fail (ErrOther "desired prefix snapshot is invalid")
    when negb (canonicalSubnets (NetworkRouteProfileEdit.DesiredSubnets edit));;
  let no_additions := empty_slice (routeProfileEditAdditions edit) in
  let no_removals := empty_slice (routeProfileEditRemovals edit) in
  fail (ErrOther "route profile edit does not change the prefix set") when no_additions && no_removals;;
  fail (ErrOther "prepared certificate generation is inconsistent with additions")
    when (no_additions && negb (prepared =? 0)) || (negb no_additions && (prepared <? 1));;
  _ ← validateEditPhaseMetadata edit;
  if routeProfileEditActive edit then validateEditOwner state network else Ok tt.
