(* ===== verification/Reservations.v ===== *)
(** * Address reservations (internal/control/routes.go)

    Managed network CIDRs, the routed subnets of live nodes and the additions a
    route-profile edit stages are the reserved prefixes of a state.  Only several
    live gateways of one network may share a prefix, and then exactly. *)
From S2P Require Import Prelude GoStd IPv4 Model AuditLog Routes RouteState.

Definition maxRoutePolicyGateways : Z := 8.

Inductive reservation_kind := managed_network | routed_subnet.
#[export] Instance reservation_kind_eq_dec : EqDecision reservation_kind.
Proof. solve_decision. Defined.

Module reservedIPv4Prefix.
Record t := make { prefix : prefix; owner : string; networkID : string; kind : reservation_kind }.
#[global] Instance reservedIPv4Prefix_eq_dec : EqDecision t.
Proof. solve_decision. Defined.
End reservedIPv4Prefix.
Import reservedIPv4Prefix (make).

(** ** Collecting the reservations *)
Fixpoint parse_all (owner networkID : string) (k : reservation_kind) (values : list string) :
    result (list reservedIPv4Prefix.t) :=
  match values with
  | [] => Ok []
  | value :: rest =>
      p ← of_option (ParsePrefix value) (ErrOther "invalid prefix");
      rs ← parse_all owner networkID k rest;
      Ok (make p owner networkID k :: rs)
  end.

Fixpoint concat_results {A B} (f : A → result (list B)) (l : list A) : result (list B) :=
  match l with
  | [] => Ok []
  | x :: rest => ys ← f x; zs ← concat_results f rest; Ok (ys ++ zs)
  end.

Definition network_reservation (network : Network.t) : result (list reservedIPv4Prefix.t) :=
  parse_all (Network.ID network) (Network.ID network) managed_network [Network.CIDR network].

Definition node_reservations (node : Node.t) : result (list reservedIPv4Prefix.t) :=
  if Node.Status node == "revoked" then Ok []
  else parse_all (Node.ID node) (Node.NetworkID node) routed_subnet (elems (Node.RoutedSubnets node)).

Definition edit_reservations (state : State.t) (network : Network.t) : result (list reservedIPv4Prefix.t) :=
  let edit := Network.RouteProfileEdit network in
  if negb (routeProfileEditActive edit) then Ok [] else
  owner ← of_option (findNode state (NetworkRouteProfileEdit.NodeID edit))
            (ErrOther "route-profile edit for a missing node");
  parse_all (Node.ID owner) (Node.NetworkID owner) routed_subnet
    (filter (λ value, contains (elems (Node.RoutedSubnets owner)) value = false)
       (elems (routeProfileEditAdditions edit))).

Definition activeReservedIPv4Prefixes (state : State.t) : result (list reservedIPv4Prefix.t) :=
  networks ← concat_results network_reservation (State.Networks state);
  nodes ← concat_results node_reservations (State.Nodes state);
  edits ← concat_results (edit_reservations state) (State.Networks state);
  Ok (networks ++ nodes ++ edits).

(** ** New subnets against the reservations *)
Definition validateNewRoutedSubnets (state : State.t) (subnets : slice string) : result unit :=
  if empty_slice subnets then Ok tt else
  reservations ← activeReservedIPv4Prefixes state;
  fail ErrConflict
    when existsb (λ value, existsb (λ r, overlap_texts (reservedIPv4Prefix.prefix r) value) reservations)
           (elems subnets);;
  Ok tt.

(** Is the reservation no obstacle to the node: its own, or the same prefix held by
    an active enrolled gateway of its network? *)
Definition reservation_skipped (state : State.t) (node : Node.t) (nodeID : string) (p : option prefix)
    (r : reservedIPv4Prefix.t) : bool :=
  ((reservedIPv4Prefix.kind r == routed_subnet) && (reservedIPv4Prefix.owner r == nodeID))
  || ((reservedIPv4Prefix.kind r == routed_subnet) && (reservedIPv4Prefix.networkID r == Node.NetworkID node)
      && (p == Some (reservedIPv4Prefix.prefix r))
      && match findNode state (reservedIPv4Prefix.owner r) with
         | Some owner => (Node.Status owner == "active") && enrolled owner
         | None => false
         end).

Definition validateRoutedSubnetsForNode (state : State.t) (nodeID : string) (subnets : slice string) :
    result unit :=
  node ← of_option (findNode state nodeID) ErrNotFound;
  reservations ← activeReservedIPv4Prefixes state;
  fail ErrConflict
    when existsb (λ value,
           existsb (λ r, negb (reservation_skipped state node nodeID (ParsePrefix value) r)
                         && overlap_texts (reservedIPv4Prefix.prefix r) value) reservations)
           (elems subnets);;
  Ok tt.

Definition first_overlap (p : prefix) (values : list string) : option string :=
  snd <$> list_find (λ value, overlap_texts p value = true) values.

(** The first live routed subnet or staged addition that overlaps a CIDR. *)
Definition managedCIDROverlapsRoutedSubnet (state : State.t) (cidr : string) : option string :=
  match ParsePrefix cidr with
  | None => None
  | Some p =>
      first_overlap p
        (mjoin ((λ node, if Node.Status node == "revoked" then [] else elems (Node.RoutedSubnets node))
                <$> State.Nodes state)
         ++ mjoin ((λ network, if routeProfileEditActive (Network.RouteProfileEdit network)
                               then elems (routeProfileEditAdditions (Network.RouteProfileEdit network)) else [])
                <$> State.Networks state))
  end.

(** ** The whole graph *)

(** The order the reservations are sorted by: prefix, kind, owner. *)
Definition kind_rank (k : reservation_kind) : Z := match k with managed_network => 0 | routed_subnet => 1 end.
Definition reservation_le (a b : reservedIPv4Prefix.t) : bool :=
  let c := compareIPv4Prefixes (reservedIPv4Prefix.prefix a) (reservedIPv4Prefix.prefix b) in
  if negb (c =? 0) then c <? 0
  else if reservedIPv4Prefix.kind a != reservedIPv4Prefix.kind b
       then kind_rank (reservedIPv4Prefix.kind a) <? kind_rank (reservedIPv4Prefix.kind b)
       else str_le (reservedIPv4Prefix.owner a) (reservedIPv4Prefix.owner b).

(** The gateways of one network that share one prefix. *)
Definition shares_prefix (current r : reservedIPv4Prefix.t) : bool :=
  (reservedIPv4Prefix.kind r == routed_subnet)
  && (reservedIPv4Prefix.networkID r == reservedIPv4Prefix.networkID current)
  && (reservedIPv4Prefix.prefix r == reservedIPv4Prefix.prefix current).

(** The inner scan: how many reservations from here on share the prefix. *)
Fixpoint run_length (current : reservedIPv4Prefix.t) (l : list reservedIPv4Prefix.t) : Z :=
  match l with
  | r :: rest => if shares_prefix current r then 1 + run_length current rest else 0
  | [] => 0
  end.

Fixpoint scan_reservations (previous : reservedIPv4Prefix.t) (l : list reservedIPv4Prefix.t) : result unit :=
  match l with
  | [] => Ok tt
  | current :: rest =>
      if prefixesOverlap (reservedIPv4Prefix.prefix previous) (reservedIPv4Prefix.prefix current) then
        if (reservedIPv4Prefix.kind previous == routed_subnet) && shares_prefix previous current then
          if maxRoutePolicyGateways <? 1 + run_length current (current :: rest)
          then Err (ErrOther "routed subnet has more than 8 gateways")
          else scan_reservations current rest
        else Err (ErrOther "reserved prefixes overlap")
      else scan_reservations current rest
  end.

Definition validateReservedIPv4PrefixGraph (state : State.t) : result unit :=
  reservations ← activeReservedIPv4Prefixes state;
  match sort_by reservation_le reservations with
  | [] => Ok tt
  | first :: rest => scan_reservations first rest
  end.

(** ** What the scan decides

    Two reservations are compatible when they share no address, or are the same
    prefix routed by gateways of one network. *)
Definition res_wf (r : reservedIPv4Prefix.t) : Prop := wf_prefix (reservedIPv4Prefix.prefix r).
Definition same_route (a b : reservedIPv4Prefix.t) : Prop :=
  reservedIPv4Prefix.kind a = routed_subnet ∧ reservedIPv4Prefix.kind b = routed_subnet ∧
  reservedIPv4Prefix.networkID a = reservedIPv4Prefix.networkID b ∧
  reservedIPv4Prefix.prefix a = reservedIPv4Prefix.prefix b.
#[export] Instance same_route_dec a b : Decision (same_route a b).
Proof. unfold same_route. apply _. Defined.
Definition compatible (a b : reservedIPv4Prefix.t) : Prop :=
  disjoint (reservedIPv4Prefix.prefix a) (reservedIPv4Prefix.prefix b) ∨ same_route a b.
Definition gateways (l : list reservedIPv4Prefix.t) (r : reservedIPv4Prefix.t) : list reservedIPv4Prefix.t :=
  filter (same_route r) l.
Definition gateways_bounded (l : list reservedIPv4Prefix.t) : Prop :=
  ∀ r, r ∈ l → Z.of_nat (length (gateways l r)) ≤ 8.

Lemma same_route_sym a b : same_route a b → same_route b a.
Proof. unfold same_route. naive_solver congruence. Qed.
Lemma same_route_trans a b c : same_route a b → same_route b c → same_route a c.
Proof. unfold same_route. naive_solver congruence. Qed.
Lemma compatible_sym a b : compatible a b → compatible b a.
Proof. unfold compatible. intros [?|?]; auto using disjoint_sym, same_route_sym. Qed.

Lemma shares_prefix_iff a b : reservedIPv4Prefix.kind a = routed_subnet →
  shares_prefix a b = true ↔ same_route a b.
Proof.
  unfold shares_prefix, same_route. intros ->. rewrite !andb_true_iff, !bool_decide_eq_true.
  naive_solver congruence.
Qed.

Lemma reservation_le_iff a b : reservation_le a b = true ↔
  prefix_compare (reservedIPv4Prefix.prefix a) (reservedIPv4Prefix.prefix b) < 0 ∨
  (reservedIPv4Prefix.prefix a = reservedIPv4Prefix.prefix b ∧
   (kind_rank (reservedIPv4Prefix.kind a) < kind_rank (reservedIPv4Prefix.kind b) ∨
    (reservedIPv4Prefix.kind a = reservedIPv4Prefix.kind b ∧
     str_le (reservedIPv4Prefix.owner a) (reservedIPv4Prefix.owner b) = true))).
Proof.
  unfold reservation_le. rewrite compare_spec.
  assert (prefix_compare (reservedIPv4Prefix.prefix a) (reservedIPv4Prefix.prefix b) = 0 ↔
    reservedIPv4Prefix.prefix a = reservedIPv4Prefix.prefix b) as Heq.
  { unfold prefix_compare.
    destruct (reservedIPv4Prefix.prefix a) as [x n], (reservedIPv4Prefix.prefix b) as [y m]; simpl.
    split; [|intros [= -> ->]; by rewrite !Z.ltb_irrefl].
    repeat case_match; intros; try lia; f_equal; lia. }
  destruct (Z.eqb_spec (prefix_compare (reservedIPv4Prefix.prefix a) (reservedIPv4Prefix.prefix b)) 0) as [E|E];
    simpl; [|rewrite Z.ltb_lt; naive_solver].
  rewrite E. destruct (reservedIPv4Prefix.kind a), (reservedIPv4Prefix.kind b); simpl; naive_solver lia.
Qed.
Lemma reservation_le_total a b : reservation_le a b = true ∨ reservation_le b a = true.
Proof.
  rewrite !reservation_le_iff. unfold prefix_compare.
  destruct a as [[x n] o i k], b as [[y m] o' i' k']; simpl.
  pose proof (str_le_total o o'). assert (Prefix x n = Prefix y m ↔ x = y ∧ n = m) as -> by naive_solver.
  assert (Prefix y m = Prefix x n ↔ x = y ∧ n = m) as -> by naive_solver.
  destruct k, k'; simpl; repeat case_match; naive_solver lia.
Qed.
Lemma reservation_le_trans a b c :
  reservation_le a b = true → reservation_le b c = true → reservation_le a c = true.
Proof.
  rewrite !reservation_le_iff. intros [H1|[E1 H1]] [H2|[E2 H2]].
  - left. unfold prefix_compare in *. repeat case_match; lia.
  - left. by rewrite <- E2.
  - left. by rewrite E1.
  - right. split; [congruence|]. destruct H1 as [|[? ?]], H2 as [|[? ?]].
    + left; lia.
    + left; congruence.
    + left; congruence.
    + right. split; [congruence|eauto].
Qed.

Lemma reservation_le_prefix a b : reservation_le a b = true →
  prefix_le (reservedIPv4Prefix.prefix a) (reservedIPv4Prefix.prefix b) = true.
Proof.
  unfold reservation_le, prefix_le. destruct (Z.eqb_spec (compareIPv4Prefixes
    (reservedIPv4Prefix.prefix a) (reservedIPv4Prefix.prefix b)) 0) as [->|]; simpl; [done|].
  rewrite Z.ltb_lt, Z.leb_le. lia.
Qed.

Definition in_order (l : list reservedIPv4Prefix.t) : Prop :=
  StronglySorted (λ a b, prefix_le (reservedIPv4Prefix.prefix a) (reservedIPv4Prefix.prefix b) = true) l.

(** A prefix that follows in order and does not overlap is past every prefix
    before it. *)
Lemma disjoint_past a b c :
  res_wf a → res_wf b → res_wf c →
  prefix_le (reservedIPv4Prefix.prefix a) (reservedIPv4Prefix.prefix b) = true →
  prefix_le (reservedIPv4Prefix.prefix b) (reservedIPv4Prefix.prefix c) = true →
  disjoint (reservedIPv4Prefix.prefix a) (reservedIPv4Prefix.prefix b) →
  disjoint (reservedIPv4Prefix.prefix a) (reservedIPv4Prefix.prefix c) ∧
  reservedIPv4Prefix.prefix a ≠ reservedIPv4Prefix.prefix c.
Proof.
  unfold res_wf. intros Ha Hb Hc Hab Hbc Hd.
  assert (disjoint (reservedIPv4Prefix.prefix a) (reservedIPv4Prefix.prefix c)) as Hac.
  { apply overlap_disjoint, ordered_disjoint; eauto.
    apply overlap_disjoint, ordered_disjoint in Hd; auto.
    apply prefix_le_iff in Hbc. unfold lo in *. lia. }
  split; [done|]. intros E. rewrite E in Hac. by apply (disjoint_irrefl (reservedIPv4Prefix.prefix c)).
Qed.

Lemma run_length_gateways c l :
  reservedIPv4Prefix.kind c = routed_subnet → Forall res_wf (c :: l) → in_order (c :: l) →
  Forall (compatible c) l → run_length c l = Z.of_nat (length (gateways l c)).
Proof.
  intros Hk. induction l as [|r l IH]; intros Hwf Hs Hc; [done|].
  inversion Hs as [|?? Hsl Hcl]; subst. inversion Hsl as [|?? Hsl' Hrl]; subst.
  rewrite !Forall_cons in Hwf. destruct Hwf as (Hwc & Hwr & Hwl).
  apply Forall_cons in Hcl as [Hcr Hcl]. apply Forall_cons in Hc as [Hcomp Hc].
  unfold gateways in *. simpl. rewrite filter_cons. destruct (decide (same_route c r)) as [Hsr|Hsr].
  - rewrite (proj2 (shares_prefix_iff c r Hk) Hsr). simpl. rewrite IH; [lia| | |done]; by constructor.
  - destruct (shares_prefix c r) eqn:E; [by apply shares_prefix_iff in E|].
    destruct Hcomp as [Hd|?]; [|done]. rewrite filter_none; [done|].
    rewrite Forall_forall in *. intros x Hx (_ & _ & _ & Hp).
    by destruct (disjoint_past c r x) as [_ []]; auto.
Qed.

(** One step of the scan. *)
Lemma scan_step p q l :
  Forall res_wf (p :: q :: l) → in_order (p :: q :: l) →
  ForallOrdPairs compatible (q :: l) → compatible p q → Forall (compatible p) l.
Proof.
  intros Hwf Hs Hpair Hpq. inversion Hs as [|?? Hsl Hpl]; subst.
  inversion Hsl as [|?? _ Hql]; inversion Hpair as [|?? Hq _]; subst.
  rewrite !Forall_cons in Hwf. destruct Hwf as (? & ? & Hwl). apply Forall_cons in Hpl as [Hle _].
  rewrite Forall_forall in *. intros r Hr. destruct Hpq as [Hd|Hs'].
  - left. apply (disjoint_past p q r); auto.
  - specialize (Hq r Hr). destruct Hq as [Hd|Hqr]; [left|right; by eapply same_route_trans].
    by destruct Hs' as (_ & _ & _ & ->).
Qed.

Lemma gateways_head p l :
  reservedIPv4Prefix.kind p = routed_subnet → gateways (p :: l) p = p :: gateways l p.
Proof. intros. unfold gateways. rewrite filter_cons, decide_True; [done|]. by unfold same_route. Qed.

Lemma gateways_ext l a b : same_route a b → gateways l a = gateways l b.
Proof.
  intros H. unfold gateways. apply list_filter_iff. intros x. split; intros;
    eauto using same_route_trans, same_route_sym.
Qed.

Lemma gateways_bounded_cons p l :
  gateways_bounded (p :: l) ↔ Z.of_nat (length (gateways (p :: l) p)) ≤ 8 ∧ gateways_bounded l.
Proof.
  split.
  - intros H. split; [apply H; constructor|]. intros r Hr. etrans; [|apply (H r); by constructor].
    unfold gateways. rewrite filter_cons. case_decide; simpl; lia.
  - intros [Hp Hl] r [->|Hr]%elem_of_cons; [done|]. specialize (Hl r Hr).
    destruct (decide (same_route r p)) as [Hs|Hs]; [by rewrite (gateways_ext _ r p Hs)|].
    unfold gateways in *. by rewrite filter_cons, decide_False.
Qed.

Lemma scan_iff p l :
  Forall res_wf (p :: l) → in_order (p :: l) →
  scan_reservations p l = Ok tt ↔ ForallOrdPairs compatible (p :: l) ∧ gateways_bounded (p :: l).
Proof.
  revert p. induction l as [|q l IH]; intros p Hwf Hs.
  { split; [intros _; split; [repeat constructor|]|done]. intros r ->%list_elem_of_singleton.
    unfold gateways. rewrite filter_cons. case_decide; simpl; lia. }
  inversion Hs as [|?? Hsl Hpl]; subst. apply Forall_cons in Hpl as [Hpq _].
  apply Forall_cons in Hwf as Hwf'. destruct Hwf' as [Hwp Hwl].
  apply Forall_cons in Hwl as Hwl'. destruct Hwl' as [Hwq _].
  specialize (IH q Hwl Hsl).
  assert (scan_reservations p (q :: l) = Ok tt ↔
    compatible p q ∧ (same_route p q → run_length q (q :: l) ≤ 7) ∧ scan_reservations q l = Ok tt) as ->.
  { cbn [scan_reservations]. set (n := run_length q (q :: l)). clearbody n.
    destruct (prefixesOverlap _ _) eqn:Ho.
    - assert (¬ disjoint (reservedIPv4Prefix.prefix p) (reservedIPv4Prefix.prefix q)) as Hnd.
      { intros Hd%overlap_disjoint; [congruence|done..]. }
      destruct (decide (same_route p q)) as [Hsr|Hsr].
      + rewrite (proj2 (shares_prefix_iff p q (proj1 Hsr)) Hsr), bool_decide_eq_true_2 by apply Hsr.
        cbn [andb]. unfold maxRoutePolicyGateways. unfold compatible.
        destruct (Z.ltb_spec 8 (1 + n)).
        * split; [done|]. intros (_ & Hn & _). specialize (Hn Hsr). lia.
        * split; [|naive_solver]. intros ?. split_and!; [by right|lia|done].
      + destruct (bool_decide _ && shares_prefix p q) eqn:E.
        * exfalso. apply andb_true_iff in E as [E1 E2]. apply bool_decide_eq_true in E1.
          by apply shares_prefix_iff in E2.
        * split; [done|]. by intros ([?|?] & _).
    - apply overlap_disjoint in Ho; [|done..]. unfold compatible. split; [|naive_solver].
      intros ?. split_and!; [by left| |done]. intros (_ & _ & _ & E). rewrite E in Ho.
      by apply disjoint_irrefl in Ho. }
  rewrite IH, (gateways_bounded_cons p). split.
  - intros (Hpq' & Hrun & Hpair & Hb). pose proof (scan_step p q l Hwf Hs Hpair Hpq') as Hpl.
    assert (Forall (compatible p) (q :: l)) as Hpl' by (by constructor).
    split_and!; [by constructor| |done].
    destruct (decide (same_route p q)) as [Hsr|Hsr].
    + specialize (Hrun Hsr). rewrite gateways_head by apply Hsr. rewrite (gateways_ext _ p q Hsr).
      simpl. inversion Hpair; subst. simpl in Hrun.
      rewrite (proj2 (shares_prefix_iff q q (proj1 (proj2 Hsr)))) in Hrun
        by (by destruct Hsr as (_ & ? & _)).
      rewrite run_length_gateways in Hrun; try done; [|by destruct Hsr as (_ & ? & _)].
      rewrite gateways_head by apply Hsr. simpl. lia.
    + assert (gateways (q :: l) p = []) as Hnil.
      { destruct Hpq' as [Hd|?]; [|done]. apply filter_none, Forall_forall.
        intros r [->|Hr]%elem_of_cons; [done|]. intros (_ & _ & _ & E).
        inversion Hsl as [|?? _ Hql]; subst. rewrite Forall_forall in *.
        destruct (disjoint_past p q r) as [_ []]; auto. apply Hwf. by do 2 constructor. }
      unfold gateways in *. rewrite filter_cons. case_decide; rewrite Hnil; simpl; lia.
  - intros (Hpair & Hp & Hb). inversion Hpair as [|?? Hpl Hpair']; subst.
    apply Forall_cons in Hpl as [Hc Hpl]. split_and!; try done. intros Hsr.
    rewrite gateways_head in Hp by apply Hsr. rewrite (gateways_ext _ p q Hsr) in Hp.
    rewrite gateways_head in Hp by apply Hsr. simpl in Hp |- *.
    rewrite (proj2 (shares_prefix_iff q q (proj1 (proj2 Hsr)))) by (by destruct Hsr as (_ & ? & _)).
    inversion Hpair'; subst. rewrite run_length_gateways; try done; [lia|by destruct Hsr as (_ & ? & _)].
Qed.

Lemma gateways_bounded_perm l l' : l ≡ₚ l' → gateways_bounded l → gateways_bounded l'.
Proof.
  intros Hp H r Hr. unfold gateways. rewrite <- Hp. apply H. by rewrite Hp.
Qed.

Lemma graph_iff state rs :
  activeReservedIPv4Prefixes state = Ok rs → Forall res_wf rs →
  validateReservedIPv4PrefixGraph state = Ok tt ↔ ForallOrdPairs compatible rs ∧ gateways_bounded rs.
Proof.
  intros Hrs Hwf. unfold validateReservedIPv4PrefixGraph. rewrite Hrs. cbn [mbind result_bind].
  assert (ForallOrdPairs compatible rs ∧ gateways_bounded rs ↔
    ForallOrdPairs compatible (sort_by reservation_le rs) ∧ gateways_bounded (sort_by reservation_le rs)) as ->.
  { pose proof (sort_by_perm reservation_le rs) as Hp. split; intros [H1 H2]; split.
    - by eapply ForallOrdPairs_perm; [apply compatible_sym|symmetry; apply Hp|].
    - by eapply gateways_bounded_perm; [symmetry; apply Hp|].
    - by eapply ForallOrdPairs_perm; [apply compatible_sym|apply Hp|].
    - by eapply gateways_bounded_perm; [apply Hp|]. }
  assert (Forall res_wf (sort_by reservation_le rs)) as Hwf' by (by apply Forall_sort_by).
  pose proof (sort_by_sorted reservation_le reservation_le_total reservation_le_trans rs) as Hs.
  destruct (sort_by reservation_le rs) as [|p l].
  { split; [intros _; split; [constructor|]|done]. by intros r ?%elem_of_nil. }
  apply scan_iff; [done|]. unfold in_order. eapply StronglySorted_mono; [|exact Hs].
  intros a b. apply reservation_le_prefix.
Qed.

(** ** Adding a node *)
Lemma concat_results_app {A B} (f : A → result (list B)) l l' ys ys' :
  concat_results f l = Ok ys → concat_results f l' = Ok ys' → concat_results f (l ++ l') = Ok (ys ++ ys').
Proof.
  revert ys. induction l as [|x l IH]; intros ys; simpl; [by intros [= <-]|].
  intros (y & Hy & (zs & Hz & [= <-])%bind_Ok)%bind_Ok H'. rewrite Hy. cbn.
  rewrite (IH _ Hz H'). cbn. by rewrite app_assoc.
Qed.

Lemma concat_results_ext {A B} (f g : A → result (list B)) l ys :
  (∀ x ys, f x = Ok ys → g x = Ok ys) → concat_results f l = Ok ys → concat_results g l = Ok ys.
Proof.
  intros Hfg. revert ys. induction l as [|x l IH]; intros ys; simpl; [done|].
  intros (y & Hy & (zs & Hz & [= <-])%bind_Ok)%bind_Ok. rewrite (Hfg _ _ Hy). cbn. by rewrite (IH _ Hz).
Qed.

Lemma parse_all_spec o n k values rs :
  parse_all o n k values = Ok rs ↔
  ∃ ps, Forall valid_prefix ps ∧ values = prefix_string <$> ps ∧ rs = (λ p, make p o n k) <$> ps.
Proof.
  revert rs. induction values as [|v values IH]; intros rs; simpl.
  - split; [intros [= <-]; by exists []|]. by intros ([|] & _ & ? & ->).
  - split.
    + intros (p & Hp & (zs & Hz & [= <-])%bind_Ok)%bind_Ok.
      apply of_option_Ok, ParsePrefix_iff in Hp as [? ->]. apply IH in Hz as (ps & ? & -> & ->).
      exists (p :: ps). split_and!; [by constructor|done|done].
    + intros ([|p ps] & Hv & [= -> ->] & ->). apply Forall_cons in Hv as [? ?].
      rewrite (proj2 (ParsePrefix_iff _ p)) by done. cbn.
      rewrite (proj2 (IH ((λ p, make p o n k) <$> ps))) by (by exists ps). done.
Qed.

Definition add_node (state : State.t) (node : Node.t) : State.t :=
  state <| State.Nodes := State.Nodes state ++ [node] |>.

Lemma findNode_add state node id n : findNode state id = Some n → findNode (add_node state node) id = Some n.
Proof.
  unfold findNode, add_node; simpl. intros ([i m] & E & ->)%fmap_Some.
  by rewrite (list_find_app_l _ _ _ _ _ E).
Qed.

Lemma reservations_add state node rs new :
  activeReservedIPv4Prefixes state = Ok rs → node_reservations node = Ok new →
  ∃ rs', activeReservedIPv4Prefixes (add_node state node) = Ok rs' ∧ rs' ≡ₚ new ++ rs.
Proof.
  unfold activeReservedIPv4Prefixes.
  intros (a & Ha & (a0 & Ha0 & (a1 & Ha1 & [= <-])%bind_Ok)%bind_Ok)%bind_Ok Hn.
  exists (a ++ (a0 ++ new) ++ a1). split.
  - change (State.Networks (add_node state node)) with (State.Networks state).
    change (State.Nodes (add_node state node)) with (State.Nodes state ++ [node]). rewrite Ha. cbn.
    rewrite (concat_results_app _ _ [node] a0 new Ha0) by (simpl; rewrite Hn; cbn; by rewrite app_nil_r).
    cbn. rewrite (concat_results_ext (edit_reservations state) (edit_reservations (add_node state node)) _ a1);
      [done| |done].
    intros network ys. unfold edit_reservations. destruct (negb _); [done|].
    intros (owner & Ho & Hp)%bind_Ok. apply of_option_Ok in Ho. by rewrite (findNode_add _ _ _ _ Ho).
  - rewrite (Permutation_app_comm a0 new), <- !app_assoc. rewrite Permutation_app_swap_app. done.
Qed.

Lemma new_subnets_disjoint state subnets rs ps :
  activeReservedIPv4Prefixes state = Ok rs → validateNewRoutedSubnets state subnets = Ok tt →
  elems subnets = prefix_string <$> ps → Forall routable ps → Forall res_wf rs →
  ∀ p r, p ∈ ps → r ∈ rs → disjoint p (reservedIPv4Prefix.prefix r).
Proof.
  intros Hrs Hv Hs Hr Hwf p r Hp Hin. unfold validateNewRoutedSubnets, empty_slice in Hv.
  rewrite Hs in Hv. destruct ps as [|p0 ps0]; [by apply elem_of_nil in Hp|].
  simpl (length _ =? 0)%nat in Hv. cbv iota in Hv. rewrite Hrs in Hv. cbn [mbind result_bind] in Hv.
  inv_ok. rewrite Forall_forall in Hr. rewrite Forall_forall in Hwf.
  apply overlap_disjoint; [auto using routable_wf|by apply Hwf|].
  apply not_true_iff_false. intros Ho. apply not_true_iff_false in H. apply H.
  apply existsb_exists. exists (prefix_string p).
  split; [by apply list_elem_of_In, list_elem_of_fmap_2|].
  apply existsb_exists. exists r. split; [by apply list_elem_of_In|].
  unfold overlap_texts. rewrite (proj2 (ParsePrefix_iff _ p)) by auto using routable_valid.
  by rewrite overlap_sym.
Qed.

Lemma own_reservations o n ps :
  Forall routable ps → ForallOrdPairs disjoint ps →
  Forall res_wf ((λ p, make p o n routed_subnet) <$> ps) ∧
  ForallOrdPairs compatible ((λ p, make p o n routed_subnet) <$> ps).
Proof.
  induction 2 as [|p l Hp Hl IH]; simpl; [by split; constructor|].
  apply Forall_cons in H as [Hr H]. destruct (IH H) as [? ?]. split.
  - constructor; [exact (routable_wf _ Hr)|done].
  - constructor; [|done]. apply Forall_forall. intros r (q & -> & Hq)%list_elem_of_fmap.
    left. simpl. rewrite Forall_forall in Hp. auto.
Qed.

Lemma gateways_bounded_new l new :
  gateways_bounded l →
  (∀ a b, a ∈ new → b ∈ new → same_route a b → a = b) → NoDup new →
  (∀ a b, a ∈ new → b ∈ l → ¬ same_route a b) → gateways_bounded (new ++ l).
Proof.
  intros Hl Huniq Hnd Hx r [Hr|Hr]%elem_of_app; unfold gateways; rewrite filter_app, length_app.
  - rewrite (filter_none _ l) by (apply Forall_forall; intros y ?; by apply Hx).
    assert (length (filter (same_route r) new) ≤ 1)%nat; [|simpl; lia].
    assert (NoDup (filter (same_route r) new)) as Hn by (by apply NoDup_filter).
    assert (∀ y, y ∈ filter (same_route r) new → y = r) as Hall.
    { intros y [Hs Hy]%list_elem_of_filter. symmetry. auto. }
    destruct (filter (same_route r) new) as [|a [|b f]]; simpl; [lia..|].
    exfalso. apply NoDup_cons in Hn as [Hn _]. apply Hn.
    rewrite (Hall a), (Hall b) by (do 2 constructor || constructor). constructor.
  - rewrite (filter_none _ new); [by apply Hl|]. apply Forall_forall. intros y Hy Hs.
    apply (Hx y r Hy Hr). by apply same_route_sym.
Qed.

(** C11: validateReservedIPv4PrefixGraph accepts a state exactly when every two of
    its reserved prefixes (managed CIDRs, live routed subnets, staged additions)
    either share no address or are the same prefix routed by gateways of one
    network, and no such prefix has more than eight gateways.  Scanning only
    neighbours of the sorted list is enough. *)
Theorem reserved_prefix_graph_spec state rs :
  activeReservedIPv4Prefixes state = Ok rs → Forall res_wf rs →
  validateReservedIPv4PrefixGraph state = Ok tt ↔
  (ForallOrdPairs compatible rs ∧ ∀ r, r ∈ rs → Z.of_nat (length (gateways rs r)) ≤ 8).
Proof. apply graph_iff. Qed.

Definition example_network : Network.t :=
  Network.zero <| Network.ID := "n1" |> <| Network.CIDR := "10.42.0.0/16" |>.
Definition example_gateway (id : string) : Node.t :=
  Node.zero <| Node.ID := id |> <| Node.NetworkID := "n1" |> <| Node.Status := "active" |>
    <| Node.EnrolledAt := Some 1 |> <| Node.RoutedSubnets := Some ["192.168.7.0/24"] |>.
Definition example_state : State.t :=
  State.zero <| State.Networks := [example_network] |>
    <| State.Nodes := [example_gateway "a"; example_gateway "b"] |>.

Lemma reserved_prefix_graph_spec_witness :
  validateReservedIPv4PrefixGraph example_state = Ok tt ∧
  ∃ rs, activeReservedIPv4Prefixes example_state = Ok rs ∧ ForallOrdPairs compatible rs ∧ length rs = 3%nat.
Proof.
  assert (validateReservedIPv4PrefixGraph example_state = Ok tt) as Hg by (vm_compute; reflexivity).
  split; [exact Hg|].
  exists [make (Prefix 170524672 16) "n1" "n1" managed_network; make (Prefix 3232237312 24) "a" "n1" routed_subnet;
          make (Prefix 3232237312 24) "b" "n1" routed_subnet].
  assert (activeReservedIPv4Prefixes example_state = Ok
    [make (Prefix 170524672 16) "n1" "n1" managed_network; make (Prefix 3232237312 24) "a" "n1" routed_subnet;
     make (Prefix 3232237312 24) "b" "n1" routed_subnet]) as Hr by (vm_compute; reflexivity).
  split; [exact Hr|]. split; [|reflexivity].
  eapply (reserved_prefix_graph_spec _ _ Hr); [|exact Hg].
  repeat constructor; vm_compute; congruence.
Defined.

(** Enrolling a node with new routed subnets keeps the address plan sound:
    when the state passes validateReservedIPv4PrefixGraph, the subnets are
    canonical and validateNewRoutedSubnets accepts them, the state with the node
    added passes the graph check again. *)
Theorem new_routed_subnets_keep_graph state node rs :
  activeReservedIPv4Prefixes state = Ok rs → Forall res_wf rs →
  validateReservedIPv4PrefixGraph state = Ok tt →
  canonical (Node.RoutedSubnets node) → validateNewRoutedSubnets state (Node.RoutedSubnets node) = Ok tt →
  validateReservedIPv4PrefixGraph (add_node state node) = Ok tt.
Proof.
  intros Hrs Hwf Hg (_ & ps & Hps & Hr & Hd & _) Hnew.
  apply (graph_iff _ _ Hrs Hwf) in Hg as [Hpair Hb].
  set (new := if Node.Status node == "revoked" then [] else
    (λ p, make p (Node.ID node) (Node.NetworkID node) routed_subnet) <$> ps).
  assert (node_reservations node = Ok new) as Hn.
  { unfold node_reservations, new. destruct (_ == _); [done|]. apply parse_all_spec. exists ps.
    split_and!; [|done|done]. eapply Forall_impl; [exact Hr|apply routable_valid]. }
  destruct (reservations_add _ _ _ _ Hrs Hn) as (rs' & Hrs' & Hp).
  pose proof (own_reservations (Node.ID node) (Node.NetworkID node) ps Hr Hd) as [Hwn Hpn].
  assert (Forall res_wf new ∧ ForallOrdPairs compatible new) as [Hw1 Hp1]
    by (unfold new; destruct (_ == _); [by split; constructor|done]).
  assert (∀ a b, a ∈ new → b ∈ rs → disjoint (reservedIPv4Prefix.prefix a) (reservedIPv4Prefix.prefix b)) as Hx.
  { intros a b Ha Hin. unfold new in Ha. destruct (_ == _); [by apply elem_of_nil in Ha|].
    apply list_elem_of_fmap in Ha as (p & -> & Hin'). simpl.
    by apply (new_subnets_disjoint state (Node.RoutedSubnets node) rs ps). }
  assert (Forall res_wf rs') as Hwf' by (rewrite Hp; by apply Forall_app).
  apply (graph_iff _ _ Hrs' Hwf'). rewrite Forall_forall in Hwf. split.
  - eapply ForallOrdPairs_perm; [apply compatible_sym|symmetry; apply Hp|].
    apply ForallOrdPairs_app; [done..|]. intros a b ??. left. auto.
  - eapply gateways_bounded_perm; [symmetry; apply Hp|].
    apply gateways_bounded_new; try done.
    + intros a b Ha Hb' (_ & _ & _ & E). unfold new in Ha, Hb'. destruct (_ == _); [by apply elem_of_nil in Ha|].
      apply list_elem_of_fmap in Ha as (? & -> & _), Hb' as (? & -> & _). simpl in E. by subst.
    + unfold new. destruct (_ == _); [constructor|]. apply NoDup_fmap; [intros ?? [=]; done|].
      eapply NoDup_fmap_1. by apply disjoint_NoDup.
    + intros a b Ha Hin (_ & _ & _ & E). specialize (Hx a b Ha Hin). rewrite E in Hx.
      by apply disjoint_irrefl in Hx; [|apply Hwf].
Qed.

Lemma new_routed_subnets_keep_graph_witness :
  validateReservedIPv4PrefixGraph (add_node example_state
    (example_gateway "c" <| Node.RoutedSubnets := Some ["172.16.0.0/12"] |>)) = Ok tt.
Proof.
  eapply (new_routed_subnets_keep_graph example_state
    (example_gateway "c" <| Node.RoutedSubnets := Some ["172.16.0.0/12"] |>));
    [vm_compute; reflexivity| |vm_compute; reflexivity| |vm_compute; reflexivity].
  - repeat constructor; vm_compute; congruence.
  - apply validate_canonical_iff. vm_compute. reflexivity.
Defined.
