(* ===== verification/Firewall.v ===== *)
(** * Firewall policies (internal/control/firewall.go)

    Normalisation of submitted rules to a canonical policy, the canonical order,
    the compilation of a policy for one node, the text rendered into the node's
    configuration, renderer upgrades and node references. *)
From S2P Require Import Prelude GoStd IPv4 Model AuditLog Routes RouteState.
From Stdlib Require Import Ascii.

Definition FirewallPolicyModeLegacyDefault : string := "legacy-default".
Definition FirewallPolicyModeManaged : string := "managed".
Definition FirewallRendererVersionV1 : Z := 1.
Definition FirewallRendererVersionV2 : Z := 2.
Definition currentFirewallRendererVersion : Z := FirewallRendererVersionV2.
Definition maxFirewallRulesPerDirection : Z := 128.
Definition maxFirewallExpandedPortSlots : Z := 16384.

Definition NUL : ascii := "000"%char.
Definition nul : string := String NUL "".

Module FirewallPolicyInput.
Record t := make { Inbound : slice FirewallRule.t; Outbound : slice FirewallRule.t }.
End FirewallPolicyInput.

Module parsedFirewallPort.
Record t := make { start : Z; end_ : Z; any : bool }.
#[global] Instance parsedFirewallPort_eq_dec : EqDecision t.
Proof. solve_decision. Defined.
End parsedFirewallPort.

Definition any_rule (group host : string) : FirewallRule.t :=
  FirewallRule.make "any" "any" group host "" "" "".
Definition legacyDefaultFirewallPolicy : FirewallPolicy.t :=
  FirewallPolicy.make FirewallPolicyModeLegacyDefault FirewallRendererVersionV1
    (Some [any_rule "all" ""]) (Some [any_rule "" "any"]).
Definition defaultManagedFirewallPolicy : FirewallPolicy.t :=
  legacyDefaultFirewallPolicy <| FirewallPolicy.Mode := FirewallPolicyModeManaged |>
    <| FirewallPolicy.RendererVersion := currentFirewallRendererVersion |>.

Definition firewallPolicyInput (policy : FirewallPolicy.t) : FirewallPolicyInput.t :=
  FirewallPolicyInput.make (FirewallPolicy.Inbound policy) (FirewallPolicy.Outbound policy).

(** ** Ports *)
Definition port_error : err := ErrOther "port numbers must be canonical decimal values from 1 through 65535".
Definition leading_zero (value : string) : bool :=
  match bytes_of value with c :: _ :: _ => c =? 48 | _ => false end.
Definition parseCanonicalPortNumber (value : string) : result Z :=
  fail port_error when (value == "") || leading_zero value;;
  fail port_error when negb (forallb digit (bytes_of value));;
  port ← of_option (Atoi value) port_error;
  fail port_error when (port <? 1) || (65535 <? port) || (Itoa port != value);;
  Ok port.

Definition parseCanonicalFirewallPort (value : string) : result parsedFirewallPort.t :=
  if value == "any" then Ok (parsedFirewallPort.make 0 0 true) else
  fail (ErrOther "port must be any, a canonical port, or a canonical port range")
    when (TrimSpace value != value) || (value == "") || (2 <? Z.of_nat (length (split_on "-" value)));;
  match split_on "-" value with
  | [first; second] =>
      start ← parseCanonicalPortNumber first;
      end_ ← parseCanonicalPortNumber second;
      fail (ErrOther "port range must be ascending and contain more than one port") when end_ <=? start;;
      Ok (parsedFirewallPort.make start end_ false)
  | _ =>
      port ← parseCanonicalPortNumber value;
      Ok (parsedFirewallPort.make port port false)
  end.

(** ** Hosts, selectors and targets *)
Definition normalizeFirewallHost (value : string) (network : prefix) : result (string * string) :=
  fail (ErrOther "host must be any, a canonical IPv4 address, or a canonical IPv4 CIDR")
    when (TrimSpace value != value) || (value == "");;
  if value == "any" then Ok (value, "host" +:+ nul +:+ "any") else
  match ParseAddr value with
  | Some address =>
      fail (ErrOther "host IPv4 address must be canonical and contained in the network CIDR")
        when (addr_string address != value) || negb (Contains network address);;
      Ok (addr_string address, "cidr" +:+ nul +:+ prefix_string (Prefix address 32))
  | None =>
      let e := ErrOther "host CIDR must be canonical IPv4 and contained in the network CIDR" in
      prefix ← of_option (ParsePrefix value) e;
      fail e when (prefix != Masked prefix) || (prefix_string prefix != value)
        || (p_bits prefix <? p_bits network) || negb (Contains network (p_addr prefix));;
      if p_bits prefix =? 32 then Ok (addr_string (p_addr prefix), "cidr" +:+ nul +:+ prefix_string prefix)
      else Ok (prefix_string prefix, "cidr" +:+ nul +:+ prefix_string prefix)
  end.

Definition count_true (l : list bool) : nat := length (filter (λ b, b = true) l).

Definition firewallTargetKey (rule : FirewallRule.t) : string :=
  if FirewallRule.TargetGroup rule != "" then nul +:+ "target_group" +:+ nul +:+ FirewallRule.TargetGroup rule
  else if FirewallRule.TargetNodeID rule != "" then nul +:+ "target_node" +:+ nul +:+ FirewallRule.TargetNodeID rule
  else nul +:+ "target" +:+ nul +:+ "all".

Definition normalizeFirewallRule (rule : FirewallRule.t) (network : prefix) :
    result (FirewallRule.t * parsedFirewallPort.t * string) :=
  fail (ErrOther "proto must not contain surrounding whitespace")
    when TrimSpace (FirewallRule.Proto rule) != FirewallRule.Proto rule;;
  fail (ErrOther "proto must be any, tcp, udp, or icmp")
    when negb (contains ["any"; "tcp"; "udp"; "icmp"] (FirewallRule.Proto rule));;
  port ← parseCanonicalFirewallPort (FirewallRule.Port rule);
  fail (ErrOther "icmp rules require port any")
    when (FirewallRule.Proto rule == "icmp") && negb (parsedFirewallPort.any port);;
  let hasGroup := FirewallRule.Group rule != "" in
  let hasHost := FirewallRule.Host rule != "" in
  let hasPeerNode := FirewallRule.PeerNodeID rule != "" in
  fail (ErrOther "exactly one of group, host, or peer_node_id must be provided")
    when negb (count_true [hasGroup; hasHost; hasPeerNode] =? 1)%nat;;
  fail (ErrOther "target_group and target_node_id are mutually exclusive")
    when (FirewallRule.TargetGroup rule != "") && (FirewallRule.TargetNodeID rule != "");;
  fail (ErrOther "target_group must match the certificate-group grammar, must not be all, and be at most 32 characters")
    when (FirewallRule.TargetGroup rule != "") &&
      ((TrimSpace (FirewallRule.TargetGroup rule) != FirewallRule.TargetGroup rule)
       || negb (groupPattern (FirewallRule.TargetGroup rule)) || (FirewallRule.TargetGroup rule == "all"));;
  fail (ErrOther "target_node_id must be a valid node ID")
    when (FirewallRule.TargetNodeID rule != "") && negb (validPersistedID (FirewallRule.TargetNodeID rule));;
  let targetKey := firewallTargetKey rule in
  if hasGroup then
    fail (ErrOther "group must match the certificate-group grammar and be at most 32 characters")
      when (TrimSpace (FirewallRule.Group rule) != FirewallRule.Group rule)
        || negb (groupPattern (FirewallRule.Group rule));;
    fail (ErrOther "group any is a wildcard; use host any explicitly") when FirewallRule.Group rule == "any";;
    Ok (rule, port, "group" +:+ nul +:+ FirewallRule.Group rule +:+ targetKey)
  else if hasPeerNode then
    fail (ErrOther "peer_node_id must be a valid node ID") when negb (validPersistedID (FirewallRule.PeerNodeID rule));;
    Ok (rule, port, "peer_node" +:+ nul +:+ FirewallRule.PeerNodeID rule +:+ targetKey)
  else
    '(host, selectorKey) ← normalizeFirewallHost (FirewallRule.Host rule) network;
    Ok (rule <| FirewallRule.Host := host |>, port, selectorKey +:+ targetKey).

(** ** The canonical order *)
Definition protoRank (proto : string) : string :=
  if proto == "any" then "0" else if proto == "icmp" then "1" else if proto == "tcp" then "2"
  else if proto == "udp" then "3" else "".
(** [fmt.Sprintf("%05d", n)] for a port number. *)
Definition pad5 (n : Z) : string :=
  string_of ((λ d, 48 + n / d mod 10) <$> [10000; 1000; 100; 10; 1]).
Definition firewallRuleSortKey (rule : FirewallRule.t) : string :=
  let port := match parseCanonicalFirewallPort (FirewallRule.Port rule) with
              | Ok port => port
              | Err _ => parsedFirewallPort.make 0 0 false
              end in
  let portKey := if parsedFirewallPort.any port then "0"
                 else "1" +:+ pad5 (parsedFirewallPort.start port) +:+ pad5 (parsedFirewallPort.end_ port) in
  let selectorKey :=
    if FirewallRule.Host rule != "" then "host" +:+ nul +:+ FirewallRule.Host rule
    else if FirewallRule.PeerNodeID rule != "" then "peer_node" +:+ nul +:+ FirewallRule.PeerNodeID rule
    else "group" +:+ nul +:+ FirewallRule.Group rule in
  let targetKey :=
    if FirewallRule.TargetGroup rule != "" then "target_group" +:+ nul +:+ FirewallRule.TargetGroup rule
    else if FirewallRule.TargetNodeID rule != "" then "target_node" +:+ nul +:+ FirewallRule.TargetNodeID rule
    else "target" +:+ nul +:+ "all" in
  targetKey +:+ nul +:+ protoRank (FirewallRule.Proto rule) +:+ nul +:+ portKey +:+ nul +:+ selectorKey.
Definition rule_le (a b : FirewallRule.t) : bool := str_le (firewallRuleSortKey a) (firewallRuleSortKey b).

(** ** Normalising a policy *)
Definition port_slots (port : parsedFirewallPort.t) : Z :=
  parsedFirewallPort.end_ port - parsedFirewallPort.start port + 1.
Definition duplicate_key (rule : FirewallRule.t) (selectorKey : string) : string :=
  FirewallRule.Proto rule +:+ nul +:+ FirewallRule.Port rule +:+ nul +:+ selectorKey.

Fixpoint normalize_rules_loop (network : prefix) (seen : list string) (expandedSlots : Z)
    (rules : list FirewallRule.t) : result (list FirewallRule.t * Z) :=
  match rules with
  | [] => Ok ([], expandedSlots)
  | candidate :: rest =>
      match normalizeFirewallRule candidate network with
      | Err _ => Err ErrInvalid
      | Ok (rule, port, selectorKey) =>
          let expandedSlots := expandedSlots + port_slots port in
          fail ErrInvalid when maxFirewallExpandedPortSlots <? expandedSlots;;
          let key := duplicate_key rule selectorKey in
          fail ErrInvalid when contains seen key;;
          '(normalized, expandedSlots) ← normalize_rules_loop network (key :: seen) expandedSlots rest;
          Ok (rule :: normalized, expandedSlots)
      end
  end.

Definition normalizeFirewallRules (rules : list FirewallRule.t) (network : prefix) (expandedSlots : Z) :
    result (slice FirewallRule.t * Z) :=
  '(normalized, expandedSlots) ← normalize_rules_loop network [] expandedSlots rules;
  Ok (Some (sort_by rule_le normalized), expandedSlots).

Definition normalizeFirewallPolicy (input : FirewallPolicyInput.t) (networkCIDR : string) :
    result FirewallPolicy.t :=
  fail ErrInvalid when is_nil (FirewallPolicyInput.Inbound input) || is_nil (FirewallPolicyInput.Outbound input);;
  fail ErrInvalid when maxFirewallRulesPerDirection <? Z.of_nat (length (elems (FirewallPolicyInput.Inbound input)));;
  fail ErrInvalid when maxFirewallRulesPerDirection <? Z.of_nat (length (elems (FirewallPolicyInput.Outbound input)));;
  let e := ErrOther "network has an invalid canonical IPv4 CIDR" in
  network ← of_option (ParsePrefix networkCIDR) e;
  fail e when network != Masked network;;
  '(inbound, expandedSlots) ← normalizeFirewallRules (elems (FirewallPolicyInput.Inbound input)) network 0;
  '(outbound, expandedSlots) ← normalizeFirewallRules (elems (FirewallPolicyInput.Outbound input)) network expandedSlots;
  fail ErrInvalid when maxFirewallExpandedPortSlots <? expandedSlots;;
  Ok (FirewallPolicy.make FirewallPolicyModeManaged currentFirewallRendererVersion inbound outbound).

Definition sameEffectiveFirewallPolicy (left right : FirewallPolicy.t) : bool :=
  slices_equal (FirewallPolicy.Inbound left) (FirewallPolicy.Inbound right) &&
  slices_equal (FirewallPolicy.Outbound left) (FirewallPolicy.Outbound right).

Definition validateStoredFirewallPolicy (policy : FirewallPolicy.t) (networkCIDR : string) : result unit :=
  let mode := FirewallPolicy.Mode policy in
  let version := FirewallPolicy.RendererVersion policy in
  fail (ErrOther "unsupported firewall policy mode")
    when (mode != FirewallPolicyModeLegacyDefault) && (mode != FirewallPolicyModeManaged);;
  fail (ErrOther "unsupported firewall renderer version")
    when negb (version =? FirewallRendererVersionV1) && negb (version =? FirewallRendererVersionV2);;
  fail (ErrOther "legacy-default firewall policy must use the historical renderer version")
    when (mode == FirewallPolicyModeLegacyDefault) && negb (version =? FirewallRendererVersionV1);;
  normalized ← normalizeFirewallPolicy (firewallPolicyInput policy) networkCIDR;
  fail (ErrOther "firewall policy rules are not canonical")
    when is_nil (FirewallPolicy.Inbound policy) || is_nil (FirewallPolicy.Outbound policy)
      || negb (sameEffectiveFirewallPolicy policy normalized);;
  fail (ErrOther "legacy-default firewall policy differs from the historical connectivity policy")
    when (mode == FirewallPolicyModeLegacyDefault) && negb (sameEffectiveFirewallPolicy policy legacyDefaultFirewallPolicy);;
  Ok tt.

(** ** Node references *)
Definition policy_rules (policy : FirewallPolicy.t) : list FirewallRule.t :=
  elems (FirewallPolicy.Inbound policy) ++ elems (FirewallPolicy.Outbound policy).

Definition firewallPolicyUsesNodeScopes (policy : FirewallPolicy.t) : bool :=
  existsb (λ rule, (FirewallRule.PeerNodeID rule != "") || (FirewallRule.TargetGroup rule != "")
                   || (FirewallRule.TargetNodeID rule != "")) (policy_rules policy).

Definition firewallPolicyReferencesNode (policy : FirewallPolicy.t) (nodeID : string) : bool :=
  existsb (λ rule, (FirewallRule.PeerNodeID rule == nodeID) || (FirewallRule.TargetNodeID rule == nodeID))
    (policy_rules policy).

Definition replace_rule_reference (oldNodeID newNodeID : string) (rule : FirewallRule.t) : FirewallRule.t * Z :=
  let '(rule, n) := if FirewallRule.PeerNodeID rule == oldNodeID
                    then (rule <| FirewallRule.PeerNodeID := newNodeID |>, 1) else (rule, 0) in
  if FirewallRule.TargetNodeID rule == oldNodeID
  then (rule <| FirewallRule.TargetNodeID := newNodeID |>, n + 1) else (rule, n).

Definition replaceFirewallPolicyNodeReferences (policy : FirewallPolicy.t) (oldNodeID newNodeID : string) :
    FirewallPolicy.t * Z :=
  let rewritten := λ rule, fst (replace_rule_reference oldNodeID newNodeID rule) in
  (policy <| FirewallPolicy.Inbound := option_map (map rewritten) (FirewallPolicy.Inbound policy) |>
          <| FirewallPolicy.Outbound := option_map (map rewritten) (FirewallPolicy.Outbound policy) |>,
   foldr (λ rule acc, snd (replace_rule_reference oldNodeID newNodeID rule) + acc) 0 (policy_rules policy)).

Definition validateFirewallPolicyReferences (state : State.t) (network : Network.t) (policy : FirewallPolicy.t) :
    result unit :=
  fail ErrInvalid
    when existsb (λ rule, existsb (λ nodeID,
           (nodeID != "") && match findNode state nodeID with
                             | Some node => Node.NetworkID node != Network.ID network
                             | None => true
                             end) [FirewallRule.PeerNodeID rule; FirewallRule.TargetNodeID rule])
         (policy_rules policy);;
  Ok tt.

(** ** Compiling a policy for a node *)
Definition firewallRuleTargetsNode (rule : FirewallRule.t) (node : Node.t) : bool :=
  if FirewallRule.TargetNodeID rule != "" then FirewallRule.TargetNodeID rule == Node.ID node
  else if FirewallRule.TargetGroup rule != "" then contains (Node.Groups node) (FirewallRule.TargetGroup rule)
  else true.

Definition compile_rule (state : State.t) (node : Node.t) (source : FirewallRule.t) : option FirewallRule.t :=
  if negb (firewallRuleTargetsNode source node) then None else
  let rule := source <| FirewallRule.TargetGroup := "" |> <| FirewallRule.TargetNodeID := "" |> in
  if FirewallRule.PeerNodeID rule != "" then
    match findNode state (FirewallRule.PeerNodeID rule) with
    | Some peer =>
        if Node.NetworkID peer != Node.NetworkID node then None
        else Some (rule <| FirewallRule.PeerNodeID := "" |> <| FirewallRule.Host := Node.IP peer |>)
    | None => None
    end
  else Some rule.

Definition compileFirewallRulesForNode (state : State.t) (node : Node.t) (rules : slice FirewallRule.t) :
    slice FirewallRule.t :=
  Some (omap (compile_rule state node) (elems rules)).

Definition effectiveFirewallPolicyForNode (state : State.t) (node : Node.t) (policy : FirewallPolicy.t) :
    FirewallPolicy.t :=
  policy <| FirewallPolicy.Inbound := compileFirewallRulesForNode state node (FirewallPolicy.Inbound policy) |>
         <| FirewallPolicy.Outbound := compileFirewallRulesForNode state node (FirewallPolicy.Outbound policy) |>.

(** ** Rendering *)
Definition nl : string := String "010"%char "".
Definition dquote : string := String "034"%char "".
Definition concat_text (l : list string) : string := foldr (λ a b, a +:+ b) "" l.

(** [%q] of a group: its grammar holds no character that needs an escape. *)
Definition quoted (s : string) : string := dquote +:+ s +:+ dquote.

Definition renderFirewallRule (rule : FirewallRule.t) (rendererVersion : Z) (localCIDR : string) : string :=
  "    - port: " +:+ FirewallRule.Port rule +:+ nl +:+ "      proto: " +:+ FirewallRule.Proto rule +:+ nl +:+
  (if FirewallRule.Group rule != "" then
     if FirewallRendererVersionV2 <=? rendererVersion
     then "      group: " +:+ quoted (FirewallRule.Group rule) +:+ nl
     else "      group: " +:+ FirewallRule.Group rule +:+ nl
   else if FirewallRule.Host rule == "any" then "      host: any" +:+ nl
   else if FirewallRule.PeerNodeID rule != "" then "      cidr: 0.0.0.0/32" +:+ nl
   else if contains_char (FirewallRule.Host rule) "/" then "      cidr: " +:+ FirewallRule.Host rule +:+ nl
   else "      cidr: " +:+ FirewallRule.Host rule +:+ "/32" +:+ nl) +:+
  (if localCIDR != "" then "      local_cidr: " +:+ localCIDR +:+ nl else "").

Definition renderFirewallDirection (direction : string) (rules : slice FirewallRule.t) (rendererVersion : Z)
    (routedSubnets : slice string) : string :=
  if empty_slice rules then "  " +:+ direction +:+ ": []" +:+ nl else
  "  " +:+ direction +:+ ":" +:+ nl +:+
  concat_text ((λ rule, renderFirewallRule rule rendererVersion "" +:+
    concat_text ((λ routedSubnet, renderFirewallRule rule rendererVersion routedSubnet) <$> elems routedSubnets))
    <$> elems rules).

Definition renderFirewallPolicyForNode (policy : FirewallPolicy.t) (routedSubnets : slice string) : string :=
  "firewall:" +:+ nl +:+
  renderFirewallDirection "outbound" (FirewallPolicy.Outbound policy) (FirewallPolicy.RendererVersion policy) None +:+
  renderFirewallDirection "inbound" (FirewallPolicy.Inbound policy) (FirewallPolicy.RendererVersion policy) routedSubnets.

Definition renderFirewallPolicy (policy : FirewallPolicy.t) : string := renderFirewallPolicyForNode policy None.

Definition upgradeFirewallRenderer (policy : FirewallPolicy.t) : result (FirewallPolicy.t * bool) :=
  let mode := FirewallPolicy.Mode policy in
  let version := FirewallPolicy.RendererVersion policy in
  if mode == FirewallPolicyModeLegacyDefault then
    fail (ErrOther "legacy-default firewall policy must use the historical renderer version")
      when negb (version =? FirewallRendererVersionV1);;
    Ok (policy, false)
  else if mode != FirewallPolicyModeManaged then Err (ErrOther "unsupported firewall policy mode")
  else if version =? currentFirewallRendererVersion then Ok (policy, false)
  else if negb (version =? FirewallRendererVersionV1) then Err (ErrOther "unsupported firewall renderer version")
  else
    let upgraded := policy <| FirewallPolicy.RendererVersion := currentFirewallRendererVersion |> in
    Ok (upgraded, renderFirewallPolicy policy != renderFirewallPolicy upgraded).

(** ** Revisions *)
Definition nextConfigRevision (current : Z) (changed : bool) : result Z :=
  if negb changed then Ok current else
  fail ErrConflict when current =? int64_max;;
  Ok (wrap64 (current + 1)).

Lemma nextConfigRevision_Ok current r :
  in_int64 current → nextConfigRevision current true = Ok r → r = current + 1 ∧ in_int64 r.
Proof.
  unfold nextConfigRevision. simpl. intros Hc H. inv_ok. apply Z.eqb_neq in H0.
  rewrite wrap64_succ in H by done. subst. unfold in_int64, int64_max, int64_min in *. split; [done|lia].
Qed.

(** ** Rules that are already normalised

    [good network rule] spells out what normalizeFirewallRule accepts and returns
    unchanged. *)
Definition good_target (rule : FirewallRule.t) : Prop :=
  (FirewallRule.TargetGroup rule = "" ∧ FirewallRule.TargetNodeID rule = "") ∨
  (FirewallRule.TargetGroup rule ≠ "" ∧ FirewallRule.TargetNodeID rule = "" ∧
   groupPattern (FirewallRule.TargetGroup rule) = true) ∨
  (FirewallRule.TargetGroup rule = "" ∧ FirewallRule.TargetNodeID rule ≠ "" ∧
   validPersistedID (FirewallRule.TargetNodeID rule) = true).

Definition good_selector (network : prefix) (rule : FirewallRule.t) : Prop :=
  (FirewallRule.Group rule ≠ "" ∧ FirewallRule.Host rule = "" ∧ FirewallRule.PeerNodeID rule = "" ∧
   groupPattern (FirewallRule.Group rule) = true) ∨
  (FirewallRule.Group rule = "" ∧ FirewallRule.Host rule = "" ∧ FirewallRule.PeerNodeID rule ≠ "" ∧
   validPersistedID (FirewallRule.PeerNodeID rule) = true) ∨
  (FirewallRule.Group rule = "" ∧ FirewallRule.Host rule ≠ "" ∧ FirewallRule.PeerNodeID rule = "" ∧
   ∃ key, normalizeFirewallHost (FirewallRule.Host rule) network = Ok (FirewallRule.Host rule, key)).

Definition good_rule (network : prefix) (rule : FirewallRule.t) : Prop :=
  FirewallRule.Proto rule ∈ ["any"; "tcp"; "udp"; "icmp"] ∧
  (∃ port, parseCanonicalFirewallPort (FirewallRule.Port rule) = Ok port) ∧
  good_target rule ∧ good_selector network rule.

Lemma addr_string_ne a s : valid_addr a → ParseAddr s = None → addr_string a ≠ s.
Proof.
  intros Ha Hs <-. by rewrite (proj2 (ParseAddr_iff (addr_string a) a)) in Hs.
Qed.

Lemma TrimSpace_addr_string a : valid_addr a → TrimSpace (addr_string a) = addr_string a.
Proof.
  intros Ha. destruct (addr_octets _ Ha) as (w & x & y & z & ? & ? & ? & ? & ->).
  destruct (Itoa_ends w ltac:(lia)) as (c & l & _ & _ & Hl & _ & ? & _).
  destruct (Itoa_ends z ltac:(lia)) as (_ & _ & d & l' & _ & Hl' & _ & ?).
  unfold addr_string. rewrite As4_octets by done.
  change (join "." (Itoa <$> [w; x; y; z])) with
    (Itoa w +:+ "." +:+ Itoa x +:+ "." +:+ Itoa y +:+ "." +:+ Itoa z).
  eapply (TrimSpace_digits _ c _ d); [| |done|done].
  - rewrite bytes_of_app, Hl. done.
  - rewrite !bytes_of_app, !reverse_app, Hl'. rewrite <- !app_assoc. done.
Qed.

Lemma normalizeFirewallHost_fix value network host key :
  normalizeFirewallHost value network = Ok (host, key) →
  normalizeFirewallHost host network = Ok (host, key) ∧ host ≠ "".
Proof.
  unfold normalizeFirewallHost at 1. intros H.
  apply bind_Ok in H as (? & Hg & H). apply fail_if_Ok in Hg. split_bools.
  destruct (bool_decide (value = "any")) eqn:Ea.
  { apply bool_decide_eq_true in Ea as ->. injection H as <- <-. split; [reflexivity|done]. }
  assert (∀ a, valid_addr a → Contains network a = true →
    normalizeFirewallHost (addr_string a) network =
      Ok (addr_string a, "cidr" +:+ nul +:+ prefix_string (Prefix a 32)) ∧ addr_string a ≠ "") as Haddr.
  { intros a Ha Hc. assert (addr_string a ≠ "") by (by apply addr_string_ne).
    assert (addr_string a ≠ "any") by (by apply addr_string_ne). split; [|done].
    unfold normalizeFirewallHost. rewrite TrimSpace_addr_string by done.
    rewrite (proj2 (ParseAddr_iff (addr_string a) a)) by done. by eval_bools. }
  destruct (ParseAddr value) as [a|] eqn:Hp.
  - apply bind_Ok in H as (? & Hg & [= <- <-]). apply fail_if_Ok in Hg. split_bools.
    apply ParseAddr_iff in Hp as [? _]. by apply Haddr.
  - apply bind_Ok in H as (p & Hpp & H). apply bind_Ok in H as (? & Hg & H). apply fail_if_Ok in Hg.
    split_bools. apply of_option_Ok in Hpp. pose proof Hpp as Hpv. apply ParsePrefix_iff in Hpv as [[Hv ?] _].
    destruct (Z.eqb_spec (p_bits p) 32) as [E|E]; injection H as <- <-.
    + destruct p as [a b]. simpl in E. subst b. by apply Haddr.
    + apply Z.eqb_neq in E. assert (prefix_string p = value) as Ev by done. rewrite Ev. split; [|done].
      unfold normalizeFirewallHost. rewrite Hp, Hpp. cbn [of_option mbind result_bind].
      eval_bools. cbn. by rewrite Ev.
Qed.

Lemma parse_port_slots value port : parseCanonicalFirewallPort value = Ok port → 1 ≤ port_slots port.
Proof.
  unfold parseCanonicalFirewallPort, port_slots. destruct (bool_decide _); [by intros [= <-]|].
  intros (_ & _ & H)%bind_Ok.
  destruct (split_on "-" value) as [|a [|b [|c l]]]; inv_ok; subst; simpl; lia.
Qed.

(** The checks of normalizeFirewallRule that do not read the selector. *)
Definition rule_checks (rule : FirewallRule.t) (port : parsedFirewallPort.t) : Prop :=
  TrimSpace (FirewallRule.Proto rule) = FirewallRule.Proto rule ∧
  FirewallRule.Proto rule ∈ ["any"; "tcp"; "udp"; "icmp"] ∧
  parseCanonicalFirewallPort (FirewallRule.Port rule) = Ok port ∧
  (FirewallRule.Proto rule == "icmp") && negb (parsedFirewallPort.any port) = false ∧
  (FirewallRule.TargetGroup rule != "") && (FirewallRule.TargetNodeID rule != "") = false ∧
  (FirewallRule.TargetGroup rule != "") &&
      ((TrimSpace (FirewallRule.TargetGroup rule) != FirewallRule.TargetGroup rule)
       || negb (groupPattern (FirewallRule.TargetGroup rule)) || (FirewallRule.TargetGroup rule == "all")) = false ∧
  (FirewallRule.TargetNodeID rule != "") && negb (validPersistedID (FirewallRule.TargetNodeID rule)) = false.

(** The selector part. *)
Definition select (rule : FirewallRule.t) (network : prefix) (port : parsedFirewallPort.t) :
    result (FirewallRule.t * parsedFirewallPort.t * string) :=
  let targetKey := firewallTargetKey rule in
  if FirewallRule.Group rule != "" then
    fail (ErrOther "group must match the certificate-group grammar and be at most 32 characters")
      when (TrimSpace (FirewallRule.Group rule) != FirewallRule.Group rule)
        || negb (groupPattern (FirewallRule.Group rule));;
    fail (ErrOther "group any is a wildcard; use host any explicitly") when FirewallRule.Group rule == "any";;
    Ok (rule, port, "group" +:+ nul +:+ FirewallRule.Group rule +:+ targetKey)
  else if FirewallRule.PeerNodeID rule != "" then
    fail (ErrOther "peer_node_id must be a valid node ID") when negb (validPersistedID (FirewallRule.PeerNodeID rule));;
    Ok (rule, port, "peer_node" +:+ nul +:+ FirewallRule.PeerNodeID rule +:+ targetKey)
  else
    '(host, selectorKey) ← normalizeFirewallHost (FirewallRule.Host rule) network;
    Ok (rule <| FirewallRule.Host := host |>, port, selectorKey +:+ targetKey).

Definition one_selector (rule : FirewallRule.t) : Prop :=
  count_true [FirewallRule.Group rule != ""; FirewallRule.Host rule != ""; FirewallRule.PeerNodeID rule != ""] = 1%nat.

Lemma normalizeFirewallRule_iff rule network t :
  normalizeFirewallRule rule network = Ok t ↔
  ∃ port, rule_checks rule port ∧ one_selector rule ∧ select rule network port = Ok t.
Proof.
  unfold normalizeFirewallRule, rule_checks, one_selector. split.
  - intros (? & H1%fail_if_Ok & H)%bind_Ok. apply bind_Ok in H as (? & H2%fail_if_Ok & H).
    apply bind_Ok in H as (port & H3 & H). apply bind_Ok in H as (? & H4%fail_if_Ok & H).
    apply bind_Ok in H as (? & H5%fail_if_Ok & H). apply bind_Ok in H as (? & H6%fail_if_Ok & H).
    apply bind_Ok in H as (? & H7%fail_if_Ok & H). apply bind_Ok in H as (? & H8%fail_if_Ok & H).
    apply negb_false_iff, bool_decide_eq_true in H1. apply negb_false_iff, contains_true in H2.
    apply negb_false_iff, Nat.eqb_eq in H5. exists port. split; [split_and!; done|]. split; [done|exact H].
  - intros (port & (H1 & H2 & H3 & H4 & H6 & H7 & H8) & H5 & H). apply contains_true in H2.
    rewrite H1, H2, H3. rewrite (bool_decide_eq_true_2 _ (eq_refl (FirewallRule.Proto rule))).
    cbn [mbind result_bind fail_if negb]. rewrite H4, H5, H6, H7, H8. exact H.
Qed.

Lemma one_selector_cases rule : one_selector rule →
  (FirewallRule.Group rule ≠ "" ∧ FirewallRule.Host rule = "" ∧ FirewallRule.PeerNodeID rule = "") ∨
  (FirewallRule.Group rule = "" ∧ FirewallRule.Host rule = "" ∧ FirewallRule.PeerNodeID rule ≠ "") ∨
  (FirewallRule.Group rule = "" ∧ FirewallRule.Host rule ≠ "" ∧ FirewallRule.PeerNodeID rule = "").
Proof.
  unfold one_selector. destruct (decide (FirewallRule.Group rule = "")), (decide (FirewallRule.Host rule = "")),
    (decide (FirewallRule.PeerNodeID rule = "")); eval_bools; cbn; auto; discriminate.
Qed.

Lemma rule_checks_target rule port : rule_checks rule port → good_target rule.
Proof.
  intros (_ & _ & _ & _ & H1 & H2 & H3). unfold good_target.
  destruct (decide (FirewallRule.TargetGroup rule = "")) as [E|E],
    (decide (FirewallRule.TargetNodeID rule = "")) as [E'|E'].
  - auto.
  - rewrite (bool_decide_eq_false_2 _ E') in H3. simpl in H3. split_bools. auto.
  - rewrite (bool_decide_eq_false_2 _ E) in H2. simpl in H2. split_bools. auto.
  - by rewrite (bool_decide_eq_false_2 _ E), (bool_decide_eq_false_2 _ E') in H1.
Qed.

(** What normalizeFirewallRule returns is good, and is a fixpoint. *)
Lemma normalizeFirewallRule_fix rule network rule' port key :
  normalizeFirewallRule rule network = Ok (rule', port, key) →
  normalizeFirewallRule rule' network = Ok (rule', port, key) ∧ good_rule network rule' ∧ 1 ≤ port_slots port.
Proof.
  intros (port' & Hc & Ho & H)%normalizeFirewallRule_iff.
  pose proof (rule_checks_target _ _ Hc) as Ht. pose proof Hc as (_ & Hp & Hport & _).
  unfold select in H. destruct (one_selector_cases _ Ho) as [(Eg & Eh & Ep)|[(Eg & Eh & Ep)|(Eg & Eh & Ep)]].
  - rewrite (bool_decide_eq_false_2 _ Eg) in H. cbn [negb] in H.
    apply bind_Ok in H as (? & Hg%fail_if_Ok & H). apply bind_Ok in H as (? & Hg'%fail_if_Ok & [= <- <- <-]).
    split_bools.
    split_and!; [|split_and!; [done|eauto|done|left; done]|by eapply parse_port_slots].
    apply normalizeFirewallRule_iff. exists port'. split_and!; [done..|]. unfold select.
    by eval_bools.
  - rewrite (bool_decide_eq_true_2 _ Eg), (bool_decide_eq_false_2 _ Ep) in H. cbn [negb] in H.
    apply bind_Ok in H as (? & Hg%fail_if_Ok & [= <- <- <-]). split_bools.
    split_and!; [|split_and!; [done|eauto|done|right; left; done]|by eapply parse_port_slots].
    apply normalizeFirewallRule_iff. exists port'. split_and!; [done..|]. unfold select. by eval_bools.
  - rewrite (bool_decide_eq_true_2 _ Eg), (bool_decide_eq_true_2 _ Ep) in H. cbn [negb] in H.
    apply bind_Ok in H as ([host k] & Hh & [= <- <- <-]).
    apply normalizeFirewallHost_fix in Hh as [Hh Hne].
    split_and!; [|split_and!; [done|eauto|done|right; right; simpl; eauto]|by eapply parse_port_slots].
    apply normalizeFirewallRule_iff. exists port'. split_and!; [done| |].
    + unfold one_selector in *. simpl. revert Ho. by eval_bools.
    + unfold select. simpl. eval_bools. cbn [negb]. by rewrite Hh.
Qed.

(** ** The loop over the rules *)
Definition norm_port (network : prefix) (rule : FirewallRule.t) : Z :=
  match normalizeFirewallRule rule network with Ok (_, port, _) => port_slots port | Err _ => 0 end.
Definition norm_key (network : prefix) (rule : FirewallRule.t) : string :=
  match normalizeFirewallRule rule network with
  | Ok (rule', _, key) => duplicate_key rule' key
  | Err _ => ""
  end.
Definition fixed_rule (network : prefix) (rule : FirewallRule.t) : Prop :=
  good_rule network rule ∧ 1 ≤ norm_port network rule ∧
  ∃ port key, normalizeFirewallRule rule network = Ok (rule, port, key).
Definition total_slots (network : prefix) (rules : list FirewallRule.t) : Z :=
  foldr (λ r acc, norm_port network r + acc) 0 rules.

Lemma loop_sound network rules seen n out m :
  normalize_rules_loop network seen n rules = Ok (out, m) →
  length out = length rules ∧ Forall (fixed_rule network) out ∧ NoDup (norm_key network <$> out) ∧
  Forall (λ r, norm_key network r ∉ seen) out ∧ m = n + total_slots network out ∧ (out ≠ [] → m ≤ 16384).
Proof.
  revert seen n out m. induction rules as [|c rules IH]; intros seen n out m; simpl.
  { intros [= <- <-]. split_and!; try constructor; [|done]. simpl. lia. }
  destruct (normalizeFirewallRule c network) as [[[rule port] key]|] eqn:Hc; [|done].
  intros (? & Hs%fail_if_Ok & H)%bind_Ok. apply bind_Ok in H as (? & Hd%fail_if_Ok & H).
  apply bind_Ok in H as ([out' m'] & Hl & [= <- <-]). apply contains_false in Hd.
  apply IH in Hl as (Hlen & Hf & Hnd & Hseen & Hm & Hb).
  apply normalizeFirewallRule_fix in Hc as (Hfix & Hgood & Hslots).
  assert (norm_port network rule = port_slots port) as Hnp by (unfold norm_port; by rewrite Hfix).
  assert (norm_key network rule = duplicate_key rule key) as Hnk by (unfold norm_key; by rewrite Hfix).
  apply Z.ltb_ge in Hs. unfold maxFirewallExpandedPortSlots in Hs. rewrite <- Hnk in *.
  rewrite Forall_forall in Hseen. split_and!.
  - simpl. by rewrite Hlen.
  - constructor; [|done]. split_and!; [done|lia|eauto].
  - csimpl. constructor; [|done]. intros (r & E & Hr)%list_elem_of_fmap. apply (Hseen r Hr).
    rewrite E. constructor.
  - constructor; [done|]. apply Forall_forall. intros r Hr Hin. apply (Hseen r Hr). by constructor.
  - simpl. lia.
  - intros _. destruct out'; [simpl in *; lia|by apply Hb].
Qed.

Lemma total_slots_nonneg network rules : Forall (fixed_rule network) rules → 0 ≤ total_slots network rules.
Proof. induction 1 as [|r l (_ & ? & _) _ IH]; simpl; lia. Qed.

Lemma loop_complete network rules seen n :
  Forall (fixed_rule network) rules → NoDup (norm_key network <$> rules) →
  Forall (λ r, norm_key network r ∉ seen) rules → (rules ≠ [] → n + total_slots network rules ≤ 16384) →
  normalize_rules_loop network seen n rules = Ok (rules, n + total_slots network rules).
Proof.
  revert seen n. induction rules as [|r rules IH]; intros seen n Hf Hnd Hseen Hb; simpl.
  { by rewrite Z.add_0_r. }
  apply Forall_cons in Hf as [(_ & Hp & port & key & Hr) Hf]. apply Forall_cons in Hseen as [Hs Hseen].
  csimpl in Hnd. apply NoDup_cons in Hnd as [Hk Hnd]. specialize (Hb ltac:(done)). simpl in Hb.
  assert (norm_port network r = port_slots port) as Hnp by (unfold norm_port; by rewrite Hr).
  assert (norm_key network r = duplicate_key r key) as Hnk by (unfold norm_key; by rewrite Hr).
  rewrite Hr, <- Hnk, <- Hnp. pose proof (total_slots_nonneg network rules Hf).
  unfold maxFirewallExpandedPortSlots. rewrite (proj2 (Z.ltb_ge _ _)) by lia.
  rewrite (proj2 (contains_false _ _)) by done. cbn [mbind result_bind fail_if].
  rewrite IH; [cbn; do 2 f_equal; lia|done|done| |intros; lia].
  rewrite Forall_forall in *. intros x Hx [E|?]%elem_of_cons; [|by eapply Hseen].
  apply Hk. rewrite <- E. by apply list_elem_of_fmap_2.
Qed.

Lemma total_slots_perm network l l' : l ≡ₚ l' → total_slots network l = total_slots network l'.
Proof. induction 1; simpl; lia. Qed.

(** A permutation of normalised rules normalises to itself. *)
Lemma loop_perm network rules n out m l :
  normalize_rules_loop network [] n rules = Ok (out, m) → out ≡ₚ l →
  normalize_rules_loop network [] n l = Ok (l, m).
Proof.
  intros (Hlen & Hf & Hnd & _ & -> & Hb)%loop_sound Hp.
  rewrite (total_slots_perm network _ _ Hp) in *. apply loop_complete.
  - by rewrite <- Hp.
  - by rewrite <- Hp.
  - apply Forall_true. intros. apply not_elem_of_nil.
  - intros Hl. apply Hb. intros ->. apply Permutation_nil in Hp. done.
Qed.

(** ** The sort key determines a normalised rule *)
Lemma no_nul (cls : Z → bool) s : cls 0 = false → forallb cls (bytes_of s) = true → contains_char s NUL = false.
Proof.
  intros H0. induction s as [|c s IH]; simpl; [done|]. intros. split_bools.
  rewrite IH by done. rewrite bool_decide_eq_false_2; [done|]. intros <-.
  change (byte_of NUL) with 0 in *. congruence.
Qed.

Lemma group_no_nul s : groupPattern s = true → contains_char s NUL = false.
Proof.
  unfold groupPattern, match_class. intros H. apply (no_nul group_tail); [done|].
  destruct (bytes_of s) as [|c l]; [done|]. split_bools. simpl. apply andb_true_iff. split; [|done].
  unfold group_tail. apply orb_true_iff. left. apply orb_true_iff. by left.
Qed.

Lemma id_no_nul s : validPersistedID s = true → contains_char s NUL = false.
Proof. unfold validPersistedID. case_match; [done|]. by apply no_nul. Qed.

Lemma Itoa_no_nul n : 0 ≤ n < 256 → contains_char (Itoa n) NUL = false.
Proof.
  intros Hn. pose proof Itoa_digit_table as T. rewrite forallb_forall in T.
  specialize (T n ltac:(apply list_elem_of_In, elem_of_seqZ; lia)). split_bools. by apply (no_nul digit).
Qed.

Lemma addr_no_nul a : valid_addr a → contains_char (addr_string a) NUL = false.
Proof.
  intros Ha. destruct (addr_octets _ Ha) as (w & x & y & z & ? & ? & ? & ? & ->).
  unfold addr_string. rewrite As4_octets by done.
  change (join "." (Itoa <$> [w; x; y; z])) with
    (Itoa w +:+ "." +:+ Itoa x +:+ "." +:+ Itoa y +:+ "." +:+ Itoa z).
  rewrite !contains_char_app, !Itoa_no_nul by lia. done.
Qed.

Lemma host_no_nul host network key :
  normalizeFirewallHost host network = Ok (host, key) → contains_char host NUL = false.
Proof.
  unfold normalizeFirewallHost. intros (_ & _ & H)%bind_Ok.
  destruct (bool_decide (host = "any")) eqn:E; [by apply bool_decide_eq_true in E as ->|].
  destruct (ParseAddr host) as [a|] eqn:Ha.
  - apply ParseAddr_iff in Ha as [? ->]. by apply addr_no_nul.
  - apply bind_Ok in H as (p & Hp & _). apply of_option_Ok, ParsePrefix_iff in Hp as [[? ?] ->].
    unfold prefix_string. rewrite !contains_char_app, addr_no_nul, Itoa_no_nul by (done || lia). done.
Qed.

(** The port text is recovered from the parsed port. *)
Definition port_text (port : parsedFirewallPort.t) : string :=
  if parsedFirewallPort.any port then "any"
  else if parsedFirewallPort.start port =? parsedFirewallPort.end_ port then Itoa (parsedFirewallPort.start port)
  else Itoa (parsedFirewallPort.start port) +:+ "-" +:+ Itoa (parsedFirewallPort.end_ port).

Lemma port_number_text v n : parseCanonicalPortNumber v = Ok n → v = Itoa n ∧ 1 ≤ n ≤ 65535.
Proof. unfold parseCanonicalPortNumber. intros H. inv_ok. subst. split_bools. split; [done|lia]. Qed.

Lemma parse_port_text v port : parseCanonicalFirewallPort v = Ok port →
  v = port_text port ∧ (if parsedFirewallPort.any port then parsedFirewallPort.start port = 0 ∧ parsedFirewallPort.end_ port = 0
     else 1 ≤ parsedFirewallPort.start port ≤ 65535 ∧ 1 ≤ parsedFirewallPort.end_ port ≤ 65535).
Proof.
  unfold parseCanonicalFirewallPort, port_text. destruct (bool_decide _) eqn:E.
  { apply bool_decide_eq_true in E as ->. by intros [= <-]. }
  intros (_ & _ & H)%bind_Ok. pose proof (join_split_on "-" v) as Hv.
  assert (∀ n, (port0 ← parseCanonicalPortNumber v; Ok (parsedFirewallPort.make port0 port0 false)) = Ok n →
    v = (if parsedFirewallPort.any n then "any" else if parsedFirewallPort.start n =? parsedFirewallPort.end_ n
         then Itoa (parsedFirewallPort.start n)
         else Itoa (parsedFirewallPort.start n) +:+ "-" +:+ Itoa (parsedFirewallPort.end_ n)) ∧
    (if parsedFirewallPort.any n then parsedFirewallPort.start n = 0 ∧ parsedFirewallPort.end_ n = 0
     else 1 ≤ parsedFirewallPort.start n ≤ 65535 ∧ 1 ≤ parsedFirewallPort.end_ n ≤ 65535)) as Hone.
  { intros n (k & [-> ?]%port_number_text & [= <-])%bind_Ok. simpl. by rewrite Z.eqb_refl. }
  destruct (split_on "-" v) as [|a [|b [|c l]]]; [by apply Hone| by apply Hone| |by apply Hone].
  apply bind_Ok in H as (x & [-> Hx]%port_number_text & H). apply bind_Ok in H as (y & [-> Hy]%port_number_text & H).
  apply bind_Ok in H as (? & Hlt%fail_if_Ok & [= <-]). simpl. apply Z.leb_gt in Hlt.
  rewrite (proj2 (Z.eqb_neq x y)) by lia. split; [by rewrite <- Hv|done].
Qed.

Definition digits5 (n : Z) : list Z := (λ d, 48 + n / d mod 10) <$> [10000; 1000; 100; 10; 1].

Lemma digits5_bytes n : Forall is_byte (digits5 n).
Proof. unfold digits5, is_byte. repeat constructor; Z.div_mod_to_equations; lia. Qed.
Lemma digits5_inj n m : 0 ≤ n < 100000 → 0 ≤ m < 100000 → digits5 n = digits5 m → n = m.
Proof. unfold digits5. simpl. intros ?? [= E1 E2 E3 E4 E5]. Z.div_mod_to_equations; lia. Qed.

Lemma port_key_bytes x y : bytes_of ("1" +:+ pad5 x +:+ pad5 y) = 49 :: digits5 x ++ digits5 y.
Proof.
  rewrite !bytes_of_app. unfold pad5. rewrite !bytes_of_string_of by apply digits5_bytes. done.
Qed.

Lemma port_key_no_nul x y : contains_char ("1" +:+ pad5 x +:+ pad5 y) NUL = false.
Proof.
  apply (no_nul (λ c, 48 <=? c)); [done|]. rewrite port_key_bytes. apply forallb_forall.
  intros c Hc. apply Z.leb_le. apply list_elem_of_In, elem_of_cons in Hc as [->|Hc]; [lia|].
  unfold digits5 in Hc. apply elem_of_app in Hc as [Hc|Hc];
    apply list_elem_of_fmap in Hc as (d & -> & _); pose proof (Z.mod_pos_bound (x / d) 10);
    pose proof (Z.mod_pos_bound (y / d) 10); lia.
Qed.

Definition port_key (port : parsedFirewallPort.t) : string :=
  if parsedFirewallPort.any port then "0"
  else "1" +:+ pad5 (parsedFirewallPort.start port) +:+ pad5 (parsedFirewallPort.end_ port).

Lemma port_key_inj v v' port port' :
  parseCanonicalFirewallPort v = Ok port → parseCanonicalFirewallPort v' = Ok port' →
  port_key port = port_key port' → v = v'.
Proof.
  intros [-> Hp]%parse_port_text [-> Hp']%parse_port_text Hk. apply (f_equal bytes_of) in Hk.
  unfold port_key, port_text in *. destruct port as [s e [|]], port' as [s' e' [|]];
    cbn [parsedFirewallPort.any parsedFirewallPort.start parsedFirewallPort.end_] in *; try done.
  rewrite !port_key_bytes in Hk. apply (f_equal (@tail Z)) in Hk. cbn [tail] in Hk. apply app_inj_1 in Hk as [Hs He]; [|done].
  apply digits5_inj in Hs; [|lia..]. apply digits5_inj in He; [|lia..]. by subst.
Qed.

(** The six fields of the key, and that splitting recovers them. *)
Definition target_words (rule : FirewallRule.t) : list string :=
  if FirewallRule.TargetGroup rule != "" then ["target_group"; FirewallRule.TargetGroup rule]
  else if FirewallRule.TargetNodeID rule != "" then ["target_node"; FirewallRule.TargetNodeID rule]
  else ["target"; "all"].
Definition selector_words (rule : FirewallRule.t) : list string :=
  if FirewallRule.Host rule != "" then ["host"; FirewallRule.Host rule]
  else if FirewallRule.PeerNodeID rule != "" then ["peer_node"; FirewallRule.PeerNodeID rule]
  else ["group"; FirewallRule.Group rule].

Lemma sort_key_split network rule port :
  good_rule network rule → parseCanonicalFirewallPort (FirewallRule.Port rule) = Ok port →
  split_on NUL (firewallRuleSortKey rule) =
    target_words rule ++ [protoRank (FirewallRule.Proto rule); port_key port] ++ selector_words rule.
Proof.
  intros (_ & _ & Ht & Hs) Hp. unfold firewallRuleSortKey. rewrite Hp. fold (port_key port).
  assert (∃ t1 t2, target_words rule = [t1; t2] ∧ contains_char t1 NUL = false ∧ contains_char t2 NUL = false ∧
    (if FirewallRule.TargetGroup rule != "" then "target_group" +:+ nul +:+ FirewallRule.TargetGroup rule
     else if FirewallRule.TargetNodeID rule != "" then "target_node" +:+ nul +:+ FirewallRule.TargetNodeID rule
     else "target" +:+ nul +:+ "all") = t1 +:+ nul +:+ t2) as (t1 & t2 & -> & Ht1 & Ht2 & ->).
  { unfold target_words. destruct Ht as [(E & E')|[(E & E' & Hg)|(E & E' & Hg)]]; eval_bools; cbn [negb];
      do 2 eexists; split_and!; try reflexivity; auto using group_no_nul, id_no_nul. }
  assert (∃ s1 s2, selector_words rule = [s1; s2] ∧ contains_char s1 NUL = false ∧ contains_char s2 NUL = false ∧
    (if FirewallRule.Host rule != "" then "host" +:+ nul +:+ FirewallRule.Host rule
     else if FirewallRule.PeerNodeID rule != "" then "peer_node" +:+ nul +:+ FirewallRule.PeerNodeID rule
     else "group" +:+ nul +:+ FirewallRule.Group rule) = s1 +:+ nul +:+ s2) as (s1 & s2 & -> & Hs1 & Hs2 & ->).
  { unfold selector_words. destruct Hs as [(E & E1 & E2 & Hg)|[(E & E1 & E2 & Hg)|(E & E1 & E2 & key & Hg)]];
      eval_bools; cbn [negb]; do 2 eexists; split_and!; try reflexivity;
      eauto using group_no_nul, id_no_nul, host_no_nul. }
  assert (contains_char (port_key port) NUL = false) as Hk
    by (unfold port_key; destruct (parsedFirewallPort.any port); [done|apply port_key_no_nul]).
  assert (contains_char (protoRank (FirewallRule.Proto rule)) NUL = false) as Hr
    by (unfold protoRank; repeat destruct (bool_decide _); done).
  unfold nul. rewrite !string_app_assoc.
  rewrite !split_on_app by done. rewrite split_on_word by done. done.
Qed.

Lemma protoRank_inj p q : p ∈ ["any"; "tcp"; "udp"; "icmp"] → q ∈ ["any"; "tcp"; "udp"; "icmp"] →
  protoRank p = protoRank q → p = q.
Proof.
  intros Hp Hq. repeat (apply elem_of_cons in Hp as [->|Hp]); try by apply elem_of_nil in Hp.
  all: repeat (apply elem_of_cons in Hq as [->|Hq]); try by apply elem_of_nil in Hq.
  all: vm_compute; congruence.
Qed.

Lemma sort_key_inj network r r' :
  good_rule network r → good_rule network r' → firewallRuleSortKey r = firewallRuleSortKey r' → r = r'.
Proof.
  intros Hg Hg' E. pose proof Hg as (Hp & [port Hport] & Ht & Hs).
  pose proof Hg' as (Hp' & [port' Hport'] & Ht' & Hs').
  apply (f_equal (split_on NUL)) in E.
  rewrite (sort_key_split _ _ _ Hg Hport), (sort_key_split _ _ _ Hg' Hport') in E.
  assert (length (target_words r) = length (target_words r')) as Hl
    by (unfold target_words; repeat destruct (negb _); done).
  apply app_inj_1 in E as [Et E]; [|done]. cbn [app] in E. injection E as Er Ek Es.
  apply protoRank_inj in Er; [|done..]. eapply port_key_inj in Ek; [|done..].
  assert (FirewallRule.TargetGroup r = FirewallRule.TargetGroup r' ∧
    FirewallRule.TargetNodeID r = FirewallRule.TargetNodeID r') as [? ?].
  { unfold target_words in Et. clear -Et Ht Ht'.
    destruct Ht as [(H1 & H2)|[(H1 & H2 & _)|(H1 & H2 & _)]],
      Ht' as [(H1' & H2')|[(H1' & H2' & _)|(H1' & H2' & _)]]; revert Et; eval_bools; cbn; intros; simplify_eq;
      split; congruence. }
  assert (FirewallRule.Group r = FirewallRule.Group r' ∧ FirewallRule.Host r = FirewallRule.Host r' ∧
    FirewallRule.PeerNodeID r = FirewallRule.PeerNodeID r') as (? & ? & ?).
  { unfold selector_words in Es. clear -Es Hs Hs'.
    destruct Hs as [(H1 & H2 & H3 & _)|[(H1 & H2 & H3 & _)|(H1 & H2 & H3 & _)]],
      Hs' as [(H1' & H2' & H3' & _)|[(H1' & H2' & H3' & _)|(H1' & H2' & H3' & _)]];
      revert Es; eval_bools; cbn; intros; simplify_eq; split_and!; congruence. }
  destruct r, r'; simpl in *; congruence.
Qed.

(** ** Properties *)
Lemma rule_le_total a b : rule_le a b = true ∨ rule_le b a = true.
Proof. apply str_le_total. Qed.
Lemma rule_le_trans a b c : rule_le a b = true → rule_le b c = true → rule_le a c = true.
Proof. apply str_le_trans. Qed.

(** A canonical direction: what normalizeFirewallRules returns. *)
Definition canonical_rules (network : prefix) (n : Z) (rules : list FirewallRule.t) (m : Z) : Prop :=
  normalize_rules_loop network [] n rules = Ok (rules, m) ∧ StronglySorted (holds rule_le) rules ∧
  Forall (good_rule network) rules.

Lemma normalizeFirewallRules_canonical rules network n out m :
  normalizeFirewallRules rules network n = Ok (out, m) →
  ∃ l, out = Some l ∧ canonical_rules network n l m ∧ length l = length rules.
Proof.
  unfold normalizeFirewallRules. intros ([l k] & Hl & [= <- <-])%bind_Ok.
  exists (sort_by rule_le l). pose proof (loop_sound _ _ _ _ _ _ Hl) as (Hlen & Hf & _).
  split_and!; [done|split_and!|by rewrite sort_by_length].
  - eapply loop_perm; [done|]. symmetry. apply sort_by_perm.
  - apply sort_by_sorted; [apply rule_le_total|apply rule_le_trans].
  - apply Forall_sort_by. eapply Forall_impl; [exact Hf|]. by intros r [? _].
Qed.

Lemma canonical_rules_unique network n l m l' :
  canonical_rules network n l m → l ≡ₚ l' → StronglySorted (holds rule_le) l' → l = l'.
Proof.
  intros (_ & Hs & Hg) Hp Hs'. rewrite Forall_forall in Hg. apply (sorted_unique_on (holds rule_le)); try done.
  intros x y Hx Hy Hxy Hyx. apply (sort_key_inj network); auto.
Qed.

Lemma canonical_rules_normalize network n l m :
  canonical_rules network n l m → normalizeFirewallRules l network n = Ok (Some l, m).
Proof.
  intros Hc. pose proof Hc as (Hl & Hs & _). unfold normalizeFirewallRules. rewrite Hl. cbn.
  do 3 f_equal. symmetry. apply (canonical_rules_unique network n l m); [done|by rewrite sort_by_perm|].
  apply sort_by_sorted; [apply rule_le_total|apply rule_le_trans].
Qed.

Lemma normalizeFirewallPolicy_inv input cidr policy :
  normalizeFirewallPolicy input cidr = Ok policy →
  ∃ network inb outb k m, ParsePrefix cidr = Some network ∧ network = Masked network ∧
    policy = FirewallPolicy.make FirewallPolicyModeManaged currentFirewallRendererVersion (Some inb) (Some outb) ∧
    canonical_rules network 0 inb k ∧ canonical_rules network k outb m ∧ m ≤ 16384 ∧
    Z.of_nat (length inb) ≤ 128 ∧ Z.of_nat (length outb) ≤ 128.
Proof.
  unfold normalizeFirewallPolicy, maxFirewallRulesPerDirection, maxFirewallExpandedPortSlots.
  intros (? & _ & H)%bind_Ok. apply bind_Ok in H as (? & H1%fail_if_Ok & H).
  apply bind_Ok in H as (? & H2%fail_if_Ok & H). apply bind_Ok in H as (network & Hn%of_option_Ok & H).
  apply bind_Ok in H as (? & Hm%fail_if_Ok & H). apply bind_Ok in H as ([inb k] & Hi & H).
  apply bind_Ok in H as ([outb m] & Ho & H). apply bind_Ok in H as (? & H3%fail_if_Ok & [= <-]).
  apply normalizeFirewallRules_canonical in Hi as (li & -> & Hci & Hli).
  apply normalizeFirewallRules_canonical in Ho as (lo' & -> & Hco & Hlo). split_bools.
  exists network, li, lo', k, m. rewrite Hli, Hlo. split_and!; done || lia.
Qed.

(** A normalised policy is a fixed point and passes the stored-policy check. *)
Lemma normalized_is_stored input cidr policy :
  normalizeFirewallPolicy input cidr = Ok policy →
  normalizeFirewallPolicy (firewallPolicyInput policy) cidr = Ok policy ∧ validateStoredFirewallPolicy policy cidr = Ok tt.
Proof.
  intros (network & inb & outb & k & m & Hn & Hm & -> & Hi & Ho & Hb & Hli & Hlo)%normalizeFirewallPolicy_inv.
  assert (normalizeFirewallPolicy (FirewallPolicyInput.make (Some inb) (Some outb)) cidr = Ok
    (FirewallPolicy.make FirewallPolicyModeManaged currentFirewallRendererVersion (Some inb) (Some outb))) as Hfix.
  { unfold normalizeFirewallPolicy, maxFirewallRulesPerDirection, maxFirewallExpandedPortSlots. simpl.
    apply Z.ltb_ge in Hli, Hlo, Hb. rewrite Hli, Hlo, Hn. cbn.
    rewrite (bool_decide_eq_true_2 _ Hm). cbn. rewrite (canonical_rules_normalize _ _ _ _ Hi). cbn.
    rewrite (canonical_rules_normalize _ _ _ _ Ho). cbn. by rewrite Hb. }
  split; [exact Hfix|]. unfold validateStoredFirewallPolicy, firewallPolicyInput.
  cbn [FirewallPolicy.Inbound FirewallPolicy.Outbound]. rewrite Hfix. cbn.
  unfold sameEffectiveFirewallPolicy, slices_equal. cbn. by eval_bools.
Qed.

(** C17: Normalising a firewall policy yields a canonical one: the stored-policy
    check accepts it, normalising it again changes nothing, and its order is the
    only one its rules can be sorted into by their sort key, so the unstable sort
    is deterministic. *)
Theorem normalizeFirewallPolicy_canonical input cidr policy :
  normalizeFirewallPolicy input cidr = Ok policy →
  normalizeFirewallPolicy (firewallPolicyInput policy) cidr = Ok policy ∧
  validateStoredFirewallPolicy policy cidr = Ok tt ∧
  (∀ l, elems (FirewallPolicy.Inbound policy) ≡ₚ l → StronglySorted (holds rule_le) l →
        elems (FirewallPolicy.Inbound policy) = l) ∧
  (∀ l, elems (FirewallPolicy.Outbound policy) ≡ₚ l → StronglySorted (holds rule_le) l →
        elems (FirewallPolicy.Outbound policy) = l).
Proof.
  intros H. destruct (normalized_is_stored _ _ _ H) as [Hfix Hs]. split; [exact Hfix|]. split; [exact Hs|].
  apply normalizeFirewallPolicy_inv in H as (network & inb & outb & k & m & _ & _ & -> & Hi & Ho & _). split.
  - intros l. by apply (canonical_rules_unique network 0 inb k).
  - intros l. by apply (canonical_rules_unique network k outb m).
Qed.

Lemma normalizeFirewallPolicy_canonical_witness :
  validateStoredFirewallPolicy (FirewallPolicy.make "managed" 2
    (Some [FirewallRule.make "icmp" "any" "" "any" "" "" ""; FirewallRule.make "tcp" "22" "" "10.42.0.9" "" "" ""])
    (Some [any_rule "" "any"])) "10.42.0.0/16" = Ok tt.
Proof.
  eapply (normalizeFirewallPolicy_canonical (FirewallPolicyInput.make
    (Some [FirewallRule.make "tcp" "22" "" "10.42.0.9/32" "" "" ""; FirewallRule.make "icmp" "any" "" "any" "" "" ""])
    (Some [any_rule "" "any"])) "10.42.0.0/16").
  vm_compute. reflexivity.
Defined.

Lemma compile_rule_spec state node source rule :
  compile_rule state node source = Some rule ↔
  firewallRuleTargetsNode source node = true ∧
  ((FirewallRule.PeerNodeID source = "" ∧
    rule = source <| FirewallRule.TargetGroup := "" |> <| FirewallRule.TargetNodeID := "" |>) ∨
   (∃ peer, FirewallRule.PeerNodeID source ≠ "" ∧ findNode state (FirewallRule.PeerNodeID source) = Some peer ∧
    Node.NetworkID peer = Node.NetworkID node ∧
    rule = source <| FirewallRule.TargetGroup := "" |> <| FirewallRule.TargetNodeID := "" |>
             <| FirewallRule.PeerNodeID := "" |> <| FirewallRule.Host := Node.IP peer |>)).
Proof.
  unfold compile_rule. destruct (firewallRuleTargetsNode source node); simpl; [|naive_solver].
  destruct (decide (FirewallRule.PeerNodeID source = "")) as [E|E]; eval_bools; simpl; [naive_solver|].
  destruct (findNode state (FirewallRule.PeerNodeID source)) as [peer|]; [|naive_solver].
  destruct (decide (Node.NetworkID peer = Node.NetworkID node)); eval_bools; simpl; naive_solver.
Qed.

(** Compiling a policy for a node keeps exactly the rules that target it:
    every compiled rule comes from a source rule aimed at the node, carries no
    target or peer-node selector any more, and a peer-node selector is resolved to
    the address of that peer in the node's own network; a rule whose peer is
    missing or in another network is dropped. *)
Theorem compiled_policy_for_node state node policy rule :
  (rule ∈ elems (FirewallPolicy.Inbound (effectiveFirewallPolicyForNode state node policy)) ↔
   ∃ source, source ∈ elems (FirewallPolicy.Inbound policy) ∧ firewallRuleTargetsNode source node = true ∧
     ((FirewallRule.PeerNodeID source = "" ∧
       rule = source <| FirewallRule.TargetGroup := "" |> <| FirewallRule.TargetNodeID := "" |>) ∨
      (∃ peer, FirewallRule.PeerNodeID source ≠ "" ∧ findNode state (FirewallRule.PeerNodeID source) = Some peer ∧
       Node.NetworkID peer = Node.NetworkID node ∧
       rule = source <| FirewallRule.TargetGroup := "" |> <| FirewallRule.TargetNodeID := "" |>
                <| FirewallRule.PeerNodeID := "" |> <| FirewallRule.Host := Node.IP peer |>))) ∧
  firewallPolicyUsesNodeScopes (effectiveFirewallPolicyForNode state node policy) = false.
Proof.
  split.
  - unfold effectiveFirewallPolicyForNode, compileFirewallRulesForNode; simpl.
    rewrite list_elem_of_omap. setoid_rewrite compile_rule_spec. done.
  - unfold firewallPolicyUsesNodeScopes. apply not_true_iff_false. intros (r & Hr & Hx)%existsb_exists.
    apply list_elem_of_In in Hr. unfold policy_rules, effectiveFirewallPolicyForNode, compileFirewallRulesForNode in Hr.
    simpl in Hr. rewrite elem_of_app, !list_elem_of_omap in Hr.
    destruct Hr as [(s & _ & Hs)|(s & _ & Hs)]; apply compile_rule_spec in Hs as [_ [[E ->]|(peer & _ & _ & _ & ->)]];
      simpl in Hx; revert Hx; eval_bools; done.
Qed.

(** Upgrading a policy's renderer never changes its rules or mode, reports a
    change exactly when the rendered text differs, and upgrading again does
    nothing. *)
Theorem upgradeFirewallRenderer_spec policy upgraded changed :
  upgradeFirewallRenderer policy = Ok (upgraded, changed) →
  policy_rules upgraded = policy_rules policy ∧ FirewallPolicy.Mode upgraded = FirewallPolicy.Mode policy ∧
  (changed = true ↔ renderFirewallPolicy upgraded ≠ renderFirewallPolicy policy) ∧
  upgradeFirewallRenderer upgraded = Ok (upgraded, false).
Proof.
  unfold upgradeFirewallRenderer. destruct (bool_decide (FirewallPolicy.Mode policy = _)) eqn:Em.
  { intros (? & Hv & [= <- <-])%bind_Ok. rewrite Em, Hv. naive_solver. }
  destruct (negb _) eqn:Eg; [done|]. destruct (FirewallPolicy.RendererVersion policy =? _) eqn:Ev.
  { intros [= <- <-]. rewrite Em, Eg, Ev. naive_solver. }
  destruct (negb (FirewallPolicy.RendererVersion policy =? FirewallRendererVersionV1)); [done|].
  intros [= <- <-]. simpl.
  split_and!; [done|done| |].
  - rewrite negb_true_iff, bool_decide_eq_false. split; congruence.
  - by rewrite Em, Eg.
Qed.

Lemma upgradeFirewallRenderer_spec_witness :
  let policy := FirewallPolicy.make "managed" 1 (Some [any_rule "all" ""]) (Some [any_rule "" "any"]) in
  renderFirewallPolicy (policy <| FirewallPolicy.RendererVersion := 2 |>) ≠ renderFirewallPolicy policy.
Proof.
  simpl. refine (proj1 (proj1 (proj2 (proj2 (upgradeFirewallRenderer_spec
    (FirewallPolicy.make "managed" 1 (Some [any_rule "all" ""]) (Some [any_rule "" "any"]))
    (FirewallPolicy.make "managed" 2 (Some [any_rule "all" ""]) (Some [any_rule "" "any"])) true _)))) eq_refl).
  vm_compute. reflexivity.
Defined.

(** Rewriting node references in place does not keep a policy canonical: there
    is a stored policy the state check accepts which it refuses after node [m] is
    replaced by node [zz], because the rewritten rules are no longer in sort-key
    order.  The replacement of a node then depends on the identifier drawn for
    the new node. *)
Theorem replaced_references_not_canonical :
  ∃ policy cidr, validateStoredFirewallPolicy policy cidr = Ok tt ∧
    snd (replaceFirewallPolicyNodeReferences policy "m" "zz") = 1 ∧
    validateStoredFirewallPolicy (fst (replaceFirewallPolicyNodeReferences policy "m" "a")) cidr = Ok tt ∧
    is_ok (validateStoredFirewallPolicy (fst (replaceFirewallPolicyNodeReferences policy "m" "zz")) cidr) = false.
Proof.
  exists (FirewallPolicy.make "managed" 2
    (Some [FirewallRule.make "tcp" "22" "" "" "m" "" ""; FirewallRule.make "tcp" "22" "" "" "z" "" ""])
    (Some [any_rule "" "any"])), "10.42.0.0/16".
  vm_compute. done.
Qed.
