(* ===== verification/RoutePolicies.v ===== *)
(** * Route policies (internal/control/route_policies.go)

    The weights, MTU and metric of a routed prefix.  The gateways of a stored
    policy are exactly the prefix's live owners; reconciliation restores that after
    an ownership change. *)
From S2P Require Import Prelude GoStd IPv4 Model AuditLog Routes RouteState Reservations Firewall.

Definition maxRoutePolicyWeight : Z := 1000.
Definition maxRoutePolicyMTU : Z := 65535.
Definition math_MaxInt32 : Z := 2147483647.
Definition NetworkRoutePoliciesDocumentSchema : string := "mesh-network-route-policies-v1".

Module UpdateNetworkRoutePolicyInput.
Record t := make {
  Prefix : string; Gateways : list NetworkRoutePolicyGateway.t; MTU : Z; Metric : Z;
  ExpectedConfigRevision : Z; RequestID : string }.
End UpdateNetworkRoutePolicyInput.

(** ** Gateways *)
Fixpoint normalize_gateways_loop (seen : list string) (values : list NetworkRoutePolicyGateway.t) :
    result (list NetworkRoutePolicyGateway.t) :=
  match values with
  | [] => Ok []
  | g :: rest =>
      let g := g <| NetworkRoutePolicyGateway.NodeID := TrimSpace (NetworkRoutePolicyGateway.NodeID g) |> in
      fail (ErrOther "gateway has an invalid node_id") when negb (validPersistedID (NetworkRoutePolicyGateway.NodeID g));;
      fail (ErrOther "gateway weight must be in range")
        when (NetworkRoutePolicyGateway.Weight g <? 1) || (maxRoutePolicyWeight <? NetworkRoutePolicyGateway.Weight g);;
      fail (ErrOther "gateway node is duplicated") when contains seen (NetworkRoutePolicyGateway.NodeID g);;
      gs ← normalize_gateways_loop (NetworkRoutePolicyGateway.NodeID g :: seen) rest;
      Ok (g :: gs)
  end.
Definition gateway_le (a b : NetworkRoutePolicyGateway.t) : bool :=
  str_le (NetworkRoutePolicyGateway.NodeID a) (NetworkRoutePolicyGateway.NodeID b).
Definition normalizeRoutePolicyGatewayInput (values : list NetworkRoutePolicyGateway.t) :
    result (list NetworkRoutePolicyGateway.t) :=
  fail (ErrOther "a route policy requires 1-8 gateways")
    when (Z.of_nat (length values) <? 1) || (maxRoutePolicyGateways <? Z.of_nat (length values));;
  gs ← normalize_gateways_loop [] values;
  Ok (sort_by gateway_le gs).

Definition validateRoutePolicyControls (mtu metric : Z) : result unit :=
  fail (ErrOther "MTU must be 0 or in range") when negb (mtu =? 0) && ((mtu <? 500) || (maxRoutePolicyMTU <? mtu));;
  fail (ErrOther "metric must be in range") when (metric <? 0) || (math_MaxInt32 <? metric);;
  Ok tt.

Definition owns_route (networkID prefix : string) (node : Node.t) : bool :=
  (Node.NetworkID node == networkID) && (Node.Status node == "active") && enrolled node &&
  contains (elems (Node.RoutedSubnets node)) prefix.
Definition node_le (a b : Node.t) : bool := str_le (Node.ID a) (Node.ID b).
Definition activeRouteOwners (state : State.t) (networkID prefix : string) : list Node.t :=
  sort_by node_le (filter (λ node, owns_route networkID prefix node = true) (State.Nodes state)).

(** ** Looking a policy up *)

(** [slices.BinarySearchFunc] with the policies' prefixes: the loop on [i], [j];
    [fuel] bounds its iterations by the length of the slice. *)
Fixpoint binary_search (fuel : nat) (policies : list NetworkRoutePolicy.t) (target : string) (i j : nat) : nat :=
  match fuel with
  | O => i
  | S fuel' =>
      if (i <? j)%nat then
        let h := ((i + j) / 2)%nat in
        match policies !! h with
        | Some policy =>
            if str_lt (NetworkRoutePolicy.Prefix policy) target then binary_search fuel' policies target (h + 1) j
            else binary_search fuel' policies target i h
        | None => i
        end
      else i
  end.
Definition BinarySearchFunc (policies : list NetworkRoutePolicy.t) (target : string) : nat * bool :=
  let i := binary_search (length policies) policies target 0 (length policies) in
  (i, match policies !! i with Some policy => NetworkRoutePolicy.Prefix policy == target | None => false end).

Definition storedRoutePolicy (network : Network.t) (prefix : string) : option NetworkRoutePolicy.t :=
  let '(index, found) := BinarySearchFunc (elems (Network.RoutePolicies network)) prefix in
  if negb found then None else elems (Network.RoutePolicies network) !! index.

(** The map from node to weight, later entries overwriting earlier ones. *)
Definition weight_of (gateways : list NetworkRoutePolicyGateway.t) (nodeID : string) : Z :=
  foldl (λ acc g, if NetworkRoutePolicyGateway.NodeID g == nodeID then NetworkRoutePolicyGateway.Weight g else acc)
    0 gateways.
Definition gateways_of (owners : list Node.t) (weights : string → Z) : list NetworkRoutePolicyGateway.t :=
  (λ owner, NetworkRoutePolicyGateway.make (Node.ID owner)
     (if weights (Node.ID owner) =? 0 then 1 else weights (Node.ID owner))) <$> owners.

Definition effectiveRoutePolicy (state : State.t) (network : Network.t) (prefix : string) : NetworkRoutePolicy.t :=
  let owners := activeRouteOwners state (Network.ID network) prefix in
  match storedRoutePolicy network prefix with
  | Some policy =>
      policy <| NetworkRoutePolicy.Gateways := gateways_of owners (weight_of (NetworkRoutePolicy.Gateways policy)) |>
  | None =>
      NetworkRoutePolicy.zero <| NetworkRoutePolicy.Prefix := prefix |>
        <| NetworkRoutePolicy.Gateways := gateways_of owners (λ _, 0) |>
  end.

Definition routePolicyOwnersMatch (gateways : list NetworkRoutePolicyGateway.t) (owners : list Node.t) : bool :=
  (length gateways =? length owners)%nat &&
  ((NetworkRoutePolicyGateway.NodeID <$> gateways) == (Node.ID <$> owners)).

Definition routePolicySettingsEqual (policy : NetworkRoutePolicy.t) (gateways : list NetworkRoutePolicyGateway.t)
    (mtu metric : Z) : bool :=
  (NetworkRoutePolicy.MTU policy =? mtu) && (NetworkRoutePolicy.Metric policy =? metric) &&
  (NetworkRoutePolicy.Gateways policy == gateways).

Definition networkRoutePolicyUpdateAvailable (network : Network.t) : bool :=
  (NetworkCARotation.Phase (Network.CARotation network) == "") &&
  (NetworkFirewallRollout.Phase (Network.FirewallRollout network) == "") &&
  routeTransferTerminal (Network.RouteTransfer network) &&
  routeProfileEditTerminal (Network.RouteProfileEdit network).

Definition live_node (networkID : string) (node : Node.t) : bool :=
  (Node.NetworkID node == networkID) && (Node.Status node == "active") && enrolled node.
Definition prefix_text_le (a b : string) : bool :=
  prefix_le (default (Prefix 0 0) (ParsePrefix a)) (default (Prefix 0 0) (ParsePrefix b)).
Definition liveRoutedPrefixes (state : State.t) (networkID : string) : list string :=
  sort_by prefix_text_le (remove_dups (mjoin ((λ node, elems (Node.RoutedSubnets node)) <$>
    filter (λ node, live_node networkID node = true) (State.Nodes state)))).

(** ** Storing a policy *)
Definition put_policy (policies : list NetworkRoutePolicy.t) (policy : NetworkRoutePolicy.t) :
    list NetworkRoutePolicy.t :=
  let '(index, found) := BinarySearchFunc policies (NetworkRoutePolicy.Prefix policy) in
  if found then <[index := policy]> policies else take index policies ++ policy :: drop index policies.

Definition policy_schema (state : State.t) : bool :=
  contains [ControlStateVersionRoutePolicies; ControlStateVersionNativeDNS; ControlStateVersionFirewallScopes]
    (State.Version state).

Definition updateNetworkRoutePolicy (eventID : string) (now : time) (actor : option Actor.t) (networkID : string)
    (input : UpdateNetworkRoutePolicyInput.t) (state : State.t) : result State.t :=
  let networkID := TrimSpace networkID in
  let requestID := TrimSpace (UpdateNetworkRoutePolicyInput.RequestID input) in
  let mtu := UpdateNetworkRoutePolicyInput.MTU input in
  let metric := UpdateNetworkRoutePolicyInput.Metric input in
  let expected := UpdateNetworkRoutePolicyInput.ExpectedConfigRevision input in
  match parseCanonicalRoutedSubnet (TrimSpace (UpdateNetworkRoutePolicyInput.Prefix input)),
        normalizeRoutePolicyGatewayInput (UpdateNetworkRoutePolicyInput.Gateways input) with
  | Ok prefix, Ok gateways =>
      fail ErrInvalid when negb (validPersistedID networkID) || negb (is_ok (validateRoutePolicyControls mtu metric))
        || (expected <? 1) || negb (validRouteTransferRequestID requestID);;
      let prefix := prefix_string prefix in
      fail (ErrOther "route-policy update requires a valid timestamp") when IsZero now;;
      fail ErrConflict when negb (policy_schema state);;
      '(index, network) ← of_option (network_at state networkID) ErrNotFound;
      let owners := activeRouteOwners state (Network.ID network) prefix in
      fail ErrNotFound when (length owners =? 0)%nat;;
      fail ErrConflict when negb (routePolicyOwnersMatch gateways owners);;
      let replayed := match storedRoutePolicy network prefix with
                      | Some existing => if NetworkRoutePolicy.RequestID existing == requestID then Some existing else None
                      | None => None
                      end in
      match replayed with
      | Some existing =>
          fail ErrConflict when negb (routePolicySettingsEqual existing gateways mtu metric);;
          Ok state
      | None =>
          fail ErrConflict when negb (networkRoutePolicyUpdateAvailable network)
            || negb (Network.ConfigRevision network =? expected);;
          nextRevision ← nextConfigRevision (Network.ConfigRevision network) true;
          let policy := NetworkRoutePolicy.make prefix gateways mtu metric requestID nextRevision now in
          let network := network
            <| Network.RoutePolicies := Some (put_policy (elems (Network.RoutePolicies network)) policy) |>
            <| Network.ConfigRevision := nextRevision |> <| Network.ConfigUpdatedAt := now |> in
          event ← newOptionalAttributedAudit eventID now "network.route_policy_updated" "network" (Network.ID network)
            [("request_id", DString requestID); ("prefix", DString prefix);
             ("gateway_count", DInt (Z.of_nat (length gateways))); ("mtu", DInt mtu); ("metric", DInt metric);
             ("previous_config_revision", DInt expected); ("config_revision", DInt nextRevision)] actor;
          Ok (append_audit (put_network state index network) event)
      end
  | _, _ => Err ErrInvalid
  end.

(** ** Reconciliation and the persisted-state check *)
Definition reconcile_policy (state : State.t) (networkID : string) (policy : NetworkRoutePolicy.t) :
    option NetworkRoutePolicy.t :=
  let owners := activeRouteOwners state networkID (NetworkRoutePolicy.Prefix policy) in
  if (length owners =? 0)%nat then None
  else Some (policy <| NetworkRoutePolicy.Gateways :=
                        gateways_of owners (weight_of (NetworkRoutePolicy.Gateways policy)) |>).
Definition reconcileNetworkRoutePolicies (state : State.t) (network : Network.t) : Network.t :=
  if empty_slice (Network.RoutePolicies network) then network
  else network <| Network.RoutePolicies :=
         Some (omap (reconcile_policy state (Network.ID network)) (elems (Network.RoutePolicies network))) |>.

Definition validateRoutePolicy (state : State.t) (network : Network.t) (previous : string)
    (policy : NetworkRoutePolicy.t) : result unit :=
  let text := NetworkRoutePolicy.Prefix policy in
  match parseCanonicalRoutedSubnet text with
  | Err _ => Err (ErrOther "route policies are not canonical and deterministically ordered")
  | Ok prefix =>
      fail (ErrOther "route policies are not canonical and deterministically ordered")
        when (prefix_string prefix != text) || ((previous != "") && str_le text previous);;
      _ ← validateRoutePolicyControls (NetworkRoutePolicy.MTU policy) (NetworkRoutePolicy.Metric policy);
      match normalizeRoutePolicyGatewayInput (NetworkRoutePolicy.Gateways policy) with
      | Err _ => Err (ErrOther "route policy gateways are invalid or non-canonical")
      | Ok gateways =>
          fail (ErrOther "route policy gateways are invalid or non-canonical")
            when gateways != NetworkRoutePolicy.Gateways policy;;
          fail (ErrOther "route policy gateways do not match active certificate owners")
            when negb (routePolicyOwnersMatch (NetworkRoutePolicy.Gateways policy)
                         (activeRouteOwners state (Network.ID network) text));;
          fail (ErrOther "route policy receipt metadata is invalid")
            when negb (validRouteTransferRequestID (NetworkRoutePolicy.RequestID policy))
              || (NetworkRoutePolicy.ConfigRevision policy <? 1)
              || (Network.ConfigRevision network <? NetworkRoutePolicy.ConfigRevision policy)
              || IsZero (NetworkRoutePolicy.UpdatedAt policy);;
          Ok tt
      end
  end.
Fixpoint validate_policies_loop (state : State.t) (network : Network.t) (previous : string)
    (policies : list NetworkRoutePolicy.t) : result unit :=
  match policies with
  | [] => Ok tt
  | policy :: rest =>
      _ ← validateRoutePolicy state network previous policy;
      validate_policies_loop state network (NetworkRoutePolicy.Prefix policy) rest
  end.
Definition validateNetworkRoutePolicies (state : State.t) (network : Network.t) : result unit :=
  validate_policies_loop state network "" (elems (Network.RoutePolicies network)).

(** ** Binary search *)
Definition by_prefix (a b : NetworkRoutePolicy.t) : Prop :=
  str_lt (NetworkRoutePolicy.Prefix a) (NetworkRoutePolicy.Prefix b) = true.
Definition prefixes_sorted (policies : list NetworkRoutePolicy.t) : Prop := StronglySorted by_prefix policies.

Lemma str_lt_le a b : str_lt a b = true → str_le a b = true ∧ a ≠ b.
Proof.
  rewrite str_lt_iff. intros H. destruct (str_le_total a b) as [E|E]; [|congruence].
  split; [done|]. intros ->. by rewrite str_le_refl in H.
Qed.
Lemma str_lt_trans_le a b c : str_lt a b = true → str_le b c = true → str_lt a c = true.
Proof.
  rewrite !str_lt_iff. intros H Hbc. apply not_true_iff_false. intros Hca.
  apply not_true_iff_false in H. eauto.
Qed.
Lemma str_le_trans_lt a b c : str_le a b = true → str_lt b c = true → str_lt a c = true.
Proof.
  rewrite !str_lt_iff. intros Hab H. apply not_true_iff_false. intros Hca.
  apply not_true_iff_false in H. eauto.
Qed.

Lemma sorted_lookup policies i j a b :
  prefixes_sorted policies → policies !! i = Some a → policies !! j = Some b → (i < j)%nat → by_prefix a b.
Proof.
  intros Hs. revert i j. induction Hs as [|x l Hs IH Hx]; intros i j; [done|].
  destruct i as [|i], j as [|j]; simpl; intros Ha Hb Hij; [lia| |lia|].
  - injection Ha as <-. eapply Forall_lookup_1 in Hx; eauto.
  - eapply IH; eauto. lia.
Qed.

(** [below k]: every policy before index [k] has a smaller prefix, none from [k] on. *)
Definition splits_at (policies : list NetworkRoutePolicy.t) (target : string) (i j : nat) : Prop :=
  (i ≤ j ≤ length policies)%nat ∧
  (∀ k p, policies !! k = Some p → (k < i)%nat → str_lt (NetworkRoutePolicy.Prefix p) target = true) ∧
  (∀ k p, policies !! k = Some p → (j ≤ k)%nat → str_lt (NetworkRoutePolicy.Prefix p) target = false).

Lemma binary_search_splits fuel policies target i j :
  prefixes_sorted policies → splits_at policies target i j → (j - i ≤ fuel)%nat →
  let r := binary_search fuel policies target i j in splits_at policies target r r.
Proof.
  intros Hs. revert i j. induction fuel as [|fuel IH]; intros i j (Hij & Hlo & Hhi) Hf; cbn [binary_search].
  { assert (i = j) as -> by lia. done. }
  destruct (Nat.ltb_spec i j); [|assert (i = j) as -> by lia; done].
  set (h := ((i + j) / 2)%nat). assert (i ≤ h < j)%nat as Hh.
  { unfold h. split; [apply Nat.div_le_lower_bound|apply Nat.Div0.div_lt_upper_bound]; lia. }
  destruct (lookup_lt_is_Some_2 policies h) as [p Hp]; [lia|]. rewrite Hp.
  destruct (str_lt (NetworkRoutePolicy.Prefix p) target) eqn:E.
  - apply IH; [|lia]. split_and!; [lia|lia| |done]. intros k q Hq Hk.
    destruct (decide (k = h)) as [->|]; [congruence|].
    pose proof (sorted_lookup _ _ _ _ _ Hs Hq Hp ltac:(lia)) as Hqp.
    apply str_lt_le in E as [E _]. by eapply str_lt_trans_le.
  - apply IH; [|lia]. split_and!; [lia|lia|done|]. intros k q Hq Hk.
    destruct (decide (k = h)) as [->|]; [congruence|].
    pose proof (sorted_lookup _ _ _ _ _ Hs Hp Hq ltac:(lia)) as Hpq.
    apply not_true_iff_false. intros Hq'. apply not_true_iff_false in E. apply E.
    apply str_lt_le in Hpq as [Hpq _]. by eapply str_le_trans_lt.
Qed.

Lemma search_splits policies target : prefixes_sorted policies →
  splits_at policies target (fst (BinarySearchFunc policies target)) (fst (BinarySearchFunc policies target)).
Proof.
  intros Hs. apply binary_search_splits; [done| |lia]. split_and!; [lia|lia|lia|].
  intros k p Hp Hk. apply lookup_lt_Some in Hp. lia.
Qed.

Lemma search_found policies target i :
  prefixes_sorted policies → BinarySearchFunc policies target = (i, true) →
  ∃ p, policies !! i = Some p ∧ NetworkRoutePolicy.Prefix p = target.
Proof.
  unfold BinarySearchFunc. intros _ [= <- Hf]. destruct (policies !! _) as [p|] eqn:E; [|done].
  apply bool_decide_eq_true in Hf. eauto.
Qed.

Lemma search_missing policies target i p :
  prefixes_sorted policies → BinarySearchFunc policies target = (i, false) → p ∈ policies →
  NetworkRoutePolicy.Prefix p ≠ target.
Proof.
  intros Hs Hb Hp E. pose proof (search_splits policies target Hs) as (_ & Hlo & Hhi). rewrite Hb in *. simpl in *.
  apply list_elem_of_lookup_1 in Hp as [k Hk].
  assert (str_lt (NetworkRoutePolicy.Prefix p) target = false) as Hnl
    by (apply not_true_iff_false; intros [_ ?]%str_lt_le; done).
  assert (i ≤ k)%nat as Hik.
  { apply Nat.nlt_ge. intros Hlt. specialize (Hlo k p Hk Hlt). congruence. }
  destruct (decide (k = i)) as [->|].
  - unfold BinarySearchFunc in Hb. injection Hb as Hi Hf. rewrite Hi, Hk in Hf.
    by apply bool_decide_eq_false in Hf.
  - destruct (lookup_lt_is_Some_2 policies i) as [q Hq]; [apply lookup_lt_Some in Hk; lia|].
    pose proof (sorted_lookup _ _ _ _ _ Hs Hq Hk ltac:(lia)) as Hqp. unfold by_prefix in Hqp. rewrite E in Hqp.
    rewrite (Hhi i q Hq) in Hqp; [done|lia].
Qed.

Lemma sorted_prefix_inj policies p q :
  prefixes_sorted policies → p ∈ policies → q ∈ policies →
  NetworkRoutePolicy.Prefix p = NetworkRoutePolicy.Prefix q → p = q.
Proof.
  intros Hs [i Hi]%list_elem_of_lookup_1 [j Hj]%list_elem_of_lookup_1 E.
  destruct (lt_eq_lt_dec i j) as [[Hlt| ->]|Hlt]; [|congruence|].
  - apply (sorted_lookup _ _ _ _ _ Hs Hi Hj), str_lt_le in Hlt as [_ ?]. done.
  - apply (sorted_lookup _ _ _ _ _ Hs Hj Hi), str_lt_le in Hlt as [_ ?]. by rewrite E in *.
Qed.

Lemma stored_iff network prefix policy :
  prefixes_sorted (elems (Network.RoutePolicies network)) →
  storedRoutePolicy network prefix = Some policy ↔
  policy ∈ elems (Network.RoutePolicies network) ∧ NetworkRoutePolicy.Prefix policy = prefix.
Proof.
  intros Hs. unfold storedRoutePolicy. destruct (BinarySearchFunc _ prefix) as [i [|]] eqn:E; simpl.
  - apply search_found in E as (p & Hp & Hpp); [|done]. rewrite Hp. split.
    + intros [= <-]. split; [|done]. by eapply list_elem_of_lookup_2.
    + intros [Hin <-]. f_equal. eapply sorted_prefix_inj; eauto. by eapply list_elem_of_lookup_2.
  - split; [done|]. intros [Hin Hpp]. by destruct (search_missing _ _ _ _ Hs E Hin).
Qed.

Lemma sorted_app policies policies' :
  prefixes_sorted policies → prefixes_sorted policies' →
  (∀ a b, a ∈ policies → b ∈ policies' → by_prefix a b) → prefixes_sorted (policies ++ policies').
Proof.
  unfold prefixes_sorted. induction 1 as [|x l Hs IH Hx]; simpl; [done|]. intros Hs' Hc. constructor.
  - apply IH; [done|]. intros a b ??. apply Hc; [by constructor|done].
  - apply Forall_app. split; [done|]. apply Forall_forall. intros b Hb. apply Hc; [constructor|done].
Qed.

Lemma sorted_take_drop n policies :
  prefixes_sorted policies → prefixes_sorted (take n policies) ∧ prefixes_sorted (drop n policies).
Proof.
  intros Hs. revert n. induction Hs as [|x l Hs IH Hx]; intros [|n]; simpl; try by (split; constructor).
  destruct (IH n) as [Ht Hd]. split; [|done]. constructor; [done|].
  rewrite Forall_forall in *. intros y Hy. apply Hx. eapply elem_of_sublist; [exact Hy|apply sublist_take].
Qed.

Lemma put_policy_missing policies policy i :
  prefixes_sorted policies → BinarySearchFunc policies (NetworkRoutePolicy.Prefix policy) = (i, false) →
  prefixes_sorted (take i policies ++ policy :: drop i policies).
Proof.
  intros Hs Hb. pose proof (search_splits policies (NetworkRoutePolicy.Prefix policy) Hs) as (Hi & Hlo & Hhi).
  rewrite Hb in Hi, Hlo, Hhi. simpl in *. destruct (sorted_take_drop i policies Hs) as [Ht Hd].
  assert (∀ a, a ∈ take i policies → by_prefix a policy) as Hta.
  { intros a [k Hk]%list_elem_of_lookup_1. apply lookup_take_Some in Hk as [Hk ?]. by eapply Hlo. }
  assert (∀ b, b ∈ drop i policies → by_prefix policy b) as Htb.
  { intros b [k Hk]%list_elem_of_lookup_1. rewrite lookup_drop in Hk.
    pose proof (Hhi (i + k)%nat b Hk ltac:(lia)) as Hnl. unfold by_prefix. apply str_lt_iff.
    apply not_true_iff_false. intros Hle. apply not_true_iff_false in Hnl. apply Hnl, str_lt_iff.
    apply not_true_iff_false. intros Hle'. apply list_elem_of_lookup_2 in Hk.
    apply (search_missing _ _ _ _ Hs Hb Hk). by apply str_le_antisym. }
  apply sorted_app; [done| |].
  - constructor; [done|]. apply Forall_forall. auto.
  - intros a b Ha [->|Hb']%elem_of_cons; [auto|]. specialize (Htb b Hb'). apply str_lt_le in Htb as [Hle _].
    eapply str_lt_trans_le; [by apply Hta|done].
Qed.

Lemma put_policy_found policies policy i :
  prefixes_sorted policies → BinarySearchFunc policies (NetworkRoutePolicy.Prefix policy) = (i, true) →
  prefixes_sorted (<[i := policy]> policies).
Proof.
  intros Hs Hb. apply search_found in Hb as (p & Hp & E); [|done].
  clear -Hs Hp E. revert i Hp. induction Hs as [|x l Hs IH Hx]; intros i Hp; [done|].
  destruct i as [|i]; simpl in *.
  - injection Hp as ->. constructor; [done|]. unfold by_prefix in *. by rewrite <- E.
  - constructor; [by apply IH|]. rewrite Forall_forall in *. intros y Hy.
    apply list_elem_of_lookup_1 in Hy as [k Hk]. destruct (decide (k = i)) as [->|].
    + rewrite list_lookup_insert_eq in Hk by (by eapply lookup_lt_Some). injection Hk as <-.
      unfold by_prefix in *. rewrite <- E. apply Hx. by eapply list_elem_of_lookup_2.
    + rewrite list_lookup_insert_ne in Hk by done. apply Hx. by eapply list_elem_of_lookup_2.
Qed.

Lemma put_policy_sorted policies policy : prefixes_sorted policies → prefixes_sorted (put_policy policies policy).
Proof.
  intros Hs. unfold put_policy. destruct (BinarySearchFunc _ _) as [i [|]] eqn:E;
    auto using put_policy_found, put_policy_missing.
Qed.

Lemma elem_of_put_policy policies policy p :
  prefixes_sorted policies →
  p ∈ put_policy policies policy ↔
  p = policy ∨ (p ∈ policies ∧ NetworkRoutePolicy.Prefix p ≠ NetworkRoutePolicy.Prefix policy).
Proof.
  intros Hs. unfold put_policy. destruct (BinarySearchFunc _ _) as [i [|]] eqn:E.
  - pose proof E as E'. apply search_found in E as (q & Hq & Hqp); [|done]. split.
    + intros [k Hk]%list_elem_of_lookup_1. destruct (decide (k = i)) as [->|Hne].
      * rewrite list_lookup_insert_eq in Hk by (by eapply lookup_lt_Some). left. congruence.
      * rewrite list_lookup_insert_ne in Hk by done. right. split; [by eapply list_elem_of_lookup_2|].
        rewrite <- Hqp. intros Heq.
        assert (p = q) as -> by (eapply sorted_prefix_inj; eauto; by eapply list_elem_of_lookup_2).
        destruct (lt_eq_lt_dec k i) as [[Hlt| ->]|Hlt]; [|done|].
        -- apply (sorted_lookup _ _ _ _ _ Hs Hk Hq), str_lt_le in Hlt as [_ ?]. done.
        -- apply (sorted_lookup _ _ _ _ _ Hs Hq Hk), str_lt_le in Hlt as [_ ?]. done.
    + intros [->|[[k Hk]%list_elem_of_lookup_1 Hne]].
      * eapply list_elem_of_lookup_2. apply list_lookup_insert_eq. by eapply lookup_lt_Some.
      * eapply (list_elem_of_lookup_2 _ k). rewrite list_lookup_insert_ne; [done|]. intros ->. congruence.
  - rewrite elem_of_app, elem_of_cons.
    assert (p ∈ policies ↔ p ∈ take i policies ∨ p ∈ drop i policies) as Hin
      by (rewrite <- elem_of_app; by rewrite take_drop).
    split; [|tauto]. intros [?|[->|?]]; [right|by left|right]; (split; [tauto|]);
      eapply (search_missing _ _ _ _ Hs E); tauto.
Qed.

(** Storing a route policy and looking it up agree: after the update the
    policies are still sorted by prefix, the binary search finds the new policy
    under its prefix, and every other prefix has the policy it had before. *)
Theorem route_policy_insert_lookup network policy prefix :
  prefixes_sorted (elems (Network.RoutePolicies network)) →
  let network' := network <| Network.RoutePolicies :=
                    Some (put_policy (elems (Network.RoutePolicies network)) policy) |> in
  prefixes_sorted (elems (Network.RoutePolicies network')) ∧
  storedRoutePolicy network' prefix =
    (if NetworkRoutePolicy.Prefix policy == prefix then Some policy else storedRoutePolicy network prefix).
Proof.
  intros Hs network'. assert (prefixes_sorted (elems (Network.RoutePolicies network'))) as Hs'
    by (by apply put_policy_sorted). split; [done|].
  assert (∀ p, storedRoutePolicy network' prefix = Some p ↔
    (p = policy ∧ NetworkRoutePolicy.Prefix policy = prefix) ∨
    (NetworkRoutePolicy.Prefix policy ≠ prefix ∧ storedRoutePolicy network prefix = Some p)) as Hiff.
  { intros p. rewrite !stored_iff by done. simpl. rewrite elem_of_put_policy by done. naive_solver. }
  case_bool_decide as E.
  - apply Hiff. naive_solver.
  - destruct (storedRoutePolicy network' prefix) as [p|] eqn:Ep.
    + destruct (proj1 (Hiff p) eq_refl) as [[_ ?]|[_ ?]]; done.
    + destruct (storedRoutePolicy network prefix) as [p|] eqn:Ep'; [|done].
      assert (None = Some p) by (apply Hiff; naive_solver). done.
Qed.

Definition example_policy (p : string) : NetworkRoutePolicy.t :=
  NetworkRoutePolicy.make p [NetworkRoutePolicyGateway.make "a" 3; NetworkRoutePolicyGateway.make "b" 1] 1400 5
    "request-0000000001" 1 7.
Lemma route_policy_insert_lookup_witness :
  storedRoutePolicy (Network.zero <| Network.RoutePolicies :=
    Some (put_policy [example_policy "10.9.0.0/16"] (example_policy "10.8.0.0/16")) |>) "10.8.0.0/16"
  = Some (example_policy "10.8.0.0/16").
Proof.
  refine (proj2 (route_policy_insert_lookup
    (Network.zero <| Network.RoutePolicies := Some [example_policy "10.9.0.0/16"] |>)
    (example_policy "10.8.0.0/16") "10.8.0.0/16" _)).
  repeat constructor.
Defined.

(** ** Reconciliation *)
Definition valid_gateway (g : NetworkRoutePolicyGateway.t) : Prop :=
  validPersistedID (NetworkRoutePolicyGateway.NodeID g) = true ∧ 1 ≤ NetworkRoutePolicyGateway.Weight g ≤ 1000.

Lemma validPersistedID_trim s : validPersistedID s = true → TrimSpace s = s.
Proof. unfold validPersistedID. destruct (_ || _) eqn:E; [done|]. intros _. by split_bools. Qed.

Lemma gateways_loop_valid seen values out :
  normalize_gateways_loop seen values = Ok out → Forall valid_gateway out.
Proof.
  revert seen out. induction values as [|g values IH]; intros seen out; simpl; [intros [= <-]; constructor|].
  intros H. inv_ok. subst. constructor; [|by eapply IH]. split_bools. unfold valid_gateway, maxRoutePolicyWeight in *.
  split; [done|]. simpl in *. lia.
Qed.

Lemma gateways_loop_complete seen values :
  Forall valid_gateway values → NoDup (NetworkRoutePolicyGateway.NodeID <$> values) →
  Forall (λ g, NetworkRoutePolicyGateway.NodeID g ∉ seen) values →
  normalize_gateways_loop seen values = Ok values.
Proof.
  revert seen. induction values as [|g values IH]; intros seen Hv Hnd Hs; [done|].
  apply Forall_cons in Hv as [[Hid Hw] Hv]. apply Forall_cons in Hs as [Hg Hs].
  csimpl in Hnd. apply NoDup_cons in Hnd as [Hn Hnd]. cbn [normalize_gateways_loop].
  rewrite (validPersistedID_trim _ Hid).
  assert (g <| NetworkRoutePolicyGateway.NodeID := NetworkRoutePolicyGateway.NodeID g |> = g) as -> by (by destruct g).
  rewrite Hid. unfold maxRoutePolicyWeight.
  rewrite (proj2 (Z.ltb_ge _ 1)), (proj2 (Z.ltb_ge 1000 _)) by lia. cbn.
  rewrite (proj2 (contains_false _ _)) by done. cbn. rewrite IH; [done|done|done|].
  rewrite Forall_forall in *. intros x Hx [E|?]%elem_of_cons; [|by eapply Hs].
  apply Hn. rewrite <- E. by apply list_elem_of_fmap_2.
Qed.

Lemma weight_of_range gateways nodeID :
  Forall valid_gateway gateways → weight_of gateways nodeID = 0 ∨ 1 ≤ weight_of gateways nodeID ≤ 1000.
Proof.
  unfold weight_of. assert (∀ acc, Forall valid_gateway gateways → acc = 0 ∨ 1 ≤ acc ≤ 1000 →
    let w := foldl (λ acc g, if NetworkRoutePolicyGateway.NodeID g == nodeID
                             then NetworkRoutePolicyGateway.Weight g else acc) acc gateways in
    w = 0 ∨ 1 ≤ w ≤ 1000) as H; [|intros; apply H; auto].
  induction gateways as [|g l IH]; intros acc Hv Ha; simpl; [done|].
  apply Forall_cons in Hv as [[_ ?] Hv]. apply IH; [done|]. case_bool_decide; auto.
Qed.

(** The owners of a prefix in a state with distinct, valid node identifiers. *)
Definition ids_ok (state : State.t) : Prop :=
  NoDup (Node.ID <$> State.Nodes state) ∧ Forall (λ node, validPersistedID (Node.ID node) = true) (State.Nodes state).

Lemma node_le_total a b : node_le a b = true ∨ node_le b a = true.
Proof. apply str_le_total. Qed.
Lemma node_le_trans a b c : node_le a b = true → node_le b c = true → node_le a c = true.
Proof. apply str_le_trans. Qed.

Lemma elem_of_owners state networkID prefix node :
  node ∈ activeRouteOwners state networkID prefix ↔ node ∈ State.Nodes state ∧ owns_route networkID prefix node = true.
Proof. unfold activeRouteOwners. rewrite sort_by_elem, list_elem_of_filter. tauto. Qed.

Lemma owners_ids state networkID prefix : ids_ok state →
  NoDup (Node.ID <$> activeRouteOwners state networkID prefix) ∧
  StronglySorted (holds node_le) (activeRouteOwners state networkID prefix) ∧
  Forall (λ node, validPersistedID (Node.ID node) = true) (activeRouteOwners state networkID prefix).
Proof.
  intros [Hnd Hv]. split_and!.
  - unfold activeRouteOwners. rewrite (fmap_Permutation Node.ID _ _ (sort_by_perm node_le _)).
    eapply sublist_NoDup; [done|]. apply fmap_sublist, sublist_filter.
  - apply sort_by_sorted; [apply node_le_total|apply node_le_trans].
  - apply Forall_forall. intros node [Hin _]%elem_of_owners. rewrite Forall_forall in Hv. auto.
Qed.

Lemma gateways_of_ids owners weights :
  NetworkRoutePolicyGateway.NodeID <$> gateways_of owners weights = Node.ID <$> owners.
Proof. unfold gateways_of. rewrite <- list_fmap_compose. by apply list_fmap_ext. Qed.

Lemma reconciled_gateways_normal state networkID prefix gateways :
  ids_ok state → Forall valid_gateway gateways →
  let owners := activeRouteOwners state networkID prefix in
  owners ≠ [] → Z.of_nat (length owners) ≤ 8 →
  normalizeRoutePolicyGatewayInput (gateways_of owners (weight_of gateways)) =
    Ok (gateways_of owners (weight_of gateways)).
Proof.
  intros Hids Hg owners Hne Hlen. destruct (owners_ids state networkID prefix Hids) as (Hnd & Hs & Hv).
  fold owners in Hnd, Hs, Hv. set (gs := gateways_of owners (weight_of gateways)).
  assert (length gs = length owners) as Hgl by (unfold gs, gateways_of; by rewrite length_fmap).
  assert (1 ≤ length owners)%nat by (destruct owners; simpl in *; [done|lia]).
  unfold normalizeRoutePolicyGatewayInput, maxRoutePolicyGateways. rewrite Hgl.
  rewrite (proj2 (Z.ltb_ge _ 1)), (proj2 (Z.ltb_ge 8 _)) by lia. cbn.
  rewrite gateways_loop_complete; cbn.
  - f_equal. assert (∀ a b, a ∈ gs → b ∈ gs → gateway_le a b = true → gateway_le b a = true → a = b) as Ha.
    { intros a b Ha Hb Hab Hba. unfold gs, gateways_of in Ha, Hb.
      apply list_elem_of_fmap in Ha as (x & -> & _), Hb as (y & -> & _).
      unfold gateway_le in *. simpl in *. by rewrite (str_le_antisym _ _ Hab Hba). }
    apply (sorted_unique_on (holds gateway_le)).
    + intros x y Hx%sort_by_elem Hy%sort_by_elem. by apply Ha.
    + apply sort_by_sorted; intros *; [apply str_le_total|apply str_le_trans].
    + unfold gs, gateways_of. clear -Hs. induction Hs as [|x l Hs IH Hx]; simpl; constructor; [done|].
      apply Forall_fmap. eapply Forall_impl; [exact Hx|]. done.
    + apply sort_by_perm.
  - unfold gs, gateways_of. apply Forall_fmap. eapply Forall_impl; [exact Hv|]. intros node Hn. split; [done|].
    simpl. destruct (weight_of_range gateways (Node.ID node) Hg) as [E|?].
    + rewrite E. simpl. lia.
    + case_match; lia.
  - unfold gs. by rewrite gateways_of_ids.
  - apply Forall_true. intros. apply not_elem_of_nil.
Qed.

(** Validating a policy after the one before it is no smaller. *)
Lemma validate_reconciled state state' network previous previous' policy :
  validateRoutePolicy state network previous policy = Ok tt → str_le previous' previous = true →
  ids_ok state' →
  Z.of_nat (length (activeRouteOwners state' (Network.ID network) (NetworkRoutePolicy.Prefix policy))) ≤ 8 →
  match reconcile_policy state' (Network.ID network) policy with
  | Some policy' => validateRoutePolicy state' network previous' policy' = Ok tt
  | None => True
  end ∧ str_le previous' (NetworkRoutePolicy.Prefix policy) = true.
Proof.
  intros H Hle Hids Hlen. unfold validateRoutePolicy in H.
  destruct (parseCanonicalRoutedSubnet (NetworkRoutePolicy.Prefix policy)) as [p|] eqn:Hp; [|done].
  apply bind_Ok in H as (? & Hord%fail_if_Ok & H). apply bind_Ok in H as (? & Hctl & H).
  destruct (normalizeRoutePolicyGatewayInput _) as [gs|] eqn:Hgs; [|done].
  apply bind_Ok in H as (? & Hg%fail_if_Ok & H). apply bind_Ok in H as (? & _ & H).
  apply bind_Ok in H as (? & Hr%fail_if_Ok & _).
  apply negb_orb_false in Hord as [Ht Hord]. apply negb_false_iff, bool_decide_eq_true in Ht.
  apply negb_false_iff, bool_decide_eq_true in Hg. subst gs.
  assert ((previous' != "") && str_le (NetworkRoutePolicy.Prefix policy) previous' = false ∧
    str_le previous' (NetworkRoutePolicy.Prefix policy) = true) as [Hord' Hle'].
  { destruct (decide (previous = "")) as [->|Hne].
    - assert (previous' = "") as -> by (by destruct previous'). split; [done|].
      by destruct (NetworkRoutePolicy.Prefix policy).
    - rewrite (bool_decide_eq_false_2 _ Hne) in Hord. simpl in Hord. apply str_lt_iff in Hord.
      pose proof (str_le_trans_lt _ _ _ Hle Hord) as Hlt. pose proof (str_lt_le _ _ Hlt) as [? _].
      apply str_lt_iff in Hlt. rewrite Hlt, andb_false_r. done. }
  split; [|done]. unfold reconcile_policy.
  set (owners := activeRouteOwners state' (Network.ID network) (NetworkRoutePolicy.Prefix policy)) in *.
  destruct (Nat.eqb_spec (length owners) 0) as [|Hne]; [done|].
  assert (Forall valid_gateway (NetworkRoutePolicy.Gateways policy)) as Hvg.
  { unfold normalizeRoutePolicyGatewayInput in Hgs. apply bind_Ok in Hgs as (? & _ & Hgs).
    apply bind_Ok in Hgs as (l & Hl%gateways_loop_valid & [= <-]). by apply Forall_sort_by. }
  pose proof (reconciled_gateways_normal state' (Network.ID network) (NetworkRoutePolicy.Prefix policy)
    (NetworkRoutePolicy.Gateways policy) Hids Hvg) as Hn. fold owners in Hn.
  specialize (Hn ltac:(intros E; by rewrite E in Hne) Hlen).
  unfold validateRoutePolicy.
  cbn [over NetworkRoutePolicy.Prefix NetworkRoutePolicy.MTU NetworkRoutePolicy.Metric NetworkRoutePolicy.Gateways
       NetworkRoutePolicy.RequestID NetworkRoutePolicy.ConfigRevision NetworkRoutePolicy.UpdatedAt].
  rewrite Hp, (bool_decide_eq_true_2 _ Ht), Hord', Hctl, Hn. fold owners.
  rewrite (bool_decide_eq_true_2 _ eq_refl). unfold routePolicyOwnersMatch. rewrite gateways_of_ids.
  rewrite (bool_decide_eq_true_2 _ eq_refl). unfold gateways_of at 1. rewrite length_fmap, Nat.eqb_refl.
  cbn [mbind result_bind fail_if negb orb andb]. by rewrite Hr.
Qed.

Lemma reconcile_loop state state' network policies previous previous' :
  ids_ok state' →
  (∀ p, p ∈ policies → Z.of_nat (length (activeRouteOwners state' (Network.ID network) (NetworkRoutePolicy.Prefix p))) ≤ 8) →
  validate_policies_loop state network previous policies = Ok tt → str_le previous' previous = true →
  validate_policies_loop state' network previous' (omap (reconcile_policy state' (Network.ID network)) policies) = Ok tt.
Proof.
  intros Hids. revert previous previous'. induction policies as [|p l IH]; intros previous previous' Hlen; [done|].
  cbn [validate_policies_loop]. intros H Hle. apply bind_Ok in H as (u & Hp & Hl). destruct u.
  destruct (validate_reconciled _ state' _ _ previous' _ Hp Hle Hids) as [Hr Hle']; [apply Hlen; constructor|].
  assert (∀ q, q ∈ l → Z.of_nat (length (activeRouteOwners state' (Network.ID network) (NetworkRoutePolicy.Prefix q))) ≤ 8)
    as Hlen' by (intros; apply Hlen; by constructor).
  csimpl. destruct (reconcile_policy state' (Network.ID network) p) as [p'|] eqn:E.
  - cbn [validate_policies_loop]. rewrite Hr. cbn [mbind result_bind].
    assert (NetworkRoutePolicy.Prefix p' = NetworkRoutePolicy.Prefix p) as ->.
    { unfold reconcile_policy in E. destruct (_ =? 0)%nat; [done|]. by injection E as <-. }
    by eapply IH.
  - by eapply IH.
Qed.

Lemma validate_loop_network state network network' previous policies :
  Network.ID network' = Network.ID network → Network.ConfigRevision network' = Network.ConfigRevision network →
  validate_policies_loop state network' previous policies = validate_policies_loop state network previous policies.
Proof.
  intros E1 E2. revert previous. induction policies as [|p l IH]; intros previous; [done|].
  cbn [validate_policies_loop]. unfold validateRoutePolicy. by rewrite E1, E2, IH.
Qed.

(** Reconciliation restores the route-policy invariant: whatever the owners
    of the prefixes have become, a network whose stored policies were valid has
    valid policies after reconcileNetworkRoutePolicies, each with exactly the
    current live owners as gateways, as long as node identifiers are distinct and
    no prefix has more than eight owners. *)
Theorem reconcile_restores_policies state state' network :
  validateNetworkRoutePolicies state network = Ok tt → ids_ok state' →
  (∀ p, p ∈ elems (Network.RoutePolicies network) →
        Z.of_nat (length (activeRouteOwners state' (Network.ID network) (NetworkRoutePolicy.Prefix p))) ≤ 8) →
  validateNetworkRoutePolicies state' (reconcileNetworkRoutePolicies state' network) = Ok tt.
Proof.
  intros H Hids Hlen. unfold validateNetworkRoutePolicies, reconcileNetworkRoutePolicies in *.
  destruct (empty_slice (Network.RoutePolicies network)) eqn:E.
  - unfold empty_slice in E. destruct (elems (Network.RoutePolicies network)); [done|done].
  - rewrite (validate_loop_network state' network) by done. simpl. by eapply reconcile_loop.
Qed.

(** Reconciliation keeps the weight an operator chose for every gateway that
    still owns the prefix, and gives a new gateway weight 1. *)
Theorem reconcile_keeps_weights state networkID policy policy' node :
  reconcile_policy state networkID policy = Some policy' →
  node ∈ activeRouteOwners state networkID (NetworkRoutePolicy.Prefix policy) →
  ∃ w, NetworkRoutePolicyGateway.make (Node.ID node) w ∈ NetworkRoutePolicy.Gateways policy' ∧
    w = (if weight_of (NetworkRoutePolicy.Gateways policy) (Node.ID node) =? 0 then 1
         else weight_of (NetworkRoutePolicy.Gateways policy) (Node.ID node)) ∧
    (∀ g, [g] = filter (λ g, NetworkRoutePolicyGateway.NodeID g = Node.ID node) (NetworkRoutePolicy.Gateways policy) →
          NetworkRoutePolicyGateway.Weight g ≠ 0 → w = NetworkRoutePolicyGateway.Weight g).
Proof.
  unfold reconcile_policy. destruct (_ =? 0)%nat; [done|]. intros [= <-] Hn. simpl.
  set (w := weight_of (NetworkRoutePolicy.Gateways policy) (Node.ID node)).
  exists (if w =? 0 then 1 else w). split_and!; [|done|].
  - unfold gateways_of. apply list_elem_of_fmap. by exists node.
  - intros g Hg Hw. assert (w = NetworkRoutePolicyGateway.Weight g) as ->.
    { unfold w, weight_of. generalize 0. revert Hg. induction (NetworkRoutePolicy.Gateways policy) as [|h l IH]; intros Hg z.
      - done.
      - rewrite filter_cons in Hg. destruct (decide (NetworkRoutePolicyGateway.NodeID h = Node.ID node)) as [E|E].
        + injection Hg as -> Hl. simpl. rewrite bool_decide_eq_true_2 by done.
          generalize (NetworkRoutePolicyGateway.Weight h). clear -Hl. induction l as [|h' l IH]; intros z; simpl; [done|].
          rewrite filter_cons in Hl. case_decide; [done|]. rewrite bool_decide_eq_false_2 by done. by apply IH.
        + simpl. rewrite bool_decide_eq_false_2 by done. by apply IH. }
    by rewrite (proj2 (Z.eqb_neq _ _) Hw).
Qed.

Definition policy_network : Network.t :=
  example_network <| Network.ConfigRevision := 4 |>
    <| Network.RoutePolicies := Some [example_policy "192.168.7.0/24"] |>.
(** Gateway [b] has left, gateway [c] has joined. *)
Definition policy_state' : State.t :=
  example_state <| State.Networks := [policy_network] |>
    <| State.Nodes := [example_gateway "a"; example_gateway "c"] |>.

Lemma reconcile_restores_policies_witness :
  validateNetworkRoutePolicies policy_state' (reconcileNetworkRoutePolicies policy_state' policy_network) = Ok tt.
Proof.
  apply (reconcile_restores_policies example_state).
  - vm_compute. reflexivity.
  - split; [apply (bool_decide_unpack _); vm_compute; exact I|repeat constructor].
  - intros p ->%list_elem_of_singleton. vm_compute. discriminate.
Defined.

Lemma reconcile_keeps_weights_witness :
  ∃ w, NetworkRoutePolicyGateway.make "a" w ∈ [NetworkRoutePolicyGateway.make "a" 3; NetworkRoutePolicyGateway.make "c" 1] ∧ w = 3.
Proof.
  destruct (reconcile_keeps_weights policy_state' "n1" (example_policy "192.168.7.0/24")
    (example_policy "192.168.7.0/24" <| NetworkRoutePolicy.Gateways :=
       [NetworkRoutePolicyGateway.make "a" 3; NetworkRoutePolicyGateway.make "c" 1] |>) (example_gateway "a"))
    as (w & Hin & Hw & _).
  - vm_compute. reflexivity.
  - apply elem_of_owners. split; [constructor|vm_compute; reflexivity].
  - exists w. split; [exact Hin|rewrite Hw; vm_compute; reflexivity].
Defined.
