(* ===== verification/NetworkSettings.v ===== *)
(** * DNS and relay settings (internal/control/dns.go, relays.go)

    The per-network DNS responder and relay selection: their validation, the
    update operations, and the resolver policy handed to a node. *)
From S2P Require Import Prelude GoStd IPv4 Model AuditLog Routes RouteState Reservations Firewall.
From Stdlib Require Import Ascii.

Definition DefaultNetworkDNSPort : Z := 53.
Definition NativeDNSPolicySchema : string := "mesh-native-dns-v1".
Definition NativeDNSPolicyPrefix : string := "# mesh-native-dns-v1 ".
Definition maxNativeDNSResolvers : nat := 8.
Definition MaxNetworkRelayNodes : Z := 8.

(** ** DNS settings *)
Definition defaultNetworkDNSSettings : NetworkDNSSettings.t :=
  NetworkDNSSettings.zero <| NetworkDNSSettings.ListenPort := DefaultNetworkDNSPort |>.
Definition effectiveNetworkDNSSettings (settings : NetworkDNSSettings.t) : NetworkDNSSettings.t :=
  if settings == NetworkDNSSettings.zero then defaultNetworkDNSSettings else settings.

Definition has_suffix (s suffix : string) : bool :=
  match strip_prefix (reverse (bytes_of suffix)) (reverse (bytes_of s)) with Some _ => true | None => false end.

(** [^[a-z0-9](?:[a-z0-9-]{0,61}[a-z0-9])?$] *)
Definition nativeDNSDomainLabelPattern (label : string) : bool :=
  match_class topology_head (λ z, topology_head z || (z =? 45)) 62 label &&
  match reverse (bytes_of label) with c :: _ => topology_head c | [] => false end.

Definition validateNativeDNSDomain (value : string) : result unit :=
  fail ErrInvalid when (value == "") || (253 <? len value) || has_suffix value "." || (value != ToLower value);;
  fail ErrInvalid when negb (forallb nativeDNSDomainLabelPattern (split_on "." value));;
  fail ErrInvalid when (value == "local") || has_suffix value ".local";;
  Ok tt.

Definition validateNetworkDNSSettings (settings : NetworkDNSSettings.t) (nebulaListenPort : Z) : result unit :=
  let enabled := NetworkDNSSettings.Enabled settings in
  let port := NetworkDNSSettings.ListenPort settings in
  fail ErrInvalid when (port <? 1) || (65535 <? port);;
  fail ErrInvalid when negb enabled && negb (port =? DefaultNetworkDNSPort);;
  fail ErrInvalid when enabled && (port =? nebulaListenPort);;
  fail ErrInvalid when negb enabled &&
    (NetworkDNSSettings.NativeResolver settings || (NetworkDNSSettings.SearchDomain settings != ""));;
  if NetworkDNSSettings.NativeResolver settings then validateNativeDNSDomain (NetworkDNSSettings.SearchDomain settings)
  else fail ErrInvalid when NetworkDNSSettings.SearchDomain settings != "";; Ok tt.

Definition normalizeNetworkDNSSettings (enabled : bool) (listenPort : Z) (nativeResolver : bool)
    (searchDomain : string) (nebulaListenPort : Z) : result NetworkDNSSettings.t :=
  let settings := NetworkDNSSettings.make enabled listenPort nativeResolver searchDomain in
  _ ← validateNetworkDNSSettings settings nebulaListenPort;
  Ok settings.

Definition rule_allows_dns (network : prefix) (port : Z) (rule : FirewallRule.t) : bool :=
  (FirewallRule.TargetGroup rule == "") && (FirewallRule.TargetNodeID rule == "") &&
  ((FirewallRule.Proto rule == "any") || (FirewallRule.Proto rule == "udp")) &&
  match parseCanonicalFirewallPort (FirewallRule.Port rule) with
  | Ok p => parsedFirewallPort.any p || ((parsedFirewallPort.start p <=? port) && (port <=? parsedFirewallPort.end_ p))
  | Err _ => false
  end &&
  ((FirewallRule.Group rule == "all") || (FirewallRule.Host rule == "any")
   || (FirewallRule.Host rule == prefix_string network)).
Definition firewallAllowsNetworkDNS (policy : FirewallPolicy.t) (networkCIDR : string) (port : Z) : bool :=
  match ParsePrefix networkCIDR with
  | None => false
  | Some network => existsb (rule_allows_dns network port) (elems (FirewallPolicy.Inbound policy))
  end.

Definition validateNetworkDNSInvariant (network : Network.t) : result unit :=
  let settings := Network.DNSSettings network in
  _ ← validateNetworkDNSSettings settings (Network.ListenPort network);
  fail (ErrOther "enabled network DNS is not permitted by an inbound UDP rule covering all managed nodes")
    when NetworkDNSSettings.Enabled settings &&
      negb (firewallAllowsNetworkDNS (Network.FirewallPolicy network) (Network.CIDR network)
              (NetworkDNSSettings.ListenPort settings));;
  Ok tt.

Module UpdateNetworkDNSInput.
Record t := make {
  ExpectedConfigRevision : Z; Enabled : bool; ListenPort : Z; NativeResolver : bool; SearchDomain : string }.
End UpdateNetworkDNSInput.

Definition settings_schema (state : State.t) : bool :=
  negb ((State.Version state <? ControlStateVersionNetworkRelays)
        || (ControlStateVersionFirewallScopes <? State.Version state)).

Definition updateNetworkDNS (eventID : string) (now : time) (actor : option Actor.t) (networkID : string)
    (input : UpdateNetworkDNSInput.t) (state : State.t) : result State.t :=
  fail ErrInvalid when negb (validPersistedID networkID);;
  fail ErrInvalid when UpdateNetworkDNSInput.ExpectedConfigRevision input <? 1;;
  fail ErrConflict when negb (settings_schema state);;
  '(index, network) ← of_option (network_at state networkID) ErrNotFound;
  desired ← normalizeNetworkDNSSettings (UpdateNetworkDNSInput.Enabled input) (UpdateNetworkDNSInput.ListenPort input)
              (UpdateNetworkDNSInput.NativeResolver input) (UpdateNetworkDNSInput.SearchDomain input)
              (Network.ListenPort network);
  let old := Network.DNSSettings network in
  if desired == old then Ok state else
  fail ErrConflict when NetworkFirewallRollout.Phase (Network.FirewallRollout network) != "";;
  fail ErrConflict when negb (UpdateNetworkDNSInput.ExpectedConfigRevision input =? Network.ConfigRevision network);;
  fail ErrConflict when NetworkDNSSettings.Enabled desired &&
    negb (firewallAllowsNetworkDNS (Network.FirewallPolicy network) (Network.CIDR network)
            (NetworkDNSSettings.ListenPort desired));;
  fail (ErrOther "network DNS update requires a valid timestamp") when IsZero now;;
  nextRevision ← nextConfigRevision (Network.ConfigRevision network) true;
  event ← newOptionalAttributedAudit eventID now "network.dns_settings_updated" "network" (Network.ID network)
    [("old_enabled", DBool (NetworkDNSSettings.Enabled old)); ("enabled", DBool (NetworkDNSSettings.Enabled desired));
     ("old_listen_port", DInt (NetworkDNSSettings.ListenPort old)); ("listen_port", DInt (NetworkDNSSettings.ListenPort desired));
     ("old_native_resolver", DBool (NetworkDNSSettings.NativeResolver old));
     ("native_resolver", DBool (NetworkDNSSettings.NativeResolver desired));
     ("old_search_domain", DString (NetworkDNSSettings.SearchDomain old));
     ("search_domain", DString (NetworkDNSSettings.SearchDomain desired)); ("config_revision", DInt nextRevision)] actor;
  Ok (append_audit (put_network state index
        (network <| Network.DNSSettings := desired |> <| Network.ConfigRevision := nextRevision |>
                 <| Network.ConfigUpdatedAt := now |>)) event).

(** ** The resolver policy of a node *)
Module NativeDNSPolicy.
Record t := make {
  Schema : string; LocalIP : string; NetworkCIDR : string; SearchDomain : string; Resolvers : list (string * Z) }.
End NativeDNSPolicy.

Definition active_lighthouse (networkID : string) (node : Node.t) : bool :=
  (Node.NetworkID node == networkID) && (Node.Role node == "lighthouse") && (Node.Status node == "active").

Definition nativeDNSPolicy (state : State.t) (network : Network.t) (node : Node.t) : option NativeDNSPolicy.t :=
  let settings := effectiveNetworkDNSSettings (Network.DNSSettings network) in
  if negb (NetworkDNSSettings.Enabled settings) || negb (NetworkDNSSettings.NativeResolver settings) then None
  else
    let addresses := Node.IP <$> filter (λ c, active_lighthouse (Network.ID network) c = true) (State.Nodes state) in
    let resolvers := take maxNativeDNSResolvers (sort_by str_le addresses) in
    Some (NativeDNSPolicy.make NativeDNSPolicySchema (Node.IP node) (Network.CIDR network)
            (NetworkDNSSettings.SearchDomain settings)
            ((λ ip, (ip, NetworkDNSSettings.ListenPort settings)) <$> resolvers)).

(** [json.Marshal]: the validated fields hold no character that JSON escapes. *)
Definition json_field (name value : string) : string := quoted name +:+ ":" +:+ value.
Definition json_object (fields : list string) : string := "{" +:+ join "," fields +:+ "}".
Definition native_dns_json (policy : NativeDNSPolicy.t) : string :=
  json_object [json_field "schema" (quoted (NativeDNSPolicy.Schema policy));
    json_field "local_ip" (quoted (NativeDNSPolicy.LocalIP policy));
    json_field "network_cidr" (quoted (NativeDNSPolicy.NetworkCIDR policy));
    json_field "search_domain" (quoted (NativeDNSPolicy.SearchDomain policy));
    json_field "resolvers" ("[" +:+ join "," ((λ r, json_object [json_field "ip" (quoted (fst r)); json_field "port" (Itoa (snd r))])
                                             <$> NativeDNSPolicy.Resolvers policy) +:+ "]")].
Definition renderNativeDNSPolicy (state : State.t) (network : Network.t) (node : Node.t) : string :=
  match nativeDNSPolicy state network node with
  | None => ""
  | Some policy => NativeDNSPolicyPrefix +:+ b64_encode (bytes_of (native_dns_json policy)) +:+ nl
  end.

Fixpoint validate_resolvers (network : prefix) (previous : string) (resolvers : list (string * Z)) : result unit :=
  match resolvers with
  | [] => Ok tt
  | (ip, port) :: rest =>
      let e := ErrOther "signed config native DNS resolver is invalid or unordered" in
      address ← of_option (ParseAddr ip) e;
      fail e when (addr_string address != ip) || negb (Contains network address) || (port <? 1) || (65535 <? port)
        || ((previous != "") && str_le ip previous);;
      validate_resolvers network ip rest
  end.
Definition validateNativeDNSPolicy (policy : NativeDNSPolicy.t) : result unit :=
  fail (ErrOther "signed config native DNS policy schema is unsupported")
    when NativeDNSPolicy.Schema policy != NativeDNSPolicySchema;;
  local ← of_option (ParseAddr (NativeDNSPolicy.LocalIP policy)) (ErrOther "signed config native DNS local address is invalid");
  fail (ErrOther "signed config native DNS local address is invalid") when addr_string local != NativeDNSPolicy.LocalIP policy;;
  let e := ErrOther "signed config native DNS network is invalid" in
  network ← of_option (ParsePrefix (NativeDNSPolicy.NetworkCIDR policy)) e;
  fail e when (network != Masked network) || (prefix_string network != NativeDNSPolicy.NetworkCIDR policy)
    || negb (Contains network local);;
  fail (ErrOther "signed config native DNS search domain is invalid")
    when negb (is_ok (validateNativeDNSDomain (NativeDNSPolicy.SearchDomain policy)));;
  fail (ErrOther "signed config native DNS resolver inventory is invalid")
    when (length (NativeDNSPolicy.Resolvers policy) =? 0)%nat
      || (maxNativeDNSResolvers <? length (NativeDNSPolicy.Resolvers policy))%nat;;
  validate_resolvers network "" (NativeDNSPolicy.Resolvers policy).

(** ** Relays *)
Definition defaultNetworkRelaySettings : NetworkRelaySettings.t := NetworkRelaySettings.make false (Some []).
Definition effectiveNetworkRelaySettings (settings : NetworkRelaySettings.t) : NetworkRelaySettings.t :=
  if is_nil (NetworkRelaySettings.RelayNodeIDs settings) && negb (NetworkRelaySettings.Enabled settings)
  then defaultNetworkRelaySettings else settings.

Fixpoint adjacent_equal (l : list string) : bool :=
  match l with
  | a :: (b :: _) as rest => (a == b) || adjacent_equal rest
  | _ => false
  end.
Definition normalizeNetworkRelaySettings (enabled : bool) (relayNodeIDs : slice string) : result NetworkRelaySettings.t :=
  fail ErrInvalid when is_nil relayNodeIDs;;
  if negb enabled then
    fail ErrInvalid when negb (empty_slice relayNodeIDs);;
    Ok defaultNetworkRelaySettings
  else
    fail ErrInvalid when empty_slice relayNodeIDs || (MaxNetworkRelayNodes <? Z.of_nat (length (elems relayNodeIDs)));;
    fail ErrInvalid when negb (forallb validPersistedID (elems relayNodeIDs));;
    let normalized := sort_by str_le (elems relayNodeIDs) in
    fail ErrInvalid when adjacent_equal normalized;;
    Ok (NetworkRelaySettings.make true (Some normalized)).

Definition relay_member (state : State.t) (network : Network.t) (nodeID : string) : bool :=
  match findNode state nodeID with
  | Some node => (Node.NetworkID node == Network.ID network) && (Node.Status node != "revoked")
  | None => false
  end.
Definition validateNetworkRelaySettings (state : State.t) (network : Network.t) : result unit :=
  let settings := Network.RelaySettings network in
  let ids := NetworkRelaySettings.RelayNodeIDs settings in
  fail (ErrOther "relay node IDs must be an array") when is_nil ids;;
  normalized ← normalizeNetworkRelaySettings (NetworkRelaySettings.Enabled settings) ids;
  fail (ErrOther "relay settings are not canonical")
    when negb (Bool.eqb (NetworkRelaySettings.Enabled settings) (NetworkRelaySettings.Enabled normalized))
      || negb (slices_equal ids (NetworkRelaySettings.RelayNodeIDs normalized));;
  fail (ErrOther "relay node does not belong to the network or is revoked")
    when negb (forallb (relay_member state network) (elems ids));;
  Ok tt.

Definition relay_le (a b : Node.t) : bool :=
  if Node.Name a != Node.Name b then str_le (Node.Name a) (Node.Name b) else str_le (Node.ID a) (Node.ID b).
(** The nodes selected as relays that are active, by name. *)
Definition activeNetworkRelays (state : State.t) (network : Network.t) : list Node.t :=
  let settings := effectiveNetworkRelaySettings (Network.RelaySettings network) in
  if negb (NetworkRelaySettings.Enabled settings) then []
  else sort_by relay_le (filter (λ node, (Node.NetworkID node == Network.ID network) && (Node.Status node == "active") &&
         contains (elems (NetworkRelaySettings.RelayNodeIDs settings)) (Node.ID node) = true) (State.Nodes state)).

Definition validateRelaySelection (state : State.t) (networkID : string) (settings : NetworkRelaySettings.t) : result unit :=
  network ← of_option (findNetwork state networkID) ErrNotFound;
  fail ErrInvalid when negb (is_ok (validateNetworkRelaySettings state (network <| Network.RelaySettings := settings |>)));;
  Ok tt.

Definition bool_text (b : bool) : string := if b then "true" else "false".
Definition relaySettingsDigest (settings : NetworkRelaySettings.t) : string :=
  ConfigDigest ("enabled=" +:+ bool_text (NetworkRelaySettings.Enabled settings) +:+ nl +:+
                join nl (elems (NetworkRelaySettings.RelayNodeIDs settings))).

Module UpdateNetworkRelaysInput.
Record t := make { ExpectedConfigRevision : Z; Enabled : bool; RelayNodeIDs : slice string }.
End UpdateNetworkRelaysInput.

Definition updateNetworkRelays (eventID : string) (now : time) (actor : option Actor.t) (networkID : string)
    (input : UpdateNetworkRelaysInput.t) (state : State.t) : result State.t :=
  fail ErrInvalid when negb (validPersistedID networkID);;
  fail ErrInvalid when UpdateNetworkRelaysInput.ExpectedConfigRevision input <? 1;;
  desired ← normalizeNetworkRelaySettings (UpdateNetworkRelaysInput.Enabled input) (UpdateNetworkRelaysInput.RelayNodeIDs input);
  fail ErrConflict when negb (settings_schema state);;
  '(index, network) ← of_option (network_at state networkID) ErrNotFound;
  _ ← validateRelaySelection state networkID desired;
  let old := Network.RelaySettings network in
  if Bool.eqb (NetworkRelaySettings.Enabled desired) (NetworkRelaySettings.Enabled old) &&
     slices_equal (NetworkRelaySettings.RelayNodeIDs desired) (NetworkRelaySettings.RelayNodeIDs old)
  then Ok state else
  fail ErrConflict when NetworkFirewallRollout.Phase (Network.FirewallRollout network) != "";;
  fail ErrConflict when negb (UpdateNetworkRelaysInput.ExpectedConfigRevision input =? Network.ConfigRevision network);;
  fail (ErrOther "network relay update requires a valid timestamp") when IsZero now;;
  nextRevision ← nextConfigRevision (Network.ConfigRevision network) true;
  event ← newOptionalAttributedAudit eventID now "network.relay_settings_updated" "network" (Network.ID network)
    [("old_sha256", DString (relaySettingsDigest old)); ("new_sha256", DString (relaySettingsDigest desired));
     ("old_relay_nodes", DInt (Z.of_nat (length (elems (NetworkRelaySettings.RelayNodeIDs old)))));
     ("relay_nodes", DInt (Z.of_nat (length (elems (NetworkRelaySettings.RelayNodeIDs desired)))));
     ("enabled", DBool (NetworkRelaySettings.Enabled desired)); ("config_revision", DInt nextRevision)] actor;
  Ok (append_audit (put_network state index
        (network <| Network.RelaySettings := desired |> <| Network.ConfigRevision := nextRevision |>
                 <| Network.ConfigUpdatedAt := now |>)) event).

(** ** Properties *)

(** The addresses of a network's active lighthouses are what the graph check
    keeps: canonical, inside the CIDR and distinct. *)
Definition lighthouse_addresses (state : State.t) (network : Network.t) : list string :=
  Node.IP <$> filter (λ c, active_lighthouse (Network.ID network) c = true) (State.Nodes state).

Lemma validate_resolvers_ok network previous port ips :
  1 ≤ port ≤ 65535 → Forall (λ ip, ∃ a, valid_addr a ∧ ip = addr_string a ∧ Contains network a = true) ips →
  StronglySorted (λ a b, str_lt a b = true) (previous :: ips) →
  validate_resolvers network previous ((λ ip, (ip, port)) <$> ips) = Ok tt.
Proof.
  intros Hp Hips. revert previous. induction Hips as [|ip l (a & Ha & -> & Hc) _ IH]; intros previous Hs; [done|].
  csimpl. rewrite (proj2 (ParseAddr_iff _ a)) by done. cbn [of_option mbind result_bind].
  apply StronglySorted_inv in Hs as [Hs Hlt]. apply Forall_cons in Hlt as [Hlt _].
  apply str_lt_iff in Hlt. rewrite bool_decide_eq_true_2 by done. rewrite Hc, Hlt, andb_false_r.
  rewrite (proj2 (Z.ltb_ge _ 1)), (proj2 (Z.ltb_ge 65535 _)) by lia. cbn. by apply IH.
Qed.

Lemma sorted_strict l : NoDup l → StronglySorted (holds str_le) l → StronglySorted (λ a b, str_lt a b = true) l.
Proof.
  induction 2 as [|x l Hs IH Hx]; constructor; apply NoDup_cons in H as [Hnot Hnd]; [auto|].
  rewrite Forall_forall in *. intros y Hy. apply str_lt_iff, not_true_iff_false. intros Hyx.
  apply Hnot. by rewrite (str_le_antisym x y (Hx y Hy) Hyx).
Qed.

(** The resolver policy handed to a node is one the agent accepts: when the
    settings are valid, the node and the active lighthouses have canonical,
    distinct addresses inside the network's CIDR and there is at least one active
    lighthouse, validateNativeDNSPolicy accepts the policy, which lists at most
    eight resolvers. *)
Theorem native_dns_policy_accepted state network node cidr policy :
  nativeDNSPolicy state network node = Some policy →
  validateNetworkDNSSettings (Network.DNSSettings network) (Network.ListenPort network) = Ok tt →
  Network.CIDR network = prefix_string cidr → wf_prefix cidr →
  Forall (λ ip, ∃ a, valid_addr a ∧ ip = addr_string a ∧ Contains cidr a = true)
    (Node.IP node :: lighthouse_addresses state network) →
  NoDup (lighthouse_addresses state network) → lighthouse_addresses state network ≠ [] →
  validateNativeDNSPolicy policy = Ok tt ∧ (length (NativeDNSPolicy.Resolvers policy) ≤ 8)%nat.
Proof.
  unfold nativeDNSPolicy. fold (lighthouse_addresses state network). set (ips := lighthouse_addresses state network).
  intros H Hset Hcidr Hwf Hips Hnd Hne. destruct (_ || _) eqn:Een; [done|]. injection H as <-.
  unfold effectiveNetworkDNSSettings in *. destruct (bool_decide (Network.DNSSettings network = _)) eqn:Ez.
  { apply negb_orb_false in Een as [Een _]. done. }
  apply negb_orb_false in Een as [Een Enr]. apply negb_false_iff in Een, Enr.
  set (resolvers := take maxNativeDNSResolvers (sort_by str_le ips)).
  apply Forall_cons in Hips as [(a & Ha & Hip & Hin) Hips].
  assert (length resolvers ≤ 8)%nat as Hlen by (unfold resolvers, maxNativeDNSResolvers; rewrite length_take; lia).
  assert (0 < length resolvers)%nat as Hpos.
  { unfold resolvers, maxNativeDNSResolvers. rewrite length_take, sort_by_length. destruct ips; [done|simpl; lia]. }
  split; [|simpl; by rewrite length_fmap].
  unfold validateNativeDNSPolicy; cbn [NativeDNSPolicy.Schema NativeDNSPolicy.LocalIP NativeDNSPolicy.NetworkCIDR
    NativeDNSPolicy.SearchDomain NativeDNSPolicy.Resolvers].
  rewrite Hip, (proj2 (ParseAddr_iff _ a)) by done. rewrite Hcidr, (proj2 (ParsePrefix_iff _ cidr)) by auto.
  unfold validateNetworkDNSSettings in Hset. cbv zeta in Hset. inv_ok. rewrite Enr in Hset.
  assert (1 ≤ NetworkDNSSettings.ListenPort (Network.DNSSettings network) ≤ 65535) as Hport by (split_bools; lia).
  destruct Hwf as (? & ? & Hm). cbn [of_option mbind result_bind].
  rewrite (bool_decide_eq_true_2 (addr_string a = _)) by done. rewrite (bool_decide_eq_true_2 (_ = Masked _)) by done.
  rewrite (bool_decide_eq_true_2 (prefix_string cidr = _)) by done. rewrite Hin, Hset. rewrite length_fmap.
  rewrite (proj2 (Nat.eqb_neq _ 0)) by lia. unfold maxNativeDNSResolvers. rewrite (proj2 (Nat.ltb_ge 8 _)) by lia.
  cbn. apply validate_resolvers_ok; [done| |].
  - apply Forall_forall. intros ip Hi. rewrite Forall_forall in Hips. apply Hips.
    rewrite <- (sort_by_elem str_le). eapply elem_of_sublist; [exact Hi|apply sublist_take].
  - assert (StronglySorted (λ x y, str_lt x y = true) (sort_by str_le ips)) as Hs.
    { apply sorted_strict; [by rewrite sort_by_perm|apply sort_by_sorted; eauto]. }
    constructor.
    + unfold resolvers, maxNativeDNSResolvers. clear -Hs. revert Hs. generalize (sort_by str_le ips), 8%nat. intros l n Hs.
      revert n. induction Hs as [|x l Hs IH Hx]; intros [|n]; simpl; try by constructor.
      constructor; [apply IH|]. rewrite Forall_forall in *. intros y Hy. apply Hx. eapply elem_of_sublist; [exact Hy|apply sublist_take].
    + apply Forall_forall. intros ip Hi.
      assert (ip ∈ ips) as Hin' by (rewrite <- (sort_by_elem str_le); eapply elem_of_sublist; [exact Hi|apply sublist_take]).
      rewrite Forall_forall in Hips. destruct (Hips ip Hin') as (x & Hx & -> & _).
      pose proof (addr_string_ne x "" Hx eq_refl) as Hnz. by destruct (addr_string x).
Qed.

Definition dns_network : Network.t :=
  example_network <| Network.ListenPort := 4242 |>
    <| Network.DNSSettings := NetworkDNSSettings.make true 53 true "mesh.example" |>.
Definition dns_lighthouse : Node.t :=
  Node.zero <| Node.ID := "lh" |> <| Node.NetworkID := "n1" |> <| Node.Role := "lighthouse" |>
    <| Node.Status := "active" |> <| Node.IP := "10.42.0.1" |>.
Definition dns_member : Node.t := dns_lighthouse <| Node.ID := "m" |> <| Node.Role := "member" |> <| Node.IP := "10.42.0.2" |>.
Definition dns_state (nodes : list Node.t) : State.t :=
  State.zero <| State.Networks := [dns_network] |> <| State.Nodes := nodes |>.

Lemma native_dns_policy_accepted_witness :
  ∃ policy, nativeDNSPolicy (dns_state [dns_lighthouse; dns_member]) dns_network dns_member = Some policy ∧
    validateNativeDNSPolicy policy = Ok tt.
Proof.
  eexists. split; [vm_compute; reflexivity|].
  eapply (native_dns_policy_accepted (dns_state [dns_lighthouse; dns_member]) dns_network dns_member (Prefix 170524672 16));
    [vm_compute; reflexivity|vm_compute; reflexivity|vm_compute; reflexivity|repeat split; vm_compute; congruence| | |].
  - constructor; [exists 170524674|constructor; [exists 170524673|constructor]]; repeat split; vm_compute; congruence.
  - apply (bool_decide_unpack _). vm_compute. exact I.
  - vm_compute. discriminate.
Defined.

(** With native resolution enabled and no active lighthouse the control plane
    still renders a resolver policy, with no resolvers, and the agent's check of
    the signed configuration refuses it. *)
Theorem native_dns_without_lighthouse state network node policy :
  nativeDNSPolicy state network node = Some policy →
  (∀ c, c ∈ State.Nodes state → active_lighthouse (Network.ID network) c = false) →
  NativeDNSPolicy.Resolvers policy = [] ∧ is_ok (validateNativeDNSPolicy policy) = false.
Proof.
  unfold nativeDNSPolicy. intros H Hno. destruct (_ || _); [done|]. injection H as <-.
  rewrite (filter_none _ (State.Nodes state)) by (apply Forall_forall; intros c Hc; rewrite Hno; done).
  cbn [fmap list_fmap]. split; [done|]. unfold validateNativeDNSPolicy.
  repeat match goal with |- is_ok (mbind _ ?m) = false =>
    destruct m eqn:?; cbn [mbind result_bind]; [|reflexivity] end.
  by match goal with H : fail_if _ _ = Ok _ |- _ => apply fail_if_Ok in H end.
Qed.

Lemma native_dns_without_lighthouse_witness :
  ∃ policy, nativeDNSPolicy (dns_state [dns_member]) dns_network dns_member = Some policy ∧
    is_ok (validateNativeDNSPolicy policy) = false.
Proof.
  eexists. split; [vm_compute; reflexivity|].
  apply (native_dns_without_lighthouse (dns_state [dns_member]) dns_network dns_member); [vm_compute; reflexivity|].
  intros c ->%list_elem_of_singleton. vm_compute. reflexivity.
Defined.
