(* ===== verification/Render.v ===== *)
(** * The node configuration (internal/control/service.go, renderConfig)

    The Nebula configuration the control plane signs for a node: trust blocklist,
    lighthouses, DNS, relays, routes through gateways and the compiled firewall.
    A node has applied its configuration when it reports the digest of this text. *)
From S2P Require Import Prelude GoStd IPv4 Model AuditLog Routes RouteState Reservations Firewall.
From S2P Require Import RoutePolicies NetworkSettings.
From Stdlib Require Import Ascii.

(** firewall_rollout.go: a canary runs the target policy, every other node the
    active one. *)
Definition firewallPolicyForNode (network : Network.t) (node : Node.t) : FirewallPolicy.t :=
  let rollout := Network.FirewallRollout network in
  if (NetworkFirewallRollout.Phase rollout == FirewallRolloutPhaseCanary)
     && contains (elems (NetworkFirewallRollout.CanaryNodeIDs rollout)) (Node.ID node)
  then NetworkFirewallRollout.TargetPolicy rollout else Network.FirewallPolicy network.

(** ** The parts of the configuration *)
Definition ip_le (a b : Node.t) : bool := str_le (Node.IP a) (Node.IP b).
Definition config_lighthouses (state : State.t) (network : Network.t) : list Node.t :=
  sort_by ip_le (filter (λ c, (active_lighthouse (Network.ID network) c && (Node.PublicEndpoint c != "")) = true)
                   (State.Nodes state)).

(** The certificates of the network's revoked nodes and its recorded revocations,
    in order, each once. *)
Definition revocation_network (state : State.t) (revocation : CertificateRevocation.t) : string :=
  if CertificateRevocation.NetworkID revocation == "" then
    match findNode state (CertificateRevocation.NodeID revocation) with
    | Some candidate => Node.NetworkID candidate
    | None => ""
    end
  else CertificateRevocation.NetworkID revocation.
Definition config_blocklist (state : State.t) (network : Network.t) : list string :=
  let revoked := Node.CertificateFingerprint <$> filter (λ c, (Node.NetworkID c == Network.ID network) &&
                   (Node.Status c == "revoked") && (Node.CertificateFingerprint c != "") = true) (State.Nodes state) in
  let recorded := CertificateRevocation.Fingerprint <$>
                    filter (λ r, revocation_network state r = Network.ID network) (State.Revocations state) in
  sort_by str_le (remove_dups (revoked ++ recorded)).

Module routedConfigEntry.
Record t := make { route : string; gateways : list (string * Z); mtu : Z; metric : Z }.
End routedConfigEntry.

Definition routed_entry (state : State.t) (network : Network.t) (route : string) : option routedConfigEntry.t :=
  let policy := effectiveRoutePolicy state network route in
  let gateways := omap (λ g, (λ candidate, (Node.IP candidate, NetworkRoutePolicyGateway.Weight g)) <$>
                               findNode state (NetworkRoutePolicyGateway.NodeID g))
                    (NetworkRoutePolicy.Gateways policy) in
  if (length gateways =? 0)%nat then None
  else Some (routedConfigEntry.make route gateways (NetworkRoutePolicy.MTU policy) (NetworkRoutePolicy.Metric policy)).
Definition entry_le (a b : routedConfigEntry.t) : bool := str_le (routedConfigEntry.route a) (routedConfigEntry.route b).
(** The routes of the network's active nodes, less those of the node's own
    certificate. *)
Definition remote_routes (state : State.t) (network : Network.t) (node : Node.t) : list string :=
  filter (λ route, contains (elems (certificateRoutedSubnets network node)) route = false)
    (remove_dups (mjoin ((λ c, elems (Node.RoutedSubnets c)) <$>
       filter (λ c, (Node.NetworkID c == Network.ID network) && (Node.Status c == "active") = true) (State.Nodes state)))).
Definition config_routes (state : State.t) (network : Network.t) (node : Node.t) : list routedConfigEntry.t :=
  sort_by entry_le (omap (routed_entry state network) (remote_routes state network node)).

(** ** The text *)
Definition line (s : string) : string := s +:+ nl.
Definition lines (l : list string) : string := concat_text (line <$> l).

Definition render_pki (blocklist : list string) : string :=
  lines ["pki:"; "  ca: /etc/nebula/ca.crt"; "  cert: /etc/nebula/host.crt"; "  key: /etc/nebula/host.key"] +:+
  (if (length blocklist =? 0)%nat then ""
   else line "  blocklist:" +:+ lines ((λ fp, "    - " +:+ quoted fp) <$> blocklist)) +:+
  line "  disconnect_invalid: true".

Definition render_lighthouses (network : Network.t) (node : Node.t) (lighthouses : list Node.t) : string :=
  let remote := filter (λ lh, Node.ID lh ≠ Node.ID node) lighthouses in
  let am_lighthouse := Node.Role node == "lighthouse" in
  line "static_host_map:" +:+
  lines ((λ lh, "  " +:+ quoted (Node.IP lh) +:+ ": [" +:+ quoted (Node.PublicEndpoint lh) +:+ "]") <$> lighthouses) +:+
  lines ["lighthouse:"; "  am_lighthouse: " +:+ bool_text am_lighthouse] +:+
  (if am_lighthouse && NetworkDNSSettings.Enabled (Network.DNSSettings network) then
     lines ["  serve_dns: true"; "  dns:"; "    host: " +:+ quoted (Node.IP node);
            "    port: " +:+ Itoa (NetworkDNSSettings.ListenPort (Network.DNSSettings network))]
   else "") +:+
  line "  interval: 60" +:+
  (if (length remote =? 0)%nat then line "  hosts: []"
   else line "  hosts:" +:+ lines ((λ lh, "    - " +:+ quoted (Node.IP lh)) <$> remote)).

Definition render_relays (state : State.t) (network : Network.t) (node : Node.t) : string :=
  let settings := effectiveNetworkRelaySettings (Network.RelaySettings network) in
  if negb (NetworkRelaySettings.Enabled settings) then "" else
  line "relay:" +:+
  (if contains (elems (NetworkRelaySettings.RelayNodeIDs settings)) (Node.ID node)
   then lines ["  am_relay: true"; "  use_relays: false"]
   else
     let relays := activeNetworkRelays state network in
     (if (length relays =? 0)%nat then line "  relays: []"
      else line "  relays:" +:+ lines ((λ r, "    - " +:+ quoted (Node.IP r)) <$> relays)) +:+
     lines ["  am_relay: false"; "  use_relays: true"]).

Definition render_route (entry : routedConfigEntry.t) : string :=
  line ("    - route: " +:+ quoted (routedConfigEntry.route entry)) +:+
  (match routedConfigEntry.gateways entry with
   | [(ip, _)] => line ("      via: " +:+ quoted ip)
   | gateways => line "      via:" +:+
       concat_text ((λ g, lines ["        - gateway: " +:+ quoted (fst g); "          weight: " +:+ Itoa (snd g)]) <$> gateways)
   end) +:+
  (if routedConfigEntry.mtu entry =? 0 then "" else line ("      mtu: " +:+ Itoa (routedConfigEntry.mtu entry))) +:+
  (if routedConfigEntry.metric entry =? 0 then "" else line ("      metric: " +:+ Itoa (routedConfigEntry.metric entry))).

Definition render_routes (entries : list routedConfigEntry.t) : string :=
  if (length entries =? 0)%nat then "" else lines ["tun:"; "  unsafe_routes:"] +:+ concat_text (render_route <$> entries).

Definition renderConfig (state : State.t) (network : Network.t) (node : Node.t) : string :=
  renderNativeDNSPolicy state network node +:+
  render_pki (config_blocklist state network) +:+
  render_lighthouses network node (config_lighthouses state network) +:+
  lines ["listen:"; "  host: 0.0.0.0"; "  port: " +:+ Itoa (Network.ListenPort network); "punchy:"; "  punch: true"] +:+
  render_relays state network node +:+
  render_routes (config_routes state network node) +:+
  renderFirewallPolicyForNode (effectiveFirewallPolicyForNode state node (firewallPolicyForNode network node))
    (certificateRoutedSubnets network node) +:+
  lines ["logging:"; "  level: info"; "  format: json"].

(** ** Properties *)
(** Revocation reaches every configuration: the blocklist rendered for a
    network holds exactly the certificate fingerprints of its revoked nodes and of
    the revocations recorded for it, in order and without duplicates. *)
Theorem blocklist_is_complete state network fingerprint :
  (fingerprint ∈ config_blocklist state network ↔
   (∃ node, node ∈ State.Nodes state ∧ Node.NetworkID node = Network.ID network ∧ Node.Status node = "revoked" ∧
      Node.CertificateFingerprint node = fingerprint ∧ fingerprint ≠ "") ∨
   (∃ r, r ∈ State.Revocations state ∧ revocation_network state r = Network.ID network ∧
      CertificateRevocation.Fingerprint r = fingerprint)) ∧
  NoDup (config_blocklist state network) ∧ StronglySorted (holds str_le) (config_blocklist state network).
Proof.
  unfold config_blocklist. split_and!.
  - rewrite sort_by_elem, elem_of_remove_dups, elem_of_app, !list_elem_of_fmap.
    setoid_rewrite list_elem_of_filter.
    setoid_rewrite andb_true_iff. setoid_rewrite andb_true_iff. setoid_rewrite negb_true_iff.
    setoid_rewrite bool_decide_eq_true. setoid_rewrite bool_decide_eq_false. naive_solver.
  - rewrite sort_by_perm. apply NoDup_remove_dups.
  - apply sort_by_sorted; eauto.
Qed.

Lemma elem_of_remote_routes state network node route :
  route ∈ remote_routes state network node ↔
  (route ∉ elems (certificateRoutedSubnets network node)) ∧
  ∃ c, c ∈ State.Nodes state ∧ Node.NetworkID c = Network.ID network ∧ Node.Status c = "active" ∧
    route ∈ elems (Node.RoutedSubnets c).
Proof.
  unfold remote_routes. rewrite list_elem_of_filter, contains_false, elem_of_remove_dups, list_elem_of_join.
  setoid_rewrite list_elem_of_fmap. setoid_rewrite list_elem_of_filter. setoid_rewrite andb_true_iff.
  setoid_rewrite bool_decide_eq_true. naive_solver.
Qed.

(** A node is routed towards every foreign prefix through exactly its live
    owners: an entry of the rendered routes is for a prefix that is not in the
    node's own certificate, its gateways are the addresses of the active enrolled
    nodes that own the prefix, one per owner, and no such prefix with an owner is
    missing. *)
Theorem routes_reach_live_owners state network node route :
  NoDup (Node.ID <$> State.Nodes state) →
  let owners := activeRouteOwners state (Network.ID network) route in
  (∀ entry, entry ∈ config_routes state network node → routedConfigEntry.route entry = route →
     (route ∉ elems (certificateRoutedSubnets network node)) ∧
     (fst <$> routedConfigEntry.gateways entry) = (Node.IP <$> owners) ∧ owners ≠ []) ∧
  (route ∉ elems (certificateRoutedSubnets network node) → owners ≠ [] →
     ∃ entry, entry ∈ config_routes state network node ∧ routedConfigEntry.route entry = route).
Proof.
  intros Hnd owners.
  assert (∀ weights, omap (λ g, (λ candidate, (Node.IP candidate, NetworkRoutePolicyGateway.Weight g)) <$>
      findNode state (NetworkRoutePolicyGateway.NodeID g)) (gateways_of owners weights) =
    (λ o, (Node.IP o, if weights (Node.ID o) =? 0 then 1 else weights (Node.ID o))) <$> owners) as Hgw.
  { intros weights. assert (∀ o, o ∈ owners → o ∈ State.Nodes state) as Hin
      by (intros o Ho; by apply elem_of_owners in Ho as [? _]).
    unfold gateways_of. induction owners as [|o l IH]; [done|]. csimpl.
    rewrite findNode_unique by (done || (apply Hin; constructor)). simpl. f_equal. apply IH.
    intros; apply Hin; by constructor. }
  assert (∃ weights mtu metric, routed_entry state network route =
    if (length owners =? 0)%nat then None else Some (routedConfigEntry.make route
      ((λ o, (Node.IP o, if weights (Node.ID o) =? 0 then 1 else weights (Node.ID o))) <$> owners) mtu metric))
    as (weights & mtu & metric & Hentry).
  { unfold routed_entry, effectiveRoutePolicy. fold owners. destruct (storedRoutePolicy network route) as [p|]; simpl;
      rewrite Hgw, length_fmap.
    - by exists (weight_of (NetworkRoutePolicy.Gateways p)), (NetworkRoutePolicy.MTU p), (NetworkRoutePolicy.Metric p).
    - by exists (λ _, 0), 0, 0. }
  unfold config_routes. split.
  - intros entry He Hr. rewrite sort_by_elem, list_elem_of_omap in He. destruct He as (r & Hin & He).
    assert (r = route) as ->.
    { clear Hentry Hgw. unfold routed_entry in He. cbv zeta in He.
      match type of He with (if ?c then _ else _) = _ => destruct c end; [done|].
      injection He as <-. exact Hr. }
    apply elem_of_remote_routes in Hin as [Hnot _]. rewrite Hentry in He.
    destruct (Nat.eqb_spec (length owners) 0) as [|Hne]; [done|]. injection He as <-. simpl.
    split_and!; [done| |intros E; by rewrite E in Hne]. rewrite <- list_fmap_compose. by apply list_fmap_ext.
  - intros Hnot Hne. exists (routedConfigEntry.make route
      ((λ o, (Node.IP o, if weights (Node.ID o) =? 0 then 1 else weights (Node.ID o))) <$> owners) mtu metric).
    split; [|done]. rewrite sort_by_elem, list_elem_of_omap. exists route. split.
    + apply elem_of_remote_routes. split; [done|]. destruct owners as [|o l] eqn:Eo; [done|].
      assert (o ∈ activeRouteOwners state (Network.ID network) route) as [Ho Hown]%elem_of_owners
        by (fold owners; rewrite Eo; constructor).
      exists o. unfold owns_route in Hown. split_bools. apply contains_true in H0. done.
    + rewrite Hentry. destruct owners; done.
Qed.

Lemma routes_reach_live_owners_witness :
  ∃ entry, entry ∈ config_routes example_state example_network (example_gateway "c" <| Node.RoutedSubnets := None |>) ∧
    routedConfigEntry.route entry = "192.168.7.0/24".
Proof.
  refine (proj2 (routes_reach_live_owners example_state example_network
    (example_gateway "c" <| Node.RoutedSubnets := None |>) "192.168.7.0/24" _) _ _).
  - apply (bool_decide_unpack _). vm_compute. exact I.
  - intros H. apply elem_of_nil in H. exact H.
  - vm_compute. discriminate.
Defined.

(** A firewall canary is isolated: for a node that is not one of the canaries,
    and for every node while the rollout is not in its canary phase, the rendered
    configuration is the one without any rollout. *)
Theorem rollout_isolated_to_canaries state network node rollout :
  NetworkFirewallRollout.Phase rollout ≠ FirewallRolloutPhaseCanary ∨
  (Node.ID node ∉ elems (NetworkFirewallRollout.CanaryNodeIDs rollout)) →
  renderConfig state (network <| Network.FirewallRollout := rollout |>) node =
  renderConfig state (network <| Network.FirewallRollout := NetworkFirewallRollout.zero |>) node.
Proof.
  intros H. assert (firewallPolicyForNode (network <| Network.FirewallRollout := rollout |>) node =
    firewallPolicyForNode (network <| Network.FirewallRollout := NetworkFirewallRollout.zero |>) node) as E.
  { unfold firewallPolicyForNode. simpl. destruct H as [H|H].
    - by rewrite (bool_decide_eq_false_2 _ H).
    - by rewrite (proj2 (contains_false _ _) H), andb_false_r. }
  unfold renderConfig. rewrite E. reflexivity.
Qed.

Lemma rollout_isolated_to_canaries_witness :
  let rollout := NetworkFirewallRollout.make "canary" defaultManagedFirewallPolicy (Some ["a"]) 1 0 1 in
  renderConfig example_state (example_network <| Network.FirewallRollout := rollout |>) (example_gateway "b") =
  renderConfig example_state (example_network <| Network.FirewallRollout := NetworkFirewallRollout.zero |>) (example_gateway "b").
Proof.
  apply rollout_isolated_to_canaries. right. intros H. apply list_elem_of_singleton in H. discriminate H.
Defined.
