(* ===== verification/RouteTransfer.v ===== *)
(** * Moving routed subnets between gateways (internal/control/route_transfer.go)

    A transfer first lets the target's certificate carry the prefixes (preparing),
    then switches ownership in one step (promotion), then cleans the source's
    certificate; before promotion it can be cancelled, cleaning the target's
    certificate if it was already issued. *)
From S2P Require Import Prelude GoStd IPv4 Model AuditLog Routes RouteState Reservations Firewall.
From S2P Require Import RoutePolicies NetworkSettings Render.

Definition route_schema (state : State.t) : bool :=
  contains [ControlStateVersionRouteProfileEdit; ControlStateVersionRoutePolicies; ControlStateVersionNativeDNS;
            ControlStateVersionFirewallScopes] (State.Version state).

(** A participant runs the certificate generation asked for, with the current
    configuration, and has reported so. *)
Definition routeTransferNodeConverged (state : State.t) (network : Network.t) (node : Node.t)
    (desiredGeneration : Z) : bool :=
  if (desiredGeneration <? 1) || (Node.Status node != "active") || (Node.CertificateGeneration node <? desiredGeneration)
     || negb (Node.AppliedCertificateGeneration node =? Node.CertificateGeneration node)
     || negb (Node.AppliedConfigRevision node =? Network.ConfigRevision network)
     || (Node.ReportedCertificateFingerprint node != Node.CertificateFingerprint node)
     || negb (Node.NebulaRunning node) || (Node.AgentStatus node != "healthy")
     || match Node.LastSeenAt node with None => true | Some _ => false end
  then false
  else Node.AppliedConfigSHA256 node == ConfigDigest (renderConfig state network node).

Module StartRouteTransferInput.
Record t := make {
  SourceNodeID : string; TargetNodeID : string; RoutedSubnets : list string;
  ExpectedConfigRevision : Z; RequestID : string }.
End StartRouteTransferInput.

Module UpdateRouteTransferInput.
Record t := make { ExpectedConfigRevision : Z; RequestID : string }.
End UpdateRouteTransferInput.

(** ** Start *)
Definition single_owner (state : State.t) (networkID sourceID route : string) : bool :=
  match activeRouteOwners state networkID route with
  | [owner] => Node.ID owner == sourceID
  | _ => false
  end.

Definition startRouteTransfer (eventID : string) (now : time) (actor : option Actor.t) (networkID : string)
    (input : StartRouteTransferInput.t) (state : State.t) : result State.t :=
  let sourceID := TrimSpace (StartRouteTransferInput.SourceNodeID input) in
  let targetID := TrimSpace (StartRouteTransferInput.TargetNodeID input) in
  let requestID := TrimSpace (StartRouteTransferInput.RequestID input) in
  let expected := StartRouteTransferInput.ExpectedConfigRevision input in
  match normalizeRoutedSubnets (StartRouteTransferInput.RoutedSubnets input) with
  | Err _ => Err ErrInvalid
  | Ok routes =>
      fail ErrInvalid when negb (validPersistedID networkID) || negb (validPersistedID sourceID)
        || negb (validPersistedID targetID) || (sourceID == targetID) || (expected <? 1)
        || negb (validRouteTransferRequestID requestID) || empty_slice routes;;
      fail ErrConflict when negb (route_schema state);;
      '(index, network) ← of_option (network_at state networkID) ErrNotFound;
      let existing := Network.RouteTransfer network in
      if NetworkRouteTransfer.RequestID existing == requestID then
        fail ErrConflict when (NetworkRouteTransfer.SourceNodeID existing != sourceID)
          || (NetworkRouteTransfer.TargetNodeID existing != targetID)
          || negb (slices_equal (NetworkRouteTransfer.RoutedSubnets existing) routes);;
        Ok state
      else
        fail ErrConflict when negb (routeTransferTerminal existing);;
        fail ErrConflict when (NetworkCARotation.Phase (Network.CARotation network) != "")
          || (NetworkFirewallRollout.Phase (Network.FirewallRollout network) != "")
          || negb (routeProfileEditTerminal (Network.RouteProfileEdit network))
          || negb (Network.ConfigRevision network =? expected);;
        source ← of_option (findNode state sourceID) ErrConflict;
        target ← of_option (findNode state targetID) ErrConflict;
        fail ErrConflict when (Node.NetworkID source != Network.ID network) || (Node.NetworkID target != Network.ID network)
          || (Node.Status source != "active") || (Node.Status target != "active")
          || negb (enrolled source) || negb (enrolled target);;
        fail ErrConflict when negb (subnetSetContainsAll (Node.RoutedSubnets source) routes);;
        fail ErrConflict when negb (forallb (single_owner state (Network.ID network) (Node.ID source)) (elems routes));;
        fail ErrConflict when match normalizeRoutedSubnets (elems (Node.RoutedSubnets target) ++ elems routes) with
                              | Ok finalTarget => maxRoutedSubnetsPerNode <? Z.of_nat (length (elems finalTarget))
                              | Err _ => true
                              end;;
        fail ErrConflict when (Node.CertificateGeneration source <? 1) || (Node.CertificateGeneration target <? 1)
          || (Node.CertificateGeneration target =? int64_max);;
        nextRevision ← nextConfigRevision (Network.ConfigRevision network) true;
        let generation := wrap64 (Node.CertificateGeneration target + 1) in
        let transfer := NetworkRouteTransfer.make requestID RouteTransferPhasePreparingTarget (Node.ID source)
          (Node.ID target) routes (Node.RoutedSubnets source) (Node.RoutedSubnets target) generation 0 now 0 0 in
        event ← newOptionalAttributedAudit eventID now "network.route_transfer_started" "network" (Network.ID network)
          [("request_id", DString requestID); ("source_node_id", DString (Node.ID source));
           ("target_node_id", DString (Node.ID target)); ("routed_subnets", DString (join "," (elems routes)));
           ("previous_config_revision", DInt expected); ("config_revision", DInt nextRevision);
           ("target_certificate_generation", DInt generation)] actor;
        Ok (append_audit (put_network state index
              (network <| Network.RouteTransfer := transfer |> <| Network.ConfigRevision := nextRevision |>
                       <| Network.ConfigUpdatedAt := now |>)) event)
  end.

(** ** Advance and cancel *)

(** The ownership switch of a promotion, over every node of the state. *)
Definition promote_node (sourceID targetID : string) (transfer : NetworkRouteTransfer.t) (node : Node.t) : Node.t :=
  if Node.ID node == sourceID then
    node <| Node.RoutedSubnets := subtractSubnets (NetworkRouteTransfer.SourceOriginalSubnets transfer)
                                                  (NetworkRouteTransfer.RoutedSubnets transfer) |>
  else if Node.ID node == targetID then
    node <| Node.RoutedSubnets := mergeSubnets (NetworkRouteTransfer.TargetOriginalSubnets transfer)
                                               (NetworkRouteTransfer.RoutedSubnets transfer) |>
  else node.

Definition set_revision (network : Network.t) (revision : Z) (now : time) : Network.t :=
  network <| Network.ConfigRevision := revision |> <| Network.ConfigUpdatedAt := now |>.

(** The switch over the phase when cancelling: the new network, or none when the
    call is a replay that changes nothing. *)
Definition cancel_transfer (state : State.t) (now : time) (network : Network.t) (target : Node.t) :
    result (option Network.t) :=
  let transfer := Network.RouteTransfer network in
  let phase := NetworkRouteTransfer.Phase transfer in
  let finished := transfer <| NetworkRouteTransfer.Phase := RouteTransferPhaseCancelled |>
                           <| NetworkRouteTransfer.FinishedAt := now |> in
  if phase == RouteTransferPhaseCancelled then Ok None
  else if phase == RouteTransferPhasePreparingTarget then
    nextRevision ← nextConfigRevision (Network.ConfigRevision network) true;
    if Node.CertificateGeneration target <? NetworkRouteTransfer.TargetCertificateGeneration transfer then
      Ok (Some (set_revision (network <| Network.RouteTransfer := finished |>) nextRevision now))
    else
      fail ErrConflict when Node.CertificateGeneration target =? int64_max;;
      let cleaning := transfer <| NetworkRouteTransfer.Phase := RouteTransferPhaseCleaningTarget |>
        <| NetworkRouteTransfer.TargetCertificateGeneration := wrap64 (Node.CertificateGeneration target + 1) |> in
      Ok (Some (set_revision (network <| Network.RouteTransfer := cleaning |>) nextRevision now))
  else if phase == RouteTransferPhaseCleaningTarget then
    fail ErrConflict when negb (routeTransferNodeConverged state network target
                                  (NetworkRouteTransfer.TargetCertificateGeneration transfer));;
    Ok (Some (network <| Network.RouteTransfer := finished |>))
  else Err ErrConflict.

(** The switch over the phase when advancing: the new state of the nodes and the
    new network. *)
Definition advance_transfer (state : State.t) (now : time) (network : Network.t) (source target : Node.t) :
    result (option (State.t * Network.t)) :=
  let transfer := Network.RouteTransfer network in
  let phase := NetworkRouteTransfer.Phase transfer in
  if phase == RouteTransferPhaseCompleted then Ok None
  else if phase == RouteTransferPhasePreparingTarget then
    fail ErrConflict when negb (routeTransferNodeConverged state network target
                                  (NetworkRouteTransfer.TargetCertificateGeneration transfer));;
    fail ErrConflict when Node.CertificateGeneration source =? int64_max;;
    nextRevision ← nextConfigRevision (Network.ConfigRevision network) true;
    let state := map_nodes (promote_node (Node.ID source) (Node.ID target) transfer) state in
    let network := reconcileNetworkRoutePolicies state network in
    let promoted := transfer <| NetworkRouteTransfer.Phase := RouteTransferPhaseCleaningSource |>
      <| NetworkRouteTransfer.PromotedAt := now |>
      <| NetworkRouteTransfer.SourceCertificateGeneration := wrap64 (Node.CertificateGeneration source + 1) |> in
    Ok (Some (state, set_revision (network <| Network.RouteTransfer := promoted |>) nextRevision now))
  else if phase == RouteTransferPhaseCleaningSource then
    fail ErrConflict when negb (routeTransferNodeConverged state network source
                                  (NetworkRouteTransfer.SourceCertificateGeneration transfer));;
    Ok (Some (state, network <| Network.RouteTransfer :=
      transfer <| NetworkRouteTransfer.Phase := RouteTransferPhaseCompleted |> <| NetworkRouteTransfer.FinishedAt := now |> |>))
  else Err ErrConflict.

Definition updateRouteTransfer (eventID : string) (now : time) (actor : option Actor.t) (networkID : string)
    (input : UpdateRouteTransferInput.t) (cancel : bool) (state : State.t) : result State.t :=
  let requestID := TrimSpace (UpdateRouteTransferInput.RequestID input) in
  let expected := UpdateRouteTransferInput.ExpectedConfigRevision input in
  fail ErrInvalid when negb (validPersistedID networkID) || (expected <? 1) || negb (validRouteTransferRequestID requestID);;
  fail ErrConflict when negb (route_schema state);;
  '(index, network) ← of_option (network_at state networkID) ErrNotFound;
  let transfer := Network.RouteTransfer network in
  let phase := NetworkRouteTransfer.Phase transfer in
  fail ErrConflict when NetworkRouteTransfer.RequestID transfer != requestID;;
  if ((cancel && (phase == RouteTransferPhaseCancelled)) || (negb cancel && (phase == RouteTransferPhaseCompleted)))
     && terminalRouteTransitionReplayRevision expected (Network.ConfigRevision network) then Ok state
  else
  fail ErrConflict when negb (Network.ConfigRevision network =? expected);;
  let source := default Node.zero (findNode state (NetworkRouteTransfer.SourceNodeID transfer)) in
  let target := default Node.zero (findNode state (NetworkRouteTransfer.TargetNodeID transfer)) in
  if cancel then
    updated ← cancel_transfer state now network target;
    match updated with
    | None => Ok state
    | Some network =>
        let transfer := Network.RouteTransfer network in
        let action := if NetworkRouteTransfer.Phase transfer == RouteTransferPhaseCleaningTarget
                      then "network.route_transfer_cancellation_started" else "network.route_transfer_cancelled" in
        event ← newOptionalAttributedAudit eventID now action "network" (Network.ID network)
          [("request_id", DString (NetworkRouteTransfer.RequestID transfer));
           ("phase", DString (NetworkRouteTransfer.Phase transfer));
           ("config_revision", DInt (Network.ConfigRevision network))] actor;
        Ok (append_audit (put_network state index network) event)
    end
  else
    updated ← advance_transfer state now network source target;
    match updated with
    | None => Ok state
    | Some (state, network) =>
        let transfer := Network.RouteTransfer network in
        let action := if NetworkRouteTransfer.Phase transfer == RouteTransferPhaseCompleted
                      then "network.route_transfer_completed" else "network.route_transfer_promoted" in
        event ← newOptionalAttributedAudit eventID now action "network" (Network.ID network)
          [("request_id", DString (NetworkRouteTransfer.RequestID transfer));
           ("phase", DString (NetworkRouteTransfer.Phase transfer));
           ("routed_subnets", DString (join "," (elems (NetworkRouteTransfer.RoutedSubnets transfer))));
           ("source_node_id", DString (NetworkRouteTransfer.SourceNodeID transfer));
           ("target_node_id", DString (NetworkRouteTransfer.TargetNodeID transfer));
           ("config_revision", DInt (Network.ConfigRevision network))] actor;
        Ok (append_audit (put_network state index network) event)
    end.

(** ** The record of a transfer *)

(** What start establishes and no later step changes: the target can hold the
    transferred prefixes beside its own. *)
Definition transfer_mergeable (transfer : NetworkRouteTransfer.t) : Prop :=
  ∃ merged, normalizeRoutedSubnets (elems (NetworkRouteTransfer.TargetOriginalSubnets transfer) ++
                                    elems (NetworkRouteTransfer.RoutedSubnets transfer)) = Ok merged.

Lemma is_ok_tt (r : result unit) : is_ok r = true ↔ r = Ok tt.
Proof. destruct r as [[]|]; naive_solver. Qed.

(** The facts a valid, unfinished transfer carries. *)
Lemma validate_transfer_facts state network :
  validateNetworkRouteTransfer state network = Ok tt →
  let transfer := Network.RouteTransfer network in
  zeroNetworkRouteTransfer transfer = false →
  canonical (NetworkRouteTransfer.RoutedSubnets transfer) ∧ canonical (NetworkRouteTransfer.SourceOriginalSubnets transfer) ∧
  canonical (NetworkRouteTransfer.TargetOriginalSubnets transfer) ∧
  NetworkRouteTransfer.SourceNodeID transfer ≠ NetworkRouteTransfer.TargetNodeID transfer ∧
  elems (NetworkRouteTransfer.RoutedSubnets transfer) ⊆ elems (NetworkRouteTransfer.SourceOriginalSubnets transfer) ∧
  (routeTransferActive transfer = true → validateTransferParticipants state network = Ok tt).
Proof.
  intros H transfer Hz. unfold validateNetworkRouteTransfer in H. cbv zeta in H. fold transfer in H. rewrite Hz in H.
  inv_ok. split_bools. unfold canonicalSubnets in *.
  repeat match goal with H : is_ok _ = true |- _ => apply is_ok_tt, validate_canonical_iff in H end.
  match goal with H : subnetSetContainsAll _ _ = true |- _ => apply contains_all_iff in H end.
  split_and!; try done. intros Ha. by rewrite Ha in H.
Qed.

Lemma transfer_active_nonzero transfer : routeTransferActive transfer = true → zeroNetworkRouteTransfer transfer = false.
Proof.
  intros H. apply not_true_iff_false. intros Hz. unfold zeroNetworkRouteTransfer in Hz. split_bools.
  unfold routeTransferActive in H.
  by match goal with E : NetworkRouteTransfer.Phase transfer = "" |- _ => rewrite E in H end.
Qed.

(** The participants of an active transfer, and the subnets they own. *)
Lemma transfer_participants state network :
  validateTransferParticipants state network = Ok tt →
  let transfer := Network.RouteTransfer network in
  ∃ source target,
    findNode state (NetworkRouteTransfer.SourceNodeID transfer) = Some source ∧
    findNode state (NetworkRouteTransfer.TargetNodeID transfer) = Some target ∧
    Node.NetworkID source = Network.ID network ∧ Node.NetworkID target = Network.ID network ∧
    Node.Status source = "active" ∧ Node.Status target = "active" ∧
    (NetworkRouteTransfer.Phase transfer = RouteTransferPhasePreparingTarget ∨
     NetworkRouteTransfer.Phase transfer = RouteTransferPhaseCleaningTarget →
     elems (Node.RoutedSubnets source) = elems (NetworkRouteTransfer.SourceOriginalSubnets transfer) ∧
     elems (Node.RoutedSubnets target) = elems (NetworkRouteTransfer.TargetOriginalSubnets transfer)) ∧
    (NetworkRouteTransfer.Phase transfer = RouteTransferPhaseCleaningSource →
     elems (Node.RoutedSubnets source) =
       elems (subtractSubnets (NetworkRouteTransfer.SourceOriginalSubnets transfer) (NetworkRouteTransfer.RoutedSubnets transfer)) ∧
     elems (Node.RoutedSubnets target) =
       elems (mergeSubnets (NetworkRouteTransfer.TargetOriginalSubnets transfer) (NetworkRouteTransfer.RoutedSubnets transfer))).
Proof.
  intros H transfer. unfold validateTransferParticipants in H. cbv zeta in H. fold transfer in H.
  destruct (findNode state (NetworkRouteTransfer.SourceNodeID transfer)) as [source|]; [|done].
  destruct (findNode state (NetworkRouteTransfer.TargetNodeID transfer)) as [target|]; [|done].
  apply bind_Ok in H as (? & Hg%fail_if_Ok & H). split_bools. exists source, target. split_and!; try done.
  - intros Hphase. replace (bool_decide _ || bool_decide _) with true in H
      by (symmetry; apply orb_true_iff; rewrite !bool_decide_eq_true; done).
    inv_ok. unfold slices_equal in *. by split_bools.
  - intros Hphase. rewrite Hphase in H.
    rewrite (bool_decide_eq_false_2 (_ = RouteTransferPhasePreparingTarget)),
      (bool_decide_eq_false_2 (_ = RouteTransferPhaseCleaningTarget)),
      (bool_decide_eq_true_2 (_ = RouteTransferPhaseCleaningSource)) in H by done.
    cbn [orb] in H. inv_ok. unfold slices_equal in *. by split_bools.
Qed.

(** ** Ownership *)
Lemma promote_node_id s t transfer node : Node.ID (promote_node s t transfer node) = Node.ID node.
Proof. unfold promote_node. by repeat case_match. Qed.

Lemma sorted_ids l : Node.ID <$> sort_by node_le l = sort_by str_le (Node.ID <$> l).
Proof.
  symmetry. apply sort_by_unique; eauto.
  - pose proof (sort_by_sorted node_le node_le_total node_le_trans l) as Hs.
    induction Hs as [|x k Hs IH Hx]; csimpl; constructor; [done|]. by apply Forall_fmap.
  - by rewrite (fmap_Permutation Node.ID _ _ (sort_by_perm node_le l)).
Qed.

Lemma owner_ids_sorted state networkID prefix :
  (Node.ID <$> activeRouteOwners state networkID prefix) =
  sort_by str_le (Node.ID <$> filter (λ node, owns_route networkID prefix node = true) (State.Nodes state)).
Proof. apply sorted_ids. Qed.

Lemma filter_fmap_ids (f : Node.t → Node.t) (P Q : Node.t → bool) (l : list Node.t) :
  (∀ n, Node.ID (f n) = Node.ID n) → (∀ n, n ∈ l → P (f n) = Q n) →
  Node.ID <$> filter (λ n, P n = true) (f <$> l) = Node.ID <$> filter (λ n, Q n = true) l.
Proof.
  intros Hid. induction l as [|n l IH]; intros HPQ; [done|]. csimpl. rewrite !filter_cons.
  specialize (HPQ n ltac:(constructor)) as Hn. rewrite Hn.
  destruct (decide (Q n = true)); csimpl; rewrite ?Hid; rewrite IH; auto using list_elem_of_further.
Qed.

Lemma owns_live networkID route node :
  owns_route networkID route node = live_node networkID node && contains (elems (Node.RoutedSubnets node)) route.
Proof. done. Qed.

Lemma owns_with_subnets networkID route node subnets :
  owns_route networkID route (node <| Node.RoutedSubnets := subnets |>) =
  live_node networkID node && contains (elems subnets) route.
Proof. done. Qed.

(** The owners of a prefix after the promotion, node by node. *)
Lemma promoted_owns state network source target transfer networkID route node :
  NoDup (Node.ID <$> State.Nodes state) → node ∈ State.Nodes state →
  transfer = Network.RouteTransfer network →
  findNode state (NetworkRouteTransfer.SourceNodeID transfer) = Some source →
  findNode state (NetworkRouteTransfer.TargetNodeID transfer) = Some target →
  canonical (NetworkRouteTransfer.TargetOriginalSubnets transfer) → canonical (NetworkRouteTransfer.RoutedSubnets transfer) →
  transfer_mergeable transfer → Node.ID source ≠ Node.ID target →
  elems (Node.RoutedSubnets source) = elems (NetworkRouteTransfer.SourceOriginalSubnets transfer) →
  elems (Node.RoutedSubnets target) = elems (NetworkRouteTransfer.TargetOriginalSubnets transfer) →
  owns_route networkID route (promote_node (Node.ID source) (Node.ID target) transfer node) =
  (if bool_decide (route ∈ elems (NetworkRouteTransfer.RoutedSubnets transfer)) then
     if Node.ID node == Node.ID source then false
     else if Node.ID node == Node.ID target then live_node networkID node
     else owns_route networkID route node
   else owns_route networkID route node).
Proof.
  intros Hnd Hin Htr Hs Ht Hc1 Hc2 [merged Hm] Hne Hes Het.
  assert (∀ n x, findNode state x = Some n → Node.ID node = Node.ID n → node = n) as Huniq.
  { intros n x Hf E. pose proof (findNode_unique state node Hnd Hin) as H1.
    apply findNode_Some in Hf as [Hn _]. pose proof (findNode_unique state n Hnd Hn) as H2.
    rewrite E in H1. congruence. }
  unfold promote_node. destruct (decide (Node.ID node = Node.ID source)) as [E|E].
  { pose proof (Huniq _ _ Hs E) as ->. eval_bools. rewrite owns_with_subnets, owns_live.
    assert (contains (elems (subtractSubnets (NetworkRouteTransfer.SourceOriginalSubnets transfer)
        (NetworkRouteTransfer.RoutedSubnets transfer))) route =
      (negb (bool_decide (route ∈ elems (NetworkRouteTransfer.RoutedSubnets transfer))) &&
       contains (elems (Node.RoutedSubnets source)) route)) as ->.
    { apply Bool.eq_iff_eq_true. rewrite andb_true_iff, negb_true_iff, !contains_true, elem_of_subtract, Hes.
      rewrite bool_decide_eq_false. tauto. }
    destruct (bool_decide (route ∈ _)); [apply andb_false_r|done]. }
  rewrite (bool_decide_eq_false_2 _ E). destruct (decide (Node.ID node = Node.ID target)) as [E'|E'].
  - pose proof (Huniq _ _ Ht E') as ->. eval_bools. rewrite owns_with_subnets, owns_live.
    assert (contains (elems (mergeSubnets (NetworkRouteTransfer.TargetOriginalSubnets transfer)
        (NetworkRouteTransfer.RoutedSubnets transfer))) route =
      (bool_decide (route ∈ elems (NetworkRouteTransfer.RoutedSubnets transfer)) ||
       contains (elems (Node.RoutedSubnets target)) route)) as ->.
    { apply Bool.eq_iff_eq_true. rewrite orb_true_iff, !contains_true, bool_decide_eq_true.
      rewrite (elem_of_merge _ _ merged) by done. rewrite Het. tauto. }
    destruct (bool_decide (route ∈ _)); [apply andb_true_r|done].
  - rewrite (bool_decide_eq_false_2 _ E'). by case_match.
Qed.

Lemma live_ids_singleton (ids : list string) x : NoDup ids → (∀ y, y ∈ ids ↔ y = x) → ids = [x].
Proof.
  intros Hnd H. destruct ids as [|a [|b l]].
  - assert (x ∈ []) as Hx by (by apply H). by apply elem_of_nil in Hx.
  - f_equal. apply H. constructor.
  - exfalso. assert (a = x) by (apply H; constructor). assert (b = x) by (apply H; do 2 constructor).
    apply NoDup_cons in Hnd as [Hnd _]. apply Hnd. subst. constructor.
Qed.

Lemma single_owner_iff state networkID sourceID route :
  single_owner state networkID sourceID route = true → ∀ n, n ∈ State.Nodes state →
  owns_route networkID route n = true → Node.ID n = sourceID.
Proof.
  unfold single_owner. intros H n Hn Ho.
  assert (n ∈ activeRouteOwners state networkID route) as Hin by (by apply elem_of_owners).
  destruct (activeRouteOwners state networkID route) as [|o [|]]; [done| |done].
  apply list_elem_of_singleton in Hin as ->. by apply bool_decide_eq_true in H.
Qed.

(** The successful promotion step of updateRouteTransfer. *)
Lemma advance_preparing state now network source target updated :
  NetworkRouteTransfer.Phase (Network.RouteTransfer network) = RouteTransferPhasePreparingTarget →
  advance_transfer state now network source target = Ok updated →
  ∃ nextRevision, nextConfigRevision (Network.ConfigRevision network) true = Ok nextRevision ∧
    routeTransferNodeConverged state network target
      (NetworkRouteTransfer.TargetCertificateGeneration (Network.RouteTransfer network)) = true ∧
    Node.CertificateGeneration source ≠ int64_max ∧
    let state' := map_nodes (promote_node (Node.ID source) (Node.ID target) (Network.RouteTransfer network)) state in
    updated = Some (state', set_revision (reconcileNetworkRoutePolicies state' network <| Network.RouteTransfer :=
      Network.RouteTransfer network <| NetworkRouteTransfer.Phase := RouteTransferPhaseCleaningSource |>
        <| NetworkRouteTransfer.PromotedAt := now |>
        <| NetworkRouteTransfer.SourceCertificateGeneration := wrap64 (Node.CertificateGeneration source + 1) |> |>)
      nextRevision now).
Proof.
  intros Hp H. unfold advance_transfer in H. cbv zeta in H. rewrite Hp in H.
  rewrite (bool_decide_eq_false_2 (_ = RouteTransferPhaseCompleted)),
    (bool_decide_eq_true_2 (_ = RouteTransferPhasePreparingTarget)) in H by done.
  apply bind_Ok in H as (? & Hc%fail_if_Ok & H). apply bind_Ok in H as (? & Hg%fail_if_Ok & H).
  apply bind_Ok in H as (r & Hr & [= <-]). apply negb_false_iff in Hc. apply Z.eqb_neq in Hg. by exists r.
Qed.

(** updateRouteTransfer, reduced to the step on the network it finds. *)
Lemma advance_call eventID now actor networkID input state state' i network :
  updateRouteTransfer eventID now actor networkID input false state = Ok state' →
  network_at state networkID = Some (i, network) →
  state' = state ∨
  ∃ state1 network' event,
    advance_transfer state now network
      (default Node.zero (findNode state (NetworkRouteTransfer.SourceNodeID (Network.RouteTransfer network))))
      (default Node.zero (findNode state (NetworkRouteTransfer.TargetNodeID (Network.RouteTransfer network)))) =
      Ok (Some (state1, network')) ∧
    Network.ConfigRevision network = UpdateRouteTransferInput.ExpectedConfigRevision input ∧
    state' = append_audit (put_network state1 i network') event.
Proof.
  unfold updateRouteTransfer. intros H Hn. cbv zeta in H. rewrite Hn in H.
  apply bind_Ok in H as (? & _ & H). apply bind_Ok in H as (? & _ & H). cbn [of_option mbind result_bind] in H.
  apply bind_Ok in H as (? & _ & H). destruct (_ && _); [injection H as <-; by left|].
  apply bind_Ok in H as (? & Hr%fail_if_Ok & H). apply negb_false_iff, Z.eqb_eq in Hr.
  apply bind_Ok in H as ([[state1 network']|] & Ha & H); [|injection H as <-; by left].
  apply bind_Ok in H as (event & _ & [= <-]). right. by exists state1, network', event.
Qed.

Lemma reconcile_fields state network :
  Network.ID (reconcileNetworkRoutePolicies state network) = Network.ID network ∧
  Network.RouteTransfer (reconcileNetworkRoutePolicies state network) = Network.RouteTransfer network ∧
  Network.RouteProfileEdit (reconcileNetworkRoutePolicies state network) = Network.RouteProfileEdit network ∧
  Network.ConfigRevision (reconcileNetworkRoutePolicies state network) = Network.ConfigRevision network.
Proof. unfold reconcileNetworkRoutePolicies. by destruct (empty_slice _). Qed.

(** C23: Promoting a route transfer moves exactly the transferred prefixes: they
    leave the source and the target becomes their only owner, while every other
    prefix keeps the owners it had; nothing is ever owned by neither or by both. *)
Theorem promotion_moves_ownership eventID now actor networkID input state state' i network :
  updateRouteTransfer eventID now actor networkID input false state = Ok state' → state' ≠ state →
  network_at state networkID = Some (i, network) → NoDup (Node.ID <$> State.Nodes state) →
  let transfer := Network.RouteTransfer network in
  NetworkRouteTransfer.Phase transfer = RouteTransferPhasePreparingTarget →
  validateNetworkRouteTransfer state network = Ok tt → transfer_mergeable transfer →
  (∀ target, findNode state (NetworkRouteTransfer.TargetNodeID transfer) = Some target → enrolled target = true) →
  forallb (single_owner state (Network.ID network) (NetworkRouteTransfer.SourceNodeID transfer))
    (elems (NetworkRouteTransfer.RoutedSubnets transfer)) = true →
  ∀ route, (Node.ID <$> activeRouteOwners state' (Network.ID network) route) =
    (if bool_decide (route ∈ elems (NetworkRouteTransfer.RoutedSubnets transfer))
     then [NetworkRouteTransfer.TargetNodeID transfer]
     else Node.ID <$> activeRouteOwners state (Network.ID network) route).
Proof.
  intros Hcall Hchanged Hnet Hnd transfer Hphase Hvalid Hmerge Henr Hsingle route.
  destruct (advance_call _ _ _ _ _ _ _ _ _ Hcall Hnet) as [?|(state1 & network' & event & Ha & _ & ->)]; [done|].
  assert (routeTransferActive transfer = true) as Hact by (unfold routeTransferActive; by rewrite Hphase).
  destruct (validate_transfer_facts _ _ Hvalid (transfer_active_nonzero _ Hact)) as (Hc2 & _ & Hc1 & Hne & Hsub & Hpart).
  fold transfer in Hc2, Hc1, Hne, Hsub, Hpart.
  destruct (transfer_participants _ _ (Hpart Hact)) as (source & target & Hs & Ht & Hsn & Htn & Hsa & Hta & Hown & _).
  fold transfer in Hs, Ht, Hown, Ha. rewrite Hs, Ht in Ha. cbn [default from_option] in Ha.
  destruct (Hown (or_introl Hphase)) as [Hes Het].
  destruct (advance_preparing _ _ _ _ _ _ Hphase Ha) as (r & _ & _ & _ & [= -> ->]).
  pose proof (findNode_Some _ _ _ Hs) as [_ Hsid]. pose proof (findNode_Some _ _ _ Ht) as [Htin Htid].
  assert (Node.ID source ≠ Node.ID target) as Hne' by congruence.
  rewrite !owner_ids_sorted. fold transfer. cbn [State.Nodes append_audit put_network map_nodes over].
  pose proof (λ n Hn, promoted_owns state network source target transfer (Network.ID network) route n Hnd Hn eq_refl
    Hs Ht Hc1 Hc2 Hmerge Hne' Hes Het) as Hpo.
  erewrite filter_fmap_ids; [|apply promote_node_id|exact Hpo].
  case_bool_decide as Hr; [|done].
  assert (∀ (l : list string), NoDup l → (∀ y, y ∈ l ↔ y = NetworkRouteTransfer.TargetNodeID transfer) →
    sort_by str_le l = [NetworkRouteTransfer.TargetNodeID transfer]) as Hsort
    by (intros l H1 H2; by rewrite (live_ids_singleton l _ H1 H2)).
  apply Hsort.
  - eapply sublist_NoDup; [exact Hnd|]. apply fmap_sublist, sublist_filter.
  - intros y. rewrite list_elem_of_fmap. setoid_rewrite list_elem_of_filter. split.
    + intros (n & -> & Hn & Hin). case_bool_decide as E1; [done|]. case_bool_decide as E2; [congruence|].
      rewrite forallb_forall in Hsingle. apply list_elem_of_In in Hr.
      pose proof (single_owner_iff _ _ _ _ (Hsingle route Hr) n Hin Hn). congruence.
    + intros ->. exists target. split; [done|]. split; [|done]. rewrite (bool_decide_eq_false_2 _ (not_eq_sym Hne')).
      rewrite (bool_decide_eq_true_2 _ eq_refl). unfold live_node. eval_bools. by rewrite Henr.
Qed.

(** *** A concrete transfer *)
Definition id_of (c : string) : string := "node-0000-0000-0000-" +:+ c.
Definition transfer_phase_record (phase : string) (sourceGeneration promotedAt : Z) : NetworkRouteTransfer.t :=
  NetworkRouteTransfer.make "request-0000-0001" phase (id_of "a") (id_of "b") (Some ["192.168.7.0/24"])
    (Some ["192.168.7.0/24"; "192.168.9.0/24"]) None 2 sourceGeneration 10 promotedAt 0.
Definition transfer_network : Network.t :=
  example_network <| Network.ID := "network-0000-0000" |> <| Network.ConfigRevision := 4 |>
    <| Network.RouteTransfer := transfer_phase_record RouteTransferPhasePreparingTarget 0 0 |>.
Definition converged_node (id : string) (subnets : slice string) (generation : Z) (digest : string) : Node.t :=
  example_gateway (id_of id) <| Node.NetworkID := "network-0000-0000" |> <| Node.RoutedSubnets := subnets |>
    <| Node.CertificateGeneration := generation |> <| Node.AppliedCertificateGeneration := generation |>
    <| Node.AppliedConfigRevision := 4 |> <| Node.CertificateFingerprint := "f" |>
    <| Node.ReportedCertificateFingerprint := "f" |> <| Node.NebulaRunning := true |>
    <| Node.AgentStatus := "healthy" |> <| Node.LastSeenAt := Some 20 |> <| Node.AppliedConfigSHA256 := digest |>.
Definition transfer_state_with (digest : string) : State.t :=
  State.zero <| State.Version := ControlStateVersionRouteProfileEdit |> <| State.Networks := [transfer_network] |>
    <| State.Nodes := [converged_node "a" (Some ["192.168.7.0/24"; "192.168.9.0/24"]) 1 digest;
                       converged_node "b" None 2 digest] |>.
Definition transfer_state : State.t :=
  transfer_state_with (ConfigDigest (renderConfig (transfer_state_with "") transfer_network (converged_node "b" None 2 ""))).
Definition promote_call (state : State.t) : result State.t :=
  updateRouteTransfer "event-0000-0000-0000" 30 None "network-0000-0000"
    (UpdateRouteTransferInput.make 4 "request-0000-0001") false state.
Definition promoted_state : State.t := match promote_call transfer_state with Ok s => s | Err _ => State.zero end.

Lemma promotion_moves_ownership_witness :
  (Node.ID <$> activeRouteOwners promoted_state "network-0000-0000" "192.168.7.0/24") = [id_of "b"].
Proof.
  refine (promotion_moves_ownership "event-0000-0000-0000" 30 None "network-0000-0000"
    (UpdateRouteTransferInput.make 4 "request-0000-0001") transfer_state promoted_state 0 transfer_network
    _ _ _ _ _ _ _ _ _ "192.168.7.0/24").
  - vm_compute. reflexivity.
  - intros E. apply (f_equal (λ s, length (State.Audit s))) in E. vm_compute in E. discriminate E.
  - vm_compute. reflexivity.
  - apply (bool_decide_unpack _). vm_compute. exact I.
  - reflexivity.
  - vm_compute. reflexivity.
  - exists (Some ["192.168.7.0/24"]). vm_compute. reflexivity.
  - intros target Ht. vm_compute in Ht. injection Ht as <-. reflexivity.
  - vm_compute. reflexivity.
Defined.

(** ** Replays *)

(** Starting a route transfer is idempotent: repeating the request that
    succeeded, even at a later instant, with another audit identifier or by another
    actor, succeeds without changing the state. *)
Theorem start_transfer_idempotent eventID now actor eventID' now' actor' networkID input state state' :
  startRouteTransfer eventID now actor networkID input state = Ok state' →
  startRouteTransfer eventID' now' actor' networkID input state' = Ok state'.
Proof.
  unfold startRouteTransfer. cbv zeta. intros H.
  destruct (normalizeRoutedSubnets (StartRouteTransferInput.RoutedSubnets input)) as [routes|] eqn:Hr; [|done].
  apply guard_iff in H as [Hg H]. apply guard_iff in H as [Hv H]. rewrite Hg. cbn [fail_if mbind result_bind].
  apply bind_Ok in H as ([i network] & Hn%of_option_Ok & H). destruct (_ == _) eqn:Hq in H.
  { apply guard_iff in H as [Hsame [= <-]]. rewrite Hv, Hn. cbn [fail_if mbind result_bind of_option].
    by rewrite Hq, Hsame. }
  do 2 apply guard_iff in H as [_ H].
  apply bind_Ok in H as (source & Hs%of_option_Ok & H). apply bind_Ok in H as (target & Ht%of_option_Ok & H).
  do 5 apply guard_iff in H as [_ H].
  apply bind_Ok in H as (revision & _ & H). apply bind_Ok in H as (event & _ & [= <-]).
  change (route_schema (append_audit _ _)) with (route_schema state). rewrite Hv.
  rewrite network_at_append. erewrite network_at_put by done. cbn [fail_if mbind result_bind of_option].
  apply findNode_Some in Hs as [_ Hs], Ht as [_ Ht].
  cbn [Network.RouteTransfer over NetworkRouteTransfer.RequestID NetworkRouteTransfer.SourceNodeID
    NetworkRouteTransfer.TargetNodeID NetworkRouteTransfer.RoutedSubnets].
  unfold slices_equal. by eval_bools.
Qed.

(** What a step of the transfer leaves of the network it found. *)
Lemma cancel_result state now network target network' :
  in_int64 (Network.ConfigRevision network) → cancel_transfer state now network target = Ok (Some network') →
  Network.ID network' = Network.ID network ∧
  NetworkRouteTransfer.RequestID (Network.RouteTransfer network') = NetworkRouteTransfer.RequestID (Network.RouteTransfer network) ∧
  (Network.ConfigRevision network' = Network.ConfigRevision network ∨
   Network.ConfigRevision network' = Network.ConfigRevision network + 1).
Proof.
  intros Hb H. unfold cancel_transfer in H. cbv zeta in H. repeat case_bool_decide; try done.
  - apply bind_Ok in H as (r & [-> _]%nextConfigRevision_Ok & H); [|done].
    destruct (_ <? _); [injection H as <-|apply guard_iff in H as [_ [= <-]]]; split_and!; try done; by right.
  - apply guard_iff in H as [_ [= <-]]. split_and!; try done. by left.
Qed.

Lemma advance_result state now network source target state' network' :
  in_int64 (Network.ConfigRevision network) →
  advance_transfer state now network source target = Ok (Some (state', network')) →
  Network.ID network' = Network.ID network ∧ State.Networks state' = State.Networks state ∧
  State.Version state' = State.Version state ∧
  NetworkRouteTransfer.RequestID (Network.RouteTransfer network') = NetworkRouteTransfer.RequestID (Network.RouteTransfer network) ∧
  (Network.ConfigRevision network' = Network.ConfigRevision network ∨
   Network.ConfigRevision network' = Network.ConfigRevision network + 1).
Proof.
  intros Hb H. unfold advance_transfer in H. cbv zeta in H. repeat case_bool_decide; try done.
  - do 2 apply guard_iff in H as [_ H]. apply bind_Ok in H as (r & [-> _]%nextConfigRevision_Ok & [= <- <-]); [|done].
    split_and!; try done; [|by right]. cbn -[reconcileNetworkRoutePolicies]. apply reconcile_fields.
  - apply guard_iff in H as [_ [= <- <-]]. split_and!; try done. by left.
Qed.

(** A finished transfer answers the repeated request with the state it has. *)
Lemma replay_answers eventID now actor networkID input (cancel : bool) state i network :
  network_at state networkID = Some (i, network) →
  negb (validPersistedID networkID) || (UpdateRouteTransferInput.ExpectedConfigRevision input <? 1)
    || negb (validRouteTransferRequestID (TrimSpace (UpdateRouteTransferInput.RequestID input))) = false →
  route_schema state = true →
  NetworkRouteTransfer.RequestID (Network.RouteTransfer network) = TrimSpace (UpdateRouteTransferInput.RequestID input) →
  NetworkRouteTransfer.Phase (Network.RouteTransfer network) =
    (if cancel then RouteTransferPhaseCancelled else RouteTransferPhaseCompleted) →
  Network.ConfigRevision network = UpdateRouteTransferInput.ExpectedConfigRevision input ∨
    Network.ConfigRevision network = UpdateRouteTransferInput.ExpectedConfigRevision input + 1 →
  updateRouteTransfer eventID now actor networkID input cancel state = Ok state.
Proof.
  intros Hn Hg Hv Hq Hp Hr. unfold updateRouteTransfer. cbv zeta. rewrite Hg, Hv, Hn.
  cbn [fail_if mbind result_bind of_option negb]. rewrite (bool_decide_eq_true_2 _ Hq). cbn [negb fail_if mbind result_bind].
  assert (terminalRouteTransitionReplayRevision (UpdateRouteTransferInput.ExpectedConfigRevision input)
    (Network.ConfigRevision network) = true) as ->.
  { unfold terminalRouteTransitionReplayRevision. split_bools.
    match goal with H : (_ <? 1) = false |- _ => apply Z.ltb_ge in H end.
    apply orb_true_iff. rewrite andb_true_iff, !Z.eqb_eq, Z.ltb_lt. lia. }
  rewrite Hp. by destruct cancel.
Qed.

(** The call that finishes a route transfer is idempotent: once a cancellation
    has cancelled the transfer, or an advance has completed it, repeating that
    request with the same expected revision succeeds without changing the state. *)
Theorem finish_transfer_idempotent eventID now actor eventID' now' actor' networkID input (cancel : bool) state state' i network :
  updateRouteTransfer eventID now actor networkID input cancel state = Ok state' →
  (∀ n, n ∈ State.Networks state → in_int64 (Network.ConfigRevision n)) →
  network_at state' networkID = Some (i, network) →
  NetworkRouteTransfer.Phase (Network.RouteTransfer network) =
    (if cancel then RouteTransferPhaseCancelled else RouteTransferPhaseCompleted) →
  updateRouteTransfer eventID' now' actor' networkID input cancel state' = Ok state'.
Proof.
  intros H Hrev Hn' Hphase. unfold updateRouteTransfer in H. cbv zeta in H.
  apply guard_iff in H as [Hg H]. apply guard_iff in H as [Hv%negb_false_iff H].
  apply bind_Ok in H as ([j network0] & Hn%of_option_Ok & H).
  apply guard_iff in H as [Hq H]. apply negb_false_iff, bool_decide_eq_true in Hq.
  pose proof (network_at_Some _ _ _ _ Hn) as [Hj _]. pose proof (Hrev _ (list_elem_of_lookup_2 _ _ _ Hj)) as Hin.
  destruct (_ && _) eqn:Hc in H.
  { injection H as <-. rewrite Hn in Hn'. injection Hn' as <- <-. apply andb_true_iff in Hc as [_ Hc].
    unfold terminalRouteTransitionReplayRevision in Hc. apply (replay_answers _ _ _ _ _ _ _ _ _ Hn); try done. lia. }
  apply guard_iff in H as [Hr H]. apply negb_false_iff, Z.eqb_eq in Hr. destruct cancel.
  - apply bind_Ok in H as ([network'|] & Ha & H).
    + apply bind_Ok in H as (event & _ & [= <-]). apply (cancel_result _ _ _ _ _ Hin) in Ha as (Hid & Hq' & Hr').
      rewrite network_at_append, (network_at_put _ _ _ _ _ Hn Hid) in Hn'. injection Hn' as <- <-.
      apply (replay_answers _ _ _ _ _ _ _ j network'); try done; [by apply (network_at_put _ _ _ _ network' Hn)|congruence|lia].
    + injection H as <-. rewrite Hn in Hn'. injection Hn' as <- <-. eapply replay_answers; try done. lia.
  - apply bind_Ok in H as ([[state1 network']|] & Ha & H).
    + apply bind_Ok in H as (event & _ & [= <-]).
      apply (advance_result _ _ _ _ _ _ _ Hin) in Ha as (Hid & Hnet & Hver & Hq' & Hr').
      assert (network_at state1 networkID = Some (j, network0)) as Hn1 by (unfold network_at; by rewrite Hnet).
      rewrite network_at_append, (network_at_put _ _ _ _ _ Hn1 Hid) in Hn'. injection Hn' as <- <-.
      apply (replay_answers _ _ _ _ _ _ _ j network'); try done; [by apply (network_at_put _ _ _ _ network' Hn1)| |congruence|lia].
      unfold route_schema. cbn. by rewrite Hver.
    + injection H as <-. rewrite Hn in Hn'. injection Hn' as <- <-. eapply replay_answers; try done. lia.
Qed.

Definition idle_state : State.t :=
  transfer_state <| State.Networks := [transfer_network <| Network.RouteTransfer := NetworkRouteTransfer.zero |>] |>.
Definition start_input : StartRouteTransferInput.t :=
  StartRouteTransferInput.make (id_of "a") (id_of "b") ["192.168.7.0/24"] 4 "request-0000-0002".
Definition started_state : State.t :=
  match startRouteTransfer "event-0000-0000-0001" 40 None "network-0000-0000" start_input idle_state with
  | Ok s => s | Err _ => State.zero end.
Definition cancel_input : UpdateRouteTransferInput.t := UpdateRouteTransferInput.make 5 "request-0000-0002".
Definition cancelled_state : State.t :=
  match updateRouteTransfer "event-0000-0000-0002" 50 None "network-0000-0000" cancel_input true started_state with
  | Ok s => s | Err _ => State.zero end.

Lemma start_transfer_idempotent_witness :
  startRouteTransfer "event-0000-0000-0009" 90 None "network-0000-0000" start_input started_state = Ok started_state.
Proof.
  apply (start_transfer_idempotent "event-0000-0000-0001" 40 None "event-0000-0000-0009" 90 None
    "network-0000-0000" start_input idle_state started_state). vm_compute. reflexivity.
Defined.

Lemma finish_transfer_idempotent_witness :
  updateRouteTransfer "event-0000-0000-0009" 90 None "network-0000-0000" cancel_input true cancelled_state = Ok cancelled_state.
Proof.
  apply (finish_transfer_idempotent "event-0000-0000-0002" 50 None "event-0000-0000-0009" 90 None
    "network-0000-0000" cancel_input true started_state cancelled_state 0
    (default Network.zero (findNetwork cancelled_state "network-0000-0000"))).
  - vm_compute. reflexivity.
  - intros n Hn. vm_compute in Hn. apply list_elem_of_In in Hn as [<-|[]]. vm_compute. split; discriminate.
  - vm_compute. reflexivity.
  - vm_compute. reflexivity.
Defined.
