(* ===== verification/TransferSafety.v ===== *)
(** * Route transfers as a state machine

    The calls of internal/control/route_transfer.go and the agents' own progress
    as a step relation on the control state, with the invariant every step keeps:
    each network's transfer record is valid against the nodes it names.  From the
    invariant follow the promises of a transfer: a transferred prefix always has
    exactly one of the two participants as its owner, and a certificate always
    covers what its node owns. *)
From S2P Require Import Prelude GoStd IPv4 Model AuditLog Routes RouteState Reservations Firewall.
From S2P Require Import RoutePolicies NetworkSettings Render RouteTransfer.

(** ** The validity check, as a specification *)
Definition transfer_metadata (t : NetworkRouteTransfer.t) : Prop :=
  let phase := NetworkRouteTransfer.Phase t in
  let promoted := NetworkRouteTransfer.PromotedAt t in
  let finished := NetworkRouteTransfer.FinishedAt t in
  let generation := NetworkRouteTransfer.SourceCertificateGeneration t in
  ((phase = RouteTransferPhasePreparingTarget ∨ phase = RouteTransferPhaseCleaningTarget) ∧
     promoted = 0 ∧ finished = 0 ∧ generation = 0) ∨
  (phase = RouteTransferPhaseCleaningSource ∧ promoted ≠ 0 ∧ finished = 0 ∧ 1 ≤ generation) ∨
  (phase = RouteTransferPhaseCompleted ∧ promoted ≠ 0 ∧ finished ≠ 0 ∧ 1 ≤ generation) ∨
  (phase = RouteTransferPhaseCancelled ∧ promoted = 0 ∧ finished ≠ 0 ∧ generation = 0).

Record transfer_record (t : NetworkRouteTransfer.t) : Prop := {
  record_request : validRouteTransferRequestID (NetworkRouteTransfer.RequestID t) = true;
  record_source : validPersistedID (NetworkRouteTransfer.SourceNodeID t) = true;
  record_target : validPersistedID (NetworkRouteTransfer.TargetNodeID t) = true;
  record_distinct : NetworkRouteTransfer.SourceNodeID t ≠ NetworkRouteTransfer.TargetNodeID t;
  record_started : NetworkRouteTransfer.StartedAt t ≠ 0;
  record_routes : canonical (NetworkRouteTransfer.RoutedSubnets t);
  record_some_route : elems (NetworkRouteTransfer.RoutedSubnets t) ≠ [];
  record_source_routes : canonical (NetworkRouteTransfer.SourceOriginalSubnets t);
  record_target_routes : canonical (NetworkRouteTransfer.TargetOriginalSubnets t);
  record_owned : elems (NetworkRouteTransfer.RoutedSubnets t) ⊆ elems (NetworkRouteTransfer.SourceOriginalSubnets t);
  record_generation : 1 ≤ NetworkRouteTransfer.TargetCertificateGeneration t;
  record_metadata : transfer_metadata t }.

Lemma canonical_subnets_iff s : canonicalSubnets s = true ↔ canonical s.
Proof. unfold canonicalSubnets. by rewrite is_ok_tt, validate_canonical_iff. Qed.

Lemma empty_slice_iff {A} (s : slice A) : empty_slice s = true ↔ elems s = [].
Proof. unfold empty_slice. by destruct (elems s). Qed.
Lemma empty_slice_false {A} (s : slice A) : empty_slice s = false ↔ elems s ≠ [].
Proof. rewrite <- not_true_iff_false. by rewrite empty_slice_iff. Qed.

Lemma zero_not_active t : zeroNetworkRouteTransfer t = true → routeTransferActive t = false.
Proof. intros H. apply not_true_iff_false. intros Ha%transfer_active_nonzero. congruence. Qed.

(** The five phase-specific guards amount to [transfer_metadata]. *)
Lemma metadata_guards (phase : string) (promoted finished generation : Z) :
  let pr := negb (IsZero promoted) in let fi := negb (IsZero finished) in
  (phase != RouteTransferPhasePreparingTarget) && (phase != RouteTransferPhaseCleaningSource)
      && (phase != RouteTransferPhaseCleaningTarget) && (phase != RouteTransferPhaseCompleted)
      && (phase != RouteTransferPhaseCancelled) = false ∧
  (phase == RouteTransferPhasePreparingTarget) && (pr || fi || negb (generation =? 0)) = false ∧
  (phase == RouteTransferPhaseCleaningTarget) && (pr || fi || negb (generation =? 0)) = false ∧
  (phase == RouteTransferPhaseCleaningSource) && (negb pr || fi || (generation <? 1)) = false ∧
  (phase == RouteTransferPhaseCompleted) && (negb pr || negb fi || (generation <? 1)) = false ∧
  (phase == RouteTransferPhaseCancelled) && (pr || negb fi || negb (generation =? 0)) = false ↔
  ((phase = RouteTransferPhasePreparingTarget ∨ phase = RouteTransferPhaseCleaningTarget) ∧
     promoted = 0 ∧ finished = 0 ∧ generation = 0) ∨
  (phase = RouteTransferPhaseCleaningSource ∧ promoted ≠ 0 ∧ finished = 0 ∧ 1 ≤ generation) ∨
  (phase = RouteTransferPhaseCompleted ∧ promoted ≠ 0 ∧ finished ≠ 0 ∧ 1 ≤ generation) ∨
  (phase = RouteTransferPhaseCancelled ∧ promoted = 0 ∧ finished ≠ 0 ∧ generation = 0).
Proof.
  unfold IsZero.
  destruct (Z.eqb_spec promoted 0), (Z.eqb_spec finished 0), (Z.eqb_spec generation 0), (Z.ltb_spec generation 1);
    try lia; cbn [negb orb]; rewrite ?andb_true_r, ?andb_false_r, ?bool_decide_eq_false;
    repeat case_bool_decide; subst; cbn; naive_solver lia.
Qed.

Lemma validate_transfer_iff state network :
  let t := Network.RouteTransfer network in
  validateNetworkRouteTransfer state network = Ok tt ↔
  zeroNetworkRouteTransfer t = true ∨
  (transfer_record t ∧ (routeTransferActive t = true → validateTransferParticipants state network = Ok tt)).
Proof.
  intros t. unfold validateNetworkRouteTransfer. cbv zeta. fold t. destruct (zeroNetworkRouteTransfer t) eqn:Hz.
  { split; [by left|done]. }
  rewrite !guard_iff, !negb_orb_false, !negb_false_iff, !canonical_subnets_iff, !empty_slice_false,
    contains_all_iff, bool_decide_eq_false, Z.ltb_ge.
  pose proof (metadata_guards (NetworkRouteTransfer.Phase t) (NetworkRouteTransfer.PromotedAt t)
    (NetworkRouteTransfer.FinishedAt t) (NetworkRouteTransfer.SourceCertificateGeneration t)) as Hm.
  cbv zeta in Hm. split.
  - intros (((((Hq & Hs) & Ht) & Hne) & Hst) & Hp & (Hr & Hr1) & (Hso & _) & Hto & (Hown & Hg) & G1 & G2 & G3 & G4 & G5 & Hpart).
    right. split; [|by intros Ha; rewrite Ha in Hpart].
    constructor; auto; [by apply Z.eqb_neq|]. apply Hm. tauto.
  - intros [|[[Hq Hs Ht Hne Hst Hr Hr1 Hso Hto Hown Hg Hmeta] Hpart]]; [done|].
    destruct (proj2 Hm Hmeta) as (Hp & G1 & G2 & G3 & G4 & G5).
    split_and!; auto; [by apply Z.eqb_neq| |by case_match; auto].
    intros E. apply Hr1. destruct (elems (NetworkRouteTransfer.RoutedSubnets t)) as [|x l]; [done|].
    exfalso. specialize (Hown x ltac:(constructor)). rewrite E in Hown. by apply elem_of_nil in Hown.
Qed.

(** ** What a step may change without disturbing a transfer *)
Definition owner_view (node : Node.t) : string * string * list string :=
  (Node.NetworkID node, Node.Status node, elems (Node.RoutedSubnets node)).

Lemma participants_ext state state' network network' :
  Network.ID network' = Network.ID network → Network.RouteTransfer network' = Network.RouteTransfer network →
  (∀ id, id = NetworkRouteTransfer.SourceNodeID (Network.RouteTransfer network) ∨
         id = NetworkRouteTransfer.TargetNodeID (Network.RouteTransfer network) →
         owner_view <$> findNode state' id = owner_view <$> findNode state id) →
  validateTransferParticipants state' network' = validateTransferParticipants state network.
Proof.
  intros Hid Htr Hview. unfold validateTransferParticipants. rewrite Hid, Htr. cbv zeta.
  pose proof (Hview _ (or_introl eq_refl)) as H1. pose proof (Hview _ (or_intror eq_refl)) as H2.
  destruct (findNode state' (NetworkRouteTransfer.SourceNodeID _)) as [a|], (findNode state _) as [a'|];
    cbn in H1; try done.
  destruct (findNode state' _) as [b|], (findNode state _) as [b'|]; cbn in H2; try done.
  injection H1 as E1 E2 E3. injection H2 as E4 E5 E6. unfold slices_equal.
  by rewrite E1, E2, E3, E4, E5, E6.
Qed.

Definition transfer_ok (state : State.t) (network : Network.t) : Prop :=
  validateNetworkRouteTransfer state network = Ok tt ∧
  (routeTransferActive (Network.RouteTransfer network) = true → transfer_mergeable (Network.RouteTransfer network)).

Lemma transfer_ok_ext state state' network :
  (routeTransferActive (Network.RouteTransfer network) = true → validateTransferParticipants state network = Ok tt →
   validateTransferParticipants state' network = Ok tt) →
  transfer_ok state network → transfer_ok state' network.
Proof.
  intros H [Hv Hm]. split; [|done]. apply validate_transfer_iff. apply validate_transfer_iff in Hv as [Hz|[Hr Hp]]; auto.
Qed.

(** ** The invariant *)
Definition node_ok (node : Node.t) : Prop :=
  canonical (Node.RoutedSubnets node) ∧ 0 ≤ Node.CertificateGeneration node ≤ int64_max.

Record transfers_ok (state : State.t) : Prop := {
  ok_node_ids : NoDup (Node.ID <$> State.Nodes state);
  ok_network_ids : NoDup (Network.ID <$> State.Networks state);
  ok_nodes : ∀ node, node ∈ State.Nodes state → node_ok node;
  ok_transfers : ∀ network, network ∈ State.Networks state → transfer_ok state network }.

(** Writing one network back, when the others are still in order. *)
Lemma put_transfers_ok state i old network event :
  State.Networks state !! i = Some old → Network.ID network = Network.ID old →
  NoDup (Node.ID <$> State.Nodes state) → NoDup (Network.ID <$> State.Networks state) →
  (∀ node, node ∈ State.Nodes state → node_ok node) →
  (∀ j m, j ≠ i → State.Networks state !! j = Some m → transfer_ok state m) → transfer_ok state network →
  transfers_ok (append_audit (put_network state i network) event).
Proof.
  intros Hi Hid Hn1 Hn2 Hn3 Hother Hnew. constructor; [done| |done|].
  - cbn. rewrite list_fmap_insert, list_insert_id; [done|]. by rewrite list_lookup_fmap, Hi, Hid.
  - intros m [j Hj]%list_elem_of_lookup_1.
    apply put_network_lookup in Hj as [[-> ->]|[Hne Hj]]; [exact Hnew|exact (Hother j m Hne Hj)].
Qed.

(** ** Steps *)
Definition agent_update (node node' : Node.t) : Prop :=
  Node.ID node' = Node.ID node ∧ owner_view node' = owner_view node ∧
  Node.CertificateGeneration node ≤ Node.CertificateGeneration node' ≤ int64_max.

(** A route transfer is started, advanced or cancelled by its call at a non-zero
    instant; in between, agents renew certificates and report. *)
Inductive transfer_step : State.t → State.t → Prop :=
  | step_start eventID now actor networkID input state state' :
      now ≠ 0 → startRouteTransfer eventID now actor networkID input state = Ok state' → transfer_step state state'
  | step_update eventID now actor networkID input cancel state state' :
      now ≠ 0 → updateRouteTransfer eventID now actor networkID input cancel state = Ok state' →
      transfer_step state state'
  | step_agents f state :
      (∀ node, node ∈ State.Nodes state → agent_update node (f node)) → (∀ node, Node.ID (f node) = Node.ID node) →
      transfer_step state (map_nodes f state).

Lemma agents_keep f state :
  (∀ node, node ∈ State.Nodes state → agent_update node (f node)) → (∀ node, Node.ID (f node) = Node.ID node) →
  transfers_ok state → transfers_ok (map_nodes f state).
Proof.
  intros Hf Hid [H1 H2 H3 H4]. constructor; [| done | |].
  - cbn. rewrite <- list_fmap_compose. rewrite (list_fmap_ext (Node.ID ∘ f) Node.ID) by (intros; apply Hid). done.
  - cbn. intros n (m & -> & Hm)%list_elem_of_fmap. destruct (Hf m Hm) as (_ & Hv & Hg).
    destruct (H3 m Hm) as [Hc Hb]. injection Hv as _ _ E. split; [unfold canonical; by rewrite E|lia].
  - intros network Hn. apply (transfer_ok_ext state); [|by apply H4].
    intros _ <-. apply participants_ext; [done..|]. intros id _. rewrite findNode_map by done.
    destruct (findNode state id) as [n|] eqn:E; [|done]. simpl.
    apply findNode_Some in E as [Hin _]. by destruct (Hf n Hin) as (_ & -> & _).
Qed.

(** A start that is not a replay, with what it checked. *)
Lemma start_call eventID now actor networkID input state state' :
  startRouteTransfer eventID now actor networkID input state = Ok state' →
  state' = state ∨
  ∃ i network source target routes merged revision event,
    network_at state networkID = Some (i, network) ∧
    normalizeRoutedSubnets (StartRouteTransferInput.RoutedSubnets input) = Ok routes ∧ elems routes ≠ [] ∧
    validRouteTransferRequestID (TrimSpace (StartRouteTransferInput.RequestID input)) = true ∧
    validPersistedID (Node.ID source) = true ∧ validPersistedID (Node.ID target) = true ∧
    Node.ID source ≠ Node.ID target ∧
    findNode state (Node.ID source) = Some source ∧ findNode state (Node.ID target) = Some target ∧
    Node.NetworkID source = Network.ID network ∧ Node.NetworkID target = Network.ID network ∧
    Node.Status source = "active" ∧ Node.Status target = "active" ∧
    elems routes ⊆ elems (Node.RoutedSubnets source) ∧
    normalizeRoutedSubnets (elems (Node.RoutedSubnets target) ++ elems routes) = Ok merged ∧
    1 ≤ Node.CertificateGeneration target ∧ Node.CertificateGeneration target ≠ int64_max ∧
    state' = append_audit (put_network state i (network
      <| Network.RouteTransfer := NetworkRouteTransfer.make (TrimSpace (StartRouteTransferInput.RequestID input))
           RouteTransferPhasePreparingTarget (Node.ID source) (Node.ID target) routes (Node.RoutedSubnets source)
           (Node.RoutedSubnets target) (wrap64 (Node.CertificateGeneration target + 1)) 0 now 0 0 |>
      <| Network.ConfigRevision := revision |> <| Network.ConfigUpdatedAt := now |>)) event.
Proof.
  unfold startRouteTransfer. cbv zeta. intros H.
  destruct (normalizeRoutedSubnets (StartRouteTransferInput.RoutedSubnets input)) as [routes|] eqn:Hr; [|done].
  apply guard_iff in H as [Hg H]. apply guard_iff in H as [_ H].
  apply bind_Ok in H as ([i network] & Hn%of_option_Ok & H). destruct (_ == _) in H.
  { apply guard_iff in H as [_ [= <-]]. by left. }
  right. do 2 apply guard_iff in H as [_ H].
  apply bind_Ok in H as (source & Hs%of_option_Ok & H). apply bind_Ok in H as (target & Ht%of_option_Ok & H).
  apply guard_iff in H as [Hp H]. apply guard_iff in H as [Hown H]. apply guard_iff in H as [_ H].
  apply guard_iff in H as [Hm H]. apply guard_iff in H as [Hgen H].
  apply bind_Ok in H as (revision & _ & H). apply bind_Ok in H as (event & _ & [= <-]).
  pose proof (findNode_Some _ _ _ Hs) as [_ Es]. pose proof (findNode_Some _ _ _ Ht) as [_ Et].
  rewrite <- Es in Hs, Hg. rewrite <- Et in Ht, Hg.
  destruct (normalizeRoutedSubnets (elems (Node.RoutedSubnets target) ++ elems routes)) as [merged|] eqn:Hmm; [|done].
  split_bools. rewrite contains_all_iff, empty_slice_false, Z.ltb_ge, Z.eqb_neq in *.
  exists i, network, source, target, routes, merged, revision, event. by split_and!.
Qed.

Lemma successor_generation z : 0 ≤ z → z ≤ int64_max → z ≠ int64_max → wrap64 (z + 1) = z + 1.
Proof. intros. apply wrap64_succ; [|done]. unfold in_int64, int64_min. lia. Qed.

Lemma start_keeps eventID now actor networkID input state state' :
  now ≠ 0 → startRouteTransfer eventID now actor networkID input state = Ok state' →
  transfers_ok state → transfers_ok state'.
Proof.
  intros Hnow H Hok. apply start_call in H as [->|H]; [done|].
  destruct H as (i & network & source & target & routes & merged & revision & event & Hn & Hr & Hr1 & Hq & Hvs & Hvt &
    Hne & Hs & Ht & Hsn & Htn & Hsa & Hta & Hown & Hm & Hg1 & Hg2 & ->).
  destruct Hok as [H1 H2 H3 H4]. apply network_at_Some in Hn as [Hi _].
  pose proof (findNode_Some _ _ _ Hs) as [Hsin _]. pose proof (findNode_Some _ _ _ Ht) as [Htin _].
  destruct (H3 _ Hsin) as [Hcs _]. destruct (H3 _ Htin) as [Hct Hgt].
  apply (put_transfers_ok state i network); try done.
  { intros j m _ Hj. apply H4. by eapply list_elem_of_lookup_2. }
  split; [|intros _; by exists merged]. apply validate_transfer_iff. right. split.
  - constructor; cbn; try done; [by apply (normalize_canonical _ _ Hr)| |].
    + rewrite successor_generation by lia. lia.
    + left. auto.
  - intros _. unfold validateTransferParticipants. cbn. rewrite Hs, Ht.
    unfold slices_equal. by eval_bools.
Qed.

(** ** Advancing and cancelling keep the invariant *)
Lemma cancel_call eventID now actor networkID input state state' i network :
  updateRouteTransfer eventID now actor networkID input true state = Ok state' →
  network_at state networkID = Some (i, network) →
  state' = state ∨ ∃ network' event,
    cancel_transfer state now network
      (default Node.zero (findNode state (NetworkRouteTransfer.TargetNodeID (Network.RouteTransfer network)))) =
      Ok (Some network') ∧ state' = append_audit (put_network state i network') event.
Proof.
  unfold updateRouteTransfer. intros H Hn. cbv zeta in H. rewrite Hn in H.
  do 2 apply guard_iff in H as [_ H]. cbn [of_option mbind result_bind] in H.
  apply guard_iff in H as [_ H]. destruct (_ && _); [injection H as <-; by left|].
  apply guard_iff in H as [_ H].
  apply bind_Ok in H as ([network'|] & Ha & H); [|injection H as <-; by left].
  apply bind_Ok in H as (event & _ & [= <-]). right. by exists network', event.
Qed.

Lemma update_finds eventID now actor networkID input cancel state state' :
  updateRouteTransfer eventID now actor networkID input cancel state = Ok state' →
  ∃ i network, network_at state networkID = Some (i, network).
Proof.
  unfold updateRouteTransfer. intros H. cbv zeta in H. do 2 apply guard_iff in H as [_ H].
  apply bind_Ok in H as ([i network] & Hn%of_option_Ok & H). eauto.
Qed.

(** The record and the participants of an unfinished transfer in a state that
    satisfies the invariant. *)
Lemma active_transfer state network :
  transfers_ok state → network ∈ State.Networks state → routeTransferActive (Network.RouteTransfer network) = true →
  transfer_record (Network.RouteTransfer network) ∧ transfer_mergeable (Network.RouteTransfer network) ∧
  validateTransferParticipants state network = Ok tt.
Proof.
  intros Hok Hin Ha. destruct (ok_transfers _ Hok network Hin) as [Hv Hm].
  apply validate_transfer_iff in Hv as [Hz|[Hr Hp]]; [by apply zero_not_active in Hz; congruence|auto].
Qed.

Lemma preparing_active t : NetworkRouteTransfer.Phase t = RouteTransferPhasePreparingTarget → routeTransferActive t = true.
Proof. unfold routeTransferActive. by intros ->. Qed.
Lemma cleaning_target_active t : NetworkRouteTransfer.Phase t = RouteTransferPhaseCleaningTarget → routeTransferActive t = true.
Proof. unfold routeTransferActive. by intros ->. Qed.
Lemma cleaning_source_active t : NetworkRouteTransfer.Phase t = RouteTransferPhaseCleaningSource → routeTransferActive t = true.
Proof. unfold routeTransferActive. by intros ->. Qed.
#[export] Hint Resolve preparing_active cleaning_target_active cleaning_source_active : core.

(** The metadata of the phases before promotion. *)
Lemma unpromoted_metadata t :
  transfer_record t → NetworkRouteTransfer.Phase t = RouteTransferPhasePreparingTarget ∨
    NetworkRouteTransfer.Phase t = RouteTransferPhaseCleaningTarget →
  NetworkRouteTransfer.PromotedAt t = 0 ∧ NetworkRouteTransfer.FinishedAt t = 0 ∧
  NetworkRouteTransfer.SourceCertificateGeneration t = 0.
Proof.
  intros Hr Hp. pose proof (record_metadata _ Hr) as Hm. unfold transfer_metadata in Hm. cbv zeta in Hm.
  destruct Hm as [(_ & Hm)|[(E & _)|[(E & _)|(E & _)]]]; [done|destruct Hp as [Hp|Hp]; rewrite E in Hp; discriminate Hp..].
Qed.

Lemma cancelled_ok state network now :
  let t := Network.RouteTransfer network in now ≠ 0 → transfer_record t →
  NetworkRouteTransfer.Phase t = RouteTransferPhasePreparingTarget ∨
    NetworkRouteTransfer.Phase t = RouteTransferPhaseCleaningTarget → ∀ network',
  Network.RouteTransfer network' = t <| NetworkRouteTransfer.Phase := RouteTransferPhaseCancelled |>
    <| NetworkRouteTransfer.FinishedAt := now |> → transfer_ok state network'.
Proof.
  intros t Hnow Hr Hp network' E. destruct (unpromoted_metadata _ Hr Hp) as (H1 & H2 & H3).
  split; rewrite ?E; [|done]. apply validate_transfer_iff. right. rewrite E.
  split; [|done]. destruct Hr. constructor; try done. cbn. do 3 right. by split_and!.
Qed.

Lemma cancel_step_ok state now network target network' :
  transfers_ok state → network ∈ State.Networks state → now ≠ 0 →
  findNode state (NetworkRouteTransfer.TargetNodeID (Network.RouteTransfer network)) = Some target →
  cancel_transfer state now network target = Ok (Some network') →
  Network.ID network' = Network.ID network ∧ transfer_ok state network'.
Proof.
  intros Hok Hin Hnow Ht H. unfold cancel_transfer in H. cbv zeta in H.
  case_bool_decide as E; [done|].
  case_bool_decide as Hp1.
  - destruct (active_transfer _ _ Hok Hin ltac:(auto)) as (Hr & Hm & Hpart).
    apply bind_Ok in H as (r & _ & H). destruct (_ <? _) eqn:Hg in H.
    + injection H as <-. split; [done|]. by eapply cancelled_ok; [exact Hnow|exact Hr|by left|].
    + apply guard_iff in H as [Hmax [= <-]]. split; [done|]. split; [|done].
      apply Z.ltb_ge in Hg. apply Z.eqb_neq in Hmax. destruct (unpromoted_metadata _ Hr (or_introl Hp1)) as (M1 & M2 & M3).
      apply findNode_Some in Ht as [Htin _]. destruct (ok_nodes _ Hok _ Htin) as [_ Hb].
      pose proof (record_generation _ Hr). apply validate_transfer_iff. right. split.
      * destruct Hr. constructor; try done; cbn; [rewrite successor_generation by lia; lia|].
        left. auto.
      * intros _. revert Hpart. unfold validateTransferParticipants. cbv zeta. cbn. rewrite Hp1.
        by repeat case_match.
  - case_bool_decide as Hp2; [|done]. destruct (active_transfer _ _ Hok Hin ltac:(auto)) as (Hr & Hm & Hpart).
    apply guard_iff in H as [_ [= <-]]. split; [done|]. by eapply cancelled_ok; [exact Hnow|exact Hr|by right|].
Qed.

(** A promotion touches only the two participants. *)
Lemma promote_other_network state s t source target transfer networkID id node :
  NoDup (Node.ID <$> State.Nodes state) → findNode state s = Some source → findNode state t = Some target →
  Node.NetworkID source ≠ networkID → Node.NetworkID target ≠ networkID →
  findNode state id = Some node → Node.NetworkID node = networkID →
  promote_node (Node.ID source) (Node.ID target) transfer node = node.
Proof.
  intros Hnd Hs Ht Hsn Htn Hn Hnn. unfold promote_node.
  apply findNode_Some in Hs as [Hs _], Ht as [Ht _], Hn as [Hn _].
  pose proof (findNode_unique _ _ Hnd Hs). pose proof (findNode_unique _ _ Hnd Ht).
  pose proof (findNode_unique _ _ Hnd Hn).
  rewrite !bool_decide_eq_false_2; [done|congruence..].
Qed.

Lemma promote_keeps_other state s t source target transfer network :
  NoDup (Node.ID <$> State.Nodes state) → findNode state s = Some source → findNode state t = Some target →
  Node.NetworkID source ≠ Network.ID network → Node.NetworkID target ≠ Network.ID network →
  transfer_ok state network → transfer_ok (map_nodes (promote_node (Node.ID source) (Node.ID target) transfer) state) network.
Proof.
  intros Hnd Hs Ht Hsn Htn. apply transfer_ok_ext. intros _ Hp.
  destruct (transfer_participants _ _ Hp) as (source' & target' & Hs' & Ht' & Hsn' & Htn' & _).
  rewrite <- Hp. apply participants_ext; [done..|]. intros id Hid. rewrite findNode_map by apply promote_node_id.
  destruct Hid as [->| ->].
  - rewrite Hs'. simpl. by erewrite promote_other_network.
  - rewrite Ht'. simpl. by erewrite promote_other_network.
Qed.

Lemma merge_canonical l r merged :
  normalizeRoutedSubnets (elems l ++ elems r) = Ok merged → canonical (mergeSubnets l r).
Proof. intros H. unfold mergeSubnets. rewrite H. by eapply normalize_canonical. Qed.

Lemma promoted_ok state network source target r now :
  transfers_ok state → network ∈ State.Networks state → now ≠ 0 →
  let t := Network.RouteTransfer network in
  NetworkRouteTransfer.Phase t = RouteTransferPhasePreparingTarget →
  findNode state (NetworkRouteTransfer.SourceNodeID t) = Some source →
  findNode state (NetworkRouteTransfer.TargetNodeID t) = Some target →
  Node.CertificateGeneration source ≠ int64_max →
  let state' := map_nodes (promote_node (Node.ID source) (Node.ID target) t) state in
  transfer_ok state' (set_revision (reconcileNetworkRoutePolicies state' network <| Network.RouteTransfer :=
      t <| NetworkRouteTransfer.Phase := RouteTransferPhaseCleaningSource |>
        <| NetworkRouteTransfer.PromotedAt := now |>
        <| NetworkRouteTransfer.SourceCertificateGeneration := wrap64 (Node.CertificateGeneration source + 1) |> |>) r now).
Proof.
  intros Hok Hin Hnow t Hp Hs Ht Hg state'. destruct (active_transfer _ _ Hok Hin ltac:(auto)) as (Hr & Hm & Hpart).
  destruct (transfer_participants _ _ Hpart) as (s & u & Hs' & Ht' & Hsn & Htn & Hsa & Hta & _).
  fold t in Hs', Ht'. simplify_eq. destruct (unpromoted_metadata _ Hr (or_introl Hp)) as (M1 & M2 & M3).
  pose proof (findNode_Some _ _ _ Hs) as [Hsin Hsid]. pose proof (findNode_Some _ _ _ Ht) as [_ Htid].
  destruct (ok_nodes _ Hok _ Hsin) as [_ Hb]. destruct (reconcile_fields state' network) as (Rid & _ & _ & _).
  split; [|done]. apply validate_transfer_iff. right. split.
  - destruct Hr. constructor; try done. cbn. right. left. split_and!; try done. cbn. rewrite successor_generation by lia. lia.
  - intros _. pose proof (record_distinct _ Hr) as Hne. fold t in Hne.
    unfold validateTransferParticipants. cbn -[map_nodes reconcileNetworkRoutePolicies]. rewrite Rid. unfold state'.
    rewrite !findNode_map by apply promote_node_id. fold t. rewrite Hs, Ht. cbn -[promote_node].
    unfold promote_node. rewrite (bool_decide_eq_false_2 (Node.ID target = Node.ID source)) by congruence.
    rewrite !(bool_decide_eq_true_2 _ eq_refl). cbn. unfold slices_equal. by eval_bools.
Qed.

Lemma completed_ok state network now :
  transfers_ok state → network ∈ State.Networks state → now ≠ 0 →
  NetworkRouteTransfer.Phase (Network.RouteTransfer network) = RouteTransferPhaseCleaningSource →
  transfer_ok state (network <| Network.RouteTransfer :=
    Network.RouteTransfer network <| NetworkRouteTransfer.Phase := RouteTransferPhaseCompleted |>
      <| NetworkRouteTransfer.FinishedAt := now |> |>).
Proof.
  intros Hok Hin Hnow Hp. destruct (active_transfer _ _ Hok Hin ltac:(auto)) as (Hr & _ & _).
  split; [|done]. apply validate_transfer_iff. right. split; [|done].
  pose proof (record_metadata _ Hr) as Hm. unfold transfer_metadata in Hm. cbv zeta in Hm. rewrite Hp in Hm.
  destruct Hm as [([?|?] & _)|[(_ & M1 & M2 & M3)|[(? & _)|(? & _)]]]; try done.
  destruct Hr. constructor; try done. cbn. do 2 right. left. by split_and!.
Qed.

Lemma advance_step_ok state now network source target state' network' i :
  transfers_ok state → State.Networks state !! i = Some network → now ≠ 0 →
  findNode state (NetworkRouteTransfer.SourceNodeID (Network.RouteTransfer network)) = Some source →
  findNode state (NetworkRouteTransfer.TargetNodeID (Network.RouteTransfer network)) = Some target →
  advance_transfer state now network source target = Ok (Some (state', network')) → ∀ event,
  transfers_ok (append_audit (put_network state' i network') event).
Proof.
  intros Hok Hi Hnow Hs Ht H event. assert (network ∈ State.Networks state) as Hin by (by eapply list_elem_of_lookup_2).
  assert (∀ j m, j ≠ i → State.Networks state !! j = Some m → Network.ID m ≠ Network.ID network) as Hids.
  { intros j m Hj Hm E. apply Hj. eapply (NoDup_lookup (Network.ID <$> State.Networks state));
      [apply (ok_network_ids _ Hok)|by rewrite list_lookup_fmap, Hm|by rewrite list_lookup_fmap, Hi, E]. }
  destruct (decide (NetworkRouteTransfer.Phase (Network.RouteTransfer network) = RouteTransferPhasePreparingTarget)) as [Hp|Hp].
  - destruct (advance_preparing _ _ _ _ _ _ Hp H) as (r & _ & _ & Hg & [= -> ->]).
    destruct (active_transfer _ _ Hok Hin ltac:(auto)) as (Hr & [merged Hm] & Hpart).
    destruct (transfer_participants _ _ Hpart) as (s & u & Hs' & Ht' & Hsn & Htn & _). simplify_eq.
    destruct (reconcile_fields (map_nodes (promote_node (Node.ID source) (Node.ID target) (Network.RouteTransfer network)) state)
      network) as (Rid & _). destruct Hok as [H1 H2 H3 H4] eqn:Eok.
    apply (put_transfers_ok _ i network); try done.
    + cbn. rewrite <- list_fmap_compose.
      rewrite (list_fmap_ext _ Node.ID) by (intros; apply promote_node_id). done.
    + cbn. intros n (m & -> & Hm')%list_elem_of_fmap. destruct (H3 m Hm') as [Hc Hb]. unfold promote_node.
      repeat case_bool_decide; split; cbn; try done; [apply subtract_canonical, Hr|by eapply merge_canonical].
    + intros j m Hj Hm'. apply (promote_keeps_other _ _ _ _ _ _ _ H1 Hs Ht).
      * rewrite Hsn. intros E. by apply (Hids j m Hj Hm').
      * rewrite Htn. intros E. by apply (Hids j m Hj Hm').
      * apply H4. by eapply list_elem_of_lookup_2.
    + by apply promoted_ok.
  - unfold advance_transfer in H. cbv zeta in H. case_bool_decide; [done|]. rewrite (bool_decide_eq_false_2 _ Hp) in H.
    case_bool_decide as Hc; [|done]. apply guard_iff in H as [_ [= <- <-]].
    destruct Hok as [H1 H2 H3 H4] eqn:Eok. apply (put_transfers_ok _ i network); try done.
    + intros j m Hj Hm. apply H4. by eapply list_elem_of_lookup_2.
    + by apply completed_ok.
Qed.

Lemma update_keeps eventID now actor networkID input cancel state state' :
  now ≠ 0 → updateRouteTransfer eventID now actor networkID input cancel state = Ok state' →
  transfers_ok state → transfers_ok state'.
Proof.
  intros Hnow H Hok. destruct (update_finds _ _ _ _ _ _ _ _ H) as (i & network & Hn).
  pose proof (network_at_Some _ _ _ _ Hn) as [Hi _].
  assert (network ∈ State.Networks state) as Hin by (by eapply list_elem_of_lookup_2).
  assert (routeTransferActive (Network.RouteTransfer network) = true → ∃ source target,
    findNode state (NetworkRouteTransfer.SourceNodeID (Network.RouteTransfer network)) = Some source ∧
    findNode state (NetworkRouteTransfer.TargetNodeID (Network.RouteTransfer network)) = Some target) as Hfind.
  { intros Ha. destruct (active_transfer _ _ Hok Hin Ha) as (_ & _ & Hp).
    destruct (transfer_participants _ _ Hp) as (source & target & Hs & Ht & _). eauto. }
  destruct cancel.
  - destruct (cancel_call _ _ _ _ _ _ _ _ _ H Hn) as [->|(network' & event & Hc & ->)]; [done|].
    assert (routeTransferActive (Network.RouteTransfer network) = true) as Ha.
    { unfold cancel_transfer in Hc. cbv zeta in Hc. repeat case_bool_decide; try done; auto. }
    destruct (Hfind Ha) as (source & target & Hs & Ht). rewrite Ht in Hc. simpl in Hc.
    destruct (cancel_step_ok _ _ _ _ _ Hok Hin Hnow Ht Hc) as [Hid Hnew].
    destruct Hok. eapply put_transfers_ok; eauto. intros j m _ Hj. apply ok_transfers0. by eapply list_elem_of_lookup_2.
  - destruct (advance_call _ _ _ _ _ _ _ _ _ H Hn) as [->|(state1 & network' & event & Hc & _ & ->)]; [done|].
    assert (routeTransferActive (Network.RouteTransfer network) = true) as Ha.
    { unfold advance_transfer in Hc. cbv zeta in Hc. repeat case_bool_decide; try done; auto. }
    destruct (Hfind Ha) as (source & target & Hs & Ht). rewrite Hs, Ht in Hc. by eapply advance_step_ok.
Qed.

Lemma step_keeps state state' : transfer_step state state' → transfers_ok state → transfers_ok state'.
Proof. intros [| |]; eauto using start_keeps, update_keeps, agents_keep. Qed.

Lemma steps_keep state state' : rtc transfer_step state state' → transfers_ok state → transfers_ok state'.
Proof. induction 1; eauto using step_keeps. Qed.

(** ** What a transfer promises *)

(** C2: Along any interleaving of route-transfer calls, on any networks, with the
    agents' own progress (certificate renewals, reports), every network's transfer
    record stays valid against the nodes it names, the routed subnets of every
    node stay canonical, and certificate generations stay in range. *)
Theorem transfers_stay_valid state state' :
  rtc transfer_step state state' → transfers_ok state →
  (∀ network, network ∈ State.Networks state' → validateNetworkRouteTransfer state' network = Ok tt) ∧
  (∀ node, node ∈ State.Nodes state' → validateCanonicalRoutedSubnets (Node.RoutedSubnets node) = Ok tt ∧
     0 ≤ Node.CertificateGeneration node ≤ int64_max).
Proof.
  intros Hr Hok%(steps_keep _ _ Hr). split.
  - intros network Hn. apply (ok_transfers _ Hok network Hn).
  - intros node Hn. destruct (ok_nodes _ Hok node Hn). by rewrite validate_canonical_iff.
Qed.

(** Transferred prefixes are none of the target's own. *)
Lemma mergeable_fresh t route :
  transfer_record t → transfer_mergeable t → route ∈ elems (NetworkRouteTransfer.RoutedSubnets t) →
  route ∉ elems (NetworkRouteTransfer.TargetOriginalSubnets t).
Proof.
  intros Hr [merged Hm] Hin Hin'. by apply (normalize_app_fresh _ _ _ route Hm).
Qed.

(** C1: In every state reached from a valid one, each prefix of an unfinished
    transfer is assigned to exactly one of its two participants: to the source
    until promotion and while the target is cleaned after a cancellation, to the
    target from promotion on. *)
Theorem transferred_prefix_has_one_owner state state' network route :
  rtc transfer_step state state' → transfers_ok state → network ∈ State.Networks state' →
  let transfer := Network.RouteTransfer network in
  routeTransferActive transfer = true → route ∈ elems (NetworkRouteTransfer.RoutedSubnets transfer) →
  ∃ source target, findNode state' (NetworkRouteTransfer.SourceNodeID transfer) = Some source ∧
    findNode state' (NetworkRouteTransfer.TargetNodeID transfer) = Some target ∧
    if NetworkRouteTransfer.Phase transfer == RouteTransferPhaseCleaningSource
    then ¬ (route ∈ elems (Node.RoutedSubnets source)) ∧ route ∈ elems (Node.RoutedSubnets target)
    else route ∈ elems (Node.RoutedSubnets source) ∧ ¬ (route ∈ elems (Node.RoutedSubnets target)).
Proof.
  intros Hr Hok%(steps_keep _ _ Hr) Hin transfer Ha Hroute.
  destruct (active_transfer _ _ Hok Hin Ha) as (Hrec & Hm & Hp). fold transfer in Hrec, Hm.
  destruct (transfer_participants _ _ Hp) as (source & target & Hs & Ht & _ & _ & _ & _ & Hun & Hpr).
  exists source, target. split; [done|]. split; [done|]. fold transfer in Hun, Hpr.
  case_bool_decide as Hc.
  - destruct (Hpr Hc) as [-> ->]. destruct Hm as [merged Hm].
    rewrite elem_of_subtract, (elem_of_merge _ _ merged) by (done || apply Hrec). tauto.
  - destruct Hun as [-> ->].
    { unfold routeTransferActive in Ha. repeat case_bool_decide; try done; auto. }
    split; [by apply (record_owned _ Hrec)|by apply mergeable_fresh].
Qed.

(** The certificate of the target of an unfinished transfer. *)
Lemma target_certificate state network node :
  transfers_ok state → network ∈ State.Networks state → node ∈ State.Nodes state →
  routeProfileCertificateRoutedSubnets network node = None →
  let transfer := Network.RouteTransfer network in
  routeTransferActive transfer = true → Node.ID node = NetworkRouteTransfer.TargetNodeID transfer →
  elems (Node.RoutedSubnets node) ⊆ elems (certificateRoutedSubnets network node) ∧
  (NetworkRouteTransfer.Phase transfer ≠ RouteTransferPhaseCleaningTarget →
   elems (NetworkRouteTransfer.RoutedSubnets transfer) ⊆ elems (certificateRoutedSubnets network node)).
Proof.
  intros Hok Hin Hnode Hprof transfer Ha E. destruct (active_transfer _ _ Hok Hin Ha) as (Hrec & [merged Hm] & Hp).
  destruct (transfer_participants _ _ Hp) as (source & target & _ & Ht & _ & _ & _ & _ & Hun & Hpr).
  fold transfer in Hrec, Hm, Ht, Hun, Hpr. rewrite <- E, findNode_unique in Ht by (done || apply Hok).
  injection Ht as <-. unfold certificateRoutedSubnets. cbv zeta. rewrite Hprof. fold transfer.
  rewrite (bool_decide_eq_true_2 _ E), !andb_true_r.
  assert (∀ x, x ∈ elems (mergeSubnets (NetworkRouteTransfer.TargetOriginalSubnets transfer)
    (NetworkRouteTransfer.RoutedSubnets transfer)) ↔ x ∈ elems (NetworkRouteTransfer.TargetOriginalSubnets transfer) ∨
    x ∈ elems (NetworkRouteTransfer.RoutedSubnets transfer)) as Hmerge
    by (intros x; by rewrite (elem_of_merge _ _ merged) by (done || apply Hrec)).
  case_bool_decide as Hp1; [|case_bool_decide as Hp2].
  - destruct (Hun (or_introl Hp1)) as [_ ->]. split; [|intros _]; intros x Hx; apply Hmerge; tauto.
  - destruct (Hun (or_intror Hp2)) as [_ ->]. done.
  - assert (NetworkRouteTransfer.Phase transfer = RouteTransferPhaseCleaningSource) as Hp3.
    { unfold routeTransferActive in Ha. repeat case_bool_decide; done. }
    destruct (Hpr Hp3) as [_ ->]. split; [done|]. intros _ x Hx. apply Hmerge. tauto.
Qed.

(** In every state reached from a valid one, while no route-profile edit is under
    way, a certificate signed for a node is to carry every prefix the node owns, and
    one signed for the target of a transfer also the transferred prefixes, both
    before and after it becomes their owner. *)
Lemma certificate_covers_owned_prefixes state state' network node :
  rtc transfer_step state state' → transfers_ok state → network ∈ State.Networks state' → node ∈ State.Nodes state' →
  routeProfileEditActive (Network.RouteProfileEdit network) = false →
  let transfer := Network.RouteTransfer network in
  elems (Node.RoutedSubnets node) ⊆ elems (certificateRoutedSubnets network node) ∧
  (Node.ID node = NetworkRouteTransfer.TargetNodeID transfer →
   NetworkRouteTransfer.Phase transfer = RouteTransferPhasePreparingTarget ∨
   NetworkRouteTransfer.Phase transfer = RouteTransferPhaseCleaningSource →
   elems (NetworkRouteTransfer.RoutedSubnets transfer) ⊆ elems (certificateRoutedSubnets network node)).
Proof.
  intros Hr Hok%(steps_keep _ _ Hr) Hin Hnode Hedit transfer.
  assert (routeProfileCertificateRoutedSubnets network node = None) as Hprof.
  { unfold routeProfileCertificateRoutedSubnets. unfold routeProfileEditActive in Hedit. split_bools.
    cbv zeta. case_match; [done|]. by eval_bools. }
  destruct (decide (Node.ID node = NetworkRouteTransfer.TargetNodeID transfer)) as [E|E].
  - destruct (routeTransferActive transfer) eqn:Ha.
    + destruct (target_certificate _ _ _ Hok Hin Hnode Hprof Ha E) as [H1 H2]. fold transfer in H2. split; [done|].
      intros _ Hph. apply H2. by destruct Hph as [-> | ->].
    + unfold certificateRoutedSubnets. cbv zeta. rewrite Hprof. fold transfer. unfold routeTransferActive in Ha.
      split_bools. eval_bools. split; [done|]. by intros _ [?|?].
  - unfold certificateRoutedSubnets. cbv zeta. rewrite Hprof. fold transfer.
    rewrite (bool_decide_eq_false_2 _ E), !andb_false_r. done.
Qed.

(** *** A concrete run *)
Lemma transfer_state_ok : transfers_ok transfer_state.
Proof.
  constructor.
  - apply (bool_decide_unpack _). vm_compute. exact I.
  - apply (bool_decide_unpack _). vm_compute. exact I.
  - intros node Hn. apply list_elem_of_In in Hn as [<-|[<-|[]]]; (split; [|vm_compute; split; discriminate]);
      apply validate_canonical_iff; vm_compute; reflexivity.
  - intros network Hn. apply list_elem_of_In in Hn as [<-|[]]. split; [vm_compute; reflexivity|].
    intros _. exists (Some ["192.168.7.0/24"]). vm_compute. reflexivity.
Qed.

Lemma transfer_run : rtc transfer_step transfer_state promoted_state.
Proof.
  apply rtc_once. apply (step_update "event-0000-0000-0000" 30 None "network-0000-0000"
    (UpdateRouteTransferInput.make 4 "request-0000-0001") false); [discriminate|]. vm_compute. reflexivity.
Qed.

Definition promoted_network : Network.t := default Network.zero (findNetwork promoted_state "network-0000-0000").

Lemma promoted_network_in : promoted_network ∈ State.Networks promoted_state.
Proof. apply (bool_decide_unpack _). vm_compute. exact I. Qed.

Lemma transfers_stay_valid_witness : validateNetworkRouteTransfer promoted_state promoted_network = Ok tt.
Proof.
  exact (proj1 (transfers_stay_valid transfer_state promoted_state transfer_run transfer_state_ok)
    promoted_network promoted_network_in).
Defined.

Lemma transferred_prefix_has_one_owner_witness :
  let transfer := Network.RouteTransfer promoted_network in
  NetworkRouteTransfer.Phase transfer = RouteTransferPhaseCleaningSource ∧
  ∃ source target, findNode promoted_state (NetworkRouteTransfer.SourceNodeID transfer) = Some source ∧
    findNode promoted_state (NetworkRouteTransfer.TargetNodeID transfer) = Some target ∧
    if NetworkRouteTransfer.Phase transfer == RouteTransferPhaseCleaningSource
    then ¬ ("192.168.7.0/24" ∈ elems (Node.RoutedSubnets source)) ∧ "192.168.7.0/24" ∈ elems (Node.RoutedSubnets target)
    else "192.168.7.0/24" ∈ elems (Node.RoutedSubnets source) ∧ ¬ ("192.168.7.0/24" ∈ elems (Node.RoutedSubnets target)).
Proof.
  split; [vm_compute; reflexivity|].
  apply (transferred_prefix_has_one_owner transfer_state promoted_state promoted_network "192.168.7.0/24"
    transfer_run transfer_state_ok promoted_network_in).
  - vm_compute. reflexivity.
  - apply (bool_decide_unpack _). vm_compute. exact I.
Defined.
