(* ===== verification/RouteProfileEdit.v ===== *)
(** * Editing a gateway's own routed subnets (internal/control/route_profile_edit.go)

    An edit that adds prefixes first lets the owner's certificate carry the union
    of the old and the new ones (preparing), then switches the owner's list, then
    cleans the certificate of what was removed; an edit that only removes switches
    at once.  Before the switch the edit can be cancelled. *)
From S2P Require Import Prelude GoStd IPv4 Model AuditLog Routes RouteState Reservations Firewall.
From S2P Require Import RoutePolicies NetworkSettings Render RouteTransfer TransferSafety.

Module StartRouteProfileEditInput.
Record t := make { RoutedSubnets : list string; ExpectedConfigRevision : Z; RequestID : string }.
End StartRouteProfileEditInput.

Module UpdateRouteProfileEditInput.
Record t := make { ExpectedConfigRevision : Z; RequestID : string }.
End UpdateRouteProfileEditInput.

(** The loop that assigns a node's routed subnets and stops. *)
Definition assign_subnets (state : State.t) (nodeID : string) (subnets : slice string) : State.t :=
  match node_at state nodeID with
  | Some (i, node) => put_node state i (node <| Node.RoutedSubnets := subnets |>)
  | None => state
  end.

(** ** Start *)
Definition startRouteProfileEdit (eventID : string) (now : time) (actor : option Actor.t) (nodeID : string)
    (input : StartRouteProfileEditInput.t) (state : State.t) : result State.t :=
  let nodeID := TrimSpace nodeID in
  let requestID := TrimSpace (StartRouteProfileEditInput.RequestID input) in
  let expected := StartRouteProfileEditInput.ExpectedConfigRevision input in
  match normalizeRoutedSubnets (StartRouteProfileEditInput.RoutedSubnets input) with
  | Err _ => Err ErrInvalid
  | Ok desired =>
      fail ErrInvalid when negb (validPersistedID nodeID) || (expected <? 1) || negb (validRouteTransferRequestID requestID);;
      fail (ErrOther "route-profile edit requires a valid timestamp") when IsZero now;;
      fail ErrConflict when negb (route_schema state);;
      node ← of_option (findNode state nodeID) ErrNotFound;
      '(index, network) ← of_option (network_at state (Node.NetworkID node)) ErrNotFound;
      let existing := Network.RouteProfileEdit network in
      if NetworkRouteProfileEdit.RequestID existing == requestID then
        fail ErrConflict when (NetworkRouteProfileEdit.NodeID existing != nodeID)
          || negb (slices_equal (NetworkRouteProfileEdit.DesiredSubnets existing) desired);;
        Ok state
      else
        fail ErrConflict when negb (routeProfileEditTerminal existing) || negb (routeTransferTerminal (Network.RouteTransfer network))
          || (NetworkCARotation.Phase (Network.CARotation network) != "")
          || (NetworkFirewallRollout.Phase (Network.FirewallRollout network) != "")
          || negb (Network.ConfigRevision network =? expected);;
        fail ErrConflict when (Node.Status node != "active") || negb (enrolled node)
          || (Node.CertificateGeneration node <? 1) || (Node.CertificateGeneration node =? int64_max);;
        fail ErrInvalid when slices_equal (Node.RoutedSubnets node) desired;;
        _ ← validateRouteProfileTransition (Node.RoutedSubnets node) desired;
        _ ← validateRoutedSubnetsForNode state (Node.ID node) desired;
        nextRevision ← nextConfigRevision (Network.ConfigRevision network) true;
        let edit := NetworkRouteProfileEdit.make requestID "" (Node.ID node) (Node.RoutedSubnets node) desired 0 0 now 0 0 in
        let additions := routeProfileEditAdditions edit in
        let removals := routeProfileEditRemovals edit in
        let generation := wrap64 (Node.CertificateGeneration node + 1) in
        let '(state, network, edit) :=
          if negb (empty_slice additions) then
            (state, network, edit <| NetworkRouteProfileEdit.Phase := RouteProfileEditPhasePreparingOwner |>
                                  <| NetworkRouteProfileEdit.PreparedCertificateGeneration := generation |>)
          else
            let state := assign_subnets state (Node.ID node) desired in
            (state, reconcileNetworkRoutePolicies state network,
             edit <| NetworkRouteProfileEdit.Phase := RouteProfileEditPhaseCleaningOwner |>
                  <| NetworkRouteProfileEdit.PromotedAt := now |>
                  <| NetworkRouteProfileEdit.CleanupCertificateGeneration := generation |>) in
        event ← newOptionalAttributedAudit eventID now "node.route_profile_edit_started" "node" (Node.ID node)
          [("request_id", DString (NetworkRouteProfileEdit.RequestID edit));
           ("phase", DString (NetworkRouteProfileEdit.Phase edit));
           ("original_routed_subnets", DString (join "," (elems (NetworkRouteProfileEdit.OriginalSubnets edit))));
           ("desired_routed_subnets", DString (join "," (elems (NetworkRouteProfileEdit.DesiredSubnets edit))));
           ("additions", DString (join "," (elems additions))); ("removals", DString (join "," (elems removals)));
           ("previous_config_revision", DInt expected); ("config_revision", DInt nextRevision)] actor;
        Ok (append_audit (put_network state index
              (set_revision (network <| Network.RouteProfileEdit := edit |>) nextRevision now)) event)
  end.

(** ** Advance and cancel *)

(** The loop over the networks stops at the node's own when its edit names the
    node. *)
Definition edited_network (state : State.t) (node : Node.t) : option (nat * Network.t) :=
  list_find (λ network, Network.ID network = Node.NetworkID node ∧
    NetworkRouteProfileEdit.NodeID (Network.RouteProfileEdit network) = Node.ID node) (State.Networks state).

Definition cancel_edit (state : State.t) (now : time) (network : Network.t) (node : Node.t) : result (option Network.t) :=
  let edit := Network.RouteProfileEdit network in
  let phase := NetworkRouteProfileEdit.Phase edit in
  let finished := edit <| NetworkRouteProfileEdit.Phase := RouteProfileEditPhaseCancelled |>
                       <| NetworkRouteProfileEdit.FinishedAt := now |> in
  if phase == RouteProfileEditPhaseCancelled then Ok None
  else if phase == RouteProfileEditPhasePreparingOwner then
    nextRevision ← nextConfigRevision (Network.ConfigRevision network) true;
    if Node.CertificateGeneration node <? NetworkRouteProfileEdit.PreparedCertificateGeneration edit then
      Ok (Some (set_revision (network <| Network.RouteProfileEdit := finished |>) nextRevision now))
    else
      fail ErrConflict when Node.CertificateGeneration node =? int64_max;;
      let cleaning := edit <| NetworkRouteProfileEdit.Phase := RouteProfileEditPhaseCleaningCancelledOwner |>
        <| NetworkRouteProfileEdit.CleanupCertificateGeneration := wrap64 (Node.CertificateGeneration node + 1) |> in
      Ok (Some (set_revision (network <| Network.RouteProfileEdit := cleaning |>) nextRevision now))
  else if phase == RouteProfileEditPhaseCleaningCancelledOwner then
    fail ErrConflict when negb (routeTransferNodeConverged state network node
                                  (NetworkRouteProfileEdit.CleanupCertificateGeneration edit));;
    Ok (Some (network <| Network.RouteProfileEdit := finished |>))
  else Err ErrConflict.

Definition advance_edit (state : State.t) (now : time) (network : Network.t) (node : Node.t) :
    result (option (State.t * Network.t)) :=
  let edit := Network.RouteProfileEdit network in
  let phase := NetworkRouteProfileEdit.Phase edit in
  if phase == RouteProfileEditPhaseCompleted then Ok None
  else if phase == RouteProfileEditPhasePreparingOwner then
    fail ErrConflict when negb (routeTransferNodeConverged state network node
                                  (NetworkRouteProfileEdit.PreparedCertificateGeneration edit));;
    nextRevision ← nextConfigRevision (Network.ConfigRevision network) true;
    let state := assign_subnets state (Node.ID node) (NetworkRouteProfileEdit.DesiredSubnets edit) in
    let network := reconcileNetworkRoutePolicies state network in
    let edit := edit <| NetworkRouteProfileEdit.PromotedAt := now |> in
    edit ← (if negb (empty_slice (routeProfileEditRemovals edit)) then
              fail ErrConflict when Node.CertificateGeneration node =? int64_max;;
              Ok (edit <| NetworkRouteProfileEdit.Phase := RouteProfileEditPhaseCleaningOwner |>
                       <| NetworkRouteProfileEdit.CleanupCertificateGeneration := wrap64 (Node.CertificateGeneration node + 1) |>)
            else Ok (edit <| NetworkRouteProfileEdit.Phase := RouteProfileEditPhaseCompleted |>
                          <| NetworkRouteProfileEdit.FinishedAt := now |>));
    Ok (Some (state, set_revision (network <| Network.RouteProfileEdit := edit |>) nextRevision now))
  else if phase == RouteProfileEditPhaseCleaningOwner then
    fail ErrConflict when negb (routeTransferNodeConverged state network node
                                  (NetworkRouteProfileEdit.CleanupCertificateGeneration edit));;
    Ok (Some (state, network <| Network.RouteProfileEdit :=
      edit <| NetworkRouteProfileEdit.Phase := RouteProfileEditPhaseCompleted |>
           <| NetworkRouteProfileEdit.FinishedAt := now |> |>))
  else Err ErrConflict.

Definition updateRouteProfileEdit (eventID : string) (now : time) (actor : option Actor.t) (nodeID : string)
    (input : UpdateRouteProfileEditInput.t) (cancel : bool) (state : State.t) : result State.t :=
  let nodeID := TrimSpace nodeID in
  let requestID := TrimSpace (UpdateRouteProfileEditInput.RequestID input) in
  let expected := UpdateRouteProfileEditInput.ExpectedConfigRevision input in
  fail ErrInvalid when negb (validPersistedID nodeID) || (expected <? 1) || negb (validRouteTransferRequestID requestID);;
  fail (ErrOther "route-profile update requires a valid timestamp") when IsZero now;;
  fail ErrConflict when negb (route_schema state);;
  node ← of_option (findNode state nodeID) ErrNotFound;
  '(index, network) ← of_option (edited_network state node) ErrNotFound;
  let edit := Network.RouteProfileEdit network in
  let phase := NetworkRouteProfileEdit.Phase edit in
  fail ErrConflict when NetworkRouteProfileEdit.RequestID edit != requestID;;
  if ((cancel && (phase == RouteProfileEditPhaseCancelled)) || (negb cancel && (phase == RouteProfileEditPhaseCompleted)))
     && terminalRouteTransitionReplayRevision expected (Network.ConfigRevision network) then Ok state
  else
  fail ErrConflict when negb (Network.ConfigRevision network =? expected);;
  if cancel then
    updated ← cancel_edit state now network node;
    match updated with
    | None => Ok state
    | Some network =>
        let edit := Network.RouteProfileEdit network in
        let action := if NetworkRouteProfileEdit.Phase edit == RouteProfileEditPhaseCleaningCancelledOwner
                      then "node.route_profile_edit_cancellation_started" else "node.route_profile_edit_cancelled" in
        event ← newOptionalAttributedAudit eventID now action "node" (Node.ID node)
          [("request_id", DString (NetworkRouteProfileEdit.RequestID edit));
           ("phase", DString (NetworkRouteProfileEdit.Phase edit));
           ("config_revision", DInt (Network.ConfigRevision network))] actor;
        Ok (append_audit (put_network state index network) event)
    end
  else
    updated ← advance_edit state now network node;
    match updated with
    | None => Ok state
    | Some (state, network) =>
        let edit := Network.RouteProfileEdit network in
        let action := if NetworkRouteProfileEdit.Phase edit == RouteProfileEditPhaseCompleted
                      then "node.route_profile_edit_completed" else "node.route_profile_edit_promoted" in
        event ← newOptionalAttributedAudit eventID now action "node" (Node.ID node)
          [("request_id", DString (NetworkRouteProfileEdit.RequestID edit));
           ("phase", DString (NetworkRouteProfileEdit.Phase edit));
           ("desired_routed_subnets", DString (join "," (elems (NetworkRouteProfileEdit.DesiredSubnets edit))));
           ("config_revision", DInt (Network.ConfigRevision network))] actor;
        Ok (append_audit (put_network state index network) event)
    end.

(** ** The validity check, as a specification *)
Definition edit_metadata (e : NetworkRouteProfileEdit.t) : Prop :=
  let phase := NetworkRouteProfileEdit.Phase e in
  let additions := elems (routeProfileEditAdditions e) in
  let removals := elems (routeProfileEditRemovals e) in
  let promoted := NetworkRouteProfileEdit.PromotedAt e in
  let finished := NetworkRouteProfileEdit.FinishedAt e in
  let cleanup := NetworkRouteProfileEdit.CleanupCertificateGeneration e in
  (phase = RouteProfileEditPhasePreparingOwner ∧ additions ≠ [] ∧ cleanup = 0 ∧ promoted = 0 ∧ finished = 0) ∨
  (phase = RouteProfileEditPhaseCleaningOwner ∧ removals ≠ [] ∧ 1 ≤ cleanup ∧ promoted ≠ 0 ∧ finished = 0) ∨
  (phase = RouteProfileEditPhaseCleaningCancelledOwner ∧ additions ≠ [] ∧ 1 ≤ cleanup ∧ promoted = 0 ∧ finished = 0) ∨
  (phase = RouteProfileEditPhaseCompleted ∧ promoted ≠ 0 ∧ finished ≠ 0 ∧
    (removals ≠ [] → 1 ≤ cleanup) ∧ (removals = [] → cleanup = 0)) ∨
  (phase = RouteProfileEditPhaseCancelled ∧ promoted = 0 ∧ finished ≠ 0).

Record edit_record (e : NetworkRouteProfileEdit.t) : Prop := {
  edit_request : validRouteTransferRequestID (NetworkRouteProfileEdit.RequestID e) = true;
  edit_node : validPersistedID (NetworkRouteProfileEdit.NodeID e) = true;
  edit_started : NetworkRouteProfileEdit.StartedAt e ≠ 0;
  edit_original : canonical (NetworkRouteProfileEdit.OriginalSubnets e);
  edit_desired : canonical (NetworkRouteProfileEdit.DesiredSubnets e);
  edit_changes : elems (routeProfileEditAdditions e) ≠ [] ∨ elems (routeProfileEditRemovals e) ≠ [];
  edit_prepared : (elems (routeProfileEditAdditions e) = [] → NetworkRouteProfileEdit.PreparedCertificateGeneration e = 0) ∧
    (elems (routeProfileEditAdditions e) ≠ [] → 1 ≤ NetworkRouteProfileEdit.PreparedCertificateGeneration e);
  edit_phase : edit_metadata e }.

Lemma empty_slice_true {A} (s : slice A) : empty_slice s = bool_decide (elems s = []).
Proof. apply Bool.eq_iff_eq_true. by rewrite empty_slice_iff, bool_decide_eq_true. Qed.

Lemma edit_phase_iff (e : NetworkRouteProfileEdit.t) :
  let phase := NetworkRouteProfileEdit.Phase e in
  ((phase != RouteProfileEditPhasePreparingOwner) && (phase != RouteProfileEditPhaseCleaningOwner)
      && (phase != RouteProfileEditPhaseCleaningCancelledOwner)
      && (phase != RouteProfileEditPhaseCompleted) && (phase != RouteProfileEditPhaseCancelled) = false ∧
   validateEditPhaseMetadata e = Ok tt) ↔ edit_metadata e.
Proof.
  cbv zeta. unfold validateEditPhaseMetadata, edit_metadata, IsZero. cbv zeta.
  set (additions := routeProfileEditAdditions e). set (removals := routeProfileEditRemovals e).
  rewrite !empty_slice_true.
  generalize (NetworkRouteProfileEdit.Phase e) (NetworkRouteProfileEdit.PromotedAt e)
    (NetworkRouteProfileEdit.FinishedAt e) (NetworkRouteProfileEdit.CleanupCertificateGeneration e).
  intros phase promoted finished cleanup.
  destruct (bool_decide (phase = RouteProfileEditPhasePreparingOwner)) eqn:P1; split_bools;
    [subst; cbn [negb andb]; rewrite guard_iff; destruct (Z.eqb_spec cleanup 0), (Z.eqb_spec promoted 0),
      (Z.eqb_spec finished 0); cbn [negb orb]; rewrite ?orb_false_r, ?orb_true_r, ?bool_decide_eq_false; naive_solver|].
  destruct (bool_decide (phase = RouteProfileEditPhaseCleaningOwner)) eqn:P2; split_bools;
    [subst; cbn [negb andb]; rewrite guard_iff; destruct (Z.ltb_spec cleanup 1), (Z.eqb_spec promoted 0),
      (Z.eqb_spec finished 0); cbn [negb orb]; rewrite ?orb_false_r, ?orb_true_r, ?bool_decide_eq_false; naive_solver lia|].
  destruct (bool_decide (phase = RouteProfileEditPhaseCleaningCancelledOwner)) eqn:P3; split_bools;
    [subst; cbn [negb andb]; rewrite guard_iff; destruct (Z.ltb_spec cleanup 1), (Z.eqb_spec promoted 0),
      (Z.eqb_spec finished 0); cbn [negb orb]; rewrite ?orb_false_r, ?orb_true_r, ?bool_decide_eq_false; naive_solver lia|].
  destruct (bool_decide (phase = RouteProfileEditPhaseCompleted)) eqn:P4; split_bools;
    [subst; cbn [negb andb]; rewrite guard_iff; destruct (Z.ltb_spec cleanup 1), (Z.eqb_spec cleanup 0), (Z.eqb_spec promoted 0),
      (Z.eqb_spec finished 0); cbn [negb orb]; rewrite ?orb_false_r, ?orb_true_r, ?negb_orb_false;
      destruct (bool_decide (elems removals = [])) eqn:R; split_bools; naive_solver lia|].
  destruct (bool_decide (phase = RouteProfileEditPhaseCancelled)) eqn:P5; split_bools;
    [subst; cbn [negb andb]; rewrite guard_iff; destruct (Z.eqb_spec promoted 0), (Z.eqb_spec finished 0); naive_solver|].
  cbn [negb andb]. naive_solver.
Qed.

Definition expected_subnets (e : NetworkRouteProfileEdit.t) : slice string :=
  if NetworkRouteProfileEdit.Phase e == RouteProfileEditPhaseCleaningOwner
  then NetworkRouteProfileEdit.DesiredSubnets e else NetworkRouteProfileEdit.OriginalSubnets e.

(** What a state must say of the owner of an unfinished edit. *)
Definition owner_ok (networkID : string) (e : NetworkRouteProfileEdit.t) (owner : Node.t) : Prop :=
  Node.NetworkID owner = networkID ∧ Node.Status owner = "active" ∧ enrolled owner = true ∧
  (routeProfileEditDesiredGeneration e = Node.CertificateGeneration owner ∨
   Node.CertificateGeneration owner ≠ int64_max ∧
   routeProfileEditDesiredGeneration e = wrap64 (Node.CertificateGeneration owner + 1)) ∧
  elems (Node.RoutedSubnets owner) = elems (expected_subnets e).

Lemma validate_owner_iff state network :
  let e := Network.RouteProfileEdit network in
  validateEditOwner state network = Ok tt ↔
  routeTransferActive (Network.RouteTransfer network) = false ∧
  ∃ owner, findNode state (NetworkRouteProfileEdit.NodeID e) = Some owner ∧ owner_ok (Network.ID network) e owner.
Proof.
  intros e. unfold validateEditOwner, owner_ok, expected_subnets. cbv zeta. fold e. rewrite guard_iff.
  destruct (findNode state (NetworkRouteProfileEdit.NodeID e)) as [owner|]; cbn [of_option mbind result_bind];
    [|naive_solver].
  rewrite !guard_iff, !negb_orb_false, andb_false_iff, !negb_false_iff, negb_orb_false, negb_false_iff, !Z.eqb_eq, Z.eqb_neq.
  unfold slices_equal. rewrite !bool_decide_eq_true. naive_solver.
Qed.

Lemma validate_edit_iff state network :
  let e := Network.RouteProfileEdit network in
  validateNetworkRouteProfileEdit state network = Ok tt ↔
  zeroNetworkRouteProfileEdit e = true ∨
  (edit_record e ∧ (routeProfileEditActive e = true → validateEditOwner state network = Ok tt)).
Proof.
  intros e. unfold validateNetworkRouteProfileEdit. cbv zeta. fold e. destruct (zeroNetworkRouteProfileEdit e) eqn:Hz.
  { split; [by left|done]. }
  pose proof (edit_phase_iff e) as Hph. cbv zeta in Hph.
  rewrite !guard_iff, !negb_orb_false, !negb_false_iff, !canonical_subnets_iff, !andb_false_iff, !negb_false_iff,
    !empty_slice_false, !empty_slice_iff, Z.ltb_ge.
  split.
  - intros (((Hq & Hn) & Hst) & Hp & Ho & Hd & Hch & ((Hp1 & Hp2) & H)).
    apply bind_Ok in H as ([] & Hm & Hact). right. split; [|by intros Ha; rewrite Ha in Hact].
    constructor; auto.
    + by apply Z.eqb_neq.
    + rewrite Z.eqb_eq in Hp1. naive_solver.
    + apply Hph. split; [|done]. rewrite !andb_false_iff, !negb_false_iff. tauto.
  - intros [|[[Hq Hn Hst Ho Hd Hch [Hp1 Hp2] Hmeta] Hact]]; [done|]. apply Hph in Hmeta as [Hp Hm].
    rewrite !andb_false_iff, !negb_false_iff in Hp. rewrite Hm, Z.eqb_eq. cbn [mbind result_bind].
    split_and!; auto.
    + by apply Z.eqb_neq.
    + destruct (decide (elems (routeProfileEditAdditions e) = [])); auto.
    + destruct (decide (elems (routeProfileEditAdditions e) = [])); auto.
    + case_match; auto.
Qed.

Lemma zero_edit_not_active e : zeroNetworkRouteProfileEdit e = true → routeProfileEditActive e = false.
Proof.
  unfold zeroNetworkRouteProfileEdit, routeProfileEditActive. intros H. split_bools.
  by match goal with E : NetworkRouteProfileEdit.Phase e = "" |- _ => rewrite E end.
Qed.
Lemma terminal_not_active t : routeTransferTerminal t = true → routeTransferActive t = false.
Proof.
  unfold routeTransferTerminal. rewrite !orb_true_iff, !bool_decide_eq_true.
  intros [[H| H]|H]; [by apply zero_not_active|unfold routeTransferActive; by rewrite H..].
Qed.

(** ** The invariant *)
Definition edit_ok (state : State.t) (network : Network.t) : Prop := validateNetworkRouteProfileEdit state network = Ok tt.

Record edits_ok (state : State.t) : Prop := {
  edits_node_ids : NoDup (Node.ID <$> State.Nodes state);
  edits_network_ids : NoDup (Network.ID <$> State.Networks state);
  edits_nodes : ∀ node, node ∈ State.Nodes state → node_ok node;
  edits_valid : ∀ network, network ∈ State.Networks state → edit_ok state network }.

Lemma active_edit state network :
  edits_ok state → network ∈ State.Networks state → routeProfileEditActive (Network.RouteProfileEdit network) = true →
  edit_record (Network.RouteProfileEdit network) ∧ routeTransferActive (Network.RouteTransfer network) = false ∧
  ∃ owner, findNode state (NetworkRouteProfileEdit.NodeID (Network.RouteProfileEdit network)) = Some owner ∧
    owner_ok (Network.ID network) (Network.RouteProfileEdit network) owner.
Proof.
  intros Hok Hin Ha. pose proof (edits_valid _ Hok network Hin) as Hv.
  apply validate_edit_iff in Hv as [Hz|[Hr Hp]]; [by apply zero_edit_not_active in Hz; congruence|].
  specialize (Hp Ha). apply validate_owner_iff in Hp as [? ?]. auto.
Qed.

(** An edit stays valid when its owner is still what the edit expects. *)
Lemma edit_ok_intro state network :
  edit_record (Network.RouteProfileEdit network) →
  (routeProfileEditActive (Network.RouteProfileEdit network) = true →
   routeTransferActive (Network.RouteTransfer network) = false ∧
   ∃ owner, findNode state (NetworkRouteProfileEdit.NodeID (Network.RouteProfileEdit network)) = Some owner ∧
     owner_ok (Network.ID network) (Network.RouteProfileEdit network) owner) → edit_ok state network.
Proof. intros Hr Ho. apply validate_edit_iff. right. split; [done|]. intros Ha. apply validate_owner_iff. auto. Qed.

Lemma edit_ok_ext state state' network :
  edit_ok state network →
  (∀ owner, findNode state (NetworkRouteProfileEdit.NodeID (Network.RouteProfileEdit network)) = Some owner →
     routeProfileEditActive (Network.RouteProfileEdit network) = true →
     owner_ok (Network.ID network) (Network.RouteProfileEdit network) owner →
     ∃ owner', findNode state' (NetworkRouteProfileEdit.NodeID (Network.RouteProfileEdit network)) = Some owner' ∧
       owner_ok (Network.ID network) (Network.RouteProfileEdit network) owner') → edit_ok state' network.
Proof.
  intros Hv Hext. apply validate_edit_iff in Hv as [Hz|[Hr Hp]]; [apply validate_edit_iff; by left|].
  apply edit_ok_intro; [done|]. intros Ha. specialize (Hp Ha).
  apply validate_owner_iff in Hp as [? (owner & Ho & Hok)]. split; [done|]. eapply Hext; eauto.
Qed.

Lemma put_edits_ok state i old network event :
  State.Networks state !! i = Some old → Network.ID network = Network.ID old →
  NoDup (Node.ID <$> State.Nodes state) → NoDup (Network.ID <$> State.Networks state) →
  (∀ node, node ∈ State.Nodes state → node_ok node) →
  (∀ j m, j ≠ i → State.Networks state !! j = Some m → edit_ok state m) → edit_ok state network →
  edits_ok (append_audit (put_network state i network) event).
Proof.
  intros Hi Hid Hn1 Hn2 Hn3 Hother Hnew. constructor; [done| |done|].
  - cbn. rewrite list_fmap_insert, list_insert_id; [done|]. by rewrite list_lookup_fmap, Hi, Hid.
  - intros m [j Hj]%list_elem_of_lookup_1.
    apply put_network_lookup in Hj as [[-> ->]|[Hne Hj]]; [exact Hnew|exact (Hother j m Hne Hj)].
Qed.

(** *** The switch of the owner's list *)
Lemma assign_find state nodeID node subnets id :
  findNode state nodeID = Some node →
  findNode (assign_subnets state nodeID subnets) id =
    if decide (id = nodeID) then Some (node <| Node.RoutedSubnets := subnets |>) else findNode state id.
Proof.
  intros Hn. unfold assign_subnets. destruct (findNode_at _ _ _ Hn) as [i Hi]. rewrite Hi.
  by rewrite (findNode_put _ _ _ _ _ _ Hi).
Qed.

Lemma assign_networks state nodeID subnets : State.Networks (assign_subnets state nodeID subnets) = State.Networks state.
Proof. unfold assign_subnets. by destruct (node_at state nodeID) as [[]|]. Qed.

Lemma assign_nodes state nodeID subnets :
  canonical subnets → (∀ node, node ∈ State.Nodes state → node_ok node) →
  NoDup (Node.ID <$> State.Nodes state) →
  NoDup (Node.ID <$> State.Nodes (assign_subnets state nodeID subnets)) ∧
  (∀ node, node ∈ State.Nodes (assign_subnets state nodeID subnets) → node_ok node).
Proof.
  intros Hc Hok Hnd. unfold assign_subnets. destruct (node_at state nodeID) as [[i node]|] eqn:Hi; [|done].
  apply node_at_Some in Hi as [Hi _]. split.
  - cbn. rewrite list_fmap_insert, list_insert_id; [done|]. by rewrite list_lookup_fmap, Hi.
  - intros n [j Hj]%list_elem_of_lookup_1. cbn in Hj. apply list_lookup_insert_Some in Hj as [(-> & <- & _)|(_ & Hj)].
    + split; [done|]. exact (proj2 (Hok node (list_elem_of_lookup_2 _ _ _ Hi))).
    + apply Hok. by eapply list_elem_of_lookup_2.
Qed.

(** Edits of other networks do not notice the switch. *)
Lemma assign_keeps_other state node subnets network :
  findNode state (Node.ID node) = Some node → Node.NetworkID node ≠ Network.ID network →
  edit_ok state network → edit_ok (assign_subnets state (Node.ID node) subnets) network.
Proof.
  intros Hn Hne Hv. eapply edit_ok_ext; [exact Hv|]. intros owner Ho _ Hok. exists owner. split; [|done].
  rewrite (assign_find _ _ _ _ _ Hn). rewrite decide_False; [done|]. intros E. rewrite E in Ho.
  rewrite Hn in Ho. injection Ho as <-. by destruct Hok.
Qed.

(** ** Starting an edit *)
Lemma start_edit_call eventID now actor nodeID input state state' :
  startRouteProfileEdit eventID now actor nodeID input state = Ok state' →
  state' = state ∨
  ∃ i network node desired revision event, Node.ID node = TrimSpace nodeID ∧
    findNode state (Node.ID node) = Some node ∧ network_at state (Node.NetworkID node) = Some (i, network) ∧
    normalizeRoutedSubnets (StartRouteProfileEditInput.RoutedSubnets input) = Ok desired ∧ now ≠ 0 ∧
    validRouteTransferRequestID (TrimSpace (StartRouteProfileEditInput.RequestID input)) = true ∧
    validPersistedID (Node.ID node) = true ∧ routeTransferTerminal (Network.RouteTransfer network) = true ∧
    Node.Status node = "active" ∧ enrolled node = true ∧ 1 ≤ Node.CertificateGeneration node ∧
    Node.CertificateGeneration node ≠ int64_max ∧ elems (Node.RoutedSubnets node) ≠ elems desired ∧
    validateRouteProfileTransition (Node.RoutedSubnets node) desired = Ok tt ∧
    let edit := NetworkRouteProfileEdit.make (TrimSpace (StartRouteProfileEditInput.RequestID input)) "" (Node.ID node)
      (Node.RoutedSubnets node) desired 0 0 now 0 0 in
    let generation := wrap64 (Node.CertificateGeneration node + 1) in
    let assigned := assign_subnets state (Node.ID node) desired in
    state' = append_audit (if empty_slice (routeProfileEditAdditions edit) then
        put_network assigned i (set_revision (reconcileNetworkRoutePolicies assigned network <| Network.RouteProfileEdit :=
          edit <| NetworkRouteProfileEdit.Phase := RouteProfileEditPhaseCleaningOwner |>
               <| NetworkRouteProfileEdit.PromotedAt := now |>
               <| NetworkRouteProfileEdit.CleanupCertificateGeneration := generation |> |>) revision now)
      else put_network state i (set_revision (network <| Network.RouteProfileEdit :=
          edit <| NetworkRouteProfileEdit.Phase := RouteProfileEditPhasePreparingOwner |>
               <| NetworkRouteProfileEdit.PreparedCertificateGeneration := generation |> |>) revision now)) event.
Proof.
  unfold startRouteProfileEdit. cbv zeta. intros H.
  destruct (normalizeRoutedSubnets (StartRouteProfileEditInput.RoutedSubnets input)) as [desired|] eqn:Hr; [|done].
  apply guard_iff in H as [Hg H]. apply guard_iff in H as [Hnow H]. apply guard_iff in H as [_ H].
  apply bind_Ok in H as (node & Hn%of_option_Ok & H).
  apply bind_Ok in H as ([i network] & Hnet%of_option_Ok & H). destruct (_ == _) in H.
  { apply guard_iff in H as [_ [= <-]]. by left. }
  right. apply guard_iff in H as [Ht H]. apply guard_iff in H as [Hnode H]. apply guard_iff in H as [Hne H].
  apply bind_Ok in H as ([] & Htr & H). apply bind_Ok in H as (? & _ & H). apply bind_Ok in H as (revision & _ & H).
  pose proof (findNode_Some _ _ _ Hn) as [_ En]. rewrite <- En in Hn, Hg. split_bools.
  unfold slices_equal in Hne. rewrite bool_decide_eq_false in Hne. apply Z.eqb_neq in Hnow.
  rewrite Z.ltb_ge, Z.eqb_neq in *.
  destruct (empty_slice _) eqn:He in H; cbn [negb] in H; apply bind_Ok in H as (event & _ & [= <-]);
    exists i, network, node, desired, revision, event; rewrite He; by split_and!.
Qed.

(** Two canonical lists differ in some prefix. *)
Lemma changes_something original desired :
  canonical original → canonical desired → elems original ≠ elems desired →
  elems (subnetDifference desired original) ≠ [] ∨ elems (subnetDifference original desired) ≠ [].
Proof.
  intros Ho Hd Hne. destruct (decide (elems (subnetDifference desired original) = [])) as [E1|]; [|by left].
  destruct (decide (elems (subnetDifference original desired) = [])) as [E2|]; [|by right].
  exfalso. apply Hne. apply canonical_ext; [done..|]. intros x.
  pose proof (elem_of_difference desired original x) as H1. pose proof (elem_of_difference original desired x) as H2.
  rewrite E1 in H1. rewrite E2 in H2. rewrite elem_of_nil in H1, H2.
  destruct (decide (x ∈ elems original)), (decide (x ∈ elems desired)); tauto.
Qed.

Lemma network_ids_ne state i network j m :
  NoDup (Network.ID <$> State.Networks state) → State.Networks state !! i = Some network →
  j ≠ i → State.Networks state !! j = Some m → Network.ID network ≠ Network.ID m.
Proof.
  intros Hnd Hi Hj Hm E. apply Hj. eapply (NoDup_lookup (Network.ID <$> State.Networks state));
    [done|by rewrite list_lookup_fmap, Hm|by rewrite list_lookup_fmap, Hi, <- E].
Qed.

(** The switch and the write-back of the network, together. *)
Lemma switch_keeps state i network node subnets network' event :
  edits_ok state → State.Networks state !! i = Some network → findNode state (Node.ID node) = Some node →
  Node.NetworkID node = Network.ID network → canonical subnets → Network.ID network' = Network.ID network →
  edit_ok (assign_subnets state (Node.ID node) subnets) network' →
  edits_ok (append_audit (put_network (assign_subnets state (Node.ID node) subnets) i network') event).
Proof.
  intros Hok Hi Hn Hnet Hc Hid Hnew. destruct Hok as [H1 H2 H3 H4].
  destruct (assign_nodes state (Node.ID node) subnets Hc H3 H1) as [H1' H3'].
  apply (put_edits_ok _ i network); try done.
  - by rewrite assign_networks.
  - by rewrite assign_networks.
  - intros j m Hj Hm. rewrite assign_networks in Hm. apply assign_keeps_other; [done| |].
    + rewrite Hnet. by eapply network_ids_ne.
    + apply H4. by eapply list_elem_of_lookup_2.
Qed.

Lemma start_edit_keeps eventID now actor nodeID input state state' :
  startRouteProfileEdit eventID now actor nodeID input state = Ok state' → edits_ok state → edits_ok state'.
Proof.
  intros H Hok. apply start_edit_call in H as [->|H]; [done|].
  destruct H as (i & network & node & desired & revision & event & _ & Hn & Hnet & Hd & Hnow & Hq & Hid & Ht & Hact & Henr &
    Hg1 & Hg2 & Hne & _ & ->).
  apply network_at_Some in Hnet as [Hi Hnid]. pose proof (findNode_Some _ _ _ Hn) as [Hin _].
  destruct (edits_nodes _ Hok _ Hin) as [Hc Hg]. destruct (normalize_canonical _ _ Hd) as [Hcd _].
  destruct (empty_slice _) eqn:He; [apply empty_slice_iff in He|apply empty_slice_false in He].
  - destruct (changes_something _ _ Hc Hcd Hne) as [?|Hrem]; [done|].
    assert (edit_record (NetworkRouteProfileEdit.make (TrimSpace (StartRouteProfileEditInput.RequestID input))
      RouteProfileEditPhaseCleaningOwner (Node.ID node) (Node.RoutedSubnets node) desired 0
      (wrap64 (Node.CertificateGeneration node + 1)) now now 0)) as Hrec.
    { constructor; cbn; try done; [by right|].
      right; left. split_and!; try done. cbn. rewrite successor_generation by lia. lia. }
    destruct (reconcile_fields (assign_subnets state (Node.ID node) desired) network) as (Rid & Rt & _ & _).
    apply (switch_keeps _ i network); try done.
    apply edit_ok_intro; [exact Hrec|]. intros _.
    split; [cbn -[reconcileNetworkRoutePolicies]; rewrite Rt; by apply terminal_not_active|].
    exists (node <| Node.RoutedSubnets := desired |>). split.
    { cbn -[assign_subnets]. by rewrite (assign_find _ _ _ _ _ Hn), decide_True. }
    cbn -[reconcileNetworkRoutePolicies]. rewrite Rid. split_and!; try done. by right.
  - assert (edit_record (NetworkRouteProfileEdit.make (TrimSpace (StartRouteProfileEditInput.RequestID input))
      RouteProfileEditPhasePreparingOwner (Node.ID node) (Node.RoutedSubnets node) desired
      (wrap64 (Node.CertificateGeneration node + 1)) 0 now 0 0)) as Hrec.
    { constructor; cbn; try done; [by left|split; [done|]; intros _; rewrite successor_generation by lia; lia|].
      left. by split_and!. }
    destruct Hok as [H1 H2 H3 H4]. apply (put_edits_ok _ i network); try done.
    { intros j m _ Hm. apply H4. by eapply list_elem_of_lookup_2. }
    apply edit_ok_intro; [exact Hrec|]. intros _. split; [by apply terminal_not_active|].
    exists node. split; [done|]. split_and!; try done. by right.
Qed.

(** ** Advancing and cancelling an edit *)
Lemma edited_network_Some state node i network :
  edited_network state node = Some (i, network) → State.Networks state !! i = Some network ∧
  Network.ID network = Node.NetworkID node ∧ NetworkRouteProfileEdit.NodeID (Network.RouteProfileEdit network) = Node.ID node.
Proof. unfold edited_network. intros (? & [? ?] & _)%list_find_Some. done. Qed.

Lemma update_edit_call eventID now actor nodeID input cancel state state' :
  updateRouteProfileEdit eventID now actor nodeID input cancel state = Ok state' →
  state' = state ∨
  ∃ i network node, findNode state (Node.ID node) = Some node ∧ State.Networks state !! i = Some network ∧
    Network.ID network = Node.NetworkID node ∧
    NetworkRouteProfileEdit.NodeID (Network.RouteProfileEdit network) = Node.ID node ∧ now ≠ 0 ∧
    ∃ state1 network' event, state' = append_audit (put_network state1 i network') event ∧
    if cancel then state1 = state ∧ cancel_edit state now network node = Ok (Some network')
    else advance_edit state now network node = Ok (Some (state1, network')).
Proof.
  unfold updateRouteProfileEdit. cbv zeta. intros H. apply guard_iff in H as [_ H]. apply guard_iff in H as [Hnow H].
  apply guard_iff in H as [_ H]. apply bind_Ok in H as (node & Hn%of_option_Ok & H).
  apply bind_Ok in H as ([i network] & Hnet%of_option_Ok & H). apply guard_iff in H as [_ H].
  destruct (_ && _) in H; [injection H as <-; by left|]. apply guard_iff in H as [_ H]. apply Z.eqb_neq in Hnow.
  pose proof (findNode_Some _ _ _ Hn) as [_ En]. rewrite <- En in Hn. apply edited_network_Some in Hnet as (Hi & Hid & He).
  destruct cancel.
  - apply bind_Ok in H as ([network'|] & Hc & H); [|injection H as <-; by left].
    apply bind_Ok in H as (event & _ & [= <-]). right. exists i, network, node. split_and!; try done.
    by exists state, network', event.
  - apply bind_Ok in H as ([[state1 network']|] & Hc & H); [|injection H as <-; by left].
    apply bind_Ok in H as (event & _ & [= <-]). right. exists i, network, node. split_and!; try done.
    by exists state1, network', event.
Qed.

(** The metadata an edit has in the phase it is known to be in. *)
Ltac edit_phase_facts Hrec Hphase Hm :=
  pose proof (edit_phase _ Hrec) as Hm; unfold edit_metadata in Hm; cbv zeta in Hm; rewrite Hphase in Hm;
  destruct Hm as [Hm|[Hm|[Hm|[Hm|Hm]]]]; destruct Hm as [?Hphase_eq Hm]; try discriminate; clear Hphase_eq.

Lemma edit_active_cases e :
  NetworkRouteProfileEdit.Phase e = RouteProfileEditPhasePreparingOwner ∨
  NetworkRouteProfileEdit.Phase e = RouteProfileEditPhaseCleaningOwner ∨
  NetworkRouteProfileEdit.Phase e = RouteProfileEditPhaseCleaningCancelledOwner → routeProfileEditActive e = true.
Proof. unfold routeProfileEditActive. by intros [-> |[-> | ->]]. Qed.

(** A cancelled edit is finished. *)
Lemma cancelled_edit_ok state network network' now :
  edit_record (Network.RouteProfileEdit network) → now ≠ 0 →
  NetworkRouteProfileEdit.PromotedAt (Network.RouteProfileEdit network) = 0 →
  Network.RouteProfileEdit network' = Network.RouteProfileEdit network
    <| NetworkRouteProfileEdit.Phase := RouteProfileEditPhaseCancelled |> <| NetworkRouteProfileEdit.FinishedAt := now |> →
  edit_ok state network'.
Proof.
  intros Hrec Hnow Hpr E. apply edit_ok_intro; rewrite E; [|done].
  destruct Hrec. constructor; try done. do 4 right. by split_and!.
Qed.

Lemma cancel_edit_keeps state now network network' node :
  edits_ok state → network ∈ State.Networks state → now ≠ 0 →
  findNode state (Node.ID node) = Some node →
  NetworkRouteProfileEdit.NodeID (Network.RouteProfileEdit network) = Node.ID node →
  cancel_edit state now network node = Ok (Some network') →
  Network.ID network' = Network.ID network ∧ edit_ok state network'.
Proof.
  intros Hok Hin Hnow Hn He H. unfold cancel_edit in H. cbv zeta in H. case_bool_decide; [done|].
  case_bool_decide as Hp1.
  - destruct (active_edit _ _ Hok Hin ltac:(auto using edit_active_cases)) as (Hrec & Htr & owner & Ho & Hown).
    rewrite He, Hn in Ho. injection Ho as <-. edit_phase_facts Hrec Hp1 Hm. destruct Hm as (M1 & M2 & M3 & M4).
    apply bind_Ok in H as (r & _ & H). destruct (_ <? _) eqn:Hg in H.
    { injection H as <-. split; [done|]. by eapply cancelled_edit_ok. }
    apply guard_iff in H as [Hmax [= <-]]. apply Z.eqb_neq in Hmax. split; [done|].
    pose proof (findNode_Some _ _ _ Hn) as [Hnin _]. destruct (edits_nodes _ Hok _ Hnin) as [_ Hb].
    apply edit_ok_intro.
    + destruct Hrec. constructor; try done. do 2 right. left. split_and!; try done. cbn.
      rewrite successor_generation by lia. lia.
    + intros _. split; [done|]. exists node. split; [by rewrite <- He in Hn|].
      destruct Hown as (O1 & O2 & O3 & _ & O5). split_and!; try done; [by right|].
      unfold expected_subnets in *. rewrite Hp1 in O5. exact O5.
  - case_bool_decide as Hp2; [|done].
    destruct (active_edit _ _ Hok Hin ltac:(auto using edit_active_cases)) as (Hrec & _).
    apply guard_iff in H as [_ [= <-]]. split; [done|]. edit_phase_facts Hrec Hp2 Hm.
    destruct Hm as (_ & _ & M3 & _). by eapply cancelled_edit_ok.
Qed.

Lemma advance_edit_keeps state now i network network' node state1 event :
  edits_ok state → State.Networks state !! i = Some network → now ≠ 0 →
  findNode state (Node.ID node) = Some node → Network.ID network = Node.NetworkID node →
  NetworkRouteProfileEdit.NodeID (Network.RouteProfileEdit network) = Node.ID node →
  advance_edit state now network node = Ok (Some (state1, network')) →
  edits_ok (append_audit (put_network state1 i network') event).
Proof.
  intros Hok Hi Hnow Hn Hnet He H. assert (network ∈ State.Networks state) as Hin by (by eapply list_elem_of_lookup_2).
  unfold advance_edit in H. cbv zeta in H. case_bool_decide; [done|]. case_bool_decide as Hp1.
  - destruct (active_edit _ _ Hok Hin ltac:(auto using edit_active_cases)) as (Hrec & Htr & owner & Ho & Hown).
    rewrite He, Hn in Ho. injection Ho as <-. edit_phase_facts Hrec Hp1 Hm. destruct Hm as (M1 & M2 & M3 & M4).
    apply guard_iff in H as [_ H]. apply bind_Ok in H as (r & _ & H). apply bind_Ok in H as (e & He' & [= <- <-]).
    pose proof (findNode_Some _ _ _ Hn) as [Hnin _]. destruct (edits_nodes _ Hok _ Hnin) as [_ Hb].
    set (desired := NetworkRouteProfileEdit.DesiredSubnets (Network.RouteProfileEdit network)) in *.
    destruct (reconcile_fields (assign_subnets state (Node.ID node) desired) network) as (Rid & Rt & _ & _).
    pose proof (edit_desired _ Hrec) as Hd. fold desired in Hd.
    apply (switch_keeps _ i network); try done.
    destruct (empty_slice _) eqn:Hemp in He'; cbn [negb] in He'.
    + apply empty_slice_iff in Hemp. injection He' as <-. apply edit_ok_intro; [|done].
      destruct Hrec. constructor; try done. do 3 right. left. split_and!; try done.
    + apply empty_slice_false in Hemp. apply guard_iff in He' as [Hmax [= <-]]. apply Z.eqb_neq in Hmax.
      apply edit_ok_intro.
      * destruct Hrec. constructor; try done. right. left. split_and!; try done. cbn.
        rewrite successor_generation by lia. lia.
      * intros _. split; [cbn -[reconcileNetworkRoutePolicies]; by rewrite Rt|].
        exists (node <| Node.RoutedSubnets := desired |>). split.
        { cbn -[assign_subnets]. by rewrite (assign_find _ _ _ _ _ Hn), decide_True. }
        cbn -[reconcileNetworkRoutePolicies]. rewrite Rid. destruct Hown as (O1 & O2 & O3 & _ & _).
        split_and!; try done. by right.
  - case_bool_decide as Hp2; [|done]. apply guard_iff in H as [_ [= <- <-]].
    destruct (active_edit _ _ Hok Hin ltac:(auto using edit_active_cases)) as (Hrec & _).
    edit_phase_facts Hrec Hp2 Hm. destruct Hm as (M1 & M2 & M3 & M4).
    destruct Hok as [H1 H2 H3 H4]. apply (put_edits_ok _ i network); try done.
    { intros j m _ Hm'. apply H4. by eapply list_elem_of_lookup_2. }
    apply edit_ok_intro; [|done]. destruct Hrec. constructor; try done. do 3 right. left. by split_and!.
Qed.

(** ** Steps *)

(** Agents report, and renew the certificate an edit asks for: a node with an
    unfinished edit goes to the generation its edit names and no further. *)
Definition edit_agent_update (state : State.t) (node node' : Node.t) : Prop :=
  agent_update node node' ∧ enrolled node' = enrolled node ∧
  ∀ network, network ∈ State.Networks state →
    routeProfileEditIncludesNode (Network.RouteProfileEdit network) (Node.ID node) = true →
    Node.CertificateGeneration node' = Node.CertificateGeneration node ∨
    Node.CertificateGeneration node' = routeProfileEditDesiredGeneration (Network.RouteProfileEdit network).

Inductive edit_step : State.t → State.t → Prop :=
  | edit_step_start eventID now actor nodeID input state state' :
      startRouteProfileEdit eventID now actor nodeID input state = Ok state' → edit_step state state'
  | edit_step_update eventID now actor nodeID input cancel state state' :
      updateRouteProfileEdit eventID now actor nodeID input cancel state = Ok state' → edit_step state state'
  | edit_step_agents f state :
      (∀ node, node ∈ State.Nodes state → edit_agent_update state node (f node)) →
      (∀ node, Node.ID (f node) = Node.ID node) → edit_step state (map_nodes f state).

Lemma edit_agents_keep f state :
  (∀ node, node ∈ State.Nodes state → edit_agent_update state node (f node)) →
  (∀ node, Node.ID (f node) = Node.ID node) → edits_ok state → edits_ok (map_nodes f state).
Proof.
  intros Hf Hid [H1 H2 H3 H4]. constructor; [| done | |].
  - cbn. rewrite <- list_fmap_compose. rewrite (list_fmap_ext (Node.ID ∘ f) Node.ID) by (intros; apply Hid). done.
  - cbn. intros n (m & -> & Hm)%list_elem_of_fmap. destruct (Hf m Hm) as ((_ & Hv & Hg) & _).
    destruct (H3 m Hm) as [Hc Hb]. injection Hv as _ _ E. split; [unfold canonical; by rewrite E|lia].
  - intros network Hn. eapply edit_ok_ext; [by apply H4|]. intros owner Ho Ha (O1 & O2 & O3 & O4 & O5).
    exists (f owner). split; [by rewrite findNode_map, Ho|]. apply findNode_Some in Ho as [Hin Hoid].
    destruct (Hf owner Hin) as ((_ & Hv & Hg) & Henr & Hgen). injection Hv as V1 V2 V3.
    split_and!; [congruence..| |congruence].
    specialize (Hgen network Hn). destruct Hgen as [-> | ->]; [|done|by left].
    unfold routeProfileEditIncludesNode. rewrite Ha, Hoid. by rewrite bool_decide_eq_true_2.
Qed.

Lemma update_edit_keeps eventID now actor nodeID input cancel state state' :
  updateRouteProfileEdit eventID now actor nodeID input cancel state = Ok state' → edits_ok state → edits_ok state'.
Proof.
  intros H Hok. apply update_edit_call in H as [->|(i & network & node & Hn & Hi & Hnet & He & Hnow & H)]; [done|].
  destruct H as (state1 & network' & event & -> & H). destruct cancel; [|by eapply advance_edit_keeps].
  destruct H as [-> H]. assert (network ∈ State.Networks state) as Hin by (by eapply list_elem_of_lookup_2).
  destruct (cancel_edit_keeps _ _ _ _ _ Hok Hin Hnow Hn He H) as [Hid Hnew].
  destruct Hok. eapply put_edits_ok; eauto. intros j m _ Hm. apply edits_valid0. by eapply list_elem_of_lookup_2.
Qed.

Lemma edit_steps_keep state state' : rtc edit_step state state' → edits_ok state → edits_ok state'.
Proof.
  induction 1 as [|s s' s'' Hs _ IH]; [done|]. intros Hok. apply IH.
  destruct Hs; eauto using start_edit_keeps, update_edit_keeps, edit_agents_keep.
Qed.

(** C32: Along any interleaving of route-profile edit calls with agents that report
    and renew the certificates the edits ask for, every network's edit record
    stays valid: validateNetworkRouteProfileEdit accepts it. *)
Theorem edits_stay_valid state state' :
  rtc edit_step state state' → edits_ok state →
  ∀ network, network ∈ State.Networks state' → validateNetworkRouteProfileEdit state' network = Ok tt.
Proof. intros Hr Hok%(edit_steps_keep _ _ Hr) network Hn. by apply (edits_valid _ Hok). Qed.

(** The prefixes peers route to the owner of an unfinished edit change in one
    step: they are the original ones until promotion and while a cancelled edit is
    cleaned, and exactly the requested ones from promotion on; the owner stays an
    active member of the network, and no route transfer runs beside the edit. *)
Theorem edit_publishes_atomically state state' network :
  rtc edit_step state state' → edits_ok state → network ∈ State.Networks state' →
  let edit := Network.RouteProfileEdit network in
  routeProfileEditActive edit = true →
  routeTransferActive (Network.RouteTransfer network) = false ∧
  ∃ owner, findNode state' (NetworkRouteProfileEdit.NodeID edit) = Some owner ∧
    live_node (Network.ID network) owner = true ∧
    elems (Node.RoutedSubnets owner) =
      elems (if NetworkRouteProfileEdit.Phase edit == RouteProfileEditPhaseCleaningOwner
             then NetworkRouteProfileEdit.DesiredSubnets edit else NetworkRouteProfileEdit.OriginalSubnets edit).
Proof.
  intros Hr Hok%(edit_steps_keep _ _ Hr) Hn edit Ha.
  destruct (active_edit _ _ Hok Hn Ha) as (_ & Ht & owner & Ho & O1 & O2 & O3 & _ & O5). split; [done|].
  exists owner. split; [done|]. split; [|done]. unfold live_node. by eval_bools.
Qed.

(** ** The staged certificate *)

(** The network and the certificate list of the owner right after an edit with
    additions was started. *)
Lemma started_certificate eventID now actor nodeID input state state' node desired :
  startRouteProfileEdit eventID now actor nodeID input state = Ok state' → state' ≠ state →
  findNode state (TrimSpace nodeID) = Some node →
  normalizeRoutedSubnets (StartRouteProfileEditInput.RoutedSubnets input) = Ok desired →
  elems (subnetDifference desired (Node.RoutedSubnets node)) ≠ [] →
  validateRouteProfileTransition (Node.RoutedSubnets node) desired = Ok tt ∧
  findNode state' (TrimSpace nodeID) = Some node ∧
  ∃ i network', network_at state' (Node.NetworkID node) = Some (i, network') ∧
    certificateRoutedSubnets network' node = mergeSubnets (Node.RoutedSubnets node) desired.
Proof.
  intros H Hne Hn Hd Hadd. apply start_edit_call in H as [?|H]; [done|].
  destruct H as (i & network & node' & desired' & revision & event & Hid & Hn' & Hnet & Hd' & _ & _ & _ & Ht & _ & _ & _ & _ & _ &
    Htr & ->).
  clear Hne. rewrite Hid, Hn in Hn'. injection Hn' as <-. rewrite Hd in Hd'. injection Hd' as <-. cbv zeta.
  match goal with |- context [empty_slice ?x] =>
    replace (empty_slice x) with false by (symmetry; apply empty_slice_false; exact Hadd) end.
  split; [done|]. split; [done|].
  eexists i, _. rewrite network_at_append. split; [by apply (network_at_put _ _ _ _ _ Hnet)|].
  apply terminal_not_active in Ht. unfold routeTransferActive in Ht. split_bools.
  unfold certificateRoutedSubnets. cbn -[mergeSubnets]. eval_bools. cbn -[mergeSubnets].
  unfold routeProfileCertificateRoutedSubnets. cbn -[mergeSubnets]. by rewrite (bool_decide_eq_true_2 _ eq_refl).
Qed.

(** An edit that replaces the owner's prefixes by new ones stages the union:
    when none of the requested prefixes is one the owner has already, the
    certificate the owner is asked to obtain carries exactly the prefixes it has
    and the requested ones. *)
Theorem staged_certificate_is_union eventID now actor nodeID input state state' node desired :
  startRouteProfileEdit eventID now actor nodeID input state = Ok state' → state' ≠ state → edits_ok state →
  findNode state (TrimSpace nodeID) = Some node →
  normalizeRoutedSubnets (StartRouteProfileEditInput.RoutedSubnets input) = Ok desired → elems desired ≠ [] →
  (∀ x, x ∈ elems desired → ¬ (x ∈ elems (Node.RoutedSubnets node))) →
  ∃ i network', network_at state' (Node.NetworkID node) = Some (i, network') ∧
    ∀ x, x ∈ elems (certificateRoutedSubnets network' node) ↔ x ∈ elems (Node.RoutedSubnets node) ∨ x ∈ elems desired.
Proof.
  intros H Hne Hok Hn Hd Hsome Hfresh.
  destruct (started_certificate _ _ _ _ _ _ _ _ _ H Hne Hn Hd) as (Htr & _ & i & network' & Hnet & Hcert).
  { intros E. destruct (elems desired) as [|x l] eqn:Ed; [done|]. assert (x ∈ []) as Hx; [|by apply elem_of_nil in Hx].
    rewrite <- E. apply elem_of_difference. rewrite Ed. split; [constructor|]. apply Hfresh. constructor. }
  exists i, network'. split; [done|]. intros x. rewrite Hcert.
  pose proof (findNode_Some _ _ _ Hn) as [Hin _]. destruct (edits_nodes _ Hok _ Hin) as [Hc _].
  destruct (normalize_canonical _ _ Hd) as [Hcd _]. destruct (transition_merges _ _ Hc Hcd Htr Hfresh) as [m Hm].
  by apply (elem_of_merge _ _ m).
Qed.

(** An edit that keeps one of the owner's prefixes and adds another stages a
    certificate with no routed prefix at all: the merge of the two lists refuses
    the shared prefix as a duplicate, the error is dropped, and the list is empty,
    while the owner still routes every prefix it had. *)
Theorem shared_prefix_staging_loses_routes eventID now actor nodeID input state state' node desired shared added :
  startRouteProfileEdit eventID now actor nodeID input state = Ok state' → state' ≠ state →
  findNode state (TrimSpace nodeID) = Some node →
  normalizeRoutedSubnets (StartRouteProfileEditInput.RoutedSubnets input) = Ok desired →
  shared ∈ elems (Node.RoutedSubnets node) → shared ∈ elems desired →
  added ∈ elems desired → ¬ (added ∈ elems (Node.RoutedSubnets node)) →
  findNode state' (TrimSpace nodeID) = Some node ∧
  ∃ i network', network_at state' (Node.NetworkID node) = Some (i, network') ∧
    elems (certificateRoutedSubnets network' node) = [].
Proof.
  intros H Hne Hn Hd Hs Hs' Ha Ha'.
  destruct (started_certificate _ _ _ _ _ _ _ _ _ H Hne Hn Hd) as (_ & Hn' & i & network' & Hnet & Hcert).
  { intros E. assert (added ∈ []) as Hx; [|by apply elem_of_nil in Hx]. rewrite <- E. by apply elem_of_difference. }
  split; [done|]. exists i, network'. split; [done|]. rewrite Hcert. by rewrite (merge_shared _ _ shared).
Qed.

(** *** Concrete edits *)
Definition edit_start_state : State.t :=
  idle_state <| State.Nodes := [converged_node "a" (Some ["192.168.7.0/24"]) 1 "";
                                converged_node "b" (Some ["192.168.9.0/24"]) 1 ""] |>.
Definition edit_input (subnets : list string) : StartRouteProfileEditInput.t :=
  StartRouteProfileEditInput.make subnets 4 "request-0000-0003".
Definition started_edit_state (subnets : list string) : State.t :=
  match startRouteProfileEdit "event-0000-0000-0001" 40 None (id_of "a") (edit_input subnets) edit_start_state with
  | Ok s => s | Err _ => State.zero end.
Definition edit_owner : Node.t := converged_node "a" (Some ["192.168.7.0/24"]) 1 "".
Definition edited (subnets : list string) : Network.t :=
  default Network.zero (findNetwork (started_edit_state subnets) "network-0000-0000").

Lemma edit_start_ok : edits_ok edit_start_state.
Proof.
  constructor.
  - apply (bool_decide_unpack _). vm_compute. exact I.
  - apply (bool_decide_unpack _). vm_compute. exact I.
  - intros node Hn. apply list_elem_of_In in Hn as [<-|[<-|[]]]; (split; [|vm_compute; split; discriminate]);
      apply validate_canonical_iff; vm_compute; reflexivity.
  - intros network Hn. apply list_elem_of_In in Hn as [<-|[]]. vm_compute. reflexivity.
Qed.

Lemma edit_start_run subnets :
  is_ok (startRouteProfileEdit "event-0000-0000-0001" 40 None (id_of "a") (edit_input subnets) edit_start_state) = true →
  rtc edit_step edit_start_state (started_edit_state subnets).
Proof.
  intros H. apply rtc_once. unfold started_edit_state.
  destruct (startRouteProfileEdit _ _ _ _ _ _) eqn:E; [|done]. by eapply edit_step_start.
Qed.

Lemma edits_stay_valid_witness :
  validateNetworkRouteProfileEdit (started_edit_state ["192.168.11.0/24"]) (edited ["192.168.11.0/24"]) = Ok tt.
Proof.
  refine (edits_stay_valid edit_start_state (started_edit_state ["192.168.11.0/24"]) (edit_start_run _ _) edit_start_ok _ _).
  - vm_compute. reflexivity.
  - apply (bool_decide_unpack _). vm_compute. exact I.
Defined.

Lemma edit_publishes_atomically_witness :
  let edit := Network.RouteProfileEdit (edited ["192.168.11.0/24"]) in
  ∃ owner, findNode (started_edit_state ["192.168.11.0/24"]) (NetworkRouteProfileEdit.NodeID edit) = Some owner ∧
    live_node (Network.ID (edited ["192.168.11.0/24"])) owner = true ∧
    elems (Node.RoutedSubnets owner) =
      elems (if NetworkRouteProfileEdit.Phase edit == RouteProfileEditPhaseCleaningOwner
             then NetworkRouteProfileEdit.DesiredSubnets edit else NetworkRouteProfileEdit.OriginalSubnets edit).
Proof.
  refine (proj2 (edit_publishes_atomically edit_start_state (started_edit_state ["192.168.11.0/24"]) (edited ["192.168.11.0/24"])
    (edit_start_run _ _) edit_start_ok _ _)).
  - vm_compute. reflexivity.
  - apply (bool_decide_unpack _). vm_compute. exact I.
  - vm_compute. reflexivity.
Defined.

Lemma staged_certificate_is_union_witness :
  ∃ i network', network_at (started_edit_state ["192.168.11.0/24"]) (Node.NetworkID edit_owner) = Some (i, network') ∧
    ∀ x, x ∈ elems (certificateRoutedSubnets network' edit_owner) ↔
      x ∈ elems (Node.RoutedSubnets edit_owner) ∨ x ∈ elems (Some ["192.168.11.0/24"]).
Proof.
  apply (staged_certificate_is_union "event-0000-0000-0001" 40 None (id_of "a") (edit_input ["192.168.11.0/24"])
    edit_start_state (started_edit_state ["192.168.11.0/24"]) edit_owner (Some ["192.168.11.0/24"])).
  - vm_compute. reflexivity.
  - intros E. apply (f_equal (λ s, length (State.Audit s))) in E. vm_compute in E. discriminate E.
  - exact edit_start_ok.
  - vm_compute. reflexivity.
  - vm_compute. reflexivity.
  - discriminate.
  - intros x Hx Hx'. apply list_elem_of_singleton in Hx, Hx'. subst. discriminate Hx'.
Defined.

Lemma shared_prefix_staging_loses_routes_witness :
  ∃ i network', network_at (started_edit_state ["192.168.7.0/24"; "192.168.11.0/24"]) (Node.NetworkID edit_owner) = Some (i, network') ∧
    elems (certificateRoutedSubnets network' edit_owner) = [].
Proof.
  apply (shared_prefix_staging_loses_routes "event-0000-0000-0001" 40 None (id_of "a")
    (edit_input ["192.168.7.0/24"; "192.168.11.0/24"]) edit_start_state
    (started_edit_state ["192.168.7.0/24"; "192.168.11.0/24"]) edit_owner (Some ["192.168.7.0/24"; "192.168.11.0/24"])
    "192.168.7.0/24" "192.168.11.0/24").
  - vm_compute. reflexivity.
  - intros E. apply (f_equal (λ s, length (State.Audit s))) in E. vm_compute in E. discriminate E.
  - vm_compute. reflexivity.
  - vm_compute. reflexivity.
  - constructor.
  - constructor.
  - do 2 constructor.
  - intros Hx. apply list_elem_of_singleton in Hx. discriminate Hx.
Defined.
