(* ===== verification/Credentials.v ===== *)
(** * Bearer credentials (the token helpers of internal/control/crypto.go and the
    credential checks of internal/control/service.go)

    Secrets are persisted as hashes only.  A node has a current agent credential
    and, after a rotation, the previous one for a grace period; enrollment and
    recovery bearers are one-time.  Authentication compares decoded hashes. *)
From S2P Require Import Prelude GoStd Sha256 IPv4 Model AuditLog.

(** ** Hashes are well-formed *)
Lemma b64_char_table :
  forallb (λ d, (b64_digit (b64_char d) == Some d) && (0 <=? b64_char d) && (b64_char d <? 256)
                && negb (b64_char d =? 10) && negb (b64_char d =? 13)) (seqZ 0 64) = true.
Proof. vm_compute. done. Qed.

Lemma b64_char_ok d : 0 ≤ d < 64 →
  b64_digit (b64_char d) = Some d ∧ is_byte (b64_char d) ∧ (b64_char d =? 10) = false ∧ (b64_char d =? 13) = false.
Proof.
  intros Hd. pose proof b64_char_table as T. rewrite forallb_forall in T.
  specialize (T d ltac:(apply list_elem_of_In, elem_of_seqZ; lia)). split_bools. unfold is_byte. split_and!; try done; lia.
Qed.

Lemma b64_digits_chars ds : Forall (λ d, 0 ≤ d < 64) ds → b64_digits (b64_char <$> ds) = Some ds.
Proof.
  induction 1 as [|d ds Hd _ IH]; [done|]. csimpl. destruct (b64_char_ok d Hd) as (E & _ & -> & ->). simpl.
  by rewrite E, IH.
Qed.

(** Lists of bytes, three at a time. *)
Lemma triples_ind (P : list Z → Prop) :
  P [] → (∀ x, P [x]) → (∀ x y, P [x; y]) → (∀ x y z l, P l → P (x :: y :: z :: l)) → ∀ l, P l.
Proof.
  intros H0 H1 H2 H3 l. remember (length l) as n eqn:En. revert l En.
  induction n as [n IH] using lt_wf_ind. intros l ->.
  destruct l as [|x [|y [|z l]]]; auto. apply H3. eapply IH; [|reflexivity]. simpl. lia.
Qed.

Lemma b64_pack_digits l : Forall is_byte l → Forall (λ d, 0 ≤ d < 64) (b64_pack l).
Proof.
  unfold is_byte. induction l as [|x|x y|x y z l IH] using triples_ind; intros Hl; simpl.
  - constructor.
  - rewrite Forall_singleton in Hl. repeat constructor; Z.div_mod_to_equations; lia.
  - inversion Hl as [|?? Hx Hy]; subst. rewrite Forall_singleton in Hy. repeat constructor; Z.div_mod_to_equations; lia.
  - inversion Hl as [|?? Hx Hl1]; subst. inversion Hl1 as [|?? Hy Hl2]; subst. inversion Hl2 as [|?? Hz Hl3]; subst.
    repeat constructor; auto; Z.div_mod_to_equations; lia.
Qed.

Lemma b64_unpack_pack l : Forall is_byte l → b64_unpack (b64_pack l) = Some l.
Proof.
  unfold is_byte. induction l as [|x|x y|x y z l IH] using triples_ind; intros Hl; [done|..].
  - rewrite Forall_singleton in Hl. simpl. do 2 f_equal. Z.div_mod_to_equations; lia.
  - inversion Hl as [|?? Hx Hy]; subst. rewrite Forall_singleton in Hy. simpl.
    do 2 f_equal; [|f_equal]; Z.div_mod_to_equations; lia.
  - inversion Hl as [|?? Hx Hl1]; subst. inversion Hl1 as [|?? Hy Hl2]; subst. inversion Hl2 as [|?? Hz Hl3]; subst.
    cbn [b64_pack b64_unpack]. rewrite IH by done. simpl. do 2 f_equal; [|f_equal; [|f_equal]]; Z.div_mod_to_equations; lia.
Qed.

Lemma b64_decode_encode l : Forall is_byte l → b64_decode (b64_encode l) = Some l.
Proof.
  intros Hl. unfold b64_decode, b64_encode. rewrite bytes_of_string_of.
  - rewrite b64_digits_chars by (by apply b64_pack_digits). by apply b64_unpack_pack.
  - apply Forall_fmap. eapply Forall_impl; [by apply b64_pack_digits|]. intros d Hd. by apply b64_char_ok.
Qed.

Lemma be_bytes_ok n v : length (be_bytes n v) = n ∧ Forall is_byte (be_bytes n v).
Proof.
  unfold be_bytes. rewrite length_reverse, length_fmap, length_seq. split; [done|].
  apply Forall_reverse, Forall_fmap, Forall_forall. intros i _. unfold is_byte. simpl. apply Z.mod_pos_bound. lia.
Qed.

Lemma round_length s kw : length (round s kw) = length s.
Proof. by destruct s as [|? [|? [|? [|? [|? [|? [|? [|? [|]]]]]]]]]. Qed.

Lemma rounds_length l s : length (foldl round s l) = length s.
Proof. revert s. induction l as [|kw l IH]; intros s; [done|]. simpl. by rewrite IH, round_length. Qed.

Lemma blocks_length fuel h l : length h = 8%nat → length (blocks fuel h l) = 8%nat.
Proof.
  revert h l. induction fuel as [|fuel IH]; intros h l Hh; [done|]. destruct l as [|x l]; [done|]. simpl.
  apply IH. unfold compress. rewrite length_zip_with, rounds_length. lia.
Qed.

Lemma Sum256_ok m : length (Sum256 m) = 32%nat ∧ Forall is_byte (Sum256 m).
Proof.
  unfold Sum256. set (h := blocks _ _ _). assert (length h = 8%nat) as Hh by (by apply blocks_length).
  clearbody h. split.
  - destruct h as [|? [|? [|? [|? [|? [|? [|? [|? [|]]]]]]]]]; done.
  - apply Forall_concat, Forall_fmap, Forall_forall. intros w _. apply be_bytes_ok.
Qed.

(** The secret behind a persisted hash: its 32 bytes. *)
Definition secret (encoded : string) : option (list Z) :=
  match b64_decode encoded with
  | Some decoded => if (length decoded =? 32)%nat then Some decoded else None
  | None => None
  end.

Lemma TokenHashEqual_iff a b : TokenHashEqual a b = true ↔ ∃ s, secret a = Some s ∧ secret b = Some s.
Proof.
  unfold TokenHashEqual, secret. destruct (b64_decode a) as [x|], (b64_decode b) as [y|]; try naive_solver.
  destruct (length x =? 32)%nat eqn:Ex, (length y =? 32)%nat eqn:Ey; simpl; try naive_solver.
  rewrite bool_decide_eq_true. naive_solver.
Qed.

Lemma TokenEqual_secret h token : TokenEqual h token = true ↔ secret h = Some (Sum256 (bytes_of token)).
Proof.
  unfold TokenEqual, secret. rewrite (proj1 (Sum256_ok _)). destruct (b64_decode h) as [x|]; [|naive_solver].
  destruct (length x =? 32)%nat; simpl; [|naive_solver]. rewrite bool_decide_eq_true. naive_solver.
Qed.

Lemma secret_HashToken token : secret (HashToken token) = Some (Sum256 (bytes_of token)).
Proof.
  unfold secret, HashToken. destruct (Sum256_ok (bytes_of token)) as [Hl Hb].
  rewrite b64_decode_encode by done. by rewrite Hl.
Qed.

(** The server's two comparisons agree: a bearer matches a persisted hash exactly
    when its own hash does. *)
Lemma TokenEqual_hash h token : TokenEqual h token = TokenHashEqual h (HashToken token).
Proof.
  apply Bool.eq_iff_eq_true. rewrite TokenEqual_secret, TokenHashEqual_iff. setoid_rewrite secret_HashToken. naive_solver.
Qed.

Lemma ValidTokenHash_secret h : ValidTokenHash h = true → ∃ s, secret h = Some s.
Proof.
  unfold ValidTokenHash, canonical32, secret. destruct (b64_decode h) as [x|]; [|done].
  destruct (length x =? 32)%nat; [eauto|done].
Qed.

(** ** Agents (service.go) *)
Definition expires_after (now : time) (expiry : option time) : bool :=
  match expiry with Some at_ => Before now at_ | None => false end.

(** The credential matches, and it is the current one. *)
Definition agentCredentialMatch (node : Node.t) (tokenHash : string) (now : time) : bool * bool :=
  if expires_after now (Node.AgentCredentialExpiresAt node) && TokenHashEqual (Node.AgentTokenHash node) tokenHash
  then (true, true)
  else if expires_after now (Node.PreviousAgentTokenExpiresAt node)
          && TokenHashEqual (Node.PreviousAgentTokenHash node) tokenHash
  then (true, false)
  else (false, false).

Definition authenticates (tokenHash : string) (now : time) (node : Node.t) : bool :=
  (Node.Status node == "active") && fst (agentCredentialMatch node tokenHash now).

Fixpoint find_agent_loop (tokenHash : string) (now : time) (matched : option Node.t) (nodes : list Node.t) :
    option Node.t :=
  match nodes with
  | [] => matched
  | node :: rest =>
      if authenticates tokenHash now node then
        match matched with
        | Some _ => None
        | None => find_agent_loop tokenHash now (Some node) rest
        end
      else find_agent_loop tokenHash now matched rest
  end.
Definition findAgent (state : State.t) (tokenHash : string) (now : time) : option Node.t :=
  find_agent_loop tokenHash now None (State.Nodes state).

(** The loops of the agent's operations over [state.Nodes] continue past every
    node that is not active or does not match, and stop at the first that does. *)
Definition agent_at (state : State.t) (tokenHash : string) (now : time) : option (nat * Node.t) :=
  list_find (λ node, authenticates tokenHash now node = true) (State.Nodes state).

(** The authentication before a transaction, on the state of an earlier read. *)
Definition preflightAgentCredential (read : State.t) (tokenHash : string) (at_ : time) : result Node.t :=
  of_option (findAgent read tokenHash at_) ErrUnauthorized.

Definition maxPersistedHeartbeatSequence : Z := 2 ^ 53 - 1.

Definition AuthorizeRuntimeTelemetry (now : time) (token : string) (heartbeatSequence : Z) (read : State.t) :
    result Node.t :=
  let token := TrimSpace token in
  fail ErrUnauthorized when negb (ValidBearerToken token);;
  fail ErrInvalid when (heartbeatSequence <? 1) || (maxPersistedHeartbeatSequence <? heartbeatSequence);;
  node ← preflightAgentCredential read (HashToken token) now;
  fail ErrConflict when negb (Node.HeartbeatSequence node =? heartbeatSequence)
    || match Node.LastSeenAt node with None => true | Some _ => false end;;
  Ok node.

(** ** Hashes in use *)
Definition strictCredentialHashInUse (state : State.t) (hash : string) : bool :=
  existsb (λ node, TokenHashEqual (Node.AgentTokenHash node) hash || TokenHashEqual (Node.PreviousAgentTokenHash node) hash)
    (State.Nodes state)
  || existsb (λ enrollment, TokenHashEqual (EnrollmentToken.TokenHash enrollment) hash) (State.Enrollments state)
  || existsb (λ recovery, TokenHashEqual (AgentRecoveryToken.TokenHash recovery) hash
       || match AgentRecoveryToken.Result recovery with
          | Some bundle => TokenHashEqual (RecoveryReceipt.NewAgentTokenHash (AgentRecoveryBundle.Receipt bundle)) hash
          | None => false
          end) (State.AgentRecoveries state).

Definition credentialHashInUse (state : State.t) (hash allowedNodeID allowedSlot : string) (now : time) : bool :=
  existsb (λ node,
    (Node.Status node == "active") &&
    ((expires_after now (Node.AgentCredentialExpiresAt node) && TokenHashEqual (Node.AgentTokenHash node) hash
      && ((Node.ID node != allowedNodeID) || (allowedSlot != "current")))
     || (expires_after now (Node.PreviousAgentTokenExpiresAt node)
         && TokenHashEqual (Node.PreviousAgentTokenHash node) hash))) (State.Nodes state).

Definition enrollmentHashInUse (state : State.t) (hash : string) (now : time) : bool :=
  existsb (λ enrollment, Before now (EnrollmentToken.ExpiresAt enrollment)
                         && TokenHashEqual (EnrollmentToken.TokenHash enrollment) hash) (State.Enrollments state).

Definition bearerHashInUse (state : State.t) (hash : string) (now : time) : bool :=
  credentialHashInUse state hash "" "" now || enrollmentHashInUse state hash now ||
  existsb (λ recovery, Before now (AgentRecoveryToken.ExpiresAt recovery)
                       && TokenHashEqual (AgentRecoveryToken.TokenHash recovery) hash) (State.AgentRecoveries state).

(** ** Generated secrets and identifiers

    The [i]-th call of a generator returns [generate i]; every loop calls it at
    most sixteen times. *)
Fixpoint generate_unused (attempts i : nat) (generate : nat → result string) (valid used : string → bool) (e : err) :
    result string :=
  match attempts with
  | O => Err e
  | S attempts =>
      candidate ← generate i;
      fail (ErrOther "bearer generator returned an invalid token") when negb (valid candidate);;
      if used candidate then generate_unused attempts (S i) generate valid used e else Ok candidate
  end.

Definition unique_bearer (generateBearer : option (nat → result string)) (state : State.t) (e : err) : result string :=
  generate ← of_option generateBearer (ErrOther "bearer generator is not configured");
  generate_unused 16 0 generate ValidBearerToken (λ token, strictCredentialHashInUse state (HashToken token)) e.
Definition uniqueBearer generateBearer state : result string :=
  unique_bearer generateBearer state (ErrOther "could not generate a unique bearer credential").
Definition uniqueUnseenEnrollmentBearer generateBearer state : result string :=
  unique_bearer generateBearer state (ErrOther "could not generate a globally unique enrollment bearer").
Definition uniqueUnseenRecoveryBearer generateBearer state : result string :=
  unique_bearer generateBearer state (ErrOther "could not generate a globally unique agent recovery bearer").

Definition record_id_used (state : State.t) (id : string) : bool :=
  existsb (λ enrollment, EnrollmentToken.ID enrollment == id) (State.Enrollments state)
  || existsb (λ recovery, AgentRecoveryToken.ID recovery == id) (State.AgentRecoveries state).
Definition uniqueEnrollmentID (random : nat → result string) (state : State.t) : result string :=
  generate_unused 16 0 random (λ _, true) (record_id_used state)
    (ErrOther "could not generate a unique enrollment record ID").
Definition uniqueAgentRecoveryID (random : nat → result string) (state : State.t) : result string :=
  generate_unused 16 0 random (λ _, true) (record_id_used state)
    (ErrOther "could not generate a unique agent recovery record ID").

(** ** Renewal windows and revocations *)
Definition valueOrZero (value : option time) : time := default 0 value.
Definition networkTTL (state : State.t) (networkID : string) : duration :=
  match findNetwork state networkID with
  | Some network => wrap64 (Network.CertificateTTL network * hour)
  | None => 0
  end.
Definition renewalWindow (ttl : duration) : duration :=
  let window := Z.quot ttl 3 in
  let window := if window <? hour then hour else window in
  if 30 * day <? window then 30 * day else window.

Definition appendRevocation (state : State.t) (nodeID fingerprint reason : string) (at_ : time)
    (expiresAt : option time) : State.t :=
  if fingerprint == "" then state
  else if existsb (λ r, CertificateRevocation.Fingerprint r == fingerprint) (State.Revocations state) then state
  else
    let networkID := match findNode state nodeID with Some node => Node.NetworkID node | None => "" end in
    state <| State.Revocations := State.Revocations state ++
               [CertificateRevocation.make fingerprint nodeID networkID reason at_ expiresAt] |>.

(** Runes below 0x20 are the bytes below 0x20 of valid UTF-8. *)
Definition validTelemetry (value : string) (max : Z) : bool :=
  (len value <=? max) && ValidString value && forallb (λ c, negb ((c <? 32) && negb (c =? 9))) (bytes_of value).

(** ** Rotation of an agent's credential *)
Module CredentialRotation.
Record t := make { Generation : Z; ExpiresAt : time }.
End CredentialRotation.

(** The rotation the caller already holds the result of. *)
Definition current_rotation (now : time) (node : Node.t) : result CredentialRotation.t :=
  fail (ErrOther "authoritative credential state is invalid")
    when (Node.AgentCredentialGeneration node <? 1) || negb (expires_after now (Node.AgentCredentialExpiresAt node));;
  Ok (CredentialRotation.make (Node.AgentCredentialGeneration node) (valueOrZero (Node.AgentCredentialExpiresAt node))).

Definition rotated_node (now : time) (newTokenHash : string) (node : Node.t) : Node.t :=
  node <| Node.PreviousAgentTokenHash := Node.AgentTokenHash node |>
       <| Node.PreviousAgentTokenExpiresAt := Some (now + hour) |>
       <| Node.AgentTokenHash := newTokenHash |>
       <| Node.AgentCredentialExpiresAt := Some (now + 90 * day) |>
       <| Node.AgentCredentialGeneration := wrap64 (Node.AgentCredentialGeneration node + 1) |>
       <| Node.AgentCredentialLastUsedAt := Some now |>.

Definition RotateAgentCredential (eventID : string) (now : time) (token newTokenHash : string) (read state : State.t) :
    result (State.t * CredentialRotation.t) :=
  let token := TrimSpace token in
  let newTokenHash := TrimSpace newTokenHash in
  fail ErrUnauthorized when negb (ValidBearerToken token) || negb (ValidTokenHash newTokenHash);;
  let tokenHash := HashToken token in
  _ ← preflightAgentCredential read tokenHash now;
  '(index, candidate) ← of_option (agent_at state tokenHash now) ErrUnauthorized;
  if negb (snd (agentCredentialMatch candidate tokenHash now)) then
    if Node.AgentTokenHash candidate == newTokenHash then
      rotation ← current_rotation now candidate; Ok (state, rotation)
    else Err ErrUnauthorized
  else if Node.AgentTokenHash candidate == newTokenHash then
    rotation ← current_rotation now candidate; Ok (state, rotation)
  else
  fail ErrConflict when strictCredentialHashInUse state newTokenHash;;
  fail ErrConflict when (Node.AgentCredentialGeneration candidate <? 1)
    || (Node.AgentCredentialGeneration candidate =? int64_max);;
  let rotated := rotated_node now newTokenHash candidate in
  fail (ErrOther "authoritative credential generation did not advance")
    when Node.AgentCredentialGeneration rotated <=? Node.AgentCredentialGeneration candidate;;
  let event := newAudit eventID now "node.credential_rotated" "node" (Node.ID candidate)
    [("generation", DInt (Node.AgentCredentialGeneration rotated))] in
  Ok (append_audit (put_node state index rotated) event,
      CredentialRotation.make (Node.AgentCredentialGeneration rotated) (now + 90 * day)).

(** ** The secrets of a state

    Every bearer the control plane retains the hash of: the agents' current and
    previous credentials, the enrollment and the recovery bearers. *)
Definition node_secrets (node : Node.t) : list (list Z) :=
  omap secret [Node.AgentTokenHash node; Node.PreviousAgentTokenHash node].
Definition secrets (state : State.t) : list (list Z) :=
  (State.Nodes state ≫= node_secrets) ++
  omap (λ e, secret (EnrollmentToken.TokenHash e)) (State.Enrollments state) ++
  omap (λ r, secret (AgentRecoveryToken.TokenHash r)) (State.AgentRecoveries state).

Lemma elem_of_node_secrets s node :
  s ∈ node_secrets node ↔ secret (Node.AgentTokenHash node) = Some s ∨ secret (Node.PreviousAgentTokenHash node) = Some s.
Proof.
  unfold node_secrets. rewrite list_elem_of_omap. setoid_rewrite elem_of_cons. setoid_rewrite list_elem_of_singleton.
  naive_solver.
Qed.

Lemma existsb_false {A} (f : A → bool) l : existsb f l = false ↔ ∀ x, x ∈ l → f x = false.
Proof.
  induction l as [|x l IH]; simpl; [by setoid_rewrite elem_of_nil|].
  rewrite negb_orb_false, IH. setoid_rewrite elem_of_cons. naive_solver.
Qed.

(** A hash that passes the strict check stands for no retained secret. *)
Lemma unused_secret state hash s :
  strictCredentialHashInUse state hash = false → secret hash = Some s → s ∉ secrets state.
Proof.
  unfold strictCredentialHashInUse, secrets. intros H Hs. split_bools. rewrite !existsb_false in *.
  assert (∀ h, secret h = Some s → TokenHashEqual h hash = true) as Heq by (intros h Hh; apply TokenHashEqual_iff; eauto).
  rewrite !elem_of_app. intros [Hn|[He|Hr]].
  - apply list_elem_of_bind in Hn as (n & Hn & Hin). apply elem_of_node_secrets in Hn. specialize (H n Hin). split_bools.
    destruct Hn as [Hn%Heq|Hn%Heq]; congruence.
  - apply list_elem_of_omap in He as (e & Hin & He%Heq). specialize (H1 e Hin). simpl in *. congruence.
  - apply list_elem_of_omap in Hr as (r & Hin & Hr%Heq). specialize (H0 r Hin). simpl in *. split_bools. congruence.
Qed.

(** *** Distinctness *)
Lemma submseteq_NoDup {A} (l k : list A) : l ⊆+ k → NoDup k → NoDup l.
Proof. intros [k' ->]%submseteq_Permutation [H _]%NoDup_app. exact H. Qed.

(** The shape of every step: the secrets afterwards are among those before and a
    fresh one. *)
Lemma secrets_fresh (fresh old new : list (list Z)) :
  NoDup old → NoDup fresh → (∀ s, s ∈ fresh → s ∉ old) → new ⊆+ fresh ++ old → NoDup new.
Proof. intros Ho Hf Hd Hs. eapply submseteq_NoDup; [done|]. apply NoDup_app. auto. Qed.

Lemma bind_insert {A B} (f : A → list B) l i x y fresh :
  l !! i = Some x → f y ⊆+ fresh ++ f x → (<[i := y]> l ≫= f) ⊆+ fresh ++ (l ≫= f).
Proof.
  intros Hi Hf. rewrite (insert_take_drop l i y) by (by eapply lookup_lt_Some).
  rewrite <- (take_drop_middle l i x Hi) at 3. rewrite !bind_app. csimpl.
  etrans; [apply submseteq_app; [done|apply submseteq_app; [exact Hf|done]]|]. solve_submseteq.
Qed.

Lemma bind_map {A B} (f : A → list B) (g : A → A) l :
  (∀ x, x ∈ l → f (g x) ⊆+ f x) → ((g <$> l) ≫= f) ⊆+ (l ≫= f).
Proof.
  induction l as [|x l IH]; intros Hg; csimpl; [done|]. apply submseteq_app.
  - apply Hg. constructor.
  - apply IH. intros y Hy. apply Hg. by constructor.
Qed.

Lemma put_node_secrets state i node node' fresh :
  State.Nodes state !! i = Some node → node_secrets node' ⊆+ fresh ++ node_secrets node →
  secrets (put_node state i node') ⊆+ fresh ++ secrets state.
Proof.
  intros Hi Hs. unfold secrets, put_node; simpl.
  etrans; [apply submseteq_app; [exact (bind_insert _ _ _ _ _ _ Hi Hs)|done]|]. by rewrite <- app_assoc.
Qed.

Lemma bind_lookup_inj {A B} (f : A → list B) l i j x y b :
  NoDup (l ≫= f) → l !! i = Some x → l !! j = Some y → b ∈ f x → b ∈ f y → i = j.
Proof.
  revert i j. induction l as [|z l IH]; intros i j Hnd Hi Hj Hx Hy; [done|]. csimpl in *.
  apply NoDup_app in Hnd as (_ & Hd & Hnd).
  destruct i as [|i], j as [|j]; simpl in *; [done| | |f_equal; by eapply IH].
  - injection Hi as ->. destruct (Hd b Hx). apply list_elem_of_bind. exists y. split; [done|]. by eapply list_elem_of_lookup_2.
  - injection Hj as ->. destruct (Hd b Hy). apply list_elem_of_bind. exists x. split; [done|]. by eapply list_elem_of_lookup_2.
Qed.

(** A bearer that authenticates is one of the node's secrets. *)
Lemma authenticates_secret tokenHash now node :
  authenticates tokenHash now node = true →
  Node.Status node = "active" ∧ ∃ s, secret tokenHash = Some s ∧ s ∈ node_secrets node.
Proof.
  unfold authenticates, agentCredentialMatch. intros H. split_bools. split; [done|].
  setoid_rewrite elem_of_node_secrets.
  destruct (expires_after now (Node.AgentCredentialExpiresAt node) && _) eqn:E1.
  { split_bools. match goal with H : TokenHashEqual _ _ = true |- _ => apply TokenHashEqual_iff in H as (s & ? & ?) end. eauto. }
  destruct (expires_after now (Node.PreviousAgentTokenExpiresAt node) && _) eqn:E2; [|done].
  split_bools. match goal with H : TokenHashEqual _ _ = true |- _ => apply TokenHashEqual_iff in H as (s & ? & ?) end. eauto.
Qed.

Lemma find_agent_matched tokenHash now m nodes :
  find_agent_loop tokenHash now (Some m) nodes =
  if existsb (authenticates tokenHash now) nodes then None else Some m.
Proof. induction nodes as [|n l IH]; simpl; [done|]. by destruct (authenticates tokenHash now n). Qed.

(** findAgent returns the only node that authenticates. *)
Lemma findAgent_unique state tokenHash now i node :
  State.Nodes state !! i = Some node → authenticates tokenHash now node = true →
  (∀ j m, State.Nodes state !! j = Some m → authenticates tokenHash now m = true → j = i) →
  findAgent state tokenHash now = Some node ∧ agent_at state tokenHash now = Some (i, node).
Proof.
  intros Hi Ha Hu. split.
  - unfold findAgent. clear -Hi Ha Hu. revert i Hi Hu. induction (State.Nodes state) as [|n l IH]; intros i Hi Hu; [done|].
    simpl. destruct i as [|i]; simpl in Hi.
    + injection Hi as ->. rewrite Ha, find_agent_matched.
      destruct (existsb (authenticates tokenHash now) l) eqn:E; [|done].
      apply existsb_exists in E as (m & Hm & Hma). apply list_elem_of_In, list_elem_of_lookup_1 in Hm as [j Hj].
      by specialize (Hu (S j) m Hj Hma).
    + destruct (authenticates tokenHash now n) eqn:E; [by specialize (Hu 0%nat n eq_refl E)|].
      apply (IH i Hi). intros j m Hj Hm. specialize (Hu (S j) m Hj Hm). lia.
  - unfold agent_at. apply list_find_Some. split_and!; [done..|]. intros j m Hj Hji Hm. specialize (Hu j m Hj Hm). lia.
Qed.

Lemma findAgent_Some state tokenHash now node :
  findAgent state tokenHash now = Some node →
  node ∈ State.Nodes state ∧ authenticates tokenHash now node = true.
Proof.
  unfold findAgent. induction (State.Nodes state) as [|n l IH]; [done|]. simpl.
  destruct (authenticates tokenHash now n) eqn:E.
  - rewrite find_agent_matched. destruct (existsb _ l); [done|]. intros [= <-]. split; [constructor|done].
  - intros [? ?]%IH. split; [by constructor|done].
Qed.

(** With distinct secrets, the node found by the reading operations is the node
    the writing operations stop at. *)
Lemma agents_agree state tokenHash now i node :
  NoDup (secrets state) → State.Nodes state !! i = Some node → authenticates tokenHash now node = true →
  findAgent state tokenHash now = Some node ∧ agent_at state tokenHash now = Some (i, node).
Proof.
  intros Hnd Hi Ha. apply findAgent_unique; [done..|]. intros j m Hj Hm.
  apply authenticates_secret in Ha as (_ & s & Hs & Hin), Hm as (_ & s' & Hs' & Hin').
  assert (s' = s) as -> by congruence. unfold secrets in Hnd. apply NoDup_app in Hnd as [Hnd _].
  by eapply (bind_lookup_inj node_secrets).
Qed.

(** *** Generators *)
Lemma generate_unused_Ok attempts i generate valid used e candidate :
  generate_unused attempts i generate valid used e = Ok candidate →
  valid candidate = true ∧ used candidate = false ∧
  ∃ j, (i ≤ j < i + attempts)%nat ∧ generate j = Ok candidate.
Proof.
  revert i. induction attempts as [|n IH]; intros i H; [done|]. simpl in H.
  apply bind_Ok in H as (c & Hc & H). apply guard_iff in H as [Hv H]. split_bools.
  destruct (used c) eqn:E.
  - apply IH in H as (? & ? & j & ? & ?). split_and!; [done..|]. exists j. split; [lia|done].
  - injection H as <-. split_and!; [done..|]. exists i. split; [lia|done].
Qed.

(** Among sixteen valid candidates, one that is not in use is found. *)
Lemma generate_unused_total attempts i generate valid used e j :
  (∀ k, (i ≤ k < i + attempts)%nat → ∃ c, generate k = Ok c ∧ valid c = true) →
  (i ≤ j < i + attempts)%nat → (∀ c, generate j = Ok c → used c = false) →
  ∃ c, generate_unused attempts i generate valid used e = Ok c.
Proof.
  revert i. induction attempts as [|n IH]; intros i Hg Hj Hu; [lia|]. simpl.
  destruct (Hg i ltac:(lia)) as (c & Hc & Hv). rewrite Hc. simpl. rewrite Hv. simpl.
  destruct (used c) eqn:E; [|eauto].
  assert (i ≠ j) as Hne by (intros ->; rewrite (Hu c Hc) in E; discriminate).
  apply IH; [|lia|done]. intros k Hk. apply Hg. lia.
Qed.

Lemma unique_bearer_Ok generateBearer state e token :
  unique_bearer generateBearer state e = Ok token →
  ValidBearerToken token = true ∧ strictCredentialHashInUse state (HashToken token) = false.
Proof.
  unfold unique_bearer. intros (g & _ & H)%bind_Ok. apply generate_unused_Ok in H as (? & ? & _). done.
Qed.
