(* ===== verification/Nodes.v ===== *)
(** * Creating and placing nodes (internal/control/service.go)

    A node is created pending with a one-time enrollment bearer, an address of its
    network (chosen or given), groups, routed subnets and a placement. *)
From S2P Require Import Prelude GoStd Sha256 IPv4 NetIP Model AuditLog Routes RouteState Reservations Firewall.
From S2P Require Import Credentials.
From Stdlib Require Import Ascii.

(** ** Addresses *)
Definition addIPv4 (a n : Z) : list Z := IPv4_bytes ((a + n) mod 2 ^ 32).

(** The bytes of the address are compared by index, whatever its form. *)
Definition isBroadcast (ip : list Z) (network : prefix) : bool :=
  forallb (λ i, nth i ip 0 =? Z.lor (nth i (As4 (p_addr network)) 0) (255 - nth i (As4 (cidr_mask (p_bits network))) 0))
    (seq 0 4).

(** [IPNet.Contains] takes either form. *)
Definition ipnet_contains (network : prefix) (ip : list Z) : bool :=
  match To4 ip with Some v4 => net_contains network (addr_of_bytes v4) | None => false end.
(** [IP.String] of an IPv4 address in either form. *)
Definition ip_string (ip : list Z) : string :=
  match To4 ip with Some v4 => addr_string (addr_of_bytes v4) | None => "" end.

Definition used_addresses (network : Network.t) (nodes : list Node.t) : list string :=
  Node.IP <$> filter (λ n, Node.NetworkID n = Network.ID network) nodes.

Fixpoint address_loop (fuel : nat) (offset base : Z) (network : prefix) (used : list string) : result string :=
  match fuel with
  | O => Err ErrConflict
  | S fuel =>
      let candidate := addIPv4 base offset in
      if negb (ipnet_contains network candidate) then Err ErrConflict
      else if negb (contains used (ip_string candidate)) && negb (isBroadcast candidate network) then Ok (ip_string candidate)
      else address_loop fuel (offset + 1) base network used
  end.
(** The offsets 10 to 65535.  A network whose CIDR does not parse is dereferenced
    as nil. *)
Definition nextAddress (network : Network.t) (nodes : list Node.t) : result string :=
  '(base, ipnet) ← of_option (ParseCIDR (Network.CIDR network)) (ErrOther "nil pointer dereference");
  address_loop (Z.to_nat 65526) 10 base ipnet (used_addresses network nodes).

Definition validateNodeIP (network : Network.t) (nodes : list Node.t) (value : string) : result unit :=
  ip ← of_option (ParseIP value ≫= To4) ErrInvalid;
  '(_, ipnet) ← of_option (ParseCIDR (Network.CIDR network)) (ErrOther "nil pointer dereference");
  fail ErrInvalid when negb (ipnet_contains ipnet ip) || (addr_of_bytes ip =? p_addr ipnet) || isBroadcast ip ipnet;;
  fail ErrConflict when contains (used_addresses network nodes) value;;
  Ok tt.

(** ** Endpoints *)
Definition maxPublicEndpointHostBytes : Z := 253.
Definition maxPublicEndpointBytes : Z := maxPublicEndpointHostBytes + 8.

Definition dns_char (c : Z) : bool := alnum c || (c =? 45).
Definition dns_label (label : string) : bool :=
  match bytes_of label with
  | [] => false
  | c :: r => (len label <=? 63) && negb (c =? 45) && negb (List.last (c :: r) 0 =? 45) && forallb dns_char (c :: r)
  end.
Definition TrimSuffixDot (host : string) : string :=
  match reverse (bytes_of host) with
  | 46 :: r => string_of (reverse r)
  | _ => host
  end.
Definition validateEndpointHost (host : string) : result unit :=
  fail ErrInvalid when negb (validBoundedPlainText host maxPublicEndpointHostBytes false);;
  match ParseIP host with
  | Some _ => Ok tt
  | None =>
      let trimmed := TrimSuffixDot host in
      fail ErrInvalid when trimmed == "";;
      fail ErrInvalid when negb (forallb dns_label (split_on "." trimmed));;
      Ok tt
  end.
Definition validateEndpoint (value : string) : result unit :=
  fail ErrInvalid when (maxPublicEndpointBytes <? len value) || negb (ValidString value);;
  '(host, port) ← of_option (SplitHostPort value) ErrInvalid;
  fail ErrInvalid when host == "";;
  _ ← validateEndpointHost host;
  fail ErrInvalid when negb (forallb digit (bytes_of port));;
  match Atoi port with
  | Some n => fail ErrInvalid when (n <? 1) || (65535 <? n);; Ok tt
  | None => Err ErrInvalid
  end.

(** ** Groups and labels *)
Definition appendUnique (values : list string) (value : string) : list string :=
  if contains values value then values else values ++ [value].
Fixpoint groups_result (acc : list string) (groups : list string) : result (list string) :=
  match groups with
  | [] => Ok acc
  | group :: rest =>
      let group := TrimSpace group in
      if group == "" then groups_result acc rest
      else fail ErrInvalid when negb (groupPattern group);; groups_result (appendUnique acc group) rest
  end.
Definition normalizeGroups (groups : list string) : result (list string) :=
  fail ErrInvalid when maxNodeGroups <? Z.of_nat (length groups);;
  result ← groups_result [] groups;
  Ok (sort_by str_le result).
Definition normalizeTopologyLabel (value : string) : result string :=
  let value := ToLower (TrimSpace value) in
  if value == "" then Ok UnassignedTopologyLabel
  else fail ErrInvalid when negb (topologyLabelPattern value);; Ok value.

(** ** Creating a node *)
Module CreateNodeInput.
Record t := make {
  Name : string; IP : string; RoutedSubnets : list string; Site : string; FailureDomain : string;
  Groups : list string; Role : string; PublicEndpoint : string }.
End CreateNodeInput.

(** The groups of a new node: those asked for and [all]. *)
Definition node_groups (groups : list string) : result (list string) :=
  normalized ← normalizeGroups groups;
  let groups := sort_by str_le (appendUnique normalized "all") in
  fail ErrInvalid when maxNodeGroups <? Z.of_nat (length groups);;
  Ok groups.
Definition name_taken (state : State.t) (networkID name : string) : bool :=
  existsb (λ n, (Node.NetworkID n == networkID) && EqualFold (Node.Name n) name && (Node.Status n != "revoked"))
    (State.Nodes state).
Definition node_address (state : State.t) (network : Network.t) (requested : string) : result string :=
  let address := TrimSpace requested in
  if address == "" then nextAddress network (State.Nodes state)
  else _ ← validateNodeIP network (State.Nodes state) address; Ok address.
Definition pending_node (id networkID name ip : string) (subnets : slice string) (site failureDomain : string)
    (groups : list string) (role endpoint : string) (now : time) : Node.t :=
  Node.zero <| Node.ID := id |> <| Node.NetworkID := networkID |> <| Node.Name := name |> <| Node.IP := ip |>
    <| Node.RoutedSubnets := subnets |> <| Node.Site := site |> <| Node.FailureDomain := failureDomain |>
    <| Node.Groups := groups |> <| Node.Role := role |> <| Node.PublicEndpoint := endpoint |>
    <| Node.Status := "pending" |> <| Node.CreatedAt := now |>.
Definition enrollment_token (id nodeID token : string) (now expires : time) : EnrollmentToken.t :=
  EnrollmentToken.make id nodeID (HashToken token) now expires None "" None "".
Definition add_pending (state : State.t) (node : Node.t) (enrollment : EnrollmentToken.t) (event : AuditEvent.t) : State.t :=
  append_audit (state <| State.Nodes := State.Nodes state ++ [node] |>
                      <| State.Enrollments := State.Enrollments state ++ [enrollment] |>) event.

(** [now] and [later] are the two readings of the clock; the new node and the raw
    bearer are returned with the state. *)
Definition createNode (generateBearer : option (nat → result string)) (newNodeID newEnrollmentID : result string)
    (eventID : string) (now later : time) (actor : option Actor.t) (networkID : string) (input : CreateNodeInput.t)
    (state : State.t) : result (State.t * (Node.t * string)) :=
  let name := TrimSpace (CreateNodeInput.Name input) in
  let role := if CreateNodeInput.Role input == "" then "member" else CreateNodeInput.Role input in
  let endpoint := TrimSpace (CreateNodeInput.PublicEndpoint input) in
  fail ErrInvalid when negb (namePattern name);;
  fail ErrInvalid when (role != "member") && (role != "lighthouse");;
  fail ErrInvalid when (role == "lighthouse") && (endpoint == "");;
  _ ← (if endpoint == "" then Ok tt else validateEndpoint endpoint);
  site ← normalizeTopologyLabel (CreateNodeInput.Site input);
  failureDomain ← normalizeTopologyLabel (CreateNodeInput.FailureDomain input);
  groups ← node_groups (CreateNodeInput.Groups input);
  routedSubnets ← normalizeRoutedSubnets (CreateNodeInput.RoutedSubnets input);
  nodeID ← newNodeID;
  enrollmentID ← newEnrollmentID;
  let expires := later + 30 * minute in
  let placed := ControlStateVersionTopology <=? State.Version state in
  fail ErrConflict when negb placed && ((CreateNodeInput.Site input != "") || (CreateNodeInput.FailureDomain input != ""));;
  network ← of_option (findNetwork state networkID) ErrNotFound;
  _ ← validateNewRoutedSubnets state routedSubnets;
  fail ErrConflict when name_taken state networkID name;;
  address ← node_address state network (CreateNodeInput.IP input);
  token ← uniqueBearer generateBearer state;
  event ← newOptionalAttributedAudit eventID now "node.created" "node" nodeID
    ([("name", DString name); ("ip", DString address); ("role", DString role)] ++
     (if (length (elems routedSubnets) =? 0)%nat then []
      else [("routed_subnets", DArray (DString <$> elems routedSubnets))])) actor;
  let created := pending_node nodeID networkID name address routedSubnets (if placed then site else "")
                   (if placed then failureDomain else "") groups role endpoint now in
  Ok (add_pending state created (enrollment_token enrollmentID nodeID token now expires) event, (created, token)).

(** ** Placement *)
Module UpdateNodeTopologyInput.
Record t := make { Site : string; FailureDomain : string }.
End UpdateNodeTopologyInput.

Definition placed_node (site failureDomain : string) (node : Node.t) : Node.t :=
  node <| Node.Site := site |> <| Node.FailureDomain := failureDomain |>.
(** The retained recovery results point to their own copy of the node. *)
Definition place_result (nodeID site failureDomain : string) (recovery : AgentRecoveryToken.t) : AgentRecoveryToken.t :=
  match AgentRecoveryToken.Result recovery with
  | Some bundle =>
      let b := AgentRecoveryBundle.Bundle bundle in
      if Node.ID (EnrollmentBundle.Node b) == nodeID then
        recovery <| AgentRecoveryToken.Result := Some (bundle <| AgentRecoveryBundle.Bundle :=
          b <| EnrollmentBundle.Node := placed_node site failureDomain (EnrollmentBundle.Node b) |> |>) |>
      else recovery
  | None => recovery
  end.
Definition updateNodeTopology (eventID : string) (now : time) (actor : option Actor.t) (nodeID : string)
    (input : UpdateNodeTopologyInput.t) (state : State.t) : result (State.t * Node.t) :=
  fail ErrInvalid when negb (validPersistedID nodeID);;
  site ← normalizeTopologyLabel (UpdateNodeTopologyInput.Site input);
  failureDomain ← normalizeTopologyLabel (UpdateNodeTopologyInput.FailureDomain input);
  fail ErrConflict when State.Version state <? ControlStateVersionTopology;;
  '(index, node) ← of_option (node_at state nodeID) ErrNotFound;
  fail ErrConflict when Node.Status node == "revoked";;
  if (Node.Site node == site) && (Node.FailureDomain node == failureDomain) then Ok (state, node) else
  fail (ErrOther "topology update requires a valid timestamp") when IsZero now;;
  event ← newOptionalAttributedAudit eventID now "node.topology_updated" "node" nodeID
    [("old_site", DString (Node.Site node)); ("site", DString site);
     ("old_failure_domain", DString (Node.FailureDomain node)); ("failure_domain", DString failureDomain)] actor;
  let updated := placed_node site failureDomain node in
  Ok (append_audit (put_node state index updated
        <| State.AgentRecoveries := place_result nodeID site failureDomain <$> State.AgentRecoveries state |>) event, updated).

(** ** Reissuing an enrollment bearer *)
Definition reissueEnrollment (generateBearer : option (nat → result string)) (random : nat → result string)
    (eventID : string) (now : time) (actor : option Actor.t) (nodeID : string) (state : State.t) :
    result (State.t * (Node.t * string)) :=
  let nodeID := TrimSpace nodeID in
  let expiresAt := now + 30 * minute in
  node ← of_option (findNode state nodeID) ErrNotFound;
  fail ErrConflict when (Node.Status node != "pending") || match Node.EnrolledAt node with Some _ => true | None => false end;;
  token ← uniqueUnseenEnrollmentBearer generateBearer state;
  enrollmentID ← uniqueEnrollmentID random state;
  let kept := filter (λ e, EnrollmentToken.NodeID e ≠ nodeID) (State.Enrollments state) in
  let invalidated := (length (State.Enrollments state) - length kept)%nat in
  event ← newOptionalAttributedAudit eventID now "node.enrollment_reissued" "node" nodeID
    [("expires_at", DTime expiresAt); ("invalidated_tokens", DInt (Z.of_nat invalidated))] actor;
  Ok (append_audit (state <| State.Enrollments := kept ++ [enrollment_token enrollmentID nodeID token now expiresAt] |>) event,
      (node, token)).

(** ** Assigned addresses *)
Lemma To4_IPv4_bytes a : To4 (IPv4_bytes a) = Some (As4 a).
Proof. done. Qed.

Lemma addr_of_bytes_As4 a : valid_addr a → addr_of_bytes (As4 a) = a.
Proof.
  intros Ha. destruct (addr_octets a Ha) as (w & x & y & z & Hw & Hx & Hy & Hz & ->).
  rewrite As4_octets by done. unfold addr_of_bytes. simpl. lia.
Qed.

(** The address of an offset, modulo the width of an address. *)
Definition offset_address (base k : Z) : Z := (base + k) mod 2 ^ 32.

Lemma offset_valid base k : valid_addr (offset_address base k).
Proof. apply Z.mod_pos_bound. lia. Qed.

Lemma candidate_string base k : ip_string (addIPv4 base k) = addr_string (offset_address base k).
Proof.
  unfold ip_string, addIPv4. rewrite To4_IPv4_bytes. change ((base + k) mod 2 ^ 32) with (offset_address base k).
  by rewrite addr_of_bytes_As4 by apply offset_valid.
Qed.

Lemma candidate_contained network base k :
  ipnet_contains network (addIPv4 base k) = net_contains network (offset_address base k).
Proof.
  unfold ipnet_contains, addIPv4. rewrite To4_IPv4_bytes. change ((base + k) mod 2 ^ 32) with (offset_address base k).
  by rewrite addr_of_bytes_As4 by apply offset_valid.
Qed.

Lemma last_mask_byte_table :
  forallb (λ b, 0 <? 255 - nth 3 (As4 (cidr_mask b)) 0) (seqZ 0 32) = true.
Proof. vm_compute. done. Qed.

(** The bytes compared are the first four of the 16-byte form, which are zero. *)
Lemma candidate_not_broadcast network base k :
  0 ≤ p_bits network < 32 → isBroadcast (addIPv4 base k) network = false.
Proof.
  intros Hb. apply not_true_is_false. unfold isBroadcast. rewrite forallb_forall. intros H.
  specialize (H 3%nat ltac:(simpl; auto)). apply Z.eqb_eq in H. simpl in H. symmetry in H.
  apply Z.lor_eq_0_iff in H as [_ H]. pose proof last_mask_byte_table as T. rewrite forallb_forall in T.
  specialize (T (p_bits network) ltac:(apply list_elem_of_In, elem_of_seqZ; lia)). simpl in T, H. lia.
Qed.

Definition taken (network : Network.t) (nodes : list Node.t) (a : Z) : Prop :=
  addr_string a ∈ used_addresses network nodes.

Lemma address_loop_first_fit fuel offset base network used :
  0 ≤ p_bits network < 32 →
  match address_loop fuel offset base network used with
  | Ok v => ∃ k, offset ≤ k < offset + Z.of_nat fuel ∧ v = addr_string (offset_address base k) ∧ (v ∉ used)
      ∧ (∀ j, offset ≤ j ≤ k → net_contains network (offset_address base j) = true)
      ∧ (∀ j, offset ≤ j < k → addr_string (offset_address base j) ∈ used)
  | Err e => e = ErrConflict ∧ ∃ k, offset ≤ k ≤ offset + Z.of_nat fuel
      ∧ (k = offset + Z.of_nat fuel ∨ net_contains network (offset_address base k) = false)
      ∧ (∀ j, offset ≤ j < k → addr_string (offset_address base j) ∈ used)
  end.
Proof.
  intros Hb. revert offset. induction fuel as [|fuel IH]; intros offset.
  { simpl. split; [done|]. exists offset. split_and!; [lia|lia|left; lia|lia]. }
  cbn [address_loop]. rewrite candidate_contained, candidate_string, candidate_not_broadcast by done.
  destruct (net_contains network (offset_address base offset)) eqn:Hc; simpl negb; cbv iota.
  2:{ split; [done|]. exists offset. split_and!; [lia|lia|by right|lia]. }
  unfold contains. destruct (bool_decide (addr_string (offset_address base offset) ∈ used)) eqn:Hu; simpl.
  - apply bool_decide_eq_true in Hu. specialize (IH (offset + 1)).
    assert (∀ (P : Z → Prop) k, P offset → (∀ j, (offset + 1 ≤ j < k)%Z → P j) → ∀ j, (offset ≤ j < k)%Z → P j) as Hext.
    { intros P k H0 Hs j Hj. destruct (decide (j = offset)) as [->|]; [done|]. apply Hs. lia. }
    destruct (address_loop fuel (offset + 1) base network used) as [v|e].
    + destruct IH as (k & ? & ? & ? & Hin & Hused). exists k. split_and!; try lia; try done.
      * intros j Hj. apply (Hext (λ j, net_contains network (offset_address base j) = true) (k + 1)); [done| |lia]. intros j' Hj'. apply Hin. lia.
      * by apply (Hext (λ j, addr_string (offset_address base j) ∈ used)).
    + destruct IH as (? & k & ? & Hk & Hused). split; [done|]. exists k. split_and!; try lia.
      * destruct Hk; [left; lia|by right].
      * by apply (Hext (λ j, addr_string (offset_address base j) ∈ used)).
  - apply bool_decide_eq_false in Hu. exists offset. split_and!; try lia; try done.
    intros j Hj. by replace j with offset by lia.
Qed.

(** Automatic assignment is first fit.  On a network of fewer than 32 prefix
    bits, the address returned is the one at the least offset from 10 that no node
    of the network has, and it lies in the network; the assignment is refused only
    when every address from offset 10 to the end of the network (or to offset
    65535) is taken. *)
Theorem next_address_first_fit network nodes base ipnet :
  ParseCIDR (Network.CIDR network) = Some (base, ipnet) → 0 ≤ p_bits ipnet < 32 →
  match nextAddress network nodes with
  | Ok v => ∃ k, 10 ≤ k < 65536 ∧ v = addr_string (offset_address base k) ∧ (v ∉ used_addresses network nodes)
      ∧ (∀ j, 10 ≤ j ≤ k → net_contains ipnet (offset_address base j) = true)
      ∧ (∀ j, 10 ≤ j < k → taken network nodes (offset_address base j))
  | Err e => e = ErrConflict ∧ ∃ k, 10 ≤ k ≤ 65536
      ∧ (k = 65536 ∨ net_contains ipnet (offset_address base k) = false)
      ∧ (∀ j, 10 ≤ j < k → taken network nodes (offset_address base j))
  end.
Proof.
  intros Hp Hb. unfold nextAddress, taken. rewrite Hp. cbn [of_option mbind result_bind].
  pose proof (address_loop_first_fit (Z.to_nat 65526) 10 base ipnet (used_addresses network nodes) Hb) as H.
  rewrite Z2Nat.id in H by lia. exact H.
Qed.

(** *** Examples *)
Definition address_network : Network.t := Network.zero <| Network.ID := "n" |> <| Network.CIDR := "10.42.0.0/28" |>.
Definition address_node (ip : string) : Node.t := Node.zero <| Node.NetworkID := "n" |> <| Node.IP := ip |>.
Definition address_nodes (hosts : list Z) : list Node.t := (λ h, address_node ("10.42.0." +:+ Itoa h)) <$> hosts.

Lemma next_address_first_fit_witness :
  match nextAddress address_network (address_nodes [10]) with
  | Ok v => ∃ k, 10 ≤ k < 65536 ∧ v = addr_string (offset_address 170524672 k)
      ∧ (v ∉ used_addresses address_network (address_nodes [10]))
      ∧ (∀ j, 10 ≤ j ≤ k → net_contains (Prefix 170524672 28) (offset_address 170524672 j) = true)
      ∧ (∀ j, 10 ≤ j < k → taken address_network (address_nodes [10]) (offset_address 170524672 j))
  | Err e => e = ErrConflict ∧ ∃ k, 10 ≤ k ≤ 65536
      ∧ (k = 65536 ∨ net_contains (Prefix 170524672 28) (offset_address 170524672 k) = false)
      ∧ (∀ j, 10 ≤ j < k → taken address_network (address_nodes [10]) (offset_address 170524672 j))
  end.
Proof.
  refine (next_address_first_fit address_network (address_nodes [10]) 170524672 (Prefix 170524672 28) _ _).
  - vm_compute. reflexivity.
  - simpl. lia.
Defined.

(** The broadcast address can be assigned.  On the network 10.42.0.0/28 with
    the hosts 10 to 14 taken, automatic assignment returns 10.42.0.15, although the
    check of a requested address refuses it: the bytes compared by [isBroadcast]
    are those of the 16-byte form. *)
Theorem broadcast_address_assigned :
  nextAddress address_network (address_nodes [10; 11; 12; 13; 14]) = Ok "10.42.0.15"
  ∧ validateNodeIP address_network (address_nodes [10; 11; 12; 13; 14]) "10.42.0.15" = Err ErrInvalid.
Proof. split; vm_compute; reflexivity. Qed.

(** A taken address is offered again under another spelling.  A requested
    address in IPv4-mapped IPv6 text passes the check and is kept as written;
    neither the check of the dotted text nor automatic assignment then sees that the
    address is taken.  (The commit of such a second node is left to the store's
    check of the whole state, so automatic assignment keeps failing there.) *)
Theorem mapped_address_offered_again :
  let first := [address_node "::ffff:10.42.0.10"] in
  validateNodeIP address_network [] "::ffff:10.42.0.10" = Ok tt
  ∧ validateNodeIP address_network first "10.42.0.10" = Ok tt
  ∧ nextAddress address_network first = Ok "10.42.0.10"
  ∧ ParseIP "::ffff:10.42.0.10" = ParseIP "10.42.0.10".
Proof. cbv zeta. split_and!; vm_compute; reflexivity. Qed.
