(* ===== verification/CARotation.v ===== *)
(** * Replacing a network's certificate authority (internal/control/ca_rotation.go)

    Prepared: every node is to trust both authorities.  Rotating: certificates are
    signed by the next authority.  Finalizing (or aborting): only the next (or the
    old) authority is trusted.  Each change of phase takes the convergence of the
    active nodes as its guard, except for preparing and aborting.

    The issuer, the check of a generated key pair and the sealing of a private key
    are outside the repository's own logic; their outcomes are arguments. *)
From S2P Require Import Prelude GoStd IPv4 Model AuditLog Routes RouteState Reservations.
From S2P Require Import Firewall NetworkSettings Credentials.
From Stdlib Require Import Ascii.

Definition stableCARotationPhase (phase : string) : string := if phase == "" then "stable" else phase.

Definition concatenateCAs (first second : string) : string :=
  if second == "" then first
  else if has_suffix first nl then first +:+ second
  else first +:+ nl +:+ second.

Definition dual_trust (network : Network.t) : bool :=
  let phase := NetworkCARotation.Phase (Network.CARotation network) in
  (phase == CARotationPhasePrepared) || (phase == CARotationPhaseRotating).

Definition networkTrustBundle (network : Network.t) : string :=
  if dual_trust network
  then concatenateCAs (Network.CACertificate network) (NetworkCARotation.NextCACertificate (Network.CARotation network))
  else Network.CACertificate network.

Definition networkSigningAuthority (network : Network.t) : string * string :=
  let r := Network.CARotation network in
  if NetworkCARotation.Phase r == CARotationPhaseRotating
  then (NetworkCARotation.NextCACertificate r, NetworkCARotation.EncryptedNextCAKey r)
  else (Network.CACertificate network, Network.EncryptedCAKey network).

Definition networkCARotationRequired (network : Network.t) (node : Node.t) : bool :=
  let r := Network.CARotation network in
  (NetworkCARotation.Phase r == CARotationPhaseRotating) &&
  (Node.CertificateAuthoritySHA256 node != NetworkCARotation.TargetCACertificateSHA256 r).

(** model_validation.go *)
Definition validateCanonicalRawURLBase64 (value : string) (maxEncoded minDecoded maxDecoded : Z) : result unit :=
  fail (ErrOther "value is empty, oversized, or not valid UTF-8")
    when (value == "") || (maxEncoded <? len value) || negb (ValidString value);;
  let e := ErrOther "value is not canonical raw URL base64 or has an invalid decoded size" in
  decoded ← of_option (b64_decode value) e;
  fail e when (Z.of_nat (length decoded) <? minDecoded) || (maxDecoded <? Z.of_nat (length decoded))
    || (b64_encode decoded != value);;
  Ok tt.
Definition maxNebulaCAPrivateKeySize : Z := 4096.
Definition maxNebulaCACertificateSize : Z := 131072.
Definition secretBoxNonceBytes : Z := 12.
Definition secretBoxTagBytes : Z := 16.
Definition maxEncryptedCAKeyBytes : Z :=
  ((maxNebulaCAPrivateKeySize + secretBoxNonceBytes + secretBoxTagBytes) * 8 + 5) / 6.
Definition validateGeneratedCA (certificate privateKey : string) : result unit :=
  fail (ErrOther "generated Nebula CA certificate is empty, oversized, or not valid UTF-8")
    when negb (validBoundedUTF8 certificate maxNebulaCACertificateSize false);;
  fail (ErrOther "generated Nebula CA private key is empty, oversized, or not valid UTF-8")
    when negb (validBoundedUTF8 privateKey maxNebulaCAPrivateKeySize false);;
  Ok tt.

Definition sealed_key_ok (sealed : string) : result unit :=
  validateCanonicalRawURLBase64 sealed maxEncryptedCAKeyBytes (secretBoxNonceBytes + secretBoxTagBytes + 1)
    (maxNebulaCAPrivateKeySize + secretBoxNonceBytes + secretBoxTagBytes).

(** crypto.go: [aead_seal] is Seal of crypto/cipher's GCM, given the additional data,
    the nonce and the plaintext; [nonce] is what the random source returned. *)
Definition SealFor (aead_seal : string → list Z → list Z → list Z) (nonce : result (list Z)) (purpose : string) (plain : list Z) :
    result string :=
  nonce ← nonce; Ok (b64_encode (nonce ++ aead_seal ("mesh-" +:+ purpose) nonce plain)).
Definition Seal (aead_seal : string → list Z → list Z → list Z) (nonce : result (list Z)) (plain : string) : result string :=
  SealFor aead_seal nonce "ca-key-v1" (bytes_of plain).
(** GCM appends a tag of 16 bytes; a nonce has 12. *)
Definition gcm_seals (aead_seal : string → list Z → list Z → list Z) : Prop := ∀ purpose nonce plain, Forall is_byte plain →
  Z.of_nat (length (aead_seal purpose nonce plain)) = Z.of_nat (length plain) + secretBoxTagBytes ∧ Forall is_byte (aead_seal purpose nonce plain).
Definition gcm_nonce (nonce : result (list Z)) : Prop := ∀ l, nonce = Ok l → Z.of_nat (length l) = secretBoxNonceBytes ∧ Forall is_byte l.

(** ** Persisted-state check *)
Definition validateNetworkCARotation (network : Network.t) : result unit :=
  let r := Network.CARotation network in
  let phase := NetworkCARotation.Phase r in
  if phase == "" then
    fail (ErrOther "stable CA rotation must have no transition metadata") when r != NetworkCARotation.zero;; Ok tt
  else
  fail (ErrOther "CA rotation phase is invalid")
    when (phase != CARotationPhasePrepared) && (phase != CARotationPhaseRotating)
      && (phase != CARotationPhaseFinalizing) && (phase != CARotationPhaseAborting);;
  fail (ErrOther "CA rotation lifecycle metadata is invalid")
    when negb (fingerprintPattern (NetworkCARotation.PreviousTrustBundleSHA256 r))
      || negb (fingerprintPattern (NetworkCARotation.TargetCACertificateSHA256 r))
      || IsZero (NetworkCARotation.StartedAt r) || IsZero (NetworkCARotation.StageStartedAt r)
      || (NetworkCARotation.StageConfigRevision r <? 1)
      || (Network.ConfigRevision network <? NetworkCARotation.StageConfigRevision r);;
  _ ← (if dual_trust network then
         fail (ErrOther "next CA certificate is empty, oversized, or invalid UTF-8")
           when negb (validBoundedUTF8 (NetworkCARotation.NextCACertificate r) maxNebulaCACertificateSize false);;
         _ ← sealed_key_ok (NetworkCARotation.EncryptedNextCAKey r);
         fail (ErrOther "next CA identity is inconsistent")
           when (ConfigDigest (NetworkCARotation.NextCACertificate r) != NetworkCARotation.TargetCACertificateSHA256 r)
             || (NetworkCARotation.NextCACertificate r == Network.CACertificate network);;
         Ok tt
       else
         fail (ErrOther "closing CA rotation retains next CA key material")
           when (NetworkCARotation.NextCACertificate r != "") || (NetworkCARotation.EncryptedNextCAKey r != "");;
         Ok tt);
  fail (ErrOther "CA rotation previous and current trust bundles are identical")
    when NetworkCARotation.PreviousTrustBundleSHA256 r == ConfigDigest (networkTrustBundle network);;
  Ok tt.

(** ** Convergence and retained recovery results *)
Definition caRotationNodeConverged (network : Network.t) (node : Node.t) : bool :=
  let r := Network.CARotation network in
  let phase := NetworkCARotation.Phase r in
  let applied := NetworkCARotation.StageConfigRevision r <=? Node.AppliedConfigRevision node in
  if Node.Status node != "active" then true
  else if phase == CARotationPhasePrepared then applied
  else if phase == CARotationPhaseRotating then
    (Node.CertificateAuthoritySHA256 node == NetworkCARotation.TargetCACertificateSHA256 r) &&
    (Node.CertificateGeneration node <=? Node.AppliedCertificateGeneration node) &&
    (Node.ReportedCertificateFingerprint node == Node.CertificateFingerprint node) && applied
  else if (phase == CARotationPhaseFinalizing) || (phase == CARotationPhaseAborting) then applied
  else true.

Definition active_in (networkID : string) (node : Node.t) : bool :=
  (Node.NetworkID node == networkID) && (Node.Status node == "active").
Definition all_converged (state : State.t) (network : Network.t) : bool :=
  forallb (λ node, negb (active_in (Network.ID network) node) || caRotationNodeConverged network node) (State.Nodes state).

(** The network a recovery's retained result belongs to. *)
Definition recovery_result_in (networkID : string) (recovery : AgentRecoveryToken.t) : bool :=
  match AgentRecoveryToken.Result recovery with
  | Some bundle => EnrollmentBundle.NetworkID (AgentRecoveryBundle.Bundle bundle) == networkID
  | None => false
  end.
Definition networkRecoveryReplayCount (state : State.t) (networkID : string) (at_ : time) : nat :=
  length (filter (λ r, recovery_result_in networkID r && Before at_ (AgentRecoveryToken.ExpiresAt r) = true)
            (State.AgentRecoveries state)).
Definition pruneExpiredNetworkRecoveryReplays (state : State.t) (networkID : string) (at_ : time) : result State.t :=
  fail ErrConflict when existsb (λ r, recovery_result_in networkID r && Before at_ (AgentRecoveryToken.ExpiresAt r))
                          (State.AgentRecoveries state);;
  Ok (state <| State.AgentRecoveries :=
        filter (λ r, recovery_result_in networkID r = false) (State.AgentRecoveries state) |>).

(** ** The document *)
Module CARotationNodeStatus.
Record t := make {
  NodeID : string; Name : string; Status : string; CertificateAuthoritySHA256 : string;
  CertificateGeneration : Z; AppliedCertificateGeneration : Z; AppliedConfigRevision : Z; Converged : bool }.
End CARotationNodeStatus.

Module NetworkCARotationDocument.
Record t := make {
  NetworkID : string; Phase : string; CurrentTrustBundleSHA256 : string; PreviousTrustBundleSHA256 : string;
  ActiveCACertificateSHA256 : string; TargetCACertificateSHA256 : string; StageConfigRevision : Z; ConfigRevision : Z;
  ConfigUpdatedAt : time; StartedAt : option time; StageStartedAt : option time; ActiveNodes : nat;
  ConvergedNodes : nat; PendingRecoveryReplays : nat; AvailableActions : list string; Nodes : list CARotationNodeStatus.t }.
End NetworkCARotationDocument.

Definition optionalTime (value : time) : option time := if IsZero value then None else Some value.

Definition node_status (network : Network.t) (node : Node.t) : CARotationNodeStatus.t :=
  CARotationNodeStatus.make (Node.ID node) (Node.Name node) (Node.Status node) (Node.CertificateAuthoritySHA256 node)
    (Node.CertificateGeneration node) (Node.AppliedCertificateGeneration node) (Node.AppliedConfigRevision node)
    (caRotationNodeConverged network node).

Definition available_actions (state : State.t) (network : Network.t) (at_ : time) : list string :=
  let phase := NetworkCARotation.Phase (Network.CARotation network) in
  let pending := networkRecoveryReplayCount state (Network.ID network) at_ in
  if phase == "" then
    if (NetworkFirewallRollout.Phase (Network.FirewallRollout network) == "")
       && routeTransferTerminal (Network.RouteTransfer network) && routeProfileEditTerminal (Network.RouteProfileEdit network)
    then ["prepare"] else []
  else if phase == CARotationPhasePrepared then
    (if all_converged state network then ["activate"] else []) ++ (if (pending =? 0)%nat then ["abort"] else [])
  else if phase == CARotationPhaseRotating then
    if all_converged state network && (pending =? 0)%nat then ["finalize"] else []
  else if (phase == CARotationPhaseFinalizing) || (phase == CARotationPhaseAborting) then
    if all_converged state network then ["complete"] else []
  else [].

Definition networkCARotationDocument (state : State.t) (network : Network.t) (at_ : time) : NetworkCARotationDocument.t :=
  let r := Network.CARotation network in
  let nodes := node_status network <$> filter (λ n, active_in (Network.ID network) n = true) (State.Nodes state) in
  NetworkCARotationDocument.make (Network.ID network) (stableCARotationPhase (NetworkCARotation.Phase r))
    (ConfigDigest (networkTrustBundle network)) (NetworkCARotation.PreviousTrustBundleSHA256 r)
    (ConfigDigest (Network.CACertificate network)) (NetworkCARotation.TargetCACertificateSHA256 r)
    (NetworkCARotation.StageConfigRevision r) (Network.ConfigRevision network) (Network.ConfigUpdatedAt network)
    (optionalTime (NetworkCARotation.StartedAt r)) (optionalTime (NetworkCARotation.StageStartedAt r))
    (length nodes) (length (filter (λ s, CARotationNodeStatus.Converged s = true) nodes))
    (networkRecoveryReplayCount state (Network.ID network) at_) (available_actions state network at_) nodes.

(** ** Updating a rotation *)
Module UpdateNetworkCARotationInput.
Record t := make { Action : string; ExpectedConfigRevision : Z }.
End UpdateNetworkCARotationInput.

Definition ca_schema (state : State.t) : bool :=
  negb ((State.Version state <? ControlStateVersionCARotation) || (ControlStateVersionFirewallScopes <? State.Version state)).

Section update.
(** [issuer.CreateCA], the key-pair check of the generated certificate and
    [box.Seal]. *)
Context (createCA : string → string → result (string * string)).
Context (keyPairValid : Network.t → string → bool).
Context (seal : string → result string).

(** Before the transaction: the certificate and the sealed key of the next
    authority, generated for the network of an earlier read. *)
Definition generate_next_ca (networkID : string) (expected : Z) (read : State.t) : result (string * string) :=
  network ← of_option (findNetwork read networkID) ErrNotFound;
  fail ErrConflict when negb (ca_schema read) || (NetworkCARotation.Phase (Network.CARotation network) != "")
    || (NetworkFirewallRollout.Phase (Network.FirewallRollout network) != "")
    || negb (routeTransferTerminal (Network.RouteTransfer network))
    || negb (routeProfileEditTerminal (Network.RouteProfileEdit network))
    || negb (Network.ConfigRevision network =? expected);;
  '(certificate, privateKey) ← createCA (Network.Name network) (Network.CIDR network);
  fail ErrInvalid when negb (is_ok (validateGeneratedCA certificate privateKey));;
  fail ErrInvalid when negb (keyPairValid (network <| Network.CACertificate := certificate |>) privateKey);;
  sealed ← seal privateKey;
  Ok (certificate, sealed).

(** The switch over the action: the state with pruned recoveries, the network and
    the audit event's action. *)
Definition rotate_ca (action : string) (now : time) (generated : string * string) (nextRevision : Z)
    (state : State.t) (network : Network.t) : result (State.t * Network.t * string) :=
  let r := Network.CARotation network in
  let phase := NetworkCARotation.Phase r in
  let converged := all_converged state network in
  let with_rotation rotation := network <| Network.CARotation := rotation |> in
  if action == "prepare" then
    fail ErrConflict when (phase != "") || (NetworkFirewallRollout.Phase (Network.FirewallRollout network) != "")
      || (fst generated == "") || (snd generated == "");;
    state ← pruneExpiredNetworkRecoveryReplays state (Network.ID network) now;
    Ok (state, with_rotation (NetworkCARotation.make CARotationPhasePrepared (fst generated) (snd generated)
          (ConfigDigest (Network.CACertificate network)) (ConfigDigest (fst generated)) now now nextRevision),
        "network.ca_rotation_prepared")
  else if action == "activate" then
    fail ErrConflict when (phase != CARotationPhasePrepared) || negb converged;;
    Ok (state, with_rotation (r <| NetworkCARotation.Phase := CARotationPhaseRotating |>
          <| NetworkCARotation.StageStartedAt := now |> <| NetworkCARotation.StageConfigRevision := nextRevision |>),
        "network.ca_rotation_activated")
  else if action == "finalize" then
    fail ErrConflict when (phase != CARotationPhaseRotating) || negb converged;;
    state ← pruneExpiredNetworkRecoveryReplays state (Network.ID network) now;
    let dualDigest := ConfigDigest (networkTrustBundle network) in
    Ok (state, network <| Network.CACertificate := NetworkCARotation.NextCACertificate r |>
                       <| Network.EncryptedCAKey := NetworkCARotation.EncryptedNextCAKey r |>
                       <| Network.CARotation := r <| NetworkCARotation.Phase := CARotationPhaseFinalizing |>
                            <| NetworkCARotation.NextCACertificate := "" |> <| NetworkCARotation.EncryptedNextCAKey := "" |>
                            <| NetworkCARotation.PreviousTrustBundleSHA256 := dualDigest |>
                            <| NetworkCARotation.StageStartedAt := now |>
                            <| NetworkCARotation.StageConfigRevision := nextRevision |> |>,
        "network.ca_rotation_finalized")
  else if action == "abort" then
    fail ErrConflict when phase != CARotationPhasePrepared;;
    state ← pruneExpiredNetworkRecoveryReplays state (Network.ID network) now;
    Ok (state, with_rotation (NetworkCARotation.make CARotationPhaseAborting "" "" (ConfigDigest (networkTrustBundle network))
          (NetworkCARotation.TargetCACertificateSHA256 r) (NetworkCARotation.StartedAt r) now nextRevision),
        "network.ca_rotation_aborted")
  else
    fail ErrConflict when ((phase != CARotationPhaseFinalizing) && (phase != CARotationPhaseAborting)) || negb converged;;
    Ok (state, with_rotation NetworkCARotation.zero, "network.ca_rotation_completed").

Definition rotation_details (action : string) (network updated : Network.t) (nextRevision : Z) : list (string * detail) :=
  [("previous_config_revision", DInt (Network.ConfigRevision network)); ("config_revision", DInt nextRevision)] ++
  (if action == "prepare" then
     [("target_ca_sha256", DString (NetworkCARotation.TargetCACertificateSHA256 (Network.CARotation updated)))] else []) ++
  (if action == "complete" then
     [("outcome", DString (if NetworkCARotation.Phase (Network.CARotation network) == CARotationPhaseFinalizing
                           then "finalized" else "aborted"))] else []).

Definition updateNetworkCARotation (eventID : string) (now : time) (actor : option Actor.t) (networkID : string)
    (input : UpdateNetworkCARotationInput.t) (read state : State.t) : result (State.t * NetworkCARotationDocument.t) :=
  let action := UpdateNetworkCARotationInput.Action input in
  let expected := UpdateNetworkCARotationInput.ExpectedConfigRevision input in
  fail ErrInvalid when negb (validPersistedID networkID) || (expected <? 1);;
  fail ErrInvalid when negb (contains ["prepare"; "activate"; "finalize"; "abort"; "complete"] action);;
  generated ← (if action == "prepare" then generate_next_ca networkID expected read else Ok ("", ""));
  fail (ErrOther "CA rotation requires a valid timestamp") when IsZero now;;
  fail ErrConflict when negb (ca_schema state);;
  '(index, network) ← of_option (network_at state networkID) ErrNotFound;
  fail ErrConflict when negb (Network.ConfigRevision network =? expected);;
  nextRevision ← nextConfigRevision (Network.ConfigRevision network) true;
  '(state, updated, name) ← rotate_ca action now generated nextRevision state network;
  event ← newOptionalAttributedAudit eventID now name "network" (Network.ID network)
            (rotation_details action network updated nextRevision) actor;
  let updated := updated <| Network.ConfigRevision := nextRevision |> <| Network.ConfigUpdatedAt := now |> in
  let state := append_audit (put_network state index updated) event in
  Ok (state, networkCARotationDocument state updated now).
End update.

(** ** Digests *)
Lemma len_string_of l : len (string_of l) = Z.of_nat (length l).
Proof. unfold len. f_equal. induction l; simpl; auto. Qed.

Lemma hex_chars b : is_byte b →
  Forall is_byte [Sha256.hex_digit (b / 16); Sha256.hex_digit (b mod 16)] ∧
  forallb hex_digit [Sha256.hex_digit (b / 16); Sha256.hex_digit (b mod 16)] = true.
Proof.
  intros Hb. unfold is_byte in *.
  assert (∀ d, 0 ≤ d < 16 → 0 ≤ Sha256.hex_digit d < 256 ∧ hex_digit (Sha256.hex_digit d) = true) as Hd.
  { intros d Hd. unfold Sha256.hex_digit, hex_digit, digit. destruct (Z.ltb_spec d 10); lia. }
  destruct (Hd (b / 16)), (Hd (b mod 16)); [Z.div_mod_to_equations; lia..|].
  split; [repeat constructor; lia|]. cbn [forallb]. rewrite andb_true_r. by apply andb_true_intro.
Qed.

Lemma hex_ok l : Forall is_byte l →
  len (Sha256.hex l) = 2 * Z.of_nat (length l) ∧ forallb hex_digit (bytes_of (Sha256.hex l)) = true.
Proof.
  intros Hl. unfold Sha256.hex. rewrite len_string_of, bytes_of_string_of.
  - induction Hl as [|b l Hb _ [IH1 IH2]]; [done|]. csimpl. destruct (hex_chars b Hb) as [_ Hd].
    split; [lia|]. cbn [forallb] in Hd. split_bools. by rewrite IH2, H, H0.
  - apply Forall_concat, Forall_fmap. eapply Forall_impl; [done|]. intros b Hb. by apply hex_chars.
Qed.

Lemma fingerprint_digest s : fingerprintPattern (ConfigDigest s) = true.
Proof.
  unfold fingerprintPattern, ConfigDigest. destruct (Sum256_ok (bytes_of s)) as [Hl Hb].
  destruct (hex_ok _ Hb) as [Hn Hd]. rewrite Hd, Hn, Hl. done.
Qed.
#[global] Arguments ConfigDigest : simpl never.
#[global] Arguments HashToken : simpl never.

(** ** Which actions succeed *)
Lemma pending_replays state networkID at_ :
  (networkRecoveryReplayCount state networkID at_ =? 0)%nat =
  negb (existsb (λ r, recovery_result_in networkID r && Before at_ (AgentRecoveryToken.ExpiresAt r))
          (State.AgentRecoveries state)).
Proof.
  unfold networkRecoveryReplayCount. induction (State.AgentRecoveries state) as [|r l IH]; [done|].
  rewrite filter_cons. simpl. destruct (recovery_result_in networkID r && _); simpl; [done|]. exact IH.
Qed.

Lemma prune_ok state networkID at_ :
  is_ok (pruneExpiredNetworkRecoveryReplays state networkID at_) = (networkRecoveryReplayCount state networkID at_ =? 0)%nat.
Proof. rewrite pending_replays. unfold pruneExpiredNetworkRecoveryReplays. by destruct (existsb _ _). Qed.

Lemma is_ok_bind {A B} (m : result A) (f : A → result B) :
  (∀ a, is_ok (f a) = true) → is_ok (m ≫= f) = is_ok m.
Proof. intros Hf. destruct m; simpl; [apply Hf|done]. Qed.
Lemma is_ok_guard {A} e c (k : result A) : is_ok (fail e when c;; k) = negb c && is_ok k.
Proof. by destruct c. Qed.

(** Splits on the phase of a rotation and evaluates the tests on it. *)
Ltac phase_cases phase :=
  destruct (decide (phase = "")); [subst phase|
  destruct (decide (phase = "prepared")); [subst phase|
  destruct (decide (phase = "rotating")); [subst phase|
  destruct (decide (phase = "finalizing")); [subst phase|
  destruct (decide (phase = "aborting")); [subst phase|]]]]]; eval_bools.

(** The actions other than prepare succeed exactly when the document offers them. *)
Lemma rotate_ca_available action now generated nextRevision state network :
  action ∈ ["activate"; "finalize"; "abort"; "complete"] →
  is_ok (rotate_ca action now generated nextRevision state network) =
  contains (available_actions state network now) action.
Proof.
  intros Ha. unfold rotate_ca, available_actions. cbv zeta.
  set (phase := NetworkCARotation.Phase (Network.CARotation network)).
  set (conv := all_converged state network). set (pend := networkRecoveryReplayCount state (Network.ID network) now).
  unfold CARotationPhasePrepared, CARotationPhaseRotating, CARotationPhaseFinalizing, CARotationPhaseAborting.
  clearbody phase conv.
  repeat (apply elem_of_cons in Ha as [->|Ha]; [|]); [..|by apply elem_of_nil in Ha];
    eval_bools; rewrite is_ok_guard, ?is_ok_bind, ?prune_ok by done; fold pend;
    phase_cases phase; destruct conv, (pend =? 0)%nat; try reflexivity; simpl; case_match; reflexivity.
Qed.

(** ** The state machine

    What a successful action asks of the network and makes of it, less the new
    revision.  *)
Inductive ca_transition (state : State.t) (now : time) (revision : Z) (network : Network.t) : string → Network.t → Prop :=
  | ca_prepare certificate key :
      NetworkCARotation.Phase (Network.CARotation network) = "" →
      NetworkFirewallRollout.Phase (Network.FirewallRollout network) = "" → certificate ≠ "" → key ≠ "" →
      ca_transition state now revision network "prepare" (network <| Network.CARotation :=
        NetworkCARotation.make CARotationPhasePrepared certificate key (ConfigDigest (Network.CACertificate network))
          (ConfigDigest certificate) now now revision |>)
  | ca_activate :
      NetworkCARotation.Phase (Network.CARotation network) = CARotationPhasePrepared →
      all_converged state network = true →
      ca_transition state now revision network "activate" (network <| Network.CARotation :=
        Network.CARotation network <| NetworkCARotation.Phase := CARotationPhaseRotating |>
          <| NetworkCARotation.StageStartedAt := now |> <| NetworkCARotation.StageConfigRevision := revision |> |>)
  | ca_finalize :
      NetworkCARotation.Phase (Network.CARotation network) = CARotationPhaseRotating →
      all_converged state network = true →
      ca_transition state now revision network "finalize"
        (network <| Network.CACertificate := NetworkCARotation.NextCACertificate (Network.CARotation network) |>
           <| Network.EncryptedCAKey := NetworkCARotation.EncryptedNextCAKey (Network.CARotation network) |>
           <| Network.CARotation := Network.CARotation network <| NetworkCARotation.Phase := CARotationPhaseFinalizing |>
                <| NetworkCARotation.NextCACertificate := "" |> <| NetworkCARotation.EncryptedNextCAKey := "" |>
                <| NetworkCARotation.PreviousTrustBundleSHA256 := ConfigDigest (networkTrustBundle network) |>
                <| NetworkCARotation.StageStartedAt := now |> <| NetworkCARotation.StageConfigRevision := revision |> |>)
  | ca_abort :
      NetworkCARotation.Phase (Network.CARotation network) = CARotationPhasePrepared →
      ca_transition state now revision network "abort" (network <| Network.CARotation :=
        NetworkCARotation.make CARotationPhaseAborting "" "" (ConfigDigest (networkTrustBundle network))
          (NetworkCARotation.TargetCACertificateSHA256 (Network.CARotation network))
          (NetworkCARotation.StartedAt (Network.CARotation network)) now revision |>)
  | ca_complete :
      NetworkCARotation.Phase (Network.CARotation network) = CARotationPhaseFinalizing ∨
      NetworkCARotation.Phase (Network.CARotation network) = CARotationPhaseAborting →
      all_converged state network = true →
      ca_transition state now revision network "complete" (network <| Network.CARotation := NetworkCARotation.zero |>).

Lemma prune_state state networkID now s :
  pruneExpiredNetworkRecoveryReplays state networkID now = Ok s →
  s = state <| State.AgentRecoveries := filter (λ r, recovery_result_in networkID r = false) (State.AgentRecoveries state) |>.
Proof. unfold pruneExpiredNetworkRecoveryReplays. intros [_ H]%guard_iff. by injection H as <-. Qed.

(** A successful action is a transition, and leaves the rest of the state alone
    except for the recovery results it drops. *)
Lemma rotate_ca_transition action now generated revision state network s updated name :
  action ∈ ["prepare"; "activate"; "finalize"; "abort"; "complete"] →
  rotate_ca action now generated revision state network = Ok (s, updated, name) →
  ca_transition state now revision network action updated ∧
  ((action = "activate" ∨ action = "complete") ∧ s = state ∨
   s = state <| State.AgentRecoveries :=
         filter (λ r, recovery_result_in (Network.ID network) r = false) (State.AgentRecoveries state) |>) ∧
  (action = "prepare" → NetworkCARotation.NextCACertificate (Network.CARotation updated) = fst generated ∧
     NetworkCARotation.EncryptedNextCAKey (Network.CARotation updated) = snd generated).
Proof.
  intros Ha H. unfold rotate_ca in H. cbv zeta in H.
  repeat (apply elem_of_cons in Ha as [->|Ha]; [|]); [..|by apply elem_of_nil in Ha];
    repeat first [rewrite bool_decide_eq_true_2 in H by reflexivity | rewrite (bool_decide_eq_false_2 (_ = "prepare")) in H by discriminate
      | rewrite (bool_decide_eq_false_2 (_ = "activate")) in H by discriminate
      | rewrite (bool_decide_eq_false_2 (_ = "finalize")) in H by discriminate
      | rewrite (bool_decide_eq_false_2 (_ = "abort")) in H by discriminate];
    apply guard_iff in H as [Hg H]; split_bools.
  - apply bind_Ok in H as (s' & ->%prune_state & H). injection H as <- <- <-. split_and!; [by constructor|auto|done].
  - injection H as <- <- <-. split_and!; [by constructor|auto|done].
  - apply bind_Ok in H as (s' & ->%prune_state & H). injection H as <- <- <-. split_and!; [by constructor|auto|done].
  - apply bind_Ok in H as (s' & ->%prune_state & H). injection H as <- <- <-. split_and!; [by constructor|auto|done].
  - injection H as <- <- <-. split_and!; [|auto|done]. constructor; [|done].
    apply andb_false_iff in H0 as [?|?]; split_bools; auto.
Qed.

Section document.
Context (createCA : string → string → result (string * string)).
Context (keyPairValid : Network.t → string → bool).
Context (seal : string → result string).
Context (eventID networkID : string) (now : time) (read state : State.t) (index : nat) (network : Network.t).
Context (Hid : validPersistedID networkID = true).
Context (Hnet : network_at state networkID = Some (index, network)).
Context (Hrev : 1 ≤ Network.ConfigRevision network < int64_max).
Context (Hschema : ca_schema state = true).
Context (Hnow : now ≠ 0).

Local Abbreviation update action :=
  (updateNetworkCARotation createCA keyPairValid seal eventID now None networkID
     (UpdateNetworkCARotationInput.make action (Network.ConfigRevision network)) read state).
Local Abbreviation offered := (NetworkCARotationDocument.AvailableActions (networkCARotationDocument state network now)).

(** C34: The rotation document is exact for the actions that continue or end a
    rotation: activate, finalize, abort and complete succeed at the current
    revision exactly when the document offers them. *)
Theorem offered_actions_succeed action :
  action ∈ ["activate"; "finalize"; "abort"; "complete"] → is_ok (update action) = contains offered action.
Proof.
  intros Ha. cbn [networkCARotationDocument NetworkCARotationDocument.AvailableActions].
  rewrite <- (rotate_ca_available action now ("", "") (wrap64 (Network.ConfigRevision network + 1)) state network Ha).
  unfold updateNetworkCARotation. cbn [UpdateNetworkCARotationInput.Action UpdateNetworkCARotationInput.ExpectedConfigRevision].
  cbv zeta. rewrite Hid, Hschema, Hnet. cbn [negb orb of_option].
  replace (Network.ConfigRevision network <? 1) with false by lia.
  replace (contains _ action) with true by (symmetry; apply contains_true; set_solver).
  assert (action ≠ "prepare") as Hp by (intros ->; revert Ha; rewrite !elem_of_cons, elem_of_nil; intuition discriminate).
  rewrite (bool_decide_eq_false_2 _ Hp). unfold IsZero. replace (now =? 0) with false by lia. simpl.
  rewrite Z.eqb_refl. simpl. unfold nextConfigRevision. simpl.
  replace (Network.ConfigRevision network =? int64_max) with false by lia. simpl.
  by destruct (rotate_ca action now ("", "") _ state network) as [[[s u] m]|].
Qed.

(** Preparing is offered too often: in a stable network with nothing else in
    progress and a retained recovery result that has not expired, the document
    offers prepare although the operation is refused, whatever the issuer does. *)
Theorem prepare_offered_but_refused :
  NetworkCARotation.Phase (Network.CARotation network) = "" →
  NetworkFirewallRollout.Phase (Network.FirewallRollout network) = "" →
  routeTransferTerminal (Network.RouteTransfer network) = true →
  routeProfileEditTerminal (Network.RouteProfileEdit network) = true →
  networkRecoveryReplayCount state (Network.ID network) now ≠ 0%nat →
  contains offered "prepare" = true ∧ is_ok (update "prepare") = false.
Proof.
  intros Hp Hf Ht He Hpend. split.
  { simpl. unfold available_actions. by rewrite Hp, Hf, Ht, He. }
  unfold updateNetworkCARotation.
  cbn [UpdateNetworkCARotationInput.Action UpdateNetworkCARotationInput.ExpectedConfigRevision]. cbv zeta.
  rewrite Hid, Hschema, Hnet. cbn [negb orb of_option].
  destruct (is_ok _) eqn:E; [|done]. exfalso. apply is_ok_Ok in E as [r E].
  apply guard_iff in E as [_ E]. apply guard_iff in E as [_ E]. apply bind_Ok in E as (g & _ & E).
  apply guard_iff in E as [_ E]. apply guard_iff in E as [_ E]. simpl in E. apply guard_iff in E as [_ E].
  apply bind_Ok in E as (rev & _ & E). apply bind_Ok in E as ([[s u] m] & Hr & _).
  unfold rotate_ca in Hr. cbv zeta in Hr. rewrite bool_decide_eq_true_2 in Hr by done.
  apply guard_iff in Hr as [_ Hr]. apply bind_Ok in Hr as (s' & Hs & _).
  assert (is_ok (pruneExpiredNetworkRecoveryReplays state (Network.ID network) now) = true) as Hok by (by rewrite Hs).
  rewrite prune_ok in Hok. by apply Nat.eqb_eq in Hok.
Qed.
End document.

(** ** Rotations stay valid *)
(** A sealed key of a size that was checked is well-formed. *)
Lemma bytes_of_bytes s : Forall is_byte (bytes_of s).
Proof. induction s as [|c s IH]; simpl; constructor; [|done]. unfold is_byte, byte_of. pose proof (N_ascii_bounded c). lia. Qed.
Lemma b64_pack_length l : (6 * length (b64_pack l) ≤ 8 * length l + 5)%nat.
Proof. induction l as [|x|x y|x y z l IH] using triples_ind; simpl in *; lia. Qed.
Lemma ascii_valid_utf8 l : Forall (λ c, 0 ≤ c < 128) l → valid_utf8 l = true.
Proof. induction 1 as [|c l Hc _ IH]; [done|]. simpl. by rewrite (proj2 (Z.ltb_lt c 128)) by lia. Qed.
Lemma b64_text l : Forall is_byte l → bytes_of (b64_encode l) = b64_char <$> b64_pack l ∧ Forall (λ c, 0 ≤ c < 128) (b64_char <$> b64_pack l).
Proof.
  intros Hl%b64_pack_digits. assert (Forall (λ c, 0 ≤ c < 128) (b64_char <$> b64_pack l)) as Hc.
  { apply Forall_fmap. eapply Forall_impl; [exact Hl|]. intros d Hd. simpl in Hd |- *. unfold b64_char. repeat case_match; lia. }
  split; [|done]. apply bytes_of_string_of. eapply Forall_impl; [exact Hc|]. unfold is_byte. lia.
Qed.
Lemma Seal_ok aead_seal nonce plain sealed :
  gcm_seals aead_seal → gcm_nonce nonce → validBoundedUTF8 plain maxNebulaCAPrivateKeySize false = true →
  Seal aead_seal nonce plain = Ok sealed → sealed_key_ok sealed = Ok tt.
Proof.
  intros Ha Hn Hp (l & El & [= <-])%bind_Ok. destruct (Hn l El) as [Hl1 Hl2]. destruct (Ha ("mesh-" +:+ "ca-key-v1") l (bytes_of plain) (bytes_of_bytes plain)) as [Hc1 Hc2].
  set (text := l ++ aead_seal ("mesh-" +:+ "ca-key-v1") l (bytes_of plain)) in *.
  assert (Forall is_byte text) as Ht by (by apply Forall_app). destruct (b64_text text Ht) as [Eb Hascii].
  assert (1 ≤ Z.of_nat (length (bytes_of plain)) ≤ maxNebulaCAPrivateKeySize) as Hlen.
  { unfold validBoundedUTF8 in Hp. split_bools. assert (len plain = Z.of_nat (length (bytes_of plain))) as El'
      by (rewrite <- (string_of_bytes_of plain) at 1; apply len_string_of).
    assert (bytes_of plain ≠ []) as Hne by (by destruct plain). destruct (bytes_of plain); [done|]. cbn [length] in *. lia. }
  assert (Z.of_nat (length text) = Z.of_nat (length (bytes_of plain)) + secretBoxTagBytes + secretBoxNonceBytes) as Hlt
    by (unfold text; rewrite length_app; lia).
  pose proof (b64_pack_length text) as Hpack. assert (len (b64_encode text) = Z.of_nat (length (b64_pack text))) as Hle
    by (unfold b64_encode; rewrite len_string_of, length_fmap; done).
  unfold secretBoxTagBytes, secretBoxNonceBytes, maxNebulaCAPrivateKeySize in *.
  unfold sealed_key_ok, validateCanonicalRawURLBase64. rewrite b64_decode_encode by done. unfold ValidString. rewrite Eb, ascii_valid_utf8 by done.
  assert (b64_encode text ≠ "") as Hne. { intros E. rewrite E in Hle. change (len "") with 0 in Hle. destruct text as [|x [|y [|z t]]]; simpl in *; lia. }
  rewrite (bool_decide_eq_false_2 _ Hne), Hle. unfold maxEncryptedCAKeyBytes, maxNebulaCAPrivateKeySize, secretBoxNonceBytes, secretBoxTagBytes.
  change (((4096 + 12 + 16) * 8 + 5) / 6) with 5499. replace (5499 <? _) with false by lia. cbn [orb negb fail_if mbind result_bind of_option].
  replace (_ <? 12 + 16 + 1) with false by lia. replace (4096 + 12 + 16 <? _) with false by lia. by rewrite bool_decide_eq_true_2.
Qed.

Section validity.
Context (createCA : string → string → result (string * string)).
Context (keyPairValid : Network.t → string → bool).

Section sealing.
Context (seal : string → result string).

Lemma update_ca_call eventID now actor networkID input read state state' doc :
  updateNetworkCARotation createCA keyPairValid seal eventID now actor networkID input read state = Ok (state', doc) →
  let action := UpdateNetworkCARotationInput.Action input in
  ∃ index network generated revision s updated name event,
    now ≠ 0 ∧ network_at state networkID = Some (index, network) ∧
    nextConfigRevision (Network.ConfigRevision network) true = Ok revision ∧
    action ∈ ["prepare"; "activate"; "finalize"; "abort"; "complete"] ∧
    rotate_ca action now generated revision state network = Ok (s, updated, name) ∧
    (action = "prepare" →
     generate_next_ca createCA keyPairValid seal networkID (UpdateNetworkCARotationInput.ExpectedConfigRevision input) read
       = Ok generated) ∧
    state' = append_audit (put_network s index
      (updated <| Network.ConfigRevision := revision |> <| Network.ConfigUpdatedAt := now |>)) event.
Proof.
  intros H action. unfold updateNetworkCARotation in H. cbv zeta in H. fold action in H.
  apply guard_iff in H as [_ H]. apply guard_iff in H as [Hact H]. apply bind_Ok in H as (generated & Hgen & H).
  apply guard_iff in H as [Hnow H]. apply guard_iff in H as [_ H].
  apply bind_Ok in H as ([index network] & Hn%of_option_Ok & H). apply guard_iff in H as [_ H].
  apply bind_Ok in H as (revision & Hrev & H). apply bind_Ok in H as ([[s updated] name] & Hr & H).
  apply bind_Ok in H as (event & _ & H). injection H as <- _. split_bools. apply contains_true in Hact.
  unfold IsZero in Hnow. exists index, network, generated, revision, s, updated, name, event.
  split_and!; try done; [lia|]. intros E. by rewrite bool_decide_eq_true_2 in Hgen.
Qed.

Lemma generated_ca networkID expected read generated :
  generate_next_ca createCA keyPairValid seal networkID expected read = Ok generated →
  ∃ name cidr key, createCA name cidr = Ok (fst generated, key) ∧ seal key = Ok (snd generated) ∧
    validBoundedUTF8 (fst generated) maxNebulaCACertificateSize false = true ∧
    validBoundedUTF8 key maxNebulaCAPrivateKeySize false = true.
Proof.
  unfold generate_next_ca. intros H. apply bind_Ok in H as (network & _ & H). apply guard_iff in H as [_ H].
  apply bind_Ok in H as ([certificate key] & Hc & H). apply guard_iff in H as [Hv H]. apply guard_iff in H as [_ H].
  apply bind_Ok in H as (sealed & Hs & H). injection H as <-. simpl.
  exists (Network.Name network), (Network.CIDR network), key. split_bools. apply is_ok_Ok in Hv as [u Hv].
  unfold validateGeneratedCA in Hv. apply guard_iff in Hv as [H1 Hv]. apply guard_iff in Hv as [H2 _]. split_bools. done.
Qed.
End sealing.

Lemma string_length_app a b : String.length (a +:+ b) = (String.length a + String.length b)%nat.
Proof.
  induction a as [|c a IH]; [done|]. change (String c a +:+ b) with (String c (a +:+ b)). simpl. by rewrite IH.
Qed.
Lemma string_app_ne a b : a ≠ "" → a +:+ b ≠ b.
Proof.
  intros Ha E. apply (f_equal String.length) in E. rewrite string_length_app in E. destruct a; simpl in *; [done|lia].
Qed.
Lemma app_string_ne a b : b ≠ "" → a ≠ a +:+ b.
Proof.
  intros Hb E. apply (f_equal String.length) in E. rewrite string_length_app in E. destruct b; simpl in *; [done|lia].
Qed.
Lemma concatenate_ne a b : a ≠ "" → b ≠ "" → concatenateCAs a b ≠ a ∧ concatenateCAs a b ≠ b.
Proof.
  intros Ha Hb. unfold concatenateCAs. rewrite (bool_decide_eq_false_2 _ Hb).
  assert (nl +:+ b ≠ "") by done. destruct (has_suffix a nl); split; try apply not_eq_sym, app_string_ne; try done.
  - by apply string_app_ne.
  - rewrite <- string_app_assoc. apply string_app_ne. by destruct a.
Qed.

(** What the check says while both authorities are trusted. *)
Lemma validate_dual network :
  dual_trust network = true → validateNetworkCARotation network = Ok tt →
  let r := Network.CARotation network in
  fingerprintPattern (NetworkCARotation.PreviousTrustBundleSHA256 r) = true ∧
  NetworkCARotation.TargetCACertificateSHA256 r = ConfigDigest (NetworkCARotation.NextCACertificate r) ∧
  IsZero (NetworkCARotation.StartedAt r) = false ∧
  validBoundedUTF8 (NetworkCARotation.NextCACertificate r) maxNebulaCACertificateSize false = true ∧
  sealed_key_ok (NetworkCARotation.EncryptedNextCAKey r) = Ok tt ∧
  NetworkCARotation.NextCACertificate r ≠ Network.CACertificate network ∧
  NetworkCARotation.PreviousTrustBundleSHA256 r ≠ ConfigDigest (networkTrustBundle network).
Proof.
  intros Hd H r. unfold validateNetworkCARotation in H. cbv zeta in H. fold r in H.
  assert (NetworkCARotation.Phase r ≠ "") as Hne.
  { intros E. unfold dual_trust in Hd. fold r in Hd. by rewrite E in Hd. }
  rewrite (bool_decide_eq_false_2 _ Hne), Hd in H. apply guard_iff in H as [_ H]. apply guard_iff in H as [H1 H].
  apply bind_Ok in H as (u & H2 & H). apply guard_iff in H as [H3 _]. apply guard_iff in H2 as [H4 H2].
  apply bind_Ok in H2 as ([] & H5 & H2). apply guard_iff in H2 as [H6 _]. split_bools. done.
Qed.

Lemma validBoundedUTF8_ne s n : validBoundedUTF8 s n false = true → s ≠ "".
Proof. unfold validBoundedUTF8. intros H ->. done. Qed.

Lemma validate_dual_intro network :
  let r := Network.CARotation network in
  dual_trust network = true → fingerprintPattern (NetworkCARotation.PreviousTrustBundleSHA256 r) = true →
  NetworkCARotation.TargetCACertificateSHA256 r = ConfigDigest (NetworkCARotation.NextCACertificate r) →
  IsZero (NetworkCARotation.StartedAt r) = false → IsZero (NetworkCARotation.StageStartedAt r) = false →
  1 ≤ NetworkCARotation.StageConfigRevision r ≤ Network.ConfigRevision network →
  validBoundedUTF8 (NetworkCARotation.NextCACertificate r) maxNebulaCACertificateSize false = true →
  sealed_key_ok (NetworkCARotation.EncryptedNextCAKey r) = Ok tt →
  NetworkCARotation.NextCACertificate r ≠ Network.CACertificate network →
  NetworkCARotation.PreviousTrustBundleSHA256 r ≠ ConfigDigest (networkTrustBundle network) →
  validateNetworkCARotation network = Ok tt.
Proof.
  intros r Hd H1 H2 H3 H4 H5 H6 H7 H8 H9. unfold validateNetworkCARotation. cbv zeta. fold r.
  rewrite Hd, H1, H2, H3, H4, H6, H7, fingerprint_digest.
  replace (_ <? 1) with false by lia. replace (Network.ConfigRevision network <? _) with false by lia.
  rewrite (bool_decide_eq_true_2 _ eq_refl), (bool_decide_eq_false_2 _ H8), (bool_decide_eq_false_2 _ H9).
  unfold dual_trust in Hd. fold r in Hd. apply orb_true_iff in Hd as [Hd|Hd]; split_bools; by rewrite Hd.
Qed.

Lemma validate_closing_intro network :
  let r := Network.CARotation network in
  NetworkCARotation.Phase r = CARotationPhaseFinalizing ∨ NetworkCARotation.Phase r = CARotationPhaseAborting →
  fingerprintPattern (NetworkCARotation.PreviousTrustBundleSHA256 r) = true →
  fingerprintPattern (NetworkCARotation.TargetCACertificateSHA256 r) = true →
  IsZero (NetworkCARotation.StartedAt r) = false → IsZero (NetworkCARotation.StageStartedAt r) = false →
  1 ≤ NetworkCARotation.StageConfigRevision r ≤ Network.ConfigRevision network →
  NetworkCARotation.NextCACertificate r = "" → NetworkCARotation.EncryptedNextCAKey r = "" →
  NetworkCARotation.PreviousTrustBundleSHA256 r ≠ ConfigDigest (Network.CACertificate network) →
  validateNetworkCARotation network = Ok tt.
Proof.
  intros r Hp H1 H2 H3 H4 H5 H6 H7 H8. unfold validateNetworkCARotation. cbv zeta. fold r.
  assert (dual_trust network = false) as Hd by (unfold dual_trust; fold r; by destruct Hp as [-> | ->]).
  unfold networkTrustBundle. rewrite Hd, H1, H2, H3, H4, H6, H7.
  replace (_ <? 1) with false by lia. replace (Network.ConfigRevision network <? _) with false by lia.
  rewrite (bool_decide_eq_false_2 _ H8). by destruct Hp as [-> | ->].
Qed.

Lemma transition_valid state now revision network action updated :
  ca_transition state now revision network action updated → validateNetworkCARotation network = Ok tt →
  Network.CACertificate network ≠ "" → now ≠ 0 → 1 ≤ revision →
  (action = "prepare" →
   let r := Network.CARotation updated in
   validBoundedUTF8 (NetworkCARotation.NextCACertificate r) maxNebulaCACertificateSize false = true ∧
   sealed_key_ok (NetworkCARotation.EncryptedNextCAKey r) = Ok tt ∧
   NetworkCARotation.NextCACertificate r ≠ Network.CACertificate network) →
  let network' := updated <| Network.ConfigRevision := revision |> <| Network.ConfigUpdatedAt := now |> in
  (ConfigDigest (networkTrustBundle network) = ConfigDigest (networkTrustBundle network') →
   networkTrustBundle network = networkTrustBundle network') →
  validateNetworkCARotation network' = Ok tt.
Proof.
  intros Ht Hv Hca Hnow Hrev Hprep network' Hcoll.
  assert (IsZero now = false) as Hz by (unfold IsZero; lia).
  destruct Ht as [certificate key Hp Hf Hc Hk|Hp Hconv|Hp Hconv|Hp|Hp Hconv].
  - destruct (Hprep eq_refl) as (Hu & Hs & Hne). destruct (concatenate_ne _ _ Hca Hc) as [Hb _].
    assert (networkTrustBundle network = Network.CACertificate network) as E1
      by (unfold networkTrustBundle, dual_trust; by rewrite Hp).
    apply validate_dual_intro; try done; try apply fingerprint_digest.
    change (ConfigDigest (Network.CACertificate network) ≠ ConfigDigest (networkTrustBundle network')).
    intros E. apply Hb. symmetry. rewrite <- E1 at 1. apply Hcoll. by rewrite E1.
  - assert (dual_trust network = true) as Hd by (unfold dual_trust; by rewrite Hp).
    destruct (validate_dual network Hd Hv) as (Hfp & Htgt & Hst & Hu & Hs & Hne & Hpv).
    apply validate_dual_intro; try done.
    assert (networkTrustBundle network' = networkTrustBundle network) as -> by (unfold networkTrustBundle; by rewrite Hd).
    done.
  - assert (dual_trust network = true) as Hd by (unfold dual_trust; by rewrite Hp).
    destruct (validate_dual network Hd Hv) as (Hfp & Htgt & Hst & Hu & Hs & Hne & Hpv).
    destruct (concatenate_ne _ _ Hca (validBoundedUTF8_ne _ _ Hu)) as [_ Hb].
    apply validate_closing_intro; try done; [by left|apply fingerprint_digest| |].
    + change (fingerprintPattern (NetworkCARotation.TargetCACertificateSHA256 (Network.CARotation network)) = true).
      rewrite Htgt. apply fingerprint_digest.
    + change (ConfigDigest (networkTrustBundle network) ≠ ConfigDigest (networkTrustBundle network')).
      intros E%Hcoll. apply Hb. unfold networkTrustBundle in E at 1. rewrite Hd in E. exact E.
  - assert (dual_trust network = true) as Hd by (unfold dual_trust; by rewrite Hp).
    destruct (validate_dual network Hd Hv) as (Hfp & Htgt & Hst & Hu & Hs & Hne & Hpv).
    destruct (concatenate_ne _ _ Hca (validBoundedUTF8_ne _ _ Hu)) as [Hb _].
    apply validate_closing_intro; try done; [by right|apply fingerprint_digest| |].
    + change (fingerprintPattern (NetworkCARotation.TargetCACertificateSHA256 (Network.CARotation network)) = true).
      rewrite Htgt. apply fingerprint_digest.
    + change (ConfigDigest (networkTrustBundle network) ≠ ConfigDigest (networkTrustBundle network')).
      intros E%Hcoll. apply Hb. unfold networkTrustBundle in E at 1. rewrite Hd in E. exact E.
  - done.
Qed.

(** A transition that changes the trust bundle has dropped the recovery results. *)
Lemma transition_keeps_bundle state now revision network updated action :
  ca_transition state now revision network action updated →
  action = "activate" ∨ action = "complete" → networkTrustBundle updated = networkTrustBundle network.
Proof.
  intros Ht Ha. destruct Ht as [c k Hp Hf Hc Hk|Hp Hconv|Hp Hconv|Hp|Hp Hconv]; try (destruct Ha; discriminate);
    unfold networkTrustBundle, dual_trust; simpl.
  - by rewrite Hp.
  - by destruct Hp as [-> | ->].
Qed.

(** C10: the rotation's record stays valid.  An action on a network whose rotation passes
    the persisted-state check, with an authority, a revision in range and a key sealed
    by AES-GCM under a nonce of 12 bytes, leaves a rotation at a revision one higher
    that passes the check again, provided that the authority trusted next is not the
    current one and that the digests of the trust bundles before and after do not
    collide; and an action that changes the trust bundle leaves no retained recovery
    result of the network behind. *)
Theorem rotation_stays_valid aead_seal nonce eventID now actor networkID input read state state' doc index network :
  network_at state networkID = Some (index, network) → validateNetworkCARotation network = Ok tt →
  Network.CACertificate network ≠ "" → 1 ≤ Network.ConfigRevision network ≤ int64_max →
  gcm_seals aead_seal → gcm_nonce nonce →
  updateNetworkCARotation createCA keyPairValid (Seal aead_seal nonce) eventID now actor networkID input read state = Ok (state', doc) →
  ∃ network', network_at state' networkID = Some (index, network') ∧
    Network.ConfigRevision network' = Network.ConfigRevision network + 1 ∧
    (NetworkCARotation.NextCACertificate (Network.CARotation network') ≠ Network.CACertificate network →
     (ConfigDigest (networkTrustBundle network) = ConfigDigest (networkTrustBundle network') →
      networkTrustBundle network = networkTrustBundle network') → validateNetworkCARotation network' = Ok tt) ∧
    (networkTrustBundle network' ≠ networkTrustBundle network →
     ∀ r, r ∈ State.AgentRecoveries state' → recovery_result_in (Network.ID network) r = false).
Proof.
  intros Hn Hv Hca Hr Hgcm Hnonce H. apply update_ca_call in H
    as (i & n & g & rev & s & u & name & ev & Hnow & Hn' & Hrev & Hact & Hrot & Hgen & ->).
  rewrite Hn in Hn'. injection Hn' as <- <-.
  apply nextConfigRevision_Ok in Hrev as [-> _]; [|unfold in_int64, int64_min, int64_max in *; lia].
  destruct (rotate_ca_transition _ _ _ _ _ _ _ _ _ Hact Hrot) as (Ht & Hs & Hg).
  assert (Network.ID u = Network.ID network) as Hid by (by destruct Ht).
  assert (network_at s networkID = Some (index, network)) as Hns by (by destruct Hs as [[_ ->] | ->]).
  exists (u <| Network.ConfigRevision := Network.ConfigRevision network + 1 |> <| Network.ConfigUpdatedAt := now |>).
  split_and!; [|done| |].
  - rewrite network_at_append. by apply (network_at_put _ _ _ network).
  - intros Hnew Hcoll. eapply transition_valid; [done..|lia| |exact Hcoll]. intros E. cbv zeta. cbn in Hnew. destruct (Hg E) as [E1 E2].
    rewrite E1, E2 in *. destruct (generated_ca _ _ _ _ _ (Hgen E)) as (nm & cidr & key & Hc & Hk & Hu & Hp).
    split_and!; [done|by apply (Seal_ok aead_seal nonce key)|done].
  - intros Hb r Hin. destruct Hs as [[Ha _]| ->].
    + destruct Hb. by rewrite <- (transition_keeps_bundle _ _ _ _ _ _ Ht Ha).
    + simpl in Hin. by apply list_elem_of_filter in Hin as [? _].
Qed.
End validity.

(** ** Witnesses: a network that prepares and finalizes *)
Definition ca_node (authority : string) (revision : Z) : Node.t :=
  example_gateway "node-1" <| Node.NetworkID := "network-1" |> <| Node.RoutedSubnets := None |>
    <| Node.CertificateGeneration := 2 |> <| Node.AppliedCertificateGeneration := 2 |>
    <| Node.CertificateAuthoritySHA256 := authority |> <| Node.AppliedConfigRevision := revision |>.
Definition ca_network (rotation : NetworkCARotation.t) : Network.t :=
  example_network <| Network.ID := "network-1" |> <| Network.ConfigRevision := 7 |>
    <| Network.CACertificate := "old authority" |> <| Network.CARotation := rotation |>.
Definition replayable_recovery : AgentRecoveryToken.t :=
  AgentRecoveryToken.zero <| AgentRecoveryToken.ExpiresAt := 100 |> <| AgentRecoveryToken.Result :=
    Some (AgentRecoveryBundle.zero <| AgentRecoveryBundle.Bundle :=
            EnrollmentBundle.zero <| EnrollmentBundle.NetworkID := "network-1" |> |>) |>.
Definition ca_state (rotation : NetworkCARotation.t) (node : Node.t) (recoveries : list AgentRecoveryToken.t) : State.t :=
  State.zero <| State.Version := 13 |> <| State.Networks := [ca_network rotation] |> <| State.Nodes := [node] |>
    <| State.AgentRecoveries := recoveries |>.
(** A sealed key of 29 zero bytes. *)
Definition example_sealed : string := b64_encode (replicate 29 0).
Definition example_create (name cidr : string) : result (string * string) := Ok ("new authority", "key").
Definition example_seal (key : string) : result string := Ok example_sealed.
Definition rotating_record : NetworkCARotation.t :=
  NetworkCARotation.make CARotationPhaseRotating "new authority" example_sealed (ConfigDigest "old authority")
    (ConfigDigest "new authority") 3 4 6.
Definition rotating_state : State.t := ca_state rotating_record (ca_node (ConfigDigest "new authority") 7) [].

Lemma offered_actions_succeed_witness :
  is_ok (updateNetworkCARotation example_create (λ _ _, true) example_seal "event" 50 None "network-1"
           (UpdateNetworkCARotationInput.make "finalize" 7) rotating_state rotating_state) = true.
Proof.
  refine (eq_trans (offered_actions_succeed example_create (λ _ _, true) example_seal "event" "network-1" 50
    rotating_state rotating_state 0 (ca_network rotating_record) _ _ _ _ _ "finalize" _) _).
  - vm_compute. reflexivity.
  - vm_compute. reflexivity.
  - split; vm_compute; congruence.
  - vm_compute. reflexivity.
  - discriminate.
  - right. left.
  - vm_compute. reflexivity.
Defined.

Lemma prepare_offered_but_refused_witness :
  let state := ca_state NetworkCARotation.zero (ca_node "" 7) [replayable_recovery] in
  contains (NetworkCARotationDocument.AvailableActions
              (networkCARotationDocument state (ca_network NetworkCARotation.zero) 50)) "prepare" = true ∧
  is_ok (updateNetworkCARotation example_create (λ _ _, true) example_seal "event" 50 None "network-1"
           (UpdateNetworkCARotationInput.make "prepare" 7) state state) = false.
Proof.
  refine (prepare_offered_but_refused example_create (λ _ _, true) example_seal "event" "network-1" 50
    (ca_state NetworkCARotation.zero (ca_node "" 7) [replayable_recovery])
    (ca_state NetworkCARotation.zero (ca_node "" 7) [replayable_recovery]) 0 (ca_network NetworkCARotation.zero)
    _ _ _ _ _ _ _ _); first [vm_compute; reflexivity | vm_compute; discriminate].
Defined.

(** A preparation: a cipher that adds an empty tag, and a nonce of zeros. *)
Definition example_gcm (purpose : string) (nonce plain : list Z) : list Z := plain ++ replicate 16 0.
Definition example_nonce : result (list Z) := Ok (replicate 12 0).
Definition stable_state : State.t := ca_state NetworkCARotation.zero (ca_node (ConfigDigest "old authority") 7) [].
Definition prepare_result : result (State.t * NetworkCARotationDocument.t) :=
  updateNetworkCARotation example_create (λ _ _, true) (Seal example_gcm example_nonce) "event" 50 None "network-1"
    (UpdateNetworkCARotationInput.make "prepare" 7) stable_state stable_state.
Definition prepared_result : State.t * NetworkCARotationDocument.t :=
  match prepare_result with Ok r => r | Err _ => (State.zero, networkCARotationDocument State.zero Network.zero 0) end.
Lemma example_gcm_seals : gcm_seals example_gcm.
Proof.
  intros purpose nonce plain Hp. unfold example_gcm. rewrite length_app, length_replicate. split; [unfold secretBoxTagBytes; lia|].
  apply Forall_app. split; [done|]. apply Forall_replicate. done.
Qed.
Lemma example_nonce_gcm : gcm_nonce example_nonce.
Proof. intros l [= <-]. split; [done|]. repeat constructor; done. Qed.

Lemma rotation_stays_valid_witness :
  ∃ network', network_at (fst prepared_result) "network-1" = Some (0%nat, network') ∧
    Network.ConfigRevision network' = 8 ∧ validateNetworkCARotation network' = Ok tt.
Proof.
  destruct (rotation_stays_valid example_create (λ _ _, true) example_gcm example_nonce "event" 50 None "network-1"
    (UpdateNetworkCARotationInput.make "prepare" 7) stable_state stable_state (fst prepared_result)
    (snd prepared_result) 0 (ca_network NetworkCARotation.zero)) as (network' & Hn & Hr & Hv & _).
  - vm_compute. reflexivity.
  - vm_compute. reflexivity.
  - discriminate.
  - split; vm_compute; congruence.
  - exact example_gcm_seals.
  - exact example_nonce_gcm.
  - vm_compute. reflexivity.
  - exists network'. split; [exact Hn|]. split; [exact Hr|]. vm_compute in Hn. injection Hn as <-.
    apply Hv; vm_compute; discriminate.
Defined.
