(* ===== verification/Networks.v ===== *)
(** * Creating and retiring networks (internal/control/service.go and
    internal/control/retirement.go)

    A network is created with a name and an address range that no other network
    has.  Retiring one removes it with its nodes, credentials and keys; the event
    that records this reserves the name and the range for ever. *)
From S2P Require Import Prelude GoStd Sha256 IPv4 Model AuditLog Receipts Routes Reservations Firewall NetworkSettings.
From S2P Require Import RouteState RoutePolicies Render Credentials CARotation.
Open Scope Z_scope.

(** ** Names and ranges *)

(** [strings.EqualFold], of which one argument is always a name and so ASCII: the
    letters that fold to ASCII ones are the capitals, the Kelvin sign and the long s. *)
Fixpoint fold_bytes (l : list Z) : list Z :=
  match l with
  | 226 :: 132 :: 170 :: rest => 107 :: fold_bytes rest
  | 197 :: 191 :: rest => 115 :: fold_bytes rest
  | c :: rest => (if (65 <=? c) && (c <=? 90) then c + 32 else c) :: fold_bytes rest
  | [] => []
  end.
Definition EqualFold (s t : string) : bool := fold_bytes (bytes_of s) == fold_bytes (bytes_of t).

(** The source dereferences what ParseCIDR returns. *)
Definition cidrsOverlap (a b : string) : result bool :=
  '(aip, an) ← of_option (ParseCIDR a) (ErrOther "nil pointer dereference");
  '(bip, bn) ← of_option (ParseCIDR b) (ErrOther "nil pointer dereference");
  Ok (net_contains an bip || net_contains bn aip).

Definition validRetiredNetworkCIDR (value : string) : bool :=
  match ParseCIDR value with
  | Some (_, cidr) => (prefix_string cidr == value) && (16 <=? p_bits cidr) && (p_bits cidr <=? 28)
  | None => false
  end.

(** ** Reservations *)
Definition networkRetiredAuditAction : string := "network.retired".
Module retiredNetworkReservation.
Record t := make {
  id : string; name : string; cidr : string; configRevision : Z; nodeCount : Z; pendingNodes : Z; activeNodes : Z;
  revokedNodes : Z }.
End retiredNetworkReservation.

Definition parseRetiredNetworkReservation (event : AuditEvent.t) : result (option retiredNetworkReservation.t) :=
  let d := elems (AuditEvent.Details event) in
  let integer key e := of_option (auditNonNegativeInteger (detail_of d key)) (ErrOther e) in
  if AuditEvent.Action event != networkRetiredAuditAction then Ok None else
  fail (ErrOther "the wrong resource") when AuditEvent.Resource event != "network";;
  name ← of_option (audit_string (detail_of d "name")) (ErrOther "an invalid permanent reservation");
  cidr ← of_option (audit_string (detail_of d "cidr")) (ErrOther "an invalid permanent reservation");
  fail (ErrOther "an invalid permanent reservation") when negb (namePattern name) || negb (validRetiredNetworkCIDR cidr);;
  _ ← integer "enrollment_records_removed" "an invalid count";
  _ ← integer "agent_recovery_records_removed" "an invalid count";
  _ ← integer "certificate_issuances_removed" "an invalid count";
  _ ← integer "revocations_removed" "an invalid count";
  configRevision ← integer "config_revision" "invalid lifecycle counts";
  nodeCount ← integer "node_count" "invalid lifecycle counts";
  pendingNodes ← integer "pending_nodes" "invalid lifecycle counts";
  activeNodes ← integer "active_nodes" "invalid lifecycle counts";
  revokedNodes ← integer "revoked_nodes" "invalid lifecycle counts";
  fail (ErrOther "invalid lifecycle counts")
    when (configRevision <? 1) || negb (wrap64 (pendingNodes + activeNodes + revokedNodes) =? nodeCount);;
  fail (ErrOther "missing proof")
    when negb (forallb (λ key, default false (audit_bool (detail_of d key)))
                 ["credentials_invalidated"; "encrypted_key_material_removed"; "name_cidr_permanently_reserved"]);;
  Ok (Some (retiredNetworkReservation.make (AuditEvent.ResourceID event) name cidr configRevision nodeCount pendingNodes
              activeNodes revokedNodes)).

(** The same name, or ranges that overlap. *)
Definition same_place (name cidr name' cidr' : string) : result bool :=
  if EqualFold name name' then Ok true else cidrsOverlap cidr cidr'.
Definition reserves (reservation : retiredNetworkReservation.t) (name cidr : string) : result bool :=
  same_place (retiredNetworkReservation.name reservation) (retiredNetworkReservation.cidr reservation) name cidr.

Fixpoint reservation_conflict (events : list AuditEvent.t) (name cidr : string) : result bool :=
  match events with
  | [] => Ok false
  | event :: rest =>
      found ← parseRetiredNetworkReservation event;
      match found with
      | None => reservation_conflict rest name cidr
      | Some reservation =>
          taken ← reserves reservation name cidr;
          if taken : bool then Ok true else reservation_conflict rest name cidr
      end
  end.
Definition retiredNetworkReservationConflict (state : State.t) (name cidr : string) : result bool :=
  reservation_conflict (State.Audit state) name cidr.

(** A search that stops at the first hit. *)
Fixpoint exists_result {A} (f : A → result bool) (l : list A) : result bool :=
  match l with
  | [] => Ok false
  | x :: rest => hit ← f x; if hit : bool then Ok true else exists_result f rest
  end.
Fixpoint reservations_loop (networks : list Network.t) (reservations : list retiredNetworkReservation.t)
    (events : list AuditEvent.t) : result unit :=
  match events with
  | [] => Ok tt
  | event :: rest =>
      found ← parseRetiredNetworkReservation event;
      match found with
      | None => reservations_loop networks reservations rest
      | Some reservation =>
          let id := retiredNetworkReservation.id reservation in
          let name := retiredNetworkReservation.name reservation in
          let cidr := retiredNetworkReservation.cidr reservation in
          active ← exists_result (λ n, if Network.ID n == id then Ok true else same_place (Network.Name n) (Network.CIDR n) name cidr) networks;
          fail (ErrOther "retired network conflicts with active network") when active;;
          duplicate ← exists_result (λ r, if retiredNetworkReservation.id r == id then Ok true else reserves r name cidr) reservations;
          fail (ErrOther "retired network reservation is duplicated") when duplicate;;
          reservations_loop networks (reservations ++ [reservation]) rest
      end
  end.
Definition validateRetiredNetworkReservations (state : State.t) : result unit :=
  reservations_loop (State.Networks state) [] (State.Audit state).

(** ** Creating a network *)
Module CreateNetworkInput.
Record t := make { Name : string; CIDR : string; ListenPort : Z; CertificateTTL : Z }.
End CreateNetworkInput.

(** The checks of the input: the name, the canonical range, the port and the
    lifetime, with their defaults. *)
Definition network_input (input : CreateNetworkInput.t) : result (string * string * Z * Z) :=
  let name := TrimSpace (CreateNetworkInput.Name input) in
  fail ErrInvalid when negb (namePattern name);;
  '(_, ipnet) ← of_option (ParseCIDR (TrimSpace (CreateNetworkInput.CIDR input))) ErrInvalid;
  fail ErrInvalid when (p_bits ipnet <? 16) || (28 <? p_bits ipnet);;
  let port := if CreateNetworkInput.ListenPort input =? 0 then 4242 else CreateNetworkInput.ListenPort input in
  fail ErrInvalid when (port <? 1) || (65535 <? port);;
  let ttl := if CreateNetworkInput.CertificateTTL input =? 0 then 8760 else CreateNetworkInput.CertificateTTL input in
  fail ErrInvalid when (ttl <? 24) || (8760 <? ttl);;
  Ok (name, prefix_string ipnet, port, ttl).

(** The first look goes through every network. *)
Fixpoint any_taken (networks : list Network.t) (name cidr : string) : result bool :=
  match networks with
  | [] => Ok false
  | network :: rest =>
      taken ← same_place (Network.Name network) (Network.CIDR network) name cidr;
      others ← any_taken rest name cidr;
      Ok (taken || others)
  end.
Definition network_preflight (name cidr : string) (read : State.t) : result unit :=
  duplicate ← any_taken (State.Networks read) name cidr;
  retired ← retiredNetworkReservationConflict read name cidr;
  fail ErrConflict when duplicate || retired || bool_decide (is_Some (managedCIDROverlapsRoutedSubnet read cidr));;
  Ok tt.

Definition new_network (id name cidr : string) (port ttl : Z) (caCertificate encryptedKey configPublic encryptedConfigKey : string)
    (now : time) : Network.t :=
  Network.zero <| Network.ID := id |> <| Network.Name := name |> <| Network.CIDR := cidr |>
    <| Network.FirewallPolicy := defaultManagedFirewallPolicy |> <| Network.ListenPort := port |> <| Network.CertificateTTL := ttl |>
    <| Network.CACertificate := caCertificate |> <| Network.EncryptedCAKey := encryptedKey |>
    <| Network.ConfigSigningPublicKey := configPublic |> <| Network.EncryptedConfigSigningKey := encryptedConfigKey |>
    <| Network.ConfigRevision := 1 |> <| Network.ConfigUpdatedAt := now |> <| Network.CreatedAt := now |>.

Definition create_commit (eventID : string) (now : time) (actor : option Actor.t) (network : Network.t) (state : State.t) :
    result (State.t * Network.t) :=
  let name := Network.Name network in
  let cidr := Network.CIDR network in
  taken ← exists_result (λ n, same_place (Network.Name n) (Network.CIDR n) name cidr) (State.Networks state);
  fail ErrConflict when taken;;
  retired ← retiredNetworkReservationConflict state name cidr;
  fail ErrConflict when retired;;
  fail ErrConflict when bool_decide (is_Some (managedCIDROverlapsRoutedSubnet state cidr));;
  let network := if ControlStateVersionNetworkDNS <=? State.Version state
                 then network <| Network.DNSSettings := defaultNetworkDNSSettings |> else network in
  let network := if ControlStateVersionNetworkRelays <=? State.Version state
                 then network <| Network.RelaySettings := defaultNetworkRelaySettings |> else network in
  event ← newOptionalAttributedAudit eventID now "network.created" "network" (Network.ID network)
            [("name", DString name); ("cidr", DString cidr)] actor;
  Ok (append_audit (state <| State.Networks := State.Networks state ++ [network] |>) event, network).

Section create.
(** [issuer.CreateCA], [box.Seal], the configuration key's generation and its
    sealing. *)
Context (createCA : string → string → result (string * string)).
Context (seal : string → result string).
Context (configKey : result (string * string)).  (* the public key and the sealed private key *)

Definition createNetwork (newID : result string) (eventID : string) (now : time) (actor : option Actor.t)
    (input : CreateNetworkInput.t) (read state : State.t) : result (State.t * Network.t) :=
  '(name, cidr, port, ttl) ← network_input input;
  _ ← network_preflight name cidr read;
  '(caCertificate, caKey) ← createCA name cidr;
  fail ErrInvalid when negb (is_ok (validateGeneratedCA caCertificate caKey));;
  encryptedKey ← seal caKey;
  '(configPublic, encryptedConfigKey) ← configKey;
  id ← newID;
  create_commit eventID now actor (new_network id name cidr port ttl caCertificate encryptedKey configPublic encryptedConfigKey now) state.
End create.

(** ** Retiring a network *)
Module RetireNetworkInput.
Record t := make { ExpectedConfigRevision : Z; ConfirmationName : string }.
End RetireNetworkInput.
Module RetiredNetwork.
Record t := make {
  NetworkID : string; Name : string; CIDR : string; ConfigRevision : Z; RetiredAt : time; NodeCount : Z; PendingNodes : Z;
  ActiveNodes : Z; RevokedNodes : Z; CredentialsInvalidated : bool; EncryptedKeyMaterialRemoved : bool;
  NameCIDRPermanentlyReserved : bool; NodeIDs : list string }.
End RetiredNetwork.

Definition deleteNodesForNetwork (values : list Node.t) (networkID : string) : list Node.t :=
  filter (λ v, Node.NetworkID v ≠ networkID) values.
Definition deleteEnrollmentsForNodes (values : list EnrollmentToken.t) (nodeIDs : list string) : list EnrollmentToken.t :=
  filter (λ v, EnrollmentToken.NodeID v ∉ nodeIDs) values.
Definition deleteRecoveriesForNodes (values : list AgentRecoveryToken.t) (nodeIDs : list string) : list AgentRecoveryToken.t :=
  filter (λ v, AgentRecoveryToken.NodeID v ∉ nodeIDs) values.
Definition deleteIssuancesForNetwork (values : list CertificateIssuance.t) (networkID : string) : list CertificateIssuance.t :=
  filter (λ v, CertificateIssuance.NetworkID v ≠ networkID) values.
Definition deleteRevocationsForNetwork (values : list CertificateRevocation.t) (networkID : string) : list CertificateRevocation.t :=
  filter (λ v, CertificateRevocation.NetworkID v ≠ networkID) values.
(** How many records a deletion took. *)
Definition removed {A} (before after : list A) : Z := Z.of_nat (length before) - Z.of_nat (length after).

(** [append(values[:i], values[i+1:]...)] *)
Definition delete_at {A} (i : nat) (l : list A) : list A := take i l ++ drop (S i) l.
Definition with_status (status : string) (nodes : list Node.t) : Z :=
  Z.of_nat (length (filter (λ n, Node.Status n = status) nodes)).

Definition retirement_details (name cidr : string) (configRevision count pending active revoked enrollments recoveries issuances
    revocations : Z) : details :=
  [("name", DString name); ("cidr", DString cidr); ("config_revision", DInt configRevision); ("node_count", DInt count);
   ("pending_nodes", DInt pending); ("active_nodes", DInt active); ("revoked_nodes", DInt revoked);
   ("enrollment_records_removed", DInt enrollments); ("agent_recovery_records_removed", DInt recoveries);
   ("certificate_issuances_removed", DInt issuances); ("revocations_removed", DInt revocations);
   ("credentials_invalidated", DBool true); ("encrypted_key_material_removed", DBool true);
   ("name_cidr_permanently_reserved", DBool true)].

Definition retireNetwork (eventID : string) (now : time) (actor : option Actor.t) (networkID : string)
    (input : RetireNetworkInput.t) (state : State.t) : result (State.t * RetiredNetwork.t) :=
  fail ErrInvalid when negb (validPersistedID networkID) || (RetireNetworkInput.ExpectedConfigRevision input <? 1)
    || negb (namePattern (RetireNetworkInput.ConfirmationName input));;
  fail ErrInvalid when IsZero now;;
  '(index, network) ← of_option (network_at state networkID) ErrNotFound;
  fail ErrConflict when Network.Name network != RetireNetworkInput.ConfirmationName input;;
  fail ErrConflict when negb (Network.ConfigRevision network =? RetireNetworkInput.ExpectedConfigRevision input);;
  let members := filter (λ n, Node.NetworkID n = networkID) (State.Nodes state) in
  let nodeIDs := remove_dups (Node.ID <$> members) in
  let count := Z.of_nat (length nodeIDs) in
  let pending := with_status "pending" members in
  let active := with_status "active" members in
  let revoked := with_status "revoked" members in
  let enrollments := deleteEnrollmentsForNodes (State.Enrollments state) nodeIDs in
  let recoveries := deleteRecoveriesForNodes (State.AgentRecoveries state) nodeIDs in
  let issuances := deleteIssuancesForNetwork (State.Issuances state) networkID in
  let revocations := deleteRevocationsForNetwork (State.Revocations state) networkID in
  event ← newOptionalAttributedAudit eventID now networkRetiredAuditAction "network" networkID
    (retirement_details (Network.Name network) (Network.CIDR network) (Network.ConfigRevision network) count pending active revoked
       (removed (State.Enrollments state) enrollments) (removed (State.AgentRecoveries state) recoveries)
       (removed (State.Issuances state) issuances) (removed (State.Revocations state) revocations)) actor;
  Ok (append_audit (state <| State.Networks := delete_at index (State.Networks state) |>
        <| State.Nodes := deleteNodesForNetwork (State.Nodes state) networkID |>
        <| State.Enrollments := enrollments |> <| State.AgentRecoveries := recoveries |>
        <| State.Issuances := issuances |> <| State.Revocations := revocations |>) event,
      RetiredNetwork.make (Network.ID network) (Network.Name network) (Network.CIDR network) (Network.ConfigRevision network) now
        count pending active revoked true true true (sort_by str_le nodeIDs)).

(** ** Ranges that do not overlap *)
Lemma Atoi_nonneg s v : Atoi s = Some v → 0 ≤ v.
Proof.
  unfold Atoi. destruct (bytes_of s) as [|c l]; [done|]. destruct (digits_value 0 (c :: l)) as [w|] eqn:E; [|done].
  apply digits_value_lower in E; [|done]. case_match; [|done]. intros [= <-]. lia.
Qed.
Lemma ParseCIDR_facts s a n :
  ParseCIDR s = Some (a, n) → valid_addr a ∧ 0 ≤ p_bits n ≤ 32 ∧ p_addr n = mask_addr a (p_bits n).
Proof.
  unfold ParseCIDR. destruct (split_on _ s) as [|x [|y [|]]]; try done. intros H.
  apply bind_Some in H as (addr & Ha & H). apply bind_Some in H as (bits & Hb & H). destruct (bits <=? 32) eqn:E; [|done].
  injection H as <- <-. apply ParseAddr_iff in Ha as [Ha _]. apply Atoi_nonneg in Hb. simpl. split_and!; [done|lia|lia|done].
Qed.

(** An address and the network it was written with. *)
Definition cidr_ok (a : Z) (n : prefix) : Prop := valid_addr a ∧ 0 ≤ p_bits n ≤ 32 ∧ p_addr n = mask_addr a (p_bits n).
Lemma cidr_ok_block a n : cidr_ok a n → valid_addr (p_addr n) ∧ p_addr n / host_size n = a / host_size n.
Proof.
  intros (Ha & Hb & Hm). rewrite mask_addr_div in Hm by lia. fold (host_size n) in Hm. pose proof (host_size_pos n ltac:(lia)).
  rewrite Hm at 2. rewrite Z.div_mul by lia. split; [|done]. unfold valid_addr in *. rewrite Hm.
  pose proof (Z.div_mod a (host_size n) ltac:(lia)). pose proof (Z.mod_pos_bound a (host_size n) ltac:(lia)).
  assert (0 ≤ a / host_size n) by (apply Z.div_pos; lia). nia.
Qed.
Lemma net_contains_block n a x : cidr_ok a n → valid_addr x → net_contains n x = (a / host_size n =? x / host_size n).
Proof.
  intros Hn Hx. destruct (cidr_ok_block _ _ Hn) as [Hv <-]. destruct Hn as (_ & Hb & _).
  rewrite net_contains_Contains by done. by rewrite Contains_div by lia.
Qed.
(** The address of the smaller of two networks that share an address is in the other. *)
Lemma shared_address a n b m x : cidr_ok a n → cidr_ok b m → valid_addr x → p_bits m ≤ p_bits n →
  net_contains n x = true → net_contains m x = true → net_contains m a = true.
Proof.
  intros Hn Hm Hx Hle. rewrite (net_contains_block n a) by done. rewrite !(net_contains_block m b) by (done || apply Hn).
  rewrite !Z.eqb_eq. intros E1 ->. assert (host_size m = host_size n * 2 ^ (p_bits n - p_bits m)) as ->.
  { unfold host_size. rewrite <- Z.pow_add_r by (destruct Hn as (_ & ? & _); lia). f_equal. lia. }
  pose proof (host_size_pos n ltac:(destruct Hn as (_ & ? & _); lia)).
  assert (0 < 2 ^ (p_bits n - p_bits m)) by (apply Z.pow_pos_nonneg; lia).
  rewrite <- !Z.div_div by lia. by rewrite E1.
Qed.
Lemma no_overlap_disjoint a b aip an bip bn x :
  ParseCIDR a = Some (aip, an) → ParseCIDR b = Some (bip, bn) → cidrsOverlap a b = Ok false → valid_addr x →
  net_contains an x = true → net_contains bn x = true → False.
Proof.
  intros Ha Hb Ho Hx H1 H2. unfold cidrsOverlap in Ho. rewrite Ha, Hb in Ho. simpl in Ho. injection Ho as Ho. split_bools.
  pose proof (ParseCIDR_facts _ _ _ Ha : cidr_ok aip an) as Ka. pose proof (ParseCIDR_facts _ _ _ Hb : cidr_ok bip bn) as Kb.
  destruct (Z.le_ge_cases (p_bits bn) (p_bits an)).
  - by rewrite (shared_address aip an bip bn x) in * by done.
  - by rewrite (shared_address bip bn aip an x) in * by done.
Qed.

(** ** Reserved for ever *)
Fixpoint reserved_places (events : list AuditEvent.t) : result (list retiredNetworkReservation.t) :=
  match events with
  | [] => Ok []
  | event :: rest =>
      found ← parseRetiredNetworkReservation event;
      places ← reserved_places rest;
      Ok (match found with Some r => r :: places | None => places end)
  end.
Lemma reservation_conflict_free events name cidr event :
  reservation_conflict events name cidr = Ok false → event ∈ events →
  ∃ found, parseRetiredNetworkReservation event = Ok found ∧ ∀ r, found = Some r → reserves r name cidr = Ok false.
Proof.
  induction events as [|e rest IH]; intros Hc Hin; [by apply elem_of_nil in Hin|]. cbn [reservation_conflict] in Hc.
  apply bind_Ok in Hc as (found & Hp & Hc). apply elem_of_cons in Hin as [->|Hin].
  - exists found. split; [done|]. intros r ->. apply bind_Ok in Hc as ([|] & Hr & Hc); [done|]. done.
  - destruct found as [r|]; [|by apply IH]. apply bind_Ok in Hc as ([|] & Hr & Hc); [done|]. by apply IH.
Qed.

Lemma reserved_place_free events name cidr places r :
  reservation_conflict events name cidr = Ok false → reserved_places events = Ok places → r ∈ places → reserves r name cidr = Ok false.
Proof.
  revert places. induction events as [|e rest IH]; intros places Hc Hp Hin; simpl in *; [injection Hp as <-; by apply elem_of_nil in Hin|].
  destruct (parseRetiredNetworkReservation e) as [[q|]|]; [..|done]; simpl in *; apply bind_Ok in Hp as (p & Hp & [= <-]); [|by eapply IH].
  apply bind_Ok in Hc as ([|] & Hq & Hc); [done|]. apply elem_of_cons in Hin as [->|Hin]; [done|by eapply IH].
Qed.

(** A retirement's event is read as the reservation it was made for. *)
Lemma retirement_event eventID now networkID name cidr revision count pending active revoked enrollments recoveries issuances
    revocations actor event :
  newOptionalAttributedAudit eventID now networkRetiredAuditAction "network" networkID
    (retirement_details name cidr revision count pending active revoked enrollments recoveries issuances revocations) actor = Ok event →
  Forall (λ z, 0 ≤ z) [revision; count; pending; active; revoked; enrollments; recoveries; issuances; revocations] →
  parseRetiredNetworkReservation event =
    (fail (ErrOther "an invalid permanent reservation") when negb (namePattern name) || negb (validRetiredNetworkCIDR cidr);;
     fail (ErrOther "invalid lifecycle counts") when (revision <? 1) || negb (wrap64 (pending + active + revoked) =? count);;
     Ok (Some (retiredNetworkReservation.make networkID name cidr revision count pending active revoked))).
Proof.
  intros He Hnn. pose proof (audit_metadata _ _ _ _ _ _ _ _ He) as (Ha & Hr & Hid & _).
  assert (∀ z, 0 ≤ z → auditNonNegativeInteger (Some (DInt z)) = Some z) as Hint
    by (intros z Hz; unfold auditNonNegativeInteger; by rewrite (proj2 (Z.leb_le 0 z) Hz)).
  repeat (apply Forall_cons in Hnn as [? Hnn]).
  unfold parseRetiredNetworkReservation. cbv zeta. rewrite Ha, Hr, Hid. cbn [forallb].
  repeat match goal with |- context [detail_of (elems (AuditEvent.Details event)) ?key] =>
    rewrite (audit_detail _ _ _ _ _ _ _ _ key He) by (apply (bool_decide_unpack _); vm_compute; exact I) end.
  repeat match goal with |- context [detail_of (retirement_details ?a ?b ?c ?d ?e ?f ?g ?h ?i ?j ?k) ?key] =>
    let v := eval cbv in (detail_of (retirement_details a b c d e f g h i j k) key) in
    change (detail_of (retirement_details a b c d e f g h i j k) key) with v end.
  rewrite !Hint by done. reflexivity.
Qed.

Lemma filter_removed {A} (P : A → Prop) `{!∀ x, Decision (P x)} (l : list A) : 0 ≤ removed l (filter P l).
Proof. unfold removed. pose proof (length_filter P l). lia. Qed.

(** What a retirement does to the state. *)
Lemma retire_call eventID now actor networkID input state state' retired :
  retireNetwork eventID now actor networkID input state = Ok (state', retired) →
  ∃ index network event, network_at state networkID = Some (index, network) ∧
    RetiredNetwork.Name retired = Network.Name network ∧ RetiredNetwork.CIDR retired = Network.CIDR network ∧
    1 ≤ Network.ConfigRevision network ∧
    State.Networks state' = delete_at index (State.Networks state) ∧ State.Audit state' = State.Audit state ++ [event] ∧
    parseRetiredNetworkReservation event =
      (let members := filter (λ n, Node.NetworkID n = networkID) (State.Nodes state) in
       fail (ErrOther "an invalid permanent reservation")
         when negb (namePattern (Network.Name network)) || negb (validRetiredNetworkCIDR (Network.CIDR network));;
       fail (ErrOther "invalid lifecycle counts") when (Network.ConfigRevision network <? 1)
         || negb (wrap64 (with_status "pending" members + with_status "active" members + with_status "revoked" members)
                  =? Z.of_nat (length (remove_dups (Node.ID <$> members))));;
       Ok (Some (retiredNetworkReservation.make networkID (Network.Name network) (Network.CIDR network)
                   (Network.ConfigRevision network) (Z.of_nat (length (remove_dups (Node.ID <$> members))))
                   (with_status "pending" members) (with_status "active" members) (with_status "revoked" members)))).
Proof.
  unfold retireNetwork. cbv zeta. intros Hc. apply guard_iff in Hc as [Hg Hc]. apply guard_iff in Hc as [_ Hc].
  apply bind_Ok in Hc as ([index network] & Hn%of_option_Ok & Hc). apply guard_iff in Hc as [_ Hc]. apply guard_iff in Hc as [Hrev Hc].
  apply bind_Ok in Hc as (event & He & Hc). injection Hc as <- <-. split_bools. exists index, network, event.
  split_and!; [done|done|done|lia|done|done|]. eapply retirement_event; [exact He|].
  rewrite !Forall_cons, Forall_nil. unfold with_status. split_and!; try lia; try done; apply filter_removed.
Qed.

Lemma create_commit_call eventID now actor network state state' created :
  create_commit eventID now actor network state = Ok (state', created) →
  Network.Name created = Network.Name network ∧ Network.CIDR created = Network.CIDR network ∧ Network.ID created = Network.ID network ∧
  retiredNetworkReservationConflict state (Network.Name network) (Network.CIDR network) = Ok false ∧
  exists_result (λ n, same_place (Network.Name n) (Network.CIDR n) (Network.Name network) (Network.CIDR network)) (State.Networks state) = Ok false ∧
  State.Networks state' = State.Networks state ++ [created] ∧
  ∃ event, State.Audit state' = State.Audit state ++ [event] ∧ AuditEvent.Action event = "network.created".
Proof.
  unfold create_commit. cbv zeta. intros Hc. apply bind_Ok in Hc as ([|] & Ht & Hc); [done|]. apply guard_iff in Hc as [_ Hc].
  apply bind_Ok in Hc as ([|] & Hf & Hc); [done|]. apply guard_iff in Hc as [_ Hc]. apply guard_iff in Hc as [_ Hc].
  apply bind_Ok in Hc as (event & He & Hc). injection Hc as <- <-. apply audit_metadata in He as (Ha & _).
  split_and!; try done; try (by repeat case_match). by exists event.
Qed.

(** C22: once a network is retired, no network that is created later, by any request
    and with whatever the log holds besides, has its name or shares an address with
    it. *)
Theorem retired_place_not_reused eventID now actor networkID input state state' retired later
    createCA seal configKey newID eventID' now' actor' createInput read later' network x :
  retireNetwork eventID now actor networkID input state = Ok (state', retired) →
  State.Audit state' ⊆ State.Audit later →
  createNetwork createCA seal configKey newID eventID' now' actor' createInput read later = Ok (later', network) →
  valid_addr x →
  EqualFold (RetiredNetwork.Name retired) (Network.Name network) = false ∧
  ¬ ∃ ip ip' retiredRange range, ParseCIDR (RetiredNetwork.CIDR retired) = Some (ip, retiredRange) ∧
      ParseCIDR (Network.CIDR network) = Some (ip', range) ∧ net_contains retiredRange x = true ∧ net_contains range x = true.
Proof.
  intros (index & retiring & event & _ & -> & -> & _ & _ & Haudit & Hparse)%retire_call Hgrow Hc Hx.
  unfold createNetwork in Hc. apply bind_Ok in Hc as ([[[name cidr] port] ttl] & _ & Hc). apply bind_Ok in Hc as (u & _ & Hc).
  apply bind_Ok in Hc as ([caCertificate caKey] & _ & Hc). apply guard_iff in Hc as [_ Hc]. apply bind_Ok in Hc as (sealed & _ & Hc).
  apply bind_Ok in Hc as ([public private] & _ & Hc). apply bind_Ok in Hc as (id & _ & Hc).
  apply create_commit_call in Hc as (-> & -> & _ & Hfree & _). simpl.
  destruct (reservation_conflict_free _ _ _ event Hfree) as (found & Hf & Hres).
  { apply Hgrow. rewrite Haudit. apply elem_of_app. right. by apply list_elem_of_singleton. }
  rewrite Hparse in Hf. cbv zeta in Hf. apply guard_iff in Hf as [_ Hf]. apply guard_iff in Hf as [_ Hf]. injection Hf as <-.
  specialize (Hres _ eq_refl). unfold reserves, same_place in Hres. simpl in Hres. destruct (EqualFold _ _); [done|].
  split; [done|]. intros (ip & ip' & r & r' & H1 & H2 & H3 & H4). exact (no_overlap_disjoint _ _ _ _ _ _ x H1 H2 Hres Hx H3 H4).
Qed.

(** ** What a valid log of retirements is *)
(** A network or a reservation that is another and elsewhere. *)
Definition apart (id name cidr id' name' cidr' : string) : Prop := id ≠ id' ∧ same_place name cidr name' cidr' = Ok false.
Definition network_apart (n : Network.t) (r : retiredNetworkReservation.t) : Prop :=
  apart (Network.ID n) (Network.Name n) (Network.CIDR n) (retiredNetworkReservation.id r) (retiredNetworkReservation.name r)
    (retiredNetworkReservation.cidr r).
Definition reservation_apart (q r : retiredNetworkReservation.t) : Prop :=
  apart (retiredNetworkReservation.id q) (retiredNetworkReservation.name q) (retiredNetworkReservation.cidr q)
    (retiredNetworkReservation.id r) (retiredNetworkReservation.name r) (retiredNetworkReservation.cidr r).

Lemma exists_result_false {A} (f : A → result bool) l : exists_result f l = Ok false ↔ Forall (λ x, f x = Ok false) l.
Proof.
  induction l as [|x l IH]; simpl; [by split|]. rewrite Forall_cons, <- IH. destruct (f x) as [[|]|]; simpl; naive_solver.
Qed.
Lemma apart_test id name cidr id' name' cidr' :
  (if id == id' then Ok true else same_place name cidr name' cidr') = Ok false ↔ apart id name cidr id' name' cidr'.
Proof. unfold apart. case_bool_decide; naive_solver. Qed.

Lemma reservation_step networks rs r (k : result unit) :
  (active ← exists_result (λ n, if Network.ID n == retiredNetworkReservation.id r then Ok true
             else same_place (Network.Name n) (Network.CIDR n) (retiredNetworkReservation.name r) (retiredNetworkReservation.cidr r)) networks;
   fail (ErrOther "retired network conflicts with active network") when active;;
   duplicate ← exists_result (λ q, if retiredNetworkReservation.id q == retiredNetworkReservation.id r then Ok true
             else reserves q (retiredNetworkReservation.name r) (retiredNetworkReservation.cidr r)) rs;
   fail (ErrOther "retired network reservation is duplicated") when duplicate;; k) = Ok tt ↔
  Forall (λ n, network_apart n r) networks ∧ Forall (λ q, reservation_apart q r) rs ∧ k = Ok tt.
Proof.
  split.
  - intros Hc. apply bind_Ok in Hc as ([|] & Ha & Hc); [done|]. apply guard_iff in Hc as [_ Hc].
    apply bind_Ok in Hc as ([|] & Hb & Hc); [done|]. apply guard_iff in Hc as [_ Hc].
    apply exists_result_false in Ha. apply exists_result_false in Hb. split_and!; [| |done].
    + eapply Forall_impl; [exact Ha|]. intros n Hn. by apply (proj1 (apart_test _ _ _ _ _ _)).
    + eapply Forall_impl; [exact Hb|]. intros q Hq. by apply (proj1 (apart_test _ _ _ _ _ _)).
  - intros (Ha & Hb & Hk). rewrite (proj2 (exists_result_false _ networks)).
    2:{ eapply Forall_impl; [exact Ha|]. intros n Hn. by apply (proj2 (apart_test _ _ _ _ _ _)). }
    simpl. rewrite (proj2 (exists_result_false _ rs)); [done|].
    eapply Forall_impl; [exact Hb|]. intros q Hq. by apply (proj2 (apart_test _ _ _ _ _ _)).
Qed.

(** The loop accepts a log exactly when every event can be read and every
    reservation is apart from the active networks and from the ones before it. *)
Lemma reservations_loop_iff networks rs events :
  reservations_loop networks rs events = Ok tt ↔
  ∃ places, reserved_places events = Ok places ∧ Forall (λ r, Forall (λ n, network_apart n r) networks) places ∧
    ∀ i r, places !! i = Some r → Forall (λ q, reservation_apart q r) (rs ++ take i places).
Proof.
  revert rs. induction events as [|event rest IH]; intros rs; cbn [reservations_loop reserved_places].
  { split; [intros _; exists []; split_and!; [done|by constructor|done]|done]. }
  destruct (parseRetiredNetworkReservation event) as [[r|]|]; cbn [mbind result_bind].
  - rewrite reservation_step, IH. split.
    + intros (Hn & Hr & places & -> & H1 & H2). exists (r :: places). split_and!; [done|by constructor|]. intros [|i] q Hq; simpl in *.
      * injection Hq as <-. by rewrite app_nil_r.
      * specialize (H2 i q Hq). by rewrite <- app_assoc in H2.
    + intros (places & Hp & H1 & H2). apply bind_Ok in Hp as (p & -> & [= <-]). apply Forall_cons in H1 as [Hn H1]. split_and!; [done| |].
      * specialize (H2 0%nat r eq_refl). by rewrite app_nil_r in H2.
      * exists p. split_and!; [done|done|]. intros i q Hq. specialize (H2 (S i) q Hq). simpl in H2. by rewrite <- app_assoc.
  - rewrite IH. split.
    + intros (places & -> & H1). by exists places.
    + intros (places & Hp & H1). apply bind_Ok in Hp as (p & -> & [= <-]). by exists p.
  - split; [done|]. by intros (places & ? & _).
Qed.

(** ** Valid in every state *)
Definition known_status (n : Node.t) : Prop := Node.Status n ∈ ["pending"; "active"; "revoked"].
Record places_ok (state : State.t) : Prop := {
  places_named : Forall (λ n, namePattern (Network.Name n) = true ∧ validRetiredNetworkCIDR (Network.CIDR n) = true) (State.Networks state);
  places_apart i j a b : State.Networks state !! i = Some a → State.Networks state !! j = Some b → i ≠ j →
    apart (Network.ID a) (Network.Name a) (Network.CIDR a) (Network.ID b) (Network.Name b) (Network.CIDR b);
  places_nodes : NoDup (Node.ID <$> State.Nodes state) ∧ Forall known_status (State.Nodes state) ∧
    Z.of_nat (length (State.Nodes state)) ≤ int64_max;
  places_reserved : validateRetiredNetworkReservations state = Ok tt }.

Lemma EqualFold_sym s t : EqualFold s t = EqualFold t s.
Proof. unfold EqualFold. apply bool_decide_ext. split; congruence. Qed.
Lemma same_place_sym name cidr name' cidr' : same_place name cidr name' cidr' = Ok false → same_place name' cidr' name cidr = Ok false.
Proof.
  unfold same_place. rewrite EqualFold_sym. destruct (EqualFold name' name); [done|]. unfold cidrsOverlap.
  destruct (ParseCIDR cidr) as [[a n]|], (ParseCIDR cidr') as [[b m]|]; simpl; try done. by rewrite orb_comm.
Qed.
Lemma apart_sym id name cidr id' name' cidr' : apart id name cidr id' name' cidr' → apart id' name' cidr' id name cidr.
Proof. intros [H1 H2%same_place_sym]. split; congruence. Qed.

Lemma reserved_places_snoc events event places found :
  reserved_places events = Ok places → parseRetiredNetworkReservation event = Ok found →
  reserved_places (events ++ [event]) = Ok (places ++ from_option (λ r, [r]) [] found).
Proof.
  revert places. induction events as [|e rest IH]; intros places Hp He; simpl in *.
  - injection Hp as <-. rewrite He. by destruct found.
  - destruct (parseRetiredNetworkReservation e) as [f|]; [|done]. simpl in *. apply bind_Ok in Hp as (p & Hp & [= <-]).
    rewrite (IH p) by done. simpl. by destruct f.
Qed.

Lemma statuses_counted nodes : Forall known_status nodes →
  with_status "pending" nodes + with_status "active" nodes + with_status "revoked" nodes = Z.of_nat (length nodes).
Proof.
  unfold with_status. induction 1 as [|n l Hn _ IH]; [done|]. rewrite !filter_cons. unfold known_status in Hn.
  rewrite !elem_of_cons, elem_of_nil in Hn. destruct Hn as [E|[E|[E|[]]]]; rewrite E;
  repeat (rewrite decide_True by done || rewrite decide_False by done); simpl length; lia.
Qed.

Lemma delete_at_lookup {A} index (l : list A) i :
  delete_at index l !! i = if decide (i < index)%nat then l !! i else l !! S i.
Proof.
  unfold delete_at. rewrite <- delete_take_drop. case_decide; [by rewrite list_lookup_delete_lt|by rewrite list_lookup_delete_ge by lia].
Qed.

Lemma Forall_filter {A} (P Q : A → Prop) `{!∀ x, Decision (Q x)} l : Forall P l → Forall P (filter Q l).
Proof. rewrite !Forall_forall. intros Hl x [_ Hx]%list_elem_of_filter. by apply Hl. Qed.

Lemma remove_dups_id `{EqDecision A} (l : list A) : NoDup l → remove_dups l = l.
Proof. induction 1 as [|x l Hx _ IH]; [done|]. simpl. destruct (decide_rel _ x l); [done|]. by rewrite IH. Qed.

Lemma retire_keeps eventID now actor networkID input state state' retired :
  retireNetwork eventID now actor networkID input state = Ok (state', retired) → places_ok state → places_ok state'.
Proof.
  intros Hc Hok. assert (State.Nodes state' = deleteNodesForNetwork (State.Nodes state) networkID) as Hnodes.
  { unfold retireNetwork in Hc. cbv zeta in Hc. apply guard_iff in Hc as [_ Hc]. apply guard_iff in Hc as [_ Hc].
    apply bind_Ok in Hc as ([? ?] & _ & Hc). apply guard_iff in Hc as [_ Hc]. apply guard_iff in Hc as [_ Hc].
    apply bind_Ok in Hc as (? & _ & Hc). by injection Hc as <- _. }
  apply retire_call in Hc as (index & network & event & Hat & _ & _ & Hrev & Hnet & Haudit & Hparse).
  apply network_at_Some in Hat as [Hi Hid]. destruct Hok as [Hnamed Hapart (Hnd & Hst & Hlen) Hres].
  pose proof (Forall_lookup_1 _ _ _ _ Hnamed Hi) as [Hname Hcidr].
  assert (∀ i n, delete_at index (State.Networks state) !! i = Some n → ∃ j, State.Networks state !! j = Some n ∧ j ≠ index ∧
    (j = if decide (i < index)%nat then i else S i)) as Hdel.
  { intros i n. rewrite delete_at_lookup. case_decide; intros Hl; eexists; (split; [exact Hl|]); split; lia. }
  assert (∃ r, parseRetiredNetworkReservation event = Ok (Some r) ∧ retiredNetworkReservation.id r = Network.ID network ∧
    retiredNetworkReservation.name r = Network.Name network ∧ retiredNetworkReservation.cidr r = Network.CIDR network)
    as (r & Hr & Erid & Ern & Erc).
  { set (members := filter (λ n, Node.NetworkID n = networkID) (State.Nodes state)) in Hparse. rewrite Hparse. cbv zeta.
    assert (Forall known_status members) as Hm by (by apply Forall_filter).
    assert (sublist members (State.Nodes state)) as Hsub by apply sublist_filter.
    rewrite remove_dups_id by (eapply sublist_NoDup; [exact Hnd|by apply fmap_sublist]).
    rewrite length_fmap, statuses_counted by done. pose proof (sublist_length _ _ Hsub).
    rewrite wrap64_id by (unfold in_int64, int64_min, int64_max in *; lia). rewrite Hname, Hcidr, Z.eqb_refl.
    replace (Network.ConfigRevision network <? 1) with false by lia. simpl. eauto. }
  apply reservations_loop_iff in Hres as (places & Hp & Hfree & Hpairs).
  constructor.
  - rewrite Hnet. apply Forall_lookup. intros i n (j & Hj & _)%Hdel. exact (Forall_lookup_1 _ _ _ _ Hnamed Hj).
  - rewrite Hnet. intros i j a b (i' & Ha & _ & Ei)%Hdel (j' & Hb & _ & Ej)%Hdel Hne. eapply Hapart; [done|done|].
    repeat case_decide; lia.
  - rewrite Hnodes. unfold deleteNodesForNetwork. split_and!; [|by apply Forall_filter|pose proof (length_filter (λ v, Node.NetworkID v ≠ networkID) (State.Nodes state)); lia].
    eapply sublist_NoDup; [exact Hnd|]. apply fmap_sublist, sublist_filter.
  - apply reservations_loop_iff. exists (places ++ [r]). rewrite Haudit, Hnet. split_and!.
    + by rewrite (reserved_places_snoc _ _ _ _ Hp Hr).
    + apply Forall_app. split.
      * eapply Forall_impl; [exact Hfree|]. intros q Hq. apply Forall_lookup. intros i n (j & Hj & _)%Hdel. by eapply Forall_lookup_1 in Hq.
      * apply Forall_singleton. apply Forall_lookup. intros i n (j & Hj & Hne & _)%Hdel. unfold network_apart. rewrite Erid, Ern, Erc. by eapply Hapart.
    + intros i q Hq. apply lookup_app_Some in Hq as [Hq|[Hge Hq]].
      * rewrite take_app_le by (apply lookup_lt_Some in Hq; lia). by apply Hpairs.
      * rewrite take_app_ge by done. apply list_lookup_singleton_Some in Hq as [E <-]. rewrite E, take_0, app_nil_r. simpl.
        eapply Forall_impl; [exact Hfree|]. intros p Hfp. apply Forall_lookup_1 with (i := index) (x := network) in Hfp; [|done].
        unfold reservation_apart. rewrite Erid, Ern, Erc. by apply apart_sym.
Qed.

Lemma created_network createCA seal configKey newID eventID now actor input read state state' network :
  createNetwork createCA seal configKey newID eventID now actor input read state = Ok (state', network) →
  namePattern (Network.Name network) = true ∧
  (∃ ip ipnet, ParseCIDR (TrimSpace (CreateNetworkInput.CIDR input)) = Some (ip, ipnet) ∧ Network.CIDR network = prefix_string ipnet ∧
     16 ≤ p_bits ipnet ≤ 28) ∧
  ∃ template, Network.ID template = Network.ID network ∧ create_commit eventID now actor template state = Ok (state', network).
Proof.
  unfold createNetwork. intros Hc. apply bind_Ok in Hc as ([[[name cidr] port] ttl] & Hin & Hc). apply bind_Ok in Hc as (u & _ & Hc).
  apply bind_Ok in Hc as ([caCertificate caKey] & _ & Hc). apply guard_iff in Hc as [_ Hc]. apply bind_Ok in Hc as (sealed & _ & Hc).
  apply bind_Ok in Hc as ([public private] & _ & Hc). apply bind_Ok in Hc as (id & _ & Hc).
  pose proof (create_commit_call _ _ _ _ _ _ _ Hc) as (En & Ec & Ei & _). rewrite En, Ec. simpl.
  unfold network_input in Hin. cbv zeta in Hin. apply guard_iff in Hin as [Hname Hin].
  apply bind_Ok in Hin as ([ip ipnet] & Hp%of_option_Ok & Hin). apply guard_iff in Hin as [Hb Hin]. apply guard_iff in Hin as [_ Hin].
  apply guard_iff in Hin as [_ Hin]. injection Hin as <- <- _ _. split_bools. split_and!; [done| |by eexists].
  exists ip, ipnet. split_and!; [done|done|lia|lia].
Qed.

Lemma Atoi_bits_table : Forall (λ b, Atoi (Itoa b) = Some b) (seqZ 0 33).
Proof. apply (bool_decide_unpack _). vm_compute. exact I. Qed.
Lemma ParseCIDR_string p : valid_prefix p → ParseCIDR (prefix_string p) = Some (p_addr p, Masked p).
Proof.
  intros [Ha Hb]. destruct p as [x n]. unfold ParseCIDR, prefix_string, Masked. cbn [p_addr p_bits] in *.
  assert (Atoi (Itoa n) = Some n) as Hn.
  { pose proof Atoi_bits_table as T. rewrite Forall_forall in T. apply T, elem_of_seqZ. lia. }
  rewrite (split_on_app _ _ _ (addr_string_no_slash x Ha)). pose proof Itoa_octet_table as T. rewrite Forall_forall in T.
  destruct (T n) as (_ & _ & Hs); [apply elem_of_seqZ; lia|]. rewrite split_on_word by done.
  rewrite (proj2 (ParseAddr_iff _ _) (conj Ha eq_refl)), Hn. simpl. by replace (n <=? 32) with true by lia.
Qed.

(** The canonical text of a parsed range is accepted as such. *)
Lemma canonical_cidr s ip ipnet :
  ParseCIDR s = Some (ip, ipnet) → 16 ≤ p_bits ipnet ≤ 28 → validRetiredNetworkCIDR (prefix_string ipnet) = true.
Proof.
  intros Hp Hb. pose proof (ParseCIDR_facts _ _ _ Hp : cidr_ok ip ipnet) as Hok. destruct (cidr_ok_block _ _ Hok) as [Hv _].
  destruct Hok as (Ha & Hb' & Hm). unfold validRetiredNetworkCIDR. rewrite ParseCIDR_string by done.
  assert (Masked ipnet = ipnet) as ->.
  { destruct ipnet as [x n]. unfold Masked. simpl in *. f_equal. rewrite Hm, !mask_addr_div by lia. by rewrite Z.div_mul by (apply Z.pow_nonzero; lia). }
  rewrite bool_decide_eq_true_2 by done. lia.
Qed.

(** A new network has an identifier of its own: the random one is neither a
    network's nor a retired network's. *)
Definition fresh_network (state : State.t) (id : string) : Prop :=
  (id ∉ (Network.ID <$> State.Networks state)) ∧
  ∀ places, reserved_places (State.Audit state) = Ok places → id ∉ (retiredNetworkReservation.id <$> places).

Lemma create_keeps createCA seal configKey newID eventID now actor input read state state' network :
  createNetwork createCA seal configKey newID eventID now actor input read state = Ok (state', network) →
  fresh_network state (Network.ID network) → places_ok state → places_ok state'.
Proof.
  intros Hc [Hnew Hunreserved] [Hnamed Hapart Hnodes Hres].
  apply created_network in Hc as (Hname & (ip & ipnet & Hp & Ecidr & Hbits) & template & _ & Hc).
  assert (State.Nodes state' = State.Nodes state) as En.
  { unfold create_commit in Hc. cbv zeta in Hc. apply bind_Ok in Hc as (? & _ & Hc). apply guard_iff in Hc as [_ Hc].
    apply bind_Ok in Hc as (? & _ & Hc). apply guard_iff in Hc as [_ Hc]. apply guard_iff in Hc as [_ Hc].
    apply bind_Ok in Hc as (? & _ & Hc). by injection Hc as <- _. }
  apply create_commit_call in Hc as (Ename & Ecid & _ & Hfree & Htaken & Hnet & event & Haudit & Hact).
  rewrite <- Ename, <- Ecid in Hfree, Htaken. apply exists_result_false in Htaken.
  assert (∀ i n, State.Networks state !! i = Some n →
    apart (Network.ID n) (Network.Name n) (Network.CIDR n) (Network.ID network) (Network.Name network) (Network.CIDR network)) as Hother.
  { intros i n Hi. split; [|exact (Forall_lookup_1 _ _ _ _ Htaken Hi)]. intros E. apply Hnew. rewrite <- E.
    apply list_elem_of_fmap. exists n. split; [done|by eapply list_elem_of_lookup_2]. }
  apply reservations_loop_iff in Hres as (places & Hpl & Hpf & Hpairs).
  constructor.
  - rewrite Hnet. apply Forall_app. split; [done|]. apply Forall_singleton. split; [done|]. rewrite Ecidr. by eapply canonical_cidr.
  - rewrite Hnet. intros i j a b [Ha|[Hia Ha]]%lookup_app_Some [Hb|[Hib Hb]]%lookup_app_Some Hne.
    + by eapply Hapart.
    + apply list_lookup_singleton_Some in Hb as [_ <-]. by eapply Hother.
    + apply list_lookup_singleton_Some in Ha as [_ <-]. apply apart_sym. by eapply Hother.
    + apply list_lookup_singleton_Some in Ha as [Hi _]. apply list_lookup_singleton_Some in Hb as [Hj _]. lia.
  - by rewrite En.
  - apply reservations_loop_iff. exists places. rewrite Haudit, Hnet. split_and!; [|..|done].
    + rewrite (reserved_places_snoc _ _ _ None Hpl); [by rewrite app_nil_r|]. unfold parseRetiredNetworkReservation. by rewrite Hact.
    + apply Forall_forall. intros r Hr. apply Forall_app. split; [rewrite Forall_forall in Hpf; by apply Hpf|].
      apply Forall_singleton. unfold network_apart. apply apart_sym. split.
      * intros E. apply (Hunreserved _ Hpl). rewrite <- E. apply list_elem_of_fmap. by exists r.
      * by eapply reserved_place_free.
Qed.

Inductive network_step (state state' : State.t) : Prop :=
  | step_create createCA seal configKey newID eventID now actor input read network :
      createNetwork createCA seal configKey newID eventID now actor input read state = Ok (state', network) →
      fresh_network state (Network.ID network) → network_step state state'
  | step_retire eventID now actor networkID input retired :
      retireNetwork eventID now actor networkID input state = Ok (state', retired) → network_step state state'.

(** However networks are created and retired, the active ones keep apart by
    identifier, name and range, and the log of retirements stays one the store
    accepts: each reservation is apart from the active networks and from the other
    reservations. *)
Theorem reservations_stay_valid state state' :
  rtc network_step state state' → places_ok state →
  validateRetiredNetworkReservations state' = Ok tt ∧
  ∀ i j a b, State.Networks state' !! i = Some a → State.Networks state' !! j = Some b → i ≠ j →
    apart (Network.ID a) (Network.Name a) (Network.CIDR a) (Network.ID b) (Network.Name b) (Network.CIDR b).
Proof.
  intros Hr Hok. assert (places_ok state') as Hok'.
  { induction Hr as [|s1 s2 s3 Hs _ IH]; [done|]. apply IH. destruct Hs as [? ? ? ? ? ? ? ? ? n Hc Hf|? ? ? ? ? ? Hc];
    [by eapply create_keeps|by eapply retire_keeps]. }
  split; apply Hok'.
Qed.

(** ** Examples *)
Definition place_input : CreateNetworkInput.t := CreateNetworkInput.make "home" "10.42.7.9/16" 0 0.
Definition outcome {A} (dummy : A) (r : result A) : A := match r with Ok a => a | Err _ => dummy end.
Definition created_example : State.t * Network.t :=
  outcome (State.zero, Network.zero) (createNetwork (λ _ _, Ok ("certificate", "key")) Ok (Ok ("public", "sealed")) (Ok "network-0000-0001")
    "event-0001" 5 None place_input State.zero State.zero).
Lemma created_example_ok :
  createNetwork (λ _ _, Ok ("certificate", "key")) Ok (Ok ("public", "sealed")) (Ok "network-0000-0001")
    "event-0001" 5 None place_input State.zero State.zero = Ok (fst created_example, snd created_example).
Proof. vm_compute. reflexivity. Qed.
Definition no_retired : RetiredNetwork.t := RetiredNetwork.make "" "" "" 0 0 0 0 0 0 false false false [].
Definition retired_example : State.t * RetiredNetwork.t :=
  outcome (State.zero, no_retired)
    (retireNetwork "event-0002" 6 None "network-0000-0001" (RetireNetworkInput.make 1 "home") (fst created_example)).
Lemma retired_example_ok :
  retireNetwork "event-0002" 6 None "network-0000-0001" (RetireNetworkInput.make 1 "home") (fst created_example)
  = Ok (fst retired_example, snd retired_example).
Proof. vm_compute. reflexivity. Qed.
Definition other_input : CreateNetworkInput.t := CreateNetworkInput.make "lab" "10.43.0.0/20" 0 0.
Definition again_example : State.t * Network.t :=
  outcome (State.zero, Network.zero) (createNetwork (λ _ _, Ok ("certificate", "key")) Ok (Ok ("public", "sealed")) (Ok "network-0000-0002")
    "event-0003" 7 None other_input (fst retired_example) (fst retired_example)).
Lemma again_example_ok :
  createNetwork (λ _ _, Ok ("certificate", "key")) Ok (Ok ("public", "sealed")) (Ok "network-0000-0002")
    "event-0003" 7 None other_input (fst retired_example) (fst retired_example) = Ok (fst again_example, snd again_example).
Proof. vm_compute. reflexivity. Qed.

Lemma empty_places : places_ok State.zero.
Proof.
  constructor; [by apply Forall_nil|done| |reflexivity]. split_and!; [by apply NoDup_nil|by apply Forall_nil|vm_compute; discriminate].
Qed.
Lemma reservations_stay_valid_witness : validateRetiredNetworkReservations (fst again_example) = Ok tt.
Proof.
  refine (proj1 (reservations_stay_valid State.zero (fst again_example) _ empty_places)).
  apply (rtc_l _ _ (fst created_example)).
  { eapply step_create; [exact created_example_ok|]. split; [apply (bool_decide_unpack _); vm_compute; exact I|].
    intros places Hp. vm_compute in Hp. injection Hp as <-. apply (bool_decide_unpack _). vm_compute. exact I. }
  apply (rtc_l _ _ (fst retired_example)); [eapply step_retire; exact retired_example_ok|]. apply rtc_once.
  eapply step_create; [exact again_example_ok|]. split; [apply (bool_decide_unpack _); vm_compute; exact I|].
  intros places Hp. vm_compute in Hp. injection Hp as <-. apply (bool_decide_unpack _). vm_compute. exact I.
Defined.
Lemma retired_place_not_reused_witness : EqualFold "home" "lab" = false.
Proof.
  refine (proj1 (retired_place_not_reused "event-0002" 6 None "network-0000-0001" (RetireNetworkInput.make 1 "home") (fst created_example)
    (fst retired_example) (snd retired_example) (fst retired_example) (λ _ _, Ok ("certificate", "key")) Ok (Ok ("public", "sealed"))
    (Ok "network-0000-0002") "event-0003" 7 None other_input (fst retired_example) (fst again_example) (snd again_example) 170524672 _ _ _ _)).
  - exact retired_example_ok.
  - reflexivity.
  - exact again_example_ok.
  - split; lia.
Defined.
(** Asking for the retired place again, under another spelling. *)
Example retired_place_refused :
  createNetwork (λ _ _, Ok ("certificate", "key")) Ok (Ok ("public", "sealed")) (Ok "network-0000-0002") "event-0003" 7 None
    (CreateNetworkInput.make "HOME" "10.99.0.0/16" 0 0) (fst retired_example) (fst retired_example) = Err ErrConflict ∧
  createNetwork (λ _ _, Ok ("certificate", "key")) Ok (Ok ("public", "sealed")) (Ok "network-0000-0002") "event-0003" 7 None
    (CreateNetworkInput.make "lab" "10.42.128.0/20" 0 0) (fst retired_example) (fst retired_example) = Err ErrConflict.
Proof. split; vm_compute; reflexivity. Qed.
