(* ===== verification/NodeLifecycle.v ===== *)
(** * The end of a node (internal/control/pending_cancellation.go and
    internal/control/node_archival.go)

    A node that never enrolled can be cancelled; it leaves with its one-time
    bearers.  A revoked node can be archived once every certificate it had has
    expired; until then its blocklist entries are what keeps it out. *)
From S2P Require Import Prelude GoStd Sha256 GoTime IPv4 NetIP Model AuditLog Receipts Routes RouteState Reservations Firewall.
From S2P Require Import RoutePolicies NetworkSettings Render Credentials CARotation Networks.
Open Scope Z_scope.

(** ** Cancelling an enrollment *)
Module CancelPendingNodeInput.
Record t := make { ConfirmationName : string }.
End CancelPendingNodeInput.
Module CancelledPendingNode.
Record t := make {
  NodeID : string; NetworkID : string; Name : string; IP : string; Role : string; CancelledAt : time;
  EnrollmentRecordsInvalidated : Z; RelayAssignmentRemoved : bool; RoutedSubnetReservationsReleased : Z; ConfigRevision : Z }.
End CancelledPendingNode.

Definition cancellable (node : Node.t) : bool :=
  (Node.Status node == "pending") && negb (bool_decide (is_Some (Node.EnrolledAt node))) && (Node.Certificate node == "")
  && (Node.CertificateFingerprint node == "").

(** Leaving the relays is a change of the network's configuration. *)
Definition leave_relays (version : Z) (nodeID : string) (now : time) (network : Network.t) : result (Network.t * bool) :=
  let settings := Network.RelaySettings network in
  if (ControlStateVersionNetworkRelays <=? version) && contains (elems (NetworkRelaySettings.RelayNodeIDs settings)) nodeID then
    let kept := filter (λ id, id ≠ nodeID) (elems (NetworkRelaySettings.RelayNodeIDs settings)) in
    let settings := settings <| NetworkRelaySettings.RelayNodeIDs := Some kept |>
      <| NetworkRelaySettings.Enabled := if (length kept =? 0)%nat then false else NetworkRelaySettings.Enabled settings |> in
    nextRevision ← nextConfigRevision (Network.ConfigRevision network) true;
    Ok (network <| Network.RelaySettings := settings |> <| Network.ConfigRevision := nextRevision |> <| Network.ConfigUpdatedAt := now |>, true)
  else Ok (network, false).

Definition cancelPendingNode (eventID : string) (now : time) (actor : option Actor.t) (nodeID : string)
    (input : CancelPendingNodeInput.t) (state : State.t) : result (State.t * CancelledPendingNode.t) :=
  let nodeID := TrimSpace nodeID in
  let name := CancelPendingNodeInput.ConfirmationName input in
  fail ErrInvalid when negb (validPersistedID nodeID) || negb (namePattern name);;
  fail ErrInvalid when IsZero now;;
  '(i, node) ← of_option (node_at state nodeID) ErrNotFound;
  fail ErrConflict when negb (cancellable node);;
  fail ErrConflict when Node.Name node != name;;
  '(k, network) ← of_option (network_at state (Node.NetworkID node)) ErrNotFound;
  let kept := filter (λ e, EnrollmentToken.NodeID e ≠ Node.ID node) (State.Enrollments state) in
  let invalidated := removed (State.Enrollments state) kept in
  '(network, departed) ← leave_relays (State.Version state) (Node.ID node) now network;
  let routes := Z.of_nat (length (elems (Node.RoutedSubnets node))) in
  event ← newOptionalAttributedAudit eventID now "node.pending_cancelled" "node" (Node.ID node)
    [("network_id", DString (Node.NetworkID node)); ("name", DString (Node.Name node)); ("ip", DString (Node.IP node));
     ("role", DString (Node.Role node)); ("enrollment_records_invalidated", DInt invalidated);
     ("relay_assignment_removed", DBool departed); ("routed_subnet_reservations_released", DInt routes);
     ("config_revision", DInt (Network.ConfigRevision network))] actor;
  Ok (append_audit (put_network state k network <| State.Enrollments := kept |> <| State.Nodes := delete_at i (State.Nodes state) |>) event,
      CancelledPendingNode.make (Node.ID node) (Node.NetworkID node) (Node.Name node) (Node.IP node) (Node.Role node) now invalidated departed
        routes (Network.ConfigRevision network)).

(** ** Archiving a revoked node *)
Definition nodeArchivedAuditAction : string := "node.archived".
Definition nodeArchiveCertificateSafetyMargin : duration := 5 * minute.
Module ArchiveNodeInput.
Record t := make { ExpectedConfigRevision : Z; ConfirmationName : string }.
End ArchiveNodeInput.
Module ArchivedNode.
Record t := make {
  NodeID : string; NetworkID : string; Name : string; IP : string; Role : string; RevokedAt : time; ArchivedAt : time;
  LastCertificateExpiredAt : option time; EnrollmentRecordsRemoved : Z; AgentRecoveryRecordsRemoved : Z;
  CertificateIssuancesRemoved : Z; RevocationsRemoved : Z; BlocklistEntriesRemoved : Z; RoutedSubnetReservationsReleased : Z;
  ConfigRevision : Z }.
End ArchivedNode.

Definition deleteIssuancesForNode (values : list CertificateIssuance.t) (nodeID : string) : list CertificateIssuance.t :=
  filter (λ v, CertificateIssuance.NodeID v ≠ nodeID) values.
Definition deleteRevocationsForNode (values : list CertificateRevocation.t) (nodeID : string) : list CertificateRevocation.t :=
  filter (λ v, CertificateRevocation.NodeID v ≠ nodeID) values.

Definition later (a b : time) : time := if After b a then b else a.
Definition issuance_expiry (nodeID : string) (last : time) (issuance : CertificateIssuance.t) : time :=
  if CertificateIssuance.NodeID issuance == nodeID then later last (CertificateIssuance.ExpiresAt issuance) else last.
Fixpoint revocation_expiry (nodeID : string) (last : time) (revocations : list CertificateRevocation.t) : result time :=
  match revocations with
  | [] => Ok last
  | revocation :: rest =>
      if CertificateRevocation.NodeID revocation != nodeID then revocation_expiry nodeID last rest else
      expiresAt ← of_option (CertificateRevocation.ExpiresAt revocation) ErrConflict;
      revocation_expiry nodeID (later last expiresAt) rest
  end.
(** The last instant at which a certificate of the node was valid; the zero time
    when it had none. *)
Definition last_expiry (state : State.t) (node : Node.t) : result time :=
  revocation_expiry (Node.ID node)
    (foldl (issuance_expiry (Node.ID node)) (default 0 (Node.CertificateExpiresAt node)) (State.Issuances state)) (State.Revocations state).
Definition archivable (now lastExpiry : time) (enrolled : bool) (issuances revocations : Z) : result unit :=
  if enrolled then
    fail ErrConflict when (issuances =? 0) || (revocations =? 0) || IsZero lastExpiry;;
    fail ErrConflict when Before now (lastExpiry + nodeArchiveCertificateSafetyMargin);;
    Ok tt
  else
    fail ErrConflict when negb (issuances =? 0) || negb (revocations =? 0) || negb (IsZero lastExpiry);; Ok tt.

Definition archive_details (networkID name ip role : string) (revokedAt : time) (enrolled : bool) (lastExpiry : time)
    (enrollments recoveries issuances revocations routes configRevision : Z) : details :=
  [("network_id", DString networkID); ("name", DString name); ("ip", DString ip);
   ("role", DString role); ("revoked_at", DString (RFC3339Nano revokedAt)); ("enrolled", DBool enrolled);
   ("last_certificate_expired_at", DString (if IsZero lastExpiry then "" else RFC3339Nano lastExpiry));
   ("enrollment_records_removed", DInt enrollments); ("agent_recovery_records_removed", DInt recoveries);
   ("certificate_issuances_removed", DInt issuances); ("revocations_removed", DInt revocations);
   ("blocklist_entries_removed", DInt revocations);
   ("routed_subnet_reservations_released", DInt routes);
   ("certificate_material_removed", DBool true); ("agent_credentials_invalidated", DBool true);
   ("all_certificate_records_expired", DBool true); ("config_revision", DInt configRevision)].

Definition archiveNode (eventID : string) (now : time) (actor : option Actor.t) (nodeID : string)
    (input : ArchiveNodeInput.t) (state : State.t) : result (State.t * ArchivedNode.t) :=
  let nodeID := TrimSpace nodeID in
  let name := ArchiveNodeInput.ConfirmationName input in
  fail ErrInvalid when negb (validPersistedID nodeID) || (ArchiveNodeInput.ExpectedConfigRevision input <? 1) || negb (namePattern name);;
  fail ErrInvalid when IsZero now;;
  '(i, node) ← of_option (node_at state nodeID) ErrNotFound;
  fail ErrConflict when Node.Status node != "revoked";;
  revokedAt ← of_option (Node.RevokedAt node) ErrConflict;
  fail ErrConflict when Node.Name node != name;;
  '(k, network) ← of_option (network_at state (Node.NetworkID node)) ErrNotFound;
  fail ErrConflict when negb (Network.ConfigRevision network =? ArchiveNodeInput.ExpectedConfigRevision input);;
  fail ErrConflict when firewallPolicyReferencesNode (Network.FirewallPolicy network) (Node.ID node)
    || ((NetworkFirewallRollout.Phase (Network.FirewallRollout network) != "")
        && firewallPolicyReferencesNode (NetworkFirewallRollout.TargetPolicy (Network.FirewallRollout network)) (Node.ID node));;
  lastExpiry ← last_expiry state node;
  let issuances := deleteIssuancesForNode (State.Issuances state) (Node.ID node) in
  let revocations := deleteRevocationsForNode (State.Revocations state) (Node.ID node) in
  let enrollments := deleteEnrollmentsForNodes (State.Enrollments state) [Node.ID node] in
  let recoveries := deleteRecoveriesForNodes (State.AgentRecoveries state) [Node.ID node] in
  let issuanceRecords := removed (State.Issuances state) issuances in
  let revocationRecords := removed (State.Revocations state) revocations in
  _ ← archivable now lastExpiry (bool_decide (is_Some (Node.EnrolledAt node))) issuanceRecords revocationRecords;
  network ← (if 0 <? revocationRecords then
               nextRevision ← nextConfigRevision (Network.ConfigRevision network) true;
               Ok (network <| Network.ConfigRevision := nextRevision |> <| Network.ConfigUpdatedAt := now |>)
             else Ok network);
  let enrollmentRecords := removed (State.Enrollments state) enrollments in
  let recoveryRecords := removed (State.AgentRecoveries state) recoveries in
  event ← newOptionalAttributedAudit eventID now nodeArchivedAuditAction "node" (Node.ID node)
    (archive_details (Node.NetworkID node) (Node.Name node) (Node.IP node) (Node.Role node) revokedAt
       (bool_decide (is_Some (Node.EnrolledAt node))) lastExpiry enrollmentRecords recoveryRecords issuanceRecords revocationRecords
       (Z.of_nat (length (elems (Node.RoutedSubnets node)))) (Network.ConfigRevision network)) actor;
  Ok (append_audit (put_network state k network <| State.Enrollments := enrollments |> <| State.AgentRecoveries := recoveries |>
        <| State.Issuances := issuances |> <| State.Revocations := revocations |>
        <| State.Nodes := delete_at i (State.Nodes state) |>) event,
      ArchivedNode.make (Node.ID node) (Node.NetworkID node) (Node.Name node) (Node.IP node) (Node.Role node) revokedAt now
        (if IsZero lastExpiry then None else Some lastExpiry) enrollmentRecords recoveryRecords issuanceRecords revocationRecords
        revocationRecords (Z.of_nat (length (elems (Node.RoutedSubnets node)))) (Network.ConfigRevision network)).

(** ** Tombstones *)
Definition tombstone_keys : list string :=
  ["network_id"; "name"; "ip"; "role"; "revoked_at"; "enrolled"; "last_certificate_expired_at"; "enrollment_records_removed";
   "agent_recovery_records_removed"; "certificate_issuances_removed"; "revocations_removed"; "blocklist_entries_removed";
   "routed_subnet_reservations_released"; "certificate_material_removed"; "agent_credentials_invalidated";
   "all_certificate_records_expired"; "config_revision"].

Definition validateArchivedNodeTombstone (event : AuditEvent.t) : result unit :=
  let d := elems (AuditEvent.Details event) in
  let invalid := ErrOther "identity or lifecycle details are invalid" in
  let count key := of_option (auditNonNegativeInteger (detail_of d key)) (ErrOther "detail is not a non-negative integer") in
  fail (ErrOther "unexpected or missing detail") when negb (exact_details tombstone_keys d);;
  networkID ← of_option (audit_string (detail_of d "network_id")) invalid;
  name ← of_option (audit_string (detail_of d "name")) invalid;
  ip ← of_option (audit_string (detail_of d "ip")) invalid;
  role ← of_option (audit_string (detail_of d "role")) invalid;
  revokedAt ← of_option (auditRFC3339Time (detail_of d "revoked_at")) invalid;
  lastExpiryText ← of_option (audit_string (detail_of d "last_certificate_expired_at")) invalid;
  enrolled ← of_option (audit_bool (detail_of d "enrolled")) invalid;
  configRevision ← of_option (auditNonNegativeInteger (detail_of d "config_revision")) invalid;
  fail invalid when negb (validPersistedID networkID) || negb (namePattern name) || negb (canonical_ipv4 ip)
    || ((role != "member") && (role != "lighthouse")) || After revokedAt (AuditEvent.At event) || (configRevision <? 1);;
  _ ← count "enrollment_records_removed";
  _ ← count "agent_recovery_records_removed";
  issuances ← count "certificate_issuances_removed";
  revocations ← count "revocations_removed";
  blocklist ← count "blocklist_entries_removed";
  routes ← count "routed_subnet_reservations_released";
  fail (ErrOther "removal counts are inconsistent") when negb (blocklist =? revocations) || (maxRoutedSubnetsPerNode <? routes);;
  fail (ErrOther "detail is not true")
    when negb (forallb (λ key, default false (audit_bool (detail_of d key)))
                 ["certificate_material_removed"; "agent_credentials_invalidated"; "all_certificate_records_expired"]);;
  if negb enrolled then
    fail (ErrOther "never-enrolled tombstone carries certificate history")
      when (lastExpiryText != "") || negb (issuances =? 0) || negb (revocations =? 0);;
    Ok tt
  else
    let early := ErrOther "enrolled tombstone was archived before certificate authority expired" in
    lastExpiry ← of_option (ParseRFC3339Nano lastExpiryText) early;
    fail early when (issuances <? 1) || (revocations <? 1)
      || Before (AuditEvent.At event) (lastExpiry + nodeArchiveCertificateSafetyMargin);;
    Ok tt.

Fixpoint tombstones_loop (state : State.t) (archived : list string) (events : list AuditEvent.t) : result unit :=
  match events with
  | [] => Ok tt
  | event :: rest =>
      if AuditEvent.Action event != nodeArchivedAuditAction then tombstones_loop state archived rest else
      let id := AuditEvent.ResourceID event in
      fail (ErrOther "archived node tombstone has invalid resource metadata")
        when (AuditEvent.Resource event != "node") || negb (validPersistedID id);;
      fail (ErrOther "duplicate archived node tombstone") when contains archived id;;
      fail (ErrOther "archived node tombstone conflicts with live node") when bool_decide (is_Some (findNode state id));;
      _ ← validateArchivedNodeTombstone event;
      tombstones_loop state (id :: archived) rest
  end.
Definition validateArchivedNodeTombstones (state : State.t) : result unit := tombstones_loop state [] (State.Audit state).

(** ** Blocklist entries outlive what they block *)
Lemma later_l a b : a ≤ later a b.
Proof. unfold later, After. case_match; lia. Qed.
Lemma later_r a b : b ≤ later a b.
Proof. unfold later, After. case_match; lia. Qed.

Lemma issuance_expiry_bound nodeID last issuances :
  last ≤ foldl (issuance_expiry nodeID) last issuances ∧
  Forall (λ i, CertificateIssuance.NodeID i = nodeID → CertificateIssuance.ExpiresAt i ≤ foldl (issuance_expiry nodeID) last issuances) issuances.
Proof.
  revert last. induction issuances as [|i l IH]; intros last; [split; [done|constructor]|]. simpl.
  destruct (IH (issuance_expiry nodeID last i)) as [H1 H2].
  assert (last ≤ issuance_expiry nodeID last i) as Hl by (unfold issuance_expiry; case_match; [apply later_l|done]).
  split; [lia|]. constructor; [|done]. intros E. etrans; [|exact H1]. unfold issuance_expiry. rewrite bool_decide_eq_true_2 by done. apply later_r.
Qed.
Lemma revocation_expiry_bound nodeID last revocations t :
  revocation_expiry nodeID last revocations = Ok t →
  last ≤ t ∧ Forall (λ r, CertificateRevocation.NodeID r = nodeID → ∃ e, CertificateRevocation.ExpiresAt r = Some e ∧ e ≤ t) revocations.
Proof.
  revert last. induction revocations as [|r l IH]; intros last; cbn [revocation_expiry]; [intros [= <-]; split; [done|constructor]|].
  case_bool_decide as E; simpl; intros Hc.
  - apply bind_Ok in Hc as (e & He%of_option_Ok & Hc). apply IH in Hc as [H1 H2]. pose proof (later_l last e). pose proof (later_r last e).
    split; [lia|]. constructor; [|done]. intros _. exists e. split; [done|lia].
  - apply IH in Hc as [H1 H2]. split; [done|]. by constructor.
Qed.
Lemma last_expiry_bound state node t :
  last_expiry state node = Ok t →
  (∀ e, Node.CertificateExpiresAt node = Some e → e ≤ t) ∧
  Forall (λ i, CertificateIssuance.NodeID i = Node.ID node → CertificateIssuance.ExpiresAt i ≤ t) (State.Issuances state) ∧
  Forall (λ r, CertificateRevocation.NodeID r = Node.ID node → ∃ e, CertificateRevocation.ExpiresAt r = Some e ∧ e ≤ t) (State.Revocations state).
Proof.
  unfold last_expiry. intros [H1 H2]%revocation_expiry_bound.
  destruct (issuance_expiry_bound (Node.ID node) (default 0 (Node.CertificateExpiresAt node)) (State.Issuances state)) as [H3 H4].
  split_and!; [|by eapply Forall_impl; [exact H4|]; intros i Hi E; specialize (Hi E); lia|done].
  intros e He. rewrite He in H3, H1. simpl in *. lia.
Qed.

(** Nothing was removed. *)
Lemma removed_none {A} (P : A → Prop) `{!∀ x, Decision (P x)} (l : list A) : removed l (filter P l) = 0 → Forall P l.
Proof.
  unfold removed. intros Hz. induction l as [|x l IH]; [constructor|]. rewrite filter_cons in Hz. pose proof (length_filter P l).
  case_decide; simpl in *; [constructor; [done|apply IH; lia]|lia].
Qed.

Lemma archive_call eventID now actor nodeID input state state' receipt :
  archiveNode eventID now actor nodeID input state = Ok (state', receipt) →
  ∃ i node revokedAt lastExpiry network k revision event, node_at state (TrimSpace nodeID) = Some (i, node) ∧ Node.RevokedAt node = Some revokedAt ∧
    Node.Status node = "revoked" ∧ namePattern (Node.Name node) = true ∧ 1 ≤ Network.ConfigRevision network ∧
    last_expiry state node = Ok lastExpiry ∧
    archivable now lastExpiry (bool_decide (is_Some (Node.EnrolledAt node)))
      (removed (State.Issuances state) (deleteIssuancesForNode (State.Issuances state) (Node.ID node)))
      (removed (State.Revocations state) (deleteRevocationsForNode (State.Revocations state) (Node.ID node))) = Ok tt ∧
    network_at state (Node.NetworkID node) = Some (k, network) ∧ (in_int64 (Network.ConfigRevision network) → 1 ≤ revision) ∧
    newOptionalAttributedAudit eventID now nodeArchivedAuditAction "node" (Node.ID node)
      (archive_details (Node.NetworkID node) (Node.Name node) (Node.IP node) (Node.Role node) revokedAt
         (bool_decide (is_Some (Node.EnrolledAt node))) lastExpiry (removed (State.Enrollments state) (deleteEnrollmentsForNodes (State.Enrollments state) [Node.ID node]))
         (removed (State.AgentRecoveries state) (deleteRecoveriesForNodes (State.AgentRecoveries state) [Node.ID node]))
         (removed (State.Issuances state) (deleteIssuancesForNode (State.Issuances state) (Node.ID node)))
         (removed (State.Revocations state) (deleteRevocationsForNode (State.Revocations state) (Node.ID node)))
         (Z.of_nat (length (elems (Node.RoutedSubnets node)))) revision) actor = Ok event ∧
    State.Nodes state' = delete_at i (State.Nodes state) ∧ State.Audit state' = State.Audit state ++ [event] ∧
    State.Revocations state' = deleteRevocationsForNode (State.Revocations state) (Node.ID node) ∧
    State.Issuances state' = deleteIssuancesForNode (State.Issuances state) (Node.ID node).
Proof.
  unfold archiveNode. cbv zeta. intros Hc. apply guard_iff in Hc as [Hg Hc]. apply guard_iff in Hc as [_ Hc].
  apply bind_Ok in Hc as ([i node] & Hi%of_option_Ok & Hc). apply guard_iff in Hc as [Hs Hc].
  apply bind_Ok in Hc as (revokedAt & Hr%of_option_Ok & Hc). apply guard_iff in Hc as [Hn Hc].
  apply bind_Ok in Hc as ([k network] & Hk%of_option_Ok & Hc). apply guard_iff in Hc as [Hrev Hc]. apply guard_iff in Hc as [_ Hc].
  apply bind_Ok in Hc as (lastExpiry & Hl & Hc). apply bind_Ok in Hc as ([] & Ha & Hc). apply bind_Ok in Hc as (network' & Hw & Hc).
  apply bind_Ok in Hc as (event & He & Hc). injection Hc as <- _. split_bools.
  exists i, node, revokedAt, lastExpiry, network, k, (Network.ConfigRevision network'), event.
  split_and!; try done; [congruence|lia|]. intros Hin. destruct (0 <? _) in Hw; [|injection Hw as <-; lia].
  apply bind_Ok in Hw as (r & Hnext & [= <-]). apply nextConfigRevision_Ok in Hnext as [-> _]; [simpl; lia|done].
Qed.

(** Archiving a node takes away blocklist entries, and the records of the
    certificates it had, only of certificates that expired at least five minutes
    ago; the blocklist entries of the other nodes stay. *)
Theorem archived_certificates_expired eventID now actor nodeID input state state' receipt :
  archiveNode eventID now actor nodeID input state = Ok (state', receipt) →
  (∀ r, r ∈ State.Revocations state → r ∈ State.Revocations state' ∨
     CertificateRevocation.NodeID r = TrimSpace nodeID ∧
     ∃ e, CertificateRevocation.ExpiresAt r = Some e ∧ e + 5 * minute ≤ now) ∧
  (∀ i, i ∈ State.Issuances state → i ∈ State.Issuances state' ∨
     CertificateIssuance.NodeID i = TrimSpace nodeID ∧ CertificateIssuance.ExpiresAt i + 5 * minute ≤ now).
Proof.
  intros (i & node & revokedAt & t & network & k & revision & event & Hi & _ & _ & _ & _ & Hl & Ha & _ & _ & _ & _ & _ & Hr & His)%archive_call.
  apply node_at_Some in Hi as [_ Hid]. apply last_expiry_bound in Hl as (_ & Hissued & Hrevoked).
  rewrite Hr, His. unfold deleteRevocationsForNode, deleteIssuancesForNode in *. rewrite <- Hid. rewrite Forall_forall in Hissued. rewrite Forall_forall in Hrevoked.
  destruct (bool_decide (is_Some (Node.EnrolledAt node))); simpl in Ha.
  - apply guard_iff in Ha as [_ Ha]. apply guard_iff in Ha as [Hb _].
    unfold Before, nodeArchiveCertificateSafetyMargin in Hb. apply Z.ltb_ge in Hb. split.
    + intros r Hin. destruct (decide (CertificateRevocation.NodeID r = Node.ID node)) as [E|E].
      * right. split; [done|]. destruct (Hrevoked r Hin E) as (e & He & Hle). exists e. split; [done|lia].
      * left. apply list_elem_of_filter. done.
    + intros x Hin. destruct (decide (CertificateIssuance.NodeID x = Node.ID node)) as [E|E].
      * right. split; [done|]. specialize (Hissued x Hin E). lia.
      * left. apply list_elem_of_filter. done.
  - apply guard_iff in Ha as [Hz _]. split_bools. split.
    + intros r Hin. left. apply list_elem_of_filter. split; [|done].
      assert (Forall (λ v, CertificateRevocation.NodeID v ≠ Node.ID node) (State.Revocations state)) as Hf by (apply (removed_none _); lia).
      rewrite Forall_forall in Hf. by apply Hf.
    + intros x Hin. left. apply list_elem_of_filter. split; [|done].
      assert (Forall (λ v, CertificateIssuance.NodeID v ≠ Node.ID node) (State.Issuances state)) as Hf by (apply (removed_none _); lia).
      rewrite Forall_forall in Hf. by apply Hf.
Qed.

(** ** Tombstones stay valid *)
Lemma findNode_deleted state state' i node :
  NoDup (Node.ID <$> State.Nodes state) → State.Nodes state !! i = Some node → State.Nodes state' = delete_at i (State.Nodes state) →
  ∀ id, findNode state' id = None ↔ id = Node.ID node ∨ findNode state id = None.
Proof.
  intros Hnd Hi Hn id.
  assert (∀ s, findNode s id = None ↔ id ∉ (Node.ID <$> State.Nodes s)) as Hnone.
  { intros s. unfold findNode. rewrite fmap_None, list_find_None, Forall_forall, list_elem_of_fmap. naive_solver. }
  rewrite !Hnone, Hn. pose proof (delete_Permutation _ _ _ Hi) as Hp. rewrite delete_take_drop in Hp. fold (delete_at i (State.Nodes state)) in Hp.
  set (kept := delete_at i (State.Nodes state)) in *. clearbody kept. rewrite Hp, fmap_cons in Hnd. apply NoDup_cons in Hnd as [Hnotin _].
  assert (id ∉ (Node.ID <$> State.Nodes state) ↔ id ≠ Node.ID node ∧ id ∉ (Node.ID <$> kept)) as -> by (rewrite Hp, fmap_cons; apply not_elem_of_cons).
  destruct (decide (id = Node.ID node)) as [->|]; tauto.
Qed.

(** What the store's check of the graph ensures of a revoked node, as far as its
    tombstone repeats it. *)
Definition tombstone_ready (now : time) (state : State.t) (node : Node.t) : Prop :=
  validPersistedID (Node.ID node) = true ∧ validPersistedID (Node.NetworkID node) = true ∧ canonical_ipv4 (Node.IP node) = true ∧
  (Node.Role node = "member" ∨ Node.Role node = "lighthouse") ∧
  Z.of_nat (length (elems (Node.RoutedSubnets node))) ≤ maxRoutedSubnetsPerNode ∧
  (∀ at_, Node.RevokedAt node = Some at_ → valid_time at_ ∧ 0 < at_ ≤ now) ∧
  (∀ t, last_expiry state node = Ok t → valid_time t) ∧
  (∀ network, findNetwork state (Node.NetworkID node) = Some network → in_int64 (Network.ConfigRevision network)).

Lemma archived_tombstone eventID now id networkID name ip role revokedAt enrolled lastExpiry enrollments recoveries issuances revocations
    routes revision actor event :
  newOptionalAttributedAudit eventID now nodeArchivedAuditAction "node" id
    (archive_details networkID name ip role revokedAt enrolled lastExpiry enrollments recoveries issuances revocations routes revision) actor = Ok event →
  validPersistedID networkID = true → canonical_ipv4 ip = true → namePattern name = true → role = "member" ∨ role = "lighthouse" →
  valid_time revokedAt → 0 < revokedAt ≤ now → valid_time lastExpiry → 1 ≤ revision → 0 ≤ routes ≤ maxRoutedSubnetsPerNode →
  Forall (λ z, 0 ≤ z) [enrollments; recoveries; issuances; revocations] →
  archivable now lastExpiry enrolled issuances revocations = Ok tt →
  validateArchivedNodeTombstone event = Ok tt.
Proof.
  intros He Hnet Hip Hname Hrole Hrv Hrt Hlv Hrev Hroutes Hnn Ha.
  pose proof (audit_metadata _ _ _ _ _ _ _ _ He) as (_ & _ & _ & Hat & _).
  assert (∀ z, 0 ≤ z → auditNonNegativeInteger (Some (DInt z)) = Some z) as Hint
    by (intros z Hz; unfold auditNonNegativeInteger; by rewrite (proj2 (Z.leb_le 0 z) Hz)).
  assert (auditRFC3339Time (Some (DString (RFC3339Nano revokedAt))) = Some revokedAt) as Htime.
  { unfold auditRFC3339Time. rewrite ParseRFC3339Nano_format by done. simpl. unfold IsZero. by replace (revokedAt =? 0) with false by lia. }
  repeat (apply Forall_cons in Hnn as [? Hnn]).
  unfold validateArchivedNodeTombstone. cbv zeta.
  rewrite (exact_details_made tombstone_keys _ _ _ _ _ _ _ _ He) by ((vm_compute; reflexivity) || (apply (bool_decide_unpack _); vm_compute; exact I)).
  cbn [forallb].
  repeat match goal with |- context [detail_of (elems (AuditEvent.Details event)) ?key] =>
    rewrite (audit_detail _ _ _ _ _ _ _ _ key He) by (apply (bool_decide_unpack _); vm_compute; exact I) end.
  repeat match goal with |- context [detail_of (archive_details ?a ?b ?c ?d ?e ?f ?g ?h ?i ?j ?k ?l ?m) ?key] =>
    let v := eval cbv -[RFC3339Nano IsZero] in (detail_of (archive_details a b c d e f g h i j k l m) key) in
    change (detail_of (archive_details a b c d e f g h i j k l m) key) with v end.
  rewrite !Hint, Htime by lia. cbn -[validPersistedID namePattern canonical_ipv4 After Before IsZero RFC3339Nano ParseRFC3339Nano maxRoutedSubnetsPerNode nodeArchiveCertificateSafetyMargin Z.add Z.ltb Z.eqb].
  rewrite Hnet, Hname, Hip, Hat. unfold After. rewrite Z.eqb_refl.
  replace (now <? revokedAt) with false by lia. replace (revision <? 1) with false by lia.
  replace (maxRoutedSubnetsPerNode <? routes) with false by lia.
  replace ((role != "member") && (role != "lighthouse")) with false
    by (destruct Hrole as [-> | ->]; symmetry; apply andb_false_iff; [left|right]; by rewrite bool_decide_eq_true_2).
  destruct enrolled; simpl negb; cbv iota; simpl in Ha; cbn [orb].
  - apply guard_iff in Ha as [Hz Ha]. apply guard_iff in Ha as [Hb _]. split_bools.
    rewrite H4, ParseRFC3339Nano_format by done. simpl. rewrite Hb.
    replace (issuances <? 1) with false by lia. by replace (revocations <? 1) with false by lia.
  - apply guard_iff in Ha as [Hz _]. split_bools. rewrite H4. simpl.
    replace (issuances =? 0) with true by lia. by replace (revocations =? 0) with true by lia.
Qed.

Lemma tombstones_loop_nodes state state' archived events :
  (∀ id, findNode state id = None → findNode state' id = None) →
  tombstones_loop state archived events = Ok tt → tombstones_loop state' archived events = Ok tt.
Proof.
  intros Hgone. revert archived. induction events as [|e rest IH]; intros archived; cbn [tombstones_loop]; [done|].
  destruct (_ != _); [apply IH|]. intros Hc. apply guard_iff in Hc as [-> Hc]. apply guard_iff in Hc as [-> Hc].
  apply guard_iff in Hc as [Hf Hc]. apply bind_Ok in Hc as ([] & -> & Hc). apply IH in Hc. rewrite Hc.
  apply bool_decide_eq_false in Hf. rewrite Hgone by (destruct (findNode state _); [by destruct Hf|done]). done.
Qed.
Lemma tombstones_loop_snoc state archived events event :
  tombstones_loop state archived events = Ok tt → AuditEvent.Action event = nodeArchivedAuditAction → AuditEvent.Resource event = "node" →
  validPersistedID (AuditEvent.ResourceID event) = true → findNode state (AuditEvent.ResourceID event) = None →
  (∀ e, e ∈ events → AuditEvent.Action e = nodeArchivedAuditAction → AuditEvent.ResourceID e ≠ AuditEvent.ResourceID event) →
  (AuditEvent.ResourceID event ∉ archived) →
  validateArchivedNodeTombstone event = Ok tt → tombstones_loop state archived (events ++ [event]) = Ok tt.
Proof.
  intros Hl Ha Hr Hid Hf Hnew Hna Hv. revert archived Hl Hna. induction events as [|e rest IH]; intros archived Hl Hna; simpl app; cbn [tombstones_loop] in *.
  - rewrite Ha, Hr, Hid, Hf, Hv. unfold contains. by rewrite (bool_decide_eq_false_2 (AuditEvent.ResourceID event ∈ archived)).
  - assert (∀ e, e ∈ rest → AuditEvent.Action e = nodeArchivedAuditAction → AuditEvent.ResourceID e ≠ AuditEvent.ResourceID event) as Hnew'
      by (intros e' He'; apply Hnew; by right).
    case_bool_decide as E; cbn [negb] in *; [|by apply (IH Hnew')].
    apply guard_iff in Hl as [-> Hl]. apply guard_iff in Hl as [-> Hl]. apply guard_iff in Hl as [-> Hl]. apply bind_Ok in Hl as ([] & -> & Hl).
    simpl. apply (IH Hnew'); [done|]. apply not_elem_of_cons. split; [|done]. apply not_eq_sym, Hnew; [by left|done].
Qed.
Lemma tombstone_gone state archived events e :
  tombstones_loop state archived events = Ok tt → e ∈ events → AuditEvent.Action e = nodeArchivedAuditAction →
  findNode state (AuditEvent.ResourceID e) = None.
Proof.
  revert archived. induction events as [|x rest IH]; intros archived Hl Hin Ha; [by apply elem_of_nil in Hin|]. cbn [tombstones_loop] in Hl.
  apply elem_of_cons in Hin as [<-|Hin].
  - rewrite bool_decide_eq_true_2 in Hl by done. simpl in Hl. apply guard_iff in Hl as [_ Hl]. apply guard_iff in Hl as [_ Hl].
    apply guard_iff in Hl as [Hf _]. apply bool_decide_eq_false in Hf. destruct (findNode _ _); [by destruct Hf|done].
  - destruct (_ != _) in Hl; [by eapply IH|]. apply guard_iff in Hl as [_ Hl]. apply guard_iff in Hl as [_ Hl].
    apply guard_iff in Hl as [_ Hl]. apply bind_Ok in Hl as ([] & _ & Hl). by eapply IH.
Qed.

(** An archived identity is gone for good: no node has it, its tombstone says so,
    and the log of tombstones stays one the store accepts. *)
Theorem archived_identity_is_buried eventID now actor nodeID input state state' receipt :
  archiveNode eventID now actor nodeID input state = Ok (state', receipt) →
  NoDup (Node.ID <$> State.Nodes state) → validateArchivedNodeTombstones state = Ok tt →
  (∀ node, findNode state (TrimSpace nodeID) = Some node → tombstone_ready now state node) →
  findNode state' (TrimSpace nodeID) = None ∧ validateArchivedNodeTombstones state' = Ok tt ∧
  ∃ event, event ∈ State.Audit state' ∧ AuditEvent.Action event = nodeArchivedAuditAction ∧ AuditEvent.ResourceID event = TrimSpace nodeID.
Proof.
  intros (i & node & revokedAt & t & network & k & revision & event & Hi & Hra & _ & Hname & _ & Hl & Ha & Hk & Hrev & He & Hn & Haudit & _)%archive_call
    Hnd Htomb Hready.
  destruct (Hready node (node_at_find _ _ _ _ Hi)) as (Hid & Hnet & Hip & Hrole & Hroutes & Hrt & Hlt & Hin).
  pose proof (node_at_Some _ _ _ _ Hi) as [Hi' Enode]. pose proof (audit_metadata _ _ _ _ _ _ _ _ He) as (Eact & Eres & Erid & _).
  assert (∀ id, findNode state' id = None ↔ id = Node.ID node ∨ findNode state id = None) as Hgone by (by eapply findNode_deleted).
  assert (findNode state' (Node.ID node) = None) as Hdead by (apply Hgone; by left).
  rewrite <- Enode. split_and!; [done| |by exists event; rewrite Haudit; split_and!; [apply elem_of_app; right; by apply list_elem_of_singleton|..]].
  unfold validateArchivedNodeTombstones in *. rewrite Haudit. apply tombstones_loop_snoc; [|done|done|by rewrite Erid|by rewrite Erid| |by apply not_elem_of_nil|].
  - eapply tombstones_loop_nodes; [|exact Htomb]. intros id Hnone. apply Hgone. by right.
  - intros e Hin' Hea. rewrite Erid. intros E. pose proof (tombstone_gone _ _ _ _ Htomb Hin' Hea) as Hg. rewrite E in Hg.
    apply node_at_find in Hi. congruence.
  - destruct (Hrt _ Hra). eapply archived_tombstone; try done; [by apply Hlt| |lia|].
    + apply Hrev. apply Hin. by eapply network_at_find.
    + rewrite !Forall_cons, Forall_nil. split_and!; try done; apply filter_removed.
Qed.

(** ** Examples *)
Definition end_time : time := 63900000000 * second.
Definition old_node : Node.t :=
  Node.zero <| Node.ID := "node-1" |> <| Node.NetworkID := "net" |> <| Node.Name := "gateway" |> <| Node.IP := "10.42.0.10" |>
    <| Node.Role := "member" |> <| Node.Status := "revoked" |> <| Node.EnrolledAt := Some 1 |> <| Node.RevokedAt := Some (end_time - 100 * second) |>
    <| Node.CertificateExpiresAt := Some (end_time - 50 * second) |>.
Definition old_revocation (node fingerprint : string) (expiresAt : time) : CertificateRevocation.t :=
  CertificateRevocation.make fingerprint node "net" "node revoked" (end_time - 100 * second) (Some expiresAt).
Definition ending_state : State.t :=
  State.zero <| State.Networks := [Network.zero <| Network.ID := "net" |> <| Network.ConfigRevision := 3 |>] |> <| State.Nodes := [old_node] |>
    <| State.Issuances := [CertificateIssuance.make "f1" "node-1" "net" 1 (end_time - 50 * second)] |>
    <| State.Revocations := [old_revocation "node-1" "f1" (end_time - 50 * second); old_revocation "node-2" "f2" (end_time + day)] |>.
Definition archive_input : ArchiveNodeInput.t := ArchiveNodeInput.make 3 "gateway".
Definition no_archived : ArchivedNode.t := ArchivedNode.make "" "" "" "" "" 0 0 None 0 0 0 0 0 0 0.
Definition archived_example : State.t * ArchivedNode.t :=
  outcome (State.zero, no_archived) (archiveNode "event-1" (end_time + 10 * minute) None "node-1" archive_input ending_state).
Lemma archived_example_ok :
  archiveNode "event-1" (end_time + 10 * minute) None "node-1" archive_input ending_state = Ok (fst archived_example, snd archived_example).
Proof. vm_compute. reflexivity. Qed.
(** Too early: the certificate has only just expired. *)
Example archive_too_early : archiveNode "event-1" end_time None "node-1" archive_input ending_state = Err ErrConflict.
Proof. vm_compute. reflexivity. Qed.

Lemma archived_certificates_expired_witness :
  old_revocation "node-1" "f1" (end_time - 50 * second) ∈ State.Revocations (fst archived_example) ∨
  CertificateRevocation.NodeID (old_revocation "node-1" "f1" (end_time - 50 * second)) = TrimSpace "node-1" ∧
  ∃ e, CertificateRevocation.ExpiresAt (old_revocation "node-1" "f1" (end_time - 50 * second)) = Some e ∧ e + 5 * minute ≤ end_time + 10 * minute.
Proof.
  refine (proj1 (archived_certificates_expired "event-1" (end_time + 10 * minute) None "node-1" archive_input ending_state
    (fst archived_example) (snd archived_example) archived_example_ok) (old_revocation "node-1" "f1" (end_time - 50 * second)) _).
  by left.
Defined.
Lemma archived_identity_is_buried_witness :
  findNode (fst archived_example) (TrimSpace "node-1") = None ∧ validateArchivedNodeTombstones (fst archived_example) = Ok tt.
Proof.
  destruct (archived_identity_is_buried "event-1" (end_time + 10 * minute) None "node-1" archive_input ending_state
    (fst archived_example) (snd archived_example) archived_example_ok) as (H1 & H2 & _).
  - apply (bool_decide_unpack _). vm_compute. exact I.
  - reflexivity.
  - intros node Hn. vm_compute in Hn. injection Hn as <-. split_and!.
    + vm_compute. reflexivity.
    + vm_compute. reflexivity.
    + vm_compute. reflexivity.
    + by left.
    + vm_compute. discriminate.
    + intros at_ Ha. injection Ha as <-. vm_compute. split; split; congruence.
    + intros t Ht. vm_compute in Ht. injection Ht as <-. vm_compute. split; congruence.
    + intros network Hn. vm_compute in Hn. injection Hn as <-. vm_compute. split; congruence.
  - exact (conj H1 H2).
Defined.
