(* ===== verification/FirewallRollout.v ===== *)
(** * Firewall rollouts (internal/control/firewall_rollout.go, and updateFirewallPolicy
    of internal/control/service.go)

    A new firewall policy is first rendered to a few canary nodes only.  It becomes
    the policy of the network when every canary has applied it; until then it can be
    paused, rolled back by an administrator, or rolled back by the evidence of a
    failing canary. *)
From S2P Require Import Prelude GoStd IPv4 Model AuditLog Routes RouteState Reservations Firewall.
From S2P Require Import RoutePolicies NetworkSettings Render Credentials.

Definition maxFirewallRolloutCanaries : Z := 16.
Definition ConfigApplyFailureCodeActivation : string := "activation_failed".
Definition stableFirewallRolloutPhase (phase : string) : string := if phase == "" then "stable" else phase.

(** ** The digest of a policy (firewall.go)

    [json.Marshal] of a scoped policy: the validated fields hold no character that
    JSON escapes; empty selectors are omitted. *)
Definition omitted (name value : string) : list string := if value == "" then [] else [json_field name (quoted value)].
Definition rule_json (rule : FirewallRule.t) : string :=
  json_object ([json_field "proto" (quoted (FirewallRule.Proto rule)); json_field "port" (quoted (FirewallRule.Port rule))] ++
    omitted "group" (FirewallRule.Group rule) ++ omitted "host" (FirewallRule.Host rule) ++
    omitted "peer_node_id" (FirewallRule.PeerNodeID rule) ++ omitted "target_group" (FirewallRule.TargetGroup rule) ++
    omitted "target_node_id" (FirewallRule.TargetNodeID rule)).
Definition rules_json (rules : slice FirewallRule.t) : string :=
  match rules with None => "null" | Some l => "[" +:+ join "," (rule_json <$> l) +:+ "]" end.
Definition firewallPolicySHA256 (policy : FirewallPolicy.t) : string :=
  if negb (firewallPolicyUsesNodeScopes policy) then ConfigDigest (renderFirewallPolicy policy)
  else ConfigDigest ("mesh-firewall-policy-v1" +:+ nl +:+
    json_object [json_field "mode" (quoted (FirewallPolicy.Mode policy));
                 json_field "renderer_version" (Itoa (FirewallPolicy.RendererVersion policy));
                 json_field "inbound" (rules_json (FirewallPolicy.Inbound policy));
                 json_field "outbound" (rules_json (FirewallPolicy.Outbound policy))]).

(** ** The record *)
Definition zeroFirewallPolicy (policy : FirewallPolicy.t) : bool :=
  (FirewallPolicy.Mode policy == "") && (FirewallPolicy.RendererVersion policy =? 0)
  && is_nil (FirewallPolicy.Inbound policy) && is_nil (FirewallPolicy.Outbound policy).
Definition zeroNetworkFirewallRollout (rollout : NetworkFirewallRollout.t) : bool :=
  (NetworkFirewallRollout.Phase rollout == "") && zeroFirewallPolicy (NetworkFirewallRollout.TargetPolicy rollout)
  && is_nil (NetworkFirewallRollout.CanaryNodeIDs rollout) && IsZero (NetworkFirewallRollout.StartedAt rollout)
  && IsZero (NetworkFirewallRollout.PausedAt rollout) && (NetworkFirewallRollout.StageConfigRevision rollout =? 0).

(** [slices.IsSorted] *)
Fixpoint is_sorted (l : list string) : bool :=
  match l with
  | a :: (b :: _) as rest => str_le a b && is_sorted rest
  | _ => true
  end.
Definition canary_active (state : State.t) (networkID nodeID : string) : bool :=
  match findNode state nodeID with
  | Some node => (Node.NetworkID node == networkID) && (Node.Status node == "active")
  | None => false
  end.

Fixpoint validate_canaries (state : State.t) (networkID : string) (previous : option string) (ids : list string) : result unit :=
  match ids with
  | [] => Ok tt
  | nodeID :: rest =>
      fail (ErrOther "firewall rollout canary selection is not canonical")
        when negb (validPersistedID nodeID) || (previous == Some nodeID);;
      fail (ErrOther "firewall rollout canary is not an active node in the network")
        when negb (canary_active state networkID nodeID);;
      validate_canaries state networkID (Some nodeID) rest
  end.

Definition validateNetworkFirewallRollout (state : State.t) (network : Network.t) : result unit :=
  let rollout := Network.FirewallRollout network in
  let phase := NetworkFirewallRollout.Phase rollout in
  let target := NetworkFirewallRollout.TargetPolicy rollout in
  let canaries := elems (NetworkFirewallRollout.CanaryNodeIDs rollout) in
  let paused := negb (IsZero (NetworkFirewallRollout.PausedAt rollout)) in
  let before_pause := State.Version state <? ControlStateVersionFirewallPause in
  if phase == "" then
    fail (ErrOther "stable firewall rollout must have no transition metadata") when negb (zeroNetworkFirewallRollout rollout);;
    Ok tt
  else
  fail (ErrOther "firewall rollout phase is invalid")
    when (phase != FirewallRolloutPhaseCanary) && (before_pause || (phase != FirewallRolloutPhasePaused));;
  fail (ErrOther "firewall rollout pause metadata exists before control state v8") when before_pause && paused;;
  fail (ErrOther "firewall rollout pause metadata is inconsistent")
    when ((phase == FirewallRolloutPhaseCanary) && paused) || ((phase == FirewallRolloutPhasePaused) && negb paused);;
  fail (ErrOther "firewall rollout cannot overlap a CA rotation")
    when NetworkCARotation.Phase (Network.CARotation network) != "";;
  fail (ErrOther "firewall rollout lifecycle metadata is invalid")
    when IsZero (NetworkFirewallRollout.StartedAt rollout) || (NetworkFirewallRollout.StageConfigRevision rollout <? 1)
      || (Network.ConfigRevision network <? NetworkFirewallRollout.StageConfigRevision rollout);;
  _ ← validateStoredFirewallPolicy target (Network.CIDR network);
  _ ← validateFirewallPolicyReferences state network target;
  fail (ErrOther "firewall rollout target equals the active policy")
    when sameEffectiveFirewallPolicy (Network.FirewallPolicy network) target;;
  fail (ErrOther "firewall rollout target blocks managed network DNS")
    when NetworkDNSSettings.Enabled (Network.DNSSettings network) &&
      negb (firewallAllowsNetworkDNS target (Network.CIDR network) (NetworkDNSSettings.ListenPort (Network.DNSSettings network)));;
  fail (ErrOther "firewall rollout canary selection is invalid")
    when (length canaries <? 1)%nat || (maxFirewallRolloutCanaries <? Z.of_nat (length canaries)) || negb (is_sorted canaries);;
  validate_canaries state (Network.ID network) None canaries.

(** A canary has applied the exact signed target configuration. *)
Definition firewallRolloutNodeConverged (state : State.t) (network : Network.t) (node : Node.t) : bool :=
  let rollout := Network.FirewallRollout network in
  if (NetworkFirewallRollout.Phase rollout != FirewallRolloutPhaseCanary) || (Node.Status node != "active")
     || negb (contains (elems (NetworkFirewallRollout.CanaryNodeIDs rollout)) (Node.ID node)) then false
  else
    (Node.AppliedConfigRevision node =? Network.ConfigRevision network) &&
    (Node.AppliedConfigSHA256 node == ConfigDigest (renderConfig state network node)) &&
    (Node.AppliedCertificateGeneration node =? Node.CertificateGeneration node) &&
    (Node.ReportedCertificateFingerprint node == Node.CertificateFingerprint node) && Node.NebulaRunning node.

(** ** The last transition *)
Module FirewallRolloutTransition.
Record t := make { Action : string; At : time; ReasonCode : string; NodeID : string }.
End FirewallRolloutTransition.

Definition rollout_actions : list (string * string) :=
  [("network.firewall_rollout_started", "started"); ("network.firewall_rollout_canary_removed", "canary_removed");
   ("network.firewall_rollout_paused", "paused"); ("network.firewall_rollout_resumed", "resumed");
   ("network.firewall_rollout_promoted", "promoted"); ("network.firewall_rollout_rolled_back", "rolled_back");
   ("network.firewall_rollout_auto_rolled_back", "auto_rolled_back")].
(** [value, _ := details[key].(string)] *)
Definition detail_string (d : list (string * detail)) (key : string) : string :=
  match detail_of d key with Some (DString s) => s | _ => "" end.
Definition rollout_transition (networkID : string) (event : AuditEvent.t) : option FirewallRolloutTransition.t :=
  if (AuditEvent.Resource event != "network") || (AuditEvent.ResourceID event != networkID) then None else
  match list_find (λ a, fst a = AuditEvent.Action event) rollout_actions with
  | Some (_, (_, action)) =>
      let details := elems (AuditEvent.Details event) in
      let failed := detail_string details "failed_node_id" in
      Some (FirewallRolloutTransition.make action (AuditEvent.At event) (detail_string details "reason_code")
              (if failed == "" then detail_string details "node_id" else failed))
  | None => None
  end.
Definition firewallRolloutLastTransition (state : State.t) (networkID : string) : option FirewallRolloutTransition.t :=
  head (omap (rollout_transition networkID) (reverse (State.Audit state))).

(** ** Rolling back on evidence *)
Definition rolled_back (network : Network.t) (revision : Z) (now : time) : Network.t :=
  network <| Network.FirewallRollout := NetworkFirewallRollout.zero |> <| Network.ConfigRevision := revision |>
          <| Network.ConfigUpdatedAt := now |>.

Definition autoRollbackFirewallRollout (eventID : string) (state : State.t) (index : nat) (network : Network.t) (node : Node.t)
    (now : time) (reasonCode : string) (evidence : list (string * detail)) : result State.t :=
  let rollout := Network.FirewallRollout network in
  fail ErrConflict when (NetworkFirewallRollout.Phase rollout != FirewallRolloutPhaseCanary)
    || negb (contains (elems (NetworkFirewallRollout.CanaryNodeIDs rollout)) (Node.ID node));;
  nextRevision ← nextConfigRevision (Network.ConfigRevision network) true;
  event ← newAttributedAudit eventID now "network.firewall_rollout_auto_rolled_back" "network" (Network.ID network)
    ([("previous_config_revision", DInt (Network.ConfigRevision network)); ("config_revision", DInt nextRevision);
      ("failed_node_id", DString (Node.ID node)); ("reason_code", DString reasonCode);
      ("canary_nodes", DInt (Z.of_nat (length (elems (NetworkFirewallRollout.CanaryNodeIDs rollout)))));
      ("retained_sha256", DString (firewallPolicySHA256 (Network.FirewallPolicy network)));
      ("discarded_sha256", DString (firewallPolicySHA256 (NetworkFirewallRollout.TargetPolicy rollout)))] ++ evidence)
    (Actor.make (Node.ID node) ActorKindNodeAgent "");
  Ok (append_audit (put_network state index (rolled_back network nextRevision now)) event).

Definition canonicalCanaryNodeIDs (input : slice string) : result (list string) :=
  let ids := elems input in
  fail ErrInvalid when is_nil input || (length ids <? 1)%nat || (maxFirewallRolloutCanaries <? Z.of_nat (length ids));;
  fail ErrInvalid when negb (forallb validPersistedID ids);;
  let sorted := sort_by str_le ids in
  fail ErrInvalid when adjacent_equal sorted;;
  Ok sorted.

(** ** Updating a rollout *)
Module UpdateNetworkFirewallRolloutInput.
Record t := make {
  Action : string; ExpectedConfigRevision : Z; CanaryNodeIDs : slice string;
  Inbound : slice FirewallRule.t; Outbound : slice FirewallRule.t }.
End UpdateNetworkFirewallRolloutInput.

Definition rollout_schema (state : State.t) : bool :=
  contains [ControlStateVersionFirewallPause; ControlStateVersionRouteTransfer; ControlStateVersionRouteProfileEdit;
            ControlStateVersionRoutePolicies; ControlStateVersionNativeDNS; ControlStateVersionFirewallScopes] (State.Version state).

(** What both ways of changing the policy ask of it. *)
Definition check_new_policy (state : State.t) (network : Network.t) (policy : FirewallPolicy.t) : result unit :=
  _ ← validateFirewallPolicyReferences state network policy;
  fail ErrConflict when firewallPolicyUsesNodeScopes policy && (State.Version state <? ControlStateVersionFirewallScopes);;
  Ok tt.
Definition blocks_dns (network : Network.t) (policy : FirewallPolicy.t) : bool :=
  NetworkDNSSettings.Enabled (Network.DNSSettings network) &&
  negb (firewallAllowsNetworkDNS policy (Network.CIDR network) (NetworkDNSSettings.ListenPort (Network.DNSSettings network))).

Definition policy_sha (name : string) (policy : FirewallPolicy.t) : string * detail :=
  (name, DString (firewallPolicySHA256 policy)).
Definition canary_count (rollout : NetworkFirewallRollout.t) : string * detail :=
  ("canary_nodes", DInt (Z.of_nat (length (elems (NetworkFirewallRollout.CanaryNodeIDs rollout))))).

Definition start_rollout (now : time) (canaryNodeIDs : list string) (inbound outbound : slice FirewallRule.t) (revision : Z)
    (state : State.t) (network : Network.t) : result (Network.t * string * list (string * detail)) :=
  fail ErrConflict when (NetworkCARotation.Phase (Network.CARotation network) != "")
    || (NetworkFirewallRollout.Phase (Network.FirewallRollout network) != "")
    || routeTransferActive (Network.RouteTransfer network) || routeProfileEditActive (Network.RouteProfileEdit network);;
  target ← normalizeFirewallPolicy (FirewallPolicyInput.make inbound outbound) (Network.CIDR network);
  _ ← check_new_policy state network target;
  fail ErrConflict when sameEffectiveFirewallPolicy (Network.FirewallPolicy network) target;;
  fail ErrConflict when blocks_dns network target;;
  fail ErrConflict when negb (forallb (canary_active state (Network.ID network)) canaryNodeIDs);;
  Ok (network <| Network.FirewallRollout := NetworkFirewallRollout.make FirewallRolloutPhaseCanary target
                   (Some canaryNodeIDs) now 0 revision |>,
      "network.firewall_rollout_started",
      [policy_sha "old_sha256" (Network.FirewallPolicy network); policy_sha "target_sha256" target;
       ("canary_node_ids", DArray (DString <$> canaryNodeIDs)); ("canary_nodes", DInt (Z.of_nat (length canaryNodeIDs)));
       ("inbound_rules", DInt (Z.of_nat (length (elems (FirewallPolicy.Inbound target)))));
       ("outbound_rules", DInt (Z.of_nat (length (elems (FirewallPolicy.Outbound target)))))]).

(** The other actions. *)
Definition continue_rollout (action : string) (now : time) (revision : Z) (state : State.t) (network : Network.t) :
    result (Network.t * string * list (string * detail)) :=
  let rollout := Network.FirewallRollout network in
  let phase := NetworkFirewallRollout.Phase rollout in
  let target := NetworkFirewallRollout.TargetPolicy rollout in
  if action == "promote" then
    fail ErrConflict when phase != FirewallRolloutPhaseCanary;;
    fail ErrConflict when negb (forallb (λ nodeID, match findNode state nodeID with
                                                   | Some node => firewallRolloutNodeConverged state network node
                                                   | None => false
                                                   end) (elems (NetworkFirewallRollout.CanaryNodeIDs rollout)));;
    Ok (network <| Network.FirewallPolicy := target |> <| Network.FirewallRollout := NetworkFirewallRollout.zero |>,
        "network.firewall_rollout_promoted",
        [policy_sha "old_sha256" (Network.FirewallPolicy network); policy_sha "new_sha256" target; canary_count rollout])
  else if action == "pause" then
    fail ErrConflict when phase != FirewallRolloutPhaseCanary;;
    Ok (network <| Network.FirewallRollout := rollout <| NetworkFirewallRollout.Phase := FirewallRolloutPhasePaused |>
                     <| NetworkFirewallRollout.PausedAt := now |> |>,
        "network.firewall_rollout_paused",
        [policy_sha "target_sha256" target; policy_sha "retained_sha256" (Network.FirewallPolicy network); canary_count rollout])
  else if action == "resume" then
    fail ErrConflict when phase != FirewallRolloutPhasePaused;;
    Ok (network <| Network.FirewallRollout := rollout <| NetworkFirewallRollout.Phase := FirewallRolloutPhaseCanary |>
                     <| NetworkFirewallRollout.PausedAt := 0 |> <| NetworkFirewallRollout.StageConfigRevision := revision |> |>,
        "network.firewall_rollout_resumed", [policy_sha "target_sha256" target; canary_count rollout])
  else
    fail ErrConflict when (phase != FirewallRolloutPhaseCanary) && (phase != FirewallRolloutPhasePaused);;
    Ok (network <| Network.FirewallRollout := NetworkFirewallRollout.zero |>, "network.firewall_rollout_rolled_back",
        [policy_sha "retained_sha256" (Network.FirewallPolicy network); policy_sha "discarded_sha256" target; canary_count rollout]).

Definition updateNetworkFirewallRollout (eventID : string) (now : time) (actor : option Actor.t) (networkID : string)
    (input : UpdateNetworkFirewallRolloutInput.t) (state : State.t) : result State.t :=
  let action := UpdateNetworkFirewallRolloutInput.Action input in
  let expected := UpdateNetworkFirewallRolloutInput.ExpectedConfigRevision input in
  let canaries := UpdateNetworkFirewallRolloutInput.CanaryNodeIDs input in
  let inbound := UpdateNetworkFirewallRolloutInput.Inbound input in
  let outbound := UpdateNetworkFirewallRolloutInput.Outbound input in
  fail ErrInvalid when negb (validPersistedID networkID) || (expected <? 1);;
  fail ErrInvalid when negb (contains ["start"; "promote"; "pause"; "resume"; "rollback"] action);;
  fail ErrInvalid when (action != "start") && (negb (is_nil canaries) || negb (is_nil inbound) || negb (is_nil outbound));;
  canaryNodeIDs ← (if action == "start" then
                     ids ← canonicalCanaryNodeIDs canaries;
                     fail ErrInvalid when is_nil inbound || is_nil outbound;; Ok ids
                   else Ok []);
  fail (ErrOther "firewall rollout requires a valid timestamp") when IsZero now;;
  fail ErrConflict when negb (rollout_schema state);;
  '(index, network) ← of_option (network_at state networkID) ErrNotFound;
  fail ErrConflict when negb (Network.ConfigRevision network =? expected);;
  nextRevision ← nextConfigRevision (Network.ConfigRevision network) true;
  '(updated, name, details) ← (if action == "start" then start_rollout now canaryNodeIDs inbound outbound nextRevision state network
                               else continue_rollout action now nextRevision state network);
  event ← newOptionalAttributedAudit eventID now name "network" (Network.ID network)
    ([("previous_config_revision", DInt (Network.ConfigRevision network)); ("config_revision", DInt nextRevision)] ++ details)
    actor;
  Ok (append_audit (put_network state index
        (updated <| Network.ConfigRevision := nextRevision |> <| Network.ConfigUpdatedAt := now |>)) event).

(** ** The evidence of an agent *)
Module ConfigApplyFailureInput.
Record t := make { AttemptedConfigRevision : Z; AttemptedConfigSHA256 : string; FailureCode : string }.
End ConfigApplyFailureInput.

Definition ReportConfigApplyFailure (eventID : string) (now : time) (token : string) (input : ConfigApplyFailureInput.t)
    (read state : State.t) : result State.t :=
  let token := TrimSpace token in
  let revision := ConfigApplyFailureInput.AttemptedConfigRevision input in
  let sha256 := TrimSpace (ConfigApplyFailureInput.AttemptedConfigSHA256 input) in
  let code := TrimSpace (ConfigApplyFailureInput.FailureCode input) in
  fail ErrUnauthorized when negb (ValidBearerToken token);;
  fail ErrInvalid when (revision <? 1) || negb (fingerprintPattern sha256) || (code != ConfigApplyFailureCodeActivation);;
  fail (ErrOther "config activation failure requires a valid timestamp") when IsZero now;;
  let tokenHash := HashToken token in
  _ ← preflightAgentCredential read tokenHash now;
  '(_, node) ← of_option (agent_at state tokenHash now) ErrUnauthorized;
  '(index, network) ← of_option (network_at state (Node.NetworkID node)) (ErrOther "authoritative node network is missing");
  fail ErrConflict when negb (revision =? Network.ConfigRevision network);;
  fail ErrConflict when sha256 != ConfigDigest (renderConfig state network node);;
  autoRollbackFirewallRollout eventID state index network node now "canary_config_activation_failed"
    [("failed_config_revision", DInt revision); ("failed_config_sha256", DString sha256); ("failure_code", DString code)].

(** ** Changing the policy directly (service.go) *)
Module UpdateFirewallPolicyInput.
Record t := make { ExpectedConfigRevision : Z; Inbound : slice FirewallRule.t; Outbound : slice FirewallRule.t }.
End UpdateFirewallPolicyInput.

Definition updateFirewallPolicy (eventID : string) (now : time) (actor : option Actor.t) (networkID : string)
    (input : UpdateFirewallPolicyInput.t) (state : State.t) : result State.t :=
  let expected := UpdateFirewallPolicyInput.ExpectedConfigRevision input in
  fail ErrInvalid when expected <? 1;;
  '(index, network) ← of_option (network_at state networkID) ErrNotFound;
  desired ← normalizeFirewallPolicy (FirewallPolicyInput.make (UpdateFirewallPolicyInput.Inbound input)
              (UpdateFirewallPolicyInput.Outbound input)) (Network.CIDR network);
  _ ← check_new_policy state network desired;
  fail ErrConflict when blocks_dns network desired;;
  if sameEffectiveFirewallPolicy (Network.FirewallPolicy network) desired then Ok state else
  fail ErrConflict when NetworkFirewallRollout.Phase (Network.FirewallRollout network) != "";;
  fail ErrConflict when routeTransferActive (Network.RouteTransfer network);;
  fail ErrConflict when routeProfileEditActive (Network.RouteProfileEdit network);;
  fail ErrConflict when negb (expected =? Network.ConfigRevision network);;
  nextRevision ← nextConfigRevision (Network.ConfigRevision network) true;
  event ← newOptionalAttributedAudit eventID now "network.firewall_policy_updated" "network" (Network.ID network)
    [policy_sha "old_sha256" (Network.FirewallPolicy network); policy_sha "new_sha256" desired;
     ("inbound_rules", DInt (Z.of_nat (length (elems (FirewallPolicy.Inbound desired)))));
     ("outbound_rules", DInt (Z.of_nat (length (elems (FirewallPolicy.Outbound desired)))));
     ("config_revision", DInt nextRevision)] actor;
  Ok (append_audit (put_network state index
        (network <| Network.FirewallPolicy := desired |> <| Network.ConfigRevision := nextRevision |>
                 <| Network.ConfigUpdatedAt := now |>)) event).

(** ** Canary selections *)
Fixpoint no_repeat (previous : option string) (ids : list string) : bool :=
  match ids with
  | [] => true
  | id :: rest => (previous != Some id) && no_repeat (Some id) rest
  end.
Lemma validate_canaries_iff state networkID previous ids :
  validate_canaries state networkID previous ids = Ok tt ↔
  forallb validPersistedID ids = true ∧ no_repeat previous ids = true ∧ forallb (canary_active state networkID) ids = true.
Proof.
  revert previous. induction ids as [|id ids IH]; intros previous; simpl; [naive_solver|].
  rewrite !guard_iff, IH, negb_orb_false, !negb_false_iff, !andb_true_iff, negb_true_iff. naive_solver.
Qed.

Lemma no_repeat_adjacent a ids : adjacent_equal (a :: ids) = false ↔ no_repeat (Some a) ids = true.
Proof.
  revert a. induction ids as [|b ids IH]; intros a; [done|].
  change (adjacent_equal (a :: b :: ids)) with ((a == b) || adjacent_equal (b :: ids)).
  cbn [no_repeat]. rewrite negb_orb_false, IH, andb_true_iff, negb_true_iff, !bool_decide_eq_false. naive_solver.
Qed.
Lemma no_repeat_iff ids : adjacent_equal ids = false ↔ no_repeat None ids = true.
Proof.
  destruct ids as [|a ids]; [done|]. rewrite no_repeat_adjacent. cbn [no_repeat].
  rewrite (bool_decide_eq_false_2 (None = Some a)) by done. done.
Qed.

Lemma is_sorted_sort l : is_sorted (sort_by str_le l) = true.
Proof.
  pose proof (sort_by_sorted str_le str_le_total str_le_trans l) as H. induction H as [|a k Hs IH Ha]; [done|].
  destruct k as [|b k]; [done|]. inversion Ha as [|?? Hab _]; subst.
  change (is_sorted (a :: b :: k)) with (str_le a b && is_sorted (b :: k)). rewrite IH. unfold holds in Hab. by rewrite Hab.
Qed.

Lemma forallb_sort (f : string → bool) l : forallb f (sort_by str_le l) = forallb f l.
Proof.
  apply Bool.eq_iff_eq_true. rewrite !forallb_forall. setoid_rewrite <- list_elem_of_In.
  by setoid_rewrite (sort_by_elem str_le).
Qed.

Lemma canonical_canaries input ids :
  canonicalCanaryNodeIDs input = Ok ids →
  (1 ≤ length ids)%nat ∧ Z.of_nat (length ids) ≤ 16 ∧ is_sorted ids = true ∧
  forallb validPersistedID ids = true ∧ no_repeat None ids = true.
Proof.
  unfold canonicalCanaryNodeIDs, maxFirewallRolloutCanaries. cbv zeta. intros H.
  apply guard_iff in H as [H1 H]. apply guard_iff in H as [H2 H]. apply guard_iff in H as [H3 H]. injection H as <-.
  split_bools. rewrite sort_by_length, forallb_sort. repeat match goal with H : (_ <? _)%nat = false |- _ => apply Nat.ltb_ge in H end.
  split_and!; [lia|lia|apply is_sorted_sort|done|by apply no_repeat_iff].
Qed.

(** ** What the persisted-state check says of an unfinished rollout *)
Definition rollout_conditions (state : State.t) (network : Network.t) : Prop :=
  let rollout := Network.FirewallRollout network in
  let target := NetworkFirewallRollout.TargetPolicy rollout in
  let canaries := elems (NetworkFirewallRollout.CanaryNodeIDs rollout) in
  ((NetworkFirewallRollout.Phase rollout = FirewallRolloutPhaseCanary ∧ NetworkFirewallRollout.PausedAt rollout = 0) ∨
   (NetworkFirewallRollout.Phase rollout = FirewallRolloutPhasePaused ∧ NetworkFirewallRollout.PausedAt rollout ≠ 0 ∧
    ControlStateVersionFirewallPause ≤ State.Version state)) ∧
  NetworkCARotation.Phase (Network.CARotation network) = "" ∧
  NetworkFirewallRollout.StartedAt rollout ≠ 0 ∧
  1 ≤ NetworkFirewallRollout.StageConfigRevision rollout ≤ Network.ConfigRevision network ∧
  validateStoredFirewallPolicy target (Network.CIDR network) = Ok tt ∧
  validateFirewallPolicyReferences state network target = Ok tt ∧
  sameEffectiveFirewallPolicy (Network.FirewallPolicy network) target = false ∧
  blocks_dns network target = false ∧
  (1 ≤ length canaries)%nat ∧ Z.of_nat (length canaries) ≤ 16 ∧ is_sorted canaries = true ∧
  forallb validPersistedID canaries = true ∧ no_repeat None canaries = true ∧
  forallb (canary_active state (Network.ID network)) canaries = true.

Lemma tt_of_Ok {A} (m : result unit) (k : result A) a : (_ ← m; k) = Ok a ↔ m = Ok tt ∧ k = Ok a.
Proof. destruct m as [[]|]; simpl; naive_solver. Qed.

Lemma validate_rollout_iff state network :
  NetworkFirewallRollout.Phase (Network.FirewallRollout network) ≠ "" →
  validateNetworkFirewallRollout state network = Ok tt ↔ rollout_conditions state network.
Proof.
  intros Hp. unfold validateNetworkFirewallRollout, rollout_conditions. cbv zeta.
  rewrite (bool_decide_eq_false_2 _ Hp). rewrite !tt_of_Ok, !fail_if_Ok, validate_canaries_iff.
  unfold IsZero, blocks_dns, maxFirewallRolloutCanaries, ControlStateVersionFirewallPause.
  set (phase := NetworkFirewallRollout.Phase _). set (n := length _).
  rewrite !negb_orb_false, !negb_false_iff, Nat.ltb_ge, !Z.ltb_ge, Z.eqb_neq, bool_decide_eq_true.
  set (paused := NetworkFirewallRollout.PausedAt _).
  assert ((phase != FirewallRolloutPhaseCanary) && ((State.Version state <? 8) || (phase != FirewallRolloutPhasePaused)) = false ∧
          (State.Version state <? 8) && negb (paused =? 0) = false ∧
          (phase == FirewallRolloutPhaseCanary) && negb (paused =? 0) = false ∧
          (phase == FirewallRolloutPhasePaused) && negb (negb (paused =? 0)) = false ↔
          (phase = FirewallRolloutPhaseCanary ∧ paused = 0) ∨
          (phase = FirewallRolloutPhasePaused ∧ paused ≠ 0 ∧ 8 ≤ State.Version state)) as Hph.
  { destruct (decide (phase = FirewallRolloutPhaseCanary)) as [->|?]; eval_bools; simpl.
    - destruct (Z.eqb_spec paused 0); simpl; [|naive_solver]. rewrite !andb_false_r. naive_solver.
    - destruct (decide (phase = FirewallRolloutPhasePaused)) as [->|?]; eval_bools; simpl; [|rewrite orb_true_r; naive_solver].
      destruct (Z.eqb_spec paused 0), (Z.ltb_spec (State.Version state) 8); simpl; naive_solver lia. }
  intuition lia.
Qed.

Lemma rollout_ok_cases state network :
  validateNetworkFirewallRollout state network = Ok tt ↔
  zeroNetworkFirewallRollout (Network.FirewallRollout network) = true ∨ rollout_conditions state network.
Proof.
  destruct (decide (NetworkFirewallRollout.Phase (Network.FirewallRollout network) = "")) as [E|E].
  - unfold validateNetworkFirewallRollout, rollout_conditions. cbv zeta. rewrite E. rewrite bool_decide_eq_true_2 by done.
    rewrite guard_iff, negb_false_iff. naive_solver.
  - rewrite validate_rollout_iff by done. split; [by right|]. intros [H|H]; [|done].
    unfold zeroNetworkFirewallRollout in H. by split_bools.
Qed.

(** ** The firewall of a network *)
Definition firewall_ok (state : State.t) (network : Network.t) : Prop :=
  validateNetworkFirewallRollout state network = Ok tt ∧
  validateStoredFirewallPolicy (Network.FirewallPolicy network) (Network.CIDR network) = Ok tt ∧
  validateFirewallPolicyReferences state network (Network.FirewallPolicy network) = Ok tt ∧
  validateNetworkDNSInvariant network = Ok tt ∧
  1 ≤ Network.ConfigRevision network ≤ int64_max.
Definition firewalls_ok (state : State.t) : Prop := ∀ network, network ∈ State.Networks state → firewall_ok state network.

Lemma dns_invariant_iff network :
  validateNetworkDNSInvariant network = Ok tt ↔
  validateNetworkDNSSettings (Network.DNSSettings network) (Network.ListenPort network) = Ok tt ∧
  blocks_dns network (Network.FirewallPolicy network) = false.
Proof. unfold validateNetworkDNSInvariant. cbv zeta. rewrite !tt_of_Ok, fail_if_Ok. unfold blocks_dns. naive_solver. Qed.

(** The firewall depends on the nodes and the schema version of the state only. *)
Lemma firewall_ok_nodes state state' network :
  State.Nodes state' = State.Nodes state → State.Version state' = State.Version state →
  firewall_ok state network → firewall_ok state' network.
Proof.
  intros Hn Hv. unfold firewall_ok. rewrite !rollout_ok_cases.
  unfold rollout_conditions, canary_active, validateFirewallPolicyReferences, findNode. by rewrite Hn, Hv.
Qed.

Lemma put_firewalls_ok state index network event :
  firewalls_ok state → firewall_ok state network → firewalls_ok (append_audit (put_network state index network) event).
Proof.
  intros Hs Hn m Hm. apply (firewall_ok_nodes state); [done..|]. apply list_elem_of_lookup_1 in Hm as [j Hj].
  apply put_network_lookup in Hj as [[_ ->]|[_ Hj]]; [done|]. apply Hs. by eapply list_elem_of_lookup_2.
Qed.

Lemma same_firewall_ok state network updated revision now :
  firewall_ok state network → 1 ≤ revision ≤ int64_max →
  Network.ID updated = Network.ID network → Network.CIDR updated = Network.CIDR network →
  Network.DNSSettings updated = Network.DNSSettings network → Network.ListenPort updated = Network.ListenPort network →
  (zeroNetworkFirewallRollout (Network.FirewallRollout updated) = true ∨
   rollout_conditions state (updated <| Network.ConfigRevision := revision |>)) →
  (Network.FirewallPolicy updated = Network.FirewallPolicy network ∨
   validateStoredFirewallPolicy (Network.FirewallPolicy updated) (Network.CIDR network) = Ok tt ∧
   validateFirewallPolicyReferences state network (Network.FirewallPolicy updated) = Ok tt ∧
   blocks_dns network (Network.FirewallPolicy updated) = false) →
  firewall_ok state (updated <| Network.ConfigRevision := revision |> <| Network.ConfigUpdatedAt := now |>).
Proof.
  intros (Hr & Hst & Href & Hdns & _) Hrev Hid Hcidr Hd Hl Hroll Hpol.
  apply dns_invariant_iff in Hdns as [Hd1 Hd2]. unfold firewall_ok. rewrite dns_invariant_iff.
  rewrite (rollout_ok_cases state (_ <| Network.ConfigUpdatedAt := now |>)). simpl. split.
  { destruct Hroll as [H|H]; [by left|]. right. exact H. }
  unfold validateFirewallPolicyReferences, blocks_dns in *. simpl. rewrite Hid, Hcidr, Hd, Hl.
  destruct Hpol as [-> |(H1 & H2 & H3)]; done.
Qed.

Lemma zero_rollout : zeroNetworkFirewallRollout NetworkFirewallRollout.zero = true.
Proof. done. Qed.

(** *** Start *)
Lemma start_rollout_ok now canaries input inbound outbound revision state network updated name details :
  firewall_ok state network → now ≠ 0 → 1 ≤ revision ≤ int64_max → canonicalCanaryNodeIDs input = Ok canaries →
  start_rollout now canaries inbound outbound revision state network = Ok (updated, name, details) →
  firewall_ok state (updated <| Network.ConfigRevision := revision |> <| Network.ConfigUpdatedAt := now |>).
Proof.
  intros Hok Hnow Hrev Hcan H. unfold start_rollout in H. apply guard_iff in H as [H1 H].
  apply bind_Ok in H as (target & Htgt & H). apply tt_of_Ok in H as [Hnew H]. apply guard_iff in H as [Hsame H].
  apply guard_iff in H as [Hdns H]. apply guard_iff in H as [Hact H]. injection H as <- _ _.
  unfold check_new_policy in Hnew. apply tt_of_Ok in Hnew as [Href _]. split_bools.
  apply canonical_canaries in Hcan as (? & ? & ? & ? & ?).
  apply (same_firewall_ok state network); try done; [|by left]. right.
  unfold rollout_conditions. simpl. split_and!; try done; try lia.
  - left. done.
  - by apply normalized_is_stored in Htgt as [_ ?].
Qed.

(** *** The other actions *)
Lemma continue_rollout_ok action now revision state network updated name details :
  firewall_ok state network → now ≠ 0 → Network.ConfigRevision network ≤ revision ≤ int64_max → rollout_schema state = true →
  continue_rollout action now revision state network = Ok (updated, name, details) →
  firewall_ok state (updated <| Network.ConfigRevision := revision |> <| Network.ConfigUpdatedAt := now |>).
Proof.
  intros Hok Hnow Hrev Hschema H. pose proof Hok as (Hr & _ & _ & _ & Hcur).
  assert (8 ≤ State.Version state) as Hver.
  { unfold rollout_schema in Hschema. apply contains_true in Hschema.
    repeat (apply elem_of_cons in Hschema as [-> |Hschema]; [by vm_compute|]). by apply elem_of_nil in Hschema. }
  rewrite rollout_ok_cases in Hr. unfold continue_rollout in H. cbv zeta in H.
  set (phase := NetworkFirewallRollout.Phase (Network.FirewallRollout network)) in H.
  assert (phase ≠ "" → rollout_conditions state network) as Hcond.
  { intros Hp. destruct Hr as [Hz|?]; [|done]. unfold zeroNetworkFirewallRollout in Hz. by split_bools. }
  destruct (action == "promote"); [|destruct (action == "pause"); [|destruct (action == "resume")]].
  - apply guard_iff in H as [Hp H]. apply guard_iff in H as [_ H]. injection H as <- _ _. split_bools.
    destruct Hcond as (_ & _ & _ & _ & Hst & Href & _ & Hdns & _); [by rewrite Hp|].
    apply (same_firewall_ok state network); try done; [lia|by left|by right].
  - apply guard_iff in H as [Hp H]. injection H as <- _ _. split_bools.
    destruct Hcond as (_ & Hca & Hs & Hrange & Hrest); [by rewrite Hp|].
    apply (same_firewall_ok state network); try done; [lia| |by left]. right.
    split; [right; done|]. split; [done|]. split; [done|]. split; [simpl; lia|]. exact Hrest.
  - apply guard_iff in H as [Hp H]. injection H as <- _ _. split_bools.
    destruct Hcond as (_ & Hca & Hs & Hrange & Hrest); [by rewrite Hp|].
    apply (same_firewall_ok state network); try done; [lia| |by left]. right.
    split; [left; done|]. split; [done|]. split; [done|]. split; [simpl; lia|]. exact Hrest.
  - apply guard_iff in H as [_ H]. injection H as <- _ _.
    apply (same_firewall_ok state network); try done; [lia|by left|by left].
Qed.

(** *** Steps *)
Inductive firewall_step (state state' : State.t) : Prop :=
  | rollout_updated eventID now actor networkID input :
      updateNetworkFirewallRollout eventID now actor networkID input state = Ok state' → firewall_step state state'
  | failure_reported eventID now token input read :
      ReportConfigApplyFailure eventID now token input read state = Ok state' → firewall_step state state'
  | policy_updated eventID now actor networkID input :
      updateFirewallPolicy eventID now actor networkID input state = Ok state' → firewall_step state state'.

Lemma network_at_in state id i n : network_at state id = Some (i, n) → n ∈ State.Networks state.
Proof. intros [H _]%network_at_Some. by eapply list_elem_of_lookup_2. Qed.

(** The parts of a successful rollout update. *)
Lemma rollout_call eventID now actor networkID input state state' :
  updateNetworkFirewallRollout eventID now actor networkID input state = Ok state' →
  let action := UpdateNetworkFirewallRolloutInput.Action input in
  ∃ index network revision updated name details event,
    now ≠ 0 ∧ rollout_schema state = true ∧ network_at state networkID = Some (index, network) ∧
    nextConfigRevision (Network.ConfigRevision network) true = Ok revision ∧
    state' = append_audit (put_network state index
      (updated <| Network.ConfigRevision := revision |> <| Network.ConfigUpdatedAt := now |>)) event ∧
    (action = "start" ∧
      (∃ canaries, canonicalCanaryNodeIDs (UpdateNetworkFirewallRolloutInput.CanaryNodeIDs input) = Ok canaries ∧
       start_rollout now canaries (UpdateNetworkFirewallRolloutInput.Inbound input)
         (UpdateNetworkFirewallRolloutInput.Outbound input) revision state network = Ok (updated, name, details)) ∨
     action ∈ ["promote"; "pause"; "resume"; "rollback"] ∧
     continue_rollout action now revision state network = Ok (updated, name, details)).
Proof.
  intros H action. unfold updateNetworkFirewallRollout in H. cbv zeta in H. fold action in H.
  apply guard_iff in H as [_ H]. apply guard_iff in H as [Hact H]. apply guard_iff in H as [_ H].
  apply bind_Ok in H as (canaries & Hcan & H). apply guard_iff in H as [Hnow H]. apply guard_iff in H as [Hs H].
  apply bind_Ok in H as ([index network] & Hn%of_option_Ok & H). apply guard_iff in H as [_ H].
  apply bind_Ok in H as (revision & Hrev & H). apply bind_Ok in H as ([[updated name] details] & Hu & H).
  apply bind_Ok in H as (event & _ & H). injection H as <-. split_bools. unfold IsZero in Hnow.
  exists index, network, revision, updated, name, details, event. split_and!; try done; [lia|].
  apply contains_true, elem_of_cons in Hact. destruct (action == "start") eqn:E; split_bools.
  - left. split; [done|]. exists canaries. split; [|done]. apply bind_Ok in Hcan as (ids & Hids & Hc).
    apply guard_iff in Hc as [_ Hc]. by injection Hc as <-.
  - right. destruct Hact; done.
Qed.

Lemma auto_rollback_call eventID state index network node now reason evidence state' :
  autoRollbackFirewallRollout eventID state index network node now reason evidence = Ok state' →
  ∃ revision event, nextConfigRevision (Network.ConfigRevision network) true = Ok revision ∧
    NetworkFirewallRollout.Phase (Network.FirewallRollout network) = FirewallRolloutPhaseCanary ∧
    Node.ID node ∈ elems (NetworkFirewallRollout.CanaryNodeIDs (Network.FirewallRollout network)) ∧
    state' = append_audit (put_network state index (rolled_back network revision now)) event.
Proof.
  unfold autoRollbackFirewallRollout. cbv zeta. intros H. apply guard_iff in H as [Hg H].
  apply bind_Ok in H as (revision & Hrev & H). apply bind_Ok in H as (event & _ & H). injection H as <-.
  split_bools. match goal with H : contains _ _ = true |- _ => apply contains_true in H end. eauto 10.
Qed.

Lemma advanced_revision current revision :
  1 ≤ current ≤ int64_max → nextConfigRevision current true = Ok revision → 1 ≤ revision ≤ int64_max ∧ revision = current + 1.
Proof.
  intros Hc H. apply nextConfigRevision_Ok in H as [-> [_ ?]]; [lia|]. unfold in_int64, int64_min in *. lia.
Qed.

Lemma firewall_step_ok state state' : firewalls_ok state → firewall_step state state' → firewalls_ok state'.
Proof.
  intros Hok [eventID now actor networkID input H|eventID now token input read H|eventID now actor networkID input H].
  - apply rollout_call in H as (index & network & revision & updated & name & details & event & Hnow & Hs & Hn & Hrev & -> & H).
    pose proof (Hok network (network_at_in _ _ _ _ Hn)) as Hnok. pose proof Hnok as (_ & _ & _ & _ & Hr).
    apply advanced_revision in Hrev as [Hrev ->]; [|done]. apply put_firewalls_ok; [done|].
    destruct H as [[_ (canaries & Hcan & H)]|[_ H]]; [by eapply start_rollout_ok|]. eapply continue_rollout_ok; eauto; lia.
  - unfold ReportConfigApplyFailure in H. cbv zeta in H. do 3 apply guard_iff in H as [_ H].
    apply bind_Ok in H as (n & _ & H). apply bind_Ok in H as ([j node] & _ & H).
    apply bind_Ok in H as ([index network] & Hn%of_option_Ok & H). do 2 apply guard_iff in H as [_ H].
    apply auto_rollback_call in H as (revision & event & Hrev & _ & _ & ->).
    pose proof (Hok network (network_at_in _ _ _ _ Hn)) as Hnok. pose proof Hnok as (_ & _ & _ & _ & Hr).
    apply advanced_revision in Hrev as [Hrev ->]; [|done]. apply put_firewalls_ok; [done|].
    apply (same_firewall_ok state network (network <| Network.FirewallRollout := NetworkFirewallRollout.zero |>));
      try done; by left.
  - unfold updateFirewallPolicy in H. cbv zeta in H. apply guard_iff in H as [_ H].
    apply bind_Ok in H as ([index network] & Hn%of_option_Ok & H). apply bind_Ok in H as (desired & Hd & H).
    apply tt_of_Ok in H as [Hnew H]. apply guard_iff in H as [Hdns H].
    destruct (sameEffectiveFirewallPolicy _ desired); [by injection H as <-|].
    apply guard_iff in H as [Hph H]. do 3 apply guard_iff in H as [_ H].
    apply bind_Ok in H as (revision & Hrev & H). apply bind_Ok in H as (event & _ & H). injection H as <-.
    pose proof (Hok network (network_at_in _ _ _ _ Hn)) as Hnok. pose proof Hnok as (Hro & _ & _ & _ & Hr).
    apply advanced_revision in Hrev as [Hrev ->]; [|done]. apply put_firewalls_ok; [done|]. split_bools.
    unfold check_new_policy in Hnew. apply tt_of_Ok in Hnew as [Href _].
    change (firewall_ok state (network <| Network.FirewallPolicy := desired |>
      <| Network.ConfigRevision := Network.ConfigRevision network + 1 |> <| Network.ConfigUpdatedAt := now |>)).
    apply (same_firewall_ok state network); try done.
    + left. apply rollout_ok_cases in Hro as [?|(Hp & _)]; [done|]. rewrite Hph in Hp. by destruct Hp as [[? _]|[? _]].
    + right. apply normalized_is_stored in Hd as [_ ?]. done.
Qed.

(** C14: The firewall of every network stays valid through rollouts: any sequence of
    starting, promoting, pausing, resuming and rolling back rollouts, of failure
    reports by agents and of direct policy changes keeps, for every network, an
    unfinished rollout that passes the persisted-state check, an active policy that
    is stored in canonical form and references nodes of the network only, and
    managed DNS reachable through it. *)
Theorem firewalls_stay_valid state state' :
  firewalls_ok state → rtc firewall_step state state' → firewalls_ok state'.
Proof. intros Hok H. induction H; [done|]. eauto using firewall_step_ok. Qed.

(** ** Promotion and rollback *)

(** The configuration depends on the network's firewall through the policy of the
    node only, and on neither the revision nor its time. *)
Lemma render_same_policy state network network' event index node :
  firewallPolicyForNode network' node = firewallPolicyForNode network node →
  network' = network <| Network.FirewallPolicy := Network.FirewallPolicy network' |>
    <| Network.FirewallRollout := Network.FirewallRollout network' |>
    <| Network.ConfigRevision := Network.ConfigRevision network' |>
    <| Network.ConfigUpdatedAt := Network.ConfigUpdatedAt network' |> →
  renderConfig (append_audit (put_network state index network') event) network' node = renderConfig state network node.
Proof. intros Hp Hn. unfold renderConfig. rewrite Hp. clear Hp. rewrite Hn. reflexivity. Qed.

Lemma updated_network state networkID index network network' event :
  network_at state networkID = Some (index, network) → Network.ID network' = Network.ID network →
  network_at (append_audit (put_network state index network') event) networkID = Some (index, network').
Proof. intros Hn Hid. rewrite network_at_append. by apply (network_at_put _ _ _ network). Qed.

(** Promoting a firewall rollout is seamless for its canaries: it makes the
    target policy the policy of the network, and only when every canary runs Nebula
    and has applied, at the revision before, the very configuration that is desired
    of it afterwards. *)
Theorem promotion_is_seamless eventID now actor networkID input state state' index network :
  network_at state networkID = Some (index, network) → UpdateNetworkFirewallRolloutInput.Action input = "promote" →
  updateNetworkFirewallRollout eventID now actor networkID input state = Ok state' →
  let rollout := Network.FirewallRollout network in
  ∃ network', network_at state' networkID = Some (index, network') ∧
    Network.FirewallPolicy network' = NetworkFirewallRollout.TargetPolicy rollout ∧
    Network.FirewallRollout network' = NetworkFirewallRollout.zero ∧
    ∀ nodeID, nodeID ∈ elems (NetworkFirewallRollout.CanaryNodeIDs rollout) →
      ∃ node, findNode state' nodeID = Some node ∧ Node.Status node = "active" ∧ Node.NebulaRunning node = true ∧
        Node.AppliedConfigRevision node = Network.ConfigRevision network ∧
        Node.AppliedConfigSHA256 node = ConfigDigest (renderConfig state' network' node).
Proof.
  intros Hn Ha H rollout.
  apply rollout_call in H as (i & n & revision & updated & name & details & event & Hnow & Hs & Hn' & Hrev & -> & H).
  rewrite Hn in Hn'. injection Hn' as <- <-. destruct H as [[E _]|[_ H]]; [congruence|]. rewrite Ha in H.
  unfold continue_rollout in H. cbv zeta in H. rewrite bool_decide_eq_true_2 in H by done. fold rollout in H.
  apply guard_iff in H as [Hp H]. apply guard_iff in H as [Hconv H]. injection H as <- _ _. split_bools.
  eexists. split; [by apply (updated_network _ _ _ network)|]. split; [done|]. split; [done|]. intros nodeID Hin.
  rewrite forallb_forall in Hconv. specialize (Hconv nodeID ltac:(by apply list_elem_of_In)).
  destruct (findNode state nodeID) as [node|] eqn:Hf; [|done]. exists node. split; [exact Hf|].
  unfold firewallRolloutNodeConverged in Hconv. cbv zeta in Hconv. fold rollout in Hconv.
  destruct (_ || _ || _) eqn:Hg; [done|]. split_bools. apply contains_true in H0. split_and!; try done; [lia|].
  rewrite (render_same_policy state network); [done| |done].
  unfold firewallPolicyForNode. simpl. fold rollout. rewrite Hp. by rewrite (proj2 (contains_true _ _) H0).
Qed.

(** C40: A rollback is always possible and complete: in a current schema, an
    unfinished rollout of a network whose revision can advance is rolled back at the
    current revision, and every node is again configured as without any rollout. *)
Theorem rollback_always_available eventID now networkID state index network :
  validPersistedID networkID = true → rollout_schema state = true → now ≠ 0 →
  network_at state networkID = Some (index, network) → 1 ≤ Network.ConfigRevision network < int64_max →
  NetworkFirewallRollout.Phase (Network.FirewallRollout network) ∈ [FirewallRolloutPhaseCanary; FirewallRolloutPhasePaused] →
  ∃ state' network',
    updateNetworkFirewallRollout eventID now None networkID
      (UpdateNetworkFirewallRolloutInput.make "rollback" (Network.ConfigRevision network) None None None) state = Ok state' ∧
    network_at state' networkID = Some (index, network') ∧
    ∀ node, renderConfig state' network' node =
            renderConfig state (network <| Network.FirewallRollout := NetworkFirewallRollout.zero |>) node.
Proof.
  intros Hid Hs Hnow Hn Hrev Hp. unfold updateNetworkFirewallRollout. cbv zeta.
  cbn [UpdateNetworkFirewallRolloutInput.Action UpdateNetworkFirewallRolloutInput.ExpectedConfigRevision
       UpdateNetworkFirewallRolloutInput.CanaryNodeIDs UpdateNetworkFirewallRolloutInput.Inbound
       UpdateNetworkFirewallRolloutInput.Outbound is_nil].
  rewrite Hid, Hs, Hn. unfold IsZero. replace (now =? 0) with false by lia.
  replace (Network.ConfigRevision network <? 1) with false by lia.
  replace (contains _ "rollback") with true by (vm_compute; reflexivity).
  rewrite (bool_decide_eq_false_2 ("rollback" = "start")) by done. simpl. rewrite Z.eqb_refl. simpl.
  unfold nextConfigRevision. simpl. replace (Network.ConfigRevision network =? int64_max) with false by lia. simpl.
  unfold continue_rollout. cbv zeta. rewrite !(bool_decide_eq_false_2 ("rollback" = _)) by done.
  replace ((_ != FirewallRolloutPhaseCanary) && _) with false.
  2:{ apply elem_of_cons in Hp as [->|Hp]; [done|]. apply list_elem_of_singleton in Hp as ->. done. }
  simpl. eexists _, _. split; [reflexivity|]. split; [by apply (updated_network _ _ _ network)|]. intros node.
  by rewrite (render_same_policy state (network <| Network.FirewallRollout := NetworkFirewallRollout.zero |>)).
Qed.

(** ** Witnesses: a rollout with one converged canary *)
Definition rollout_target : FirewallPolicy.t :=
  match normalizeFirewallPolicy (FirewallPolicyInput.make (Some [FirewallRule.make "icmp" "any" "" "any" "" "" ""])
          (Some [any_rule "" "any"])) "10.42.0.0/16" with Ok p => p | Err _ => FirewallPolicy.zero end.
Definition canary_record : NetworkFirewallRollout.t :=
  NetworkFirewallRollout.make FirewallRolloutPhaseCanary rollout_target (Some ["node-1"]) 5 0 7.
Definition canary_network : Network.t :=
  example_network <| Network.ID := "network-1" |> <| Network.ConfigRevision := 7 |> <| Network.ListenPort := 4242 |>
    <| Network.DNSSettings := defaultNetworkDNSSettings |> <| Network.FirewallPolicy := defaultManagedFirewallPolicy |>
    <| Network.FirewallRollout := canary_record |>.
Definition canary_node (digest : string) : Node.t :=
  example_gateway "node-1" <| Node.NetworkID := "network-1" |> <| Node.RoutedSubnets := None |>
    <| Node.AppliedConfigRevision := 7 |> <| Node.NebulaRunning := true |> <| Node.AppliedConfigSHA256 := digest |>.
Definition canary_state_with (digest : string) : State.t :=
  State.zero <| State.Version := 13 |> <| State.Networks := [canary_network] |> <| State.Nodes := [canary_node digest] |>.
Definition canary_state : State.t :=
  canary_state_with (ConfigDigest (renderConfig (canary_state_with "") canary_network (canary_node ""))).
Definition promote_input : UpdateNetworkFirewallRolloutInput.t :=
  UpdateNetworkFirewallRolloutInput.make "promote" 7 None None None.
Definition promoted_canary_state : State.t :=
  match updateNetworkFirewallRollout "event" 9 None "network-1" promote_input canary_state with
  | Ok s => s
  | Err _ => State.zero
  end.

Lemma canary_state_ok : firewalls_ok canary_state.
Proof.
  intros network Hin. apply list_elem_of_singleton in Hin as ->.
  unfold firewall_ok. split_and!; first [vm_compute; reflexivity | vm_compute; congruence].
Qed.

Lemma firewalls_stay_valid_witness : firewalls_ok promoted_canary_state.
Proof.
  refine (firewalls_stay_valid canary_state promoted_canary_state canary_state_ok _).
  apply rtc_once, (rollout_updated _ _ "event" 9 None "network-1" promote_input). vm_compute. reflexivity.
Defined.

Lemma promotion_is_seamless_witness :
  ∃ network', network_at promoted_canary_state "network-1" = Some (0%nat, network') ∧
    Network.FirewallPolicy network' = rollout_target ∧
    ∃ node, findNode promoted_canary_state "node-1" = Some node ∧
      Node.AppliedConfigSHA256 node = ConfigDigest (renderConfig promoted_canary_state network' node).
Proof.
  destruct (promotion_is_seamless "event" 9 None "network-1" promote_input canary_state promoted_canary_state 0 canary_network)
    as (network' & Hn & Hp & _ & Hc).
  - vm_compute. reflexivity.
  - reflexivity.
  - vm_compute. reflexivity.
  - exists network'. split; [exact Hn|]. split; [exact Hp|].
    destruct (Hc "node-1") as (node & Hf & _ & _ & _ & Hd); [apply list_elem_of_singleton; reflexivity|]. exists node. split; [exact Hf|exact Hd].
Defined.

Lemma rollback_always_available_witness :
  ∃ state' network',
    updateNetworkFirewallRollout "event" 9 None "network-1"
      (UpdateNetworkFirewallRolloutInput.make "rollback" 7 None None None) canary_state = Ok state' ∧
    network_at state' "network-1" = Some (0%nat, network') ∧
    ∀ node, renderConfig state' network' node =
            renderConfig canary_state (canary_network <| Network.FirewallRollout := NetworkFirewallRollout.zero |>) node.
Proof.
  refine (rollback_always_available "event" 9 "network-1" canary_state 0 canary_network _ _ _ _ _ _).
  - vm_compute. reflexivity.
  - vm_compute. reflexivity.
  - discriminate.
  - vm_compute. reflexivity.
  - split; vm_compute; congruence.
  - left.
Defined.
