(* ===== verification/SignedConfig.v ===== *)
(** * Signed configurations and recovery receipts (internal/control/crypto.go, the
    bundles of internal/control/model.go, and signConfig, enrollmentBundle and
    renewalBundle of internal/control/service.go)

    Agents accept a configuration only with a signature over its digest and its
    metadata.  The signature scheme and the authenticated encryption of stored keys
    are an interface: the operations are the class [Crypto], what the code relies on
    is the class [CryptoLaws]. *)
From S2P Require Import Prelude GoStd Sha256 GoTime IPv4 Model AuditLog Routes RouteState Reservations Firewall.
From S2P Require Import NetworkSettings Render Credentials CARotation.
From Stdlib Require Import Ascii.

(** ** The interface to crypto/ed25519 and crypto/cipher *)
Class Crypto := {
  ed25519_sign : list Z → list Z → list Z;  (* private key, message *)
  ed25519_verify : list Z → list Z → list Z → bool;  (* public key, message, signature *)
  ed25519_public : list Z → list Z;
  aead_open : string → list Z → list Z → option (list Z)  (* additional data, nonce, ciphertext *)
}.
Definition ed25519_PublicKeySize : nat := 32.
Definition ed25519_PrivateKeySize : nat := 64.
Definition ed25519_SignatureSize : nat := 64.
Definition aead_NonceSize : nat := 12.

Class CryptoLaws `{Crypto} := {
  signature_size key message : length (ed25519_sign key message) = ed25519_SignatureSize ∧ Forall is_byte (ed25519_sign key message);
  sign_verifies key message : length key = ed25519_PrivateKeySize →
    ed25519_verify (ed25519_public key) message (ed25519_sign key message) = true
}.

(** ** Signed metadata *)
Module ConfigSignatureMetadata.
Record t := make {
  NodeID : string; NetworkID : string; Revision : Z; IssuedAt : time; CACertificateSHA256 : string;
  PreviousCACertificateSHA256 : string; CARotationRequired : bool; CertificateProfileRenewalRequired : bool;
  CertificateFingerprint : string; CertificateExpiresAt : time; CertificateRenewAfter : time;
  CertificateGeneration : Z; PublicKeyHash : string }.
#[global] Instance t_eta : Eta t := λ r, make (NodeID r) (NetworkID r) (Revision r) (IssuedAt r) (CACertificateSHA256 r)
  (PreviousCACertificateSHA256 r) (CARotationRequired r) (CertificateProfileRenewalRequired r) (CertificateFingerprint r)
  (CertificateExpiresAt r) (CertificateRenewAfter r) (CertificateGeneration r) (PublicKeyHash r).
End ConfigSignatureMetadata.

Module AgentConfig.
Record t := make {
  NodeID : string; NetworkID : string; Revision : Z; Config : string; IssuedAt : time; SHA256 : string;
  CACertificateSHA256 : string; PreviousCACertificateSHA256 : string; CARotationRequired : bool;
  CertificateProfileRenewalRequired : bool; CertificateFingerprint : string; CertificateGeneration : Z;
  PublicKeyHash : string; Signature : string; CertificateExpiresAt : time; CertificateRenewAfter : time }.
Definition SignatureMetadata (a : t) : ConfigSignatureMetadata.t :=
  ConfigSignatureMetadata.make (NodeID a) (NetworkID a) (Revision a) (IssuedAt a) (CACertificateSHA256 a)
    (PreviousCACertificateSHA256 a) (CARotationRequired a) (CertificateProfileRenewalRequired a)
    (CertificateFingerprint a) (CertificateExpiresAt a) (CertificateRenewAfter a) (CertificateGeneration a) (PublicKeyHash a).
End AgentConfig.

Module RenewalBundle.
Record t := make {
  NodeID : string; NetworkID : string; CA : string; Certificate : string; CertificateExpiresAt : time;
  CertificateRenewAfter : time; Config : string; ConfigRevision : Z; ConfigIssuedAt : time; ConfigSHA256 : string;
  CACertificateSHA256 : string; PreviousCACertificateSHA256 : string; CARotationRequired : bool;
  CertificateProfileRenewalRequired : bool; CertificateFingerprint : string; CertificateGeneration : Z;
  PublicKeyHash : string; ConfigSignature : string }.
Definition SignatureMetadata (b : t) : ConfigSignatureMetadata.t :=
  ConfigSignatureMetadata.make (NodeID b) (NetworkID b) (ConfigRevision b) (ConfigIssuedAt b) (CACertificateSHA256 b)
    (PreviousCACertificateSHA256 b) (CARotationRequired b) (CertificateProfileRenewalRequired b)
    (CertificateFingerprint b) (CertificateExpiresAt b) (CertificateRenewAfter b) (CertificateGeneration b) (PublicKeyHash b).
End RenewalBundle.

Definition bundle_metadata (b : EnrollmentBundle.t) : ConfigSignatureMetadata.t :=
  ConfigSignatureMetadata.make (EnrollmentBundle.NodeID b) (EnrollmentBundle.NetworkID b) (EnrollmentBundle.ConfigRevision b)
    (EnrollmentBundle.ConfigIssuedAt b) (EnrollmentBundle.CACertificateSHA256 b)
    (EnrollmentBundle.PreviousCACertificateSHA256 b) (EnrollmentBundle.CARotationRequired b)
    (EnrollmentBundle.CertificateProfileRenewalRequired b) (EnrollmentBundle.CertificateFingerprint b)
    (EnrollmentBundle.CertificateExpiresAt b) (EnrollmentBundle.CertificateRenewAfter b)
    (EnrollmentBundle.CertificateGeneration b) (EnrollmentBundle.PublicKeyHash b).

(** ** Checks *)
Definition MaxManagedConfigBytes : Z := 4194304.
Definition CR : ascii := "013"%char.
Definition LF : ascii := "010"%char.

Definition validateManagedConfig (config : string) : result unit :=
  fail (ErrOther "managed config must be nonempty valid UTF-8 without carriage returns")
    when (config == "") || (MaxManagedConfigBytes <? len config) || negb (ValidString config) || contains_char config CR;;
  Ok tt.

Import ConfigSignatureMetadata.
Definition validateConfigSignatureMetadata (metadata : ConfigSignatureMetadata.t) : result unit :=
  fail (ErrOther "invalid signed config identity")
    when (NodeID metadata == "") || (NetworkID metadata == "") || ContainsAny (NodeID metadata) [CR; LF]
      || ContainsAny (NetworkID metadata) [CR; LF];;
  fail (ErrOther "invalid signed config revision or timestamp")
    when (Revision metadata <? 1) || (CertificateGeneration metadata <? 1) || IsZero (IssuedAt metadata)
      || IsZero (CertificateExpiresAt metadata) || IsZero (CertificateRenewAfter metadata)
      || negb (Before (CertificateRenewAfter metadata) (CertificateExpiresAt metadata));;
  fail (ErrOther "invalid signed config certificate metadata")
    when negb (fingerprintPattern (CACertificateSHA256 metadata)) || negb (fingerprintPattern (CertificateFingerprint metadata))
      || negb (ValidTokenHash (PublicKeyHash metadata));;
  fail (ErrOther "invalid signed config CA transition metadata")
    when (PreviousCACertificateSHA256 metadata != "") &&
      (negb (fingerprintPattern (PreviousCACertificateSHA256 metadata))
       || (PreviousCACertificateSHA256 metadata == CACertificateSHA256 metadata));;
  fail (ErrOther "CA rotation renewal requires an authenticated trust transition")
    when CARotationRequired metadata && (PreviousCACertificateSHA256 metadata == "");;
  fail (ErrOther "CA rotation and certificate profile renewal cannot be required together")
    when CARotationRequired metadata && CertificateProfileRenewalRequired metadata;;
  Ok tt.

(** ** Payloads *)
Definition payload_v3 (metadata : ConfigSignatureMetadata.t) (digest : string) : list string :=
  ["mesh-desired-artifact-v3"; "node_id=" +:+ NodeID metadata; "network_id=" +:+ NetworkID metadata;
   "revision=" +:+ Itoa (Revision metadata); "issued_at=" +:+ RFC3339Nano (IssuedAt metadata); "config_sha256=" +:+ digest;
   "ca_sha256=" +:+ CACertificateSHA256 metadata; "certificate_fingerprint=" +:+ CertificateFingerprint metadata;
   "certificate_expires_at=" +:+ RFC3339Nano (CertificateExpiresAt metadata);
   "certificate_renew_after=" +:+ RFC3339Nano (CertificateRenewAfter metadata);
   "certificate_generation=" +:+ Itoa (CertificateGeneration metadata); "public_key_hash=" +:+ PublicKeyHash metadata].
Definition payload_v5 (metadata : ConfigSignatureMetadata.t) (digest : string) : list string :=
  ["mesh-desired-artifact-v5"; "node_id=" +:+ NodeID metadata; "network_id=" +:+ NetworkID metadata;
   "revision=" +:+ Itoa (Revision metadata); "issued_at=" +:+ RFC3339Nano (IssuedAt metadata); "config_sha256=" +:+ digest;
   "ca_sha256=" +:+ CACertificateSHA256 metadata; "certificate_profile_renewal_required=true";
   "certificate_fingerprint=" +:+ CertificateFingerprint metadata;
   "certificate_expires_at=" +:+ RFC3339Nano (CertificateExpiresAt metadata);
   "certificate_renew_after=" +:+ RFC3339Nano (CertificateRenewAfter metadata);
   "certificate_generation=" +:+ Itoa (CertificateGeneration metadata); "public_key_hash=" +:+ PublicKeyHash metadata].
Definition payload_v4 (metadata : ConfigSignatureMetadata.t) (digest : string) : list string :=
  ["mesh-desired-artifact-v4"; "node_id=" +:+ NodeID metadata; "network_id=" +:+ NetworkID metadata;
   "revision=" +:+ Itoa (Revision metadata); "issued_at=" +:+ RFC3339Nano (IssuedAt metadata); "config_sha256=" +:+ digest;
   "ca_sha256=" +:+ CACertificateSHA256 metadata; "previous_ca_sha256=" +:+ PreviousCACertificateSHA256 metadata;
   "ca_rotation_required=" +:+ bool_text (CARotationRequired metadata);
   "certificate_fingerprint=" +:+ CertificateFingerprint metadata;
   "certificate_expires_at=" +:+ RFC3339Nano (CertificateExpiresAt metadata);
   "certificate_renew_after=" +:+ RFC3339Nano (CertificateRenewAfter metadata);
   "certificate_generation=" +:+ Itoa (CertificateGeneration metadata); "public_key_hash=" +:+ PublicKeyHash metadata].
Definition payload_lines (metadata : ConfigSignatureMetadata.t) (digest : string) : list string :=
  if (PreviousCACertificateSHA256 metadata == "") && negb (CARotationRequired metadata)
     && negb (CertificateProfileRenewalRequired metadata) then payload_v3 metadata digest
  else if CertificateProfileRenewalRequired metadata then payload_v5 metadata digest
  else payload_v4 metadata digest.
Definition configSigningPayload (metadata : ConfigSignatureMetadata.t) (config : string) : string * list Z :=
  (ConfigDigest config, bytes_of (lines (payload_lines metadata (ConfigDigest config)))).

Definition receipt_lines (receipt : RecoveryReceipt.t) : list string :=
  ["mesh-agent-recovery-receipt-v1"; "node_id=" +:+ RecoveryReceipt.NodeID receipt;
   "network_id=" +:+ RecoveryReceipt.NetworkID receipt; "new_agent_token_hash=" +:+ RecoveryReceipt.NewAgentTokenHash receipt;
   "agent_credential_generation=" +:+ Itoa (RecoveryReceipt.AgentCredentialGeneration receipt);
   "agent_credential_expires_at=" +:+ RFC3339Nano (RecoveryReceipt.AgentCredentialExpiresAt receipt);
   "config_sha256=" +:+ RecoveryReceipt.ConfigSHA256 receipt; "config_signature=" +:+ RecoveryReceipt.ConfigSignature receipt].
Definition canonical_signature (encoded : string) : bool :=
  match b64_decode encoded with
  | Some decoded => (length decoded =? ed25519_SignatureSize)%nat && (b64_encode decoded == encoded)
  | None => false
  end.
Definition recoveryReceiptPayload (receipt : RecoveryReceipt.t) : result (list Z) :=
  fail (ErrOther "invalid recovery receipt identity")
    when negb (validPersistedID (RecoveryReceipt.NodeID receipt)) || negb (validPersistedID (RecoveryReceipt.NetworkID receipt));;
  fail (ErrOther "invalid recovery receipt credential metadata")
    when negb (ValidTokenHash (RecoveryReceipt.NewAgentTokenHash receipt))
      || (RecoveryReceipt.AgentCredentialGeneration receipt <? 1) || IsZero (RecoveryReceipt.AgentCredentialExpiresAt receipt);;
  fail (ErrOther "invalid recovery receipt config digest") when negb (fingerprintPattern (RecoveryReceipt.ConfigSHA256 receipt));;
  fail (ErrOther "invalid recovery receipt config signature")
    when negb (canonical_signature (RecoveryReceipt.ConfigSignature receipt));;
  Ok (bytes_of (lines (receipt_lines receipt))).

(** ** Signing and verifying *)
Section signing.
Context `{Crypto}.

Definition ValidateConfigSigningKeyPair (publicKeyEncoded : string) (privateKey : list Z) : result unit :=
  publicKey ← of_option (b64_decode publicKeyEncoded) (ErrOther "invalid config signing public key");
  fail (ErrOther "invalid config signing public key")
    when negb (length publicKey =? ed25519_PublicKeySize)%nat || (b64_encode publicKey != publicKeyEncoded);;
  fail (ErrOther "invalid config signing private key") when negb (length privateKey =? ed25519_PrivateKeySize)%nat;;
  fail (ErrOther "config signing key pair does not match") when publicKey != ed25519_public privateKey;;
  Ok tt.

Definition SignConfig (privateKey : list Z) (metadata : ConfigSignatureMetadata.t) (config : string) : result (string * string) :=
  fail (ErrOther "invalid config signing private key") when negb (length privateKey =? ed25519_PrivateKeySize)%nat;;
  _ ← validateManagedConfig config;
  _ ← validateConfigSignatureMetadata metadata;
  let '(digest, canonical) := configSigningPayload metadata config in
  Ok (digest, b64_encode (ed25519_sign privateKey canonical)).

Definition VerifyConfig (publicKeyEncoded : string) (metadata : ConfigSignatureMetadata.t)
    (config expectedDigest signatureEncoded : string) : result unit :=
  publicKey ← of_option (b64_decode publicKeyEncoded) (ErrOther "invalid config signing public key");
  fail (ErrOther "invalid config signing public key") when negb (length publicKey =? ed25519_PublicKeySize)%nat;;
  _ ← validateConfigSignatureMetadata metadata;
  _ ← validateManagedConfig config;
  signature ← of_option (b64_decode signatureEncoded) (ErrOther "invalid config signature encoding");
  fail (ErrOther "invalid config signature encoding") when negb (length signature =? ed25519_SignatureSize)%nat;;
  let '(digest, canonical) := configSigningPayload metadata config in
  fail (ErrOther "config digest mismatch") when digest != expectedDigest;;
  fail (ErrOther "config signature verification failed") when negb (ed25519_verify publicKey canonical signature);;
  Ok tt.

Definition SignRecoveryReceipt (privateKey : list Z) (receipt : RecoveryReceipt.t) : result string :=
  fail (ErrOther "invalid config signing private key") when negb (length privateKey =? ed25519_PrivateKeySize)%nat;;
  canonical ← recoveryReceiptPayload receipt;
  Ok (b64_encode (ed25519_sign privateKey canonical)).

Definition VerifyRecoveryReceipt (publicKeyEncoded : string) (receipt : RecoveryReceipt.t) : result unit :=
  publicKey ← of_option (b64_decode publicKeyEncoded) (ErrOther "invalid config signing public key");
  fail (ErrOther "invalid config signing public key")
    when negb (length publicKey =? ed25519_PublicKeySize)%nat || (b64_encode publicKey != publicKeyEncoded);;
  signature ← of_option (b64_decode (RecoveryReceipt.Signature receipt)) (ErrOther "invalid recovery receipt signature encoding");
  fail (ErrOther "invalid recovery receipt signature encoding") when negb (length signature =? ed25519_SignatureSize)%nat;;
  canonical ← recoveryReceiptPayload receipt;
  fail (ErrOther "recovery receipt signature verification failed") when negb (ed25519_verify publicKey canonical signature);;
  Ok tt.

(** ** Stored keys *)
Definition OpenFor (purpose encoded : string) : result (list Z) :=
  sealed ← of_option (b64_decode encoded) (ErrOther "decode encrypted key");
  fail (ErrOther "encrypted key is truncated") when (length sealed <? aead_NonceSize)%nat;;
  of_option (aead_open ("mesh-" +:+ purpose) (take aead_NonceSize sealed) (drop aead_NonceSize sealed))
    (ErrOther "decrypt CA key").
Definition Open (encoded : string) : result (list Z) := OpenFor "ca-key-v1" encoded.

(** ** The signed configuration of a node (service.go) *)
Definition signed_metadata (network : Network.t) (node : Node.t) (issuedAt : time) : ConfigSignatureMetadata.t :=
  ConfigSignatureMetadata.make (Node.ID node) (Network.ID network) (Network.ConfigRevision network)
    (if IsZero (Network.ConfigUpdatedAt network) then issuedAt else Network.ConfigUpdatedAt network)
    (ConfigDigest (networkTrustBundle network)) (NetworkCARotation.PreviousTrustBundleSHA256 (Network.CARotation network))
    (networkCARotationRequired network node) (networkCertificateProfileRenewalRequired network node)
    (Node.CertificateFingerprint node) (valueOrZero (Node.CertificateExpiresAt node))
    (valueOrZero (Node.CertificateRenewAfter node)) (Node.CertificateGeneration node) (Node.PublicKeyHash node).

Definition signConfig (network : Network.t) (node : Node.t) (config : string) (issuedAt : time) : result AgentConfig.t :=
  privateKey ← OpenFor "config-signing-key-v1" (Network.EncryptedConfigSigningKey network);
  let m := signed_metadata network node issuedAt in
  '(digest, signature) ← SignConfig privateKey m config;
  Ok (AgentConfig.make (NodeID m) (NetworkID m) (Revision m) config (IssuedAt m) digest (CACertificateSHA256 m)
        (PreviousCACertificateSHA256 m) (CARotationRequired m) (CertificateProfileRenewalRequired m)
        (CertificateFingerprint m) (CertificateGeneration m) (PublicKeyHash m) signature (CertificateExpiresAt m)
        (CertificateRenewAfter m)).

Definition signRecoveryReceipt (network : Network.t) (receipt : RecoveryReceipt.t) : result string :=
  privateKey ← OpenFor "config-signing-key-v1" (Network.EncryptedConfigSigningKey network);
  SignRecoveryReceipt privateKey receipt.
End signing.

Definition enrollmentBundle (network : Network.t) (node : Node.t) (config : string) (signed : AgentConfig.t) : EnrollmentBundle.t :=
  EnrollmentBundle.make (AgentConfig.NodeID signed) (AgentConfig.NetworkID signed) node (Node.Certificate node)
    (networkTrustBundle network) config (AgentConfig.Revision signed) (AgentConfig.CertificateExpiresAt signed)
    (AgentConfig.CertificateRenewAfter signed) (valueOrZero (Node.AgentCredentialExpiresAt node))
    (Node.AgentCredentialGeneration node) (AgentConfig.IssuedAt signed) (AgentConfig.SHA256 signed)
    (AgentConfig.CACertificateSHA256 signed) (AgentConfig.PreviousCACertificateSHA256 signed)
    (AgentConfig.CARotationRequired signed) (AgentConfig.CertificateProfileRenewalRequired signed)
    (AgentConfig.CertificateFingerprint signed) (AgentConfig.CertificateGeneration signed) (AgentConfig.PublicKeyHash signed)
    (AgentConfig.Signature signed) (Network.ConfigSigningPublicKey network).

Definition renewalBundle (network : Network.t) (node : Node.t) (config : string) (signed : AgentConfig.t) : RenewalBundle.t :=
  RenewalBundle.make (AgentConfig.NodeID signed) (AgentConfig.NetworkID signed) (networkTrustBundle network)
    (Node.Certificate node) (AgentConfig.CertificateExpiresAt signed) (AgentConfig.CertificateRenewAfter signed) config
    (AgentConfig.Revision signed) (AgentConfig.IssuedAt signed) (AgentConfig.SHA256 signed)
    (AgentConfig.CACertificateSHA256 signed) (AgentConfig.PreviousCACertificateSHA256 signed)
    (AgentConfig.CARotationRequired signed) (AgentConfig.CertificateProfileRenewalRequired signed)
    (AgentConfig.CertificateFingerprint signed) (AgentConfig.CertificateGeneration signed)
    (AgentConfig.PublicKeyHash signed) (AgentConfig.Signature signed).

(** ** Words without line breaks *)
Definition one_line (s : string) : bool := negb (contains_char s LF).

Lemma one_line_class (cls : Z → bool) s : cls 10 = false → forallb cls (bytes_of s) = true → one_line s = true.
Proof.
  intros H0. unfold one_line. induction s as [|c s IH]; simpl; [done|]. intros. split_bools.
  specialize (IH ltac:(done)). split_bools. rewrite negb_orb, andb_true_iff, !negb_true_iff. split; [|done].
  apply bool_decide_eq_false. intros <-. change (byte_of LF) with 10 in *. congruence.
Qed.
Lemma one_line_app a b : one_line a = true → one_line b = true → one_line (a +:+ b) = true.
Proof. unfold one_line. rewrite contains_char_app, negb_orb. by intros -> ->. Qed.

Lemma one_line_fingerprint s : fingerprintPattern s = true → one_line s = true.
Proof. unfold fingerprintPattern. intros H. split_bools. by apply (one_line_class AuditLog.hex_digit). Qed.
Lemma one_line_id s : validPersistedID s = true → one_line s = true.
Proof. unfold validPersistedID. case_match; [done|]. by apply (one_line_class group_tail). Qed.
Lemma one_line_identity s : ContainsAny s [CR; LF] = false → one_line s = true.
Proof. unfold ContainsAny, one_line. cbn [existsb]. intros H. by split_bools; apply negb_true_iff. Qed.

#[local] Transparent Itoa.
Lemma one_line_Itoa z : 0 ≤ z → one_line (Itoa z) = true.
Proof.
  intros Hz. assert (∀ x s, one_line s = true → one_line (pretty_N_go x s) = true) as Hgo.
  { intros x. induction (N.lt_wf_0 x) as [x _ IH]; intros s Hs.
    destruct (decide (x = 0)%N) as [->|]; [by rewrite pretty_N_go_0|].
    rewrite pretty_N_go_step by lia. apply IH; [apply N.div_lt; lia|].
    change (String ?c s) with (String c "" +:+ s). apply one_line_app; [|done].
    unfold pretty_N_char. by repeat case_match. }
  unfold Itoa, pretty, pretty_Z. destruct z as [|p|p]; [done| |lia].
  change (one_line (pretty_N_go (N.pos p) "") = true). by apply Hgo.
Qed.

#[local] Opaque Itoa.

Lemma one_line_time t : valid_time t → one_line (RFC3339Nano t) = true.
Proof.
  intros Ht. apply (one_line_class (λ c, 43 <=? c)); [done|]. apply forallb_forall. intros c Hc.
  pose proof (RFC3339Nano_chars t Ht) as H. rewrite Forall_forall in H. apply list_elem_of_In, H in Hc. lia.
Qed.

(** Decoded base64 is bytes, so that canonical base64 holds no line break. *)
Lemma quads_ind (P : list Z → Prop) :
  P [] → (∀ a, P [a]) → (∀ a b, P [a; b]) → (∀ a b c, P [a; b; c]) → (∀ a b c d l, P l → P (a :: b :: c :: d :: l)) → ∀ l, P l.
Proof.
  intros H0 H1 H2 H3 H4 l. remember (length l) as n eqn:En. revert l En.
  induction n as [n IH] using lt_wf_ind. intros l ->.
  destruct l as [|a [|b [|c [|d l]]]]; auto. apply H4. eapply IH; [|reflexivity]. simpl. lia.
Qed.

Lemma b64_unpack_bytes ds l : Forall (λ d, 0 ≤ d < 64) ds → b64_unpack ds = Some l → Forall is_byte l.
Proof.
  unfold is_byte. revert l. induction ds as [|a|a b|a b c|a b c d ds IH] using quads_ind; intros l Hds; cbn [b64_unpack].
  - by intros [= <-].
  - done.
  - intros [= <-]. rewrite !Forall_cons in Hds. repeat constructor; Z.div_mod_to_equations; lia.
  - intros [= <-]. rewrite !Forall_cons in Hds. repeat constructor; Z.div_mod_to_equations; lia.
  - intros (rest & Hr & [= <-])%bind_Some. rewrite !Forall_cons in Hds. destruct Hds as (?&?&?&?&Hds).
    specialize (IH _ Hds Hr). repeat constructor; [Z.div_mod_to_equations; lia..|done].
Qed.
Lemma b64_digits_range l ds : b64_digits l = Some ds → Forall (λ d, 0 ≤ d < 64) ds.
Proof.
  revert ds. induction l as [|c l IH]; intros ds; simpl; [by intros [= <-]|].
  destruct (_ || _); [apply IH|]. intros (d & Hd & H)%bind_Some. apply bind_Some in H as (ds' & Hds & [= <-]).
  constructor; [|auto]. unfold b64_digit, upper_alpha, lower_alpha, digit in Hd. repeat case_match; simplify_eq; lia.
Qed.
Lemma b64_decode_bytes s l : b64_decode s = Some l → Forall is_byte l.
Proof. unfold b64_decode. intros (ds & Hds & H)%bind_Some. eapply b64_unpack_bytes; [by eapply b64_digits_range|done]. Qed.

Lemma one_line_b64 l : Forall is_byte l → one_line (b64_encode l) = true.
Proof.
  intros Hl. apply (one_line_class (λ c, negb (c =? 10))); [done|]. unfold b64_encode. rewrite bytes_of_string_of.
  - apply forallb_forall. intros c Hc. apply list_elem_of_In, list_elem_of_fmap in Hc as (d & -> & Hd).
    pose proof (b64_pack_digits l Hl) as H. rewrite Forall_forall in H. destruct (b64_char_ok d (H d Hd)) as (_ & _ & -> & _). done.
  - apply Forall_fmap. eapply Forall_impl; [by apply b64_pack_digits|]. intros d Hd. by apply b64_char_ok.
Qed.
Lemma one_line_canonical s l : b64_decode s = Some l → b64_encode l = s → one_line s = true.
Proof. intros Hd <-. apply one_line_b64. by eapply b64_decode_bytes. Qed.
Lemma one_line_hash s : ValidTokenHash s = true → one_line s = true.
Proof.
  unfold ValidTokenHash, canonical32. destruct (b64_decode s) as [l|] eqn:E; [|done]. intros H. split_bools.
  by eapply one_line_canonical.
Qed.
Lemma one_line_signature s : canonical_signature s = true → one_line s = true.
Proof.
  unfold canonical_signature. destruct (b64_decode s) as [l|] eqn:E; [|done]. intros H. split_bools.
  by eapply one_line_canonical.
Qed.

(** ** Lines can be read back *)
Lemma split_lines l : forallb one_line l = true → split_on LF (lines l) = l ++ [""].
Proof.
  induction l as [|a l IH]; [done|]. cbn [forallb]. intros H. split_bools. unfold one_line in *. split_bools.
  change (lines (a :: l)) with (line a +:+ lines l). unfold line. rewrite string_app_assoc.
  change nl with (String LF ""). rewrite split_on_app by done. by rewrite IH.
Qed.
Lemma lines_inj l l' : forallb one_line l = true → forallb one_line l' = true → lines l = lines l' → l = l'.
Proof.
  intros Hl Hl' E. apply (f_equal (split_on LF)) in E. rewrite !split_lines in E by done.
  by apply app_inj_2 in E as [E _].
Qed.
Lemma field_inj key a b : key +:+ a = key +:+ b → a = b.
Proof. induction key as [|c key IH]; [done|]. intros E. apply IH. by injection E. Qed.

(** ** What a payload binds *)
Definition metadata_times (m : ConfigSignatureMetadata.t) : Prop :=
  valid_time (IssuedAt m) ∧ valid_time (CertificateExpiresAt m) ∧ valid_time (CertificateRenewAfter m).

Lemma validate_metadata_facts m : validateConfigSignatureMetadata m = Ok tt →
  one_line (NodeID m) = true ∧ one_line (NetworkID m) = true ∧ 1 ≤ Revision m ∧ 1 ≤ CertificateGeneration m ∧
  one_line (CACertificateSHA256 m) = true ∧ one_line (CertificateFingerprint m) = true ∧ one_line (PublicKeyHash m) = true ∧
  one_line (PreviousCACertificateSHA256 m) = true ∧
  (CARotationRequired m = true → CertificateProfileRenewalRequired m = false).
Proof.
  unfold validateConfigSignatureMetadata. intros H. apply guard_iff in H as [H1 H]. apply guard_iff in H as [H2 H].
  apply guard_iff in H as [H3 H]. apply guard_iff in H as [H4 H]. apply guard_iff in H as [_ H]. apply guard_iff in H as [H5 _].
  split_bools. split_and!; auto using one_line_identity, one_line_fingerprint, one_line_hash; try lia.
  - destruct (decide (PreviousCACertificateSHA256 m = "")) as [->|E]; [done|].
    rewrite (bool_decide_eq_false_2 _ E) in H4. apply one_line_fingerprint. simpl in H4. by split_bools.
  - intros E. by rewrite E in H5.
Qed.

Lemma payload_one_line m config : validateConfigSignatureMetadata m = Ok tt → metadata_times m →
  forallb one_line (payload_lines m (ConfigDigest config)) = true.
Proof.
  intros (H1 & H2 & H3 & H4 & H5 & H6 & H7 & H8 & _)%validate_metadata_facts (T1 & T2 & T3).
  assert (one_line (ConfigDigest config) = true) as Hd by apply one_line_fingerprint, fingerprint_digest.
  assert (one_line (bool_text (CARotationRequired m)) = true) as Hb by (by destruct (CARotationRequired m)).
  apply one_line_time in T1, T2, T3. pose proof (one_line_Itoa (Revision m) ltac:(lia)) as I1.
  pose proof (one_line_Itoa (CertificateGeneration m) ltac:(lia)) as I2.
  unfold payload_lines. destruct (_ && _ && _); [|destruct (CertificateProfileRenewalRequired m)];
    unfold payload_v3, payload_v4, payload_v5; cbn [forallb]; rewrite !one_line_app by done; done.
Qed.

Lemma bool_text_inj a b : bool_text a = bool_text b → a = b.
Proof. by destruct a, b. Qed.

(** Compares two lists of lines field by field. *)
Ltac read_fields E :=
  simpl in E; injection E; clear E; intros;
  repeat match goal with
  | H : "" +:+ ?a = "" +:+ ?b |- _ => change (a = b) in H
  | H : Itoa ?a = Itoa ?b |- _ => apply (inj (pretty (A := Z))) in H
  | H : bool_text _ = bool_text _ |- _ => apply bool_text_inj in H
  | H : RFC3339Nano ?a = RFC3339Nano ?b |- _ => apply RFC3339Nano_inj in H; [|done..]
  end; subst.

(** The lines determine the digest and every field, but for the previous authority
    when a profile renewal is required. *)
Lemma payload_lines_inj m m' d d' :
  validateConfigSignatureMetadata m = Ok tt → validateConfigSignatureMetadata m' = Ok tt →
  metadata_times m → metadata_times m' → payload_lines m d = payload_lines m' d' →
  d = d' ∧ m' = m <| PreviousCACertificateSHA256 := PreviousCACertificateSHA256 m' |> ∧
  (CertificateProfileRenewalRequired m = false → m' = m).
Proof.
  intros (_ & _ & _ & _ & _ & _ & _ & _ & Hx)%validate_metadata_facts
    (_ & _ & _ & _ & _ & _ & _ & _ & Hx')%validate_metadata_facts (T1 & T2 & T3) (T1' & T2' & T3') E.
  destruct m as [n w r i ca pr ro pf fp ex re g pk], m' as [n' w' r' i' ca' pr' ro' pf' fp' ex' re' g' pk'].
  simpl in *. unfold payload_lines in E. simpl in E.
  destruct pf, pf'; simpl in E; rewrite ?andb_false_r in E; rewrite ?andb_true_r in E;
    [|destruct (_ && _); discriminate E..|].
  - destruct ro; [by specialize (Hx eq_refl)|]. destruct ro'; [by specialize (Hx' eq_refl)|].
    unfold payload_v5 in E. by read_fields E.
  - destruct ((pr == "") && negb ro) eqn:Hv, ((pr' == "") && negb ro') eqn:Hv'; [|discriminate E..|].
    + unfold payload_v3 in E. split_bools. by read_fields E.
    + unfold payload_v4 in E. by read_fields E.
Qed.

(** ** Properties *)
Section properties.
Context `{Crypto}.

Lemma b64_decode_canonical key : Forall is_byte key → b64_decode (b64_encode key) = Some key.
Proof. apply b64_decode_encode. Qed.

Lemma sign_then_verify `{!CryptoLaws} key public m config digest signature :
  ValidateConfigSigningKeyPair public key = Ok tt → SignConfig key m config = Ok (digest, signature) →
  VerifyConfig public m config digest signature = Ok tt.
Proof.
  unfold ValidateConfigSigningKeyPair, SignConfig, VerifyConfig. intros Hpair Hsign.
  apply bind_Ok in Hpair as (pk & Hpk%of_option_Ok & Hpair). apply guard_iff in Hpair as [H1 Hpair].
  apply guard_iff in Hpair as [H2 Hpair]. apply guard_iff in Hpair as [H3 _]. split_bools. apply Nat.eqb_eq in H2.
  apply guard_iff in Hsign as [_ Hsign]. apply bind_Ok in Hsign as ([] & Hc & Hsign).
  apply bind_Ok in Hsign as ([] & Hm & Hsign). cbn [configSigningPayload] in Hsign. injection Hsign as <- <-.
  set (canonical := bytes_of _). destruct (signature_size key canonical) as [Hlen Hbytes].
  rewrite Hpk. simpl. rewrite H1. simpl. rewrite Hm, Hc. simpl. rewrite b64_decode_canonical by done. simpl.
  rewrite Hlen. simpl. rewrite bool_decide_eq_true_2 by done. simpl.
  fold canonical. rewrite H3, sign_verifies by done. done.
Qed.

(** What the control plane signs, agents verify: when the network's stored
    signing key opens to the private half of its public key, a configuration signed
    by signConfig verifies against that public key, with the metadata read back from
    the plain document, from the enrollment bundle and from the renewal bundle. *)
Theorem signed_config_verifies `{!CryptoLaws} network node config issuedAt key signed :
  OpenFor "config-signing-key-v1" (Network.EncryptedConfigSigningKey network) = Ok key →
  ValidateConfigSigningKeyPair (Network.ConfigSigningPublicKey network) key = Ok tt →
  signConfig network node config issuedAt = Ok signed →
  let public := Network.ConfigSigningPublicKey network in
  let enrollment := enrollmentBundle network node config signed in
  let renewal := renewalBundle network node config signed in
  VerifyConfig public (AgentConfig.SignatureMetadata signed) (AgentConfig.Config signed) (AgentConfig.SHA256 signed)
    (AgentConfig.Signature signed) = Ok tt ∧
  VerifyConfig public (bundle_metadata enrollment) (EnrollmentBundle.Config enrollment) (EnrollmentBundle.ConfigSHA256 enrollment)
    (EnrollmentBundle.ConfigSignature enrollment) = Ok tt ∧
  VerifyConfig public (RenewalBundle.SignatureMetadata renewal) (RenewalBundle.Config renewal)
    (RenewalBundle.ConfigSHA256 renewal) (RenewalBundle.ConfigSignature renewal) = Ok tt.
Proof.
  intros Hopen Hpair Hsign. unfold signConfig in Hsign. rewrite Hopen in Hsign.
  apply bind_Ok in Hsign as (k & [= <-] & Hsign). cbv zeta in Hsign.
  apply bind_Ok in Hsign as ([digest signature] & Hs & Hsign). injection Hsign as <-.
  pose proof (sign_then_verify _ _ _ _ _ _ Hpair Hs) as Hv.
  repeat split; exact Hv.
Qed.

(** A recovery receipt binds its facts and is never a configuration: two receipts
    with one payload agree on every field but the signature, and the payload of a
    receipt differs from the payload of every valid configuration. *)
Theorem receipt_payload_binds r r' payload m config :
  recoveryReceiptPayload r = Ok payload → recoveryReceiptPayload r' = Ok payload →
  valid_time (RecoveryReceipt.AgentCredentialExpiresAt r) → valid_time (RecoveryReceipt.AgentCredentialExpiresAt r') →
  validateConfigSignatureMetadata m = Ok tt → metadata_times m →
  r' = r <| RecoveryReceipt.Signature := RecoveryReceipt.Signature r' |> ∧ payload ≠ snd (configSigningPayload m config).
Proof.
  intros Hr Hr' Ht Ht' Hm Hmt.
  assert (∀ x p, recoveryReceiptPayload x = Ok p → valid_time (RecoveryReceipt.AgentCredentialExpiresAt x) →
    p = bytes_of (lines (receipt_lines x)) ∧ forallb one_line (receipt_lines x) = true) as Hpay.
  { clear. intros x p Hx Ht. unfold recoveryReceiptPayload in Hx. apply guard_iff in Hx as [H1 Hx].
    apply guard_iff in Hx as [H2 Hx]. apply guard_iff in Hx as [H3 Hx]. apply guard_iff in Hx as [H4 Hx].
    injection Hx as <-. split_bools. split; [done|]. unfold receipt_lines. cbn [forallb].
    repeat rewrite one_line_app; auto using one_line_id, one_line_hash, one_line_fingerprint, one_line_signature, one_line_time.
    apply one_line_Itoa. lia. }
  destruct (Hpay r payload Hr Ht) as [-> Hl], (Hpay r' _ Hr' Ht') as [E Hl'].
  apply bytes_of_inj, lines_inj in E; [|done..]. split.
  - destruct r, r'. unfold receipt_lines in E. simpl in *. by read_fields E.
  - cbn [configSigningPayload snd]. intros E2. apply bytes_of_inj, lines_inj in E2; [|done|by apply payload_one_line].
    unfold payload_lines in E2. destruct (_ && _ && _); [|destruct (CertificateProfileRenewalRequired m)]; discriminate E2.
Qed.
(** C18: what is signed says one thing.  Two artifacts with valid metadata (and times that
    RFC 3339 can write) are signed as the same bytes exactly when their configurations
    have the same digest and their metadata agree on every field, the previous
    authority excepted when a profile renewal is required: that one field is then not
    signed.  And what is signed for a recovery receipt is never what is signed for an
    artifact. *)
Theorem signed_payload_binds_artifact m m' config config' :
  validateConfigSignatureMetadata m = Ok tt → validateConfigSignatureMetadata m' = Ok tt → metadata_times m → metadata_times m' →
  (snd (configSigningPayload m config) = snd (configSigningPayload m' config') ↔
   ConfigDigest config = ConfigDigest config' ∧ m' = m <| PreviousCACertificateSHA256 := PreviousCACertificateSHA256 m' |> ∧
   (CertificateProfileRenewalRequired m = false → PreviousCACertificateSHA256 m' = PreviousCACertificateSHA256 m)) ∧
  ∀ receipt payload, recoveryReceiptPayload receipt = Ok payload → valid_time (RecoveryReceipt.AgentCredentialExpiresAt receipt) →
    payload ≠ snd (configSigningPayload m config).
Proof.
  intros Hm Hm' Ht Ht'. split; [split|].
  - intros E. apply bytes_of_inj, lines_inj in E; [|by apply payload_one_line..].
    apply payload_lines_inj in E as (-> & E & E'); [|done..]. split; [done|]. split; [done|]. intros Hf. by rewrite (E' Hf).
  - intros (Hd & E & Hp). cbn [configSigningPayload snd]. rewrite Hd. do 2 f_equal. rewrite E. unfold payload_lines. cbn.
    destruct (CertificateProfileRenewalRequired m); [|by rewrite Hp].
    rewrite !andb_false_r. done.
  - intros receipt payload Hr Htime. by apply (receipt_payload_binds receipt receipt payload m config).
Qed.

(** With a profile renewal required, the trust transition is not signed: an
    artifact that agents accept stays accepted, with the same signature, when the
    previous authority is replaced by any other digest. *)
Theorem transition_unsigned_with_profile_renewal public m config digest signature previous :
  VerifyConfig public m config digest signature = Ok tt → CertificateProfileRenewalRequired m = true →
  fingerprintPattern previous = true → previous ≠ CACertificateSHA256 m →
  VerifyConfig public (m <| PreviousCACertificateSHA256 := previous |>) config digest signature = Ok tt.
Proof.
  intros Hv Hp Hf Hne. set (m' := m <| PreviousCACertificateSHA256 := previous |>).
  assert (payload_lines m' (ConfigDigest config) = payload_lines m (ConfigDigest config)) as Hl.
  { unfold payload_lines, m'. simpl. rewrite Hp, !andb_false_r. done. }
  assert (validateConfigSignatureMetadata m = Ok tt → validateConfigSignatureMetadata m' = Ok tt) as Hm'.
  { unfold validateConfigSignatureMetadata. rewrite !guard_iff. intros (G1 & G2 & G3 & _ & _ & G6 & _).
    rewrite Hp, andb_true_r in G6. split; [exact G1|]. split; [exact G2|]. split; [exact G3|].
    unfold m'. cbn [PreviousCACertificateSHA256 CACertificateSHA256 CARotationRequired over
      CertificateProfileRenewalRequired]. rewrite Hp, G6, Hf, (bool_decide_eq_false_2 _ Hne), andb_false_r. done. }
  clearbody m'. unfold VerifyConfig in *. apply bind_Ok in Hv as (pk & -> & Hv). simpl.
  apply guard_iff in Hv as [-> Hv]. simpl. apply bind_Ok in Hv as ([] & Hm & Hv). rewrite (Hm' Hm). simpl.
  apply bind_Ok in Hv as ([] & -> & Hv). simpl. apply bind_Ok in Hv as (sig & -> & Hv). simpl.
  apply guard_iff in Hv as [-> Hv]. simpl. cbn [configSigningPayload] in Hv. rewrite Hl. exact Hv.
Qed.

End properties.

(** ** Witnesses: a toy signature scheme *)
Definition toy_tag (public message : list Z) : list Z := Sum256 (public ++ message) ++ Sum256 (public ++ message).
Definition toy_crypto : Crypto := {|
  ed25519_sign key message := toy_tag (drop 32 key) message;
  ed25519_verify public message signature := signature == toy_tag public message;
  ed25519_public key := drop 32 key;
  aead_open _ _ ciphertext := Some ciphertext |}.
Lemma toy_laws : @CryptoLaws toy_crypto.
Proof.
  constructor.
  - intros key message. unfold ed25519_sign, toy_crypto, toy_tag. simpl.
    destruct (Sum256_ok (drop 32 key ++ message)) as [Hl Hb]. rewrite length_app, Hl. split; [done|]. by apply Forall_app.
  - intros key message _. unfold ed25519_verify, ed25519_public, ed25519_sign, toy_crypto.
    by apply bool_decide_eq_true.
Qed.

Definition signing_key : list Z := replicate 32 1 ++ replicate 32 2.
Definition signing_network : Network.t :=
  ca_network NetworkCARotation.zero <| Network.ConfigSigningPublicKey := b64_encode (replicate 32 2) |>
    <| Network.EncryptedConfigSigningKey := b64_encode (replicate 12 0 ++ signing_key) |>.
Definition signing_node : Node.t :=
  ca_node "" 7 <| Node.CertificateFingerprint := ConfigDigest "certificate" |> <| Node.CertificateExpiresAt := Some (3000 * second) |>
    <| Node.CertificateRenewAfter := Some (2000 * second) |> <| Node.PublicKeyHash := HashToken "public key" |>.
Definition signing_result : result AgentConfig.t :=
  @signConfig toy_crypto signing_network signing_node "config: 1" (1000 * second).
Definition signed_example : AgentConfig.t :=
  match signing_result with Ok a => a | Err _ => AgentConfig.make "" "" 0 "" 0 "" "" "" false false "" 0 "" "" 0 0 end.

Lemma signed_config_verifies_witness :
  @VerifyConfig toy_crypto (b64_encode (replicate 32 2)) (AgentConfig.SignatureMetadata signed_example) "config: 1"
    (AgentConfig.SHA256 signed_example) (AgentConfig.Signature signed_example) = Ok tt.
Proof.
  refine (proj1 (@signed_config_verifies toy_crypto toy_laws signing_network signing_node "config: 1" (1000 * second)
    signing_key signed_example _ _ _)); vm_compute; reflexivity.
Defined.

(** A scheme whose signature verifies one message only: the payload of [example_metadata]. *)
Definition example_metadata : ConfigSignatureMetadata.t :=
  ConfigSignatureMetadata.make "node-1" "network-1" 7 (1000 * second) (ConfigDigest "authority") "" false true
    (ConfigDigest "certificate") (3000 * second) (2000 * second) 2 (HashToken "public key").
Definition one_message_crypto : Crypto := {|
  ed25519_sign _ _ := replicate 64 0;
  ed25519_verify _ message _ := message == snd (configSigningPayload example_metadata "config: 1");
  ed25519_public key := drop 32 key;
  aead_open _ _ ciphertext := Some ciphertext |}.
Definition example_public : string := b64_encode (replicate 32 2).
Definition example_signature : string := b64_encode (replicate 64 0).

Definition forged_metadata : ConfigSignatureMetadata.t :=
  example_metadata <| PreviousCACertificateSHA256 := ConfigDigest "forged" |>.
Lemma example_times : metadata_times example_metadata.
Proof. unfold metadata_times, valid_time. split_and!; vm_compute; congruence. Qed.
Lemma forged_times : metadata_times forged_metadata.
Proof. unfold metadata_times, valid_time. split_and!; vm_compute; congruence. Qed.

Lemma transition_unsigned_with_profile_renewal_witness :
  @VerifyConfig one_message_crypto example_public
    (example_metadata <| PreviousCACertificateSHA256 := ConfigDigest "forged" |>) "config: 1" (ConfigDigest "config: 1")
    example_signature = Ok tt.
Proof.
  refine (@transition_unsigned_with_profile_renewal one_message_crypto example_public example_metadata "config: 1"
    (ConfigDigest "config: 1") example_signature (ConfigDigest "forged") _ _ _ _); vm_compute; first [reflexivity|discriminate].
Defined.

(** Under a profile renewal the previous authority is free. *)
Lemma signed_payload_binds_artifact_witness :
  snd (configSigningPayload example_metadata "config: 1") = snd (configSigningPayload forged_metadata "config: 1") ↔
  ConfigDigest "config: 1" = ConfigDigest "config: 1" ∧
  forged_metadata = example_metadata <| PreviousCACertificateSHA256 := PreviousCACertificateSHA256 forged_metadata |> ∧
  (CertificateProfileRenewalRequired example_metadata = false →
   PreviousCACertificateSHA256 forged_metadata = PreviousCACertificateSHA256 example_metadata).
Proof.
  refine (proj1 (signed_payload_binds_artifact example_metadata forged_metadata "config: 1" "config: 1" _ _ example_times forged_times));
    vm_compute; reflexivity.
Defined.

Definition example_receipt (signature : string) : RecoveryReceipt.t :=
  RecoveryReceipt.make "node-1" "network-1" (HashToken "bearer") 3 (5000 * second) (ConfigDigest "config: 1")
    example_signature signature.
Lemma receipt_payload_binds_witness :
  example_receipt "b" = example_receipt "a" <| RecoveryReceipt.Signature := "b" |>.
Proof.
  refine (proj1 (receipt_payload_binds (example_receipt "a") (example_receipt "b")
    (bytes_of (lines (receipt_lines (example_receipt "a")))) example_metadata "config: 1"
    _ _ _ _ _ example_times)).
  - vm_compute. reflexivity.
  - vm_compute. reflexivity.
  - split; vm_compute; congruence.
  - split; vm_compute; congruence.
  - vm_compute. reflexivity.
Defined.
