(* ===== verification/Enrollment.v ===== *)
(** * Enrolling and recovering agents (internal/control/service.go, and
    canonicalNebulaPublicKeyPEM of internal/control/nebula.go)

    Enrollment exchanges a one-time bearer for a certificate and an agent
    credential.  The request claims the bearer in one transaction, has the
    certificate signed outside any transaction, and commits in a second one, which
    checks that the claim is still its own; a request that fails in between
    releases the claim.  Recovery exchanges an administrator's one-time bearer for
    a new agent credential in the same two transactions.  Other requests may run
    between the transactions of one request: [others] is what they do to the
    state. *)
From S2P Require Import Prelude GoStd Sha256 IPv4 Model AuditLog Routes RouteState Reservations RoutePolicies.
From S2P Require Import NetworkSettings Render Credentials CARotation SignedConfig.
From Stdlib Require Import Ascii.

(** ** The interface to Nebula

    The PEM codec of Nebula's certificate package and the certificate issuer, an
    external program. *)
Class Nebula := {
  UnmarshalPublicKeyFromPEM : string → option (list Z * string * Z);  (* key, remainder, curve *)
  MarshalPublicKeyToPEM : Z → list Z → string;
  SignPublicKey : string → string → string → string → string → string → string → duration → result (string * string * time)
}.

Definition put_enrollment (state : State.t) (i : nat) (enrollment : EnrollmentToken.t) : State.t :=
  state <| State.Enrollments := <[i := enrollment]> (State.Enrollments state) |>.
Definition put_recovery (state : State.t) (i : nat) (recovery : AgentRecoveryToken.t) : State.t :=
  state <| State.AgentRecoveries := <[i := recovery]> (State.AgentRecoveries state) |>.

(** A request is identified by the hash of its key and its new credential. *)
Definition request_hash (publicKey agentTokenHash : string) : string :=
  HashToken (publicKey +:+ String "000"%char agentTokenHash).
(** A claim less than five minutes old is in flight. *)
Definition in_flight (now : time) (claimedAt : option time) : bool :=
  match claimedAt with Some at_ => Sub now at_ <? 5 * minute | None => false end.

(** What the issuer returned, with the time from which renewal is due. *)
Module Certificate.
Record t := make { Certificate : string; Fingerprint : string; ExpiresAt : time; RenewAfter : time }.
End Certificate.

Definition prefixLength (cidr : string) : result string :=
  '(_, network) ← of_option (ParseCIDR cidr) (ErrOther "nil pointer dereference"); Ok (Itoa (p_bits network)).
Definition certificate_ttl (network : Network.t) : duration := wrap64 (Network.CertificateTTL network * hour).

Section requests.
Context `{Crypto, Nebula}.

Definition canonicalNebulaPublicKeyPEM (raw : string) : result string :=
  fail (ErrOther "Nebula public key is empty, oversized, or not valid UTF-8")
    when (len raw <? 40) || (4096 <? len raw) || negb (ValidString raw);;
  let normalized := TrimSpace raw +:+ String "010"%char "" in
  '(publicKey, remainder, curve) ← of_option (UnmarshalPublicKeyFromPEM normalized) (ErrOther "decode Nebula public key");
  let canonical := MarshalPublicKeyToPEM curve publicKey in
  fail (ErrOther "Nebula public key must be exactly one canonical PEM block")
    when (canonical == "") || (remainder != "") || (normalized != canonical);;
  Ok canonical.

(** The certificate of a node for a list of routed subnets, signed by the
    network's signing authority. *)
Definition sign_certificate (network : Network.t) (node : Node.t) (subnets : list string) (publicKey : string) :
    result (string * string * time) :=
  let '(signingCACertificate, signingCAKey) := networkSigningAuthority network in
  caKey ← Open signingCAKey;
  bits ← prefixLength (Network.CIDR network);
  '(certificate, fingerprint, expiresAt) ← SignPublicKey signingCACertificate (string_of caKey) publicKey (Node.Name node)
    (Node.IP node +:+ "/" +:+ bits) (join "," (Node.Groups node)) (join "," subnets) (certificate_ttl network);
  fail (ErrOther "certificate issuer returned invalid certificate metadata")
    when negb (fingerprintPattern fingerprint) || IsZero expiresAt;;
  Ok (certificate, fingerprint, expiresAt).
Definition renew_after (now expiresAt : time) (ttl : duration) : result time :=
  let renewAfter := expiresAt - renewalWindow ttl in
  fail (ErrOther "certificate issuer returned invalid renewal metadata")
    when IsZero renewAfter || negb (After renewAfter now) || negb (Before renewAfter expiresAt);;
  Ok renewAfter.

(** ** Enrollment *)
Definition enroll_preflight (at_ : time) (tokenHash : string) (read : State.t) : result unit :=
  fail ErrUnauthorized when
    negb (existsb (λ e, Before at_ (EnrollmentToken.ExpiresAt e) && TokenHashEqual (EnrollmentToken.TokenHash e) tokenHash)
            (State.Enrollments read));;
  Ok tt.

Inductive enroll_outcome :=
  | EnrollReplay (bundle : EnrollmentBundle.t)
  | EnrollClaimed (enrollment : EnrollmentToken.t) (node : Node.t) (network : Network.t).

Definition presented (claimedAt : time) (token : string) (enrollment : EnrollmentToken.t) : Prop :=
  Before claimedAt (EnrollmentToken.ExpiresAt enrollment) && TokenEqual (EnrollmentToken.TokenHash enrollment) token = true.
#[global] Instance presented_dec claimedAt token enrollment : Decision (presented claimedAt token enrollment) :=
  decide (_ && _ = true).

Definition enroll_claim (claimID : string) (claimedAt : time) (token publicKey agentTokenHash : string) (state : State.t) :
    result (State.t * enroll_outcome) :=
  '(i, candidate) ← of_option (list_find (presented claimedAt token) (State.Enrollments state)) ErrUnauthorized;
  let requestHash := request_hash publicKey agentTokenHash in
  match EnrollmentToken.UsedAt candidate with
  | Some _ =>
      fail ErrUnauthorized when EnrollmentToken.ClaimKeyHash candidate != requestHash;;
      node ← of_option (findNode state (EnrollmentToken.NodeID candidate)) ErrUnauthorized;
      fail ErrUnauthorized when (Node.Status node != "active") || (Node.AgentTokenHash node != agentTokenHash);;
      network ← of_option (findNetwork state (Node.NetworkID node)) ErrUnauthorized;
      let config := renderConfig state network node in
      signed ← signConfig network node config claimedAt;
      Ok (state, EnrollReplay (enrollmentBundle network node config signed))
  | None =>
      fail ErrUnauthorized when strictCredentialHashInUse state agentTokenHash;;
      fail ErrUnauthorized when in_flight claimedAt (EnrollmentToken.ClaimedAt candidate);;
      node ← of_option (findNode state (EnrollmentToken.NodeID candidate)) ErrUnauthorized;
      fail ErrUnauthorized when Node.Status node != "pending";;
      network ← of_option (findNetwork state (Node.NetworkID node)) ErrUnauthorized;
      let claimed := candidate <| EnrollmentToken.ClaimID := claimID |> <| EnrollmentToken.ClaimedAt := Some claimedAt |>
                               <| EnrollmentToken.ClaimKeyHash := requestHash |> in
      Ok (put_enrollment state i claimed, EnrollClaimed claimed node network)
  end.

(** Between the transactions. *)
Definition enroll_certificate (now : time) (network : Network.t) (node : Node.t) (publicKey : string) : result Certificate.t :=
  '(certificate, fingerprint, expiresAt) ← sign_certificate network node (elems (Node.RoutedSubnets node)) publicKey;
  fail (ErrOther "certificate issuer returned an expired certificate") when negb (After expiresAt now);;
  renewAfter ← renew_after now expiresAt (certificate_ttl network);
  Ok (Certificate.make certificate fingerprint expiresAt renewAfter).

Definition certified_node (state : State.t) (signingCACertificate : string) (issued : Certificate.t) (node : Node.t) : Node.t :=
  node <| Node.Certificate := Certificate.Certificate issued |>
       <| Node.CertificateFingerprint := Certificate.Fingerprint issued |>
       <| Node.CertificateAuthoritySHA256 := if ControlStateVersionCARotation <=? State.Version state
                                              then ConfigDigest signingCACertificate
                                              else Node.CertificateAuthoritySHA256 node |>
       <| Node.CertificateExpiresAt := Some (Certificate.ExpiresAt issued) |>
       <| Node.CertificateRenewAfter := Some (Certificate.RenewAfter issued) |>.
Definition enrolled_node (state : State.t) (now : time) (signingCACertificate publicKey agentTokenHash : string)
    (issued : Certificate.t) (node : Node.t) : Node.t :=
  certified_node state signingCACertificate issued (node <| Node.Status := "active" |>)
    <| Node.CertificateGeneration := 1 |> <| Node.AgentTokenHash := agentTokenHash |>
    <| Node.AgentCredentialExpiresAt := Some (now + 90 * day) |> <| Node.AgentCredentialGeneration := 1 |>
    <| Node.PublicKeyHash := HashToken publicKey |> <| Node.EnrolledAt := Some now |>.

(** A new lighthouse or gateway changes every node's configuration; the revision
    is incremented without a check. *)
Definition announce_node (state : State.t) (now : time) (node : Node.t) (network : Network.t) : Network.t :=
  reconcileNetworkRoutePolicies state
    (if (Node.Role node == "lighthouse") || negb (length (elems (Node.RoutedSubnets node)) =? 0)%nat
     then network <| Network.ConfigRevision := wrap64 (Network.ConfigRevision network + 1) |>
                  <| Network.ConfigUpdatedAt := now |>
     else network).

Definition issuance (now : time) (node : Node.t) (issued : Certificate.t) : CertificateIssuance.t :=
  CertificateIssuance.make (Certificate.Fingerprint issued) (Node.ID node) (Node.NetworkID node) now (Certificate.ExpiresAt issued).

Definition enroll_commit (eventID : string) (now : time) (claimID publicKey agentTokenHash enrollmentID nodeID networkID
    signingCACertificate : string) (issued : Certificate.t) (state : State.t) : result (State.t * EnrollmentBundle.t) :=
  latest ← of_option (findNetwork state networkID) ErrUnauthorized;
  fail ErrConflict when fst (networkSigningAuthority latest) != signingCACertificate;;
  fail ErrUnauthorized when strictCredentialHashInUse state agentTokenHash;;
  '(i, enrollment) ← of_option (list_find (λ e, EnrollmentToken.ID e = enrollmentID) (State.Enrollments state)) ErrUnauthorized;
  fail ErrUnauthorized when bool_decide (is_Some (EnrollmentToken.UsedAt enrollment))
    || (EnrollmentToken.ClaimID enrollment != claimID)
    || (EnrollmentToken.ClaimKeyHash enrollment != request_hash publicKey agentTokenHash);;
  '(j, node) ← of_option (node_at state nodeID) ErrUnauthorized;
  fail ErrUnauthorized when Node.Status node != "pending";;
  let node := enrolled_node state now signingCACertificate publicKey agentTokenHash issued node in
  let state := put_node (put_enrollment state i (enrollment <| EnrollmentToken.UsedAt := Some now |>)) j node in
  let state := state <| State.Issuances := State.Issuances state ++ [issuance now node issued] |> in
  let networks := (λ n, if Network.ID n == networkID then announce_node state now node n else n) <$> State.Networks state in
  let network := List.last (filter (λ n, Network.ID n = networkID) networks) latest in
  let state := state <| State.Networks := networks |> in
  let config := renderConfig state network node in
  signed ← signConfig network node config now;
  Ok (append_audit state (AuditEvent.make eventID "node.enrolled" "node" (Node.ID node) now None),
      enrollmentBundle network node config signed).

Definition release_enrollment (enrollmentID claimID : string) (enrollment : EnrollmentToken.t) : EnrollmentToken.t :=
  if (EnrollmentToken.ID enrollment == enrollmentID) && negb (bool_decide (is_Some (EnrollmentToken.UsedAt enrollment)))
     && (EnrollmentToken.ClaimID enrollment == claimID)
  then enrollment <| EnrollmentToken.ClaimID := "" |> <| EnrollmentToken.ClaimedAt := None |>
                  <| EnrollmentToken.ClaimKeyHash := "" |>
  else enrollment.
Definition releaseEnrollmentClaim (enrollmentID claimID : string) (state : State.t) : State.t :=
  state <| State.Enrollments := release_enrollment enrollmentID claimID <$> State.Enrollments state |>.

(** The whole request: [preflightAt], [claimedAt] and [now] are its readings of the
    clock. *)
Definition Enroll (claim : result string) (eventID : string) (preflightAt claimedAt now : time)
    (token publicKey agentTokenHash : string) (read : State.t) (others : State.t → State.t) (state : State.t) :
    State.t * result EnrollmentBundle.t :=
  let token := TrimSpace token in
  let agentTokenHash := TrimSpace agentTokenHash in
  let prepared :=
    fail ErrUnauthorized when negb (ValidBearerToken token) || negb (ValidTokenHash agentTokenHash);;
    publicKey ← match canonicalNebulaPublicKeyPEM publicKey with Ok k => Ok k | Err _ => Err ErrUnauthorized end;
    _ ← enroll_preflight preflightAt (HashToken token) read;
    claimID ← claim;
    outcome ← enroll_claim claimID claimedAt token publicKey agentTokenHash state;
    Ok (publicKey, claimID, outcome) in
  match prepared with
  | Err e => (state, Err e)
  | Ok (_, _, (state, EnrollReplay bundle)) => (state, Ok bundle)
  | Ok (publicKey, claimID, (state, EnrollClaimed enrollment node network)) =>
      let committed :=
        issued ← enroll_certificate now network node publicKey;
        enroll_commit eventID now claimID publicKey agentTokenHash (EnrollmentToken.ID enrollment) (Node.ID node)
          (Network.ID network) (fst (networkSigningAuthority network)) issued (others state) in
      match committed with
      | Ok (state, bundle) => (state, Ok bundle)
      | Err e => (releaseEnrollmentClaim (EnrollmentToken.ID enrollment) claimID (others state), Err e)
      end
  end.
End requests.
