(* ===== verification/Recovery.v ===== *)
(** * Recovering an agent's credential (internal/control/service.go)

    An administrator issues a one-time recovery bearer for an active node; the agent
    exchanges it, with the public key already on record, for a new credential and a
    signed receipt.  The result is retained, so that the same request can be
    answered again. *)
From S2P Require Import Prelude GoStd Sha256 IPv4 Model AuditLog Routes RouteState Reservations RoutePolicies.
From S2P Require Import NetworkSettings Render Credentials CARotation SignedConfig Enrollment.

(** ** Issuing *)
Definition recoverable (node : Node.t) : bool :=
  (Node.Status node == "active") && bool_decide (is_Some (Node.EnrolledAt node))
  && negb (bool_decide (is_Some (Node.RevokedAt node))).
Definition recovery_token (id nodeID token : string) (now expires : time) : AgentRecoveryToken.t :=
  AgentRecoveryToken.make id nodeID (HashToken token) now expires None "" None "" 0 0 None None.

Definition unused_for (nodeID : string) (recovery : AgentRecoveryToken.t) : bool :=
  (AgentRecoveryToken.NodeID recovery == nodeID) && negb (bool_decide (is_Some (AgentRecoveryToken.UsedAt recovery))).

Definition issueAgentRecovery (generateBearer : option (nat → result string)) (random : nat → result string)
    (eventID : string) (now : time) (actor : option Actor.t) (nodeID : string) (state : State.t) :
    result (State.t * (Node.t * string)) :=
  let nodeID := TrimSpace nodeID in
  let expiresAt := now + 30 * minute in
  node ← of_option (findNode state nodeID) ErrNotFound;
  fail ErrConflict when negb (recoverable node) || negb (ValidTokenHash (Node.PublicKeyHash node));;
  token ← uniqueUnseenRecoveryBearer generateBearer state;
  recoveryID ← uniqueAgentRecoveryID random state;
  let kept := filter (λ r, unused_for nodeID r = false) (State.AgentRecoveries state) in
  let retained := filter (λ r, AgentRecoveryToken.NodeID r = nodeID) kept in
  event ← newOptionalAttributedAudit eventID now "node.agent_recovery_issued" "node" nodeID
    [("expires_at", DTime expiresAt);
     ("invalidated_tokens", DInt (Z.of_nat (length (State.AgentRecoveries state) - length kept)));
     ("retained_used_results", DInt (Z.of_nat (length retained)))] actor;
  Ok (append_audit (state <| State.AgentRecoveries := kept ++ [recovery_token recoveryID nodeID token now expiresAt] |>) event,
      (node, token)).

Section recovery.
Context `{Crypto, Nebula}.

(** ** Claiming *)
(** A used bearer may be presented after its expiry, to replay its result. *)
Definition recovery_open (at_ : time) (recovery : AgentRecoveryToken.t) : bool :=
  bool_decide (is_Some (AgentRecoveryToken.UsedAt recovery)) || Before at_ (AgentRecoveryToken.ExpiresAt recovery).
Definition recoverable_with (node : Node.t) (publicKeyHash : string) : bool :=
  recoverable node && TokenHashEqual (Node.PublicKeyHash node) publicKeyHash.

Definition preflightAgentRecovery (tokenHash publicKeyHash : string) (at_ : time) (read : State.t) : result unit :=
  fail ErrUnauthorized when negb (existsb (λ recovery,
    TokenHashEqual (AgentRecoveryToken.TokenHash recovery) tokenHash && recovery_open at_ recovery
    && match findNode read (AgentRecoveryToken.NodeID recovery) with
       | Some node => recoverable_with node publicKeyHash
       | None => false
       end) (State.AgentRecoveries read));;
  Ok tt.

Definition presented_recovery (claimedAt : time) (token : string) (recovery : AgentRecoveryToken.t) : Prop :=
  TokenEqual (AgentRecoveryToken.TokenHash recovery) token && recovery_open claimedAt recovery = true.
#[global] Instance presented_recovery_dec claimedAt token recovery : Decision (presented_recovery claimedAt token recovery) :=
  decide (_ && _ = true).

(** A used bearer answers its own request, while its credential is current. *)
Definition replayable (recovery : AgentRecoveryToken.t) (node : Node.t) (requestHash newAgentTokenHash : string) :
    option AgentRecoveryBundle.t :=
  if TokenHashEqual (AgentRecoveryToken.ClaimKeyHash recovery) requestHash
     && (AgentRecoveryToken.CredentialGeneration recovery =? Node.AgentCredentialGeneration node)
     && match AgentRecoveryToken.CredentialExpiresAt recovery, Node.AgentCredentialExpiresAt node with
        | Some a, Some b => a =? b
        | _, _ => false
        end
     && TokenHashEqual (Node.AgentTokenHash node) newAgentTokenHash
  then AgentRecoveryToken.Result recovery
  else None.

Inductive recover_outcome :=
  | RecoverReplay (bundle : AgentRecoveryBundle.t)
  | RecoverClaimed (recovery : AgentRecoveryToken.t).

Definition claimed_recovery (claimID : string) (claimedAt : time) (requestHash : string) (generation : Z)
    (recovery : AgentRecoveryToken.t) : AgentRecoveryToken.t :=
  recovery <| AgentRecoveryToken.ClaimID := claimID |> <| AgentRecoveryToken.ClaimedAt := Some claimedAt |>
           <| AgentRecoveryToken.ClaimKeyHash := requestHash |>
           <| AgentRecoveryToken.ClaimedCredentialGeneration := generation |>.

Definition recover_claim (claimID : string) (claimedAt : time) (token publicKey newAgentTokenHash : string) (state : State.t) :
    result (State.t * recover_outcome) :=
  let requestHash := request_hash publicKey newAgentTokenHash in
  '(i, candidate) ← of_option (list_find (presented_recovery claimedAt token) (State.AgentRecoveries state)) ErrUnauthorized;
  node ← of_option (findNode state (AgentRecoveryToken.NodeID candidate)) ErrUnauthorized;
  fail ErrUnauthorized when negb (recoverable_with node (HashToken publicKey));;
  match AgentRecoveryToken.UsedAt candidate with
  | Some _ =>
      bundle ← of_option (replayable candidate node requestHash newAgentTokenHash) ErrUnauthorized;
      Ok (state, RecoverReplay bundle)
  | None =>
      fail ErrConflict when strictCredentialHashInUse state newAgentTokenHash;;
      fail ErrUnauthorized when in_flight claimedAt (AgentRecoveryToken.ClaimedAt candidate);;
      let claimed := claimed_recovery claimID claimedAt requestHash (Node.AgentCredentialGeneration node) candidate in
      Ok (put_recovery state i claimed, RecoverClaimed claimed)
  end.

(** ** Committing *)
(** An administrative reset: the old credentials end at once. *)
Definition recovered_node (now : time) (newAgentTokenHash : string) (node : Node.t) : Node.t :=
  node <| Node.AgentTokenHash := newAgentTokenHash |> <| Node.PreviousAgentTokenHash := "" |>
       <| Node.PreviousAgentTokenExpiresAt := None |> <| Node.AgentCredentialExpiresAt := Some (now + 90 * day) |>
       <| Node.AgentCredentialGeneration := wrap64 (Node.AgentCredentialGeneration node + 1) |>
       <| Node.AgentCredentialLastUsedAt := Some now |>.
Definition used_recovery (now : time) (node : Node.t) (bundle : AgentRecoveryBundle.t) (recovery : AgentRecoveryToken.t) :
    AgentRecoveryToken.t :=
  recovery <| AgentRecoveryToken.UsedAt := Some now |>
           <| AgentRecoveryToken.CredentialGeneration := Node.AgentCredentialGeneration node |>
           <| AgentRecoveryToken.CredentialExpiresAt := Some (now + 90 * day) |>
           <| AgentRecoveryToken.Result := Some bundle |>.
Definition receipt_for (now : time) (newAgentTokenHash : string) (node : Node.t) (bundle : EnrollmentBundle.t) : RecoveryReceipt.t :=
  RecoveryReceipt.make (Node.ID node) (Node.NetworkID node) newAgentTokenHash (Node.AgentCredentialGeneration node)
    (now + 90 * day) (EnrollmentBundle.ConfigSHA256 bundle) (EnrollmentBundle.ConfigSignature bundle) "".

Definition recover_commit (eventID : string) (now : time) (claimID publicKey newAgentTokenHash recoveryID : string)
    (state : State.t) : result (State.t * AgentRecoveryBundle.t) :=
  '(i, record) ← of_option (list_find (λ r, AgentRecoveryToken.ID r = recoveryID) (State.AgentRecoveries state)) ErrUnauthorized;
  fail ErrUnauthorized when bool_decide (is_Some (AgentRecoveryToken.UsedAt record))
    || negb (Before now (AgentRecoveryToken.ExpiresAt record)) || (AgentRecoveryToken.ClaimID record != claimID)
    || negb (TokenHashEqual (AgentRecoveryToken.ClaimKeyHash record) (request_hash publicKey newAgentTokenHash));;
  '(j, node) ← of_option (node_at state (AgentRecoveryToken.NodeID record)) ErrUnauthorized;
  fail ErrUnauthorized when negb (recoverable_with node (HashToken publicKey))
    || negb (Node.AgentCredentialGeneration node =? AgentRecoveryToken.ClaimedCredentialGeneration record);;
  fail ErrConflict when strictCredentialHashInUse state newAgentTokenHash;;
  fail ErrConflict when (Node.AgentCredentialGeneration node <? 1) || (Node.AgentCredentialGeneration node =? int64_max);;
  let node := recovered_node now newAgentTokenHash node in
  let state := put_node state j node in
  network ← of_option (findNetwork state (Node.NetworkID node)) ErrUnauthorized;
  let config := renderConfig state network node in
  signed ← signConfig network node config now;
  let bundle := enrollmentBundle network node config signed in
  let receipt := receipt_for now newAgentTokenHash node bundle in
  signature ← signRecoveryReceipt network receipt;
  let result := AgentRecoveryBundle.make bundle (receipt <| RecoveryReceipt.Signature := signature |>) in
  let state := put_recovery state i (used_recovery now node result record) in
  let kept := filter (λ r, AgentRecoveryToken.NodeID r ≠ Node.ID node ∨ AgentRecoveryToken.ID r = AgentRecoveryToken.ID record)
                (State.AgentRecoveries state) in
  Ok (append_audit (state <| State.AgentRecoveries := kept |>)
        (newAudit eventID now "node.agent_recovered" "node" (Node.ID node)
           [("credential_generation", DInt (Node.AgentCredentialGeneration node));
            ("recovery_id", DString (AgentRecoveryToken.ID record))]),
      result).

Definition release_recovery (recoveryID claimID : string) (recovery : AgentRecoveryToken.t) : AgentRecoveryToken.t :=
  if (AgentRecoveryToken.ID recovery == recoveryID) && negb (bool_decide (is_Some (AgentRecoveryToken.UsedAt recovery)))
     && (AgentRecoveryToken.ClaimID recovery == claimID)
  then recovery <| AgentRecoveryToken.ClaimID := "" |> <| AgentRecoveryToken.ClaimedAt := None |>
                <| AgentRecoveryToken.ClaimKeyHash := "" |> <| AgentRecoveryToken.ClaimedCredentialGeneration := 0 |>
  else recovery.
Definition releaseAgentRecoveryClaim (recoveryID claimID : string) (state : State.t) : State.t :=
  state <| State.AgentRecoveries := release_recovery recoveryID claimID <$> State.AgentRecoveries state |>.

(** The whole request.  (A claim that fails has written nothing to release.) *)
Definition RecoverAgent (claim : result string) (eventID : string) (preflightAt claimedAt now : time)
    (token publicKey newAgentTokenHash : string) (read : State.t) (others : State.t → State.t) (state : State.t) :
    State.t * result AgentRecoveryBundle.t :=
  let token := TrimSpace token in
  let newAgentTokenHash := TrimSpace newAgentTokenHash in
  let prepared :=
    fail ErrUnauthorized when negb (ValidBearerToken token) || negb (ValidTokenHash newAgentTokenHash);;
    publicKey ← match canonicalNebulaPublicKeyPEM publicKey with Ok k => Ok k | Err _ => Err ErrUnauthorized end;
    _ ← preflightAgentRecovery (HashToken token) (HashToken publicKey) preflightAt read;
    claimID ← claim;
    outcome ← recover_claim claimID claimedAt token publicKey newAgentTokenHash state;
    Ok (publicKey, claimID, outcome) in
  match prepared with
  | Err e => (state, Err e)
  | Ok (_, _, (state, RecoverReplay bundle)) => (state, Ok bundle)
  | Ok (publicKey, claimID, (state, RecoverClaimed recovery)) =>
      match recover_commit eventID now claimID publicKey newAgentTokenHash (AgentRecoveryToken.ID recovery) (others state) with
      | Ok (state, bundle) => (state, Ok bundle)
      | Err e => (releaseAgentRecoveryClaim (AgentRecoveryToken.ID recovery) claimID (others state), Err e)
      end
  end.
End recovery.
