(* ===== verification/AgentOps.v ===== *)
(** * What an enrolled agent asks for (internal/control/service.go)

    With its bearer, an agent reads its signed configuration, reports what it runs,
    and renews its certificate.  A renewal is a claim and a commit around the
    issuer, as an enrollment is. *)
From S2P Require Import Prelude GoStd Sha256 IPv4 Model AuditLog Routes RouteState Reservations Firewall RoutePolicies.
From S2P Require Import NetworkSettings Render Credentials CARotation FirewallRollout SignedConfig Enrollment.

(** ** Heartbeats *)
Module HeartbeatInput.
Record t := make {
  AgentVersion : string; NebulaVersion : string; AppliedConfigRevision : Z; CertificateGeneration : Z;
  AppliedConfigSHA256 : string; CertificateFingerprint : string; NebulaRunning : bool; NativeDNSActive : bool;
  Status : string; LastError : string; BootID : string; Sequence : Z }.
Definition trimmed (i : t) : t :=
  make (TrimSpace (AgentVersion i)) (TrimSpace (NebulaVersion i)) (AppliedConfigRevision i) (CertificateGeneration i)
    (TrimSpace (AppliedConfigSHA256 i)) (TrimSpace (CertificateFingerprint i)) (NebulaRunning i) (NativeDNSActive i)
    (let status := TrimSpace (Status i) in if status == "" then "healthy" else status)
    (TrimSpace (LastError i)) (TrimSpace (BootID i)) (Sequence i).
End HeartbeatInput.

Definition maxPersistedAgentVersionBytes : Z := 64.
Definition maxPersistedNebulaVersionBytes : Z := 64.
Definition maxPersistedLastErrorBytes : Z := 512.

Section heartbeat.
Import HeartbeatInput.

(** The checks against the authoritative node and network. *)
Definition heartbeat_checks (now : time) (input : HeartbeatInput.t) (network : Network.t) (node : Node.t) : result unit :=
  fail (ErrOther "authoritative node state is invalid")
    when (Network.ConfigRevision network <? 1) || (Node.CertificateGeneration node <? 1) || (Node.AppliedConfigRevision node <? 0)
      || (Node.AppliedCertificateGeneration node <? 0) || (Node.HeartbeatSequence node <? 0);;
  fail ErrInvalid when (Network.ConfigRevision network <? AppliedConfigRevision input)
    || (AppliedConfigRevision input <? Node.AppliedConfigRevision node);;
  fail ErrInvalid when (Node.CertificateGeneration node <? CertificateGeneration input)
    || ((0 <? CertificateGeneration input) && (CertificateGeneration input <? Node.AppliedCertificateGeneration node));;
  fail ErrConflict when Sequence input <=? Node.HeartbeatSequence node;;
  fail ErrInvalid when 1000000 <? Sequence input - Node.HeartbeatSequence node;;
  fail ErrRateLimited when match Node.LastSeenAt node with Some seen => Sub now seen <? 5 * second | None => false end;;
  fail ErrInvalid when (0 <? AppliedConfigRevision input) && negb (fingerprintPattern (AppliedConfigSHA256 input));;
  fail ErrInvalid when (CertificateFingerprint input != "") && negb (fingerprintPattern (CertificateFingerprint input));;
  Ok tt.

(** A node that reports the current revision must run exactly the desired
    configuration and certificate; a canary that has stopped under the target
    policy is the evidence for a rollback. *)
Definition runs_desired (state : State.t) (network : Network.t) (node : Node.t) (input : HeartbeatInput.t) : bool :=
  (AppliedConfigSHA256 input == ConfigDigest (renderConfig state network node))
  && (CertificateFingerprint input == Node.CertificateFingerprint node)
  && negb ((0 <? CertificateGeneration input) && negb (CertificateGeneration input =? Node.CertificateGeneration node))
  && Bool.eqb (NativeDNSActive input)
       (NetworkDNSSettings.NativeResolver (effectiveNetworkDNSSettings (Network.DNSSettings network))).
Definition canary_stopped (network : Network.t) (node : Node.t) (input : HeartbeatInput.t) : bool :=
  (NetworkFirewallRollout.Phase (Network.FirewallRollout network) == FirewallRolloutPhaseCanary)
  && contains (elems (NetworkFirewallRollout.CanaryNodeIDs (Network.FirewallRollout network))) (Node.ID node)
  && (CertificateGeneration input =? Node.CertificateGeneration node) && (Status input == "degraded").
(** The result says whether the rollout is to be rolled back. *)
Definition check_applied (state : State.t) (network : Network.t) (node : Node.t) (input : HeartbeatInput.t) : result bool :=
  if negb (AppliedConfigRevision input =? Network.ConfigRevision network) then Ok false else
  fail ErrConflict when negb (runs_desired state network node input);;
  if NebulaRunning input then Ok false else
  fail ErrConflict when negb (canary_stopped network node input);; Ok true.

Definition reported_node (now : time) (current : bool) (input : HeartbeatInput.t) (node : Node.t) : Node.t :=
  node <| Node.AgentVersion := AgentVersion input |> <| Node.NebulaVersion := NebulaVersion input |>
       <| Node.AppliedConfigRevision := AppliedConfigRevision input |>
       <| Node.AppliedCertificateGeneration :=
            if 0 <? CertificateGeneration input then CertificateGeneration input
            else if CertificateFingerprint input == Node.CertificateFingerprint node then Node.CertificateGeneration node
            else Node.AppliedCertificateGeneration node |>
       <| Node.AppliedConfigSHA256 := AppliedConfigSHA256 input |>
       <| Node.ReportedCertificateFingerprint := CertificateFingerprint input |>
       <| Node.NebulaRunning := NebulaRunning input |> <| Node.NativeDNSActive := NativeDNSActive input |>
       <| Node.AgentStatus := Status input |> <| Node.AgentBootID := BootID input |>
       <| Node.HeartbeatSequence := Sequence input |> <| Node.LastError := LastError input |>
       <| Node.LastSeenAt := Some now |> <| Node.AgentCredentialLastUsedAt := Some now |>
       <| Node.PreviousAgentTokenHash := if current then "" else Node.PreviousAgentTokenHash node |>
       <| Node.PreviousAgentTokenExpiresAt := if current then None else Node.PreviousAgentTokenExpiresAt node |>.

(** [preflightAt] and [now] are the readings of the clock. *)
Definition Heartbeat (eventID : string) (preflightAt now : time) (token : string) (input : HeartbeatInput.t)
    (read state : State.t) : result (State.t * Node.t) :=
  let token := TrimSpace token in
  let input := trimmed input in
  fail ErrUnauthorized when negb (ValidBearerToken token)
    || negb (validTelemetry (AgentVersion input) maxPersistedAgentVersionBytes)
    || negb (validTelemetry (NebulaVersion input) maxPersistedNebulaVersionBytes)
    || negb (validTelemetry (LastError input) maxPersistedLastErrorBytes) || negb (namePattern (BootID input));;
  let tokenHash := HashToken token in
  _ ← preflightAgentCredential read tokenHash preflightAt;
  fail ErrInvalid when (Status input != "healthy") && (Status input != "degraded");;
  fail ErrInvalid when (AppliedConfigRevision input <? 0) || (CertificateGeneration input <? 0) || (Sequence input <? 1)
    || (maxPersistedHeartbeatSequence <? Sequence input);;
  fail ErrInvalid when (AppliedConfigRevision input =? 0) && (AppliedConfigSHA256 input != "");;
  '(i, node) ← of_option (agent_at state tokenHash now) ErrUnauthorized;
  '(k, network) ← of_option (network_at state (Node.NetworkID node)) (ErrOther "authoritative node state is invalid");
  _ ← heartbeat_checks now input network node;
  rollback ← check_applied state network node input;
  let updated := reported_node now (snd (agentCredentialMatch node tokenHash now)) input node in
  let state := put_node state i updated in
  state ← (if rollback : bool then
             autoRollbackFirewallRollout eventID state k network updated now "canary_target_runtime_stopped"
               [("failed_config_revision", DInt (AppliedConfigRevision input));
                ("failed_config_sha256", DString (AppliedConfigSHA256 input)); ("heartbeat_sequence", DInt (Sequence input));
                ("nebula_running", DBool false); ("agent_status", DString "degraded")]
           else Ok state);
  Ok (state, updated).
End heartbeat.

Section agents.
Context `{Crypto, Nebula}.

(** ** Reading the configuration

    [preflightAt], [at_] and [issuedAt] are the readings of the clock. *)
Definition AgentConfig (preflightAt at_ issuedAt : time) (token : string) (read state : State.t) : result AgentConfig.t :=
  let token := TrimSpace token in
  fail ErrUnauthorized when negb (ValidBearerToken token);;
  let tokenHash := HashToken token in
  _ ← preflightAgentCredential read tokenHash preflightAt;
  node ← of_option (findAgent state tokenHash at_) ErrUnauthorized;
  network ← of_option (findNetwork state (Node.NetworkID node)) ErrUnauthorized;
  fail ErrUnauthorized when negb (bool_decide (is_Some (Node.CertificateExpiresAt node)));;
  signConfig network node (renderConfig state network node) issuedAt.

Definition AgentBootstrap (preflightAt at_ issuedAt : time) (token : string) (read state : State.t) : result EnrollmentBundle.t :=
  let token := TrimSpace token in
  fail ErrUnauthorized when negb (ValidBearerToken token);;
  let tokenHash := HashToken token in
  _ ← preflightAgentCredential read tokenHash preflightAt;
  node ← of_option (findAgent state tokenHash at_) ErrUnauthorized;
  fail ErrUnauthorized when negb (bool_decide (is_Some (Node.CertificateExpiresAt node)))
    || negb (bool_decide (is_Some (Node.AgentCredentialExpiresAt node)));;
  network ← of_option (findNetwork state (Node.NetworkID node)) ErrUnauthorized;
  let config := renderConfig state network node in
  signed ← signConfig network node config issuedAt;
  Ok (enrollmentBundle network node config signed).

(** ** Renewing the certificate *)
Inductive renew_outcome :=
  | RenewReplay (bundle : RenewalBundle.t)
  | RenewClaimed (node : Node.t) (network : Network.t).

Definition renewal_forced (network : Network.t) (node : Node.t) : bool :=
  networkCARotationRequired network node || networkCertificateProfileRenewalRequired network node.
Definition renewal_due (claimedAt : time) (network : Network.t) (node : Node.t) : bool :=
  match Node.CertificateExpiresAt node, Node.CertificateRenewAfter node with
  | Some _, Some after => negb (Before claimedAt after) || renewal_forced network node
  | _, _ => false
  end.
Definition recently_renewed (claimedAt : time) (node : Node.t) : bool :=
  match Node.LastRenewedAt node with Some at_ => Sub claimedAt at_ <? 10 * minute | None => false end.

Definition renew_claim (claimID : string) (claimedAt : time) (tokenHash publicKey : string) (state : State.t) :
    result (State.t * renew_outcome) :=
  '(i, node) ← of_option (agent_at state tokenHash claimedAt) ErrUnauthorized;
  fail ErrUnauthorized when negb (TokenEqual (Node.PublicKeyHash node) publicKey);;
  network ← of_option (findNetwork state (Node.NetworkID node)) ErrUnauthorized;
  if recently_renewed claimedAt node && negb (renewal_forced network node) then
    let config := renderConfig state network node in
    signed ← signConfig network node config claimedAt;
    Ok (state, RenewReplay (renewalBundle network node config signed))
  else
  fail ErrConflict when negb (renewal_due claimedAt network node);;
  fail ErrConflict when (Node.CertificateGeneration node <? 1) || (Node.CertificateGeneration node =? int64_max);;
  fail ErrUnauthorized when in_flight claimedAt (Node.RenewalClaimedAt node);;
  let claimed := node <| Node.RenewalClaimID := claimID |> <| Node.RenewalClaimedAt := Some claimedAt |> in
  Ok (put_node state i claimed, RenewClaimed claimed network).

(** The certificate is signed for the profile of the claim. *)
Definition renew_certificate (now : time) (network : Network.t) (node : Node.t) (publicKey : string) :
    result (string * string * time) :=
  '(certificate, fingerprint, expiresAt) ← sign_certificate network node (elems (certificateRoutedSubnets network node)) publicKey;
  fail (ErrOther "certificate issuer returned an expired certificate") when negb (After expiresAt now);;
  Ok (certificate, fingerprint, expiresAt).

Definition renewed_node (state : State.t) (now : time) (signingCACertificate : string) (issued : Certificate.t) (node : Node.t) : Node.t :=
  certified_node state signingCACertificate issued node
    <| Node.CertificateGeneration := wrap64 (Node.CertificateGeneration node + 1) |> <| Node.LastRenewedAt := Some now |>
    <| Node.RenewalClaimID := "" |> <| Node.RenewalClaimedAt := None |>.

(** The loop over the nodes does not stop at the first with the identifier. *)
Fixpoint renew_nodes (state : State.t) (now : time) (claimID tokenHash nodeID signingCACertificate : string)
    (issued : Certificate.t) (nodes : list Node.t) : result (list Node.t * option Node.t) :=
  match nodes with
  | [] => Ok ([], None)
  | node :: rest =>
      if Node.ID node != nodeID then
        '(rest, found) ← renew_nodes state now claimID tokenHash nodeID signingCACertificate issued rest;
        Ok (node :: rest, found)
      else
      fail ErrUnauthorized when negb (authenticates tokenHash now node) || (Node.RenewalClaimID node != claimID);;
      let renewed := renewed_node state now signingCACertificate issued node in
      fail (ErrOther "authoritative certificate generation did not advance")
        when Node.CertificateGeneration renewed <=? Node.CertificateGeneration node;;
      '(rest, found) ← renew_nodes state now claimID tokenHash nodeID signingCACertificate issued rest;
      Ok (renewed :: rest, Some (default renewed found))
  end.

Definition renew_commit (eventID : string) (now : time) (claimID tokenHash : string) (claimed : Node.t)
    (signingCACertificate : string) (issued : string * string * time) (state : State.t) : result (State.t * RenewalBundle.t) :=
  let '(certificate, fingerprint, expiresAt) := issued in
  network ← of_option (findNetwork state (Node.NetworkID claimed)) ErrUnauthorized;
  fail ErrConflict when fst (networkSigningAuthority network) != signingCACertificate;;
  renewAfter ← renew_after now expiresAt (certificate_ttl network);
  let issued := Certificate.make certificate fingerprint expiresAt renewAfter in
  '(nodes, found) ← renew_nodes state now claimID tokenHash (Node.ID claimed) signingCACertificate issued (State.Nodes state);
  node ← of_option found ErrUnauthorized;
  let state := state <| State.Nodes := nodes |> <| State.Issuances := State.Issuances state ++ [issuance now node issued] |> in
  let config := renderConfig state network node in
  signed ← signConfig network node config now;
  Ok (append_audit state
        (newAudit eventID now "node.certificate_renewed" "node" (Node.ID node)
           [("fingerprint", DString fingerprint); ("config_revision", DInt (Network.ConfigRevision network));
            ("certificate_generation", DInt (Node.CertificateGeneration node))]),
      renewalBundle network node config signed).

Definition release_renewal (nodeID claimID : string) (node : Node.t) : Node.t :=
  if (Node.ID node == nodeID) && (Node.RenewalClaimID node == claimID)
  then node <| Node.RenewalClaimID := "" |> <| Node.RenewalClaimedAt := None |>
  else node.
Definition releaseRenewalClaim (nodeID claimID : string) (state : State.t) : State.t :=
  map_nodes (release_renewal nodeID claimID) state.

Definition Renew (claim : result string) (eventID : string) (preflightAt claimedAt now : time) (token publicKey : string)
    (read : State.t) (others : State.t → State.t) (state : State.t) : State.t * result RenewalBundle.t :=
  let token := TrimSpace token in
  let tokenHash := HashToken token in
  let prepared :=
    fail ErrUnauthorized when negb (ValidBearerToken token);;
    publicKey ← match canonicalNebulaPublicKeyPEM publicKey with Ok k => Ok k | Err _ => Err ErrUnauthorized end;
    node ← preflightAgentCredential read tokenHash preflightAt;
    fail ErrUnauthorized when negb (TokenEqual (Node.PublicKeyHash node) publicKey);;
    claimID ← claim;
    outcome ← renew_claim claimID claimedAt tokenHash publicKey state;
    Ok (publicKey, claimID, outcome) in
  match prepared with
  | Err e => (state, Err e)
  | Ok (_, _, (state, RenewReplay bundle)) => (state, Ok bundle)
  | Ok (publicKey, claimID, (state, RenewClaimed node network)) =>
      let committed :=
        issued ← renew_certificate now network node publicKey;
        renew_commit eventID now claimID tokenHash node (fst (networkSigningAuthority network)) issued (others state) in
      match committed with
      | Ok (state, bundle) => (state, Ok bundle)
      | Err e => (releaseRenewalClaim (Node.ID node) claimID (others state), Err e)
      end
  end.
End agents.
