(* ===== verification/Revocation.v ===== *)
(** * Revoking and replacing nodes (internal/control/service.go and
    internal/control/node_revocation.go)

    A revocation ends a node's credentials, blocklists its certificates that have
    not expired, and takes the node out of the relay and canary selections, all in
    one transaction.  A revocation that carries a request identifier leaves a
    receipt in the audit log, from which a repeated request is answered.  A
    replacement also creates a pending node with the identity's role, groups and
    routed subnets. *)
From S2P Require Import Prelude GoStd Sha256 GoTime IPv4 NetIP Model AuditLog Routes RouteState Reservations Firewall.
From S2P Require Import Receipts RoutePolicies NetworkSettings Render Credentials Nodes CARotation FirewallRollout.

(** ** Receipts (node_revocation.go) *)
Definition nodeRevocationCommittedAuditAction : string := "node.revocation_committed".

Module RevokeNodeInput.
Record t := make { ExpectedConfigRevision : Z; ConfirmationName : string; RequestID : string }.
End RevokeNodeInput.

Module RevokedNodeReceipt.
Record t := make {
  RequestID : string; NodeID : string; NetworkID : string; Name : string; IP : string; Role : string; RevokedAt : time;
  WasEnrolled : bool; EnrollmentRecordsInvalidated : Z; AgentRecoveryRecordsInvalidated : Z; BlocklistEntriesAdded : Z;
  RelayAssignmentRemoved : bool; FirewallCanaryRemoved : bool; FirewallRolloutAutoRolledBack : bool;
  CredentialsInvalidated : bool; RoutedSubnetReservationsReleased : Z; ConfigRevision : Z }.
End RevokedNodeReceipt.

Definition validNodeRevocationRequestID (value : string) : bool := (16 <=? len value) && validPersistedID value.

Definition nodeRevocationAuditDetails (receipt : RevokedNodeReceipt.t) (expectedRevision : Z) : details :=
  let '(RevokedNodeReceipt.make requestID _ networkID name ip role revokedAt wasEnrolled enrollments recoveries blocklist
          relayRemoved canaryRemoved autoRolledBack credentials routes configRevision) := receipt in
  [("request_id", DString requestID); ("network_id", DString networkID); ("name", DString name); ("ip", DString ip);
   ("role", DString role); ("revoked_at", DString (RFC3339Nano revokedAt)); ("was_enrolled", DBool wasEnrolled);
   ("expected_config_revision", DInt expectedRevision); ("config_revision", DInt configRevision);
   ("enrollment_records_invalidated", DInt enrollments); ("agent_recovery_records_invalidated", DInt recoveries);
   ("blocklist_entries_added", DInt blocklist); ("relay_assignment_removed", DBool relayRemoved);
   ("firewall_canary_removed", DBool canaryRemoved); ("firewall_rollout_auto_rolled_back", DBool autoRolledBack);
   ("credentials_invalidated", DBool credentials); ("routed_subnet_reservations_released", DInt routes)].

Definition revocation_keys : list string :=
  ["request_id"; "network_id"; "name"; "ip"; "role"; "revoked_at"; "was_enrolled"; "expected_config_revision";
   "config_revision"; "enrollment_records_invalidated"; "agent_recovery_records_invalidated"; "blocklist_entries_added";
   "relay_assignment_removed"; "firewall_canary_removed"; "firewall_rollout_auto_rolled_back"; "credentials_invalidated";
   "routed_subnet_reservations_released"].

Definition parseNodeRevocationEvent (event : AuditEvent.t) : result (RevokedNodeReceipt.t * Z) :=
  let d := elems (AuditEvent.Details event) in
  let invalid := ErrOther "identity, lifecycle, or transition details are invalid" in
  fail (ErrOther "unexpected or missing detail") when negb (exact_details revocation_keys d);;
  fail (ErrOther "invalid resource metadata")
    when (AuditEvent.Resource event != "node") || negb (validPersistedID (AuditEvent.ResourceID event));;
  requestID ← of_option (audit_string (detail_of d "request_id")) invalid;
  networkID ← of_option (audit_string (detail_of d "network_id")) invalid;
  name ← of_option (audit_string (detail_of d "name")) invalid;
  ip ← of_option (audit_string (detail_of d "ip")) invalid;
  role ← of_option (audit_string (detail_of d "role")) invalid;
  revokedAt ← of_option (auditRFC3339Time (detail_of d "revoked_at")) invalid;
  wasEnrolled ← of_option (audit_bool (detail_of d "was_enrolled")) invalid;
  expectedRevision ← of_option (auditNonNegativeInteger (detail_of d "expected_config_revision")) invalid;
  configRevision ← of_option (auditNonNegativeInteger (detail_of d "config_revision")) invalid;
  enrollments ← of_option (auditNonNegativeInteger (detail_of d "enrollment_records_invalidated")) invalid;
  recoveries ← of_option (auditNonNegativeInteger (detail_of d "agent_recovery_records_invalidated")) invalid;
  blocklist ← of_option (auditNonNegativeInteger (detail_of d "blocklist_entries_added")) invalid;
  relayRemoved ← of_option (audit_bool (detail_of d "relay_assignment_removed")) invalid;
  canaryRemoved ← of_option (audit_bool (detail_of d "firewall_canary_removed")) invalid;
  autoRolledBack ← of_option (audit_bool (detail_of d "firewall_rollout_auto_rolled_back")) invalid;
  credentials ← of_option (audit_bool (detail_of d "credentials_invalidated")) invalid;
  routes ← of_option (auditNonNegativeInteger (detail_of d "routed_subnet_reservations_released")) invalid;
  fail invalid when negb (validNodeRevocationRequestID requestID) || negb (validPersistedID networkID)
    || negb (namePattern name) || negb (canonical_ipv4 ip) || ((role != "member") && (role != "lighthouse"))
    || negb (AuditEvent.At event =? revokedAt) || (expectedRevision <? 1)
    || negb (configRevision =? wrap64 (expectedRevision + 1)) || (wasEnrolled && (blocklist <? 1))
    || (negb wasEnrolled && negb (blocklist =? 0)) || (autoRolledBack && negb canaryRemoved) || negb credentials;;
  Ok (RevokedNodeReceipt.make requestID (AuditEvent.ResourceID event) networkID name ip role revokedAt wasEnrolled
        enrollments recoveries blocklist relayRemoved canaryRemoved autoRolledBack credentials routes configRevision,
      expectedRevision).

#[global] Instance revocation_log : ReceiptLog RevokedNodeReceipt.t := {|
  receipt_action := nodeRevocationCommittedAuditAction;
  parse_receipt := parseNodeRevocationEvent;
  receipt_request := RevokedNodeReceipt.RequestID |}.

Definition findNodeRevocationReplay (state : State.t) (nodeID : string) (input : RevokeNodeInput.t) :
    result (option RevokedNodeReceipt.t) :=
  find_receipt (RevokeNodeInput.RequestID input)
    (λ event receipt expectedRevision,
       (AuditEvent.ResourceID event == nodeID) && (RevokedNodeReceipt.Name receipt == RevokeNodeInput.ConfirmationName input)
       && (expectedRevision =? RevokeNodeInput.ExpectedConfigRevision input)) state.
Definition validateNodeRevocationAudits (state : State.t) : result unit := validate_receipts (R := RevokedNodeReceipt.t) state.

(** ** The transaction (service.go) *)
Module ReplacedNode.
Record t := make { RevokedNodeID : string; Node : Node.t; EnrollmentToken : string; ExpiresAt : time; ConfigRevision : Z }.
End ReplacedNode.

Definition revoked_node (now : time) (node : Node.t) : Node.t :=
  node <| Node.Status := "revoked" |> <| Node.RevokedAt := Some now |> <| Node.AgentTokenHash := "" |>
       <| Node.PreviousAgentTokenHash := "" |> <| Node.PreviousAgentTokenExpiresAt := None |>
       <| Node.AgentCredentialExpiresAt := None |> <| Node.RenewalClaimID := "" |> <| Node.RenewalClaimedAt := None |>
       <| Node.AgentStatus := "revoked" |>.

(** The checks before anything is written; a receipt already committed is
    returned. *)
Definition revocation_request (state : State.t) (source : Node.t) (nodeID : string) (input : option RevokeNodeInput.t) :
    result (option RevokedNodeReceipt.t) :=
  match input with
  | None => Ok None
  | Some input =>
      replayed ← findNodeRevocationReplay state nodeID input;
      match replayed with
      | Some receipt => Ok (Some receipt)
      | None =>
          fail ErrConflict when (Node.Status source == "revoked") || bool_decide (is_Some (Node.RevokedAt source));;
          fail ErrConflict when Node.Name source != RevokeNodeInput.ConfirmationName input;;
          fail ErrConflict when match findNetwork state (Node.NetworkID source) with
            | Some network => negb (Network.ConfigRevision network =? RevokeNodeInput.ExpectedConfigRevision input)
            | None => true
            end;;
          Ok None
      end
  end.
Definition replacement_request (state : State.t) (source : Node.t) (replace : bool) (expectedConfigRevision : Z) : result unit :=
  if negb replace then Ok tt else
  fail ErrConflict when (Node.Status source != "active") || negb (bool_decide (is_Some (Node.EnrolledAt source)))
    || bool_decide (is_Some (Node.RevokedAt source));;
  network ← of_option (findNetwork state (Node.NetworkID source)) ErrConflict;
  fail ErrConflict when negb (Network.ConfigRevision network =? expectedConfigRevision);;
  fail ErrConflict when NetworkFirewallRollout.Phase (Network.FirewallRollout network) != "";;
  Ok tt.
Definition in_route_transition (state : State.t) (source : Node.t) (nodeID : string) : bool :=
  match findNetwork state (Node.NetworkID source) with
  | Some network => routeTransferIncludesNode (Network.RouteTransfer network) nodeID
                    || routeProfileEditIncludesNode (Network.RouteProfileEdit network) nodeID
  | None => false
  end.

(** The certificates of a node that have not expired, and its current one. *)
Definition revoke_issuance (nodeID : string) (now : time) (state : State.t) (issuance : CertificateIssuance.t) : State.t :=
  if (CertificateIssuance.NodeID issuance == nodeID) && After (CertificateIssuance.ExpiresAt issuance) now
  then appendRevocation state nodeID (CertificateIssuance.Fingerprint issuance) "node revoked" now
         (Some (CertificateIssuance.ExpiresAt issuance))
  else state.
Definition revoke_certificates (now : time) (node : Node.t) (state : State.t) : State.t :=
  appendRevocation (foldl (revoke_issuance (Node.ID node) now) state (State.Issuances state))
    (Node.ID node) (Node.CertificateFingerprint node) "node revoked" now (Node.CertificateExpiresAt node).

(** What leaving the relay and canary selections did. *)
Module Detached.
Record t := make { Relay : bool; Canary : bool; AutoRolledBack : bool; PreviousCanaries : Z; DiscardedSHA256 : string }.
End Detached.
Definition detach_relay (nodeID : string) (network : Network.t) : Network.t * bool :=
  let settings := Network.RelaySettings network in
  if contains (elems (NetworkRelaySettings.RelayNodeIDs settings)) nodeID then
    let kept := filter (λ id, id ≠ nodeID) (elems (NetworkRelaySettings.RelayNodeIDs settings)) in
    (network <| Network.RelaySettings := settings <| NetworkRelaySettings.RelayNodeIDs := Some kept |>
                  <| NetworkRelaySettings.Enabled := if (length kept =? 0)%nat then false
                                                      else NetworkRelaySettings.Enabled settings |> |>, true)
  else (network, false).
Definition detach_canary (version : Z) (nodeID : string) (network : Network.t) : Network.t * option (bool * Z * string) :=
  let rollout := Network.FirewallRollout network in
  let canaries := elems (NetworkFirewallRollout.CanaryNodeIDs rollout) in
  if (ControlStateVersionFirewallRollout <=? version)
     && ((NetworkFirewallRollout.Phase rollout == FirewallRolloutPhaseCanary)
         || (NetworkFirewallRollout.Phase rollout == FirewallRolloutPhasePaused))
     && contains canaries nodeID then
    let kept := filter (λ id, id ≠ nodeID) canaries in
    let last := (length kept =? 0)%nat in
    (network <| Network.FirewallRollout := if last then NetworkFirewallRollout.zero
                                            else rollout <| NetworkFirewallRollout.CanaryNodeIDs := Some kept |> |>,
     Some (last, Z.of_nat (length canaries), firewallPolicySHA256 (NetworkFirewallRollout.TargetPolicy rollout)))
  else (network, None).
Definition detach_network (version : Z) (nodeID : string) (network : Network.t) : Network.t :=
  fst (detach_canary version nodeID (fst (detach_relay nodeID network))).
Definition note_detached (version : Z) (nodeID : string) (noted : Detached.t) (network : Network.t) : Detached.t :=
  let '(network, relay) := detach_relay nodeID network in
  match snd (detach_canary version nodeID network) with
  | Some (last, previous, discarded) =>
      Detached.make (Detached.Relay noted || relay) true (Detached.AutoRolledBack noted || last) previous discarded
  | None => Detached.make (Detached.Relay noted || relay) (Detached.Canary noted) (Detached.AutoRolledBack noted)
              (Detached.PreviousCanaries noted) (Detached.DiscardedSHA256 noted)
  end.
Definition detach (node : Node.t) (state : State.t) : State.t * Detached.t :=
  let version := State.Version state in
  let none := Detached.make false false false 0 "" in
  if version <? ControlStateVersionNetworkRelays then (state, none) else
  (state <| State.Networks :=
     (λ n, if Network.ID n == Node.NetworkID node then detach_network version (Node.ID node) n else n) <$> State.Networks state |>,
   foldl (note_detached version (Node.ID node)) none
     (filter (λ n, Network.ID n = Node.NetworkID node) (State.Networks state))).

(** The networks of the node move to their next revision; the last is returned. *)
Definition rollout_event (eventID : string) (now : time) (actor : option Actor.t) (nodeID : string) (noted : Detached.t)
    (nextRevision : Z) (network : Network.t) : result (list AuditEvent.t) :=
  if negb (Detached.Canary noted) then Ok [] else
  let auto := Detached.AutoRolledBack noted in
  event ← newOptionalAttributedAudit eventID now
    (if auto then "network.firewall_rollout_auto_rolled_back" else "network.firewall_rollout_canary_removed")
    "network" (Network.ID network)
    ([("node_id", DString nodeID); ("previous_canary_nodes", DInt (Detached.PreviousCanaries noted));
      ("remaining_canary_nodes", DInt (Detached.PreviousCanaries noted - 1)); ("config_revision", DInt nextRevision)] ++
     (if auto then [("discarded_sha256", DString (Detached.DiscardedSHA256 noted));
                    ("retained_sha256", DString (firewallPolicySHA256 (Network.FirewallPolicy network)));
                    ("reason_code", DString "last_canary_revoked")] else [])) actor;
  Ok [event].
Fixpoint advance_networks (eventID : string) (now : time) (actor : option Actor.t) (state : State.t) (nodeID networkID : string)
    (noted : Detached.t) (revision : Z) (networks : list Network.t) : result (list Network.t * list AuditEvent.t * Z) :=
  match networks with
  | [] => Ok ([], [], revision)
  | network :: rest =>
      if Network.ID network != networkID then
        '(rest, events, revision) ← advance_networks eventID now actor state nodeID networkID noted revision rest;
        Ok (network :: rest, events, revision)
      else
      nextRevision ← nextConfigRevision (Network.ConfigRevision network) true;
      let network := reconcileNetworkRoutePolicies state
        (network <| Network.ConfigRevision := nextRevision |> <| Network.ConfigUpdatedAt := now |>) in
      event ← rollout_event eventID now actor nodeID noted nextRevision network;
      '(rest, events, revision) ← advance_networks eventID now actor state nodeID networkID noted nextRevision rest;
      Ok (network :: rest, event ++ events, revision)
  end.

(** The replacement, after the source is revoked.  The firewall policy that is
    rewritten is a copy whose rules are those of the stored network, so that the
    stored policy changes. *)
Definition replacement_node (id : string) (source : Node.t) (address : string) (now : time) : Node.t :=
  pending_node id (Node.NetworkID source) (Node.Name source) address (Node.RoutedSubnets source) (Node.Site source)
    (Node.FailureDomain source) (Node.Groups source) (Node.Role source) (Node.PublicEndpoint source) now.
Definition replace_node (generateBearer : option (nat → result string)) (random : nat → result string) (newNodeID : result string)
    (eventID : string) (now : time) (actor : option Actor.t) (source : Node.t) (state : State.t) :
    result (State.t * ReplacedNode.t) :=
  '(index, network) ← of_option (network_at state (Node.NetworkID source)) (ErrOther "replacement source network is missing");
  _ ← validateRoutedSubnetsForNode state (Node.ID source) (Node.RoutedSubnets source);
  address ← nextAddress network (State.Nodes state);
  replacementID ← newNodeID;
  enrollmentID ← uniqueEnrollmentID random state;
  token ← uniqueUnseenEnrollmentBearer generateBearer state;
  let expiresAt := now + 30 * minute in
  let created := replacement_node replacementID source address now in
  let '(policy, transferred) := replaceFirewallPolicyNodeReferences (Network.FirewallPolicy network) (Node.ID source) replacementID in
  event ← newOptionalAttributedAudit eventID now "node.identity_replacement_created" "node" replacementID
    [("revoked_node_id", DString (Node.ID source)); ("name", DString (Node.Name created)); ("ip", DString (Node.IP created));
     ("role", DString (Node.Role created)); ("config_revision", DInt (Network.ConfigRevision network));
     ("expires_at", DTime expiresAt); ("firewall_references_transferred", DInt transferred)] actor;
  let state := put_network state index (network <| Network.FirewallPolicy := policy |>) in
  Ok (add_pending state created (enrollment_token enrollmentID replacementID token now expiresAt) event,
      ReplacedNode.make (Node.ID source) created token expiresAt (Network.ConfigRevision network)).

Definition count {A} (before after : list A) : Z := Z.of_nat (length before - length after).

(** The revocation itself, with its receipt's counts. *)
Definition revoke_in_state (rolloutEventID : string) (now : time) (actor : option Actor.t) (nodeID : string)
    (receipted : bool) (state : State.t) : result (State.t * Node.t * Detached.t * (Z * Z * Z) * Z) :=
  fail ErrConflict when existsb (λ n, (Node.ID n == nodeID) && (Node.Status n == "revoked")) (State.Nodes state);;
  let nodes := (λ n, if Node.ID n == nodeID then revoked_node now n else n) <$> State.Nodes state in
  node ← of_option (last (filter (λ n, Node.ID n = nodeID) nodes)) ErrNotFound;
  let recoveries := filter (λ r, AgentRecoveryToken.NodeID r ≠ nodeID) (State.AgentRecoveries state) in
  let enrollments := if receipted then filter (λ e, EnrollmentToken.NodeID e ≠ nodeID) (State.Enrollments state)
                     else State.Enrollments state in
  let cleared := state <| State.Nodes := nodes |> <| State.AgentRecoveries := recoveries |> <| State.Enrollments := enrollments |> in
  let blocked := revoke_certificates now node cleared in
  let '(detached, noted) := detach node blocked in
  '(networks, events, configRevision) ←
    advance_networks rolloutEventID now actor detached nodeID (Node.NetworkID node) noted 0 (State.Networks detached);
  fail (ErrOther "revoked node network is missing") when configRevision <? 1;;
  Ok (detached <| State.Networks := networks |> <| State.Audit := State.Audit detached ++ events |>, node, noted,
      (count (State.Enrollments state) enrollments, count (State.AgentRecoveries state) recoveries,
       Z.of_nat (length (State.Revocations blocked) - length (State.Revocations state))), configRevision).

Definition revocation_receipt (requestID : string) (now : time) (node : Node.t) (noted : Detached.t) (counts : Z * Z * Z)
    (configRevision : Z) : RevokedNodeReceipt.t :=
  let '(enrollments, recoveries, blocklist) := counts in
  RevokedNodeReceipt.make requestID (Node.ID node) (Node.NetworkID node) (Node.Name node) (Node.IP node) (Node.Role node) now
    (bool_decide (is_Some (Node.EnrolledAt node))) enrollments recoveries blocklist (Detached.Relay noted)
    (Detached.Canary noted) (Detached.AutoRolledBack noted) true (Z.of_nat (length (elems (Node.RoutedSubnets node)))) configRevision.

Definition revokeOrReplaceNode (generateBearer : option (nat → result string)) (random : nat → result string)
    (newNodeID : result string) (rolloutEventID eventID replacementEventID : string) (now : time) (actor : option Actor.t)
    (nodeID : string) (replace : bool) (expectedConfigRevision : Z) (input : option RevokeNodeInput.t) (state : State.t) :
    result (State.t * (Node.t * option ReplacedNode.t * option RevokedNodeReceipt.t)) :=
  source ← of_option (findNode state nodeID) ErrNotFound;
  fail ErrConflict when in_route_transition state source nodeID;;
  replayed ← revocation_request state source nodeID input;
  match replayed with
  | Some receipt => Ok (state, (Node.zero, None, Some receipt))
  | None =>
      _ ← replacement_request state source replace expectedConfigRevision;
      '(state, node, noted, counts, configRevision) ←
        revoke_in_state rolloutEventID now actor nodeID (bool_decide (is_Some input)) state;
      let receipt := (λ i, revocation_receipt (RevokeNodeInput.RequestID i) now node noted counts configRevision) <$> input in
      event ← match input, receipt with
              | Some i, Some r =>
                  newOptionalAttributedAudit eventID now nodeRevocationCommittedAuditAction "node" nodeID
                    (nodeRevocationAuditDetails r (RevokeNodeInput.ExpectedConfigRevision i)) actor
              | _, _ =>
                  newOptionalAttributedAudit eventID now "node.revoked" "node" nodeID
                    [("fingerprint", DString (Node.CertificateFingerprint node));
                     ("relay_assignment_removed", DBool (Detached.Relay noted));
                     ("firewall_canary_removed", DBool (Detached.Canary noted));
                     ("firewall_rollout_auto_rolled_back", DBool (Detached.AutoRolledBack noted))] actor
              end;
      let state := append_audit state event in
      if negb replace then Ok (state, (node, None, receipt)) else
      '(state, replacement) ← replace_node generateBearer random newNodeID replacementEventID now actor source state;
      Ok (state, (node, Some replacement, receipt))
  end.

Definition revokeNode (rolloutEventID eventID : string) (now : time) (actor : option Actor.t) (nodeID : string)
    (state : State.t) : result (State.t * Node.t) :=
  '(state, (node, _, _)) ← revokeOrReplaceNode None (λ _, Err ErrInvalid) (Err ErrInvalid) rolloutEventID eventID "" now actor nodeID
                             false 0 None state;
  Ok (state, node).
Definition replaceNode (generateBearer : option (nat → result string)) (random : nat → result string) (newNodeID : result string)
    (rolloutEventID eventID replacementEventID : string) (now : time) (actor : option Actor.t) (nodeID : string)
    (expectedConfigRevision : Z) (state : State.t) : result (State.t * ReplacedNode.t) :=
  fail ErrInvalid when negb (validPersistedID nodeID) || (expectedConfigRevision <? 1);;
  '(state, (_, replacement, _)) ← revokeOrReplaceNode generateBearer random newNodeID rolloutEventID eventID replacementEventID now
                                    actor nodeID true expectedConfigRevision None state;
  replacement ← of_option replacement (ErrOther "nil pointer dereference");
  Ok (state, replacement).
Definition revokeNodeWithReceipt (rolloutEventID eventID : string) (now : time) (actor : option Actor.t) (nodeID : string)
    (input : RevokeNodeInput.t) (state : State.t) : result (State.t * RevokedNodeReceipt.t) :=
  let nodeID := TrimSpace nodeID in
  fail ErrInvalid when negb (validPersistedID nodeID) || (RevokeNodeInput.ExpectedConfigRevision input <? 1)
    || negb (namePattern (RevokeNodeInput.ConfirmationName input)) || negb (validNodeRevocationRequestID (RevokeNodeInput.RequestID input));;
  '(state, (_, _, receipt)) ← revokeOrReplaceNode None (λ _, Err ErrInvalid) (Err ErrInvalid) rolloutEventID eventID "" now actor nodeID
                                false (RevokeNodeInput.ExpectedConfigRevision input) (Some input) state;
  receipt ← of_option receipt (ErrOther "node revocation committed without a receipt");
  Ok (state, receipt).
