(* ===== verification/CertificateReplacement.v ===== *)
(** * Replacing a certificate at once (internal/control/certificate_rotation.go and
    internal/control/node_groups.go)

    An administrator may have a node's certificate replaced without waiting for its
    renewal, with the same profile (a rotation) or with other groups.  The request
    looks at the state, has the certificate signed, and commits in a transaction
    that checks that what it looked at has not changed; the certificate replaced is
    blocklisted in the same transaction. *)
From S2P Require Import Prelude GoStd Sha256 GoTime IPv4 NetIP Model AuditLog Receipts Routes RouteState Reservations.
From S2P Require Import RoutePolicies NetworkSettings Render Firewall Credentials Nodes CARotation SignedConfig Enrollment.
Open Scope Z_scope.

(** What the code reads of a PEM certificate: the PEM of its public key, and what
    follows the certificate. *)
Class NebulaCertificate := {
  certificate_public_key : string → option (string * string) }.

(** ** Requests and receipts *)
Definition nodeCertificateRotatedAuditAction : string := "node.certificate_rotated".
Definition nodeGroupsUpdatedAuditAction : string := "node.groups_updated".

Module RotateNodeCertificateInput.
Record t := make { ExpectedConfigRevision : Z; ConfirmationName : string; RequestID : string }.
End RotateNodeCertificateInput.
Module RotatedNodeCertificate.
Record t := make {
  RequestID : string; NodeID : string; NetworkID : string; Name : string; IP : string; Role : string; RotatedAt : time;
  PreviousCertificateExpiresAt : time; CertificateExpiresAt : time; CertificateRenewAfter : time;
  PreviousCertificateGeneration : Z; CertificateGeneration : Z; AgentRecoveryRecordsInvalidated : Z;
  CertificateIssuancesAdded : Z; BlocklistEntriesAdded : Z; PreviousCertificateBlocklisted : bool; ConfigRevision : Z }.
End RotatedNodeCertificate.
Module UpdateNodeGroupsInput.
Record t := make { ExpectedConfigRevision : Z; ConfirmationName : string; RequestID : string; Groups : list string }.
End UpdateNodeGroupsInput.
Module UpdatedNodeGroups.
Record t := make {
  RequestID : string; NodeID : string; NetworkID : string; Name : string; IP : string; PreviousGroups : list string;
  Groups : list string; UpdatedAt : time; PreviousCertificateExpiresAt : time; CertificateExpiresAt : time;
  CertificateRenewAfter : time; PreviousCertificateGeneration : Z; CertificateGeneration : Z;
  AgentRecoveryRecordsInvalidated : Z; PreviousCertificateBlocklisted : bool; ConfigRevision : Z }.
End UpdatedNodeGroups.

Definition validCertificateRotationRequestID (value : string) : bool := (16 <=? len value) && validPersistedID value.
Definition optionalTimesEqual (first second : option time) : bool := first == second.

Definition certificateRotationAuditDetails (receipt : RotatedNodeCertificate.t) (expectedRevision : Z) : details :=
  let '(RotatedNodeCertificate.make requestID _ networkID name ip role rotatedAt previousExpiry expiresAt renewAfter
          previousGeneration generation recoveries issuances blocklist blocklisted configRevision) := receipt in
  [("request_id", DString requestID); ("network_id", DString networkID); ("name", DString name); ("ip", DString ip);
   ("role", DString role); ("rotated_at", DString (RFC3339Nano rotatedAt));
   ("previous_certificate_expires_at", DString (RFC3339Nano previousExpiry));
   ("certificate_expires_at", DString (RFC3339Nano expiresAt)); ("certificate_renew_after", DString (RFC3339Nano renewAfter));
   ("previous_certificate_generation", DInt previousGeneration); ("certificate_generation", DInt generation);
   ("expected_config_revision", DInt expectedRevision); ("config_revision", DInt configRevision);
   ("agent_recovery_records_invalidated", DInt recoveries); ("certificate_issuances_added", DInt issuances);
   ("blocklist_entries_added", DInt blocklist); ("previous_certificate_blocklisted", DBool blocklisted)].
Definition rotation_keys : list string :=
  ["request_id"; "network_id"; "name"; "ip"; "role"; "rotated_at"; "previous_certificate_expires_at";
   "certificate_expires_at"; "certificate_renew_after"; "previous_certificate_generation"; "certificate_generation";
   "expected_config_revision"; "config_revision"; "agent_recovery_records_invalidated"; "certificate_issuances_added";
   "blocklist_entries_added"; "previous_certificate_blocklisted"].

(** The times of a replacement: it happened at the event's time, and the new
    certificate is to be renewed after that and before it expires. *)
Definition replacement_times (event : AuditEvent.t) (at_ expiresAt renewAfter : time) : bool :=
  (AuditEvent.At event =? at_) && After expiresAt at_ && After renewAfter at_ && Before renewAfter expiresAt.
Definition next_of (previous next : Z) : bool := (1 <=? previous) && (next =? wrap64 (previous + 1)).

Definition parseNodeCertificateRotationEvent (event : AuditEvent.t) : result (RotatedNodeCertificate.t * Z) :=
  let d := elems (AuditEvent.Details event) in
  let invalid := ErrOther "identity, lifecycle, or transition details are invalid" in
  fail (ErrOther "unexpected or missing detail") when negb (exact_details rotation_keys d);;
  fail (ErrOther "invalid resource metadata")
    when (AuditEvent.Resource event != "node") || negb (validPersistedID (AuditEvent.ResourceID event));;
  requestID ← of_option (audit_string (detail_of d "request_id")) invalid;
  networkID ← of_option (audit_string (detail_of d "network_id")) invalid;
  name ← of_option (audit_string (detail_of d "name")) invalid;
  ip ← of_option (audit_string (detail_of d "ip")) invalid;
  role ← of_option (audit_string (detail_of d "role")) invalid;
  rotatedAt ← of_option (auditRFC3339Time (detail_of d "rotated_at")) invalid;
  previousExpiry ← of_option (auditRFC3339Time (detail_of d "previous_certificate_expires_at")) invalid;
  expiresAt ← of_option (auditRFC3339Time (detail_of d "certificate_expires_at")) invalid;
  renewAfter ← of_option (auditRFC3339Time (detail_of d "certificate_renew_after")) invalid;
  previousGeneration ← of_option (auditNonNegativeInteger (detail_of d "previous_certificate_generation")) invalid;
  generation ← of_option (auditNonNegativeInteger (detail_of d "certificate_generation")) invalid;
  expectedRevision ← of_option (auditNonNegativeInteger (detail_of d "expected_config_revision")) invalid;
  configRevision ← of_option (auditNonNegativeInteger (detail_of d "config_revision")) invalid;
  recoveries ← of_option (auditNonNegativeInteger (detail_of d "agent_recovery_records_invalidated")) invalid;
  issuances ← of_option (auditNonNegativeInteger (detail_of d "certificate_issuances_added")) invalid;
  blocklist ← of_option (auditNonNegativeInteger (detail_of d "blocklist_entries_added")) invalid;
  blocklisted ← of_option (audit_bool (detail_of d "previous_certificate_blocklisted")) invalid;
  fail invalid when negb (validCertificateRotationRequestID requestID) || negb (validPersistedID networkID)
    || negb (namePattern name) || negb (canonical_ipv4 ip) || ((role != "member") && (role != "lighthouse"))
    || negb (replacement_times event rotatedAt expiresAt renewAfter) || negb (next_of previousGeneration generation)
    || negb (next_of expectedRevision configRevision) || negb (issuances =? 1) || negb (blocklist =? 1) || negb blocklisted;;
  Ok (RotatedNodeCertificate.make requestID (AuditEvent.ResourceID event) networkID name ip role rotatedAt previousExpiry
        expiresAt renewAfter previousGeneration generation recoveries issuances blocklist blocklisted configRevision,
      expectedRevision).

#[global] Instance rotation_log : ReceiptLog RotatedNodeCertificate.t := {|
  receipt_action := nodeCertificateRotatedAuditAction;
  parse_receipt := parseNodeCertificateRotationEvent;
  receipt_request := RotatedNodeCertificate.RequestID |}.
Definition findCertificateRotationReplay (state : State.t) (nodeID : string) (input : RotateNodeCertificateInput.t) :
    result (option RotatedNodeCertificate.t) :=
  find_receipt (RotateNodeCertificateInput.RequestID input)
    (λ event receipt expectedRevision,
       (AuditEvent.ResourceID event == nodeID)
       && (RotatedNodeCertificate.Name receipt == RotateNodeCertificateInput.ConfirmationName input)
       && (expectedRevision =? RotateNodeCertificateInput.ExpectedConfigRevision input)) state.
Definition validateNodeCertificateRotationAudits (state : State.t) : result unit :=
  validate_receipts (R := RotatedNodeCertificate.t) state.

(** *** Groups *)
Definition groupsAuditArray (groups : list string) : detail := DArray (DString <$> groups).
Definition parseAuditGroups (value : option detail) : option (list string) :=
  match value with
  | Some (DArray raw) =>
      groups ← mapM (λ item, audit_string (Some item)) raw;
      if validCanonicalNodeGroups groups then Some groups else None
  | _ => None
  end.
#[global] Arguments parseAuditGroups : simpl never.
Definition nodeGroupsAuditDetails (receipt : UpdatedNodeGroups.t) (expectedRevision : Z) : details :=
  let '(UpdatedNodeGroups.make requestID _ networkID name ip previousGroups groups updatedAt previousExpiry expiresAt renewAfter
          previousGeneration generation recoveries blocklisted configRevision) := receipt in
  [("request_id", DString requestID); ("network_id", DString networkID); ("name", DString name); ("ip", DString ip);
   ("previous_groups", groupsAuditArray previousGroups); ("groups", groupsAuditArray groups);
   ("updated_at", DString (RFC3339Nano updatedAt)); ("previous_certificate_expires_at", DString (RFC3339Nano previousExpiry));
   ("certificate_expires_at", DString (RFC3339Nano expiresAt)); ("certificate_renew_after", DString (RFC3339Nano renewAfter));
   ("previous_certificate_generation", DInt previousGeneration); ("certificate_generation", DInt generation);
   ("expected_config_revision", DInt expectedRevision); ("config_revision", DInt configRevision);
   ("agent_recovery_records_invalidated", DInt recoveries); ("previous_certificate_blocklisted", DBool blocklisted)].

Definition parseNodeGroupsEvent (event : AuditEvent.t) : result (UpdatedNodeGroups.t * Z) :=
  let d := elems (AuditEvent.Details event) in
  let invalid := ErrOther "identity, groups, lifecycle, or transition details are invalid" in
  fail (ErrOther "invalid resource metadata")
    when (AuditEvent.Resource event != "node") || negb (validPersistedID (AuditEvent.ResourceID event));;
  requestID ← of_option (audit_string (detail_of d "request_id")) invalid;
  networkID ← of_option (audit_string (detail_of d "network_id")) invalid;
  name ← of_option (audit_string (detail_of d "name")) invalid;
  ip ← of_option (audit_string (detail_of d "ip")) invalid;
  previousGroups ← of_option (parseAuditGroups (detail_of d "previous_groups")) invalid;
  groups ← of_option (parseAuditGroups (detail_of d "groups")) invalid;
  updatedAt ← of_option (auditRFC3339Time (detail_of d "updated_at")) invalid;
  previousExpiry ← of_option (auditRFC3339Time (detail_of d "previous_certificate_expires_at")) invalid;
  expiresAt ← of_option (auditRFC3339Time (detail_of d "certificate_expires_at")) invalid;
  renewAfter ← of_option (auditRFC3339Time (detail_of d "certificate_renew_after")) invalid;
  previousGeneration ← of_option (auditNonNegativeInteger (detail_of d "previous_certificate_generation")) invalid;
  generation ← of_option (auditNonNegativeInteger (detail_of d "certificate_generation")) invalid;
  expectedRevision ← of_option (auditNonNegativeInteger (detail_of d "expected_config_revision")) invalid;
  configRevision ← of_option (auditNonNegativeInteger (detail_of d "config_revision")) invalid;
  recoveries ← of_option (auditNonNegativeInteger (detail_of d "agent_recovery_records_invalidated")) invalid;
  blocklisted ← of_option (audit_bool (detail_of d "previous_certificate_blocklisted")) invalid;
  fail invalid when negb (validCertificateRotationRequestID requestID) || negb (validPersistedID networkID)
    || negb (namePattern name) || negb (canonical_ipv4 ip) || (previousGroups == groups)
    || negb (replacement_times event updatedAt expiresAt renewAfter) || negb (next_of previousGeneration generation)
    || negb (next_of expectedRevision configRevision) || negb blocklisted;;
  Ok (UpdatedNodeGroups.make requestID (AuditEvent.ResourceID event) networkID name ip previousGroups groups updatedAt
        previousExpiry expiresAt renewAfter previousGeneration generation recoveries blocklisted configRevision,
      expectedRevision).

#[global] Instance groups_log : ReceiptLog UpdatedNodeGroups.t := {|
  receipt_action := nodeGroupsUpdatedAuditAction;
  parse_receipt := parseNodeGroupsEvent;
  receipt_request := UpdatedNodeGroups.RequestID |}.
Definition findNodeGroupsReplay (state : State.t) (nodeID : string) (input : UpdateNodeGroupsInput.t) (groups : list string) :
    result (option UpdatedNodeGroups.t) :=
  find_receipt (UpdateNodeGroupsInput.RequestID input)
    (λ event receipt expectedRevision,
       (AuditEvent.ResourceID event == nodeID) && (UpdatedNodeGroups.Name receipt == UpdateNodeGroupsInput.ConfirmationName input)
       && (expectedRevision =? UpdateNodeGroupsInput.ExpectedConfigRevision input)
       && (UpdatedNodeGroups.Groups receipt == groups)) state.
Definition validateNodeGroupAudits (state : State.t) : result unit := validate_receipts (R := UpdatedNodeGroups.t) state.

Definition canonicalNodeMembershipGroups (groups : list string) : result (list string) :=
  canonical ← normalizeGroups groups;
  let canonical := sort_by str_le (appendUnique canonical "all") in
  fail ErrInvalid when maxNodeGroups <? Z.of_nat (length canonical);;
  Ok canonical.

(** ** The request *)
Definition validateActiveCertificateRotationSource (node : Node.t) (now : time) : result unit :=
  fail ErrConflict when (Node.Certificate node == "") || negb (fingerprintPattern (Node.CertificateFingerprint node))
    || negb (bool_decide (is_Some (Node.CertificateExpiresAt node))) || negb (bool_decide (is_Some (Node.CertificateRenewAfter node)))
    || (Node.CertificateGeneration node <? 1) || negb (ValidTokenHash (Node.PublicKeyHash node));;
  fail ErrConflict when (Node.RenewalClaimID node != "")
    && match Node.RenewalClaimedAt node with Some at_ => After at_ now || (Sub now at_ <? 5 * minute) | None => true end;;
  Ok tt.

(** A lifecycle of the network that decides on the node's certificate. *)
Definition lifecycle_busy (network : Network.t) (nodeID : string) : bool :=
  (NetworkCARotation.Phase (Network.CARotation network) != "")
  || (NetworkFirewallRollout.Phase (Network.FirewallRollout network) != "")
  || routeTransferIncludesNode (Network.RouteTransfer network) nodeID
  || routeProfileEditIncludesNode (Network.RouteProfileEdit network) nodeID.
Definition active_enrolled (node : Node.t) : bool :=
  (Node.Status node == "active") && bool_decide (is_Some (Node.EnrolledAt node)) && negb (bool_decide (is_Some (Node.RevokedAt node))).

(** What the request looks at; [unchanged] says that the node already has what is
    asked for. *)
Definition replacement_source (state : State.t) (nodeID name : string) (expected : Z) (unchanged : Node.t → bool)
    (operationAt : time) : result (Node.t * Network.t) :=
  node ← of_option (findNode state nodeID) ErrNotFound;
  fail ErrConflict when negb (active_enrolled node);;
  fail ErrConflict when Node.Name node != name;;
  fail ErrConflict when unchanged node;;
  network ← of_option (findNetwork state (Node.NetworkID node)) ErrNotFound;
  fail ErrConflict when negb (Network.ConfigRevision network =? expected);;
  fail ErrConflict when lifecycle_busy network (Node.ID node);;
  _ ← validateActiveCertificateRotationSource node operationAt;
  Ok (node, network).

Section replacement.
Context `{Crypto, Nebula, NebulaCertificate}.
(** The issuer's answers depend on when it is asked: [issue n] is the answer to the
    n-th attempt.  [cancelled] is the error of a request that is given up while it
    waits for the second attempt. *)
Variable issue : nat → string → string → string → string → string → string → string → duration → result (string * string * time).
Variable cancelled : option err.

Definition publicKeyFromNodeCertificate (node : Node.t) : result string :=
  '(pem, remainder) ← of_option (certificate_public_key (Node.Certificate node)) ErrConflict;
  fail ErrConflict when TrimSpace remainder != "";;
  publicKey ← match canonicalNebulaPublicKeyPEM pem with Ok k => Ok k | Err _ => Err ErrConflict end;
  fail ErrConflict when negb (TokenHashEqual (Node.PublicKeyHash node) (HashToken publicKey));;
  Ok publicKey.

Definition issue_for (attempt : nat) (network : Network.t) (node : Node.t) (caCertificate caKey publicKey : string) :
    result (string * string * time) :=
  bits ← prefixLength (Network.CIDR network);
  issue attempt caCertificate caKey publicKey (Node.Name node) (Node.IP node +:+ "/" +:+ bits) (join "," (Node.Groups node))
    (join "," (elems (Node.RoutedSubnets node))) (certificate_ttl network).
Definition signDistinctNodeCertificate (network : Network.t) (node : Node.t) (caCertificate caKey publicKey : string) :
    result (string * string * time) :=
  '(certificate, fingerprint, expiresAt) ← issue_for 0 network node caCertificate caKey publicKey;
  if fingerprint != Node.CertificateFingerprint node then Ok (certificate, fingerprint, expiresAt) else
  match cancelled with
  | Some e => Err e
  | None =>
      '(certificate, fingerprint, expiresAt) ← issue_for 1 network node caCertificate caKey publicKey;
      fail ErrConflict when fingerprint == Node.CertificateFingerprint node;;
      Ok (certificate, fingerprint, expiresAt)
  end.

(** The certificate for a node as it is to be, from the snapshot. *)
Definition replacement_certificate (operationAt : time) (network : Network.t) (desired : Node.t) : result Certificate.t :=
  publicKey ← publicKeyFromNodeCertificate desired;
  let '(signingCACertificate, signingCAKey) := networkSigningAuthority network in
  caKey ← Open signingCAKey;
  '(certificate, fingerprint, expiresAt) ← signDistinctNodeCertificate network desired signingCACertificate (string_of caKey) publicKey;
  fail (ErrOther "certificate issuer returned invalid metadata")
    when (TrimSpace certificate == "") || negb (fingerprintPattern fingerprint) || negb (After expiresAt operationAt);;
  renewAfter ← renew_after operationAt expiresAt (certificate_ttl network);
  Ok (Certificate.make certificate fingerprint expiresAt renewAfter).

(** *** The commit *)
Definition same_authorities (network snapshot : Network.t) : bool :=
  (networkSigningAuthority network == networkSigningAuthority snapshot)
  && (Network.ConfigSigningPublicKey network == Network.ConfigSigningPublicKey snapshot)
  && (Network.EncryptedConfigSigningKey network == Network.EncryptedConfigSigningKey snapshot).
Definition same_certificate (node snapshot : Node.t) : bool :=
  (Node.Certificate node == Node.Certificate snapshot)
  && (Node.CertificateFingerprint node == Node.CertificateFingerprint snapshot)
  && (Node.CertificateGeneration node =? Node.CertificateGeneration snapshot)
  && (Node.PublicKeyHash node == Node.PublicKeyHash snapshot)
  && optionalTimesEqual (Node.CertificateExpiresAt node) (Node.CertificateExpiresAt snapshot)
  && optionalTimesEqual (Node.CertificateRenewAfter node) (Node.CertificateRenewAfter snapshot)
  && (Node.RenewalClaimID node == Node.RenewalClaimID snapshot)
  && optionalTimesEqual (Node.RenewalClaimedAt node) (Node.RenewalClaimedAt snapshot).

(** The node and the network the commit writes to, with the next revision. *)
Definition replacement_target (state : State.t) (nodeID name : string) (expected : Z) (snapshotNode : Node.t)
    (snapshotNetwork : Network.t) (changed : Node.t → bool) : result (nat * Node.t * nat * Network.t * Z) :=
  '(i, node) ← of_option (node_at state nodeID) ErrNotFound;
  fail ErrConflict when negb (active_enrolled node) || (Node.Name node != name);;
  '(k, network) ← of_option (network_at state (Node.NetworkID node)) ErrNotFound;
  fail ErrConflict when negb (Network.ConfigRevision network =? expected) || lifecycle_busy network (Node.ID node)
    || negb (same_authorities network snapshotNetwork);;
  fail ErrConflict when changed node || negb (same_certificate node snapshotNode);;
  fail ErrConflict when existsb (λ r, CertificateRevocation.Fingerprint r == Node.CertificateFingerprint snapshotNode) (State.Revocations state);;
  nextRevision ← nextConfigRevision (Network.ConfigRevision network) true;
  Ok (i, node, k, network, nextRevision).

Definition replaced_node (state : State.t) (operationAt : time) (authority : string) (groups : list string)
    (issued : Certificate.t) (node : Node.t) : Node.t :=
  certified_node state authority issued (node <| Node.Groups := groups |>)
    <| Node.CertificateGeneration := wrap64 (Node.CertificateGeneration node + 1) |> <| Node.LastRenewedAt := Some operationAt |>
    <| Node.RenewalClaimID := "" |> <| Node.RenewalClaimedAt := None |>.
(** The new state, and how many recovery bearers were dropped. *)
Definition replace_certificate (operationAt : time) (reason : string) (groups : list string) (authority : string)
    (issued : Certificate.t) (i : nat) (node : Node.t) (k : nat) (network : Network.t) (nextRevision : Z) (state : State.t) :
    State.t * Z :=
  let kept := filter (λ r, AgentRecoveryToken.NodeID r ≠ Node.ID node) (State.AgentRecoveries state) in
  let invalidated := Z.of_nat (length (State.AgentRecoveries state) - length kept) in
  let blocked := appendRevocation (state <| State.AgentRecoveries := kept |>) (Node.ID node) (Node.CertificateFingerprint node) reason
                   operationAt (Node.CertificateExpiresAt node) in
  let replaced := replaced_node state operationAt authority groups issued node in
  let written := put_network (put_node blocked i replaced) k
    (network <| Network.ConfigRevision := nextRevision |> <| Network.ConfigUpdatedAt := operationAt |>) in
  (written <| State.Issuances := State.Issuances written ++ [issuance operationAt replaced issued] |>, invalidated).

Definition rotate_commit (eventID : string) (operationAt : time) (actor : option Actor.t) (nodeID : string)
    (input : RotateNodeCertificateInput.t) (snapshotNode : Node.t) (snapshotNetwork : Network.t) (issued : Certificate.t)
    (state : State.t) : result (State.t * RotatedNodeCertificate.t) :=
  let expected := RotateNodeCertificateInput.ExpectedConfigRevision input in
  replayed ← findCertificateRotationReplay state nodeID input;
  match replayed with
  | Some receipt => Ok (state, receipt)
  | None =>
      '(i, node, k, network, nextRevision) ← replacement_target state nodeID (RotateNodeCertificateInput.ConfirmationName input)
        expected snapshotNode snapshotNetwork (λ _, false);
      let '(state, invalidated) := replace_certificate operationAt "certificate rotated by administrator" (Node.Groups node)
        (fst (networkSigningAuthority snapshotNetwork)) issued i node k network nextRevision state in
      previousExpiry ← of_option (Node.CertificateExpiresAt snapshotNode) (ErrOther "nil pointer dereference");
      let receipt := RotatedNodeCertificate.make (RotateNodeCertificateInput.RequestID input) (Node.ID node) (Node.NetworkID node)
        (Node.Name node) (Node.IP node) (Node.Role node) operationAt previousExpiry (Certificate.ExpiresAt issued)
        (Certificate.RenewAfter issued) (Node.CertificateGeneration node) (wrap64 (Node.CertificateGeneration node + 1))
        invalidated 1 1 true nextRevision in
      event ← newOptionalAttributedAudit eventID operationAt nodeCertificateRotatedAuditAction "node" (Node.ID node)
        (certificateRotationAuditDetails receipt expected) actor;
      Ok (append_audit state event, receipt)
  end.

(** [read] is the state the request looked at first. *)
Definition rotateNodeCertificate (eventID : string) (operationAt : time) (actor : option Actor.t) (nodeID : string)
    (input : RotateNodeCertificateInput.t) (read state : State.t) : result (State.t * RotatedNodeCertificate.t) :=
  let nodeID := TrimSpace nodeID in
  let name := RotateNodeCertificateInput.ConfirmationName input in
  let expected := RotateNodeCertificateInput.ExpectedConfigRevision input in
  fail ErrInvalid when negb (validPersistedID nodeID) || (expected <? 1) || negb (namePattern name)
    || negb (validCertificateRotationRequestID (RotateNodeCertificateInput.RequestID input));;
  fail ErrInvalid when IsZero operationAt;;
  replayed ← findCertificateRotationReplay read nodeID input;
  match replayed with
  | Some receipt => Ok (state, receipt)
  | None =>
      '(snapshotNode, snapshotNetwork) ← replacement_source read nodeID name expected (λ _, false) operationAt;
      issued ← replacement_certificate operationAt snapshotNetwork snapshotNode;
      rotate_commit eventID operationAt actor nodeID input snapshotNode snapshotNetwork issued state
  end.

Definition groups_commit (eventID : string) (operationAt : time) (actor : option Actor.t) (nodeID : string)
    (input : UpdateNodeGroupsInput.t) (groups : list string) (snapshotNode : Node.t) (snapshotNetwork : Network.t)
    (issued : Certificate.t) (state : State.t) : result (State.t * UpdatedNodeGroups.t) :=
  let expected := UpdateNodeGroupsInput.ExpectedConfigRevision input in
  replayed ← findNodeGroupsReplay state nodeID input groups;
  match replayed with
  | Some receipt => Ok (state, receipt)
  | None =>
      '(i, node, k, network, nextRevision) ← replacement_target state nodeID (UpdateNodeGroupsInput.ConfirmationName input)
        expected snapshotNode snapshotNetwork (λ node, Node.Groups node != Node.Groups snapshotNode);
      let '(state, invalidated) := replace_certificate operationAt "certificate groups changed by administrator" groups
        (fst (networkSigningAuthority snapshotNetwork)) issued i node k network nextRevision state in
      previousExpiry ← of_option (Node.CertificateExpiresAt snapshotNode) (ErrOther "nil pointer dereference");
      let receipt := UpdatedNodeGroups.make (UpdateNodeGroupsInput.RequestID input) (Node.ID node) (Node.NetworkID node)
        (Node.Name node) (Node.IP node) (Node.Groups snapshotNode) groups operationAt previousExpiry (Certificate.ExpiresAt issued)
        (Certificate.RenewAfter issued) (Node.CertificateGeneration node) (wrap64 (Node.CertificateGeneration node + 1))
        invalidated true nextRevision in
      event ← newOptionalAttributedAudit eventID operationAt nodeGroupsUpdatedAuditAction "node" (Node.ID node)
        (nodeGroupsAuditDetails receipt expected) actor;
      Ok (append_audit state event, receipt)
  end.

Definition updateNodeGroups (eventID : string) (operationAt : time) (actor : option Actor.t) (nodeID : string)
    (input : UpdateNodeGroupsInput.t) (read state : State.t) : result (State.t * UpdatedNodeGroups.t) :=
  let nodeID := TrimSpace nodeID in
  let name := UpdateNodeGroupsInput.ConfirmationName input in
  let expected := UpdateNodeGroupsInput.ExpectedConfigRevision input in
  groups ← canonicalNodeMembershipGroups (UpdateNodeGroupsInput.Groups input);
  fail ErrInvalid when negb (validPersistedID nodeID) || (expected <? 1) || negb (namePattern name)
    || negb (validCertificateRotationRequestID (UpdateNodeGroupsInput.RequestID input));;
  fail ErrInvalid when IsZero operationAt;;
  replayed ← findNodeGroupsReplay read nodeID input groups;
  match replayed with
  | Some receipt => Ok (state, receipt)
  | None =>
      '(snapshotNode, snapshotNetwork) ← replacement_source read nodeID name expected (λ node, Node.Groups node == groups) operationAt;
      issued ← replacement_certificate operationAt snapshotNetwork (snapshotNode <| Node.Groups := groups |>);
      groups_commit eventID operationAt actor nodeID input groups snapshotNode snapshotNetwork issued state
  end.
End replacement.
