(* ===== verification/CredentialSafety.v ===== *)
(** * One bearer, one agent

    Every bearer whose hash the control plane retains is distinct from the others,
    in every state the requests reach, in any interleaving of their transactions.
    So a bearer authenticates at most one node, and the operations that read with
    [findAgent] and those that stop at the first match act for the same node. *)
From S2P Require Import Prelude GoStd Sha256 IPv4 Model AuditLog Routes RouteState Reservations Firewall RoutePolicies.
From S2P Require Import NetworkSettings Render Credentials Nodes CARotation FirewallRollout SignedConfig Enrollment Recovery.
From S2P Require Import AgentOps Revocation.

(** ** What a step does to the secrets *)
Inductive extends (state state' : State.t) : Prop :=
  | extends_none : secrets state' ⊆+ secrets state → extends state state'
  | extends_fresh s : s ∉ secrets state → secrets state' ⊆+ s :: secrets state → extends state state'.

Lemma extends_distinct state state' : extends state state' → NoDup (secrets state) → NoDup (secrets state').
Proof.
  intros [Hs|s Hf Hs] Hnd.
  - by eapply submseteq_NoDup.
  - eapply submseteq_NoDup; [done|]. by constructor.
Qed.

Lemma extends_same state state' state'' : secrets state'' = secrets state' → extends state state' → extends state state''.
Proof. intros E [Hs|s Hf Hs]; [apply extends_none|apply (extends_fresh _ _ s); [done|]]; by rewrite E. Qed.

(** *** Lists of optional values *)
Lemma omap_insert_same {A B} (f : A → option B) (l : list A) i x y : l !! i = Some x → f y = f x → omap f (<[i := y]> l) = omap f l.
Proof.
  revert i. induction l as [|z l IH]; intros [|i] Hi Hf; csimpl in *; try done.
  - injection Hi as ->. by rewrite Hf.
  - by rewrite (IH i).
Qed.
Lemma omap_map_same {A B} (f : A → option B) (g : A → A) (l : list A) : (∀ x, f (g x) = f x) → omap f (g <$> l) = omap f l.
Proof. intros Hg. induction l as [|x l IH]; csimpl; [done|]. by rewrite Hg, IH. Qed.
Lemma omap_filter_submseteq {A B} (f : A → option B) (P : A → Prop) `{∀ x, Decision (P x)} (l : list A) : omap f (filter P l) ⊆+ omap f l.
Proof.
  induction l as [|x l IH]; [done|]. rewrite filter_cons. case_decide; csimpl.
  - destruct (f x); [by apply submseteq_skip|done].
  - destruct (f x); [by apply submseteq_cons|done].
Qed.

(** *** The three kinds of records *)
Lemma secrets_parts state state' fresh :
  (State.Nodes state' ≫= node_secrets) ⊆+ fresh ++ (State.Nodes state ≫= node_secrets) →
  omap (λ e, secret (EnrollmentToken.TokenHash e)) (State.Enrollments state') ⊆+
    omap (λ e, secret (EnrollmentToken.TokenHash e)) (State.Enrollments state) →
  omap (λ r, secret (AgentRecoveryToken.TokenHash r)) (State.AgentRecoveries state') ⊆+
    omap (λ r, secret (AgentRecoveryToken.TokenHash r)) (State.AgentRecoveries state) →
  secrets state' ⊆+ fresh ++ secrets state.
Proof. intros Hn He Hr. unfold secrets. rewrite (app_assoc fresh). apply submseteq_app; [done|]. by apply submseteq_app. Qed.

Lemma put_enrollment_secrets state i e e' :
  State.Enrollments state !! i = Some e → EnrollmentToken.TokenHash e' = EnrollmentToken.TokenHash e →
  secrets (put_enrollment state i e') = secrets state.
Proof. intros Hi E. unfold secrets, put_enrollment; simpl. by rewrite (omap_insert_same _ _ _ e) by (rewrite ?E; done). Qed.
Lemma put_recovery_secrets state i r r' :
  State.AgentRecoveries state !! i = Some r → AgentRecoveryToken.TokenHash r' = AgentRecoveryToken.TokenHash r →
  secrets (put_recovery state i r') = secrets state.
Proof. intros Hi E. unfold secrets, put_recovery; simpl. by rewrite (omap_insert_same _ _ _ r) by (rewrite ?E; done). Qed.

(** A node whose secrets are among the old ones and one unused hash; other parts of
    the state may have changed without a change of secrets. *)
Lemma put_node_fresh_in state0 state i node node' hash :
  secrets state = secrets state0 → State.Nodes state !! i = Some node → strictCredentialHashInUse state0 hash = false →
  node_secrets node' ⊆+ omap secret [hash] ++ node_secrets node → extends state0 (put_node state i node').
Proof.
  intros E Hi Hu Hn. csimpl in Hn. destruct (secret hash) as [s|] eqn:Hs.
  - apply (extends_fresh _ _ s); [by eapply unused_secret|]. rewrite <- E. apply (put_node_secrets _ _ _ _ [s] Hi Hn).
  - apply extends_none. rewrite <- E. apply (put_node_secrets _ _ _ _ [] Hi Hn).
Qed.
Lemma put_node_fresh state i node node' hash :
  State.Nodes state !! i = Some node → strictCredentialHashInUse state hash = false →
  node_secrets node' ⊆+ omap secret [hash] ++ node_secrets node → extends state (put_node state i node').
Proof. by apply put_node_fresh_in. Qed.
Lemma put_node_kept state i node node' :
  State.Nodes state !! i = Some node → node_secrets node' ⊆+ node_secrets node → secrets (put_node state i node') ⊆+ secrets state.
Proof. intros Hi Hn. apply (put_node_secrets _ _ _ _ [] Hi Hn). Qed.

Lemma node_secrets_set node hash previous :
  Node.AgentTokenHash node = hash → Node.PreviousAgentTokenHash node = previous →
  node_secrets node = omap secret [hash] ++ omap secret [previous].
Proof. intros <- <-. unfold node_secrets. csimpl. by destruct (secret _). Qed.

(** A new enrollment record for an unused bearer. *)
Lemma add_enrollment state state' e token :
  strictCredentialHashInUse state (HashToken token) = false → EnrollmentToken.TokenHash e = HashToken token →
  (State.Nodes state' ≫= node_secrets) ⊆+ (State.Nodes state ≫= node_secrets) →
  omap (λ e, secret (EnrollmentToken.TokenHash e)) (State.Enrollments state') ⊆+
    omap (λ e, secret (EnrollmentToken.TokenHash e)) (State.Enrollments state ++ [e]) →
  omap (λ r, secret (AgentRecoveryToken.TokenHash r)) (State.AgentRecoveries state') ⊆+
    omap (λ r, secret (AgentRecoveryToken.TokenHash r)) (State.AgentRecoveries state) →
  extends state state'.
Proof.
  intros Hu Ht Hn He Hr. apply (extends_fresh _ _ (Sum256 (bytes_of token))).
  { eapply unused_secret; [exact Hu|]. apply secret_HashToken. }
  rewrite omap_app in He. csimpl in He. rewrite Ht, secret_HashToken in He. unfold secrets.
  etrans; [apply submseteq_app; [exact Hn|apply submseteq_app; [exact He|exact Hr]]|].
  rewrite <- !app_assoc. solve_submseteq.
Qed.

(** ** Each transaction *)
Ltac open_call H :=
  repeat (first [ apply guard_iff in H as [? H]
                | let x := fresh "x" in let E := fresh "E" in apply bind_Ok in H as (x & E & H) ];
          try match type of H with (let '(_, _) := ?p in _) = _ => destruct p end; cbv zeta in H).

Lemma createNode_secrets generateBearer newNodeID newEnrollmentID eventID now later actor networkID input state state' out :
  createNode generateBearer newNodeID newEnrollmentID eventID now later actor networkID input state = Ok (state', out) →
  extends state state'.
Proof.
  unfold createNode. cbv zeta. intros Hc. open_call Hc. injection Hc as <- <-.
  match goal with H : uniqueBearer _ _ = Ok ?t |- _ => apply unique_bearer_Ok in H as [_ Hu] end.
  eapply (add_enrollment _ _ (enrollment_token _ _ _ _ _) _ Hu); unfold add_pending; simpl; [reflexivity| |reflexivity|done].
  rewrite bind_app. csimpl. by rewrite !app_nil_r.
Qed.

Lemma reissue_secrets generateBearer random eventID now actor nodeID state state' out :
  reissueEnrollment generateBearer random eventID now actor nodeID state = Ok (state', out) → extends state state'.
Proof.
  unfold reissueEnrollment. cbv zeta. intros Hc. open_call Hc. injection Hc as <- <-.
  match goal with H : uniqueUnseenEnrollmentBearer _ _ = Ok ?t |- _ => apply unique_bearer_Ok in H as [_ Hu] end.
  eapply (add_enrollment _ _ (enrollment_token _ _ _ _ _) _ Hu); simpl; [reflexivity|done| |done].
  rewrite !omap_app. apply submseteq_app; [apply omap_filter_submseteq|reflexivity].
Qed.

Lemma issue_recovery_secrets generateBearer random eventID now actor nodeID state state' out :
  issueAgentRecovery generateBearer random eventID now actor nodeID state = Ok (state', out) → extends state state'.
Proof.
  unfold issueAgentRecovery. cbv zeta. intros Hc. open_call Hc. injection Hc as <- <-.
  match goal with H : uniqueUnseenRecoveryBearer _ _ = Ok ?t |- _ => apply unique_bearer_Ok in H as [_ Hu]; rename t into token end.
  apply (extends_fresh _ _ (Sum256 (bytes_of token))).
  { eapply unused_secret; [exact Hu|]. apply secret_HashToken. }
  unfold secrets; simpl. rewrite omap_app. csimpl. rewrite secret_HashToken.
  etrans; [do 2 apply submseteq_skips_l; apply submseteq_skips_r, omap_filter_submseteq|]. solve_submseteq.
Qed.

Lemma topology_secrets eventID now actor nodeID input state state' out :
  updateNodeTopology eventID now actor nodeID input state = Ok (state', out) → extends state state'.
Proof.
  unfold updateNodeTopology. cbv zeta. intros Hc. open_call Hc.
  destruct (_ && _) in Hc; [injection Hc as <- <-; by apply extends_none|]. open_call Hc. injection Hc as <- <-.
  apply of_option_Ok in E1. apply node_at_Some in E1 as [Hi _].
  apply extends_none, (secrets_parts _ _ []); simpl.
  - apply (bind_insert _ _ _ _ _ [] Hi). done.
  - done.
  - rewrite omap_map_same; [done|]. intros r. unfold place_result. destruct (AgentRecoveryToken.Result r); [|done].
    by match goal with |- context [if ?c then _ else _] => destruct c end.
Qed.

Lemma rotate_secrets eventID now token hash read state state' out :
  RotateAgentCredential eventID now token hash read state = Ok (state', out) → extends state state'.
Proof.
  unfold RotateAgentCredential. cbv zeta. intros Hc. open_call Hc.
  repeat match type of Hc with (if ?c then _ else _) = _ => destruct c end; open_call Hc; try done; injection Hc as <- <-;
    try (by apply extends_none).
  apply of_option_Ok, list_find_Some in E0 as (Hi & _).
  apply (extends_same _ (put_node state n (rotated_node now (TrimSpace hash) t))); [done|].
  apply (put_node_fresh _ _ _ _ (TrimSpace hash) Hi); [done|].
  rewrite (node_secrets_set (rotated_node now (TrimSpace hash) t) (TrimSpace hash) (Node.AgentTokenHash t)) by done.
  rewrite (node_secrets_set t _ _ eq_refl eq_refl). apply submseteq_skips_l. solve_submseteq.
Qed.

Lemma auto_rollback_nodes eventID state index network node now reason evidence state' :
  autoRollbackFirewallRollout eventID state index network node now reason evidence = Ok state' →
  ∃ network' event, state' = append_audit (put_network state index network') event.
Proof. unfold autoRollbackFirewallRollout. cbv zeta. intros Hc. open_call Hc. injection Hc as <-. eauto. Qed.

(** A heartbeat reports for one active node that authenticates. *)
Lemma heartbeat_call eventID preflightAt now token input read state state' updated :
  Heartbeat eventID preflightAt now token input read state = Ok (state', updated) →
  ∃ i node network k, agent_at state (HashToken (TrimSpace token)) now = Some (i, node) ∧
    network_at state (Node.NetworkID node) = Some (k, network) ∧
    heartbeat_checks now (HeartbeatInput.trimmed input) network node = Ok tt ∧
    HeartbeatInput.AppliedConfigRevision (HeartbeatInput.trimmed input) ≤ Network.ConfigRevision network ∧
    updated = reported_node now (snd (agentCredentialMatch node (HashToken (TrimSpace token)) now)) (HeartbeatInput.trimmed input) node ∧
    (state' = put_node state i updated ∨
     ∃ network' event, state' = append_audit (put_network (put_node state i updated) k network') event).
Proof.
  unfold Heartbeat. cbv zeta. intros Hc. open_call Hc.
  match goal with H : of_option (agent_at _ _ _) _ = Ok (?a, ?b) |- _ => apply of_option_Ok in H; rename a into i, b into node, H into Ha end.
  match goal with H : of_option (network_at _ _) _ = Ok (?a, ?b) |- _ => apply of_option_Ok in H; rename a into k, b into network, H into Hk end.
  injection Hc as <- <-. exists i, node, network, k.
  match goal with H : heartbeat_checks _ _ _ _ = Ok ?u |- _ => destruct u; rename H into Hchk end.
  assert (HeartbeatInput.AppliedConfigRevision (HeartbeatInput.trimmed input) ≤ Network.ConfigRevision network) as Hrev.
  { unfold heartbeat_checks in Hchk. open_call Hchk. split_bools. lia. }
  split_and!; try done.
  match goal with H : (if ?c then _ else _) = Ok _ |- _ => destruct c; [right|left] end.
  - by eapply auto_rollback_nodes.
  - match goal with H : Ok _ = Ok _ |- _ => by injection H as <- end.
Qed.

Lemma heartbeat_secrets eventID preflightAt now token input read state state' out :
  Heartbeat eventID preflightAt now token input read state = Ok (state', out) → extends state state'.
Proof.
  intros (i & node & network & k & Ha & _ & _ & _ & Hu & Hs)%heartbeat_call.
  apply list_find_Some in Ha as (Hi & _).
  apply (extends_same _ (put_node state i out)); [by destruct Hs as [->|(? & ? & ->)]|].
  apply extends_none, (put_node_kept _ _ _ _ Hi). rewrite (node_secrets_set node _ _ eq_refl eq_refl).
  rewrite (node_secrets_set out (Node.AgentTokenHash node)
    (if snd (agentCredentialMatch node (HashToken (TrimSpace token)) now) then "" else Node.PreviousAgentTokenHash node))
    by (by rewrite Hu).
  apply submseteq_skips_l. destruct (snd _); [apply submseteq_nil_l|done].
Qed.

Section requests.
Context `{Crypto, Nebula}.

Lemma enroll_claim_secrets claimID claimedAt token publicKey hash state state' outcome :
  enroll_claim claimID claimedAt token publicKey hash state = Ok (state', outcome) → extends state state'.
Proof.
  unfold enroll_claim. cbv zeta. intros Hc. open_call Hc. apply of_option_Ok, list_find_Some in E as (Hi & _).
  destruct (EnrollmentToken.UsedAt _); open_call Hc; injection Hc as <- <-; apply extends_none; [done|].
  by rewrite (put_enrollment_secrets _ _ _ _ Hi).
Qed.

Lemma release_enrollment_secrets enrollmentID claimID state : extends state (releaseEnrollmentClaim enrollmentID claimID state).
Proof.
  apply extends_none. unfold secrets, releaseEnrollmentClaim; simpl. rewrite omap_map_same; [done|].
  intros e. unfold release_enrollment. by match goal with |- context [if ?c then _ else _] => destruct c end.
Qed.

(** What an enrollment commits. *)
Lemma enroll_commit_call eventID now claimID publicKey hash enrollmentID nodeID networkID authority issued state state' bundle :
  enroll_commit eventID now claimID publicKey hash enrollmentID nodeID networkID authority issued state = Ok (state', bundle) →
  ∃ i enrollment j node,
    list_find (λ e, EnrollmentToken.ID e = enrollmentID) (State.Enrollments state) = Some (i, enrollment) ∧ EnrollmentToken.UsedAt enrollment = None ∧
    EnrollmentToken.ClaimID enrollment = claimID ∧ EnrollmentToken.ClaimKeyHash enrollment = request_hash publicKey hash ∧
    node_at state nodeID = Some (j, node) ∧ Node.Status node = "pending" ∧ strictCredentialHashInUse state hash = false ∧
    State.Nodes state' = <[j := enrolled_node state now authority publicKey hash issued node]> (State.Nodes state) ∧
    State.Enrollments state' = <[i := enrollment <| EnrollmentToken.UsedAt := Some now |>]> (State.Enrollments state) ∧
    State.AgentRecoveries state' = State.AgentRecoveries state.
Proof.
  unfold enroll_commit. cbv zeta. intros Hc. open_call Hc. injection Hc as <- <-.
  repeat match goal with H : of_option _ _ = Ok _ |- _ => apply of_option_Ok in H end. split_bools.
  match goal with H : ¬ is_Some _ |- _ => apply eq_None_not_Some in H end.
  by do 4 eexists.
Qed.

Lemma enroll_commit_secrets eventID now claimID publicKey hash enrollmentID nodeID networkID authority issued state state' bundle :
  enroll_commit eventID now claimID publicKey hash enrollmentID nodeID networkID authority issued state = Ok (state', bundle) →
  extends state state'.
Proof.
  intros (i & e & j & node & Hf & _ & _ & _ & Hn & _ & Hu & En & Ee & Er)%enroll_commit_call.
  apply node_at_Some in Hn as [Hj _]. apply list_find_Some in Hf as (Hi & _).
  apply (extends_same _ (put_node (put_enrollment state i (e <| EnrollmentToken.UsedAt := Some now |>)) j
           (enrolled_node state now authority publicKey hash issued node))).
  { unfold secrets. by rewrite En, Ee, Er. }
  apply (put_node_fresh_in state _ _ node _ hash); [by apply (put_enrollment_secrets _ _ e)|done..|].
  rewrite (node_secrets_set (enrolled_node _ _ _ _ _ _ _) _ _ eq_refl eq_refl).
  rewrite (node_secrets_set node _ _ eq_refl eq_refl). apply submseteq_skips_l. solve_submseteq.
Qed.

Lemma recover_claim_secrets claimID claimedAt token publicKey hash state state' outcome :
  recover_claim claimID claimedAt token publicKey hash state = Ok (state', outcome) → extends state state'.
Proof.
  unfold recover_claim. cbv zeta. intros Hc. open_call Hc. apply of_option_Ok, list_find_Some in E as (Hi & _).
  destruct (AgentRecoveryToken.UsedAt _); open_call Hc; injection Hc as <- <-; apply extends_none; [done|].
  by rewrite (put_recovery_secrets _ _ _ _ Hi).
Qed.

Lemma release_recovery_secrets recoveryID claimID state : extends state (releaseAgentRecoveryClaim recoveryID claimID state).
Proof.
  apply extends_none. unfold secrets, releaseAgentRecoveryClaim; simpl. rewrite omap_map_same; [done|].
  intros r. unfold release_recovery. by match goal with |- context [if ?c then _ else _] => destruct c end.
Qed.

Lemma recover_commit_secrets eventID now claimID publicKey hash recoveryID state state' bundle :
  recover_commit eventID now claimID publicKey hash recoveryID state = Ok (state', bundle) → extends state state'.
Proof.
  unfold recover_commit. cbv zeta. intros Hc. open_call Hc. injection Hc as <- <-.
  repeat match goal with H : of_option _ _ = Ok _ |- _ => apply of_option_Ok in H end.
  match goal with H : node_at _ _ = Some (?a, ?b) |- _ => apply node_at_Some in H as [Hj _]; rename a into j, b into node end.
  match goal with H : list_find _ _ = Some (?a, ?b) |- _ => apply list_find_Some in H as (Hi & _); rename a into i, b into record end.
  set (node' := recovered_node now hash node).
  assert (extends state (put_node state j node')) as Hx.
  { apply (put_node_fresh _ _ _ _ hash Hj); [done|].
    rewrite (node_secrets_set node' hash "") by done. apply submseteq_skips_l, submseteq_nil_l. }
  destruct Hx as [Hs|s Hf Hs]; [apply extends_none|apply (extends_fresh _ _ s); [done|]];
    (etrans; [|exact Hs]); unfold secrets; simpl; do 2 apply submseteq_skips_l;
    (etrans; [apply omap_filter_submseteq|]); by rewrite (omap_insert_same _ _ _ record).
Qed.

Lemma renew_claim_secrets claimID claimedAt tokenHash publicKey state state' outcome :
  renew_claim claimID claimedAt tokenHash publicKey state = Ok (state', outcome) → extends state state'.
Proof.
  unfold renew_claim. cbv zeta. intros Hc. open_call Hc. apply of_option_Ok, list_find_Some in E as (Hi & _).
  destruct (_ && _) in Hc; open_call Hc; injection Hc as <- <-; apply extends_none; [done|].
  by apply (put_node_kept _ _ _ _ Hi).
Qed.

Lemma release_renewal_secrets nodeID claimID state : extends state (releaseRenewalClaim nodeID claimID state).
Proof.
  apply extends_none, (secrets_parts _ _ []); simpl; [|done..]. apply bind_map. intros n _. unfold release_renewal.
  by match goal with |- context [if ?c then _ else _] => destruct c end.
Qed.

Lemma renewed_node_secrets state now authority issued node :
  node_secrets (renewed_node state now authority issued node) = node_secrets node.
Proof. rewrite (node_secrets_set node _ _ eq_refl eq_refl). by apply node_secrets_set. Qed.

Lemma renew_nodes_secrets state now claimID tokenHash nodeID authority issued nodes nodes' found :
  renew_nodes state now claimID tokenHash nodeID authority issued nodes = Ok (nodes', found) →
  (nodes' ≫= node_secrets) = (nodes ≫= node_secrets).
Proof.
  revert nodes' found. induction nodes as [|n l IH]; intros nodes' found Hc; cbn [renew_nodes] in Hc; [by injection Hc as <- <-|].
  destruct (_ != _) in Hc; open_call Hc; injection Hc as <- <-; rewrite !bind_cons, ?renewed_node_secrets; by erewrite IH.
Qed.

Lemma renew_commit_secrets eventID now claimID tokenHash claimed authority issued state state' bundle :
  renew_commit eventID now claimID tokenHash claimed authority issued state = Ok (state', bundle) → extends state state'.
Proof.
  unfold renew_commit. destruct issued as [[certificate fingerprint] expiresAt]. cbv zeta. intros Hc. open_call Hc.
  injection Hc as <- <-. apply extends_none. unfold secrets; simpl. by erewrite renew_nodes_secrets.
Qed.
End requests.

(** *** Revocation *)
Lemma appendRevocation_same state nodeID fingerprint reason at_ expiresAt :
  ∃ revocations, appendRevocation state nodeID fingerprint reason at_ expiresAt
                 = state <| State.Revocations := State.Revocations state ++ revocations |>.
Proof.
  unfold appendRevocation. destruct state. repeat case_match; try (eexists; reflexivity); exists []; simpl; by rewrite app_nil_r.
Qed.

Lemma revoke_issuances_same nodeID now issuances state :
  ∃ revocations, foldl (revoke_issuance nodeID now) state issuances
                 = state <| State.Revocations := State.Revocations state ++ revocations |>.
Proof.
  revert state. induction issuances as [|i l IH]; intros state; simpl.
  { exists []. rewrite app_nil_r. by destruct state. }
  destruct (IH (revoke_issuance nodeID now state i)) as [r ->]. unfold revoke_issuance.
  destruct (_ && _); [|by exists r].
  destruct (appendRevocation_same state nodeID (CertificateIssuance.Fingerprint i) "node revoked" now (Some (CertificateIssuance.ExpiresAt i))) as [r' ->].
  exists (r' ++ r). simpl. by rewrite <- app_assoc.
Qed.

Lemma revoke_certificates_same now node state :
  ∃ revocations, revoke_certificates now node state = state <| State.Revocations := State.Revocations state ++ revocations |>.
Proof.
  unfold revoke_certificates. destruct (revoke_issuances_same (Node.ID node) now (State.Issuances state) state) as [r ->].
  match goal with |- context [appendRevocation ?s ?a ?b ?c ?d ?e] => destruct (appendRevocation_same s a b c d e) as [r' ->] end.
  exists (r ++ r'). simpl. by rewrite <- app_assoc.
Qed.

Definition cut_off (nodeID : string) (now : time) (node : Node.t) : Node.t :=
  if Node.ID node == nodeID then revoked_node now node else node.

Definition cleared (nodeID : string) (now : time) (receipted : bool) (state : State.t) : State.t :=
  state <| State.Nodes := cut_off nodeID now <$> State.Nodes state |>
        <| State.AgentRecoveries := filter (λ r, AgentRecoveryToken.NodeID r ≠ nodeID) (State.AgentRecoveries state) |>
        <| State.Enrollments := if receipted then filter (λ e, EnrollmentToken.NodeID e ≠ nodeID) (State.Enrollments state)
                                else State.Enrollments state |>.

Lemma revoke_in_state_call rolloutEventID now actor nodeID receipted state state' node noted counts revision :
  revoke_in_state rolloutEventID now actor nodeID receipted state = Ok (state', node, noted, counts, revision) →
  last (filter (λ n, Node.ID n = nodeID) (cut_off nodeID now <$> State.Nodes state)) = Some node ∧
  ∃ networks events,
    state' = revoke_certificates now node (cleared nodeID now receipted state)
               <| State.Networks := networks |> <| State.Audit := State.Audit state ++ events |>.
Proof.
  unfold revoke_in_state. cbv zeta. change (λ n, if Node.ID n == nodeID then revoked_node now n else n) with (cut_off nodeID now).
  intros Hc. apply guard_iff in Hc as [_ Hc]. apply bind_Ok in Hc as (n & Hn%of_option_Ok & Hc).
  change (state <| State.Nodes := _ |> <| State.AgentRecoveries := _ |> <| State.Enrollments := _ |>)
    with (cleared nodeID now receipted state) in Hc.
  destruct (revoke_certificates_same now n (cleared nodeID now receipted state)) as [r Er].
  set (blocked := revoke_certificates now n (cleared nodeID now receipted state)) in *.
  assert (State.Audit blocked = State.Audit state) as Ea by (by rewrite Er).
  assert (∃ networks noted', detach n blocked = (blocked <| State.Networks := networks |>, noted')) as (networks & noted' & Ed).
  { unfold detach. cbv zeta. destruct (_ <? _); [|eauto]. exists (State.Networks blocked). eexists. f_equal. by destruct blocked. }
  rewrite Ed in Hc. apply bind_Ok in Hc as ([[networks' events] revision'] & _ & Hc). apply guard_iff in Hc as [_ Hc].
  injection Hc as <- <- _ _ _. split; [done|]. exists networks', events. fold blocked. clearbody blocked. destruct blocked. simpl in *. by rewrite Ea.
Qed.

Lemma cut_off_secrets nodeID now (nodes : list Node.t) : ((cut_off nodeID now <$> nodes) ≫= node_secrets) ⊆+ (nodes ≫= node_secrets).
Proof. apply bind_map. intros n _. unfold cut_off. destruct (_ == _); [apply submseteq_nil_l|done]. Qed.

Lemma revoke_in_state_secrets rolloutEventID now actor nodeID receipted state state' node noted counts revision :
  revoke_in_state rolloutEventID now actor nodeID receipted state = Ok (state', node, noted, counts, revision) → extends state state'.
Proof.
  intros (_ & networks & events & ->)%revoke_in_state_call.
  destruct (revoke_certificates_same now node (cleared nodeID now receipted state)) as [r ->].
  apply extends_none, (secrets_parts _ _ []); simpl.
  - apply cut_off_secrets.
  - destruct receipted; [apply omap_filter_submseteq|done].
  - apply omap_filter_submseteq.
Qed.

Lemma replace_node_secrets generateBearer random newNodeID eventID now actor source state state' replaced :
  replace_node generateBearer random newNodeID eventID now actor source state = Ok (state', replaced) → extends state state'.
Proof.
  unfold replace_node. cbv zeta. intros Hc. open_call Hc. injection Hc as <- <-.
  match goal with H : uniqueUnseenEnrollmentBearer _ _ = Ok ?t |- _ => apply unique_bearer_Ok in H as [_ Hu] end.
  eapply (add_enrollment _ _ (enrollment_token _ _ _ _ _) _ Hu); unfold add_pending; simpl; [reflexivity| |reflexivity|done].
  rewrite bind_app. csimpl. by rewrite !app_nil_r.
Qed.

Lemma revoke_distinct generateBearer random newNodeID rolloutEventID eventID replacementEventID now actor nodeID replace expected input
    state state' out :
  revokeOrReplaceNode generateBearer random newNodeID rolloutEventID eventID replacementEventID now actor nodeID replace expected input state
    = Ok (state', out) → NoDup (secrets state) → NoDup (secrets state').
Proof.
  unfold revokeOrReplaceNode. intros Hc Hnd. open_call Hc.
  match type of Hc with match ?m with _ => _ end = _ => destruct m; [by injection Hc as <- <-|] end.
  apply bind_Ok in Hc as (u & _ & Hc). apply bind_Ok in Hc as ([[[[s node] noted] counts] revision] & Hr & Hc).
  apply revoke_in_state_secrets in Hr. apply (extends_distinct _ _ Hr) in Hnd. cbv zeta in Hc.
  apply bind_Ok in Hc as (event & _ & Hc). destruct (negb replace); [by injection Hc as <- <-|].
  apply bind_Ok in Hc as ([s' replaced] & Hp & Hc). injection Hc as <- <-. apply replace_node_secrets in Hp.
  by apply (extends_distinct _ _ Hp).
Qed.

Lemma ca_rotation_secrets createCA keyPairValid seal eventID now actor networkID input read state state' doc :
  updateNetworkCARotation createCA keyPairValid seal eventID now actor networkID input read state = Ok (state', doc) →
  extends state state'.
Proof.
  intros (index & network & generated & revision & s & updated & name & event & _ & _ & _ & Hact & Hr & _ & ->)%update_ca_call.
  apply (rotate_ca_transition _ _ _ _ _ _ _ _ _ Hact) in Hr as (_ & Hs & _).
  apply extends_none. destruct Hs as [[_ ->]| ->]; [done|].
  apply (secrets_parts _ _ []); simpl; [done..|]. apply omap_filter_submseteq.
Qed.

(** ** Runs

    A run interleaves the transactions of all requests, with any arguments and any
    answers of the issuer; [step_elsewhere] is a change that leaves the bearers
    alone, such as those of the networks and of the routes. *)
Inductive credential_step (state state' : State.t) : Prop :=
  | step_create generateBearer newNodeID newEnrollmentID eventID now later actor networkID input out :
      createNode generateBearer newNodeID newEnrollmentID eventID now later actor networkID input state = Ok (state', out) →
      credential_step state state'
  | step_reissue generateBearer random eventID now actor nodeID out :
      reissueEnrollment generateBearer random eventID now actor nodeID state = Ok (state', out) → credential_step state state'
  | step_topology eventID now actor nodeID input out :
      updateNodeTopology eventID now actor nodeID input state = Ok (state', out) → credential_step state state'
  | step_enroll_claim (C : Crypto) claimID claimedAt token publicKey hash out :
      enroll_claim claimID claimedAt token publicKey hash state = Ok (state', out) → credential_step state state'
  | step_enroll_commit (C : Crypto) eventID now claimID publicKey hash enrollmentID nodeID networkID authority issued out :
      enroll_commit eventID now claimID publicKey hash enrollmentID nodeID networkID authority issued state = Ok (state', out) →
      credential_step state state'
  | step_enroll_release enrollmentID claimID :
      state' = releaseEnrollmentClaim enrollmentID claimID state → credential_step state state'
  | step_issue_recovery generateBearer random eventID now actor nodeID out :
      issueAgentRecovery generateBearer random eventID now actor nodeID state = Ok (state', out) → credential_step state state'
  | step_recover_claim claimID claimedAt token publicKey hash out :
      recover_claim claimID claimedAt token publicKey hash state = Ok (state', out) → credential_step state state'
  | step_recover_commit (C : Crypto) eventID now claimID publicKey hash recoveryID out :
      recover_commit eventID now claimID publicKey hash recoveryID state = Ok (state', out) → credential_step state state'
  | step_recover_release recoveryID claimID :
      state' = releaseAgentRecoveryClaim recoveryID claimID state → credential_step state state'
  | step_rotate eventID now token hash read out :
      RotateAgentCredential eventID now token hash read state = Ok (state', out) → credential_step state state'
  | step_heartbeat eventID preflightAt now token input read out :
      Heartbeat eventID preflightAt now token input read state = Ok (state', out) → credential_step state state'
  | step_renew_claim (C : Crypto) claimID claimedAt tokenHash publicKey out :
      renew_claim claimID claimedAt tokenHash publicKey state = Ok (state', out) → credential_step state state'
  | step_renew_commit (C : Crypto) eventID now claimID tokenHash claimed authority issued out :
      renew_commit eventID now claimID tokenHash claimed authority issued state = Ok (state', out) → credential_step state state'
  | step_renew_release nodeID claimID :
      state' = releaseRenewalClaim nodeID claimID state → credential_step state state'
  | step_revoke generateBearer random newNodeID rolloutEventID eventID replacementEventID now actor nodeID replace expected input out :
      revokeOrReplaceNode generateBearer random newNodeID rolloutEventID eventID replacementEventID now actor nodeID replace expected
        input state = Ok (state', out) → credential_step state state'
  | step_ca createCA keyPairValid seal eventID now actor networkID input read out :
      updateNetworkCARotation createCA keyPairValid seal eventID now actor networkID input read state = Ok (state', out) →
      credential_step state state'
  | step_elsewhere :
      Forall2 (λ n n', Node.AgentTokenHash n' = Node.AgentTokenHash n ∧ Node.PreviousAgentTokenHash n' = Node.PreviousAgentTokenHash n)
        (State.Nodes state) (State.Nodes state') →
      State.Enrollments state' = State.Enrollments state → State.AgentRecoveries state' = State.AgentRecoveries state →
      credential_step state state'.

Lemma elsewhere_secrets (nodes nodes' : list Node.t) :
  Forall2 (λ n n', Node.AgentTokenHash n' = Node.AgentTokenHash n ∧ Node.PreviousAgentTokenHash n' = Node.PreviousAgentTokenHash n)
    nodes nodes' → (nodes' ≫= node_secrets) = (nodes ≫= node_secrets).
Proof. induction 1 as [|n n' l l' [E1 E2] _ IH]; csimpl; [done|]. rewrite IH. f_equal. unfold node_secrets. by rewrite E1, E2. Qed.

Lemma step_distinct state state' : credential_step state state' → NoDup (secrets state) → NoDup (secrets state').
Proof.
  intros Hstep Hnd.
  destruct Hstep; try match goal with H : _ = Ok (state', _) |- _ => rename H into Hcall end; subst.
  1: apply createNode_secrets in Hcall. 2: apply reissue_secrets in Hcall. 3: apply topology_secrets in Hcall.
  4: apply enroll_claim_secrets in Hcall. 5: apply enroll_commit_secrets in Hcall. 6: pose proof (release_enrollment_secrets enrollmentID claimID state) as Hcall.
  7: apply issue_recovery_secrets in Hcall. 8: apply recover_claim_secrets in Hcall. 9: apply recover_commit_secrets in Hcall.
  10: pose proof (release_recovery_secrets recoveryID claimID state) as Hcall. 11: apply rotate_secrets in Hcall.
  12: apply heartbeat_secrets in Hcall. 13: apply renew_claim_secrets in Hcall. 14: apply renew_commit_secrets in Hcall.
  15: pose proof (release_renewal_secrets nodeID claimID state) as Hcall. 17: apply ca_rotation_secrets in Hcall.
  16: by apply (revoke_distinct _ _ _ _ _ _ _ _ _ _ _ _ _ _ _ Hcall).
  17: unfold secrets in *; erewrite elsewhere_secrets by done; congruence.
  all: by apply (extends_distinct _ _ Hcall).
Qed.

Lemma run_distinct state state' : rtc credential_step state state' → NoDup (secrets state) → NoDup (secrets state').
Proof. induction 1 as [|s s' s'' Hs _ IH]; [done|]. intros Hnd. by apply IH, (step_distinct s). Qed.

(** C3: the bearers stay distinct.  If no two of the retained hashes of agent,
    enrollment and recovery bearers stand for one secret, then neither do they after
    any run of the requests, in any interleaving of their transactions. *)
Theorem bearers_stay_distinct state state' :
  rtc credential_step state state' → NoDup (secrets state) → NoDup (secrets state').
Proof. apply run_distinct. Qed.

(** A bearer identifies one agent.  In every state reached from one with
    distinct bearers, a node that a bearer authenticates is the only one: the
    operations that read with [findAgent] and the ones that stop at the first match
    both act for it. *)
Theorem bearer_identifies_one_agent state state' tokenHash now i node :
  rtc credential_step state state' → NoDup (secrets state) →
  State.Nodes state' !! i = Some node → authenticates tokenHash now node = true →
  findAgent state' tokenHash now = Some node ∧ agent_at state' tokenHash now = Some (i, node).
Proof. intros Hrun Hnd. apply agents_agree. by apply (run_distinct state). Qed.

(** ** Enrollment bearers *)
Lemma omap_lookup_inj {A B} (f : A → option B) (l : list A) i j x y b :
  NoDup (omap f l) → l !! i = Some x → l !! j = Some y → f x = Some b → f y = Some b → i = j.
Proof.
  revert i j. induction l as [|z l IH]; intros i j Hnd Hi Hj Hx Hy; [done|]. csimpl in Hnd.
  assert (∀ k w, l !! k = Some w → f w = Some b → b ∈ omap f l) as Hin
    by (intros k w Hk Hw; apply list_elem_of_omap; exists w; split; [by eapply list_elem_of_lookup_2|done]).
  destruct i as [|i], j as [|j]; simpl in *; [done| | |].
  - injection Hi as ->. rewrite Hx in Hnd. apply NoDup_cons in Hnd as [Hn _]. destruct Hn. by apply (Hin j y).
  - injection Hj as ->. rewrite Hy in Hnd. apply NoDup_cons in Hnd as [Hn _]. destruct Hn. by apply (Hin i x).
  - f_equal. apply (IH i j); try done. destruct (f z); [by apply NoDup_cons in Hnd as [_ ?]|done].
Qed.

Lemma presented_unique state i e token claimedAt j e' :
  NoDup (secrets state) → State.Enrollments state !! i = Some e → TokenEqual (EnrollmentToken.TokenHash e) token = true →
  list_find (presented claimedAt token) (State.Enrollments state) = Some (j, e') → e' = e.
Proof.
  intros Hnd Hi He Hf. apply list_find_Some in Hf as (Hj & Hp & _). unfold presented in Hp. split_bools.
  match goal with Ht : TokenEqual (EnrollmentToken.TokenHash e') token = true |- _ => apply TokenEqual_secret in He, Ht; rename Ht into He' end.
  unfold secrets in Hnd. apply NoDup_app in Hnd as (_ & _ & Hnd). apply NoDup_app in Hnd as (Hnd & _).
  assert (j = i) as -> by (by eapply (omap_lookup_inj _ _ j i e' e)). congruence.
Qed.

(** C19: an enrollment bearer is used once.  After an enrollment has committed, its
    bearer no longer claims anything: the request that committed is answered again,
    without a change of state, and every other request with the bearer is refused. *)
Theorem enrollment_bearer_used_once (C : Crypto) eventID now claimID publicKey hash enrollmentID nodeID networkID authority issued
    state state1 bundle i enrollment token claimID' claimedAt' publicKey' hash' state2 outcome :
  NoDup (secrets state) →
  list_find (λ e, EnrollmentToken.ID e = enrollmentID) (State.Enrollments state) = Some (i, enrollment) →
  TokenEqual (EnrollmentToken.TokenHash enrollment) token = true →
  enroll_commit eventID now claimID publicKey hash enrollmentID nodeID networkID authority issued state = Ok (state1, bundle) →
  enroll_claim claimID' claimedAt' token publicKey' hash' state1 = Ok (state2, outcome) →
  state2 = state1 ∧ request_hash publicKey' hash' = request_hash publicKey hash ∧ ∃ replayed, outcome = EnrollReplay replayed.
Proof.
  intros Hnd Hf Ht Hc Hclaim. assert (NoDup (secrets state1)) as Hnd1 by (by eapply extends_distinct, Hnd; eapply enroll_commit_secrets).
  apply enroll_commit_call in Hc as (i' & e' & j & node & Hf' & Hu & Hcl & Hk & _ & _ & _ & _ & Ee & _).
  rewrite Hf in Hf'. injection Hf' as <- <-.
  set (used := enrollment <| EnrollmentToken.UsedAt := Some now |>) in *.
  assert (State.Enrollments state1 !! i = Some used) as Hi.
  { rewrite Ee. apply list_lookup_insert_eq. apply list_find_Some in Hf as (Hi & _). by eapply lookup_lt_Some. }
  unfold enroll_claim in Hclaim. cbv zeta in Hclaim. apply bind_Ok in Hclaim as ([j' e''] & Hp%of_option_Ok & Hclaim).
  assert (e'' = used) as -> by (by eapply presented_unique).
  simpl in Hclaim. open_call Hclaim. injection Hclaim as <- <-. split_bools. split_and!; [done| |eauto]. congruence.
Qed.

(** ** Heartbeats *)
Lemma heartbeat_checks_bounds now input network node :
  heartbeat_checks now input network node = Ok tt →
  Node.HeartbeatSequence node < HeartbeatInput.Sequence input ≤ Node.HeartbeatSequence node + 1000000 ∧
  Node.AppliedConfigRevision node ≤ HeartbeatInput.AppliedConfigRevision input ≤ Network.ConfigRevision network ∧
  HeartbeatInput.CertificateGeneration input ≤ Node.CertificateGeneration node ∧
  (0 < HeartbeatInput.CertificateGeneration input → Node.AppliedCertificateGeneration node ≤ HeartbeatInput.CertificateGeneration input).
Proof. unfold heartbeat_checks. intros Hc. open_call Hc. split_bools. lia. Qed.

(** A bearer that reported remains the bearer of that node only. *)
Lemma reported_secret tokenHash now node input :
  authenticates tokenHash now node = true →
  ∃ s, secret tokenHash = Some s ∧
    s ∈ node_secrets (reported_node now (snd (agentCredentialMatch node tokenHash now)) input node).
Proof.
  unfold authenticates, agentCredentialMatch. intros Ha. apply andb_true_iff in Ha as [_ Ha].
  setoid_rewrite elem_of_node_secrets.
  destruct (expires_after now (Node.AgentCredentialExpiresAt node) && _) eqn:E1.
  { split_bools. match goal with H : TokenHashEqual _ _ = true |- _ => apply TokenHashEqual_iff in H as (s & ? & ?) end. eauto. }
  destruct (expires_after now (Node.PreviousAgentTokenExpiresAt node) && _) eqn:E2; [|done].
  split_bools. match goal with H : TokenHashEqual _ _ = true |- _ => apply TokenHashEqual_iff in H as (s & ? & ?) end. eauto.
Qed.

(** Heartbeats only advance.  An accepted heartbeat raises the sequence number
    of its node, by at most a million, does not lower the applied revision, and keeps
    the applied revision and certificate generation within what the control plane
    has issued; and the same report is refused from then on, whatever the time. *)
Theorem heartbeat_advances_once eventID preflightAt now token input read state state' updated :
  NoDup (secrets state) →
  Heartbeat eventID preflightAt now token input read state = Ok (state', updated) →
  (∃ i node k network, State.Nodes state !! i = Some node ∧ network_at state (Node.NetworkID node) = Some (k, network) ∧
     State.Nodes state' !! i = Some updated ∧
     Node.HeartbeatSequence node < Node.HeartbeatSequence updated ≤ Node.HeartbeatSequence node + 1000000 ∧
     Node.AppliedConfigRevision node ≤ Node.AppliedConfigRevision updated ≤ Network.ConfigRevision network ∧
     (Node.AppliedCertificateGeneration node ≤ Node.CertificateGeneration node →
      Node.AppliedCertificateGeneration node ≤ Node.AppliedCertificateGeneration updated ≤ Node.CertificateGeneration updated)) ∧
  (∀ eventID' preflightAt' now' read' result, Heartbeat eventID' preflightAt' now' token input read' state' ≠ Ok result).
Proof.
  intros Hnd Hb. pose proof (extends_distinct _ _ (heartbeat_secrets _ _ _ _ _ _ _ _ _ Hb) Hnd) as Hnd'.
  apply heartbeat_call in Hb as (i & node & network & k & Ha & Hk & Hc & _ & Hu & Hs).
  apply list_find_Some in Ha as (Hi & Ha & _).
  assert (State.Nodes state' !! i = Some updated) as Hi'.
  { assert (State.Nodes state' = <[i := updated]> (State.Nodes state)) as -> by (by destruct Hs as [->|(? & ? & ->)]).
    apply list_lookup_insert_eq. by eapply lookup_lt_Some. }
  pose proof (heartbeat_checks_bounds _ _ _ _ Hc) as (Hseq & Hrev & Hgen & Hgen0).
  split.
  - exists i, node, k, network. do 3 (split; [done|]). rewrite Hu. simpl in *. do 2 (split; [lia|]). intros Hinv.
    destruct (0 <? HeartbeatInput.CertificateGeneration input) eqn:E; [simpl in *; lia|]. case_bool_decide; lia.
  - intros eventID' preflightAt' now' read' [state'' updated'] Hb.
    apply heartbeat_call in Hb as (i' & node' & network' & k' & Ha' & _ & Hc' & _).
    apply list_find_Some in Ha' as (Hi'' & Ha' & _). apply authenticates_secret in Ha' as (_ & s & Hsec & Hin).
    destruct (reported_secret _ _ _ (HeartbeatInput.trimmed input) Ha) as (s' & Hsec' & Hin'). rewrite <- Hu in Hin'.
    assert (s' = s) as -> by congruence. unfold secrets in Hnd'. apply NoDup_app in Hnd' as [Hnd' _].
    assert (i' = i) as -> by (by eapply (bind_lookup_inj node_secrets)). assert (node' = updated) as -> by congruence.
    apply heartbeat_checks_bounds in Hc' as (Hseq' & _). rewrite Hu in Hseq'. simpl in *. lia.
Qed.

(** ** Revoked nodes *)
Definition blocklisted (state : State.t) (fingerprint : string) : Prop :=
  fingerprint ≠ "" → ∃ r, r ∈ State.Revocations state ∧ CertificateRevocation.Fingerprint r = fingerprint.

Lemma appendRevocation_blocks state nodeID fingerprint reason at_ expiresAt :
  blocklisted (appendRevocation state nodeID fingerprint reason at_ expiresAt) fingerprint.
Proof.
  intros Hne. unfold appendRevocation. rewrite bool_decide_eq_false_2 by done. destruct (existsb _ _) eqn:E.
  - apply existsb_exists in E as (r & Hr & Hf). split_bools. exists r. split; [by apply list_elem_of_In|done].
  - eexists. split; [simpl; apply elem_of_app; right; by apply list_elem_of_singleton|done].
Qed.
Lemma appendRevocation_keeps state nodeID fingerprint reason at_ expiresAt f :
  blocklisted state f → blocklisted (appendRevocation state nodeID fingerprint reason at_ expiresAt) f.
Proof.
  intros Hb Hne. destruct (appendRevocation_same state nodeID fingerprint reason at_ expiresAt) as [r ->].
  destruct (Hb Hne) as (x & Hx & Hf). exists x. split; [|done]. simpl. apply elem_of_app. by left.
Qed.
Lemma revoke_issuances_keep nodeID now issuances state f :
  blocklisted state f → blocklisted (foldl (revoke_issuance nodeID now) state issuances) f.
Proof.
  intros Hb Hne. destruct (revoke_issuances_same nodeID now issuances state) as [r ->].
  destruct (Hb Hne) as (x & Hx & Hf). exists x. split; [|done]. simpl. apply elem_of_app. by left.
Qed.
Lemma revoke_issuances_block nodeID now issuances state issuance :
  issuance ∈ issuances → CertificateIssuance.NodeID issuance = nodeID → now < CertificateIssuance.ExpiresAt issuance →
  blocklisted (foldl (revoke_issuance nodeID now) state issuances) (CertificateIssuance.Fingerprint issuance).
Proof.
  intros Hin Hid Hexp. revert state. induction issuances as [|i l IH]; intros state; [by apply elem_of_nil in Hin|].
  simpl. apply elem_of_cons in Hin as [<-|Hin]; [|by apply IH].
  apply revoke_issuances_keep. unfold revoke_issuance, After. rewrite bool_decide_eq_true_2 by done.
  replace (now <? CertificateIssuance.ExpiresAt issuance) with true by lia. apply appendRevocation_blocks.
Qed.
Lemma revoke_certificates_block now node state issuance :
  issuance ∈ State.Issuances state → CertificateIssuance.NodeID issuance = Node.ID node →
  now < CertificateIssuance.ExpiresAt issuance →
  blocklisted (revoke_certificates now node state) (CertificateIssuance.Fingerprint issuance).
Proof. intros. by apply appendRevocation_keeps, revoke_issuances_block. Qed.

Lemma replace_node_records generateBearer random newNodeID eventID now actor source state state' replaced :
  replace_node generateBearer random newNodeID eventID now actor source state = Ok (state', replaced) →
  State.Nodes state' = State.Nodes state ++ [ReplacedNode.Node replaced] ∧ Node.Status (ReplacedNode.Node replaced) = "pending" ∧
  State.AgentRecoveries state' = State.AgentRecoveries state ∧ State.Revocations state' = State.Revocations state.
Proof. unfold replace_node. cbv zeta. intros Hc. open_call Hc. injection Hc as <- <-. done. Qed.

(** A revocation that is not answered from the log revokes; a replacement is added
    afterwards. *)
Lemma revoke_call generateBearer random newNodeID rolloutEventID eventID replacementEventID now actor nodeID replace expected input
    state state' node replacement receipt :
  (∀ i, input = Some i → findNodeRevocationReplay state nodeID i = Ok None) →
  revokeOrReplaceNode generateBearer random newNodeID rolloutEventID eventID replacementEventID now actor nodeID replace expected input state
    = Ok (state', (node, replacement, receipt)) →
  ∃ s noted counts revision event,
    revoke_in_state rolloutEventID now actor nodeID (bool_decide (is_Some input)) state = Ok (s, node, noted, counts, revision) ∧
    receipt = (λ i, revocation_receipt (RevokeNodeInput.RequestID i) now node noted counts revision) <$> input ∧
    (∀ i r, input = Some i → receipt = Some r →
       newOptionalAttributedAudit eventID now nodeRevocationCommittedAuditAction "node" nodeID
         (nodeRevocationAuditDetails r (RevokeNodeInput.ExpectedConfigRevision i)) actor = Ok event) ∧
    (replace = false ∧ state' = append_audit s event ∨
     ∃ r, replace = true ∧ replacement = Some r ∧
       replace_node generateBearer random newNodeID replacementEventID now actor
         (default Node.zero (findNode state nodeID)) (append_audit s event) = Ok (state', r)).
Proof.
  intros Hfresh. unfold revokeOrReplaceNode. intros Hc.
  apply bind_Ok in Hc as (source & Hsrc%of_option_Ok & Hc). apply guard_iff in Hc as [_ Hc]. apply bind_Ok in Hc as (replayed & Hq & Hc).
  assert (replayed = None) as ->.
  { unfold revocation_request in Hq. destruct input as [i|]; [|by injection Hq as <-].
    rewrite (Hfresh i eq_refl) in Hq. simpl in Hq. open_call Hq. by injection Hq as <-. }
  apply bind_Ok in Hc as (u & _ & Hc). apply bind_Ok in Hc as ([[[[s n] noted] counts] revision] & Hr & Hc). cbv zeta in Hc.
  apply bind_Ok in Hc as (event & He & Hc). rewrite Hsrc.
  assert (∀ i r, input = Some i → (λ i, revocation_receipt (RevokeNodeInput.RequestID i) now n noted counts revision) <$> input = Some r →
    newOptionalAttributedAudit eventID now nodeRevocationCommittedAuditAction "node" nodeID
      (nodeRevocationAuditDetails r (RevokeNodeInput.ExpectedConfigRevision i)) actor = Ok event) as Hev
    by (intros i r -> Hr'; injection Hr' as <-; exact He).
  destruct replace; simpl negb in Hc; cbv iota in Hc.
  - apply bind_Ok in Hc as ([s' r] & Hp & Hc). injection Hc as <- <- <- <-. exists s, noted, counts, revision, event. split_and!; eauto.
  - injection Hc as <- <- <- <-. exists s, noted, counts, revision, event. split_and!; auto.
Qed.

Lemma cut_off_authenticates nodeID now tokenHash at_ node :
  Node.ID node = nodeID → authenticates tokenHash at_ (cut_off nodeID now node) = false.
Proof. intros E. unfold cut_off. by rewrite bool_decide_eq_true_2. Qed.

(** C12: revocation is a cut-off.  A revocation or replacement that is not the repeat
    of an earlier request leaves no node of that identity that any bearer
    authenticates, at any time, and no recovery bearer for it, and has blocklisted
    the node's current certificate and every other one issued to it that has not
    expired. *)
Theorem revocation_cuts_off generateBearer random newNodeID rolloutEventID eventID replacementEventID now actor nodeID replace expected
    input state state' node replacement receipt :
  (∀ i, input = Some i → findNodeRevocationReplay state nodeID i = Ok None) →
  revokeOrReplaceNode generateBearer random newNodeID rolloutEventID eventID replacementEventID now actor nodeID replace expected input state
    = Ok (state', (node, replacement, receipt)) →
  (∀ n tokenHash at_, n ∈ State.Nodes state' → Node.ID n = nodeID → authenticates tokenHash at_ n = false) ∧
  (∀ r, r ∈ State.AgentRecoveries state' → AgentRecoveryToken.NodeID r ≠ nodeID) ∧
  (∀ n, n ∈ State.Nodes state → Node.ID n = nodeID → NoDup (Node.ID <$> State.Nodes state) →
     blocklisted state' (Node.CertificateFingerprint n)) ∧
  (∀ issuance, issuance ∈ State.Issuances state → CertificateIssuance.NodeID issuance = nodeID →
     now < CertificateIssuance.ExpiresAt issuance → blocklisted state' (CertificateIssuance.Fingerprint issuance)).
Proof.
  intros Hfresh (s & noted & counts & revision & event & Hr & _ & _ & Hs)%revoke_call; [|done].
  apply revoke_in_state_call in Hr as (Hlast & networks & events & ->).
  set (receipted := bool_decide _) in *. set (c := cleared nodeID now receipted state) in *.
  destruct (revoke_certificates_same now node c) as [r Er].
  assert (∃ extra, State.Nodes state' = (cut_off nodeID now <$> State.Nodes state) ++ extra ∧ Forall (λ n, Node.Status n = "pending") extra
    ∧ State.AgentRecoveries state' = State.AgentRecoveries c ∧ State.Revocations state' = State.Revocations (revoke_certificates now node c))
    as (extra & Hn & Hextra & Hrec & Hrev).
  { destruct Hs as [[_ ->]|(x & _ & _ & Hp)].
    - exists []. rewrite app_nil_r. split_and!; [|done| |done]; simpl; by rewrite Er.
    - apply replace_node_records in Hp as (-> & Hst & -> & ->). exists [ReplacedNode.Node x].
      split_and!; [|by constructor| |done]; simpl; by rewrite Er. }
  apply last_Some in Hlast as [l Hlast]. assert (node ∈ filter (λ n, Node.ID n = nodeID) (cut_off nodeID now <$> State.Nodes state)) as Hnode
    by (rewrite Hlast; apply elem_of_app; right; by apply list_elem_of_singleton).
  apply list_elem_of_filter in Hnode as [Hid Hnode].
  split_and!.
  - intros n h t Hin Hnid. rewrite Hn in Hin. apply elem_of_app in Hin as [Hin|Hin].
    + apply list_elem_of_fmap in Hin as (m & -> & Hm). apply cut_off_authenticates. unfold cut_off in Hnid. by case_match.
    + rewrite Forall_forall in Hextra. unfold authenticates. by rewrite (Hextra n Hin).
  - intros x Hin. rewrite Hrec in Hin. apply list_elem_of_filter in Hin as [Hne _]. done.
  - intros n Hin Hnid Hnd Hne. unfold blocklisted. rewrite Hrev. revert Hne. change (blocklisted (revoke_certificates now node c) (Node.CertificateFingerprint n)).
    apply list_elem_of_fmap in Hnode as (m & -> & Hm).
    assert (m = n) as ->.
    { assert (Node.ID m = nodeID) as Hmid by (unfold cut_off in Hid; by case_match).
      apply (inj Some). rewrite <- (findNode_unique state m), <- (findNode_unique state n) by done. congruence. }
    unfold revoke_certificates. replace (Node.CertificateFingerprint n) with (Node.CertificateFingerprint (cut_off nodeID now n))
      by (unfold cut_off; by case_match). apply appendRevocation_blocks.
  - intros i Hin Hiid Hexp. unfold blocklisted. rewrite Hrev. apply revoke_certificates_block; [done|by rewrite Hid|done].
Qed.

(** ** Examples *)
Definition example_bearer (n : Z) : string := b64_encode (replicate 32 n).
Definition bearer_hash (n : Z) : string := HashToken (example_bearer n).
Definition example_print : string := string_of (replicate 64 97).
Definition agent_network : Network.t :=
  Network.zero <| Network.ID := "net" |> <| Network.CIDR := "10.42.0.0/24" |> <| Network.ConfigRevision := 3 |>.
Definition example_agent : Node.t :=
  Node.zero <| Node.ID := "node-1" |> <| Node.NetworkID := "net" |> <| Node.Name := "gateway" |> <| Node.IP := "10.42.0.10" |>
    <| Node.Role := "member" |> <| Node.Status := "active" |> <| Node.EnrolledAt := Some 1 |>
    <| Node.AgentTokenHash := bearer_hash 1 |> <| Node.AgentCredentialExpiresAt := Some (90 * day) |>
    <| Node.AgentCredentialGeneration := 1 |> <| Node.CertificateGeneration := 1 |>
    <| Node.CertificateFingerprint := example_print |>.
Definition agent_state : State.t :=
  State.zero <| State.Version := 13 |> <| State.Networks := [agent_network] |> <| State.Nodes := [example_agent] |>.

Definition state_of {A} (r : result (State.t * A)) : State.t := match r with Ok (s, _) => s | Err _ => State.zero end.
Definition value_of {A} (dummy : A) (r : result (State.t * A)) : A := match r with Ok (_, a) => a | Err _ => dummy end.

Definition rotation_example := RotateAgentCredential "event" day (example_bearer 1) (bearer_hash 2) agent_state agent_state.
Lemma rotation_example_ok :
  RotateAgentCredential "event" day (example_bearer 1) (bearer_hash 2) agent_state agent_state = Ok (state_of rotation_example, value_of (CredentialRotation.make 0 0) rotation_example).
Proof. vm_compute. reflexivity. Qed.
Lemma agent_state_distinct : NoDup (secrets agent_state).
Proof. apply (bool_decide_unpack _). vm_compute. exact I. Qed.
Lemma rotation_run : rtc credential_step agent_state (state_of rotation_example).
Proof. apply rtc_once. eapply step_rotate. exact rotation_example_ok. Qed.

Lemma bearers_stay_distinct_witness : NoDup (secrets (state_of rotation_example)).
Proof. refine (bearers_stay_distinct agent_state (state_of rotation_example) _ _); [exact rotation_run|exact agent_state_distinct]. Defined.

Definition rotated_agent : Node.t := rotated_node day (bearer_hash 2) example_agent.
Lemma bearer_identifies_one_agent_witness :
  findAgent (state_of rotation_example) (bearer_hash 2) day = Some rotated_agent ∧
  agent_at (state_of rotation_example) (bearer_hash 2) day = Some (0%nat, rotated_agent).
Proof.
  refine (bearer_identifies_one_agent agent_state (state_of rotation_example) (bearer_hash 2) day 0 rotated_agent _ _ _ _).
  - exact rotation_run.
  - exact agent_state_distinct.
  - vm_compute. reflexivity.
  - vm_compute. reflexivity.
Defined.

Definition heartbeat_input : HeartbeatInput.t :=
  HeartbeatInput.make "1.0" "1.9" 2 1 example_print example_print true false "healthy" "" "boot" 7.
Definition heartbeat_example := Heartbeat "event" day day (example_bearer 1) heartbeat_input agent_state agent_state.
Lemma heartbeat_example_ok :
  Heartbeat "event" day day (example_bearer 1) heartbeat_input agent_state agent_state = Ok (state_of heartbeat_example, value_of Node.zero heartbeat_example).
Proof. vm_compute. reflexivity. Qed.

Lemma heartbeat_advances_once_witness :
  Heartbeat "event" (2 * day) (2 * day) (example_bearer 1) heartbeat_input agent_state (state_of heartbeat_example)
    ≠ Ok (agent_state, example_agent).
Proof.
  refine (proj2 (heartbeat_advances_once "event" day day (example_bearer 1) heartbeat_input agent_state agent_state
    (state_of heartbeat_example) (value_of Node.zero heartbeat_example) _ _) "event" (2 * day) (2 * day) agent_state (agent_state, example_agent)).
  - exact agent_state_distinct.
  - exact heartbeat_example_ok.
Defined.

Definition revocation_example :=
  revokeOrReplaceNode None (λ _, Err ErrInvalid) (Err ErrInvalid) "event-1" "event-2" "" day None "node-1" false 0 None agent_state.
Definition no_outcome : Node.t * option ReplacedNode.t * option RevokedNodeReceipt.t := (Node.zero, None, None).
Lemma revocation_example_ok :
  revokeOrReplaceNode None (λ _, Err ErrInvalid) (Err ErrInvalid) "event-1" "event-2" "" day None "node-1" false 0 None agent_state = Ok (state_of revocation_example, (fst (fst (value_of no_outcome revocation_example)), None, None)).
Proof. vm_compute. reflexivity. Qed.
Lemma revocation_cuts_off_witness : authenticates (bearer_hash 1) day (revoked_node day example_agent) = false.
Proof.
  refine (proj1 (revocation_cuts_off None (λ _, Err ErrInvalid) (Err ErrInvalid) "event-1" "event-2" "" day None "node-1" false 0 None
    agent_state (state_of revocation_example) (fst (fst (value_of no_outcome revocation_example))) None None _ _)
    (revoked_node day example_agent) (bearer_hash 1) day _ _).
  - discriminate.
  - exact revocation_example_ok.
  - apply (list_elem_of_lookup_2 _ 0%nat). vm_compute. reflexivity.
  - reflexivity.
Defined.

(** A pending node whose claim is about to commit. *)
Definition pending_agent : Node.t :=
  signing_node <| Node.NetworkID := Network.ID signing_network |> <| Node.Status := "pending" |> <| Node.CertificateGeneration := 0 |>.
Definition claimed_enrollment : EnrollmentToken.t :=
  EnrollmentToken.make "enrollment" (Node.ID pending_agent) (bearer_hash 3) 1 (30 * minute) None "claim" (Some 1)
    (request_hash "key" (bearer_hash 4)).
Definition enrolling_state : State.t :=
  State.zero <| State.Version := 13 |> <| State.Networks := [signing_network] |> <| State.Nodes := [pending_agent] |>
    <| State.Enrollments := [claimed_enrollment] |>.
Definition issued_example : Certificate.t := Certificate.make "certificate" example_print (90 * day) (60 * day).
Definition commit_example :=
  @enroll_commit toy_crypto "event" minute "claim" "key" (bearer_hash 4) "enrollment" (Node.ID pending_agent)
    (Network.ID signing_network) (fst (networkSigningAuthority signing_network)) issued_example enrolling_state.
Lemma commit_example_ok :
  @enroll_commit toy_crypto "event" minute "claim" "key" (bearer_hash 4) "enrollment" (Node.ID pending_agent)
    (Network.ID signing_network) (fst (networkSigningAuthority signing_network)) issued_example enrolling_state
  = Ok (state_of commit_example, value_of EnrollmentBundle.zero commit_example).
Proof. vm_compute. reflexivity. Qed.
Definition replay_example := @enroll_claim toy_crypto "other claim" (2 * minute) (example_bearer 3) "key" (bearer_hash 4) (state_of commit_example).
Lemma replay_example_ok :
  @enroll_claim toy_crypto "other claim" (2 * minute) (example_bearer 3) "key" (bearer_hash 4) (state_of commit_example)
  = Ok (state_of replay_example, value_of (EnrollReplay EnrollmentBundle.zero) replay_example).
Proof. vm_compute. reflexivity. Qed.
Lemma enrolling_state_distinct : NoDup (secrets enrolling_state).
Proof. apply (bool_decide_unpack _). vm_compute. exact I. Qed.

Lemma enrollment_bearer_used_once_witness : state_of replay_example = state_of commit_example.
Proof.
  refine (proj1 (enrollment_bearer_used_once toy_crypto "event" minute "claim" "key" (bearer_hash 4) "enrollment" (Node.ID pending_agent)
    (Network.ID signing_network) (fst (networkSigningAuthority signing_network)) issued_example enrolling_state
    (state_of commit_example) (value_of EnrollmentBundle.zero commit_example) 0 claimed_enrollment (example_bearer 3) "other claim"
    (2 * minute) "key" (bearer_hash 4) (state_of replay_example) (value_of (EnrollReplay EnrollmentBundle.zero) replay_example) _ _ _ _ _)).
  - exact enrolling_state_distinct.
  - vm_compute. reflexivity.
  - vm_compute. reflexivity.
  - exact commit_example_ok.
  - exact replay_example_ok.
Defined.
