(* ===== verification/Renewal.v ===== *)
(** * What a renewed certificate is for

    Renew signs between its two transactions: the certificate is for the routed
    subnets of the claim's snapshot, and the second transaction raises the
    certificate generation of whatever state it finds.  A transfer counts its
    target as certified when the generation has been raised once, and starting one
    neither looks at a renewal in flight nor clears it, as group changes
    (node_groups.go) and certificate rotations (certificate_rotation.go) do. *)

From Stdlib Require Import Ascii.
From S2P Require Import Prelude GoStd Sha256 GoTime IPv4 Model AuditLog Routes RouteState Reservations RoutePolicies Render RouteTransfer SignedConfig CARotation Credentials Enrollment Recovery AgentOps CredentialSafety.
Open Scope Z_scope.


Section renewal.
Context `{Crypto, Nebula}.

Definition renewed_here (state : State.t) (now : time) (authority nodeID : string) (issued : Certificate.t) (node : Node.t) : Node.t :=
  if Node.ID node == nodeID then renewed_node state now authority issued node else node.

Lemma renew_nodes_map state now claimID tokenHash nodeID authority issued nodes nodes' found :
  renew_nodes state now claimID tokenHash nodeID authority issued nodes = Ok (nodes', found) →
  nodes' = renewed_here state now authority nodeID issued <$> nodes ∧
  Forall (λ n, Node.ID n = nodeID → Node.RenewalClaimID n = claimID ∧
            Node.CertificateGeneration n < Node.CertificateGeneration (renewed_node state now authority issued n)) nodes ∧
  (∀ node, found = Some node → ∃ n, n ∈ nodes ∧ Node.ID n = nodeID ∧ node = renewed_node state now authority issued n).
Proof.
  revert nodes' found. induction nodes as [|n l IH]; intros nodes' found Hc; cbn [renew_nodes] in Hc; [by injection Hc as <- <-|].
  case_bool_decide as E; cbn [negb] in Hc; open_call Hc; injection Hc as <- <-; 
    match goal with E' : renew_nodes _ _ _ _ _ _ _ _ = Ok _ |- _ => apply IH in E' as (-> & Hall & Hf) end.
  - split_bools. split_and!.
    + rewrite fmap_cons. unfold renewed_here at 2. by rewrite bool_decide_eq_true_2.
    + constructor; [intros _; split; [done|lia]|done].
    + intros node [= <-]. destruct o as [m|]; simpl.
      * destruct (Hf m eq_refl) as (k & Hk & ? & ->). exists k. split_and!; [by right|done|done].
      * exists n. split_and!; [by left|done|done].
  - split_and!.
    + rewrite fmap_cons. unfold renewed_here at 2. by rewrite bool_decide_eq_false_2.
    + constructor; [done|done].
    + intros node Hn. destruct (Hf node Hn) as (k & Hk & ? & ->). exists k. split_and!; [by right|done|done].
Qed.

Lemma renew_commit_call eventID now claimID tokenHash claimed authority certificate fingerprint expiresAt state state' bundle :
  renew_commit eventID now claimID tokenHash claimed authority (certificate, fingerprint, expiresAt) state = Ok (state', bundle) →
  RenewalBundle.Certificate bundle = certificate ∧
  ∃ network renewAfter, findNetwork state (Node.NetworkID claimed) = Some network ∧
    fst (networkSigningAuthority network) = authority ∧
    let renew := renewed_node state now authority (Certificate.make certificate fingerprint expiresAt renewAfter) in
    State.Nodes state' = (λ n, if Node.ID n == Node.ID claimed then renew n else n) <$> State.Nodes state ∧
    Forall (λ n, Node.ID n = Node.ID claimed → Node.RenewalClaimID n = claimID ∧
              Node.CertificateGeneration n < Node.CertificateGeneration (renew n)) (State.Nodes state).
Proof.
  unfold renew_commit. cbv zeta. intros Hc. apply bind_Ok in Hc as (network & Hn%of_option_Ok & Hc).
  apply guard_iff in Hc as [Ha Hc]. split_bools. apply bind_Ok in Hc as (renewAfter & _ & Hc).
  apply bind_Ok in Hc as ([nodes found] & Hr & Hc). apply bind_Ok in Hc as (node & Hf%of_option_Ok & Hc).
  apply bind_Ok in Hc as (signed & _ & Hc). injection Hc as <- <-.
  apply renew_nodes_map in Hr as (-> & Hall & Hin). destruct (Hin node Hf) as (n & _ & _ & ->).
  split; [done|]. exists network, renewAfter. by split_and!.
Qed.

Lemma sign_certificate_call network node subnets publicKey certificate fingerprint expiresAt :
  sign_certificate network node subnets publicKey = Ok (certificate, fingerprint, expiresAt) →
  ∃ caKey bits, Open (snd (networkSigningAuthority network)) = Ok caKey ∧
    SignPublicKey (fst (networkSigningAuthority network)) (string_of caKey) publicKey (Node.Name node)
      (Node.IP node +:+ "/" +:+ bits) (join "," (Node.Groups node)) (join "," subnets) (certificate_ttl network)
    = Ok (certificate, fingerprint, expiresAt).
Proof.
  unfold sign_certificate. destruct (networkSigningAuthority network) as [authority key]. intros Hc.
  apply bind_Ok in Hc as (caKey & Hk & Hc). apply bind_Ok in Hc as (bits & _ & Hc).
  apply bind_Ok in Hc as ([[c f] x] & Hs & Hc). apply guard_iff in Hc as [_ Hc]. injection Hc as <- <- <-. eauto.
Qed.

Lemma renew_claim_replay claimID claimedAt tokenHash publicKey state state' bundle :
  renew_claim claimID claimedAt tokenHash publicKey state = Ok (state', RenewReplay bundle) → state' = state.
Proof.
  unfold renew_claim. intros Hc. apply bind_Ok in Hc as ([i node] & _ & Hc). apply guard_iff in Hc as [_ Hc].
  apply bind_Ok in Hc as (network & _ & Hc). destruct (_ && _) in Hc; open_call Hc; by injection Hc.
Qed.

(** The certificate was signed, with the authority that still signs at the commit,
    for the identity and the routed subnets the network wanted at the claim, and
    went to the claimed node alone, one generation later. *)
Definition certified_as_claimed (claimedAt now : time) (tokenHash : string) (others : State.t → State.t)
    (state state' : State.t) (bundle : RenewalBundle.t) : Prop :=
  ∃ claimID key claimed network claimedState caKey bits fingerprint expiresAt,
    renew_claim claimID claimedAt tokenHash key state = Ok (claimedState, RenewClaimed claimed network) ∧
    SignPublicKey (fst (networkSigningAuthority network)) (string_of caKey) key (Node.Name claimed)
      (Node.IP claimed +:+ "/" +:+ bits) (join "," (Node.Groups claimed))
      (join "," (elems (certificateRoutedSubnets network claimed))) (certificate_ttl network)
      = Ok (RenewalBundle.Certificate bundle, fingerprint, expiresAt) ∧
    now < expiresAt ∧
    (∃ latest, findNetwork (others claimedState) (Node.NetworkID claimed) = Some latest ∧
       fst (networkSigningAuthority latest) = fst (networkSigningAuthority network)) ∧
    ∀ i, match State.Nodes (others claimedState) !! i, State.Nodes state' !! i with
         | Some before, Some after =>
             if decide (Node.ID before = Node.ID claimed) then
               Node.RenewalClaimID before = claimID ∧ Node.Certificate after = RenewalBundle.Certificate bundle ∧
               Node.CertificateFingerprint after = fingerprint ∧
               Node.CertificateGeneration after = wrap64 (Node.CertificateGeneration before + 1) ∧
               Node.CertificateGeneration before < Node.CertificateGeneration after
             else after = before
         | None, None => True
         | _, _ => False
         end.

End renewal.

(** An issuer whose certificates spell out the subnets they are for, and a codec
    that accepts one key. *)
Definition race_key : string := string_of (replicate 50 65) +:+ String "010"%char "".
Definition spelling_issuer : Nebula := {|
  UnmarshalPublicKeyFromPEM s := if s == race_key then Some ([1], "", 0) else None;
  MarshalPublicKeyToPEM _ _ := race_key;
  SignPublicKey _ _ _ _ _ _ subnets _ := Ok ("subnets=" +:+ subnets, ConfigDigest subnets, 400 * day) |}.

Definition race_network : Network.t :=
  signing_network <| Network.ID := "network-0000-0000" |> <| Network.CIDR := "10.42.0.0/24" |> <| Network.ConfigRevision := 3 |>
    <| Network.CertificateTTL := 24 |> <| Network.EncryptedCAKey := b64_encode (replicate 44 7) |>.
Definition race_node (id : string) (subnets : slice string) : Node.t :=
  example_agent <| Node.ID := id_of id |> <| Node.NetworkID := "network-0000-0000" |> <| Node.RoutedSubnets := subnets |>.
Definition race_target : Node.t :=
  race_node "b" None <| Node.CertificateExpiresAt := Some (4 * day) |> <| Node.CertificateRenewAfter := Some (2 * day) |>
    <| Node.PublicKeyHash := HashToken race_key |>.
