(* ===== verification/ReceiptSafety.v ===== *)
(** * Repeated requests

    A revocation, a certificate rotation or a group change that has committed is
    answered with the receipt of that commit whenever it is asked for again: the
    log's receipt is the one returned, and asking again changes nothing. *)
From S2P Require Import Prelude GoStd Sha256 GoTime IPv4 NetIP Model AuditLog Receipts Routes RouteState Reservations.
From S2P Require Import Firewall RoutePolicies NetworkSettings Render Credentials Nodes CARotation FirewallRollout SignedConfig Enrollment RouteTransfer.
From S2P Require Import AgentOps Revocation CertificateReplacement CredentialSafety Renewal.
Open Scope Z_scope.

(** The log has the receipt of a request: every reading of the event gives it. *)
Definition records `{ReceiptLog R} (state : State.t) (id : string) (receipt : R) (revision : Z) : Prop :=
  ∃ event, event ∈ State.Audit state ∧ AuditEvent.Action event = receipt_action ∧ AuditEvent.ResourceID event = id ∧
    ∀ r rev, parse_receipt event = Ok (r, rev) → r = receipt ∧ rev = revision.

Lemma records_grows `{ReceiptLog R} state later id (receipt : R) revision :
  records state id receipt revision → State.Audit state ⊆ State.Audit later → records later id receipt revision.
Proof. intros (event & Hin & H1) Hs. exists event. split; [by apply Hs|done]. Qed.

Lemma recorded_replay `{ReceiptLog R, !ReceiptLaws R} state id (receipt : R) revision :
  records state id receipt revision → validate_receipts (R := R) state = Ok tt →
  ∃ event, AuditEvent.ResourceID event = id ∧
    ∀ agrees, find_receipt (receipt_request receipt) agrees state
              = if agrees event receipt revision then Ok (Some receipt) else Err ErrConflict.
Proof.
  intros (event & Hin & Ha & Hid & Hp) Hv. destruct (recorded_receipt_found _ _ Hv Hin Ha) as (r & rev & Hr & Hf).
  destruct (Hp _ _ Hr) as [-> ->]. eauto.
Qed.

Lemma found_records `{ReceiptLog R} requestID agrees state (receipt : R) :
  find_receipt requestID agrees state = Ok (Some receipt) →
  ∃ event revision, agrees event receipt revision = true ∧ records state (AuditEvent.ResourceID event) receipt revision.
Proof.
  unfold find_receipt. destruct (list_find _ _) as [[i event]|] eqn:El; [|done].
  destruct (parse_receipt event) as [[r rev]|] eqn:Hp; [|done]. intros Hc. apply guard_iff in Hc as [Hg Hc]. injection Hc as ->.
  apply list_find_Some in El as (Hi & [Ha _] & _). exists event, rev. split; [by split_bools|].
  exists event. split_and!; [by eapply list_elem_of_lookup_2|done|done|]. intros r' rev' Hp'. rewrite Hp in Hp'. by injection Hp' as <- <-.
Qed.

Lemma found_request `{ReceiptLog R, !ReceiptLaws R} requestID agrees state (receipt : R) :
  find_receipt requestID agrees state = Ok (Some receipt) → receipt_request receipt = requestID.
Proof.
  unfold find_receipt. destruct (list_find _ _) as [[i event]|] eqn:El; [|done].
  destruct (parse_receipt event) as [[r rev]|] eqn:Hp; [|done]. intros Hc. apply guard_iff in Hc as [_ Hc]. injection Hc as ->.
  apply list_find_Some in El as (_ & [_ Hr] & _). apply parsed_request in Hp. congruence.
Qed.

(** ** The three logs *)
Ltac parsed_fields H := unfold parse_receipt in H; simpl in H; open_call H; injection H as <- <-; simpl;
  repeat match goal with Hd : of_option _ _ = Ok _ |- _ => apply of_option_Ok in Hd end; done.
#[global] Instance revocation_laws : ReceiptLaws RevokedNodeReceipt.t.
Proof. constructor. intros event receipt revision Hp. unfold parse_receipt in Hp; simpl in Hp. unfold parseNodeRevocationEvent in Hp. parsed_fields Hp. Qed.
#[global] Instance rotation_laws : ReceiptLaws RotatedNodeCertificate.t.
Proof. constructor. intros event receipt revision Hp. unfold parse_receipt in Hp; simpl in Hp. unfold parseNodeCertificateRotationEvent in Hp. parsed_fields Hp. Qed.
#[global] Instance groups_laws : ReceiptLaws UpdatedNodeGroups.t.
Proof. constructor. intros event receipt revision Hp. unfold parse_receipt in Hp; simpl in Hp. unfold parseNodeGroupsEvent in Hp. parsed_fields Hp. Qed.

(** ** What the events say *)
Lemma time_detail_read t u : valid_time t → auditRFC3339Time (Some (DString (RFC3339Nano t))) = Some u → u = t.
Proof. intros Ht. unfold auditRFC3339Time. rewrite ParseRFC3339Nano_format by done. simpl. case_match; naive_solver. Qed.
Lemma integer_detail_read z w : auditNonNegativeInteger (Some (DInt z)) = Some w → w = z.
Proof. unfold auditNonNegativeInteger. case_match; naive_solver. Qed.
Lemma groups_detail_read groups gs : parseAuditGroups (Some (groupsAuditArray groups)) = Some gs → gs = groups.
Proof.
  unfold parseAuditGroups, groupsAuditArray. assert (mapM (λ item, audit_string (Some item)) (DString <$> groups) = Some groups) as ->.
  { induction groups as [|g l IH]; [done|]. rewrite fmap_cons. apply mapM_Some. constructor; [done|]. by apply mapM_Some. }
  simpl. case_match; naive_solver.
Qed.

(** The fields an event was made with are the only ones it can be read as. *)
Ltac fields_read :=
  repeat match goal with
  | Hd : _ (detail_of _ _) = Some ?x |- _ =>
      cbv -[RFC3339Nano auditRFC3339Time auditNonNegativeInteger parseAuditGroups groupsAuditArray] in Hd
  end;
  repeat match goal with
  | Hd : auditNonNegativeInteger (Some (DInt _)) = Some _ |- _ => apply integer_detail_read in Hd; subst
  | Hd : auditRFC3339Time (Some (DString (RFC3339Nano _))) = Some _, Hv : valid_time _ |- _ => apply (time_detail_read _ _ Hv) in Hd; subst
  | Hd : parseAuditGroups (Some (groupsAuditArray _)) = Some _ |- _ => apply groups_detail_read in Hd; subst
  | Hd : Some _ = Some _ |- _ => injection Hd as Hd; subst
  end.

Lemma revocation_event_records eventID now nodeID receipt revision actor event state :
  newOptionalAttributedAudit eventID now nodeRevocationCommittedAuditAction "node" nodeID
    (nodeRevocationAuditDetails receipt revision) actor = Ok event →
  RevokedNodeReceipt.NodeID receipt = nodeID → RevokedNodeReceipt.RevokedAt receipt = now →
  records (append_audit state event) nodeID receipt revision.
Proof.
  intros He Hid Hat. pose proof (audit_metadata _ _ _ _ _ _ _ _ He) as (Ha & Hr & Hri & Htime & _).
  exists event. split_and!; [apply elem_of_app; right; by apply list_elem_of_singleton|done|done|].
  intros r rev Hp. unfold parse_receipt in Hp. simpl in Hp. unfold parseNodeRevocationEvent in Hp. open_call Hp.
  injection Hp as <- <-. split_bools. read_details He. destruct receipt. simpl in *. subst.
  fields_read. split; [f_equal; lia|done].
Qed.

Lemma rotation_event_records eventID at_ nodeID receipt revision actor event state :
  newOptionalAttributedAudit eventID at_ nodeCertificateRotatedAuditAction "node" nodeID
    (certificateRotationAuditDetails receipt revision) actor = Ok event →
  RotatedNodeCertificate.NodeID receipt = nodeID →
  valid_time (RotatedNodeCertificate.RotatedAt receipt) → valid_time (RotatedNodeCertificate.PreviousCertificateExpiresAt receipt) →
  valid_time (RotatedNodeCertificate.CertificateExpiresAt receipt) → valid_time (RotatedNodeCertificate.CertificateRenewAfter receipt) →
  records (append_audit state event) nodeID receipt revision.
Proof.
  intros He Hid H1 H2 H3 H4. pose proof (audit_metadata _ _ _ _ _ _ _ _ He) as (Ha & Hr & Hri & Htime & _).
  exists event. split_and!; [apply elem_of_app; right; by apply list_elem_of_singleton|done|done|].
  intros r rev Hp. unfold parse_receipt in Hp. simpl in Hp. unfold parseNodeCertificateRotationEvent in Hp. open_call Hp.
  injection Hp as <- <-. read_details He. destruct receipt. simpl in *. subst. fields_read. done.
Qed.

Lemma groups_event_records eventID at_ nodeID receipt revision actor event state :
  newOptionalAttributedAudit eventID at_ nodeGroupsUpdatedAuditAction "node" nodeID
    (nodeGroupsAuditDetails receipt revision) actor = Ok event →
  UpdatedNodeGroups.NodeID receipt = nodeID →
  valid_time (UpdatedNodeGroups.UpdatedAt receipt) → valid_time (UpdatedNodeGroups.PreviousCertificateExpiresAt receipt) →
  valid_time (UpdatedNodeGroups.CertificateExpiresAt receipt) → valid_time (UpdatedNodeGroups.CertificateRenewAfter receipt) →
  records (append_audit state event) nodeID receipt revision.
Proof.
  intros He Hid H1 H2 H3 H4. pose proof (audit_metadata _ _ _ _ _ _ _ _ He) as (Ha & Hr & Hri & Htime & _).
  exists event. split_and!; [apply elem_of_app; right; by apply list_elem_of_singleton|done|done|].
  intros r rev Hp. unfold parse_receipt in Hp. simpl in Hp. unfold parseNodeGroupsEvent in Hp. open_call Hp.
  injection Hp as <- <-. read_details He. destruct receipt. simpl in *. subst. fields_read. done.
Qed.

(** ** Revocations *)
Lemma revoked_identity rolloutEventID now actor nodeID receipted state state' node noted counts revision source :
  revoke_in_state rolloutEventID now actor nodeID receipted state = Ok (state', node, noted, counts, revision) →
  NoDup (Node.ID <$> State.Nodes state) → findNode state nodeID = Some source →
  Node.ID node = nodeID ∧ Node.Name node = Node.Name source.
Proof.
  intros (Hlast & _)%revoke_in_state_call Hnd Hs. apply last_Some in Hlast as [l Hl].
  assert (node ∈ filter (λ n, Node.ID n = nodeID) (cut_off nodeID now <$> State.Nodes state)) as Hin
    by (rewrite Hl; apply elem_of_app; right; by apply list_elem_of_singleton).
  apply list_elem_of_filter in Hin as [Hid Hin]. split; [done|]. apply list_elem_of_fmap in Hin as (m & -> & Hm).
  assert (Node.ID m = nodeID) as Hmid by (unfold cut_off in Hid; by case_match).
  rewrite <- Hmid, (findNode_unique _ _ Hnd Hm) in Hs. injection Hs as <-. unfold cut_off. by case_match.
Qed.

(** A revocation with a receipt leaves it in the log. *)
Lemma revocation_records rolloutEventID eventID now actor nodeID input state state' receipt :
  NoDup (Node.ID <$> State.Nodes state) →
  revokeNodeWithReceipt rolloutEventID eventID now actor nodeID input state = Ok (state', receipt) →
  RevokedNodeReceipt.RequestID receipt = RevokeNodeInput.RequestID input ∧
  RevokedNodeReceipt.Name receipt = RevokeNodeInput.ConfirmationName input ∧
  records state' (TrimSpace nodeID) receipt (RevokeNodeInput.ExpectedConfigRevision input).
Proof.
  intros Hnd. unfold revokeNodeWithReceipt. cbv zeta. set (id := TrimSpace nodeID). intros Hc.
  apply guard_iff in Hc as [_ Hc]. apply bind_Ok in Hc as ([s [[n replacement] receipt']] & Hc & Hr).
  apply bind_Ok in Hr as (r & Hr%of_option_Ok & E). injection E as <- <-. subst receipt'.
  destruct (findNodeRevocationReplay state id input) as [[r'|]|] eqn:Hf.
  - unfold revokeOrReplaceNode in Hc. apply bind_Ok in Hc as (source & _ & Hc). apply guard_iff in Hc as [_ Hc].
    apply bind_Ok in Hc as (replayed & Hq & Hc). unfold revocation_request in Hq. rewrite Hf in Hq. simpl in Hq. injection Hq as <-.
    injection Hc as <- _ _ ->. pose proof (found_request _ _ _ _ Hf) as Hreq.
    apply found_records in Hf as (event & revision & Ha & Hrec). simpl in Ha. split_bools. split_and!; [done|done|].
    replace (RevokeNodeInput.ExpectedConfigRevision input) with revision by lia. congruence.
  - assert (∃ source, findNode state id = Some source ∧ Node.Name source = RevokeNodeInput.ConfirmationName input) as (source & Hs & Hn).
    { unfold revokeOrReplaceNode in Hc. apply bind_Ok in Hc as (source & Hs%of_option_Ok & Hc). apply guard_iff in Hc as [_ Hc].
      apply bind_Ok in Hc as (replayed & Hq & _). unfold revocation_request in Hq. rewrite Hf in Hq. simpl in Hq.
      apply guard_iff in Hq as [_ Hq]. apply guard_iff in Hq as [Hn _]. split_bools. eauto. }
    apply revoke_call in Hc as (s' & noted & counts & revision & event & Hr & Hrec & Hev & [[_ ->]|(x & ? & _)]).
    + simpl in Hrec. injection Hrec as ->. destruct (revoked_identity _ _ _ _ _ _ _ _ _ _ _ _ Hr Hnd Hs) as [Hid Hname].
      destruct counts as [[? ?] ?]. split_and!; [done|by simpl; rewrite Hname|].
      by eapply revocation_event_records; [apply (Hev input)| |].
    + done.
    + by intros i [= <-].
  - unfold revokeOrReplaceNode in Hc. apply bind_Ok in Hc as (source & _ & Hc). apply guard_iff in Hc as [_ Hc].
    apply bind_Ok in Hc as (replayed & Hq & _). unfold revocation_request in Hq. by rewrite Hf in Hq.
Qed.

(** In every later state whose log is valid, the same revocation request returns
    the receipt of the revocation and changes nothing, whoever repeats it and
    whenever, as long as the node is still known and takes part in no route
    transition. *)
Theorem revocation_is_replayed rolloutEventID eventID now actor nodeID input state state' receipt later source
    rolloutEventID' eventID' now' actor' :
  NoDup (Node.ID <$> State.Nodes state) →
  revokeNodeWithReceipt rolloutEventID eventID now actor nodeID input state = Ok (state', receipt) →
  State.Audit state' ⊆ State.Audit later → validateNodeRevocationAudits later = Ok tt →
  findNode later (TrimSpace nodeID) = Some source → in_route_transition later source (TrimSpace nodeID) = false →
  revokeNodeWithReceipt rolloutEventID' eventID' now' actor' nodeID input later = Ok (later, receipt).
Proof.
  intros Hnd Hc Hgrow Hv Hs Ht. destruct (revocation_records _ _ _ _ _ _ _ _ _ Hnd Hc) as (Hreq & Hname & Hrec).
  destruct (recorded_replay _ _ _ _ (records_grows _ _ _ _ _ Hrec Hgrow) Hv) as (event & Hid & Hf).
  unfold revokeNodeWithReceipt in *. cbv zeta in *. apply guard_iff in Hc as [-> _].
  assert (findNodeRevocationReplay later (TrimSpace nodeID) input = Ok (Some receipt)) as Hr.
  { unfold findNodeRevocationReplay. rewrite <- Hreq. etrans; [apply Hf|]. cbv beta.
    rewrite (bool_decide_eq_true_2 _ Hid), (bool_decide_eq_true_2 _ Hname), Z.eqb_refl. done. }
  unfold revokeOrReplaceNode, revocation_request. rewrite Hs, Hr. simpl. by rewrite Ht.
Qed.

(** ** Rotations and group changes *)
Section replacement.
Context `{Crypto, Nebula, NebulaCertificate}.

Lemma replacement_target_node state nodeID name expected snapshotNode snapshotNetwork changed i node k network nextRevision :
  replacement_target state nodeID name expected snapshotNode snapshotNetwork changed = Ok (i, node, k, network, nextRevision) →
  node_at state nodeID = Some (i, node) ∧ network_at state (Node.NetworkID node) = Some (k, network) ∧ Node.ID node = nodeID ∧
  Node.Name node = name ∧ active_enrolled node = true ∧ changed node = false ∧ same_certificate node snapshotNode = true.
Proof.
  unfold replacement_target. intros Hc. apply bind_Ok in Hc as ([i' n] & Hi%of_option_Ok & Hc). apply guard_iff in Hc as [Hg Hc].
  apply bind_Ok in Hc as ([k' w] & Hk%of_option_Ok & Hc). apply guard_iff in Hc as [_ Hc]. apply guard_iff in Hc as [Hs Hc].
  apply guard_iff in Hc as [_ Hc]. apply bind_Ok in Hc as (rev & _ & Hc). injection Hc as <- <- <- <- <-. split_bools.
  destruct (node_at_Some _ _ _ _ Hi) as [_ Hid]. done.
Qed.

Lemma rotate_commit_records eventID operationAt actor nodeID input snapshotNode snapshotNetwork issued state state' receipt :
  rotate_commit eventID operationAt actor nodeID input snapshotNode snapshotNetwork issued state = Ok (state', receipt) →
  valid_time (RotatedNodeCertificate.RotatedAt receipt) → valid_time (RotatedNodeCertificate.PreviousCertificateExpiresAt receipt) →
  valid_time (RotatedNodeCertificate.CertificateExpiresAt receipt) → valid_time (RotatedNodeCertificate.CertificateRenewAfter receipt) →
  RotatedNodeCertificate.RequestID receipt = RotateNodeCertificateInput.RequestID input ∧
  RotatedNodeCertificate.Name receipt = RotateNodeCertificateInput.ConfirmationName input ∧
  records state' nodeID receipt (RotateNodeCertificateInput.ExpectedConfigRevision input).
Proof.
  unfold rotate_commit. cbv zeta. intros Hc. apply bind_Ok in Hc as ([r|] & Hf & Hc).
  - injection Hc as <- <-. intros _ _ _ _. pose proof (found_request _ _ _ _ Hf) as Hreq.
    apply found_records in Hf as (event & revision & Ha & Hrec). simpl in Ha. split_bools. split_and!; [done|done|].
    replace (RotateNodeCertificateInput.ExpectedConfigRevision input) with revision by lia. congruence.
  - apply bind_Ok in Hc as ([[[[i node] k] network] nextRevision] & Ht & Hc).
    apply replacement_target_node in Ht as (_ & _ & Hid & Hname & _). destruct (replace_certificate _ _ _ _ _ _ _ _ _ _ _) as [s invalidated].
    apply bind_Ok in Hc as (previous & _ & Hc). apply bind_Ok in Hc as (event & He & Hc). injection Hc as <- <-.
    intros. split_and!; [done|done|]. rewrite <- Hid. by eapply rotation_event_records.
Qed.

(** C30: once a rotation has returned its receipt, every later request with its
    identifier and content is answered with that receipt: no other certificate is
    issued, whatever the issuer would answer, and the state stays as it is. *)
Theorem certificate_rotation_is_replayed issue cancelled eventID operationAt actor nodeID input read state state' receipt later
    issue' cancelled' eventID' operationAt' actor' current :
  rotateNodeCertificate issue cancelled eventID operationAt actor nodeID input read state = Ok (state', receipt) →
  State.Audit read ⊆ State.Audit state →
  valid_time (RotatedNodeCertificate.RotatedAt receipt) → valid_time (RotatedNodeCertificate.PreviousCertificateExpiresAt receipt) →
  valid_time (RotatedNodeCertificate.CertificateExpiresAt receipt) → valid_time (RotatedNodeCertificate.CertificateRenewAfter receipt) →
  State.Audit state' ⊆ State.Audit later → validateNodeCertificateRotationAudits later = Ok tt → IsZero operationAt' = false →
  rotateNodeCertificate issue' cancelled' eventID' operationAt' actor' nodeID input later current = Ok (current, receipt).
Proof.
  intros Hc Hread T1 T2 T3 T4 Hgrow Hv Hz. unfold rotateNodeCertificate in Hc. cbv zeta in Hc.
  apply guard_iff in Hc as [Hg Hc]. apply guard_iff in Hc as [_ Hc]. apply bind_Ok in Hc as (replayed & Hf & Hc).
  assert (RotatedNodeCertificate.RequestID receipt = RotateNodeCertificateInput.RequestID input ∧
    RotatedNodeCertificate.Name receipt = RotateNodeCertificateInput.ConfirmationName input ∧
    records state' (TrimSpace nodeID) receipt (RotateNodeCertificateInput.ExpectedConfigRevision input)) as (Hreq & Hname & Hrec).
  { destruct replayed as [r|].
    - injection Hc as <- <-. pose proof (found_request _ _ _ _ Hf) as Hreq.
      apply found_records in Hf as (event & revision & Ha & Hrec). simpl in Ha. split_bools. split_and!; [done|done|].
      replace (RotateNodeCertificateInput.ExpectedConfigRevision input) with revision by lia.
      apply (records_grows read); [congruence|done].
    - apply bind_Ok in Hc as ([snapshotNode snapshotNetwork] & _ & Hc). apply bind_Ok in Hc as (issued & _ & Hc).
      by eapply rotate_commit_records. }
  destruct (recorded_replay _ _ _ _ (records_grows _ _ _ _ _ Hrec Hgrow) Hv) as (event & Hid & Hr).
  unfold rotateNodeCertificate. cbv zeta. rewrite Hg, Hz.
  assert (findCertificateRotationReplay later (TrimSpace nodeID) input = Ok (Some receipt)) as ->; [|done].
  unfold findCertificateRotationReplay. rewrite <- Hreq. etrans; [apply Hr|]. cbv beta.
  by rewrite (bool_decide_eq_true_2 _ Hid), (bool_decide_eq_true_2 _ Hname), Z.eqb_refl.
Qed.

(** ** What a replacement supersedes *)
Lemma appendRevocation_nodes state nodeID fingerprint reason at_ expiresAt :
  State.Nodes (appendRevocation state nodeID fingerprint reason at_ expiresAt) = State.Nodes state.
Proof. by destruct (appendRevocation_same state nodeID fingerprint reason at_ expiresAt) as [r ->]. Qed.

(** The claim of a renewal in flight is gone, so it cannot commit. *)
Lemma unclaimed_renewal_refused eventID now claimID tokenHash claimed authority issued state node i :
  State.Nodes state !! i = Some node → Node.ID node = Node.ID claimed → Node.RenewalClaimID node ≠ claimID →
  ∀ out, renew_commit eventID now claimID tokenHash claimed authority issued state ≠ Ok out.
Proof.
  intros Hi Hid Hne [state' bundle] Hc. destruct issued as [[certificate fingerprint] expiresAt].
  apply renew_commit_call in Hc as (_ & latest & renewAfter & _ & _ & _ & Hall). rewrite Forall_lookup in Hall.
  by destruct (Hall i node Hi Hid).
Qed.

Lemma replace_certificate_call operationAt reason groups authority issued i node k network nextRevision state state' invalidated :
  replace_certificate operationAt reason groups authority issued i node k network nextRevision state = (state', invalidated) →
  State.Nodes state' = <[i := replaced_node state operationAt authority groups issued node]> (State.Nodes state) ∧
  blocklisted state' (Node.CertificateFingerprint node).
Proof.
  unfold replace_certificate. cbv zeta. intros [= <- _]. split; [by simpl; rewrite appendRevocation_nodes|].
  intros Hne. set (s := state <| State.AgentRecoveries := filter (λ r, AgentRecoveryToken.NodeID r ≠ Node.ID node) (State.AgentRecoveries state) |>).
  exact (appendRevocation_blocks s (Node.ID node) _ reason operationAt (Node.CertificateExpiresAt node) Hne).
Qed.

Lemma replacement_certificate_distinct issue cancelled operationAt network desired issued :
  replacement_certificate issue cancelled operationAt network desired = Ok issued →
  Certificate.Fingerprint issued ≠ Node.CertificateFingerprint desired.
Proof.
  unfold replacement_certificate. destruct (networkSigningAuthority network) as [authority key]. intros Hc.
  apply bind_Ok in Hc as (publicKey & _ & Hc). apply bind_Ok in Hc as (caKey & _ & Hc).
  apply bind_Ok in Hc as ([[c f] e] & Hs & Hc). apply guard_iff in Hc as [_ Hc]. apply bind_Ok in Hc as (r & _ & Hc). injection Hc as <-.
  simpl. unfold signDistinctNodeCertificate in Hs. apply bind_Ok in Hs as ([[c0 f0] e0] & _ & Hs).
  case_bool_decide as E; simpl in Hs; [|by injection Hs as <- <- <-]. destruct cancelled; [done|].
  apply bind_Ok in Hs as ([[c1 f1] e1] & _ & Hs). apply guard_iff in Hs as [Hd Hs]. split_bools. by injection Hs as <- <- <-.
Qed.

Lemma replacement_source_unchanged state nodeID name expected unchanged operationAt node network :
  replacement_source state nodeID name expected unchanged operationAt = Ok (node, network) → unchanged node = false.
Proof.
  unfold replacement_source. intros Hc. apply bind_Ok in Hc as (n & _ & Hc). apply guard_iff in Hc as [_ Hc].
  apply guard_iff in Hc as [_ Hc]. apply guard_iff in Hc as [Hu Hc]. open_call Hc. by injection Hc as <- <-.
Qed.

(** A group change that issues a certificate gives the node the groups asked for
    and a certificate of the next generation, blocklists the one it replaces, which
    is another, and ends any renewal in flight. *)
Theorem group_change_supersedes issue cancelled eventID operationAt actor nodeID input read state state' receipt :
  updateNodeGroups issue cancelled eventID operationAt actor nodeID input read state = Ok (state', receipt) →
  (∀ groups, findNodeGroupsReplay read (TrimSpace nodeID) input groups = Ok None) →
  (∀ groups, findNodeGroupsReplay state (TrimSpace nodeID) input groups = Ok None) →
  ∃ old new, findNode state (TrimSpace nodeID) = Some old ∧ findNode state' (TrimSpace nodeID) = Some new ∧
    canonicalNodeMembershipGroups (UpdateNodeGroupsInput.Groups input) = Ok (Node.Groups new) ∧ Node.Groups new ≠ Node.Groups old ∧
    blocklisted state' (Node.CertificateFingerprint old) ∧ Node.CertificateFingerprint new ≠ Node.CertificateFingerprint old ∧
    Node.CertificateGeneration new = wrap64 (Node.CertificateGeneration old + 1) ∧
    ∀ eventID now claimID tokenHash claimed authority issued out, claimID ≠ "" → Node.ID claimed = TrimSpace nodeID →
      renew_commit eventID now claimID tokenHash claimed authority issued state' ≠ Ok out.
Proof.
  unfold updateNodeGroups. cbv zeta. set (id := TrimSpace nodeID). intros Hc Hread Hstate.
  apply bind_Ok in Hc as (groups & Hg & Hc). apply guard_iff in Hc as [_ Hc]. apply guard_iff in Hc as [_ Hc].
  rewrite Hread in Hc. simpl in Hc. apply bind_Ok in Hc as ([snapshotNode snapshotNetwork] & Hs & Hc).
  apply bind_Ok in Hc as (issued & Hi & Hc). unfold groups_commit in Hc. rewrite Hstate in Hc. cbn [mbind result_bind] in Hc. cbv zeta in Hc.
  apply bind_Ok in Hc as ([[[[i node] k] network] nextRevision] & Ht & Hc).
  apply replacement_target_node in Ht as (Hn & Hk & Hid & _ & _ & Hch & Hsame).
  destruct (replace_certificate _ _ _ _ _ _ _ _ _ _ _) as [s invalidated] eqn:Hr.
  apply replace_certificate_call in Hr as (Hnodes & Hblock).
  apply bind_Ok in Hc as (previous & _ & Hc). apply bind_Ok in Hc as (event & _ & Hc). injection Hc as <- _.
  apply replacement_certificate_distinct in Hi. simpl in Hi. apply replacement_source_unchanged in Hs.
  assert (Node.CertificateFingerprint node = Node.CertificateFingerprint snapshotNode) as Hfp by (unfold same_certificate in Hsame; by split_bools).
  split_bools. set (new := replaced_node _ _ _ _ _ _) in *.
  exists node, new. split_and!; [by eapply node_at_find| |done|by unfold new; simpl; congruence|done|by unfold new; simpl; congruence|done|].
  - pose proof (node_at_put _ _ _ _ new Hn eq_refl) as Hput. unfold findNode, node_at in *. simpl in *. rewrite Hnodes. by rewrite Hput.
  - intros eventID' now' claimID tokenHash claimed authority issued' out Hne Hcid.
    eapply (unclaimed_renewal_refused _ _ _ _ _ _ _ _ new i); [|simpl; congruence|done].
    simpl. rewrite Hnodes. apply list_lookup_insert_eq. apply node_at_Some in Hn as [Hn _]. by eapply lookup_lt_Some.
Qed.
End replacement.

(** ** Examples *)
Definition receipt_time : time := 63900000000 * second.
Definition revoke_input : RevokeNodeInput.t := RevokeNodeInput.make 3 "gateway" "request-0000-0001".
Definition receipted := revokeNodeWithReceipt "event-1" "event-2" receipt_time None "node-1" revoke_input agent_state.
Definition no_receipt : RevokedNodeReceipt.t := RevokedNodeReceipt.make "" "" "" "" "" "" 0 false 0 0 0 false false false false 0 0.

#[local] Instance replacement_codec : NebulaCertificate := {| certificate_public_key c := Some (c, "") |}.
Definition replaced_agent : Node.t :=
  race_target <| Node.Certificate := race_key |> <| Node.CertificateExpiresAt := Some (receipt_time + 4 * day) |>
    <| Node.CertificateRenewAfter := Some (receipt_time + 3 * day) |> <| Node.Groups := ["all"] |>.
Definition replacement_state : State.t :=
  State.zero <| State.Version := ControlStateVersionFirewallScopes |> <| State.Networks := [race_network] |> <| State.Nodes := [replaced_agent] |>.
Definition replacement_issue (n : nat) (_ _ _ _ _ groups _ : string) (_ : duration) : result (string * string * time) :=
  Ok ("certificate " +:+ groups, ConfigDigest groups, receipt_time + 30 * day).
Definition rotation_input : RotateNodeCertificateInput.t := RotateNodeCertificateInput.make 3 "gateway" "request-0000-0002".
Definition rotated := @rotateNodeCertificate toy_crypto spelling_issuer replacement_codec replacement_issue None "event-3" receipt_time None
  (id_of "b") rotation_input replacement_state replacement_state.
Definition groups_input : UpdateNodeGroupsInput.t := UpdateNodeGroupsInput.make 3 "gateway" "request-0000-0003" ["ops"].
Definition regrouped := @updateNodeGroups toy_crypto spelling_issuer replacement_codec replacement_issue None "event-3" receipt_time None
  (id_of "b") groups_input replacement_state replacement_state.

Lemma receipted_ok : revokeNodeWithReceipt "event-1" "event-2" receipt_time None "node-1" revoke_input agent_state
  = Ok (state_of receipted, value_of no_receipt receipted).
Proof. vm_compute. reflexivity. Qed.
Lemma revocation_is_replayed_witness :
  revokeNodeWithReceipt "event-4" "event-5" (receipt_time + day) (Some LegacyAdminActor) "node-1" revoke_input (state_of receipted)
  = Ok (state_of receipted, value_of no_receipt receipted).
Proof.
  refine (revocation_is_replayed "event-1" "event-2" receipt_time None "node-1" revoke_input agent_state (state_of receipted)
    (value_of no_receipt receipted) (state_of receipted) (revoked_node receipt_time example_agent)
    "event-4" "event-5" (receipt_time + day) (Some LegacyAdminActor) _ _ _ _ _ _).
  - apply (bool_decide_unpack _). vm_compute. exact I.
  - exact receipted_ok.
  - reflexivity.
  - vm_compute. reflexivity.
  - vm_compute. reflexivity.
  - vm_compute. reflexivity.
Defined.

Definition no_rotation : RotatedNodeCertificate.t := RotatedNodeCertificate.make "" "" "" "" "" "" 0 0 0 0 0 0 0 0 0 false 0.
Lemma rotated_ok : @rotateNodeCertificate toy_crypto spelling_issuer replacement_codec replacement_issue None "event-3" receipt_time None
  (id_of "b") rotation_input replacement_state replacement_state = Ok (state_of rotated, value_of no_rotation rotated).
Proof. vm_compute. reflexivity. Qed.
Lemma certificate_rotation_is_replayed_witness :
  @rotateNodeCertificate toy_crypto spelling_issuer replacement_codec (λ _ _ _ _ _ _ _ _ _, Err ErrClosed) None "event-6" (receipt_time + 1) None
    (id_of "b") rotation_input (state_of rotated) (state_of rotated) = Ok (state_of rotated, value_of no_rotation rotated).
Proof.
  refine (@certificate_rotation_is_replayed toy_crypto spelling_issuer replacement_codec replacement_issue None "event-3" receipt_time None
    (id_of "b") rotation_input replacement_state replacement_state (state_of rotated) (value_of no_rotation rotated) (state_of rotated)
    (λ _ _ _ _ _ _ _ _ _, Err ErrClosed) None "event-6" (receipt_time + 1) None (state_of rotated) _ _ _ _ _ _ _ _ _).
  - exact rotated_ok.
  - reflexivity.
  - vm_compute. split; congruence.
  - vm_compute. split; congruence.
  - vm_compute. split; congruence.
  - vm_compute. split; congruence.
  - reflexivity.
  - vm_compute. reflexivity.
  - vm_compute. reflexivity.
Defined.

Definition no_groups : UpdatedNodeGroups.t := UpdatedNodeGroups.make "" "" "" "" "" [] [] 0 0 0 0 0 0 0 false 0.
Lemma regrouped_ok : @updateNodeGroups toy_crypto spelling_issuer replacement_codec replacement_issue None "event-3" receipt_time None
  (id_of "b") groups_input replacement_state replacement_state = Ok (state_of regrouped, value_of no_groups regrouped).
Proof. vm_compute. reflexivity. Qed.
Lemma group_change_supersedes_witness :
  ∃ old new, findNode replacement_state (TrimSpace (id_of "b")) = Some old ∧ findNode (state_of regrouped) (TrimSpace (id_of "b")) = Some new ∧
    Node.Groups new ≠ Node.Groups old ∧ blocklisted (state_of regrouped) (Node.CertificateFingerprint old).
Proof.
  destruct (@group_change_supersedes toy_crypto spelling_issuer replacement_codec replacement_issue None "event-3" receipt_time None
    (id_of "b") groups_input replacement_state replacement_state (state_of regrouped) (value_of no_groups regrouped) regrouped_ok
    (λ _, eq_refl) (λ _, eq_refl)) as (old & new & Ho & Hn & _ & Hg & Hb & _).
  exists old, new. exact (conj Ho (conj Hn (conj Hg Hb))).
Defined.

(** A node whose address is kept in IPv4-mapped text (which the check of a
    requested address accepts) cannot be revoked with a receipt: the receipt it
    leaves is one the store's check of the log refuses. *)
Definition mapped_state : State.t :=
  agent_state <| State.Nodes := [example_agent <| Node.IP := "::ffff:10.42.0.10" |>] |>.
Definition mapped_revocation := revokeNodeWithReceipt "event-1" "event-2" receipt_time None "node-1" revoke_input mapped_state.
Theorem mapped_address_not_receipted :
  validateNodeIP agent_network [] "::ffff:10.42.0.10" = Ok tt ∧
  mapped_revocation = Ok (state_of mapped_revocation, value_of no_receipt mapped_revocation) ∧
  validateNodeRevocationAudits (state_of mapped_revocation) = Err (ErrOther "identity, lifecycle, or transition details are invalid").
Proof. split_and!; vm_compute; reflexivity. Qed.
