(* ===== verification/StateGraph.v ===== *)
(** * The check of a whole state (validateStateGraph of internal/control/store.go and
    the persisted-material checks of internal/control/model_validation.go)

    The store refuses to load and to commit a state that this check does not
    accept.  It collects the networks, the nodes and the hashes of every retained
    credential in maps while it goes through the records, so that a reference
    must lead to a record and a hash must be used once. *)
From S2P Require Import Prelude GoStd Sha256 GoTime IPv4 NetIP Model AuditLog Receipts Routes RouteState Reservations.
From S2P Require Import Firewall RoutePolicies NetworkSettings Credentials Nodes CARotation Networks NodeLifecycle FirewallRollout.
From S2P Require Import SignedConfig AgentOps Revocation CertificateReplacement.
From Stdlib Require Import Ascii.
Open Scope Z_scope.

(** ** Versions and verifiers *)
Definition supported_versions : list Z :=
  [1; ControlStateVersionCredentialBinding; ControlStateVersionTopology; ControlStateVersionNetworkDNS;
   ControlStateVersionNetworkRelays; ControlStateVersionCARotation; ControlStateVersionFirewallRollout;
   ControlStateVersionFirewallPause; ControlStateVersionRouteTransfer; ControlStateVersionRouteProfileEdit;
   ControlStateVersionRoutePolicies; ControlStateVersionNativeDNS; ControlStateVersionFirewallScopes].
Definition adminCredentialVerifierPrefix : string := "v1:".
Definition ValidAdminCredentialVerifier (verifier : string) : bool :=
  String.prefix adminCredentialVerifierPrefix verifier && ValidTokenHash (TrimPrefix verifier adminCredentialVerifierPrefix).
Definition ValidMasterKeyVerifier (verifier : string) : bool := ValidAdminCredentialVerifier verifier.

Definition graph_version (state : State.t) : result unit :=
  fail (ErrOther "unsupported store version") when negb (contains supported_versions (State.Version state));;
  fail (ErrOther "version 1 state must not contain recovery credential verifiers")
    when (State.Version state =? 1)
      && ((State.MasterKeyVerifier state != "") || (State.AdminCredentialVerifier state != ""));;
  fail (ErrOther "state requires valid master-key and administrator credential verifiers")
    when (ControlStateVersionCredentialBinding <=? State.Version state)
      && (negb (ValidMasterKeyVerifier (State.MasterKeyVerifier state))
          || negb (ValidAdminCredentialVerifier (State.AdminCredentialVerifier state)));;
  Ok tt.

(** ** Key material of a network *)
Definition configSigningPublicKeyBytes : Z := (Z.of_nat ed25519_PublicKeySize * 8 + 5) / 6.
Definition encryptedConfigSigningKeyBytes : Z :=
  ((Z.of_nat ed25519_PrivateKeySize + secretBoxNonceBytes + secretBoxTagBytes) * 8 + 5) / 6.
(** [value] is the canonical text, of this length, of so many bytes. *)
Definition canonical_b64 (value : string) (encoded decoded : Z) : bool :=
  match b64_decode value with
  | Some bytes => (len value =? encoded) && (Z.of_nat (length bytes) =? decoded) && (b64_encode bytes == value)
  | None => false
  end.
Definition validConfigSigningPublicKey (value : string) : bool :=
  canonical_b64 value configSigningPublicKeyBytes (Z.of_nat ed25519_PublicKeySize).

Definition validatePersistedNetworkMaterial (network : Network.t) : result unit :=
  fail (ErrOther "CA certificate is empty, oversized, or not valid UTF-8")
    when negb (validBoundedUTF8 (Network.CACertificate network) maxNebulaCACertificateSize false);;
  _ ← sealed_key_ok (Network.EncryptedCAKey network);
  fail (ErrOther "config signing public key is not canonical")
    when (Network.ConfigSigningPublicKey network != "")
      && negb (validConfigSigningPublicKey (Network.ConfigSigningPublicKey network));;
  fail (ErrOther "encrypted config signing key is not canonical")
    when (Network.EncryptedConfigSigningKey network != "")
      && negb (canonical_b64 (Network.EncryptedConfigSigningKey network) encryptedConfigSigningKeyBytes
                 (Z.of_nat ed25519_PrivateKeySize + secretBoxNonceBytes + secretBoxTagBytes));;
  Ok tt.

(** ** One network *)

(** A setting that a version introduced: empty before, checked since. *)
Definition since (state : State.t) (version : Z) (empty : bool) (check : result unit) : result unit :=
  if State.Version state <? version then fail_if (negb empty) (ErrOther "state before its control state version") else check.

Definition network_cidr_ok (network : Network.t) : bool :=
  match ParseCIDR (Network.CIDR network) with
  | Some (_, cidr) => (prefix_string cidr == Network.CIDR network) && (16 <=? p_bits cidr) && (p_bits cidr <=? 28)
  | None => false
  end.
Definition network_lifecycle_ok (network : Network.t) : bool :=
  negb ((Network.ListenPort network <? 1) || (65535 <? Network.ListenPort network) || (Network.CertificateTTL network <? 24)
        || (8760 <? Network.CertificateTTL network) || (Network.ConfigRevision network <? 1)
        || IsZero (Network.CreatedAt network) || IsZero (Network.ConfigUpdatedAt network)).

Definition network_checks (state : State.t) (network : Network.t) : result unit :=
  let before_scopes := State.Version state <? ControlStateVersionFirewallScopes in
  let rollout := Network.FirewallRollout network in
  fail (ErrOther "network has an invalid canonical IPv4 CIDR") when negb (network_cidr_ok network);;
  fail (ErrOther "network has invalid lifecycle metadata") when negb (network_lifecycle_ok network);;
  fail (ErrOther "network is missing CA material")
    when (TrimSpace (Network.CACertificate network) == "") || (TrimSpace (Network.EncryptedCAKey network) == "");;
  _ ← validatePersistedNetworkMaterial network;
  _ ← validateStoredFirewallPolicy (Network.FirewallPolicy network) (Network.CIDR network);
  fail (ErrOther "network has scoped firewall fields before control state v13")
    when before_scopes && firewallPolicyUsesNodeScopes (Network.FirewallPolicy network);;
  _ ← since state ControlStateVersionNetworkDNS (Network.DNSSettings network == NetworkDNSSettings.zero)
        (validateNetworkDNSInvariant network);
  _ ← since state ControlStateVersionNetworkRelays
        (negb (NetworkRelaySettings.Enabled (Network.RelaySettings network))
         && (NetworkRelaySettings.RelayNodeIDs (Network.RelaySettings network) == None))
        (validateNetworkRelaySettings state network);
  _ ← since state ControlStateVersionCARotation (Network.CARotation network == NetworkCARotation.zero)
        (validateNetworkCARotation network);
  _ ← since state ControlStateVersionFirewallRollout (zeroNetworkFirewallRollout rollout)
        (validateNetworkFirewallRollout state network);
  fail (ErrOther "network has scoped firewall rollout fields before control state v13")
    when before_scopes && (NetworkFirewallRollout.Phase rollout != "")
      && firewallPolicyUsesNodeScopes (NetworkFirewallRollout.TargetPolicy rollout);;
  _ ← since state ControlStateVersionRouteTransfer (zeroNetworkRouteTransfer (Network.RouteTransfer network))
        (validateNetworkRouteTransfer state network);
  _ ← since state ControlStateVersionRouteProfileEdit (zeroNetworkRouteProfileEdit (Network.RouteProfileEdit network))
        (validateNetworkRouteProfileEdit state network);
  since state ControlStateVersionRoutePolicies (Network.RoutePolicies network == None)
    (validateNetworkRoutePolicies state network).

(** [for index, network := range state.Networks]: [networks] and [names] are the
    maps that the loop fills. *)
Fixpoint networks_graph (state : State.t) (networks : gmap string Network.t) (names : gset string) (l : list Network.t) :
    result (gmap string Network.t) :=
  match l with
  | [] => Ok networks
  | network :: rest =>
      fail (ErrOther "network has an invalid identity")
        when negb (validPersistedID (Network.ID network)) || negb (namePattern (Network.Name network));;
      fail (ErrOther "duplicate network ID") when bool_decide (Network.ID network ∈ dom networks);;
      let foldedName := ToLower (Network.Name network) in
      fail (ErrOther "duplicate network name") when bool_decide (foldedName ∈ names);;
      _ ← network_checks state network;
      overlaps ← exists_result (λ existing, cidrsOverlap (Network.CIDR existing) (Network.CIDR network))
                   (snd <$> map_to_list networks);
      fail (ErrOther "network overlaps network") when overlaps;;
      networks_graph state (<[Network.ID network := network]> networks) ({[foldedName]} ∪ names) rest
  end.

(** ** One node *)
Definition maxNebulaHostCertificateSize : Z := 131072.
Definition maxNebulaCATrustBundleSize : Z := 2 * maxNebulaCACertificateSize.

(** What a node that was never heard from must not hold. *)
Definition no_heartbeat_evidence (node : Node.t) : bool :=
  (Node.HeartbeatSequence node =? 0) && (Node.AppliedConfigRevision node =? 0) && (Node.AppliedCertificateGeneration node =? 0)
  && (Node.AppliedConfigSHA256 node == "") && (Node.ReportedCertificateFingerprint node == "") && negb (Node.NebulaRunning node)
  && (Node.AgentVersion node == "") && (Node.NebulaVersion node == "") && (Node.AgentBootID node == "")
  && (Node.LastError node == "").

Definition validatePersistedNodeTelemetry (node : Node.t) (network : Network.t) : result unit :=
  let status := Node.Status node in
  let agent := Node.AgentStatus node in
  let terminal := (agent == "") || (agent == "revoked") in
  fail (ErrOther "agent version is oversized or contains unsafe text")
    when negb (validTelemetry (Node.AgentVersion node) maxPersistedAgentVersionBytes);;
  fail (ErrOther "Nebula version is oversized or contains unsafe text")
    when negb (validTelemetry (Node.NebulaVersion node) maxPersistedNebulaVersionBytes);;
  fail (ErrOther "last error is oversized or contains unsafe text")
    when negb (validTelemetry (Node.LastError node) maxPersistedLastErrorBytes);;
  fail (ErrOther "applied config revision is outside the authoritative network range")
    when (Node.AppliedConfigRevision node <? 0) || (Network.ConfigRevision network <? Node.AppliedConfigRevision node);;
  fail (ErrOther "heartbeat sequence is outside its safety bound")
    when (Node.HeartbeatSequence node <? 0) || (maxPersistedHeartbeatSequence <? Node.HeartbeatSequence node);;
  fail (ErrOther "applied config digest is not a canonical SHA-256 value")
    when (Node.AppliedConfigSHA256 node != "") && negb (fingerprintPattern (Node.AppliedConfigSHA256 node));;
  fail (ErrOther "applied config digest is set without an applied revision")
    when (Node.AppliedConfigRevision node =? 0) && (Node.AppliedConfigSHA256 node != "");;
  fail (ErrOther "applied config revision is missing its SHA-256 digest")
    when (0 <? Node.AppliedConfigRevision node) && (Node.AppliedConfigSHA256 node == "");;
  fail (ErrOther "reported certificate fingerprint is not a canonical SHA-256 value")
    when (Node.ReportedCertificateFingerprint node != "") && negb (fingerprintPattern (Node.ReportedCertificateFingerprint node));;
  fail (ErrOther "agent boot ID is invalid") when (Node.AgentBootID node != "") && negb (namePattern (Node.AgentBootID node));;
  match Node.LastSeenAt node with
  | None =>
      fail (ErrOther "heartbeat evidence is present without a last-seen time") when negb (no_heartbeat_evidence node);;
      fail (ErrOther "node outside heartbeat lifecycle has an agent status")
        when ((status == "pending") || (status == "active")) && (agent != "");;
      fail (ErrOther "revoked node has a non-terminal agent status") when (status == "revoked") && negb terminal;;
      Ok tt
  | Some seen =>
      fail (ErrOther "last-seen time is outside the enrolled lifecycle")
        when IsZero seen || match Node.EnrolledAt node with Some at_ => Before seen at_ | None => true end;;
      fail (ErrOther "last-seen time is missing a positive heartbeat sequence") when Node.HeartbeatSequence node <? 1;;
      fail (ErrOther "last-seen time is missing its agent boot ID") when Node.AgentBootID node == "";;
      fail (ErrOther "active heartbeat has an unsupported agent status")
        when (status == "active") && (agent != "healthy") && (agent != "degraded");;
      fail (ErrOther "pending node contains heartbeat evidence") when status == "pending";;
      fail (ErrOther "revoked heartbeat has a non-terminal agent status") when (status == "revoked") && negb terminal;;
      Ok tt
  end.

Definition non_nil {A} (value : option A) : bool := match value with Some _ => true | None => false end.
(** A claim identifier and its time come together. *)
Definition renewal_claim_ok (node : Node.t) : bool :=
  match Node.RenewalClaimedAt node with
  | Some at_ => (Node.RenewalClaimID node != "") && validPersistedID (Node.RenewalClaimID node) && negb (IsZero at_)
  | None => Node.RenewalClaimID node == ""
  end.
Definition node_credentials_ok (node : Node.t) : bool :=
  let status := Node.Status node in
  if status == "pending" then
    negb (non_nil (Node.EnrolledAt node) || non_nil (Node.RevokedAt node) || (Node.AgentTokenHash node != "")
          || non_nil (Node.AgentCredentialExpiresAt node) || negb (Node.AgentCredentialGeneration node =? 0)
          || (Node.PublicKeyHash node != ""))
  else if status == "active" then
    negb (negb (non_nil (Node.EnrolledAt node)) || non_nil (Node.RevokedAt node) || negb (ValidTokenHash (Node.AgentTokenHash node))
          || negb (non_nil (Node.AgentCredentialExpiresAt node)) || (Node.AgentCredentialGeneration node <? 1)
          || negb (ValidTokenHash (Node.PublicKeyHash node)))
  else if status == "revoked" then
    negb (negb (non_nil (Node.RevokedAt node)) || (Node.AgentTokenHash node != "") || (Node.PreviousAgentTokenHash node != "")
          || non_nil (Node.AgentCredentialExpiresAt node))
  else true.

(** The checks of a node's own fields. *)
Definition node_checks (state : State.t) (network : Network.t) (node : Node.t) : result unit :=
  fail (ErrOther "node has invalid role") when (Node.Role node != "member") && (Node.Role node != "lighthouse");;
  fail (ErrOther "node has non-canonical certificate groups") when negb (validCanonicalNodeGroups (Node.Groups node));;
  _ ← validateCanonicalRoutedSubnets (Node.RoutedSubnets node);
  fail (ErrOther "node has non-canonical topology metadata")
    when (ControlStateVersionTopology <=? State.Version state)
      && (negb (validTopologyLabel (Node.Site node)) || negb (validTopologyLabel (Node.FailureDomain node)));;
  fail (ErrOther "node has topology metadata before control state v3")
    when (State.Version state <? ControlStateVersionTopology) && ((Node.Site node != "") || (Node.FailureDomain node != ""));;
  _ ← (if Node.PublicEndpoint node != "" then validateEndpoint (Node.PublicEndpoint node) else Ok tt);
  fail (ErrOther "node has an oversized or invalid UTF-8 certificate")
    when negb (validBoundedUTF8 (Node.Certificate node) maxNebulaHostCertificateSize true);;
  fail (ErrOther "node has invalid status")
    when (Node.Status node != "pending") && (Node.Status node != "active") && (Node.Status node != "revoked");;
  fail (ErrOther "node has invalid certificate generation state")
    when (Node.CertificateGeneration node <? 0) || (Node.AppliedCertificateGeneration node <? 0)
      || (Node.CertificateGeneration node <? Node.AppliedCertificateGeneration node) || (Node.AgentCredentialGeneration node <? 0);;
  fail (ErrOther "node has certificate authority metadata before control state v6, or without a certificate")
    when ((State.Version state <? ControlStateVersionCARotation) || (Node.Certificate node == ""))
      && (Node.CertificateAuthoritySHA256 node != "");;
  fail (ErrOther "node has an invalid certificate authority digest")
    when negb (State.Version state <? ControlStateVersionCARotation) && (Node.Certificate node != "")
      && negb (fingerprintPattern (Node.CertificateAuthoritySHA256 node));;
  fail (ErrOther "node has invalid renewal claim metadata") when negb (renewal_claim_ok node);;
  fail (ErrOther "node has native DNS telemetry before control state v12")
    when (State.Version state <? ControlStateVersionNativeDNS) && Node.NativeDNSActive node;;
  _ ← validatePersistedNodeTelemetry node network;
  fail (ErrOther "node has incomplete previous agent credential state")
    when negb (Bool.eqb (Node.PreviousAgentTokenHash node == "") (negb (non_nil (Node.PreviousAgentTokenExpiresAt node))));;
  fail (ErrOther "node has invalid credential state for its status") when negb (node_credentials_ok node);;
  Ok tt.

(** The canonical text of a node's address, when it is an IPv4 address of its
    network. *)
Definition node_address_in (network : Network.t) (node : Node.t) : option string :=
  match ParseIP (Node.IP node), ParseCIDR (Network.CIDR network) with
  | Some address, Some (_, cidr) =>
      if non_nil (To4 address) && ipnet_contains cidr address then Some (ip_string address) else None
  | _, _ => None
  end.
Definition NUL : string := String "000" "".
Definition address_key (networkID address : string) : string := networkID +:+ NUL +:+ address.

(** A retained credential's hash is well formed and used once. *)
Definition take_hash (hash : string) (hashes : gset string) : result (gset string) :=
  if hash == "" then Ok hashes
  else
    fail (ErrOther "node has an invalid agent credential hash") when negb (ValidTokenHash hash);;
    fail (ErrOther "node has an agent credential hash already used") when bool_decide (hash ∈ hashes);;
    Ok ({[hash]} ∪ hashes).

(** The maps that the check fills: the nodes, their addresses, and the hashes of
    the retained credentials. *)
Module Graph.
Record t := make { nodes : gmap string Node.t; addresses : gset string; hashes : gset string }.
#[global] Instance t_eta : Eta t := λ r, make (nodes r) (addresses r) (hashes r).
Definition empty : t := make ∅ ∅ ∅.
End Graph.

Fixpoint nodes_graph (state : State.t) (networks : gmap string Network.t) (g : Graph.t) (l : list Node.t) : result Graph.t :=
  match l with
  | [] => Ok g
  | node :: rest =>
      network ← of_option (networks !! Node.NetworkID node) (ErrOther "node has an invalid identity or network reference");
      fail (ErrOther "node has an invalid identity or network reference")
        when negb (validPersistedID (Node.ID node)) || negb (namePattern (Node.Name node));;
      fail (ErrOther "duplicate node ID") when bool_decide (Node.ID node ∈ dom (Graph.nodes g));;
      _ ← node_checks state network node;
      address ← of_option (node_address_in network node) (ErrOther "node has an address outside its network");
      let addressKey := address_key (Node.NetworkID node) address in
      fail (ErrOther "nodes have the same address") when bool_decide (addressKey ∈ Graph.addresses g);;
      fail (ErrOther "node is missing its creation time") when IsZero (Node.CreatedAt node);;
      hashes ← take_hash (Node.AgentTokenHash node) (Graph.hashes g);
      hashes ← take_hash (Node.PreviousAgentTokenHash node) hashes;
      nodes_graph state networks
        (Graph.make (<[Node.ID node := node]> (Graph.nodes g)) ({[addressKey]} ∪ Graph.addresses g) hashes) rest
  end.

(** The references of a network's policies to nodes. *)
Definition network_references (state : State.t) (network : Network.t) : result unit :=
  _ ← validateFirewallPolicyReferences state network (Network.FirewallPolicy network);
  if NetworkFirewallRollout.Phase (Network.FirewallRollout network) != "" then
    validateFirewallPolicyReferences state network (NetworkFirewallRollout.TargetPolicy (Network.FirewallRollout network))
  else Ok tt.
(** A check of each element of a slice, in order. *)
Fixpoint check_all {A} (check : A → result unit) (l : list A) : result unit :=
  match l with
  | [] => Ok tt
  | x :: rest => _ ← check x; check_all check rest
  end.

(** ** Enrollment and recovery records *)
Definition validatePersistedEnrollmentClaim (enrollment : EnrollmentToken.t) : result unit :=
  let hasClaimID := EnrollmentToken.ClaimID enrollment != "" in
  let hasClaimKey := EnrollmentToken.ClaimKeyHash enrollment != "" in
  fail (ErrOther "claim metadata is incomplete or invalid")
    when (hasClaimID || non_nil (EnrollmentToken.ClaimedAt enrollment) || hasClaimKey)
      && (negb hasClaimID || negb hasClaimKey || negb (validPersistedID (EnrollmentToken.ClaimID enrollment))
          || negb (ValidTokenHash (EnrollmentToken.ClaimKeyHash enrollment))
          || match EnrollmentToken.ClaimedAt enrollment with Some at_ => IsZero at_ | None => true end);;
  fail (ErrOther "used-at time is zero")
    when match EnrollmentToken.UsedAt enrollment with Some at_ => IsZero at_ | None => false end;;
  Ok tt.

(** Returns the identifiers of the enrollments and the hashes used so far. *)
Fixpoint enrollments_graph (nodes : gmap string Node.t) (ids hashes : gset string) (l : list EnrollmentToken.t) :
    result (gset string * gset string) :=
  match l with
  | [] => Ok (ids, hashes)
  | enrollment :: rest =>
      fail (ErrOther "enrollment has invalid metadata")
        when negb (validPersistedID (EnrollmentToken.ID enrollment)) || negb (ValidTokenHash (EnrollmentToken.TokenHash enrollment))
          || IsZero (EnrollmentToken.CreatedAt enrollment)
          || negb (After (EnrollmentToken.ExpiresAt enrollment) (EnrollmentToken.CreatedAt enrollment));;
      _ ← validatePersistedEnrollmentClaim enrollment;
      fail (ErrOther "enrollment references a missing node") when negb (bool_decide (EnrollmentToken.NodeID enrollment ∈ dom nodes));;
      fail (ErrOther "duplicate enrollment ID") when bool_decide (EnrollmentToken.ID enrollment ∈ ids);;
      fail (ErrOther "enrollment has a token hash already used") when bool_decide (EnrollmentToken.TokenHash enrollment ∈ hashes);;
      enrollments_graph nodes ({[EnrollmentToken.ID enrollment]} ∪ ids) ({[EnrollmentToken.TokenHash enrollment]} ∪ hashes) rest
  end.

Section recoveries.
Context `{Crypto}.
Import EnrollmentBundle.

Definition result_node_ok (node : Node.t) (network : Network.t) : result unit :=
  fail (ErrOther "recovery result node identity or groups are not canonical")
    when (Node.NetworkID node != Network.ID network) || negb (validCanonicalNodeGroups (Node.Groups node));;
  _ ← validateCanonicalRoutedSubnets (Node.RoutedSubnets node);
  fail (ErrOther "recovery result node topology metadata is not canonical")
    when negb (Bool.eqb (Node.Site node == "") (Node.FailureDomain node == ""))
      || (Node.Site node != "") && (negb (validTopologyLabel (Node.Site node)) || negb (validTopologyLabel (Node.FailureDomain node)));;
  fail (ErrOther "recovery result node metadata is invalid")
    when negb (validPersistedID (Node.ID node)) || negb (namePattern (Node.Name node))
      || (Node.Role node != "member") && (Node.Role node != "lighthouse") || (Node.Status node != "active");;
  fail (ErrOther "recovery result node address is invalid")
    when match ParsePrefix (Network.CIDR network), ParseAddr (Node.IP node) with
         | Some prefix, Some address => (addr_string address != Node.IP node) || negb (Contains prefix address)
         | _, _ => true
         end;;
  if Node.PublicEndpoint node != "" then validateEndpoint (Node.PublicEndpoint node) else Ok tt.

(** An optional time that is present and equal to a given one. *)
Definition present_equal (value : option time) (at_ : time) : bool :=
  match value with Some v => v =? at_ | None => false end.

Definition validatePersistedRecoveryResultMaterial (b : EnrollmentBundle.t) (network : Network.t) : result unit :=
  let node := Node b in
  _ ← result_node_ok node network;
  fail (ErrOther "recovery result certificate is empty, oversized, invalid UTF-8, or inconsistent")
    when negb (validBoundedUTF8 (Node.Certificate node) maxNebulaHostCertificateSize false)
      || negb (validBoundedUTF8 (Certificate b) maxNebulaHostCertificateSize false) || (Node.Certificate node != Certificate b);;
  fail (ErrOther "recovery result certificate lifecycle is invalid or inconsistent")
    when negb (fingerprintPattern (Node.CertificateFingerprint node)) || (Node.CertificateFingerprint node != CertificateFingerprint b)
      || negb (present_equal (Node.CertificateExpiresAt node) (CertificateExpiresAt b))
      || negb (present_equal (Node.CertificateRenewAfter node) (CertificateRenewAfter b))
      || negb (Before (CertificateRenewAfter b) (CertificateExpiresAt b))
      || (Node.CertificateGeneration node <? 1) || negb (Node.CertificateGeneration node =? CertificateGeneration b);;
  fail (ErrOther "recovery result node lifecycle is invalid or inconsistent")
    when negb (present_equal (Node.AgentCredentialExpiresAt node) (AgentCredentialExpiresAt b))
      || (Node.AgentCredentialGeneration node <? 1) || negb (Node.AgentCredentialGeneration node =? AgentCredentialGeneration b)
      || IsZero (Node.CreatedAt node)
      || match Node.EnrolledAt node with Some at_ => Before at_ (Node.CreatedAt node) | None => true end
      || non_nil (Node.RevokedAt node);;
  fail (ErrOther "recovery result config lifecycle is invalid")
    when (ConfigRevision b <? 1) || (Network.ConfigRevision network <? ConfigRevision b) || IsZero (ConfigIssuedAt b);;
  _ ← validatePersistedNodeTelemetry node network;
  fail (ErrOther "recovery result CA certificate is empty, oversized, invalid UTF-8, or inconsistent")
    when negb (validBoundedUTF8 (CA b) maxNebulaCATrustBundleSize false) || (CA b != networkTrustBundle network);;
  fail (ErrOther "recovery result config signing public key is not canonical")
    when negb (validConfigSigningPublicKey (ConfigSigningPublicKey b));;
  validateManagedConfig (Config b).

Import AgentRecoveryToken.
Definition recovery_metadata (recovery : AgentRecoveryToken.t) : result unit :=
  fail (ErrOther "agent recovery has invalid metadata")
    when negb (validPersistedID (ID recovery)) || negb (ValidTokenHash (TokenHash recovery)) || IsZero (CreatedAt recovery)
      || negb (After (ExpiresAt recovery) (CreatedAt recovery))
      || (30 * minute <? Sub (ExpiresAt recovery) (CreatedAt recovery));;
  Ok tt.
Definition recovery_claim (recovery : AgentRecoveryToken.t) : result unit :=
  let hasClaimID := ClaimID recovery != "" in
  fail (ErrOther "agent recovery has invalid claim metadata")
    when negb (Bool.eqb hasClaimID (non_nil (ClaimedAt recovery))) || negb (Bool.eqb hasClaimID (ClaimKeyHash recovery != ""))
      || (hasClaimID && (negb (validPersistedID (ClaimID recovery)) || negb (ValidTokenHash (ClaimKeyHash recovery))
                         || (ClaimedCredentialGeneration recovery <? 1)))
      || (negb hasClaimID && negb (ClaimedCredentialGeneration recovery =? 0));;
  fail (ErrOther "agent recovery has a claim outside its lifetime")
    when match ClaimedAt recovery with
         | Some at_ => Before at_ (CreatedAt recovery) || After at_ (ExpiresAt recovery)
         | None => false
         end;;
  Ok tt.
Definition unused_recovery (recovery : AgentRecoveryToken.t) : result unit :=
  fail (ErrOther "unused agent recovery has committed result metadata")
    when negb (CredentialGeneration recovery =? 0) || non_nil (CredentialExpiresAt recovery) || non_nil (Result recovery);;
  Ok tt.

(** The result that a used recovery retains is the node's own: a replay returns it. *)
Definition recovery_result_matches (state : State.t) (node : Node.t) (network : Network.t) (recovery : AgentRecoveryToken.t)
    (expires : time) (b : EnrollmentBundle.t) : bool :=
  (EnrollmentBundle.NodeID b == NodeID recovery) && (EnrollmentBundle.NetworkID b == Node.NetworkID node)
  && (Node.ID (EnrollmentBundle.Node b) == NodeID recovery) && (Node.Site (EnrollmentBundle.Node b) == Node.Site node)
  && (Node.FailureDomain (EnrollmentBundle.Node b) == Node.FailureDomain node)
  && (elems (Node.RoutedSubnets (EnrollmentBundle.Node b)) == elems (Node.RoutedSubnets node))
  && negb ((ControlStateVersionCARotation <=? State.Version state)
           && (Node.CertificateAuthoritySHA256 (EnrollmentBundle.Node b) != Node.CertificateAuthoritySHA256 node))
  && TokenHashEqual (EnrollmentBundle.PublicKeyHash b) (Node.PublicKeyHash node)
  && (EnrollmentBundle.AgentCredentialGeneration b =? CredentialGeneration recovery)
  && (EnrollmentBundle.AgentCredentialExpiresAt b =? expires)
  && (EnrollmentBundle.ConfigSigningPublicKey b == Network.ConfigSigningPublicKey network).
Definition receipt_matches (b : EnrollmentBundle.t) (receipt : RecoveryReceipt.t) : bool :=
  (RecoveryReceipt.NodeID receipt == EnrollmentBundle.NodeID b) && (RecoveryReceipt.NetworkID receipt == EnrollmentBundle.NetworkID b)
  && (RecoveryReceipt.AgentCredentialGeneration receipt =? EnrollmentBundle.AgentCredentialGeneration b)
  && (RecoveryReceipt.AgentCredentialExpiresAt receipt =? EnrollmentBundle.AgentCredentialExpiresAt b)
  && (RecoveryReceipt.ConfigSHA256 receipt == EnrollmentBundle.ConfigSHA256 b)
  && (RecoveryReceipt.ConfigSignature receipt == EnrollmentBundle.ConfigSignature b).

(** The checks of a used recovery; returns the hash of the credential it gave out. *)
Definition used_recovery_checks (state : State.t) (node : Node.t) (network : Network.t) (hashes recovered : gset string)
    (recovery : AgentRecoveryToken.t) (used : time) : result string :=
  let e := ErrOther "used agent recovery has invalid result metadata" in
  claimed ← of_option (ClaimedAt recovery) e;
  expires ← of_option (CredentialExpiresAt recovery) e;
  result ← of_option (Result recovery) e;
  fail e when Before used claimed || After used (ExpiresAt recovery)
    || negb (CredentialGeneration recovery =? wrap64 (ClaimedCredentialGeneration recovery + 1))
    || (Node.AgentCredentialGeneration node <? CredentialGeneration recovery)
    || negb (After expires used) || After expires (used + 90 * 24 * hour);;
  let b := AgentRecoveryBundle.Bundle result in
  let receipt := AgentRecoveryBundle.Receipt result in
  let hash := RecoveryReceipt.NewAgentTokenHash receipt in
  fail (ErrOther "used agent recovery has a mismatched bootstrap result")
    when negb (recovery_result_matches state node network recovery expires b);;
  _ ← validatePersistedRecoveryResultMaterial b network;
  _ ← VerifyConfig (EnrollmentBundle.ConfigSigningPublicKey b) (bundle_metadata b) (EnrollmentBundle.Config b)
        (EnrollmentBundle.ConfigSHA256 b) (EnrollmentBundle.ConfigSignature b);
  fail (ErrOther "used agent recovery has a mismatched receipt") when negb (receipt_matches b receipt);;
  _ ← VerifyRecoveryReceipt (EnrollmentBundle.ConfigSigningPublicKey b) receipt;
  fail (ErrOther "used agent recovery reuses the recovered credential hash") when bool_decide (hash ∈ recovered);;
  fail (ErrOther "used agent recovery has a recovered credential hash used by another credential domain")
    when bool_decide (hash ∈ hashes) && negb (TokenHashEqual (Node.AgentTokenHash node) hash)
      && negb (TokenHashEqual (Node.PreviousAgentTokenHash node) hash);;
  fail (ErrOther "used agent recovery does not match the current node credential")
    when (CredentialGeneration recovery =? Node.AgentCredentialGeneration node)
      && (negb (present_equal (Node.AgentCredentialExpiresAt node) expires) || negb (TokenHashEqual (Node.AgentTokenHash node) hash));;
  Ok hash.

(** [ids] are the identifiers of the recoveries so far, [hashes] the hashes in
    use, [recovered] those the used recoveries gave out. *)
Fixpoint recoveries_graph (state : State.t) (networks : gmap string Network.t) (nodes : gmap string Node.t)
    (enrollments ids hashes recovered : gset string) (l : list AgentRecoveryToken.t) : result (gset string) :=
  match l with
  | [] => Ok hashes
  | recovery :: rest =>
      _ ← recovery_metadata recovery;
      let e := ErrOther "agent recovery references a node outside the active enrolled lifecycle" in
      node ← of_option (nodes !! NodeID recovery) e;
      fail e when (Node.Status node != "active") || negb (non_nil (Node.EnrolledAt node)) || non_nil (Node.RevokedAt node);;
      fail (ErrOther "duplicate agent recovery ID") when bool_decide (ID recovery ∈ ids);;
      fail (ErrOther "agent recovery ID is already used by an enrollment") when bool_decide (ID recovery ∈ enrollments);;
      fail (ErrOther "agent recovery has a token hash already used") when bool_decide (TokenHash recovery ∈ hashes);;
      let ids := {[ID recovery]} ∪ ids in
      let hashes := {[TokenHash recovery]} ∪ hashes in
      _ ← recovery_claim recovery;
      match UsedAt recovery with
      | None => _ ← unused_recovery recovery; recoveries_graph state networks nodes enrollments ids hashes recovered rest
      | Some used =>
          network ← of_option (networks !! Node.NetworkID node) (ErrOther "agent recovery references a missing network");
          hash ← used_recovery_checks state node network hashes recovered recovery used;
          recoveries_graph state networks nodes enrollments ids hashes ({[hash]} ∪ recovered) rest
      end
  end.
End recoveries.

(** ** Certificates and audit events *)
Definition issuance_ok (nodes : gmap string Node.t) (issuance : CertificateIssuance.t) : result unit :=
  let e := ErrOther "certificate issuance is invalid" in
  node ← of_option (nodes !! CertificateIssuance.NodeID issuance) e;
  fail e when (Node.NetworkID node != CertificateIssuance.NetworkID issuance)
    || negb (fingerprintPattern (CertificateIssuance.Fingerprint issuance)) || IsZero (CertificateIssuance.IssuedAt issuance)
    || negb (After (CertificateIssuance.ExpiresAt issuance) (CertificateIssuance.IssuedAt issuance));;
  Ok tt.
Definition maxRevocationReasonBytes : Z := 256.
Definition revocation_ok (nodes : gmap string Node.t) (revocation : CertificateRevocation.t) : result unit :=
  let e := ErrOther "certificate revocation is invalid" in
  node ← of_option (nodes !! CertificateRevocation.NodeID revocation) e;
  fail e when (Node.NetworkID node != CertificateRevocation.NetworkID revocation)
    || negb (fingerprintPattern (CertificateRevocation.Fingerprint revocation)) || IsZero (CertificateRevocation.At revocation);;
  fail (ErrOther "certificate revocation has an empty expiry")
    when match CertificateRevocation.ExpiresAt revocation with Some at_ => IsZero at_ | None => false end;;
  fail (ErrOther "certificate revocation has an unsafe reason")
    when negb (validBoundedPlainText (CertificateRevocation.Reason revocation) maxRevocationReasonBytes true);;
  Ok tt.

Definition maxAuditActionBytes : Z := 128.
Fixpoint audit_graph (ids : gset string) (l : list AuditEvent.t) : result unit :=
  match l with
  | [] => Ok tt
  | event :: rest =>
      fail (ErrOther "audit event has invalid metadata")
        when negb (validPersistedID (AuditEvent.ID event)) || IsZero (AuditEvent.At event)
          || negb (validAuditLabel (AuditEvent.Action event) maxAuditActionBytes)
          || negb (validAuditLabel (AuditEvent.Resource event) maxAuditResourceBytes)
          || negb (validPersistedID (AuditEvent.ResourceID event));;
      _ ← validateAuditDetails (elems (AuditEvent.Details event));
      _ ← validateAuditActorMetadata (elems (AuditEvent.Details event));
      fail (ErrOther "duplicate audit event ID") when bool_decide (AuditEvent.ID event ∈ ids);;
      audit_graph ({[AuditEvent.ID event]} ∪ ids) rest
  end.

(** ** The whole state *)
Definition validateStateGraph `{Crypto} (state : State.t) : result unit :=
  _ ← graph_version state;
  networks ← networks_graph state ∅ ∅ (State.Networks state);
  graph ← nodes_graph state networks Graph.empty (State.Nodes state);
  _ ← check_all (network_references state) (State.Networks state);
  '(enrollments, hashes) ← enrollments_graph (Graph.nodes graph) ∅ (Graph.hashes graph) (State.Enrollments state);
  _ ← recoveries_graph state networks (Graph.nodes graph) enrollments ∅ hashes ∅ (State.AgentRecoveries state);
  _ ← check_all (issuance_ok (Graph.nodes graph)) (State.Issuances state);
  _ ← check_all (revocation_ok (Graph.nodes graph)) (State.Revocations state);
  _ ← validateReservedIPv4PrefixGraph state;
  _ ← audit_graph ∅ (State.Audit state);
  _ ← validateRetiredNetworkReservations state;
  _ ← validateArchivedNodeTombstones state;
  _ ← validateNodeCertificateRotationAudits state;
  _ ← validateNodeGroupAudits state;
  validateNodeRevocationAudits state.

(** ** What an accepted state holds

    A loop that fills maps is read as conditions on the slice it goes through: the
    keys are new to the map and pairwise distinct, and the map then finds what a
    search through the slice finds first. *)
Definition fresh_keys {A} (key : A → string) (seen : gset string) (l : list A) : Prop :=
  NoDup (key <$> l) ∧ ∀ x, x ∈ l → key x ∉ seen.
Definition indexes {A} (key : A → string) (l : list A) (m m' : gmap string A) : Prop :=
  ∀ id, m' !! id = match snd <$> list_find (λ x, key x = id) l with Some x => Some x | None => m !! id end.

Section loops.
Context {A : Type} (key : A → string).

Lemma fresh_nil seen : fresh_keys key seen [].
Proof. split; [constructor|set_solver]. Qed.
Lemma fresh_cons x l seen : key x ∉ seen → fresh_keys key ({[key x]} ∪ seen) l → fresh_keys key seen (x :: l).
Proof.
  intros Hx [Hnd Hl]. split.
  - rewrite fmap_cons, NoDup_cons. split; [|done]. intros (y & Ey & Hy)%list_elem_of_fmap. specialize (Hl y Hy). set_solver.
  - intros y [->|Hy]%elem_of_cons; [done|]. specialize (Hl y Hy). set_solver.
Qed.
Lemma fresh_insert x l (m : gmap string A) :
  key x ∉ dom m → fresh_keys key (dom (<[key x := x]> m)) l → fresh_keys key (dom m) (x :: l).
Proof. rewrite dom_insert_L. apply fresh_cons. Qed.
Lemma fresh_distinct x l seen y : fresh_keys key ({[key x]} ∪ seen) l → y ∈ l → key y ≠ key x.
Proof. intros [_ H] Hy E. specialize (H y Hy). set_solver. Qed.

Lemma indexes_nil m : indexes key [] m m.
Proof. done. Qed.
Lemma indexes_cons x l m m' :
  fresh_keys key (dom (<[key x := x]> m)) l → indexes key l (<[key x := x]> m) m' → indexes key (x :: l) m m'.
Proof.
  intros Hf Hm id. rewrite Hm. simpl. case_decide as E; simpl.
  - subst id. destruct (list_find _ l) as [[j y]|] eqn:Ef; simpl; [|by rewrite lookup_insert_eq].
    apply list_find_Some in Ef as (Hl & Ey & _). destruct Hf as [_ Hf].
    destruct (Hf y); [by eapply list_elem_of_lookup_2|]. rewrite Ey. set_solver.
  - destruct (list_find _ l) as [[j y]|] eqn:Ef; simpl; [done|]. by rewrite lookup_insert_ne.
Qed.
Lemma indexes_find l m id : indexes key l ∅ m → m !! id = snd <$> list_find (λ x, key x = id) l.
Proof. intros ->. by destruct (list_find _ _) as [[]|]. Qed.
End loops.

Lemma check_all_iff {A} (check : A → result unit) l : check_all check l = Ok tt ↔ Forall (λ x, check x = Ok tt) l.
Proof.
  induction l as [|x l IH]; simpl; [by split|]. rewrite Forall_cons, <- IH, bind_Ok. split.
  - by intros ([] & ? & ?).
  - intros [? ?]. by exists tt.
Qed.

(** *** Networks *)
Definition network_accepted (state : State.t) (n : Network.t) : Prop :=
  validPersistedID (Network.ID n) = true ∧ namePattern (Network.Name n) = true ∧ network_checks state n = Ok tt.
Definition disjoint_networks (a b : Network.t) : Prop := cidrsOverlap (Network.CIDR a) (Network.CIDR b) = Ok false.
Definition folded_name (n : Network.t) : string := ToLower (Network.Name n).

Lemma networks_graph_cons state networks names n l m :
  networks_graph state networks names (n :: l) = Ok m →
  network_accepted state n ∧ (Network.ID n ∉ dom networks) ∧ (folded_name n ∉ names) ∧
  (∀ id x, networks !! id = Some x → disjoint_networks x n) ∧
  networks_graph state (<[Network.ID n := n]> networks) ({[folded_name n]} ∪ names) l = Ok m.
Proof.
  cbn [networks_graph]. cbv zeta. open_guards. intros (Hid & Hdup & Hname & [] & Hc & b & Ho & Hb & Hrest). subst b.
  split_bools. split; [done|]. split; [done|]. split; [done|]. split; [|done].
  apply exists_result_false in Ho. rewrite Forall_forall in Ho. intros id x Hx. apply Ho, list_elem_of_fmap.
  exists (id, x). split; [done|]. by apply elem_of_map_to_list.
Qed.

Lemma networks_graph_spec state l : ∀ networks names m,
  networks_graph state networks names l = Ok m →
  Forall (network_accepted state) l ∧ fresh_keys Network.ID (dom networks) l ∧ fresh_keys folded_name names l ∧
  (∀ n, n ∈ l → ∀ id x, networks !! id = Some x → disjoint_networks x n) ∧ ForallOrdPairs disjoint_networks l ∧
  indexes Network.ID l networks m.
Proof.
  induction l as [|n l IH]; intros networks names m H.
  - injection H as <-. repeat split; try constructor; set_solver.
  - apply networks_graph_cons in H as (Ha & Hid & Hname & Hdis & H).
    apply IH in H as (Hall & Hf & Hn & Hd & Hpairs & Hm).
    split; [by constructor|]. split; [by apply fresh_insert|]. split; [by apply fresh_cons|].
    split. { intros x [->|Hin]%elem_of_cons; [done|]. intros id y Hy. apply (Hd x Hin id).
             rewrite lookup_insert_ne; [done|]. intros <-. apply Hid. by eapply elem_of_dom_2. }
    split; [|by apply indexes_cons]. constructor; [|done]. apply List.Forall_forall. intros x Hin%list_elem_of_In.
    apply (Hd x Hin (Network.ID n)). by rewrite lookup_insert_eq.
Qed.

(** *** Nodes *)
Definition node_hashes (n : Node.t) : list string := filter (λ h, h ≠ "") [Node.AgentTokenHash n; Node.PreviousAgentTokenHash n].
Definition node_accepted (state : State.t) (networks : gmap string Network.t) (n : Node.t) : Prop :=
  ∃ network address, networks !! Node.NetworkID n = Some network ∧ validPersistedID (Node.ID n) = true ∧
    namePattern (Node.Name n) = true ∧ node_checks state network n = Ok tt ∧ node_address_in network n = Some address ∧
    Node.CreatedAt n ≠ 0.
(** The key of a node's address in the map of addresses. *)
Definition node_key (networks : gmap string Network.t) (n : Node.t) : string :=
  default "" (network ← networks !! Node.NetworkID n; address_key (Node.NetworkID n) <$> node_address_in network n).

Lemma take_hash_Ok hash hashes hashes' :
  take_hash hash hashes = Ok hashes' →
  let new := filter (λ h, h ≠ "") [hash] in
  hashes' = list_to_set new ∪ hashes ∧ Forall (λ h, ValidTokenHash h = true ∧ h ∉ hashes) new.
Proof.
  unfold take_hash. case_bool_decide as E; cbv zeta.
  - intros [= <-]. rewrite filter_cons_False by tauto. split; [set_solver|constructor].
  - open_guards. intros (? & ? & [= <-]). split_bools. rewrite filter_cons_True by done. split; [set_solver|by repeat constructor].
Qed.

Lemma node_hashes_Ok n hashes h1 h2 :
  take_hash (Node.AgentTokenHash n) hashes = Ok h1 → take_hash (Node.PreviousAgentTokenHash n) h1 = Ok h2 →
  h2 = list_to_set (node_hashes n) ∪ hashes ∧ NoDup (node_hashes n) ∧
  Forall (λ h, ValidTokenHash h = true ∧ h ∉ hashes) (node_hashes n).
Proof.
  intros (-> & Ha)%take_hash_Ok (-> & Hb)%take_hash_Ok. revert Ha Hb. unfold node_hashes. rewrite !filter_cons, !filter_nil.
  repeat case_decide; simpl; rewrite ?Forall_cons, ?Forall_nil; intros; (split; [set_solver|]); (split; [|set_solver]);
    repeat (apply NoDup_cons_2; [set_solver|]); constructor.
Qed.

Lemma nodes_graph_cons state networks g n l g' :
  nodes_graph state networks g (n :: l) = Ok g' →
  node_accepted state networks n ∧ (Node.ID n ∉ dom (Graph.nodes g)) ∧ (node_key networks n ∉ Graph.addresses g) ∧
  NoDup (node_hashes n) ∧ Forall (λ h, ValidTokenHash h = true ∧ h ∉ Graph.hashes g) (node_hashes n) ∧
  nodes_graph state networks
    (Graph.make (<[Node.ID n := n]> (Graph.nodes g)) ({[node_key networks n]} ∪ Graph.addresses g)
       (list_to_set (node_hashes n) ∪ Graph.hashes g)) l = Ok g'.
Proof.
  cbn [nodes_graph]. cbv zeta. open_guards.
  intros (network & Hn & Hid & Hdup & [] & Hc & address & Haddr & Hkey & Ht & h1 & Hh1 & h2 & Hh2 & H). split_bools.
  destruct (node_hashes_Ok _ _ _ _ Hh1 Hh2) as (-> & Hnd & Hnew).
  assert (node_key networks n = address_key (Node.NetworkID n) address) as ->.
  { unfold node_key. rewrite Hn. simpl. by rewrite Haddr. }
  repeat split; try done. exists network, address. repeat split; try done. unfold IsZero in Ht. lia.
Qed.

Lemma nodes_graph_spec state networks l : ∀ g g',
  nodes_graph state networks g l = Ok g' →
  Forall (node_accepted state networks) l ∧ fresh_keys Node.ID (dom (Graph.nodes g)) l ∧
  fresh_keys (node_key networks) (Graph.addresses g) l ∧ NoDup (l ≫= node_hashes) ∧
  Forall (λ h, ValidTokenHash h = true ∧ h ∉ Graph.hashes g) (l ≫= node_hashes) ∧
  indexes Node.ID l (Graph.nodes g) (Graph.nodes g') ∧
  Graph.hashes g' = list_to_set (l ≫= node_hashes) ∪ Graph.hashes g.
Proof.
  induction l as [|n l IH]; intros g g' H.
  - injection H as <-. repeat split; try constructor; set_solver.
  - apply nodes_graph_cons in H as (Ha & Hid & Hkey & Hnd & Hnew & H).
    apply IH in H as (Hall & Hf & Hk & Hnd' & Hnew' & Hm & Hg). simpl in Hf, Hk, Hnew', Hm, Hg.
    split; [by constructor|]. split; [by apply fresh_insert|]. split; [by apply fresh_cons|].
    change ((n :: l) ≫= node_hashes) with (node_hashes n ++ (l ≫= node_hashes)).
    rewrite Forall_forall in Hnew, Hnew'.
    split. { apply NoDup_app. split; [done|]. split; [|done]. intros h Hh Hh'. destruct (Hnew' h Hh') as [_ []]. set_solver. }
    split. { apply Forall_app. split; apply Forall_forall; intros h Hh; [by apply Hnew|].
             destruct (Hnew' h Hh) as [? Hfresh]. split; [done|]. set_solver. }
    split; [by apply indexes_cons|]. rewrite Hg. set_solver.
Qed.

(** *** Enrollments and recoveries *)
Definition enrollment_accepted (nodes : gmap string Node.t) (e : EnrollmentToken.t) : Prop :=
  validPersistedID (EnrollmentToken.ID e) = true ∧ ValidTokenHash (EnrollmentToken.TokenHash e) = true ∧
  EnrollmentToken.CreatedAt e < EnrollmentToken.ExpiresAt e ∧ validatePersistedEnrollmentClaim e = Ok tt ∧
  EnrollmentToken.NodeID e ∈ dom nodes.

Lemma enrollments_graph_spec nodes l : ∀ ids hashes ids' hashes',
  enrollments_graph nodes ids hashes l = Ok (ids', hashes') →
  Forall (enrollment_accepted nodes) l ∧ fresh_keys EnrollmentToken.ID ids l ∧ fresh_keys EnrollmentToken.TokenHash hashes l ∧
  hashes' = list_to_set (EnrollmentToken.TokenHash <$> l) ∪ hashes.
Proof.
  induction l as [|e l IH]; intros ids hashes ids' hashes' H.
  - injection H as <- <-. repeat split; try constructor; set_solver.
  - revert H. cbn [enrollments_graph]. open_guards. intros (Hmeta & [] & Hc & Hn & Hid & Hh & H).
    apply IH in H as (Hall & Hf & Hk & ->). unfold After in Hmeta. split_bools.
    split; [constructor; [|done]|]. { repeat split; try done. lia. }
    split; [by apply fresh_cons|]. split; [by apply fresh_cons|]. set_solver.
Qed.

Section recoveries_spec.
Context `{Crypto}.

(** What the check requires of one recovery record; the sets are those of the
    records before it. *)
Definition recovery_accepted (state : State.t) (networks : gmap string Network.t) (nodes : gmap string Node.t)
    (r : AgentRecoveryToken.t) : Prop :=
  ∃ node, nodes !! AgentRecoveryToken.NodeID r = Some node ∧ Node.Status node = "active" ∧
    recovery_metadata r = Ok tt ∧ recovery_claim r = Ok tt ∧
    match AgentRecoveryToken.UsedAt r with
    | None => unused_recovery r = Ok tt
    | Some used => ∃ network hashes recovered hash, networks !! Node.NetworkID node = Some network ∧
                     used_recovery_checks state node network hashes recovered r used = Ok hash
    end.

Lemma recoveries_graph_spec state networks nodes enrollments l : ∀ ids hashes recovered hashes',
  recoveries_graph state networks nodes enrollments ids hashes recovered l = Ok hashes' →
  Forall (recovery_accepted state networks nodes) l ∧ fresh_keys AgentRecoveryToken.ID ids l ∧
  fresh_keys AgentRecoveryToken.TokenHash hashes l.
Proof.
  induction l as [|r l IH]; intros ids hashes recovered hashes' H0.
  - repeat split; try constructor; set_solver.
  - revert H0. cbn [recoveries_graph]. cbv zeta. open_guards.
    intros ([] & Hmeta & node & Hn & Hs & Hid & He & Hh & [] & Hc & H1). split_bools.
    destruct (AgentRecoveryToken.UsedAt r) as [used|] eqn:Eu.
    + revert H1. open_guards. intros (network & Hnet & hash & Hu & H1). apply IH in H1 as (Hall & Hf & Hk).
      split; [constructor; [|done]|split; by apply fresh_cons].
      exists node. rewrite Eu. repeat split; try done. by eauto 8.
    + revert H1. open_guards. intros ([] & Hu & H1). apply IH in H1 as (Hall & Hf & Hk).
      split; [constructor; [|done]|split; by apply fresh_cons]. exists node. by rewrite Eu.
Qed.
End recoveries_spec.

(** *** The whole state *)

(** The facts of an accepted state that clients use. *)
Definition retained_hashes (state : State.t) : list string :=
  (State.Nodes state ≫= node_hashes) ++ (EnrollmentToken.TokenHash <$> State.Enrollments state) ++
  (AgentRecoveryToken.TokenHash <$> State.AgentRecoveries state).

Record accepted `{Crypto} (state : State.t) (networks : gmap string Network.t) (nodes : gmap string Node.t) : Prop := {
  accepted_version : graph_version state = Ok tt;
  accepted_networks : Forall (network_accepted state) (State.Networks state);
  accepted_network_ids : NoDup (Network.ID <$> State.Networks state);
  accepted_network_names : NoDup (folded_name <$> State.Networks state);
  accepted_disjoint : ForallOrdPairs disjoint_networks (State.Networks state);
  accepted_network_index id : networks !! id = findNetwork state id;
  accepted_nodes : Forall (node_accepted state networks) (State.Nodes state);
  accepted_node_ids : NoDup (Node.ID <$> State.Nodes state);
  accepted_addresses : NoDup (node_key networks <$> State.Nodes state);
  accepted_node_index id : nodes !! id = findNode state id;
  accepted_references : Forall (λ n, network_references state n = Ok tt) (State.Networks state);
  accepted_enrollments : Forall (enrollment_accepted nodes) (State.Enrollments state);
  accepted_recoveries : Forall (recovery_accepted state networks nodes) (State.AgentRecoveries state);
  accepted_hashes : NoDup (retained_hashes state) ∧ Forall (λ h, ValidTokenHash h = true) (retained_hashes state);
  accepted_prefixes : validateReservedIPv4PrefixGraph state = Ok tt;
  accepted_reservations : validateRetiredNetworkReservations state = Ok tt;
  accepted_tombstones : validateArchivedNodeTombstones state = Ok tt }.

Lemma recovery_hash_valid `{Crypto} state networks nodes r :
  recovery_accepted state networks nodes r → ValidTokenHash (AgentRecoveryToken.TokenHash r) = true.
Proof. intros (node & _ & _ & Hm & _). revert Hm. unfold recovery_metadata. open_guards. intros [Hm _]. by split_bools. Qed.

Lemma accepted_state `{Crypto} state : validateStateGraph state = Ok tt → ∃ networks nodes, accepted state networks nodes.
Proof.
  unfold validateStateGraph. open_guards.
  intros ([] & Hv & networks & Hn & g & Hg & [] & Href & [eids hs] & He & H1). revert H1. open_guards.
  intros (hs' & Hr & [] & _ & [] & _ & [] & Hp & [] & _ & [] & Hres & [] & Htomb & _).
  apply networks_graph_spec in Hn as (Hnets & [Hnid _] & [Hnn _] & _ & Hdis & Hnidx).
  apply nodes_graph_spec in Hg as (Hnodes & [Hid _] & [Hkey _] & Hnd & Hval & Hidx & Eg).
  apply enrollments_graph_spec in He as (Henr & _ & [Hend Hen] & Eh). apply recoveries_graph_spec in Hr as (Hrec & _ & [Hrnd Hrn]).
  apply check_all_iff in Href. rewrite Eg in Hen, Eh. subst hs.
  exists networks, (Graph.nodes g). split; try done.
  - intros id. by apply indexes_find.
  - intros id. by apply indexes_find.
  - unfold retained_hashes. rewrite !Forall_app, !Forall_fmap. split.
    + rewrite !NoDup_app. split; [done|]. split; [|split; [done|split; [|done]]].
      * intros h Hh [Hin|Hin]%elem_of_app; apply list_elem_of_fmap in Hin as (x & -> & Hx);
          [specialize (Hen x Hx)|specialize (Hrn x Hx)]; set_solver.
      * intros h Hh Hin. apply list_elem_of_fmap in Hin as (x & -> & Hx). specialize (Hrn x Hx). set_solver.
    + split; [by apply (Forall_impl _ _ _ Hval); intros ? []|].
      split; [by apply (Forall_impl _ _ _ Henr); intros ? (_ & ? & _)|].
      apply (Forall_impl _ _ _ Hrec). intros r. apply recovery_hash_valid.
Qed.

(** A valid hash stands for one secret. *)
Lemma valid_hash_secret h : ValidTokenHash h = true → ∃ s, secret h = Some s ∧ b64_encode s = h.
Proof.
  unfold ValidTokenHash, canonical32, secret. destruct (b64_decode h) as [s|]; [|done]. intros H. split_bools. exists s.
  by rewrite H.
Qed.
Lemma hashes_secrets l : NoDup l → Forall (λ h, ValidTokenHash h = true) l → NoDup (omap secret l).
Proof.
  induction l as [|h l IH]; [constructor|]. rewrite NoDup_cons, Forall_cons. intros [Hin Hnd] [Hh Hl]. simpl.
  destruct (valid_hash_secret h Hh) as (s & Es & Eh). rewrite Es. apply NoDup_cons. split; [|by apply IH].
  intros (h' & Hh' & Es')%list_elem_of_omap. rewrite Forall_forall in Hl. destruct (valid_hash_secret h' (Hl h' Hh')) as (s' & E' & Eb).
  congruence.
Qed.
Lemma node_secrets_hashes n : node_secrets n = omap secret (node_hashes n).
Proof.
  unfold node_secrets, node_hashes. assert (secret "" = None) as E by reflexivity.
  rewrite !filter_cons, !filter_nil.
  destruct (decide (Node.AgentTokenHash n = "")) as [Ea|], (decide (Node.PreviousAgentTokenHash n = "")) as [Ep|];
    rewrite ?Ea, ?Ep; repeat case_decide; try done; cbn [omap list_omap]; by rewrite ?E.
Qed.
Lemma omap_fmap_compose {A B C} (f : B → option C) (g : A → B) (l : list A) : omap f (g <$> l) = omap (λ x, f (g x)) l.
Proof. induction l as [|x l IH]; [done|]. cbn. by rewrite IH. Qed.
Lemma secrets_hashes state : secrets state = omap secret (retained_hashes state).
Proof.
  unfold secrets, retained_hashes. rewrite !omap_app, !omap_fmap_compose. f_equal.
  induction (State.Nodes state) as [|n l IH]; [done|]. rewrite !bind_cons, omap_app, IH. by rewrite node_secrets_hashes.
Qed.
