(* ===== verification/Store.v ===== *)
(** * The store (internal/control/store.go)

    The store holds the state in memory and in a file that it replaces by an
    atomic rename.  The rename is durable once the directory has been synced; when
    that fails the store keeps the new state, and lets no read and no update
    through until a retry succeeds.

    A transaction runs on a clone of the state.  The clone shares the arrays of the
    rollouts' canaries with the committed state, so a transaction that removes a
    canary in place writes to the committed state before it is known whether it
    commits. *)
From S2P Require Import Prelude GoStd Model FirewallRollout StateGraph SignedConfig.
Open Scope Z_scope.

(** [reflect.DeepEqual] on states. *)
#[export] Instance detail_eq_dec : EqDecision detail.
Proof.
  refine (fix go (a b : detail) {struct a} : Decision (a = b) :=
    match a, b with
    | DNull, DNull => left eq_refl
    | DBool x, DBool y => cast_if (decide (x = y))
    | DInt x, DInt y => cast_if (decide (x = y))
    | DString x, DString y => cast_if (decide (x = y))
    | DTime x, DTime y => cast_if (decide (x = y))
    | DNumber x, DNumber y => cast_if (decide (x = y))
    | DOther, DOther => left eq_refl
    | DArray x, DArray y => cast_if (@list_eq_dec _ go x y)
    | DObject x, DObject y => cast_if (@list_eq_dec _ (@prod_eq_dec _ _ _ go) x y)
    | _, _ => right _
    end); clear go; abstract congruence.
Defined.
#[export] Instance event_eq_dec : EqDecision AuditEvent.t.
Proof. solve_decision. Defined.
#[export] Instance state_eq_dec : EqDecision State.t.
Proof. solve_decision. Defined.

(** ** Clones (cloneState) *)

(** [append([]T(nil), s...)]: an empty slice becomes nil. *)
Definition append_nil {A} (s : slice A) : slice A := match s with Some [] => None | _ => s end.
(** [slices.Clone] and cloneFirewallRules keep nil and empty apart: the copy reads
    the same.  The canaries and the target policy of a rollout are not copied. *)
Definition slices_Clone {A} (s : slice A) : slice A := match s with None => None | Some l => Some l end.
Definition cloneFirewallPolicy (p : FirewallPolicy.t) : FirewallPolicy.t :=
  p <| FirewallPolicy.Inbound := slices_Clone (FirewallPolicy.Inbound p) |> <| FirewallPolicy.Outbound := slices_Clone (FirewallPolicy.Outbound p) |>.
Definition cloneNetworkRelaySettings (r : NetworkRelaySettings.t) : NetworkRelaySettings.t :=
  r <| NetworkRelaySettings.RelayNodeIDs := slices_Clone (NetworkRelaySettings.RelayNodeIDs r) |>.
Definition cloneNetworkRouteTransfer (v : NetworkRouteTransfer.t) : NetworkRouteTransfer.t :=
  v <| NetworkRouteTransfer.RoutedSubnets := slices_Clone (NetworkRouteTransfer.RoutedSubnets v) |>
    <| NetworkRouteTransfer.SourceOriginalSubnets := slices_Clone (NetworkRouteTransfer.SourceOriginalSubnets v) |>
    <| NetworkRouteTransfer.TargetOriginalSubnets := slices_Clone (NetworkRouteTransfer.TargetOriginalSubnets v) |>.
Definition cloneNetworkRouteProfileEdit (v : NetworkRouteProfileEdit.t) : NetworkRouteProfileEdit.t :=
  v <| NetworkRouteProfileEdit.OriginalSubnets := slices_Clone (NetworkRouteProfileEdit.OriginalSubnets v) |>
    <| NetworkRouteProfileEdit.DesiredSubnets := slices_Clone (NetworkRouteProfileEdit.DesiredSubnets v) |>.
Definition cloneNetworkRoutePolicies (values : slice NetworkRoutePolicy.t) : slice NetworkRoutePolicy.t :=
  match values with
  | None => None
  | Some l => Some ((λ v, v <| NetworkRoutePolicy.Gateways := NetworkRoutePolicy.Gateways v |>) <$> l)
  end.
Definition clone_network (n : Network.t) : Network.t :=
  n <| Network.FirewallPolicy := cloneFirewallPolicy (Network.FirewallPolicy n) |>
    <| Network.RelaySettings := cloneNetworkRelaySettings (Network.RelaySettings n) |>
    <| Network.RouteTransfer := cloneNetworkRouteTransfer (Network.RouteTransfer n) |>
    <| Network.RouteProfileEdit := cloneNetworkRouteProfileEdit (Network.RouteProfileEdit n) |>
    <| Network.RoutePolicies := cloneNetworkRoutePolicies (Network.RoutePolicies n) |>.
Definition clone_node (n : Node.t) : Node.t := n <| Node.RoutedSubnets := append_nil (Node.RoutedSubnets n) |>.
Definition clone_recovery (r : AgentRecoveryToken.t) : AgentRecoveryToken.t :=
  r <| AgentRecoveryToken.Result :=
    (λ result, let bundle := AgentRecoveryBundle.Bundle result in
       result <| AgentRecoveryBundle.Bundle := bundle <| EnrollmentBundle.Node := clone_node (EnrollmentBundle.Node bundle) |> |>)
    <$> AgentRecoveryToken.Result r |>.
(** A value of a type that the switch does not name has no copy. *)
Fixpoint cloneAuditDetailValue (value : detail) : result detail :=
  match value with
  | DObject l =>
      cloned ← (fix go l := match l with
                 | [] => Ok []
                 | (key, child) :: rest => copy ← cloneAuditDetailValue child; copies ← go rest; Ok ((key, copy) :: copies)
                 end) l;
      Ok (DObject cloned)
  | DArray l =>
      cloned ← (fix go l := match l with
                 | [] => Ok []
                 | child :: rest => copy ← cloneAuditDetailValue child; copies ← go rest; Ok (copy :: copies)
                 end) l;
      Ok (DArray cloned)
  | DOther => Err (ErrOther "unsupported detail type")
  | _ => Ok value
  end.
Fixpoint cloneAuditDetails (details : list (string * detail)) : result (list (string * detail)) :=
  match details with
  | [] => Ok []
  | (key, value) :: rest => copy ← cloneAuditDetailValue value; copies ← cloneAuditDetails rest; Ok ((key, copy) :: copies)
  end.
Definition clone_event (event : AuditEvent.t) : result AuditEvent.t :=
  match AuditEvent.Details event with
  | None => Ok event
  | Some details => cloned ← cloneAuditDetails details; Ok (event <| AuditEvent.Details := Some cloned |>)
  end.
Fixpoint clone_audit (events : list AuditEvent.t) : result (list AuditEvent.t) :=
  match events with
  | [] => Ok []
  | event :: rest => copy ← clone_event event; copies ← clone_audit rest; Ok (copy :: copies)
  end.
Definition cloneState (state : State.t) : result State.t :=
  audit ← clone_audit (State.Audit state);
  Ok (state <| State.Networks := clone_network <$> State.Networks state |> <| State.Nodes := clone_node <$> State.Nodes state |>
            <| State.AgentRecoveries := clone_recovery <$> State.AgentRecoveries state |> <| State.Audit := audit |>).

(** ** The arrays that a clone shares *)
Definition canaries_of (n : Network.t) : slice string := NetworkFirewallRollout.CanaryNodeIDs (Network.FirewallRollout n).
Definition with_canaries (c : slice string) (n : Network.t) : Network.t :=
  n <| Network.FirewallRollout := Network.FirewallRollout n <| NetworkFirewallRollout.CanaryNodeIDs := c |> |>.
(** The canaries of every network, as the slices of a state read them. *)
Definition shared (state : State.t) : list (slice string) := canaries_of <$> State.Networks state.
(** Whether a slice of the clone has an array of its own or the one of the slice that
    it was copied from.  cloneState copies the networks as structs, which copies
    slices with their arrays, and then replaces the slices of five fields of each
    network by copies with new arrays; FirewallRollout is none of the five. *)
Inductive backing := NewArray | SameArray.
Definition canaries_backing (n : Network.t) : backing := SameArray.
(** A network of the original state once the clone's array holds these canaries. *)
Definition seen_canaries (c : slice string) (n : Network.t) : Network.t :=
  match canaries_backing n with NewArray => n | SameArray => with_canaries c n end.
Definition written (arrays : list (slice string)) (state : State.t) : State.t :=
  state <| State.Networks := zip_with seen_canaries arrays (State.Networks state) |>.

(** A transaction is given the clone.  It leaves the arrays of the clone's canaries
    in some state, and fails or ends with the next state. *)
Definition transaction : Type := State.t → list (slice string) * result State.t.
(** One that writes to none of these arrays. *)
Definition plain (f : State.t → result State.t) : transaction := λ state, (shared state, f state).

(** [slices.DeleteFunc]: the elements kept move to the front, and the rest of the
    slice is cleared; a slice of the old length reads all of it. *)
Definition delete_in_place (nodeID : string) (l : list string) : list string :=
  let kept := filter (λ id, id ≠ nodeID) l in kept ++ replicate (length l - length kept) "".
(** The removal of a canary by a revocation, as the committed state sees it. *)
Definition canary_of (version : Z) (nodeID : string) (n : Network.t) : bool :=
  let rollout := Network.FirewallRollout n in
  (ControlStateVersionFirewallRollout <=? version)
  && ((NetworkFirewallRollout.Phase rollout == FirewallRolloutPhaseCanary)
      || (NetworkFirewallRollout.Phase rollout == FirewallRolloutPhasePaused))
  && contains (elems (NetworkFirewallRollout.CanaryNodeIDs rollout)) nodeID.
Definition removed_in_place (version : Z) (networkID nodeID : string) (n : Network.t) : slice string :=
  if (Network.ID n == networkID) && canary_of version nodeID n
  then Some (delete_in_place nodeID (elems (canaries_of n))) else canaries_of n.
Definition removal (networkID nodeID : string) (state : State.t) : list (slice string) :=
  removed_in_place (State.Version state) networkID nodeID <$> State.Networks state.

(** ** The store and its disk *)
Module Store.
Record t := make {
  state : State.t;
  opened : bool;             (* [lock] is not nil *)
  durabilityPending : bool;
  file : State.t;            (* the file as a process reads it *)
  synced : State.t }.        (* the file of the last directory sync *)
#[global] Instance t_eta : Eta t := λ r, make (state r) (opened r) (durabilityPending r) (file r) (synced r).
End Store.

(** What the file system does with a write: an error before the rename (which
    leaves the file), a rename whose directory sync fails, or success. *)
Inductive write := WriteFails (msg : string) | WriteUnsynced | WriteSynced.

Definition persistLocked (w : write) (s : Store.t) : Store.t * result unit :=
  match w with
  | WriteFails msg => (s, Err (ErrOther msg))
  | WriteUnsynced => (s <| Store.file := Store.state s |>, Err ErrUncertainCommit)
  | WriteSynced => (s <| Store.file := Store.state s |> <| Store.synced := Store.state s |>, Ok tt)
  end.

(** [sync] says whether syncing the directory succeeds. *)
Definition ensureDurableLocked (sync : bool) (s : Store.t) : Store.t * result unit :=
  if negb (Store.durabilityPending s) then (s, Ok tt)
  else if sync then (s <| Store.synced := Store.file s |> <| Store.durabilityPending := false |>, Ok tt)
  else (s, Err ErrUncertainCommit).

Definition CheckReadiness (sync : bool) (s : Store.t) : Store.t * result unit :=
  if negb (Store.opened s) then (s, Err ErrClosed) else ensureDurableLocked sync s.
Definition ensureDurable (sync : bool) (s : Store.t) : Store.t * result unit :=
  if negb (Store.opened s) then (s, Err ErrClosed) else ensureDurableLocked sync s.

(** The error of the sync is reported; the lock is released all the same. *)
Definition Close (sync : bool) (s : Store.t) : Store.t * result unit :=
  if negb (Store.opened s) then (s, Ok tt)
  else let '(s, durability) := ensureDurableLocked sync s in (s <| Store.opened := false |>, durability).

(** One round of the loops of View and readCurrent: [None] goes round again.  The
    lock is not held between the rounds. *)
Definition view_round (sync : bool) (s : Store.t) : Store.t * option (result State.t) :=
  if negb (Store.opened s) then (s, Some (Err ErrClosed))
  else if negb (Store.durabilityPending s) then (s, Some (Ok (Store.state s)))
  else match ensureDurable sync s with
       | (s, Ok _) => (s, None)
       | (s, Err e) => (s, Some (Err e))
       end.

Section store.
Context `{Crypto}.

Definition commit (w : write) (next : State.t) (s : Store.t) : Store.t * result unit :=
  match validateStateGraph next with
  | Err e => (s, Err e)
  | Ok _ =>
      if decide (next = Store.state s) then (s, Ok tt)
      else
        let previous := Store.state s in
        match persistLocked w (s <| Store.state := next |>) with
        | (s, Ok _) => (s, Ok tt)
        | (s, Err ErrUncertainCommit) => (s <| Store.durabilityPending := true |>, Err ErrUncertainCommit)
        | (s, Err e) => (s <| Store.state := previous |>, Err e)
        end
  end.
Definition Update (sync : bool) (w : write) (fn : transaction) (s : Store.t) : Store.t * result unit :=
  if negb (Store.opened s) then (s, Err ErrClosed)
  else match ensureDurableLocked sync s with
  | (s, Err e) => (s, Err e)
  | (s, Ok _) =>
      match cloneState (Store.state s) with
      | Err e => (s, Err e)
      | Ok clone =>
          let '(arrays, r) := fn clone in
          let s := s <| Store.state := written arrays (Store.state s) |> in
          match r with
          | Err e => (s, Err e)
          | Ok next => commit w next s
          end
      end
  end.

(** Opening reads the file that is there, or writes a new one. *)
Definition OpenStore (file : State.t) (synced : State.t) : result Store.t :=
  fail (ErrOther "unsupported store version") when negb (contains supported_versions (State.Version file));;
  _ ← validateStateGraph file;
  Ok (Store.make file true false file synced).
Definition initial_state : State.t := State.zero <| State.Version := 1 |>.
Definition create_store (w : write) (before : State.t) : result Store.t :=
  match persistLocked w (Store.make initial_state true false before before) with
  | (s, Ok _) => Ok s
  | (_, Err e) => Err e
  end.

(** A power failure leaves the last synced file, or the one renamed since; the
    machine then starts from it with an empty cache. *)
Definition survives (s : Store.t) (x : State.t) : Prop := x = Store.file s ∨ x = Store.synced s.

(** ** Runs of one process *)

(** What the transactions of the service do with the shared arrays: nothing, or the
    removal of one canary. *)
Definition tidy (fn : transaction) : Prop :=
  ∀ state, (fn state).1 = shared state ∨ ∃ networkID nodeID, (fn state).1 = removal networkID nodeID state.

Inductive store_step : Store.t → Store.t → Prop :=
  | step_update sync w fn s : tidy fn → store_step s (Update sync w fn s).1
  | step_view sync s : store_step s (view_round sync s).1
  | step_ready sync s : store_step s (CheckReadiness sync s).1
  | step_close sync s : store_step s (Close sync s).1
  | step_power x s s' : survives s x → OpenStore x x = Ok s' → store_step s s'.

(** Two states that differ in their canaries at most; a state in which a rollout
    in progress has a cleared canary. *)
Definition forget_canaries (state : State.t) : State.t := state <| State.Networks := with_canaries None <$> State.Networks state |>.
Definition agree (a b : State.t) : Prop := forget_canaries a = forget_canaries b.
Definition cleared (state : State.t) : Prop :=
  ControlStateVersionFirewallRollout ≤ State.Version state ∧
  ∃ n, n ∈ State.Networks state ∧ NetworkFirewallRollout.Phase (Network.FirewallRollout n) ≠ "" ∧ "" ∈ elems (canaries_of n).
(** Equal, or the second lost a canary that the first has. *)
Definition damages (a b : State.t) : Prop := b = a ∨ agree b a ∧ cleared b.

#[local] Instance agree_equivalence : Equivalence agree.
Proof. unfold agree. split; [done|by intros ??|]. intros ???. congruence. Qed.

(** What holds between two calls: the file was accepted, the memory holds what is
    in the file unless a canary has been cleared, and unless the store knows that it
    waits for the sync, the file has been synced. *)
Record store_ok (s : Store.t) : Prop := {
  ok_file : damages (Store.file s) (Store.state s);
  ok_accepted : validateStateGraph (Store.file s) = Ok tt;
  ok_synced_accepted : validateStateGraph (Store.synced s) = Ok tt;
  ok_durable : Store.durabilityPending s = false → Store.synced s = Store.file s }.

Lemma delete_in_place_length nodeID l : length (delete_in_place nodeID l) = length l.
Proof. unfold delete_in_place. cbv zeta. rewrite length_app, length_replicate. pose proof (length_filter (λ id, id ≠ nodeID) l). lia. Qed.
Lemma deleted_in_place nodeID l : nodeID ∈ l → "" ∈ delete_in_place nodeID l.
Proof.
  intros Hin. apply elem_of_app. right. apply elem_of_replicate. split; [done|].
  enough (length (filter (λ id, id ≠ nodeID) l) < length l)%nat by lia. apply (length_filter_lt _ _ nodeID); [done|]. naive_solver.
Qed.
Lemma with_own_canaries n : with_canaries (canaries_of n) n = n.
Proof. destruct n as [? ? ? ? ? ? [] ]. reflexivity. Qed.
Lemma written_shared state : written (shared state) state = state.
Proof.
  unfold written, shared. rewrite zip_with_fmap_l, zip_with_diag.
  rewrite (list_fmap_ext _ id), list_fmap_id by (intros; apply with_own_canaries). by destruct state.
Qed.
Lemma written_removal networkID nodeID state :
  State.Networks (written (removal networkID nodeID state) state) =
  (λ n, with_canaries (removed_in_place (State.Version state) networkID nodeID n) n) <$> State.Networks state.
Proof. unfold written, removal. simpl. by rewrite zip_with_fmap_l, zip_with_diag. Qed.
Lemma canary_phase version nodeID n : canary_of version nodeID n = true →
  ControlStateVersionFirewallRollout ≤ version ∧ NetworkFirewallRollout.Phase (Network.FirewallRollout n) ≠ "" ∧
  nodeID ∈ elems (canaries_of n).
Proof.
  unfold canary_of. cbv zeta. intros Hc. apply andb_prop in Hc as [Hc Hin]. apply andb_prop in Hc as [Hv Hp]. split; [lia|].
  split; [|by apply contains_true in Hin]. intros E. rewrite E in Hp. by vm_compute in Hp.
Qed.
(** A canary removed in place is a cleared canary of the committed state. *)
Lemma removal_clears networkID nodeID state n : n ∈ State.Networks state →
  Network.ID n = networkID → canary_of (State.Version state) nodeID n = true → cleared (written (removal networkID nodeID state) state).
Proof.
  intros Hn HID Hc. destruct (canary_phase _ _ _ Hc) as (Hv & Hp & Hin). split; [done|].
  exists (with_canaries (removed_in_place (State.Version state) networkID nodeID n) n).
  rewrite written_removal. split; [apply list_elem_of_fmap; by exists n|]. split; [done|].
  unfold removed_in_place. rewrite (bool_decide_eq_true_2 _ HID), Hc. simpl. by apply deleted_in_place.
Qed.
Lemma removal_damages networkID nodeID state : damages state (written (removal networkID nodeID state) state).
Proof.
  destruct (existsb (λ n, (Network.ID n == networkID) && canary_of (State.Version state) nodeID n) (State.Networks state)) eqn:E.
  - right. split.
    + unfold agree, forget_canaries. rewrite written_removal. simpl. rewrite <- list_fmap_compose. by destruct state.
    + apply existsb_exists in E as (n & Hn & Hb). apply andb_prop in Hb as [HID Hc]. apply bool_decide_eq_true in HID.
      apply (removal_clears _ _ _ n); [by apply list_elem_of_In|done..].
  - left. rewrite <- (written_shared state) at 3. f_equal. unfold removal, shared. apply list_fmap_ext. intros i n Hn.
    unfold removed_in_place. assert ((Network.ID n == networkID) && canary_of (State.Version state) nodeID n = false) as ->; [|done].
    apply not_true_is_false. intros Ht. apply not_true_iff_false in E. apply E. apply existsb_exists. exists n. split; [|done].
    apply list_elem_of_In. by apply list_elem_of_lookup_2 with i.
Qed.
(** The clone reads the same but for its empty slices. *)
Lemma clone_network_reads n : clone_network n = n.
Proof.
  assert (∀ {A} (l : slice A), slices_Clone l = l) as Hc by (by intros A [l|]). unfold clone_network, cloneFirewallPolicy,
    cloneNetworkRelaySettings, cloneNetworkRouteTransfer, cloneNetworkRouteProfileEdit, cloneNetworkRoutePolicies.
  destruct n as [? ? ? ? [] ? ? [] [] policies []]. simpl. rewrite !Hc. f_equal. destruct policies as [l|]; [|done]. f_equal.
  rewrite <- (list_fmap_id l) at 2. apply list_fmap_ext. by intros _ [] _.
Qed.
Lemma clone_shares state clone : cloneState state = Ok clone → shared clone = shared state ∧ State.Version clone = State.Version state ∧
  State.Networks clone = State.Networks state.
Proof.
  unfold cloneState. intros (audit & _ & [= <-])%bind_Ok. unfold shared. simpl.
  rewrite (list_fmap_ext _ id), list_fmap_id by (intros; apply clone_network_reads). done.
Qed.
(** A transaction on the clone damages the committed state at most by clearing canaries. *)
Lemma tidy_damages fn state clone : tidy fn → cloneState state = Ok clone → damages state (written (fn clone).1 state).
Proof.
  intros Ht (Hs & Hv & Hn)%clone_shares. destruct (Ht clone) as [->|(networkID & nodeID & ->)].
  - left. rewrite Hs. apply written_shared.
  - assert (removal networkID nodeID clone = removal networkID nodeID state) as -> by (unfold removal; by rewrite Hv, Hn).
    apply removal_damages.
Qed.


(** The check refuses a state in which a rollout in progress has a cleared canary. *)
Lemma cleared_refused state : cleared state → validateStateGraph state ≠ Ok tt.
Proof.
  intros (Hver & n & Hn & Hphase & Hin) (networks & nodes & Hacc)%accepted_state.
  pose proof (accepted_networks _ _ _ Hacc) as Hall. rewrite Forall_forall in Hall. destruct (Hall n Hn) as (_ & _ & Hc).
  revert Hc. unfold network_checks. cbv zeta. open_guards.
  intros (_ & _ & _ & [] & _ & [] & _ & _ & [] & _ & [] & _ & [] & _ & [] & Hro & _). unfold since in Hro.
  destruct (Z.ltb_spec (State.Version state) ControlStateVersionFirewallRollout); [lia|].
  unfold validateNetworkFirewallRollout in Hro. cbv zeta in Hro. rewrite (bool_decide_eq_false_2 _ Hphase) in Hro. revert Hro.
  open_guards. intros (_ & _ & _ & _ & _ & [] & _ & [] & _ & _ & _ & _ & Hcan). apply validate_canaries_iff in Hcan as (Hid & _).
  rewrite forallb_forall in Hid. apply list_elem_of_In in Hin. by specialize (Hid _ Hin).
Qed.
Lemma damages_accepted a b : damages a b → validateStateGraph b = Ok tt → b = a.
Proof. intros [->|[_ Hc]] Hv; [done|]. by apply cleared_refused in Hc. Qed.
Lemma damages_trans a b c : damages a b → damages b c → damages a c.
Proof.
  unfold damages. intros [->|[Hab Hb]] [->|[Hbc Hc]]; [by left|by right|by right|]. right. split; [|done]. by rewrite Hbc.
Qed.

Lemma ensure_spec sync s s' r :
  ensureDurableLocked sync s = (s', r) → store_ok s →
  store_ok s' ∧ Store.state s' = Store.state s ∧ Store.file s' = Store.file s ∧ Store.opened s' = Store.opened s ∧
  (r = Ok tt ∧ Store.durabilityPending s' = false ∨ r = Err ErrUncertainCommit ∧ Store.durabilityPending s' = true).
Proof.
  unfold ensureDurableLocked. destruct (Store.durabilityPending s) eqn:Ep; [destruct sync|]; simpl; intros [= <- <-] Hok;
    (split; [|split; [done|split; [done|split; [done|naive_solver]]]]); [|done..].
  destruct Hok as [Ef Ha Hs Hd]. by split.
Qed.

(** The outcomes of a commit. *)
Lemma commit_spec w next s s' r :
  commit w next s = (s', r) → store_ok s → Store.durabilityPending s = false →
  store_ok s' ∧
  (r = Ok tt ∧ Store.durabilityPending s' = false ∧ next = Store.state s' ∧ Store.file s' = Store.state s' ∨
   r = Err ErrUncertainCommit ∧ Store.durabilityPending s' = true ∧ next = Store.state s' ∧ Store.file s' = Store.state s' ∨
   (∃ e, r = Err e) ∧ Store.state s' = Store.state s ∧ Store.file s' = Store.file s).
Proof.
  unfold commit. destruct (validateStateGraph next) as [[]|e] eqn:Hv; [|intros [= <- <-]; naive_solver].
  case_decide as En.
  { intros [= <- <-] Hok Hp. split; [done|]. left. split_and!; [done..|]. symmetry. apply damages_accepted; [apply Hok|congruence]. }
  destruct w; simpl; intros [= <- <-] [Ef Ha Hs Hd] Hp; specialize (Hd Hp); (split; [|]); simpl; try (right; right; simpl; by eauto).
  - split; simpl; [done|done|done|auto].
  - split; simpl; [by left|done|done|done].
  - right; left. done.
  - split; simpl; [by left|done|done|done].
  - left. done.
Qed.

(** The outcomes of an update: the transaction happened and is synced; it happened
    and waits for the sync; or nothing changed but the canaries that it cleared. *)
Lemma update_spec sync w fn s s' r :
  Update sync w fn s = (s', r) → tidy fn → store_ok s →
  store_ok s' ∧
  ((∃ clone, cloneState (Store.state s) = Ok clone ∧ (fn clone).2 = Ok (Store.state s')) ∧ Store.file s' = Store.state s' ∧
     (r = Ok tt ∧ Store.durabilityPending s' = false ∨ r = Err ErrUncertainCommit ∧ Store.durabilityPending s' = true) ∨
   (∃ e, r = Err e) ∧ damages (Store.state s) (Store.state s') ∧ Store.file s' = Store.file s).
Proof.
  unfold Update. destruct (Store.opened s); simpl; [|intros [= <- <-]; unfold damages; naive_solver].
  destruct (ensureDurableLocked sync s) as [s1 r1] eqn:He. intros Hu Ht Hok.
  destruct (ensure_spec _ _ _ _ He Hok) as (Hok1 & Est & Efile & _ & [[-> Hp]|[-> Hp]]);
    [|injection Hu as <- <-; split; [done|]; right; rewrite Est, Efile; unfold damages; eauto].
  rewrite Est in Hu. destruct (cloneState (Store.state s)) as [clone|e] eqn:Hc;
    [|injection Hu as <- <-; split; [done|]; right; rewrite Est, Efile; unfold damages; eauto].
  pose proof (tidy_damages fn _ _ Ht Hc) as Hd. destruct (fn clone) as [arrays r'] eqn:Hfn. simpl in Hd.
  assert (store_ok (s1 <| Store.state := written arrays (Store.state s) |>)) as Hok2.
  { destruct Hok1 as [Ef Ha Hs Hdur]. split; simpl; [|done..]. rewrite Est in Ef. by apply damages_trans with (Store.state s). }
  destruct r' as [next|e]; [|injection Hu as <- <-; split; [done|]; right; simpl; eauto].
  destruct (commit_spec _ _ _ _ _ Hu Hok2 Hp) as (Hok' & [(-> & Hp' & -> & Ef')|[(-> & Hp' & -> & Ef')|[He' [E1 E2]]]]); (split; [done|]).
  - left. split; [exists clone; by rewrite Hfn|]. auto.
  - left. split; [exists clone; by rewrite Hfn|]. auto.
  - right. rewrite E1, E2. auto.
Qed.

(** An update that returns nil ran a transaction to a state that is accepted. *)
Lemma update_accepted sync w fn s s' :
  Update sync w fn s = (s', Ok tt) →
  ∃ clone next, cloneState (Store.state s) = Ok clone ∧ (fn clone).2 = Ok next ∧ validateStateGraph next = Ok tt.
Proof.
  unfold Update, commit. destruct (Store.opened s); simpl; [|done].
  assert (Store.state (ensureDurableLocked sync s).1 = Store.state s) as E.
  { unfold ensureDurableLocked. by destruct (Store.durabilityPending s), sync. }
  destruct (ensureDurableLocked sync s) as [s1 [[]|e]]; [|done]. simpl in E. rewrite E.
  destruct (cloneState (Store.state s)) as [clone|]; [|done]. destruct (fn clone) as [arrays [next|]] eqn:Hfn; [|done].
  destruct (validateStateGraph next) as [[]|] eqn:Hv; [|done]. exists clone, next. by rewrite Hfn.
Qed.

Lemma view_spec sync s s' r :
  view_round sync s = (s', r) → store_ok s →
  store_ok s' ∧ Store.state s' = Store.state s ∧ Store.file s' = Store.file s ∧
  (∀ x, r = Some (Ok x) → x = Store.state s' ∧ Store.durabilityPending s' = false).
Proof.
  unfold view_round, ensureDurable. destruct (Store.opened s) eqn:Eo; simpl; [|intros [= <- <-]; naive_solver].
  destruct (Store.durabilityPending s) eqn:Ep; simpl; [|intros [= <- <-]; naive_solver].
  destruct (ensureDurableLocked sync s) as [s1 r1] eqn:He. intros Hv Hok.
  destruct (ensure_spec _ _ _ _ He Hok) as (Hok1 & Est & Ef & _ & [[-> Hp]|[-> Hp]]); injection Hv as <- <-; naive_solver.
Qed.

Lemma store_step_ok s s' : store_step s s' → store_ok s → store_ok s'.
Proof.
  intros Hs Hok. destruct Hs as [sync w fn s Ht|sync s|sync s|sync s|x s s' Hx Ho].
  - destruct (Update sync w fn s) as [s' r] eqn:E. by destruct (update_spec _ _ _ _ _ _ E Ht Hok).
  - destruct (view_round sync s) as [s' r] eqn:E. by destruct (view_spec _ _ _ _ E Hok).
  - unfold CheckReadiness. destruct (Store.opened s); simpl; [|done].
    destruct (ensureDurableLocked sync s) as [s' r] eqn:E. by destruct (ensure_spec _ _ _ _ E Hok).
  - unfold Close. destruct (Store.opened s); simpl; [|done].
    destruct (ensureDurableLocked sync s) as [s' r] eqn:E. destruct (ensure_spec _ _ _ _ E Hok) as ([? ? ? ?] & _). by split.
  - revert Ho. unfold OpenStore. open_guards. intros (_ & [] & Hv & [= <-]). split; simpl; [by left|done..].
Qed.

Lemma store_run_ok s s' : rtc store_step s s' → store_ok s → store_ok s'.
Proof. induction 1; eauto using store_step_ok. Qed.

Lemma synced_survives s x : store_ok s → Store.durabilityPending s = false → survives s x → x = Store.file s.
Proof. intros [_ _ _ Hd] Hp [->| ->]; auto. Qed.

(** C4: what the store has acknowledged survives a power failure.  In every store
    reached by updates, reads, closing and power failures, where the transactions
    write into the arrays shared with the committed state at most by removing a
    canary, as those of the service do:
    (1) when an update returns nil, its transaction ran on a clone of the state and
    the state it ended with is the only one a power failure can leave;
    (2) what a read returns is the only state a power failure can leave, unless a
    rollout in it has a canary that a failed transaction cleared; the two then
    differ in canaries only;
    (3) an update that returns an error has changed nothing on disk, and nothing in
    memory but canaries that its transaction cleared, unless the commit is uncertain
    and the store knows it.
    (A process restarted without a power failure is no step here:
    [restart_serves_unsynced].) *)
Theorem acknowledged_states_survive s0 s :
  store_ok s0 → rtc store_step s0 s →
  (∀ sync w fn s', tidy fn → Update sync w fn s = (s', Ok tt) →
     (∃ clone, cloneState (Store.state s) = Ok clone ∧ (fn clone).2 = Ok (Store.state s')) ∧ ∀ x, survives s' x → x = Store.state s') ∧
  (∀ sync s' x, view_round sync s = (s', Some (Ok x)) → x = Store.state s ∧ ∀ y, survives s' y → x = y ∨ agree x y ∧ cleared x) ∧
  (∀ sync w fn s' e, tidy fn → Update sync w fn s = (s', Err e) →
     Store.file s' = Store.file s ∧ (Store.state s' = Store.state s ∨ agree (Store.state s') (Store.state s) ∧ cleared (Store.state s')) ∨
     e = ErrUncertainCommit ∧ Store.durabilityPending s' = true ∧
     ∃ clone, cloneState (Store.state s) = Ok clone ∧ (fn clone).2 = Ok (Store.state s')).
Proof.
  intros Hok0 Hrun. pose proof (store_run_ok _ _ Hrun Hok0) as Hok. split; [|split].
  - intros sync w fn s' Ht Hu.
    destruct (update_spec _ _ _ _ _ _ Hu Ht Hok) as (Hok' & [(Hfn & Ef & [[_ Hp]|[[=] _]])|[[e [=]] _]]).
    split; [done|]. intros x Hx. rewrite <- Ef. by apply synced_survives.
  - intros sync s' x Hv. destruct (view_spec _ _ _ _ Hv Hok) as (Hok' & Est & Ef & Hx). destruct (Hx x eq_refl) as [-> Hp].
    split; [done|]. intros y Hy. apply (synced_survives s') in Hy as ->; [|done..]. apply (ok_file _ Hok').
  - intros sync w fn s' e Ht Hu. destruct (update_spec _ _ _ _ _ _ Hu Ht Hok) as (_ & [(Hfn & _ & [[[=] _]|[[= ->] Hp]])|(_ & Hd & Ef)]); auto.
Qed.

(** While the directory is not synced the store waits: a sync that succeeds lets
    the next round of a read through. *)
Lemma read_after_sync sync s s' :
  store_ok s → Store.opened s = true → Store.durabilityPending s = true → view_round true s = (s', None) →
  view_round sync s' = (s', Some (Ok (Store.state s))).
Proof.
  intros Hok Ho Hp. unfold view_round at 1, ensureDurable, ensureDurableLocked. rewrite Ho, Hp. simpl. intros [= <-].
  unfold view_round. simpl. by rewrite Ho.
Qed.

(** Opening the file does not sync the directory: a store opened again after an
    uncertain commit serves a state that a power failure can take back. *)
Lemma restart_serves_unsynced sync s :
  store_ok s → Store.durabilityPending s = true → Store.synced s ≠ Store.file s →
  ∃ s', OpenStore (Store.file s) (Store.synced s) = Ok s' ∧ view_round sync s' = (s', Some (Ok (Store.file s))) ∧
    ∃ x, survives s' x ∧ x ≠ Store.file s.
Proof.
  intros [_ Ha Hs _] _ Hne. exists (Store.make (Store.file s) true false (Store.file s) (Store.synced s)).
  split; [|split; [done|by exists (Store.synced s); split; [right|]]].
  unfold OpenStore. rewrite Ha.
  assert (contains supported_versions (State.Version (Store.file s)) = true) as ->; [|done].
  revert Ha. unfold validateStateGraph, graph_version. open_guards. intros ([] & (Hv & _) & _). by split_bools.
Qed.
Lemma plain_tidy f : tidy (plain f).
Proof. intros state. by left. Qed.
End store.

(** ** Example: a new store, and the first binding of its credentials *)
Definition verifier (n : Z) : string := "v1:" +:+ b64_encode (replicate 32 n).
Definition bind_credentials (state : State.t) : result State.t :=
  Ok (state <| State.Version := ControlStateVersionCredentialBinding |> <| State.MasterKeyVerifier := verifier 3 |>
            <| State.AdminCredentialVerifier := verifier 4 |>).
Definition new_store : Store.t := Store.make initial_state true false initial_state initial_state.
Definition unsynced_store : Store.t := (@Update toy_crypto true WriteUnsynced (plain bind_credentials) new_store).1.

Lemma new_store_ok : @store_ok toy_crypto new_store.
Proof. split; [by left|by vm_compute..]. Qed.
Lemma unsynced_run : rtc (@store_step toy_crypto) new_store unsynced_store.
Proof. apply rtc_once. apply (@step_update toy_crypto). apply plain_tidy. Qed.

(** The uncertain commit is acknowledged by the next read that can sync. *)
Lemma acknowledged_states_survive_witness :
  ∃ s', view_round true unsynced_store = (s', None) ∧
    ∀ y, survives s' y → Store.state unsynced_store = y ∨ agree (Store.state unsynced_store) y ∧ cleared (Store.state unsynced_store).
Proof.
  exists (view_round true unsynced_store).1. split; [vm_compute; reflexivity|].
  destruct (@acknowledged_states_survive toy_crypto new_store (view_round true unsynced_store).1 new_store_ok
              (rtc_r _ _ _ unsynced_run (@step_view toy_crypto true unsynced_store))) as (_ & Hread & _).
  apply (Hread true (view_round true unsynced_store).1 (Store.state unsynced_store)). vm_compute. reflexivity.
Defined.

Lemma restart_example :
  ∃ s', @OpenStore toy_crypto (Store.file unsynced_store) (Store.synced unsynced_store) = Ok s' ∧
    view_round true s' = (s', Some (Ok (Store.state unsynced_store))) ∧ survives s' initial_state ∧
    State.Version (Store.state unsynced_store) = 2.
Proof. eexists. split; [vm_compute; reflexivity|]. split; [vm_compute; reflexivity|]. split; [by right|]. vm_compute. reflexivity. Qed.
