(* ===== verification/StoreSafety.v ===== *)
(** * What the store guarantees (internal/control/store.go with the operations it
    carries)

    The check of the whole state gives every component the invariant it starts
    from; what it refuses decides which operations can be committed. *)
From S2P Require Import Prelude GoStd Sha256 GoTime IPv4 NetIP Model AuditLog Receipts Routes RouteState Reservations.
From S2P Require Import Firewall RoutePolicies NetworkSettings Render RouteTransfer TransferSafety RouteProfileEdit Credentials Nodes CARotation Networks NodeLifecycle FirewallRollout.
From S2P Require Import SignedConfig Enrollment Recovery AgentOps Revocation CertificateReplacement CredentialSafety Renewal StateGraph Store.
From Stdlib Require Import Ascii.
Open Scope Z_scope.

(** ** The invariants of the components *)
Lemma since_Ok state version empty check :
  since state version empty check = Ok tt → version ≤ State.Version state → check = Ok tt.
Proof. unfold since. intros H Hv. destruct (Z.ltb_spec (State.Version state) version); [lia|done]. Qed.

(** The checks of an accepted network in a state of the last versions. *)
Lemma network_facts state n :
  network_accepted state n → ControlStateVersionRoutePolicies ≤ State.Version state →
  network_cidr_ok n = true ∧ network_lifecycle_ok n = true ∧
  validateStoredFirewallPolicy (Network.FirewallPolicy n) (Network.CIDR n) = Ok tt ∧ validateNetworkDNSInvariant n = Ok tt ∧
  validateNetworkRelaySettings state n = Ok tt ∧ validateNetworkCARotation n = Ok tt ∧
  validateNetworkFirewallRollout state n = Ok tt ∧ validateNetworkRouteTransfer state n = Ok tt ∧
  validateNetworkRouteProfileEdit state n = Ok tt ∧ validateNetworkRoutePolicies state n = Ok tt.
Proof.
  intros (_ & _ & Hc) Hv. revert Hc. unfold network_checks. cbv zeta. open_guards.
  intros (Hcidr & Hlife & _ & [] & _ & [] & Hfw & _ & [] & Hdns & [] & Hrel & [] & Hca & [] & Hro & _ & [] & Htr & [] & Hed & Hpol).
  unfold ControlStateVersionRoutePolicies in Hv. split_bools.
  repeat split; try done; (eapply since_Ok; [eassumption|]);
    unfold ControlStateVersionNetworkDNS, ControlStateVersionNetworkRelays, ControlStateVersionCARotation,
      ControlStateVersionFirewallRollout, ControlStateVersionRouteTransfer, ControlStateVersionRouteProfileEdit,
      ControlStateVersionRoutePolicies; lia.
Qed.

(** Names are ASCII, on which folding and lower case agree. *)
Lemma fold_ascii c l : 0 ≤ c < 128 →
  fold_bytes (c :: l) = (if (65 <=? c) && (c <=? 90) then c + 32 else c) :: fold_bytes l ∧
  to_lower_bytes (c :: l) = (if (65 <=? c) && (c <=? 90) then c + 32 else c) :: to_lower_bytes l.
Proof.
  intros Hc. assert (Forall (λ c, ∀ l, fold_bytes (c :: l) = (if (65 <=? c) && (c <=? 90) then c + 32 else c) :: fold_bytes l ∧
    to_lower_bytes (c :: l) = (if (65 <=? c) && (c <=? 90) then c + 32 else c) :: to_lower_bytes l) (seqZ 0 128)) as H.
  { repeat constructor; intros l'; split; reflexivity. }
  rewrite Forall_forall in H. apply H, elem_of_seqZ. lia.
Qed.
Lemma fold_lower l : Forall (λ c, 0 ≤ c < 128) l → fold_bytes l = to_lower_bytes l.
Proof. induction 1 as [|c l Hc _ IH]; [done|]. destruct (fold_ascii c l Hc) as [-> ->]. by rewrite IH. Qed.
Lemma name_ascii s : namePattern s = true → Forall (λ c, 0 ≤ c < 128) (bytes_of s).
Proof.
  unfold namePattern, match_class. destruct (bytes_of s) as [|c l]; [done|]. intros H. split_bools. constructor.
  - unfold alnum, lower_alpha, upper_alpha, digit in *. lia.
  - apply Forall_forall. intros x Hx%list_elem_of_In. eapply forallb_forall in Hx; [|eassumption].
    unfold name_tail, alnum, lower_alpha, upper_alpha, digit in Hx. lia.
Qed.
Lemma lower_bytes l : Forall (λ c, 0 ≤ c < 128) l → Forall is_byte (to_lower_bytes l).
Proof.
  induction 1 as [|c l Hc _ IH]; [constructor|]. destruct (fold_ascii c l Hc) as [_ ->]. constructor; [|done].
  unfold is_byte. case_match; lia.
Qed.
Lemma distinct_names a b : namePattern a = true → namePattern b = true → ToLower a ≠ ToLower b → EqualFold a b = false.
Proof.
  intros Ha%name_ascii Hb%name_ascii Hne. apply bool_decide_eq_false. rewrite !fold_lower by done. intros E. apply Hne.
  unfold ToLower. by rewrite E.
Qed.

Lemma ordered_pairs {A} (R : A → A → Prop) l i j a b :
  ForallOrdPairs R l → l !! i = Some a → l !! j = Some b → (i < j)%nat → R a b.
Proof.
  intros H. revert i j. induction H as [|x l Hx _ IH]; intros i j; [by rewrite lookup_nil|].
  destruct j as [|j]; [lia|]. destruct i as [|i]; simpl; [|intros ? ? ?; apply (IH i j); [done..|lia]].
  intros [= <-] Hb _. rewrite List.Forall_forall in Hx. apply Hx, list_elem_of_In. by eapply list_elem_of_lookup_2.
Qed.

Section invariants.
Context `{Crypto}.

Lemma accepted_apart state networks nodes i j a b :
  accepted state networks nodes → State.Networks state !! i = Some a → State.Networks state !! j = Some b → i ≠ j →
  apart (Network.ID a) (Network.Name a) (Network.CIDR a) (Network.ID b) (Network.Name b) (Network.CIDR b).
Proof.
  intros Hacc Ha Hb Hij. pose proof (accepted_networks _ _ _ Hacc) as Hall. rewrite Forall_lookup in Hall.
  destruct (Hall i a Ha) as (_ & Hna & _), (Hall j b Hb) as (_ & Hnb & _). split.
  - intros E. apply Hij. eapply NoDup_lookup; [apply (accepted_network_ids _ _ _ Hacc)|..]; by rewrite list_lookup_fmap, ?Ha, ?Hb; simpl; rewrite ?E.
  - assert (∀ x y p q, (p < q)%nat → State.Networks state !! p = Some x → State.Networks state !! q = Some y →
              namePattern (Network.Name x) = true → namePattern (Network.Name y) = true →
              same_place (Network.Name x) (Network.CIDR x) (Network.Name y) (Network.CIDR y) = Ok false) as Hord.
    { intros x y p q Hpq Hx Hy Hnx Hny. unfold same_place. rewrite distinct_names; [|done..|].
      - by apply (ordered_pairs _ _ _ _ _ _ (accepted_disjoint _ _ _ Hacc) Hx Hy).
      - intros E. enough (p = q) by lia. eapply NoDup_lookup; [apply (accepted_network_names _ _ _ Hacc)|..];
          rewrite list_lookup_fmap, ?Hx, ?Hy; simpl; unfold folded_name; by rewrite ?E. }
    destruct (Nat.lt_total i j) as [?|[?|?]]; [by apply (Hord a b i j)|done|]. apply same_place_sym. by apply (Hord b a j i).
Qed.

Lemma accepted_node_fact state networks nodes n :
  accepted state networks nodes → n ∈ State.Nodes state →
  canonical (Node.RoutedSubnets n) ∧ 0 ≤ Node.CertificateGeneration n ∧ known_status n ∧ validPersistedID (Node.ID n) = true.
Proof.
  intros Hacc Hn. pose proof (accepted_nodes _ _ _ Hacc) as Hall. rewrite Forall_forall in Hall.
  destruct (Hall n Hn) as (network & address & _ & Hid & _ & Hc & _). revert Hc. unfold node_checks. open_guards.
  intros (_ & _ & [] & Hsub & _ & _ & [] & _ & _ & Hst & Hgen & _). split_bools.
  split; [by apply validate_canonical_iff|]. split; [lia|]. split; [|done]. unfold known_status.
  destruct (andb_false_iff (negb (Node.Status n == "pending") && negb (Node.Status n == "active")) (negb (Node.Status n == "revoked"))) as [Hd _].
  rewrite !elem_of_cons. destruct (Hd Hst) as [Hd'|Hd']; [apply andb_false_iff in Hd' as [Hd'|Hd']|];
    apply negb_false_iff, bool_decide_eq_true in Hd'; auto.
Qed.
End invariants.

(** The ranges of the machine integers that a decoded state holds. *)
Definition machine_widths (state : State.t) : Prop :=
  (∀ n, n ∈ State.Nodes state → Node.CertificateGeneration n ≤ int64_max) ∧
  (∀ n, n ∈ State.Networks state → Network.ConfigRevision n ≤ int64_max) ∧
  Z.of_nat (length (State.Nodes state)) ≤ int64_max.

(** C7: an accepted state is where the components start.  In a state that the store
    accepts, of version 11 (route policies) or later and with its integers in the
    ranges of their machine types, the retained bearers are distinct; profile edits,
    rollouts, authorities and the reserved places satisfy the invariants that their
    operations keep; so do transfers, apart from one condition that the check does
    not make and that starting a transfer does: the prefixes of an active transfer
    fit in with those the target had. *)
Theorem accepted_state_meets_invariants `{Crypto} state :
  validateStateGraph state = Ok tt → ControlStateVersionRoutePolicies ≤ State.Version state → machine_widths state →
  NoDup (secrets state) ∧ edits_ok state ∧ firewalls_ok state ∧ places_ok state ∧
  (∀ n, n ∈ State.Networks state → validateNetworkCARotation n = Ok tt) ∧
  (∀ n, n ∈ State.Networks state → validateNetworkRouteTransfer state n = Ok tt) ∧
  ((∀ n, n ∈ State.Networks state → routeTransferActive (Network.RouteTransfer n) = true → transfer_mergeable (Network.RouteTransfer n)) →
   transfers_ok state).
Proof.
  intros (networks & nodes & Hacc)%accepted_state Hv (Hgen & Hrev & Hlen).
  pose proof (accepted_networks _ _ _ Hacc) as Hnets. rewrite Forall_forall in Hnets.
  assert (∀ n, n ∈ State.Networks state → network_accepted state n) as Hnet by done.
  assert (∀ n, n ∈ State.Nodes state → node_ok n) as Hnode.
  { intros n Hn. destruct (accepted_node_fact _ _ _ _ Hacc Hn) as (? & ? & _). split; [done|]. split; [done|]. by apply Hgen. }
  split. { rewrite secrets_hashes. destruct (accepted_hashes _ _ _ Hacc). by apply hashes_secrets. }
  split. { split; [apply Hacc..|done|]. intros n Hn. apply (network_facts _ _ (Hnet n Hn) Hv). }
  split. { intros n Hn. destruct (network_facts _ _ (Hnet n Hn) Hv) as (_ & Hl & ? & ? & _ & _ & ? & _).
           pose proof (accepted_references _ _ _ Hacc) as Href. rewrite Forall_forall in Href. specialize (Href n Hn).
           apply bind_Ok in Href as ([] & Href & _). unfold network_lifecycle_ok in Hl. split_bools.
           repeat split; try done; [lia|by apply Hrev]. }
  split; [|split; [|split]]; [|intros n Hn; apply (network_facts _ _ (Hnet n Hn) Hv)..|].
  2: { intros Hmerge. split; [apply Hacc..|done|]. intros n Hn. split; [|by apply Hmerge]. apply (network_facts _ _ (Hnet n Hn) Hv). }
  split.
  - apply Forall_forall. intros n Hn. split; [by destruct (Hnet n Hn) as (_ & ? & _)|].
    by destruct (network_facts _ _ (Hnet n Hn) Hv).
  - intros i j a b. by eapply accepted_apart.
  - split; [apply Hacc|]. split; [|done]. apply Forall_forall. intros n Hn. by destruct (accepted_node_fact _ _ _ _ Hacc Hn) as (_ & _ & ? & _).
  - apply Hacc.
Qed.

(** ** Retained recoveries and routed prefixes *)
Section recovered.
Context `{Crypto}.

(** A used recovery keeps its result, which repeats the node's routed prefixes. *)
Lemma used_recovery_subnets state r used :
  validateStateGraph state = Ok tt → r ∈ State.AgentRecoveries state → AgentRecoveryToken.UsedAt r = Some used →
  ∃ node result, findNode state (AgentRecoveryToken.NodeID r) = Some node ∧ AgentRecoveryToken.Result r = Some result ∧
    elems (Node.RoutedSubnets (EnrollmentBundle.Node (AgentRecoveryBundle.Bundle result))) = elems (Node.RoutedSubnets node).
Proof.
  intros (networks & nodes & Hacc)%accepted_state Hr Hu. pose proof (accepted_recoveries _ _ _ Hacc) as Hall.
  rewrite Forall_forall in Hall. destruct (Hall r Hr) as (node & Hn & _ & _ & _ & Hused). rewrite Hu in Hused.
  destruct Hused as (network & hashes & recovered & hash & _ & Hused). revert Hused. unfold used_recovery_checks. open_guards.
  intros (claimed & _ & expires & _ & result & Hres & _ & H1). revert H1. cbv zeta. open_guards. intros (Hm & _).
  exists node, result. rewrite <- (accepted_node_index _ _ _ Hacc). split; [done|]. split; [done|].
  unfold recovery_result_matches in Hm. split_bools. done.
Qed.

(** Changing the prefixes of a node whose used recovery is retained is refused. *)
Lemma changed_subnets_refused state state' r used node node' :
  validateStateGraph state = Ok tt → r ∈ State.AgentRecoveries state → AgentRecoveryToken.UsedAt r = Some used →
  State.AgentRecoveries state' = State.AgentRecoveries state → findNode state (AgentRecoveryToken.NodeID r) = Some node →
  findNode state' (AgentRecoveryToken.NodeID r) = Some node' → elems (Node.RoutedSubnets node') ≠ elems (Node.RoutedSubnets node) →
  validateStateGraph state' ≠ Ok tt.
Proof.
  intros Hv Hr Hu Er Hn Hn' Hne Hv'. rewrite <- Er in Hr.
  destruct (used_recovery_subnets _ _ _ Hv' Hr Hu) as (m' & res' & Hm' & Hres' & E'). rewrite Er in Hr.
  destruct (used_recovery_subnets _ _ _ Hv Hr Hu) as (m & res & Hm & Hres & E). congruence.
Qed.
End recovered.

(** The prefixes of both ends change when a transfer is promoted. *)
Lemma promotion_changes_subnets state network source target :
  validateNetworkRouteTransfer state network = Ok tt → transfer_mergeable (Network.RouteTransfer network) →
  let transfer := Network.RouteTransfer network in
  NetworkRouteTransfer.Phase transfer = RouteTransferPhasePreparingTarget →
  findNode state (NetworkRouteTransfer.SourceNodeID transfer) = Some source →
  findNode state (NetworkRouteTransfer.TargetNodeID transfer) = Some target →
  ∀ node, node = source ∨ node = target →
  elems (Node.RoutedSubnets (promote_node (Node.ID source) (Node.ID target) transfer node)) ≠ elems (Node.RoutedSubnets node).
Proof.
  intros Hv Hmerge transfer Hphase Hs Ht node Hnode. destruct Hmerge as [merged Hm].
  assert (routeTransferActive transfer = true) as Hact by (unfold routeTransferActive; by rewrite Hphase).
  destruct (validate_transfer_facts _ _ Hv (transfer_active_nonzero _ Hact)) as (Hc2 & _ & Hc1 & Hne & Hsub & Hpart).
  destruct (transfer_participants _ _ (Hpart Hact)) as (s & t & Hs' & Ht' & _ & _ & _ & _ & Hown & _).
  assert (s = source) as -> by (unfold transfer in Hs; congruence). assert (t = target) as -> by (unfold transfer in Ht; congruence).
  destruct (Hown (or_introl Hphase)) as [Es Et]. fold transfer in Hc1, Hc2, Hne, Hsub, Es, Et, Hm.
  pose proof (findNode_Some _ _ _ Hs) as [_ Hsid]. pose proof (findNode_Some _ _ _ Ht) as [_ Htid].
  assert (∃ route, route ∈ elems (NetworkRouteTransfer.RoutedSubnets transfer)) as [route Hroute].
  { unfold validateNetworkRouteTransfer in Hv. cbv zeta in Hv. fold transfer in Hv.
    rewrite (transfer_active_nonzero _ Hact) in Hv. revert Hv. open_guards. intros (_ & _ & Hne' & _). split_bools.
    unfold empty_slice in *. destruct (elems (NetworkRouteTransfer.RoutedSubnets transfer)) as [|x l]; [done|]. exists x. set_solver. }
  intros E. unfold promote_node in E. destruct Hnode as [-> | ->].
  - rewrite (bool_decide_eq_true_2 _ eq_refl) in E. cbn in E.
    assert (route ∈ elems (Node.RoutedSubnets source)) as Hin by (rewrite Es; by apply Hsub).
    rewrite <- E in Hin. apply elem_of_subtract in Hin as [_ Hin]. by destruct Hin.
  - rewrite (bool_decide_eq_false_2 (Node.ID target = Node.ID source)) in E by congruence.
    rewrite (bool_decide_eq_true_2 _ eq_refl) in E. cbn in E.
    assert (route ∈ elems (Node.RoutedSubnets target)) as Hin.
    { rewrite <- E. eapply elem_of_merge; [exact Hc1|exact Hc2|exact Hm|]. by right. }
    rewrite Et in Hin. by apply (normalize_app_fresh _ _ _ route Hm).
Qed.

(** C36: an agent's recovery blocks the transfer of its routes.  A used recovery is
    retained with its result, in which the store requires the node's current
    prefixes; promoting a transfer changes the prefixes of both ends and not the
    retained results, so the store refuses every promotion whose source or target
    has recovered. *)
Theorem recovered_node_blocks_promotion `{Crypto} eventID now actor networkID input state state' i network r used :
  validateStateGraph state = Ok tt → ControlStateVersionRoutePolicies ≤ State.Version state →
  network_at state networkID = Some (i, network) →
  let transfer := Network.RouteTransfer network in
  NetworkRouteTransfer.Phase transfer = RouteTransferPhasePreparingTarget → transfer_mergeable transfer →
  r ∈ State.AgentRecoveries state → AgentRecoveryToken.UsedAt r = Some used →
  AgentRecoveryToken.NodeID r = NetworkRouteTransfer.SourceNodeID transfer ∨
  AgentRecoveryToken.NodeID r = NetworkRouteTransfer.TargetNodeID transfer →
  updateRouteTransfer eventID now actor networkID input false state = Ok state' →
  state' = state ∨ validateStateGraph state' ≠ Ok tt.
Proof.
  intros Hv Hver Hnet transfer Hphase Hmerge Hr Hu Hid Hcall.
  destruct (advance_call _ _ _ _ _ _ _ _ _ Hcall Hnet) as [->|(state1 & network' & event & Ha & _ & ->)]; [by left|right].
  assert (validateNetworkRouteTransfer state network = Ok tt) as Hvt.
  { destruct (accepted_state _ Hv) as (nets & nodes & Hacc). pose proof (accepted_networks _ _ _ Hacc) as Hnets.
    rewrite Forall_forall in Hnets. apply (network_facts state network); [|done].
    apply Hnets. by eapply network_at_in. }
  assert (routeTransferActive transfer = true) as Hact by (unfold routeTransferActive; by rewrite Hphase).
  destruct (validate_transfer_facts _ _ Hvt (transfer_active_nonzero _ Hact)) as (_ & _ & _ & _ & _ & Hpart).
  destruct (transfer_participants _ _ (Hpart Hact)) as (source & target & Hs & Ht & _).
  rewrite Hs, Ht in Ha. cbn [default from_option] in Ha.
  destruct (advance_preparing _ _ _ _ _ _ Hphase Ha) as (rev & _ & _ & _ & [= -> ->]).
  assert (∃ node, findNode state (AgentRecoveryToken.NodeID r) = Some node ∧ (node = source ∨ node = target)) as (node & Hn & Hst).
  { destruct Hid as [-> | ->]; eauto. }
  eapply (changed_subnets_refused state _ r used node (promote_node (Node.ID source) (Node.ID target) transfer node)); [done..|exact Hn| |].
  - change (findNode (map_nodes (promote_node (Node.ID source) (Node.ID target) transfer) state) (AgentRecoveryToken.NodeID r) =
            Some (promote_node (Node.ID source) (Node.ID target) transfer node)).
    rewrite findNode_map by (intros; apply promote_node_id). by rewrite Hn.
  - by apply (promotion_changes_subnets state network).
Qed.

(** ** Example: a recovered node receives a route *)
(** The toy scheme with a tag behind the ciphertext. *)
Definition tagged_crypto : Crypto := {|
  ed25519_sign := @ed25519_sign toy_crypto; ed25519_verify := @ed25519_verify toy_crypto; ed25519_public := @ed25519_public toy_crypto;
  aead_open _ _ ciphertext := Some (take (length ciphertext - 16) ciphertext) |}.
Definition store_network : Network.t :=
  race_network <| Network.EncryptedConfigSigningKey := b64_encode (replicate 12 0 ++ signing_key ++ replicate 16 0) |> <| Network.Name := "home" |> <| Network.ListenPort := 4242 |> <| Network.FirewallPolicy := defaultManagedFirewallPolicy |>
    <| Network.CreatedAt := day |> <| Network.ConfigUpdatedAt := day |> <| Network.DNSSettings := defaultNetworkDNSSettings |>
    <| Network.RelaySettings := NetworkRelaySettings.make false (Some []) |>.
Definition store_node (id ip : string) (bearer : Z) (subnets : slice string) (generation : Z) : Node.t :=
  converged_node id subnets generation example_print <| Node.Name := "gateway-" +:+ id |> <| Node.IP := ip |> <| Node.Role := "member" |>
    <| Node.Groups := ["all"] |> <| Node.Site := "home" |> <| Node.FailureDomain := "rack" |> <| Node.CreatedAt := 1 |>
    <| Node.AgentTokenHash := bearer_hash bearer |> <| Node.AgentCredentialExpiresAt := Some (80 * day) |>
    <| Node.AgentCredentialGeneration := 1 |> <| Node.PublicKeyHash := HashToken race_key |>
    <| Node.Certificate := "certificate" |> <| Node.CertificateFingerprint := example_print |>
    <| Node.ReportedCertificateFingerprint := example_print |> <| Node.CertificateAuthoritySHA256 := ConfigDigest "old authority" |>
    <| Node.CertificateExpiresAt := Some (90 * day) |> <| Node.CertificateRenewAfter := Some (60 * day) |>
    <| Node.AgentBootID := "boot" |> <| Node.HeartbeatSequence := 1 |> <| Node.AppliedConfigRevision := 3 |>.
Definition store_state : State.t :=
  State.zero <| State.Version := 13 |> <| State.MasterKeyVerifier := verifier 3 |> <| State.AdminCredentialVerifier := verifier 4 |>
    <| State.Networks := [store_network] |>
    <| State.Nodes := [store_node "a" "10.42.0.10" 1 (Some ["192.168.7.0/24"; "192.168.9.0/24"]) 1;
                       store_node "b" "10.42.0.11" 2 None 2] |>.
Definition issued := issueAgentRecovery (Some (λ _, Ok (example_bearer 5))) (λ _, Ok "recovery-0000-0001") "event-0000-0001" (2*day) None (id_of "b") store_state.
Definition issued_state := match issued with Ok (s,_) => s | Err _ => State.zero end.
Definition recovered := @RecoverAgent tagged_crypto spelling_issuer (Ok "claim-0000-0001") "event-0000-0002" (2*day) (2*day) (2*day) (example_bearer 5) race_key (bearer_hash 6) issued_state id issued_state.
(** The transfer of a prefix from [a] to [b], which has recovered before: [b] has its new certificate and reports it. *)
Definition staged_network : Network.t :=
  store_network <| Network.RouteTransfer := transfer_phase_record RouteTransferPhasePreparingTarget 0 0 <| NetworkRouteTransfer.StartedAt := 3 * day |> |>.
Definition staged_with (digest : string) (state : State.t) : State.t :=
  map_nodes (λ n, n <| Node.LastSeenAt := Some (4 * day) |> <| Node.AppliedConfigSHA256 := digest |>) (state <| State.Networks := [staged_network] |>).
Definition staged_digest (state : State.t) : string :=
  ConfigDigest (renderConfig state staged_network (default Node.zero (findNode state (id_of "b")))).
Definition staged_state : State.t := let s := fst recovered in staged_with (staged_digest (staged_with "" s)) s.
Definition staged_promotion := updateRouteTransfer "event-0000-0000-0003" (5*day) None "network-0000-0000"
    (UpdateRouteTransferInput.make 3 "request-0000-0001") false staged_state.
Definition staged_promoted := match staged_promotion with Ok s => s | Err _ => State.zero end.

Lemma staged_accepted : @validateStateGraph tagged_crypto staged_state = Ok tt.
Proof. vm_compute. reflexivity. Qed.
Lemma staged_mergeable : transfer_mergeable (Network.RouteTransfer staged_network).
Proof. exists (Some ["192.168.7.0/24"]). vm_compute. reflexivity. Qed.
Lemma staged_networks : State.Networks staged_state = [staged_network].
Proof. reflexivity. Qed.

Lemma accepted_state_meets_invariants_witness :
  NoDup (secrets staged_state) ∧ transfers_ok staged_state ∧ firewalls_ok staged_state ∧ places_ok staged_state.
Proof.
  destruct (@accepted_state_meets_invariants tagged_crypto staged_state) as (H1 & _ & H3 & H4 & _ & _ & H2).
  - exact staged_accepted.
  - vm_compute. discriminate.
  - split; [|split].
    + apply (Forall_forall (λ n, Node.CertificateGeneration n ≤ int64_max)), (bool_decide_unpack _). vm_compute. exact I.
    + rewrite staged_networks. intros n ->%list_elem_of_singleton. vm_compute. discriminate.
    + vm_compute. discriminate.
  - refine (conj H1 (conj (H2 _) (conj H3 H4))). rewrite staged_networks. intros n ->%list_elem_of_singleton _. exact staged_mergeable.
Defined.

(** The recovery that [b] used. *)
Definition staged_recovery : AgentRecoveryToken.t := List.hd AgentRecoveryToken.zero (State.AgentRecoveries staged_state).
Lemma staged_recovery_in : staged_recovery ∈ State.AgentRecoveries staged_state.
Proof. apply (bool_decide_unpack _). vm_compute. exact I. Qed.
Lemma staged_call : updateRouteTransfer "event-0000-0000-0003" (5 * day) None "network-0000-0000"
    (UpdateRouteTransferInput.make 3 "request-0000-0001") false staged_state = Ok staged_promoted.
Proof. vm_compute. reflexivity. Qed.

Lemma recovered_node_blocks_promotion_witness : @validateStateGraph tagged_crypto staged_promoted ≠ Ok tt.
Proof.
  destruct (@recovered_node_blocks_promotion tagged_crypto "event-0000-0000-0003" (5 * day) None "network-0000-0000"
    (UpdateRouteTransferInput.make 3 "request-0000-0001") staged_state staged_promoted 0 staged_network staged_recovery (2 * day))
    as [E|Hrefused].
  - exact staged_accepted.
  - vm_compute. discriminate.
  - reflexivity.
  - reflexivity.
  - exact staged_mergeable.
  - exact staged_recovery_in.
  - vm_compute. reflexivity.
  - right. vm_compute. reflexivity.
  - exact staged_call.
  - apply (f_equal (λ s, length (State.Audit s))) in E. vm_compute in E. discriminate E.
  - exact Hrefused.
Defined.
