(* ===== verification/SharedState.v ===== *)
(** * A canary revoked by a transaction that does not commit (revokeOrReplaceNode of
    internal/control/service.go in Update of internal/control/store.go)

    The revocation removes the node from the canaries of its network's rollout with
    slices.DeleteFunc, on an array that the clone shares with the committed state.
    When the transaction then fails, or its state is refused, or the file cannot be
    written, the committed rollout keeps a cleared canary in memory. *)
From S2P Require Import Prelude GoStd Model AuditLog RouteState RouteTransfer Credentials FirewallRollout Revocation Recovery SignedConfig StateGraph Store StoreSafety.
Open Scope Z_scope.

(** ** The revocation as a transaction of the store *)

(** The node whose canaries are removed, when the transaction gets that far. *)
Definition revocation_target (nodeID : string) (replace : bool) (expectedConfigRevision : Z) (input : option RevokeNodeInput.t)
    (state : State.t) : result (option Node.t) :=
  source ← of_option (findNode state nodeID) ErrNotFound;
  fail ErrConflict when in_route_transition state source nodeID;;
  replayed ← revocation_request state source nodeID input;
  match replayed with
  | Some _ => Ok None
  | None =>
      _ ← replacement_request state source replace expectedConfigRevision;
      fail ErrConflict when existsb (λ n, (Node.ID n == nodeID) && (Node.Status n == "revoked")) (State.Nodes state);;
      node ← of_option (last (filter (λ n, Node.ID n = nodeID) (State.Nodes state))) ErrNotFound;
      Ok (Some node)
  end.
(** The arguments of revokeOrReplaceNode but for the state. *)
Record revocation := Revocation {
  generateBearer : option (nat → result string); random : nat → result string; newNodeID : result string;
  rolloutEventID : string; eventID : string; replacementEventID : string; at_ : time; actor : option Actor.t;
  nodeID : string; replace : bool; expectedConfigRevision : Z; input : option RevokeNodeInput.t }.
Definition revoking (r : revocation) : transaction := λ state,
  (match revocation_target (nodeID r) (replace r) (expectedConfigRevision r) (input r) state with
   | Ok (Some node) => removal (Node.NetworkID node) (Node.ID node) state
   | _ => shared state
   end,
   fst <$> revokeOrReplaceNode (generateBearer r) (random r) (newNodeID r) (rolloutEventID r) (eventID r) (replacementEventID r)
             (at_ r) (actor r) (nodeID r) (replace r) (expectedConfigRevision r) (input r) state).
Lemma revoking_tidy r : tidy (revoking r).
Proof. intros state. unfold revoking. simpl. destruct (revocation_target _ _ _ _ _) as [[node|]|]; [right; eauto|by left..]. Qed.

Lemma revoked_last nodeID now nodes :
  last (filter (λ n, Node.ID n = nodeID) ((λ n, if Node.ID n == nodeID then revoked_node now n else n) <$> nodes)) =
  revoked_node now <$> last (filter (λ n, Node.ID n = nodeID) nodes).
Proof.
  rewrite <- fmap_last. f_equal. induction nodes as [|n l IH]; [done|]. rewrite fmap_cons.
  destruct (decide (Node.ID n = nodeID)) as [E|E].
  - rewrite (bool_decide_eq_true_2 _ E), !filter_cons_True by done. by rewrite fmap_cons, IH.
  - rewrite (bool_decide_eq_false_2 _ E), !filter_cons_False by done. done.
Qed.
(** A revocation that returns a node has removed the node that it returns. *)
Lemma revoking_target r state next node replacement receipt :
  revokeOrReplaceNode (generateBearer r) (random r) (newNodeID r) (rolloutEventID r) (eventID r) (replacementEventID r)
    (at_ r) (actor r) (nodeID r) (replace r) (expectedConfigRevision r) (input r) state = Ok (next, (node, replacement, receipt)) →
  next = state ∨ ∃ target, revocation_target (nodeID r) (replace r) (expectedConfigRevision r) (input r) state = Ok (Some target) ∧
    node = revoked_node (at_ r) target.
Proof.
  unfold revokeOrReplaceNode, revocation_target. intros (source & -> & H)%bind_Ok. cbn [mbind result_bind].
  apply guard_iff in H as [-> H]. cbn [fail_if]. apply bind_Ok in H as (replayed & -> & H). cbn [mbind result_bind].
  destruct replayed as [x|]; [by injection H as <-; left|]. apply bind_Ok in H as ([] & -> & H). cbn [mbind result_bind].
  right. apply bind_Ok in H as ([[[[s n] noted] counts] revision] & Hr & H).
  assert (n = node) as ->.
  { apply bind_Ok in H as (event & _ & H). destruct (negb _); [by injection H|]. apply bind_Ok in H as ([s' rep] & _ & H). by injection H. }
  unfold revoke_in_state in Hr. apply guard_iff in Hr as [-> Hr]. cbn [fail_if mbind result_bind].
  cbv zeta in Hr. rewrite revoked_last in Hr. apply bind_Ok in Hr as (m & Hm%of_option_Ok & Hr).
  destruct (last _) as [target|]; [|done]. injection Hm as <-. exists target. split; [done|].
  destruct (detach _ _) as [detached noted']. apply bind_Ok in Hr as ([[networks events] revision'] & _ & Hr).
  apply guard_iff in Hr as [_ Hr]. by injection Hr.
Qed.

(** ** What a failed revocation leaves *)
Section blocked.
Context `{Crypto}.

(** A transaction that neither lowers the version nor ends or changes a rollout in
    progress. *)
Definition keeps_rollouts (fn : transaction) : Prop := ∀ state next, (fn state).2 = Ok next →
  State.Version state ≤ State.Version next ∧
  ∀ n, n ∈ State.Networks state → NetworkFirewallRollout.Phase (Network.FirewallRollout n) ≠ "" →
    ∃ m, m ∈ State.Networks next ∧ Network.FirewallRollout m = Network.FirewallRollout n.
(** Reads and such updates. *)
Inductive keeping_step : Store.t → Store.t → Prop :=
  | keeping_update sync w fn s : tidy fn → keeps_rollouts fn → keeping_step s (Update sync w fn s).1
  | keeping_view sync s : keeping_step s (view_round sync s).1
  | keeping_ready sync s : keeping_step s (CheckReadiness sync s).1.

Lemma ensure_state sync s : Store.state (ensureDurableLocked sync s).1 = Store.state s.
Proof. unfold ensureDurableLocked. by destruct (Store.durabilityPending s), sync. Qed.
Lemma keeps_cleared fn state clone next :
  keeps_rollouts fn → cloneState state = Ok clone → (fn clone).2 = Ok next → cleared state → cleared next.
Proof.
  intros Hk (_ & Hv & Hn)%clone_shares Hfn (Hver & n & Hin & Hp & He). destruct (Hk _ _ Hfn) as [Hle Hm].
  rewrite Hn in Hm. destruct (Hm n Hin Hp) as (m & Hmin & E). split; [lia|]. exists m. unfold canaries_of in *. by rewrite E.
Qed.
(** With a cleared canary, such an update fails and leaves one. *)
Lemma keeping_refused sync w fn s :
  tidy fn → keeps_rollouts fn → cleared (Store.state s) →
  cleared (Store.state (Update sync w fn s).1) ∧ ∃ e, (Update sync w fn s).2 = Err e.
Proof.
  intros Ht Hk Hc. unfold Update. destruct (Store.opened s); simpl; [|by eauto].
  pose proof (ensure_state sync s) as E. destruct (ensureDurableLocked sync s) as [s1 [[]|e]]; simpl in *; [|rewrite E; by eauto].
  rewrite E. destruct (cloneState (Store.state s)) as [clone|e] eqn:Hcl; [|rewrite <- E in Hc; simpl; by eauto].
  pose proof (tidy_damages fn _ _ Ht Hcl) as Hd. pose proof (λ next, keeps_cleared fn _ clone next Hk Hcl) as Hkc.
  destruct (fn clone) as [arrays [next|e]] eqn:Hfn; simpl in *.
  - assert (cleared next) as Hnext by (by apply Hkc). apply cleared_refused in Hnext.
    unfold commit. destruct (validateStateGraph next) as [[]|e]; [done|]. simpl. destruct Hd as [->|[_ ?]]; by eauto.
  - destruct Hd as [->|[_ ?]]; by eauto.
Qed.
Lemma keeping_run s s' : rtc keeping_step s s' → cleared (Store.state s) → cleared (Store.state s').
Proof.
  induction 1 as [|s s1 s' Hs _ IH]; [done|]. intros Hc. apply IH. destruct Hs as [sync w fn s Ht Hk|sync s|sync s].
  - by apply keeping_refused.
  - unfold view_round, ensureDurable. pose proof (ensure_state sync s) as E. destruct (Store.opened s), (Store.durabilityPending s); simpl; try done.
    destruct (ensureDurableLocked sync s) as [s1 [[]|]]; simpl in *; congruence.
  - unfold CheckReadiness. pose proof (ensure_state sync s) as E. destruct (Store.opened s); simpl; congruence.
Qed.

(** C37: a revocation that fails to commit stops the store.  When a revocation has
    removed a canary of a rollout in progress and the update then fails other than
    by an uncertain commit, the file is unchanged, but the rollout in memory has an
    empty canary; after any further reads and updates, every update that keeps that
    rollout and does not lower the version is refused, until the rollout is ended or
    the process restarts.  (Of a store that is open and has no commit pending; the
    updates write into the shared arrays at most by removing a canary.) *)
Theorem failed_revocation_blocks_store sync w r s s1 e clone node n :
  store_ok s → Store.opened s = true → Store.durabilityPending s = false → cloneState (Store.state s) = Ok clone →
  revocation_target (nodeID r) (replace r) (expectedConfigRevision r) (input r) clone = Ok (Some node) →
  n ∈ State.Networks (Store.state s) → Network.ID n = Node.NetworkID node →
  canary_of (State.Version (Store.state s)) (Node.ID node) n = true →
  Update sync w (revoking r) s = (s1, Err e) → e ≠ ErrUncertainCommit →
  Store.file s1 = Store.file s ∧ cleared (Store.state s1) ∧
  ∀ s2, rtc keeping_step s1 s2 → ∀ sync' w' fn s3 r', tidy fn → keeps_rollouts fn → Update sync' w' fn s2 = (s3, r') → ∃ e', r' = Err e'.
Proof.
  intros Hok Ho Hp Hcl Ht Hn HID Hc Hu He.
  assert (cleared (Store.state s1)) as Hcleared.
  { pose proof (clone_shares _ _ Hcl) as (Hs & Hv & Hnets). revert Hu. unfold Update, ensureDurableLocked. rewrite Ho, Hp. simpl. rewrite Hcl.
    unfold revoking. rewrite Ht. assert (cleared (written (removal (Node.NetworkID node) (Node.ID node) clone) (Store.state s))) as Hd.
    { assert (removal (Node.NetworkID node) (Node.ID node) clone = removal (Node.NetworkID node) (Node.ID node) (Store.state s)) as ->
        by (unfold removal; by rewrite Hv, Hnets). by apply (removal_clears _ _ _ n). }
    set (written_state := written _ _) in *. clearbody written_state.
    destruct (fst <$> _) as [next|e']; [|intros [= <- _]; done]. unfold commit. destruct (validateStateGraph next) as [[]|]; [|intros [= <- _]; done].
    case_decide; [done|]. destruct w; simpl; intros [= <- <-]; done. }
  split; [|split; [done|]].
  - destruct (update_spec _ _ _ _ _ _ Hu (revoking_tidy r) Hok) as (_ & [(_ & _ & [[[=] _]|[[= ->] _]])|(_ & _ & Ef)]); done.
  - intros s2 Hrun sync' w' fn s3 r' Hfn Hk Hu2. pose proof (keeping_run _ _ Hrun Hcleared) as Hc2.
    destruct (keeping_refused sync' w' fn s2 Hfn Hk Hc2) as [_ [e' E]]. rewrite Hu2 in E. by exists e'.
Qed.
End blocked.

(** ** Example: a revocation of one of two canaries whose write fails *)
Definition rollout_network : Network.t :=
  store_network <| Network.FirewallRollout := canary_record <| NetworkFirewallRollout.CanaryNodeIDs := Some [id_of "a"; id_of "b"] |>
                                               <| NetworkFirewallRollout.StageConfigRevision := 3 |>
                                               <| NetworkFirewallRollout.StartedAt := 2 * day |> |>.
Definition rollout_state : State.t := store_state <| State.Networks := [rollout_network] |>.
Definition rollout_store : Store.t := Store.make rollout_state true false rollout_state rollout_state.
Definition example_revocation : revocation :=
  Revocation None (λ _, Err ErrInvalid) (Err ErrInvalid) "event-0000-0001" "event-0000-0002" "" (4 * day) None (id_of "a") false 0 None.
Definition failed_store : Store.t := (@Update tagged_crypto true (WriteFails "disk full") (revoking example_revocation) rollout_store).1.

Lemma rollout_store_ok : @store_ok tagged_crypto rollout_store.
Proof. split; [by left|vm_compute; reflexivity..|done]. Qed.
(** The memory after it. *)
Example failed_canaries : canaries_of <$> State.Networks (Store.state failed_store) = [Some [id_of "b"; ""]].
Proof. vm_compute. reflexivity. Qed.
Lemma failed_update :
  @Update tagged_crypto true (WriteFails "disk full") (revoking example_revocation) rollout_store = (failed_store, Err (ErrOther "disk full")).
Proof. vm_compute. reflexivity. Qed.
Lemma failed_revocation_blocks_store_witness :
  Store.file failed_store = Store.file rollout_store ∧ cleared (Store.state failed_store) ∧
  ∀ s2, rtc (@keeping_step tagged_crypto) failed_store s2 →
    ∀ sync' w' fn s3 r', tidy fn → keeps_rollouts fn → @Update tagged_crypto sync' w' fn s2 = (s3, r') → ∃ e', r' = Err e'.
Proof.
  refine (@failed_revocation_blocks_store tagged_crypto true (WriteFails "disk full") example_revocation rollout_store failed_store
    (ErrOther "disk full") rollout_state (store_node "a" "10.42.0.10" 1 (Some ["192.168.7.0/24"; "192.168.9.0/24"]) 1) rollout_network
    rollout_store_ok eq_refl eq_refl _ _ _ eq_refl _ failed_update _).
  - vm_compute. reflexivity.
  - vm_compute. reflexivity.
  - apply list_elem_of_singleton. reflexivity.
  - vm_compute. reflexivity.
  - discriminate.
Defined.
(** Issuing a recovery is such an update. *)
Example recovery_keeps_rollouts generate random eventID now actor nodeID :
  keeps_rollouts (plain (λ state, fst <$> issueAgentRecovery generate random eventID now actor nodeID state)).
Proof.
  intros state next. simpl. destruct (issueAgentRecovery _ _ _ _ _ _ _) as [[s x]|] eqn:E; [|done]. intros [= <-].
  revert E. unfold issueAgentRecovery. cbv zeta. open_guards. intros (node & _ & _ & token & _ & id & _ & event & _ & [= <- _]).
  split; [reflexivity|]. intros n Hn _. by exists n.
Qed.
