(* ===== verification/RenewalRace.v ===== *)
(** * A renewal in flight while a route transfer starts (internal/control/service.go and
    internal/control/route_transfer.go)

    Renew signs between its two transactions.  A transfer that starts in between asks
    its target for one more certificate generation; the second transaction raises the
    generation, with a certificate for the subnets of before the transfer. *)
From S2P Require Import Prelude GoStd Sha256 GoTime IPv4 NetIP Model AuditLog Receipts Routes RouteState Reservations.
From S2P Require Import Firewall RoutePolicies NetworkSettings Render RouteTransfer TransferSafety RouteProfileEdit Credentials Nodes CARotation Networks NodeLifecycle FirewallRollout.
From S2P Require Import SignedConfig Enrollment Recovery AgentOps Revocation CertificateReplacement CredentialSafety Renewal StateGraph Store StoreSafety.
From Stdlib Require Import Ascii.
Open Scope Z_scope.

(** A start that is not a replay: no other transition was under way, and the transfer
    asks the target for its next generation. *)
Lemma start_facts eventID now actor networkID input state state' :
  startRouteTransfer eventID now actor networkID input state = Ok state' → state' ≠ state →
  ∃ i network network' target merged,
    network_at state networkID = Some (i, network) ∧ routeTransferTerminal (Network.RouteTransfer network) = true ∧
    routeProfileEditTerminal (Network.RouteProfileEdit network) = true ∧
    findNode state (TrimSpace (StartRouteTransferInput.TargetNodeID input)) = Some target ∧
    findNetwork state' networkID = Some network' ∧ State.Nodes state' = State.Nodes state ∧
    let transfer := Network.RouteTransfer network' in
    NetworkRouteTransfer.Phase transfer = RouteTransferPhasePreparingTarget ∧ NetworkRouteTransfer.TargetNodeID transfer = Node.ID target ∧
    NetworkRouteTransfer.TargetOriginalSubnets transfer = Node.RoutedSubnets target ∧
    elems (NetworkRouteTransfer.RoutedSubnets transfer) ≠ [] ∧ canonical (NetworkRouteTransfer.RoutedSubnets transfer) ∧
    normalizeRoutedSubnets (elems (Node.RoutedSubnets target) ++ elems (NetworkRouteTransfer.RoutedSubnets transfer)) = Ok merged ∧
    NetworkRouteTransfer.TargetCertificateGeneration transfer = wrap64 (Node.CertificateGeneration target + 1) ∧
    1 ≤ Node.CertificateGeneration target ∧ Node.CertificateGeneration target ≠ int64_max.
Proof.
  unfold startRouteTransfer. cbv zeta. intros H Hne.
  destruct (normalizeRoutedSubnets (StartRouteTransferInput.RoutedSubnets input)) as [routes|] eqn:Hr; [|done].
  apply guard_iff in H as [Hg H]. apply guard_iff in H as [_ H].
  apply bind_Ok in H as ([i network] & Hn%of_option_Ok & H). destruct (_ == _) in H.
  { apply guard_iff in H as [_ [= <-]]. done. }
  apply guard_iff in H as [Ht H]. apply guard_iff in H as [Hbusy H].
  apply bind_Ok in H as (source & _ & H). apply bind_Ok in H as (target & Htn%of_option_Ok & H).
  do 3 apply guard_iff in H as [_ H]. apply guard_iff in H as [Hm H]. apply guard_iff in H as [Hgen H].
  apply bind_Ok in H as (revision & _ & H). apply bind_Ok in H as (event & _ & H).
  match type of H with Ok (append_audit (put_network _ _ ?N) _) = _ => set (network' := N) in H end. injection H as <-.
  destruct (normalizeRoutedSubnets (elems (Node.RoutedSubnets target) ++ elems routes)) as [merged|] eqn:Hmm; [|done].
  apply orb_false_iff in Hbusy as [[[_ _]%orb_false_iff Hed]%orb_false_iff _].
  apply negb_false_iff in Ht, Hed. split_bools.
  rewrite empty_slice_false, Z.ltb_ge, Z.eqb_neq in *. exists i, network, network', target, merged. split_and!; try done.
  - apply (network_at_find _ _ i). rewrite network_at_append. by apply (network_at_put _ _ _ network).
  - by apply (normalize_canonical _ _ Hr).
Qed.

Lemma terminal_subnets network node :
  routeTransferTerminal (Network.RouteTransfer network) = true → routeProfileEditTerminal (Network.RouteProfileEdit network) = true →
  certificateRoutedSubnets network node = Node.RoutedSubnets node.
Proof.
  intros Ht He.
  assert (NetworkRouteTransfer.Phase (Network.RouteTransfer network) ∈ [""; RouteTransferPhaseCompleted; RouteTransferPhaseCancelled]) as Hp.
  { unfold routeTransferTerminal, zeroNetworkRouteTransfer in Ht. repeat rewrite orb_true_iff in Ht. rewrite !andb_true_iff in Ht.
    rewrite !bool_decide_eq_true in Ht. set_solver. }
  assert (NetworkRouteProfileEdit.Phase (Network.RouteProfileEdit network) ∈ [""; RouteProfileEditPhaseCompleted; RouteProfileEditPhaseCancelled]) as Hq.
  { unfold routeProfileEditTerminal, zeroNetworkRouteProfileEdit in He. repeat rewrite orb_true_iff in He. rewrite !andb_true_iff in He.
    rewrite !bool_decide_eq_true in He. set_solver. }
  unfold certificateRoutedSubnets, routeProfileCertificateRoutedSubnets. cbv zeta.
  set (phase := NetworkRouteTransfer.Phase _) in *. set (edit := NetworkRouteProfileEdit.Phase _) in *. clearbody phase edit.
  rewrite !elem_of_cons in Hp, Hq.
  rewrite !(bool_decide_eq_false_2 (phase = _)) by (intros ->; by destruct Hp as [Hp|[Hp|[Hp|Hp%elem_of_nil]]]).
  rewrite !(bool_decide_eq_false_2 (edit = _)) by (intros ->; by destruct Hq as [Hq|[Hq|[Hq|Hq%elem_of_nil]]]).
  simpl. by destruct (negb _).
Qed.

Section race.
Context `{Crypto, Nebula}.

Lemma renew_commit_networks eventID now claimID tokenHash claimed authority issued state state' bundle :
  renew_commit eventID now claimID tokenHash claimed authority issued state = Ok (state', bundle) →
  State.Networks state' = State.Networks state.
Proof.
  unfold renew_commit. destruct issued as [[certificate fingerprint] expiresAt]. intros Hc.
  apply bind_Ok in Hc as (network & _ & Hc). apply guard_iff in Hc as [_ Hc]. apply bind_Ok in Hc as (renewAfter & _ & Hc). cbv zeta in Hc.
  apply bind_Ok in Hc as ([nodes found] & _ & Hc). apply bind_Ok in Hc as (node & _ & Hc). apply bind_Ok in Hc as (signed & _ & Hc).
  by injection Hc as <- _.
Qed.
(** The two halves of a renewal that was claimed. *)
Lemma renew_halves claimID key eventID preflightAt claimedAt now token publicKey read others state state' bundle claimedState claimed network :
  Renew (Ok claimID) eventID preflightAt claimedAt now token publicKey read others state = (state', Ok bundle) →
  canonicalNebulaPublicKeyPEM publicKey = Ok key →
  renew_claim claimID claimedAt (HashToken (TrimSpace token)) key state = Ok (claimedState, RenewClaimed claimed network) →
  ∃ issued, renew_certificate now network claimed key = Ok issued ∧
    renew_commit eventID now claimID (HashToken (TrimSpace token)) claimed (fst (networkSigningAuthority network)) issued
      (others claimedState) = Ok (state', bundle).
Proof.
  unfold Renew. cbv zeta. intros Hr Hk Hc. rewrite Hk in Hr. destruct (negb _); [done|]. cbn [fail_if mbind result_bind] in Hr.
  destruct (preflightAgentCredential _ _ _) as [node|]; [|done]. cbn [mbind result_bind] in Hr.
  destruct (negb _); [done|]. cbn [fail_if mbind result_bind] in Hr. rewrite Hc in Hr. cbn [mbind result_bind] in Hr.
  destruct (renew_certificate now network claimed key) as [issued|]; [|done]. cbn [mbind result_bind] in Hr. exists issued. split; [done|].
  destruct (renew_commit _ _ _ _ _ _ _ _) as [[s b]|]; [|done]. by injection Hr as <- <-.
Qed.
(** A claim marks the node it returns. *)
Lemma renew_claimed claimID claimedAt tokenHash key state claimedState claimed network :
  renew_claim claimID claimedAt tokenHash key state = Ok (claimedState, RenewClaimed claimed network) →
  ∃ i node, State.Nodes state !! i = Some node ∧ claimedState = put_node state i claimed ∧
    findNetwork state (Node.NetworkID claimed) = Some network ∧ Node.ID claimed = Node.ID node ∧
    Node.RoutedSubnets claimed = Node.RoutedSubnets node.
Proof.
  unfold renew_claim. intros Hc. apply bind_Ok in Hc as ([i node] & Ha%of_option_Ok & Hc).
  apply guard_iff in Hc as [_ Hc]. apply bind_Ok in Hc as (network0 & Hn%of_option_Ok & Hc).
  destruct (_ && _) in Hc; [open_call Hc; discriminate|]. do 3 apply guard_iff in Hc as [_ Hc].
  injection Hc as <- <- <-. apply list_find_Some in Ha as (Hi & _). by exists i, node.
Qed.

(** What a certificate of the node is to carry depends on the node's identifier and
    its own subnets. *)
Lemma certificate_subnets_ext n1 n2 net :
  Node.ID n1 = Node.ID n2 → Node.RoutedSubnets n1 = Node.RoutedSubnets n2 → certificateRoutedSubnets net n1 = certificateRoutedSubnets net n2.
Proof. unfold certificateRoutedSubnets, routeProfileCertificateRoutedSubnets. by intros -> ->. Qed.

(** C24: a renewal signs for what the node routes.  From every state reached by route
    transfers and reports, when a renewal is claimed while no route-profile edit is
    under way, whatever other requests do before it commits, the certificate that it
    returns was signed, by the authority of the claim, for all the subnets that the
    node owned at the claim; and when the node was then the target of a transfer
    before or after the promotion, for the transferred prefixes too.  (A renewal that
    was claimed before the transfer started is not such a case.) *)
Theorem renewed_certificates_cover_prefixes claimID key eventID preflightAt claimedAt now token publicKey read others initial state
    claimedState claimed network state' bundle :
  rtc transfer_step initial state → transfers_ok initial → canonicalNebulaPublicKeyPEM publicKey = Ok key →
  renew_claim claimID claimedAt (HashToken (TrimSpace token)) key state = Ok (claimedState, RenewClaimed claimed network) →
  routeProfileEditActive (Network.RouteProfileEdit network) = false →
  Renew (Ok claimID) eventID preflightAt claimedAt now token publicKey read others state = (state', Ok bundle) →
  ∃ subnets caKey bits fingerprint expiresAt,
    Open (snd (networkSigningAuthority network)) = Ok caKey ∧
    SignPublicKey (fst (networkSigningAuthority network)) (string_of caKey) key (Node.Name claimed)
      (Node.IP claimed +:+ "/" +:+ bits) (join "," (Node.Groups claimed)) (join "," subnets) (certificate_ttl network)
      = Ok (RenewalBundle.Certificate bundle, fingerprint, expiresAt) ∧
    elems (Node.RoutedSubnets claimed) ⊆ subnets ∧
    let transfer := Network.RouteTransfer network in
    (Node.ID claimed = NetworkRouteTransfer.TargetNodeID transfer →
     NetworkRouteTransfer.Phase transfer = RouteTransferPhasePreparingTarget ∨
     NetworkRouteTransfer.Phase transfer = RouteTransferPhaseCleaningSource →
     elems (NetworkRouteTransfer.RoutedSubnets transfer) ⊆ subnets).
Proof.
  intros Hrun Hok Hkey Hclaim Hedit Hrenew.
  destruct (renew_halves _ _ _ _ _ _ _ _ _ _ _ _ _ _ _ _ Hrenew Hkey Hclaim) as ([[certificate fingerprint] expiresAt] & Hcert & Hcommit).
  destruct (renew_claimed _ _ _ _ _ _ _ _ Hclaim) as (i & node & Hi & -> & Hnet & Hid & Hsub).
  apply renew_commit_call in Hcommit as (-> & _).
  unfold renew_certificate in Hcert. apply bind_Ok in Hcert as ([[c f] e] & Hs & Hk). apply guard_iff in Hk as [_ Hk].
  injection Hk as -> -> ->. apply sign_certificate_call in Hs as (caKey & bits & Ho & Hs).
  destruct (certificate_covers_owned_prefixes initial state network node) as [Hown Htarget];
    [done|done|by apply findNetwork_Some in Hnet as [? _]|by apply (list_elem_of_lookup_2 _ i)|done|].
  rewrite <- (certificate_subnets_ext claimed node), <- Hid in * by done. rewrite <- Hsub in Hown.
  exists (elems (certificateRoutedSubnets network claimed)), caKey, bits, fingerprint, expiresAt. by split_and!.
Qed.

(** C35: a renewal in flight passes for the certificate that a transfer waits for.  When,
    in an accepted state, a node's renewal has been claimed, a new transfer to that
    node starts before the renewal commits, and the renewal returns a bundle, then
    the certificate in it was signed for the subnets that the node had, none of
    which is moved by the transfer; the transfer waits for its target, which wants a
    certificate for the moved prefixes; yet nothing asks for another renewal, and
    once the node has applied what it was given, the gate of the promotion is open. *)
Theorem renewal_in_flight_opens_promotion claimID key eventID preflightAt claimedAt now token publicKey read state claimedState
    claimed network startID startedAt actor input started state' bundle :
  validateStateGraph state = Ok tt → canonicalNebulaPublicKeyPEM publicKey = Ok key →
  renew_claim claimID claimedAt (HashToken (TrimSpace token)) key state = Ok (claimedState, RenewClaimed claimed network) →
  startRouteTransfer startID startedAt actor (Node.NetworkID claimed) input claimedState = Ok started → started ≠ claimedState →
  TrimSpace (StartRouteTransferInput.TargetNodeID input) = Node.ID claimed →
  Renew (Ok claimID) eventID preflightAt claimedAt now token publicKey read (λ _, started) state = (state', Ok bundle) →
  ∃ network' node' caKey bits fingerprint expiresAt,
    findNetwork state' (Node.NetworkID claimed) = Some network' ∧ findNode state' (Node.ID claimed) = Some node' ∧
    Node.Certificate node' = RenewalBundle.Certificate bundle ∧
    SignPublicKey (fst (networkSigningAuthority network)) (string_of caKey) key (Node.Name claimed)
      (Node.IP claimed +:+ "/" +:+ bits) (join "," (Node.Groups claimed)) (join "," (elems (Node.RoutedSubnets claimed)))
      (certificate_ttl network) = Ok (Node.Certificate node', fingerprint, expiresAt) ∧
    let transfer := Network.RouteTransfer network' in
    NetworkRouteTransfer.Phase transfer = RouteTransferPhasePreparingTarget ∧ NetworkRouteTransfer.TargetNodeID transfer = Node.ID node' ∧
    elems (NetworkRouteTransfer.RoutedSubnets transfer) ≠ [] ∧
    (∀ p, p ∈ elems (NetworkRouteTransfer.RoutedSubnets transfer) →
       (p ∉ elems (Node.RoutedSubnets claimed)) ∧ p ∈ elems (certificateRoutedSubnets network' node')) ∧
    networkCertificateProfileRenewalRequired network' node' = false ∧
    ∀ st reported, Node.CertificateGeneration reported = Node.CertificateGeneration node' →
      routeTransferNodeConverged st network' reported (Node.CertificateGeneration reported) = true →
      routeTransferNodeConverged st network' reported (NetworkRouteTransfer.TargetCertificateGeneration transfer) = true.
Proof.
  intros Hv Hkey Hclaim Hstart Hnew Htarget Hrenew. destruct (accepted_state _ Hv) as (nets & nodes & Hacc).
  destruct (renew_halves _ _ _ _ _ _ _ _ _ _ _ _ _ _ _ _ Hrenew Hkey Hclaim) as ([[certificate fingerprint] expiresAt] & Hcert & Hcommit).
  destruct (renew_claimed _ _ _ _ _ _ _ _ Hclaim) as (i & node & Hi & -> & Hnet & Hid & Hsub).
  destruct (start_facts _ _ _ _ _ _ _ Hstart Hnew) as (j & network0 & network' & target & merged & Hj & Hterm & Hedit & Ht & Hnet' & Hnodes &
    Hphase & Htid & Horig & Hne & Hcan & Hmerge & Hgen & Hgen1 & Hgen2). rewrite Htarget in Ht.
  assert (network0 = network) as ->.
  { apply network_at_find in Hj. change (findNetwork (put_node state i claimed) (Node.NetworkID claimed))
      with (findNetwork state (Node.NetworkID claimed)) in Hj. congruence. }
  assert (NoDup (Node.ID <$> State.Nodes (put_node state i claimed))) as Hnd.
  { simpl. rewrite list_fmap_insert, Hid, list_insert_id by (by rewrite list_lookup_fmap, Hi). apply Hacc. }
  assert (claimed ∈ State.Nodes (put_node state i claimed)) as Hin
    by (apply (list_elem_of_lookup_2 _ i), list_lookup_insert_eq; by eapply lookup_lt_Some).
  rewrite (findNode_unique _ _ Hnd Hin) in Ht. injection Ht as <-.
  assert (canonical (Node.RoutedSubnets claimed)) as Hcanon.
  { rewrite Hsub. by apply (accepted_node_fact _ _ _ _ Hacc), (list_elem_of_lookup_2 _ i). }
  pose proof (renew_commit_networks _ _ _ _ _ _ _ _ _ _ Hcommit) as Enets.
  apply renew_commit_call in Hcommit as (-> & latest & renewAfter & _ & _ & En & _). cbv zeta in En. rewrite Hnodes in En.
  unfold renew_certificate in Hcert. apply bind_Ok in Hcert as ([[c f] e] & Hs & Hk). apply guard_iff in Hk as [_ Hk].
  injection Hk as -> -> ->. apply sign_certificate_call in Hs as (caKey & bits & _ & Hs). rewrite (terminal_subnets _ _ Hterm Hedit) in Hs.
  set (node' := renewed_node started now (fst (networkSigningAuthority network)) (Certificate.make certificate fingerprint expiresAt renewAfter) claimed).
  assert (findNode state' (Node.ID claimed) = Some node') as Hfind.
  { change (Node.ID claimed) with (Node.ID node'). apply findNode_unique; rewrite En.
    - rewrite <- list_fmap_compose. rewrite (list_fmap_ext _ Node.ID) by (intros ? n _; simpl; by case_bool_decide). done.
    - apply list_elem_of_fmap. exists claimed. split; [|done]. by rewrite bool_decide_eq_true_2. }
  exists network', node', caKey, bits, fingerprint, expiresAt. cbv zeta. split_and!; try done.
  - unfold findNetwork in *. by rewrite Enets.
  - intros p Hp. split; [intros Hp'; by apply (normalize_app_fresh _ _ _ p Hmerge)|].
    unfold certificateRoutedSubnets. cbv zeta. rewrite Hphase, Htid, Horig, !bool_decide_eq_true_2 by done. simpl.
    apply (elem_of_merge _ _ merged); auto.
  - unfold networkCertificateProfileRenewalRequired. cbv zeta. rewrite Hphase, Hgen. simpl. by rewrite Z.ltb_irrefl, andb_false_r.
  - intros st reported Eg. rewrite Eg, Hgen. done.
Qed.
End race.

(** ** Example: the race, with every state accepted by the store *)
#[local] Existing Instance tagged_crypto.
#[local] Existing Instance spelling_issuer.
Definition race_claim : State.t * renew_outcome :=
  match renew_claim "claim-0000-0000-0001" (61 * day) (HashToken (example_bearer 2)) race_key store_state with
  | Ok outcome => outcome
  | Err _ => (State.zero, RenewClaimed Node.zero Network.zero)
  end.
Definition race_claimed : Node.t := default Node.zero (findNode (fst race_claim) (id_of "b")).
(** The administrator's request, made while the certificate is being signed. *)
Definition race_input : StartRouteTransferInput.t :=
  StartRouteTransferInput.make (id_of "a") (id_of "b") ["192.168.7.0/24"] 3 "request-0000-0001".
Definition race_started : State.t :=
  match startRouteTransfer "event-0000-0000-0001" (61 * day) None "network-0000-0000" race_input (fst race_claim) with
  | Ok state => state
  | Err _ => State.zero
  end.
Definition race_renewal : State.t * result RenewalBundle.t :=
  Renew (Ok "claim-0000-0000-0001") "event-0000-0000-0002" (61 * day) (61 * day) (61 * day) (example_bearer 2) race_key store_state
    (λ _, race_started) store_state.
Definition no_bundle : RenewalBundle.t := RenewalBundle.make "" "" "" "" 0 0 "" 0 0 "" "" "" false false "" 0 "" "".
Definition race_bundle : RenewalBundle.t := match snd race_renewal with Ok bundle => bundle | Err _ => no_bundle end.
(** The agent applies the bundle and reports it; the administrator goes on. *)
Definition race_report (state : State.t) : HeartbeatInput.t :=
  match findNetwork state "network-0000-0000", findNode state (id_of "b") with
  | Some network, Some node =>
      HeartbeatInput.make "1.0" "1.9" (Network.ConfigRevision network) (Node.CertificateGeneration node)
        (ConfigDigest (renderConfig state network node)) (Node.CertificateFingerprint node) true false "healthy" "" "boot" 2
  | _, _ => HeartbeatInput.make "" "" 0 0 "" "" false false "" "" "" 0
  end.
Definition race_reported : result (State.t * Node.t) :=
  let state := fst race_renewal in
  Heartbeat "event-0000-0000-0003" (62 * day) (62 * day) (example_bearer 2) (race_report state) state state.
Definition race_promoted : result State.t :=
  '(state, _) ← race_reported;
  updateRouteTransfer "event-0000-0000-0004" (62 * day) None "network-0000-0000" (UpdateRouteTransferInput.make 4 "request-0000-0001") false state.
Definition accepted_result (r : result State.t) : bool :=
  match r with Ok state => match validateStateGraph state with Ok _ => true | Err _ => false end | Err _ => false end.
(** Every state of the run is accepted, the promotion included; the certificate is
    for no subnet. *)
Example race_runs :
  forallb accepted_result [Ok store_state; Ok (fst race_claim); Ok race_started; Ok (fst race_renewal); fst <$> race_reported; race_promoted] = true ∧
  RenewalBundle.Certificate race_bundle = "subnets=".
Proof. vm_compute. auto. Qed.
Lemma race_claim_ok : renew_claim "claim-0000-0000-0001" (61 * day) (HashToken (TrimSpace (example_bearer 2))) race_key store_state =
  Ok (fst race_claim, RenewClaimed race_claimed store_network).
Proof. vm_compute. reflexivity. Qed.
Lemma race_start_ok : startRouteTransfer "event-0000-0000-0001" (61 * day) None (Node.NetworkID race_claimed) race_input (fst race_claim) =
  Ok race_started.
Proof. vm_compute. reflexivity. Qed.
Lemma race_renewal_ok :
  Renew (Ok "claim-0000-0000-0001") "event-0000-0000-0002" (61 * day) (61 * day) (61 * day) (example_bearer 2) race_key store_state
    (λ _, race_started) store_state = (fst race_renewal, Ok race_bundle).
Proof. vm_compute. reflexivity. Qed.

Lemma renewal_in_flight_opens_promotion_witness : ∃ network' node',
  findNetwork (fst race_renewal) (Node.NetworkID race_claimed) = Some network' ∧
  findNode (fst race_renewal) (Node.ID race_claimed) = Some node' ∧
  NetworkRouteTransfer.Phase (Network.RouteTransfer network') = RouteTransferPhasePreparingTarget ∧
  networkCertificateProfileRenewalRequired network' node' = false.
Proof.
  destruct (renewal_in_flight_opens_promotion "claim-0000-0000-0001" race_key "event-0000-0000-0002" (61 * day) (61 * day) (61 * day)
    (example_bearer 2) race_key store_state store_state (fst race_claim) race_claimed store_network "event-0000-0000-0001" (61 * day) None
    race_input race_started (fst race_renewal) race_bundle)
    as (network' & node' & caKey & bits & fingerprint & expiresAt & Hn & Hd & _ & _ & Hp & _ & _ & _ & Hr & _).
  - vm_compute. reflexivity.
  - vm_compute. reflexivity.
  - exact race_claim_ok.
  - exact race_start_ok.
  - intros E. apply (f_equal (λ s, length (State.Audit s))) in E. vm_compute in E. discriminate E.
  - vm_compute. reflexivity.
  - exact race_renewal_ok.
  - exists network', node'. exact (conj Hn (conj Hd (conj Hp Hr))).
Defined.

(** The same transfer, started before the renewal is claimed. *)
Definition early_started : State.t :=
  match startRouteTransfer "event-0000-0000-0001" (61 * day) None "network-0000-0000" race_input store_state with
  | Ok state => state
  | Err _ => State.zero
  end.
Definition early_claim : State.t * renew_outcome :=
  match renew_claim "claim-0000-0000-0001" (61 * day) (HashToken (example_bearer 2)) race_key early_started with
  | Ok outcome => outcome
  | Err _ => (State.zero, RenewClaimed Node.zero Network.zero)
  end.
Definition early_claimed : Node.t := default Node.zero (findNode (fst early_claim) (id_of "b")).
Definition early_network : Network.t := default Network.zero (findNetwork early_started "network-0000-0000").
Definition early_renewal : State.t * result RenewalBundle.t :=
  Renew (Ok "claim-0000-0000-0001") "event-0000-0000-0002" (61 * day) (61 * day) (61 * day) (example_bearer 2) race_key early_started
    id early_started.
Definition early_bundle : RenewalBundle.t := match snd early_renewal with Ok bundle => bundle | Err _ => no_bundle end.
Lemma early_claim_ok : renew_claim "claim-0000-0000-0001" (61 * day) (HashToken (TrimSpace (example_bearer 2))) race_key early_started =
  Ok (fst early_claim, RenewClaimed early_claimed early_network).
Proof. vm_compute. reflexivity. Qed.
Lemma early_renewal_ok :
  Renew (Ok "claim-0000-0000-0001") "event-0000-0000-0002" (61 * day) (61 * day) (61 * day) (example_bearer 2) race_key early_started
    id early_started = (fst early_renewal, Ok early_bundle).
Proof. vm_compute. reflexivity. Qed.
Example early_certificate : RenewalBundle.Certificate early_bundle = "subnets=192.168.7.0/24".
Proof. vm_compute. reflexivity. Qed.
Lemma store_transfers_ok : transfers_ok store_state.
Proof.
  constructor.
  - apply (bool_decide_unpack _). vm_compute. exact I.
  - apply (bool_decide_unpack _). vm_compute. exact I.
  - intros node Hn. apply list_elem_of_In in Hn as [<-|[<-|[]]]; (split; [|vm_compute; split; discriminate]);
      apply validate_canonical_iff; vm_compute; reflexivity.
  - intros network Hn. apply list_elem_of_In in Hn as [<-|[]]. split; [vm_compute; reflexivity|]. vm_compute. discriminate.
Qed.
Lemma early_run : rtc transfer_step store_state early_started.
Proof. apply rtc_once, (step_start "event-0000-0000-0001" (61 * day) None "network-0000-0000" race_input); [discriminate|]. vm_compute. reflexivity. Qed.
Lemma renewed_certificates_cover_prefixes_witness : ∃ subnets caKey bits fingerprint expiresAt,
  SignPublicKey (fst (networkSigningAuthority early_network)) (string_of caKey) race_key (Node.Name early_claimed)
    (Node.IP early_claimed +:+ "/" +:+ bits) (join "," (Node.Groups early_claimed)) (join "," subnets) (certificate_ttl early_network)
    = Ok (RenewalBundle.Certificate early_bundle, fingerprint, expiresAt) ∧ "192.168.7.0/24" ∈ subnets.
Proof.
  destruct (renewed_certificates_cover_prefixes "claim-0000-0000-0001" race_key "event-0000-0000-0002" (61 * day) (61 * day) (61 * day)
    (example_bearer 2) race_key early_started id store_state early_started (fst early_claim) early_claimed early_network
    (fst early_renewal) early_bundle) as (subnets & caKey & bits & fingerprint & expiresAt & _ & Hs & _ & Ht).
  - exact early_run.
  - exact store_transfers_ok.
  - vm_compute. reflexivity.
  - exact early_claim_ok.
  - vm_compute. reflexivity.
  - exact early_renewal_ok.
  - exists subnets, caKey, bits, fingerprint, expiresAt. split; [exact Hs|]. apply Ht.
    + vm_compute. reflexivity.
    + left. vm_compute. reflexivity.
    + apply (bool_decide_unpack _). vm_compute. exact I.
Defined.

(** The same renewal undisturbed. *)
Definition quiet_renewal : State.t * result RenewalBundle.t :=
  Renew (Ok "claim-0000-0000-0001") "event-0000-0000-0002" (61 * day) (61 * day) (61 * day) (example_bearer 2) race_key store_state id store_state.
Definition quiet_bundle : RenewalBundle.t := match snd quiet_renewal with Ok bundle => bundle | Err _ => no_bundle end.
Lemma quiet_renewal_ok :
  Renew (Ok "claim-0000-0000-0001") "event-0000-0000-0002" (61 * day) (61 * day) (61 * day) (example_bearer 2) race_key store_state id store_state =
  (fst quiet_renewal, Ok quiet_bundle).
Proof. vm_compute. reflexivity. Qed.
