(* ===== verification/Migrations.v ===== *)
(** * Starting the control plane (the Ensure operations of internal/control/service.go
    in the order of cmd/mesh-server/main.go)

    A server binds the state to its credentials, gives every network a signing key
    and brings the state to the current schema, one version at a time.  A
    migration adds the empty value of what its version introduces. *)
From S2P Require Import Prelude GoStd Sha256 GoTime Model AuditLog Routes RouteState Reservations Firewall RoutePolicies.
From S2P Require Import NetworkSettings Render RouteTransfer Credentials CARotation Networks FirewallRollout SignedConfig StateGraph StoreSafety.
From Stdlib Require Import Ascii.
Open Scope Z_scope.

(** ** Binding the credentials *)
Definition adminCredentialVerifierEqual (expected actual : string) : bool :=
  if negb (ValidAdminCredentialVerifier expected) || negb (ValidAdminCredentialVerifier actual) then false
  else TokenHashEqual (TrimPrefix expected adminCredentialVerifierPrefix) (TrimPrefix actual adminCredentialVerifierPrefix).
Definition masterKeyVerifierEqual (expected actual : string) : bool := adminCredentialVerifierEqual expected actual.

Definition validateRecoveryCredentialTransition (currentMaster proposedMaster currentAdmin proposedAdmin : string)
    (allowAdminRotation : bool) : result unit :=
  if (currentMaster == "") && (currentAdmin == "") then Ok tt
  else
    fail ErrConflict when negb (masterKeyVerifierEqual currentMaster proposedMaster);;
    if adminCredentialVerifierEqual currentAdmin proposedAdmin || allowAdminRotation then Ok tt else Err ErrConflict.

Definition CheckRecoveryCredentialBinding (masterVerifier adminVerifier : string) (allowAdminRotation : bool) (read : State.t) :
    result unit :=
  fail ErrInvalid when negb (ValidMasterKeyVerifier masterVerifier) || negb (ValidAdminCredentialVerifier adminVerifier);;
  validateRecoveryCredentialTransition (State.MasterKeyVerifier read) masterVerifier (State.AdminCredentialVerifier read) adminVerifier
    allowAdminRotation.

Definition CheckCurrentRecoveryCredentialBinding (masterVerifier adminVerifier : string) (read : State.t) : result unit :=
  fail ErrInvalid when negb (ValidMasterKeyVerifier masterVerifier) || negb (ValidAdminCredentialVerifier adminVerifier);;
  fail ErrConflict when negb (State.Version read =? ControlStateVersionFirewallScopes)
    || negb (masterKeyVerifierEqual (State.MasterKeyVerifier read) masterVerifier)
    || negb (adminCredentialVerifierEqual (State.AdminCredentialVerifier read) adminVerifier);;
  Ok tt.

Definition EnsureRecoveryCredentialBinding (eventID : string) (now : time) (masterVerifier adminVerifier : string)
    (allowAdminRotation : bool) (state : State.t) : result State.t :=
  fail ErrInvalid when negb (ValidMasterKeyVerifier masterVerifier) || negb (ValidAdminCredentialVerifier adminVerifier);;
  _ ← validateRecoveryCredentialTransition (State.MasterKeyVerifier state) masterVerifier (State.AdminCredentialVerifier state)
        adminVerifier allowAdminRotation;
  if masterKeyVerifierEqual (State.MasterKeyVerifier state) masterVerifier
     && adminCredentialVerifierEqual (State.AdminCredentialVerifier state) adminVerifier then Ok state
  else
    let action := if State.AdminCredentialVerifier state != "" then "admin.credential_rotated" else "admin.credential_bound" in
    fail (ErrOther "administrator credential binding requires a valid timestamp") when IsZero now;;
    let version := if State.Version state <? ControlStateVersionCredentialBinding then ControlStateVersionCredentialBinding
                   else State.Version state in
    Ok (append_audit (state <| State.Version := version |> <| State.MasterKeyVerifier := masterVerifier |>
                            <| State.AdminCredentialVerifier := adminVerifier |>)
          (AuditEvent.make eventID action "administrator" "admin" now None)).

(** ** Migrations

    The operations share their frame: a state of a later version is left as it is,
    one of another version than the one before is a conflict. *)
Definition migrate (eventID : string) (now : time) (from to : Z) (action : string) (counts : details)
    (change : State.t → result State.t) (state : State.t) : result State.t :=
  let version := State.Version state in
  if (to <=? version) && contains supported_versions version then Ok state
  else
    fail ErrConflict when negb (version =? from);;
    fail (ErrOther "schema migration requires a valid timestamp") when IsZero now;;
    migrated ← change state;
    Ok (append_audit (migrated <| State.Version := to |>)
          (newAudit eventID now action "control_state" "control"
             (("from_version", DInt from) :: ("to_version", DInt to) :: counts))).
Definition count_networks (state : State.t) : string * detail := ("networks", DInt (Z.of_nat (length (State.Networks state)))).
Definition count_nodes (state : State.t) : string * detail := ("nodes", DInt (Z.of_nat (length (State.Nodes state)))).
Definition map_networks (f : Network.t → Network.t) (state : State.t) : result State.t :=
  Ok (state <| State.Networks := f <$> State.Networks state |>).

(** The node copied in a retained recovery result.  The maps from identifiers to
    nodes and to networks are searches: the identifiers of a stored state are
    distinct. *)
Definition over_result (f : EnrollmentBundle.t → Node.t → Node.t) (r : AgentRecoveryToken.t) : AgentRecoveryToken.t :=
  match AgentRecoveryToken.Result r with
  | None => r
  | Some result =>
      let b := AgentRecoveryBundle.Bundle result in
      r <| AgentRecoveryToken.Result := Some (result <| AgentRecoveryBundle.Bundle := b <| EnrollmentBundle.Node := f b (EnrollmentBundle.Node b) |> |>) |>
  end.

Definition unassigned (node : Node.t) : Node.t :=
  node <| Node.Site := UnassignedTopologyLabel |> <| Node.FailureDomain := UnassignedTopologyLabel |>.
Definition topology_change (state : State.t) : result State.t :=
  let state := map_nodes unassigned state in
  Ok (state <| State.AgentRecoveries := over_result (λ _ copy,
        match findNode state (Node.ID copy) with
        | Some node => copy <| Node.Site := Node.Site node |> <| Node.FailureDomain := Node.FailureDomain node |>
        | None => copy
        end) <$> State.AgentRecoveries state |>).
Definition EnsureTopologySchema (eventID : string) (now : time) (state : State.t) : result State.t :=
  migrate eventID now ControlStateVersionCredentialBinding ControlStateVersionTopology "control.topology_schema_migrated"
    [count_nodes state] topology_change state.

Definition EnsureNetworkDNSSchema (eventID : string) (now : time) (state : State.t) : result State.t :=
  migrate eventID now ControlStateVersionTopology ControlStateVersionNetworkDNS "control.network_dns_schema_migrated"
    [count_networks state] (map_networks (λ n, n <| Network.DNSSettings := defaultNetworkDNSSettings |>)) state.

Definition EnsureNetworkRelaySchema (eventID : string) (now : time) (state : State.t) : result State.t :=
  migrate eventID now ControlStateVersionNetworkDNS ControlStateVersionNetworkRelays "control.network_relay_schema_migrated"
    [count_networks state] (map_networks (λ n, n <| Network.RelaySettings := defaultNetworkRelaySettings |>)) state.

(** The certificates of v5 were issued by the network's only authority. *)
Definition with_authority (state : State.t) (networkID : string) (node : Node.t) : result Node.t :=
  if Node.Certificate node == "" then Ok node
  else
    network ← of_option (findNetwork state networkID) (ErrOther "missing network during CA rotation migration");
    Ok (node <| Node.CertificateAuthoritySHA256 := ConfigDigest (Network.CACertificate network) |>).
Definition result_authority (state : State.t) (r : AgentRecoveryToken.t) : result AgentRecoveryToken.t :=
  match AgentRecoveryToken.Result r with
  | None => Ok r
  | Some result =>
      let b := AgentRecoveryBundle.Bundle result in
      node ← with_authority state (EnrollmentBundle.NetworkID b) (EnrollmentBundle.Node b);
      Ok (over_result (λ _ _, node) r)
  end.
(** A change of every element of a slice, which stops at the first error. *)
Fixpoint map_result {A} (f : A → result A) (l : list A) : result (list A) :=
  match l with
  | [] => Ok []
  | x :: rest => y ← f x; ys ← map_result f rest; Ok (y :: ys)
  end.
Definition authority_change (state : State.t) : result State.t :=
  let state := state <| State.Networks := (λ n, n <| Network.CARotation := NetworkCARotation.zero |>) <$> State.Networks state |> in
  nodes ← map_result (λ n, with_authority state (Node.NetworkID n) n) (State.Nodes state);
  recoveries ← map_result (result_authority state) (State.AgentRecoveries state);
  Ok (state <| State.Nodes := nodes |> <| State.AgentRecoveries := recoveries |>).
Definition EnsureCARotationSchema (eventID : string) (now : time) (state : State.t) : result State.t :=
  migrate eventID now ControlStateVersionNetworkRelays ControlStateVersionCARotation "control.ca_rotation_schema_migrated"
    [count_networks state; count_nodes state] authority_change state.

Definition EnsureFirewallRolloutSchema (eventID : string) (now : time) (state : State.t) : result State.t :=
  migrate eventID now ControlStateVersionCARotation ControlStateVersionFirewallRollout "control.firewall_rollout_schema_migrated"
    [count_networks state] (map_networks (λ n, n <| Network.FirewallRollout := NetworkFirewallRollout.zero |>)) state.
Definition EnsureFirewallPauseSchema (eventID : string) (now : time) (state : State.t) : result State.t :=
  migrate eventID now ControlStateVersionFirewallRollout ControlStateVersionFirewallPause
    "control.firewall_rollout_pause_schema_migrated" [count_networks state]
    (map_networks (λ n, n <| Network.FirewallRollout := Network.FirewallRollout n <| NetworkFirewallRollout.PausedAt := 0 |> |>)) state.
Definition EnsureRouteTransferSchema (eventID : string) (now : time) (state : State.t) : result State.t :=
  migrate eventID now ControlStateVersionFirewallPause ControlStateVersionRouteTransfer "control.route_transfer_schema_migrated"
    [count_networks state] (map_networks (λ n, n <| Network.RouteTransfer := NetworkRouteTransfer.zero |>)) state.
Definition EnsureRouteProfileEditSchema (eventID : string) (now : time) (state : State.t) : result State.t :=
  migrate eventID now ControlStateVersionRouteTransfer ControlStateVersionRouteProfileEdit
    "control.route_profile_edit_schema_migrated" [count_networks state]
    (map_networks (λ n, n <| Network.RouteProfileEdit := NetworkRouteProfileEdit.zero |>)) state.
Definition EnsureRoutePolicySchema (eventID : string) (now : time) (state : State.t) : result State.t :=
  migrate eventID now ControlStateVersionRouteProfileEdit ControlStateVersionRoutePolicies "control.route_policy_schema_migrated"
    [count_networks state] (map_networks (λ n, n <| Network.RoutePolicies := None |>)) state.
Definition EnsureNativeDNSSchema (eventID : string) (now : time) (state : State.t) : result State.t :=
  migrate eventID now ControlStateVersionRoutePolicies ControlStateVersionNativeDNS "control.native_dns_schema_migrated"
    [count_networks state]
    (map_networks (λ n, n <| Network.DNSSettings := Network.DNSSettings n <| NetworkDNSSettings.NativeResolver := false |>
                                                     <| NetworkDNSSettings.SearchDomain := "" |> |>)) state.
Definition EnsureFirewallScopeSchema (eventID : string) (now : time) (state : State.t) : result State.t :=
  migrate eventID now ControlStateVersionNativeDNS ControlStateVersionFirewallScopes "control.firewall_scope_schema_migrated"
    [count_networks state] Ok state.

(** ** Managed networks *)
Section managed.
Context `{Crypto}.
(** The check of an authority's key pair, and for each network the clock's reading,
    the event's identifier and the new signing key with its sealed private part. *)
Context (validateCAKeyPair : Network.t → list Z → result unit).
Context (clock : nat → time) (eventIDs : nat → string) (configKey : nat → result (string * string)).

(** The renderer of a network's policy is brought to the current version; the
    revision advances when that changes the text. *)
Definition upgraded_renderer (i : nat) (network : Network.t) (state : State.t) : result (State.t * Network.t) :=
  let policy := Network.FirewallPolicy network in
  '(upgraded, changed) ← upgradeFirewallRenderer policy;
  if FirewallPolicy.RendererVersion upgraded =? FirewallPolicy.RendererVersion policy then Ok (state, network)
  else if changed : bool then
    let now := clock i in
    fail (ErrOther "firewall renderer migration has an invalid timestamp") when IsZero now;;
    revision ← nextConfigRevision (Network.ConfigRevision network) true;
    let event := newAudit (eventIDs i) now "network.firewall_renderer_migrated" "network" (Network.ID network)
      [("from_renderer_version", DInt FirewallRendererVersionV1);
       ("to_renderer_version", DInt (FirewallPolicy.RendererVersion upgraded)); ("rendered_bytes_changed", DBool true);
       ("old_sha256", DString (ConfigDigest (renderFirewallPolicy policy)));
       ("new_sha256", DString (ConfigDigest (renderFirewallPolicy upgraded)));
       ("previous_config_revision", DInt (Network.ConfigRevision network)); ("config_revision", DInt revision)] in
    Ok (append_audit state event,
        network <| Network.ConfigRevision := revision |> <| Network.ConfigUpdatedAt := now |> <| Network.FirewallPolicy := upgraded |>)
  else Ok (state, network <| Network.FirewallPolicy := upgraded |>).

(** The renewal time and the generation that old records of active nodes lack. *)
Definition completed_node (network : Network.t) (node : Node.t) : result Node.t :=
  if (Node.NetworkID node != Network.ID network) || (Node.Status node != "active") then Ok node
  else
    let e := ErrOther "active legacy node without complete certificate metadata" in
    fail e when (Node.CertificateGeneration node <? 0) || negb (fingerprintPattern (Node.CertificateFingerprint node))
      || negb (ValidTokenHash (Node.PublicKeyHash node));;
    expires ← of_option (Node.CertificateExpiresAt node) e;
    let renewAfter := default (expires - renewalWindow (wrap64 (Network.CertificateTTL network * hour))) (Node.CertificateRenewAfter node) in
    fail (ErrOther "active node with invalid certificate renewal metadata") when IsZero renewAfter || negb (Before renewAfter expires);;
    Ok (node <| Node.CertificateRenewAfter := Some renewAfter |>
             <| Node.CertificateGeneration := if Node.CertificateGeneration node =? 0 then 1 else Node.CertificateGeneration node |>).

Definition managed_network (i : nat) (network : Network.t) (state : State.t) : result State.t :=
  _ ← Open (Network.EncryptedCAKey network);
  _ ← (if dual_trust network then
         nextKey ← Open (NetworkCARotation.EncryptedNextCAKey (Network.CARotation network));
         validateCAKeyPair (network <| Network.CACertificate := NetworkCARotation.NextCACertificate (Network.CARotation network) |>) nextKey
       else Ok tt);
  '(state, network) ← upgraded_renderer i network state;
  let hasPublicKey := Network.ConfigSigningPublicKey network != "" in
  let hasPrivateKey := Network.EncryptedConfigSigningKey network != "" in
  if hasPublicKey && hasPrivateKey then
    privateKey ← OpenFor "config-signing-key-v1" (Network.EncryptedConfigSigningKey network);
    _ ← ValidateConfigSigningKeyPair (Network.ConfigSigningPublicKey network) privateKey;
    nodes ← map_result (completed_node network) (State.Nodes state);
    Ok (put_network (state <| State.Nodes := nodes |>) i network)
  else
    fail (ErrOther "incomplete config signing key pair") when negb (Bool.eqb hasPublicKey hasPrivateKey);;
    fail (ErrOther "nodes but no config signing key pair")
      when existsb (λ n, Node.NetworkID n == Network.ID network) (State.Nodes state);;
    '(publicKey, encrypted) ← configKey i;
    Ok (put_network state i (network <| Network.ConfigSigningPublicKey := publicKey |>
                                     <| Network.EncryptedConfigSigningKey := encrypted |>)).

Fixpoint managed_networks (i : nat) (networks : list Network.t) (state : State.t) : result State.t :=
  match networks with
  | [] => Ok state
  | network :: rest => state ← managed_network i network state; managed_networks (S i) rest state
  end.
Definition EnsureManagedNetworks (state : State.t) : result State.t := managed_networks 0 (State.Networks state) state.
End managed.

(** ** Starting

    The migrations in the order of main, each with an event identifier and the
    clock's reading; the schema part of the start-up.  Each is an update of the
    store, which checks the state that the migration makes. *)
Definition migrations : list (string → time → State.t → result State.t) :=
  [EnsureTopologySchema; EnsureNetworkDNSSchema; EnsureNetworkRelaySchema; EnsureCARotationSchema; EnsureFirewallRolloutSchema;
   EnsureFirewallPauseSchema; EnsureRouteTransferSchema; EnsureRouteProfileEditSchema; EnsureRoutePolicySchema;
   EnsureNativeDNSSchema; EnsureFirewallScopeSchema].
Fixpoint run_migrations `{Crypto} (steps : list (string → time → State.t → result State.t)) (draws : list (string * time))
    (state : State.t) : result State.t :=
  match steps, draws with
  | step :: steps, (eventID, now) :: draws =>
      next ← step eventID now state;
      _ ← validateStateGraph next;
      run_migrations steps draws next
  | [], _ => Ok state
  | _, [] => Err (ErrOther "no identifier")
  end.

(** ** What the configuration of a node depends on *)


(** A node without its placement and its authority's digest. *)
Definition bare (node : Node.t) : Node.t :=
  node <| Node.Site := "" |> <| Node.FailureDomain := "" |> <| Node.CertificateAuthoritySHA256 := "" |>.

Lemma filter_bare (P : Node.t → bool) (l : list Node.t) :
  (∀ n, P (bare n) = P n) → filter (λ n, P n = true) (bare <$> l) = bare <$> filter (λ n, P n = true) l.
Proof.
  intros HP. induction l as [|n l IH]; [done|]. rewrite fmap_cons, !filter_cons, IH.
  destruct (decide (P n = true)) as [H|H]; destruct (decide (P (bare n) = true)) as [H'|H']; try (rewrite HP in H'; done); done.
Qed.
Lemma field_bare {B} (g : Node.t → B) (l : list Node.t) : (∀ n, g (bare n) = g n) → g <$> (bare <$> l) = g <$> l.
Proof. intros Hg. rewrite <- list_fmap_compose. apply list_fmap_ext. intros i n _. apply Hg. Qed.
Lemma find_bare state id : findNode (map_nodes bare state) id = bare <$> findNode state id.
Proof. by apply findNode_map. Qed.

Lemma lighthouses_bare state network : config_lighthouses (map_nodes bare state) network = bare <$> config_lighthouses state network.
Proof. unfold config_lighthouses. simpl. rewrite filter_bare by done. by apply sort_by_map. Qed.
Lemma blocklist_bare state network : config_blocklist (map_nodes bare state) network = config_blocklist state network.
Proof.
  unfold config_blocklist. simpl. rewrite filter_bare by done. rewrite field_bare by done. do 4 f_equal.
  apply list_filter_iff. intros r. unfold revocation_network. rewrite find_bare. by destruct (findNode _ _).
Qed.
Lemma relays_bare state network : activeNetworkRelays (map_nodes bare state) network = bare <$> activeNetworkRelays state network.
Proof. unfold activeNetworkRelays. case_match; [done|]. simpl. rewrite filter_bare by done. by apply sort_by_map. Qed.
Lemma owners_bare state id prefix : activeRouteOwners (map_nodes bare state) id prefix = bare <$> activeRouteOwners state id prefix.
Proof. unfold activeRouteOwners. simpl. rewrite filter_bare by done. by apply sort_by_map. Qed.
Lemma policy_bare state network prefix : effectiveRoutePolicy (map_nodes bare state) network prefix = effectiveRoutePolicy state network prefix.
Proof. unfold effectiveRoutePolicy. rewrite owners_bare. unfold gateways_of. case_match; by rewrite field_bare. Qed.
Lemma routes_bare state network node : config_routes (map_nodes bare state) network (bare node) = config_routes state network node.
Proof.
  unfold config_routes. f_equal.
  assert (remote_routes (map_nodes bare state) network (bare node) = remote_routes state network node) as ->.
  { unfold remote_routes. change (certificateRoutedSubnets network (bare node)) with (certificateRoutedSubnets network node).
    simpl. rewrite filter_bare by done. by rewrite field_bare. }
  apply list_omap_ext, Forall_Forall2_diag, Forall_true. intros route. unfold routed_entry. rewrite policy_bare.
  assert (∀ l, omap (λ g, (λ candidate, (Node.IP candidate, NetworkRoutePolicyGateway.Weight g)) <$>
                       findNode (map_nodes bare state) (NetworkRoutePolicyGateway.NodeID g)) l =
               omap (λ g, (λ candidate, (Node.IP candidate, NetworkRoutePolicyGateway.Weight g)) <$>
                       findNode state (NetworkRoutePolicyGateway.NodeID g)) l) as ->; [|done].
  intros l. apply list_omap_ext, Forall_Forall2_diag, Forall_true. intros g. rewrite find_bare. by destruct (findNode _ _).
Qed.
Lemma firewall_bare state node policy :
  effectiveFirewallPolicyForNode (map_nodes bare state) (bare node) policy = effectiveFirewallPolicyForNode state node policy.
Proof.
  assert (∀ rules, compileFirewallRulesForNode (map_nodes bare state) (bare node) rules = compileFirewallRulesForNode state node rules) as E.
  { intros rules. unfold compileFirewallRulesForNode. f_equal. apply list_omap_ext, Forall_Forall2_diag, Forall_true. intros rule.
    unfold compile_rule. change (firewallRuleTargetsNode rule (bare node)) with (firewallRuleTargetsNode rule node).
    destruct (negb _); [done|]. case_match; [|done]. rewrite find_bare. by destruct (findNode _ _). }
  unfold effectiveFirewallPolicyForNode. by rewrite !E.
Qed.
Lemma render_bare state network node : renderConfig (map_nodes bare state) network (bare node) = renderConfig state network node.
Proof.
  unfold renderConfig. rewrite blocklist_bare, lighthouses_bare, routes_bare.
  change (firewallPolicyForNode network (bare node)) with (firewallPolicyForNode network node). rewrite firewall_bare.
  change (certificateRoutedSubnets network (bare node)) with (certificateRoutedSubnets network node).
  assert (renderNativeDNSPolicy (map_nodes bare state) network (bare node) = renderNativeDNSPolicy state network node) as ->.
  { unfold renderNativeDNSPolicy, nativeDNSPolicy. destruct (_ || _); [done|]. simpl. rewrite filter_bare by done. by rewrite field_bare. }
  assert (render_lighthouses network (bare node) (bare <$> config_lighthouses state network) =
          render_lighthouses network node (config_lighthouses state network)) as ->.
  { unfold render_lighthouses. simpl.
    assert (filter (λ lh, Node.ID lh ≠ Node.ID node) (bare <$> config_lighthouses state network) =
            bare <$> filter (λ lh, Node.ID lh ≠ Node.ID node) (config_lighthouses state network)) as ->.
    { induction (config_lighthouses state network) as [|n l IH]; [done|]. rewrite fmap_cons, !filter_cons, IH. simpl. by case_decide. }
    rewrite length_fmap. rewrite !field_bare by done. done. }
  assert (render_relays (map_nodes bare state) network (bare node) = render_relays state network node) as ->; [|done].
  unfold render_relays. case_match; [done|]. rewrite relays_bare, length_fmap. by rewrite field_bare.
Qed.

(** ** Networks before and after *)

(** A network without its DNS and relay settings. *)
Definition core (network : Network.t) : Network.t :=
  network <| Network.DNSSettings := NetworkDNSSettings.zero |> <| Network.RelaySettings := NetworkRelaySettings.zero |>.
Definition dns_off (network : Network.t) : bool := negb (NetworkDNSSettings.Enabled (Network.DNSSettings network)).
Definition relays_off (network : Network.t) : bool := negb (NetworkRelaySettings.Enabled (Network.RelaySettings network)).
Record same_network (n n' : Network.t) : Prop := {
  same_core : core n = core n';
  same_dns : Network.DNSSettings n = Network.DNSSettings n' ∨ dns_off n && dns_off n' = true;
  same_relays : Network.RelaySettings n = Network.RelaySettings n' ∨ relays_off n && relays_off n' = true }.

#[export] Instance same_network_preorder : PreOrder same_network.
Proof.
  split.
  - intros n. by split; [|left|left].
  - intros a b c [E1 D1 R1] [E2 D2 R2]. split; [congruence| |].
    + unfold dns_off in *. destruct D1 as [D1|D1], D2 as [D2|D2];
        [left; congruence|right; by rewrite D1|right; by rewrite <- D2|right]. rewrite andb_true_iff in *. tauto.
    + unfold relays_off in *. destruct R1 as [R1|R1], R2 as [R2|R2];
        [left; congruence|right; by rewrite R1|right; by rewrite <- R2|right]. rewrite andb_true_iff in *. tauto.
Qed.

Lemma effective_dns_off s : NetworkDNSSettings.Enabled s = false → NetworkDNSSettings.Enabled (effectiveNetworkDNSSettings s) = false.
Proof. unfold effectiveNetworkDNSSettings. by case_match. Qed.
Lemma effective_relays_off s : NetworkRelaySettings.Enabled s = false → NetworkRelaySettings.Enabled (effectiveNetworkRelaySettings s) = false.
Proof. unfold effectiveNetworkRelaySettings. by case_match. Qed.

(** The settings that are off leave no trace in the configuration. *)
Lemma render_dns_off state network node settings :
  dns_off network = true → NetworkDNSSettings.Enabled settings = false →
  renderConfig state (network <| Network.DNSSettings := settings |>) node = renderConfig state network node.
Proof.
  unfold dns_off. intros Hoff%negb_true_iff Hs.
  assert (∀ n, NetworkDNSSettings.Enabled (Network.DNSSettings n) = false → renderNativeDNSPolicy state n node = "") as Hn.
  { intros n Hd. unfold renderNativeDNSPolicy, nativeDNSPolicy. by rewrite (effective_dns_off _ Hd). }
  assert (∀ l, render_lighthouses (network <| Network.DNSSettings := settings |>) node l = render_lighthouses network node l) as E.
  { intros l. unfold render_lighthouses. simpl. by rewrite Hoff, Hs, !andb_false_r. }
  unfold renderConfig. rewrite !Hn by done. by rewrite E.
Qed.
Lemma render_relays_off state network node settings :
  relays_off network = true → NetworkRelaySettings.Enabled settings = false →
  renderConfig state (network <| Network.RelaySettings := settings |>) node = renderConfig state network node.
Proof.
  unfold relays_off. intros Hoff%negb_true_iff Hs.
  assert (∀ n, NetworkRelaySettings.Enabled (Network.RelaySettings n) = false → render_relays state n node = "") as Hn.
  { intros n Hd. unfold render_relays. by rewrite (effective_relays_off _ Hd). }
  unfold renderConfig. by rewrite !Hn.
Qed.
Lemma render_same state network network' node :
  same_network network network' → renderConfig state network' node = renderConfig state network node.
Proof.
  intros [Hc Hd Hr]. set (changed := network <| Network.DNSSettings := Network.DNSSettings network' |>).
  assert (network' = changed <| Network.RelaySettings := Network.RelaySettings network' |>) as E.
  { subst changed. destruct network, network'. unfold core in Hc. simpl in *. injection Hc. intros. by subst. }
  assert (renderConfig state changed node = renderConfig state network node) as <-.
  { subst changed. destruct Hd as [<-|Hd]; [by destruct network|]. apply andb_true_iff in Hd as [Ha Hb].
    apply render_dns_off; [done|]. by apply negb_true_iff in Hb. }
  rewrite E. destruct Hr as [<-|Hr]; [by destruct network|]. apply andb_true_iff in Hr as [Ha Hb].
  apply render_relays_off; [done|]. by apply negb_true_iff in Hb.
Qed.

(** Before v12 the native resolver is not asked for its version; the migration to
    v12 clears what a state says about it. *)
Definition native_off (network : Network.t) : Network.t :=
  network <| Network.DNSSettings := Network.DNSSettings network <| NetworkDNSSettings.NativeResolver := false |>
                                                                <| NetworkDNSSettings.SearchDomain := "" |> |>.
Definition settled_network (version : Z) (network : Network.t) : Network.t :=
  if version <? ControlStateVersionNativeDNS then native_off network else network.
Definition settled (version : Z) (state : State.t) : State.t :=
  state <| State.Networks := settled_network version <$> State.Networks state |>.

(** ** What a migration keeps *)
Record keeps (s s' : State.t) : Prop := {
  keeps_networks : Forall2 same_network (State.Networks s) (State.Networks s');
  keeps_nodes : bare <$> State.Nodes s = bare <$> State.Nodes s';
  keeps_revocations : State.Revocations s = State.Revocations s' }.
#[export] Instance keeps_preorder : PreOrder keeps.
Proof.
  split; [intros s; split; [reflexivity|done..]|].
  intros a b c [N1 M1 R1] [N2 M2 R2]. split; [by etrans|congruence..].
Qed.

Lemma keeps_find_network s s' id network :
  keeps s s' → findNetwork s id = Some network → ∃ network', findNetwork s' id = Some network' ∧ same_network network network'.
Proof.
  intros [Hn _ _]. unfold findNetwork. induction Hn as [|a b l l' Hab Hl IH]; [done|]. simpl.
  assert (Network.ID b = Network.ID a) as E. { destruct Hab as [Hc _ _]. by apply (f_equal Network.ID) in Hc. }
  rewrite E. case_decide; simpl; [intros [= <-]; eauto|]. intros Hf.
  destruct (list_find _ l) as [[i x]|] eqn:Ef; simpl in *; [|done]. injection Hf as ->. destruct (IH eq_refl) as (y & Hy & Hs).
  destruct (list_find _ l') as [[j z]|]; simpl in *; [|done]. injection Hy as ->. eauto.
Qed.

(** Rendering reads the nodes and the revocations of the state. *)
Lemma render_state s s' network node :
  State.Nodes s = State.Nodes s' → State.Revocations s = State.Revocations s' → renderConfig s network node = renderConfig s' network node.
Proof. destruct s, s'. simpl. by intros -> ->. Qed.

Lemma keeps_config s s' i node node' network network' :
  keeps s s' → State.Nodes s !! i = Some node → State.Nodes s' !! i = Some node' → same_network network network' →
  renderConfig s' network' node' = renderConfig s network node.
Proof.
  intros [_ Hn Hr] Hi Hi' Hs. rewrite (render_same _ _ _ _ Hs), <- (render_bare s), <- (render_bare s').
  assert (bare node = bare node') as ->.
  { apply (f_equal (.!! i)) in Hn. rewrite !list_lookup_fmap, Hi, Hi' in Hn. by apply (inj Some) in Hn. }
  symmetry. by apply render_state.
Qed.

(** ** One migration at a time *)

(** Before the version that introduces it, a network's setting is empty. *)
Record unused (version : Z) (n : Network.t) : Prop := {
  unused_dns : version < ControlStateVersionNetworkDNS → Network.DNSSettings n = NetworkDNSSettings.zero;
  unused_relays : version < ControlStateVersionNetworkRelays → Network.RelaySettings n = NetworkRelaySettings.zero;
  unused_rotation : version < ControlStateVersionCARotation → Network.CARotation n = NetworkCARotation.zero;
  unused_rollout : version < ControlStateVersionFirewallRollout → Network.FirewallRollout n = NetworkFirewallRollout.zero;
  unused_pause : version < ControlStateVersionFirewallPause → NetworkFirewallRollout.PausedAt (Network.FirewallRollout n) = 0;
  unused_transfer : version < ControlStateVersionRouteTransfer → Network.RouteTransfer n = NetworkRouteTransfer.zero;
  unused_edit : version < ControlStateVersionRouteProfileEdit → Network.RouteProfileEdit n = NetworkRouteProfileEdit.zero;
  unused_policies : version < ControlStateVersionRoutePolicies → Network.RoutePolicies n = None }.
(** Nodes and retained recovery results lead to a network. *)
Definition linked (s : State.t) : Prop :=
  Forall (λ n, Node.NetworkID n ∈ Network.ID <$> State.Networks s) (State.Nodes s) ∧
  Forall (λ r, ∀ result, AgentRecoveryToken.Result r = Some result →
    EnrollmentBundle.NetworkID (AgentRecoveryBundle.Bundle result) ∈ Network.ID <$> State.Networks s) (State.AgentRecoveries s).
Definition ready (s : State.t) : Prop := Forall (unused (State.Version s)) (State.Networks s) ∧ linked s.

Definition step_spec (from : Z) (step : string → time → State.t → result State.t) : Prop :=
  ∀ eventID now s, now ≠ 0 →
    (from < State.Version s ≤ ControlStateVersionFirewallScopes → step eventID now s = Ok s) ∧
    (State.Version s = from → ready s →
     ∃ s', step eventID now s = Ok s' ∧ State.Version s' = from + 1 ∧ ready s' ∧ keeps (settled from s) (settled (from + 1) s')).

Lemma supported v : 1 ≤ v ≤ ControlStateVersionFirewallScopes → contains supported_versions v = true.
Proof.
  unfold ControlStateVersionFirewallScopes. intros Hv.
  assert (v = 1 ∨ v = 2 ∨ v = 3 ∨ v = 4 ∨ v = 5 ∨ v = 6 ∨ v = 7 ∨ v = 8 ∨ v = 9 ∨ v = 10 ∨ v = 11 ∨ v = 12 ∨ v = 13) as H by lia.
  by repeat destruct H as [->|H]; [..|subst v].
Qed.

(** What is asked of the change that a migration makes. *)
Lemma migrate_spec from action (counts : State.t → details) change :
  1 ≤ from ≤ 12 →
  (∀ s, State.Version s = from → ready s →
     ∃ m, change s = Ok m ∧ Forall (unused (from + 1)) (State.Networks m) ∧ linked m ∧ keeps (settled from s) (settled (from + 1) m)) →
  step_spec from (λ eventID now s, migrate eventID now from (from + 1) action (counts s) change s).
Proof.
  intros Hfrom Hchange eventID now s Hnow. unfold migrate. cbv zeta. split.
  - intros Hv. rewrite supported by lia. by destruct (Z.leb_spec (from + 1) (State.Version s)); [|lia].
  - intros Ev Hr. destruct (Hchange s Ev Hr) as (m & Hm & Hu & Hl & Hk).
    destruct (Z.leb_spec (from + 1) (State.Version s)); [lia|]. simpl. rewrite Ev, Z.eqb_refl. simpl.
    unfold IsZero. destruct (Z.eqb_spec now 0); [done|]. simpl. rewrite Hm. simpl. eexists. split; [done|]. split; [done|].
    split; [done|]. destruct Hk. by split.
Qed.

Lemma linked_ids s m :
  Network.ID <$> State.Networks m = Network.ID <$> State.Networks s → State.Nodes m = State.Nodes s →
  State.AgentRecoveries m = State.AgentRecoveries s → linked s → linked m.
Proof. unfold linked. by intros -> -> ->. Qed.

(** A change of the networks alone. *)
Lemma map_networks_spec from g :
  (∀ n, unused from n → unused (from + 1) (g n) ∧ Network.ID (g n) = Network.ID n ∧
     same_network (settled_network from n) (settled_network (from + 1) (g n))) →
  ∀ s, State.Version s = from → ready s →
  ∃ m, map_networks g s = Ok m ∧ Forall (unused (from + 1)) (State.Networks m) ∧ linked m ∧ keeps (settled from s) (settled (from + 1) m).
Proof.
  intros Hg s Ev [Hu Hl]. rewrite Ev in Hu. eexists. split; [done|]. simpl. split; [|split; [|split; [|done..]]].
  - apply Forall_fmap. apply (Forall_impl _ _ _ Hu). intros n Hn. by apply Hg.
  - eapply (linked_ids s); [|done..]. simpl. rewrite <- list_fmap_compose. apply list_fmap_ext. intros i n Hi. simpl.
    rewrite Forall_lookup in Hu. by apply Hg, (Hu i).
  - simpl. rewrite <- list_fmap_compose. apply Forall2_fmap, Forall_Forall2_diag. apply (Forall_impl _ _ _ Hu). intros n Hn. by apply Hg.
Qed.

(** A setting that was empty is set to its empty value: the network stays, and
    only DNS and relay settings that are off become explicit. *)
Ltac solve_network_step :=
  intros n Hn; destruct Hn;
  unfold ControlStateVersionNetworkDNS, ControlStateVersionNetworkRelays, ControlStateVersionCARotation,
    ControlStateVersionFirewallRollout, ControlStateVersionFirewallPause, ControlStateVersionRouteTransfer,
    ControlStateVersionRouteProfileEdit, ControlStateVersionRoutePolicies in *;
  unfold settled_network, native_off; destruct n; simpl in *;
  repeat match goal with
  | H : ?v < ?w → _ |- _ => first [ assert (v < w) as _ by lia; specialize (H ltac:(lia)) | assert (w ≤ v) as _ by lia; clear H ]
  | H : _ ∧ _ |- _ => destruct H
  end; simplify_eq/=;
  repeat match goal with x : NetworkFirewallRollout.t |- _ => destruct x | x : NetworkDNSSettings.t |- _ => destruct x end;
  simplify_eq/=;
  (split; [split; simpl; intros; first [lia | done | tauto] | split; [done | split; simpl; first [done | by left | by right]]]).

Lemma dns_step : step_spec 3 EnsureNetworkDNSSchema.
Proof. refine (migrate_spec 3 _ (λ s, [count_networks s]) _ _ _); [lia|]. apply map_networks_spec. solve_network_step. Qed.
Lemma relay_step : step_spec 4 EnsureNetworkRelaySchema.
Proof. refine (migrate_spec 4 _ (λ s, [count_networks s]) _ _ _); [lia|]. apply map_networks_spec. solve_network_step. Qed.
Lemma rollout_step : step_spec 6 EnsureFirewallRolloutSchema.
Proof. refine (migrate_spec 6 _ (λ s, [count_networks s]) _ _ _); [lia|]. apply map_networks_spec. solve_network_step. Qed.
Lemma pause_step : step_spec 7 EnsureFirewallPauseSchema.
Proof. refine (migrate_spec 7 _ (λ s, [count_networks s]) _ _ _); [lia|]. apply map_networks_spec. solve_network_step. Qed.
Lemma transfer_schema_step : step_spec 8 EnsureRouteTransferSchema.
Proof. refine (migrate_spec 8 _ (λ s, [count_networks s]) _ _ _); [lia|]. apply map_networks_spec. solve_network_step. Qed.
Lemma edit_schema_step : step_spec 9 EnsureRouteProfileEditSchema.
Proof. refine (migrate_spec 9 _ (λ s, [count_networks s]) _ _ _); [lia|]. apply map_networks_spec. solve_network_step. Qed.
Lemma policy_step : step_spec 10 EnsureRoutePolicySchema.
Proof. refine (migrate_spec 10 _ (λ s, [count_networks s]) _ _ _); [lia|]. apply map_networks_spec. solve_network_step. Qed.
Lemma native_step : step_spec 11 EnsureNativeDNSSchema.
Proof. refine (migrate_spec 11 _ (λ s, [count_networks s]) _ _ _); [lia|]. apply map_networks_spec. solve_network_step. Qed.
Lemma scope_step : step_spec 12 EnsureFirewallScopeSchema.
Proof.
  refine (migrate_spec 12 _ (λ s, [count_networks s]) _ _ _); [lia|]. intros s Ev [Hu Hl]. exists s. split; [done|].
  split; [|split; [done|reflexivity]]. rewrite Ev in Hu. apply (Forall_impl _ _ _ Hu). intros n [].
  split; unfold ControlStateVersionNetworkDNS, ControlStateVersionNetworkRelays, ControlStateVersionCARotation,
    ControlStateVersionFirewallRollout, ControlStateVersionFirewallPause, ControlStateVersionRouteTransfer,
    ControlStateVersionRouteProfileEdit, ControlStateVersionRoutePolicies in *; lia.
Qed.

(** The networks of a copied node. *)
Lemma over_result_network f r result :
  AgentRecoveryToken.Result (over_result f r) = Some result →
  ∃ old, AgentRecoveryToken.Result r = Some old ∧
    EnrollmentBundle.NetworkID (AgentRecoveryBundle.Bundle result) = EnrollmentBundle.NetworkID (AgentRecoveryBundle.Bundle old).
Proof. unfold over_result. destruct (AgentRecoveryToken.Result r) as [old|] eqn:E; [|by rewrite E]. simpl. intros [= <-]. eauto. Qed.

Lemma topology_step : step_spec 2 EnsureTopologySchema.
Proof.
  refine (migrate_spec 2 _ (λ s, [count_nodes s]) _ _ _); [lia|]. intros s Ev [Hu [Hn Hr]]. eexists. split; [done|]. simpl. split; [|split].
  - rewrite Ev in Hu. apply (Forall_impl _ _ _ Hu). intros n [].
    split; unfold ControlStateVersionNetworkDNS, ControlStateVersionNetworkRelays, ControlStateVersionCARotation,
      ControlStateVersionFirewallRollout, ControlStateVersionFirewallPause, ControlStateVersionRouteTransfer,
      ControlStateVersionRouteProfileEdit, ControlStateVersionRoutePolicies in *; intuition lia.
  - split; simpl.
    + apply Forall_fmap. by apply (Forall_impl _ _ _ Hn).
    + apply Forall_fmap. apply (Forall_impl _ _ _ Hr). intros r H result (old & Ho & ->)%over_result_network. eauto.
  - split; simpl; [reflexivity| |done]. rewrite <- list_fmap_compose. by apply list_fmap_ext.
Qed.

Lemma map_result_Ok {A} (f : A → result A) (l : list A) (R : A → A → Prop) :
  Forall (λ x, ∃ y, f x = Ok y ∧ R x y) l → ∃ l', map_result f l = Ok l' ∧ Forall2 R l l'.
Proof.
  induction 1 as [|x l (y & Hy & HR) _ (l' & Hl & H2)]; simpl; [by exists []|].
  rewrite Hy. simpl. rewrite Hl. simpl. exists (y :: l'). split; [done|by constructor].
Qed.
Lemma find_network_in s id : id ∈ Network.ID <$> State.Networks s → is_Some (findNetwork s id).
Proof.
  intros (n & -> & Hn)%list_elem_of_fmap. unfold findNetwork. apply fmap_is_Some.
  destruct (list_find_elem_of (λ v, Network.ID v = Network.ID n) (State.Networks s) n Hn eq_refl) as [p ->]. eauto.
Qed.
Lemma with_authority_Ok s id node :
  id ∈ Network.ID <$> State.Networks s → ∃ node', with_authority s id node = Ok node' ∧ bare node' = bare node ∧
    Node.NetworkID node' = Node.NetworkID node.
Proof.
  intros [network E]%find_network_in. unfold with_authority. rewrite E. case_bool_decide; simpl; by eexists.
Qed.

Lemma rotation_cleared n :
  unused 5 n → unused (5 + 1) (n <| Network.CARotation := NetworkCARotation.zero |>) ∧ Network.ID n = Network.ID n ∧
    same_network (settled_network 5 n) (settled_network (5 + 1) (n <| Network.CARotation := NetworkCARotation.zero |>)).
Proof. revert n. solve_network_step. Qed.

Lemma authority_step : step_spec 5 EnsureCARotationSchema.
Proof.
  refine (migrate_spec 5 _ (λ s, [count_networks s; count_nodes s]) _ _ _); [lia|]. intros s Ev [Hu [Hn Hr]]. unfold authority_change.
  set (s0 := s <| State.Networks := _ |>).
  assert (Network.ID <$> State.Networks s0 = Network.ID <$> State.Networks s) as Eid.
  { unfold s0. simpl. rewrite <- list_fmap_compose. by apply list_fmap_ext. }
  destruct (map_result_Ok (λ n, with_authority s0 (Node.NetworkID n) n) (State.Nodes s0)
              (λ n n', bare n' = bare n ∧ Node.NetworkID n' = Node.NetworkID n)) as (nodes & Hnodes & Hb).
  { apply (Forall_impl _ _ _ Hn). intros n Hin. apply with_authority_Ok. by rewrite Eid. }
  destruct (map_result_Ok (result_authority s0) (State.AgentRecoveries s0)
              (λ r r', ∃ f, r' = over_result f r)) as (recoveries & Hrec & Hb').
  { apply (Forall_impl _ _ _ Hr). intros r H. unfold result_authority. destruct (AgentRecoveryToken.Result r) as [result|] eqn:E.
    - destruct (with_authority_Ok s0 (EnrollmentBundle.NetworkID (AgentRecoveryBundle.Bundle result))
                  (EnrollmentBundle.Node (AgentRecoveryBundle.Bundle result))) as (node' & Ha & _); [rewrite Eid; by apply H|].
      rewrite Ha. simpl. eauto.
    - eexists. split; [done|]. exists (λ _ n, n). unfold over_result. by rewrite E. }
  rewrite Hnodes. cbn [mbind result_bind]. rewrite Hrec. cbn [mbind result_bind]. eexists. split; [done|]. simpl.
  rewrite Ev in Hu. split; [|split; [split; simpl|split; simpl]].
  - apply Forall_fmap. apply (Forall_impl _ _ _ Hu). intros n Hn'. by apply rotation_cleared.
  - unfold s0 in Eid. simpl in Eid. rewrite Eid. apply Forall_lookup. intros i n' Hi. destruct (Forall2_lookup_r _ _ _ _ _ Hb Hi) as (n & Hl & _ & ->).
    rewrite Forall_lookup in Hn. by apply (Hn i).
  - unfold s0 in Eid. simpl in Eid. rewrite Eid. apply Forall_lookup. intros i r' Hi result Hres.
    destruct (Forall2_lookup_r _ _ _ _ _ Hb' Hi) as (r & Hl & f & ->). apply over_result_network in Hres as (old & Ho & ->).
    rewrite Forall_lookup in Hr. by apply (Hr i r Hl).
  - rewrite <- list_fmap_compose. apply Forall2_fmap, Forall_Forall2_diag. apply (Forall_impl _ _ _ Hu). intros n Hn'. by apply rotation_cleared.
  - clear -Hb. simpl in Hb. induction Hb as [|n n' l l' [E _] _ IH]; [done|]. rewrite !fmap_cons, IH. by rewrite E.
  - done.
Qed.

(** ** The chain

    A run that starts from a state accepted and ready either goes through, or ends
    with the refusal of a state that a migration made. *)
Definition refused `{Crypto} (state : State.t) (e : err) : Prop :=
  ∃ made, validateStateGraph made = Err e ∧ State.Version state < State.Version made ≤ ControlStateVersionFirewallScopes ∧
    keeps (settled (State.Version state) state) (settled (State.Version made) made).
Lemma settled_last s : settled ControlStateVersionFirewallScopes s = s.
Proof. unfold settled, settled_network. simpl. rewrite list_fmap_id. by destruct s. Qed.

Lemma chain `{Crypto} steps : ∀ from draws s,
  (∀ k step, steps !! k = Some step → step_spec (from + Z.of_nat k) step) →
  from + Z.of_nat (length steps) = ControlStateVersionFirewallScopes → length draws = length steps → Forall (λ d, d.2 ≠ 0) draws →
  from ≤ State.Version s ≤ ControlStateVersionFirewallScopes → ready s → validateStateGraph s = Ok tt →
  match run_migrations steps draws s with
  | Ok s' => State.Version s' = ControlStateVersionFirewallScopes ∧ ready s' ∧ validateStateGraph s' = Ok tt ∧
      keeps (settled (State.Version s) s) s' ∧ (State.Version s = ControlStateVersionFirewallScopes → s' = s)
  | Err e => State.Version s < ControlStateVersionFirewallScopes ∧ refused s e
  end.
Proof.
  induction steps as [|step steps IH]; intros from draws s Hsteps Hlen Hd Hnow Hv Hr Ha.
  - simpl in *. assert (State.Version s = ControlStateVersionFirewallScopes) as Ev by lia.
    split_and!; try done. rewrite Ev, settled_last. reflexivity.
  - destruct draws as [|[eventID now] draws]; [done|]. apply Forall_cons in Hnow as [Hn Hnow]. simpl in *.
    pose proof (Hsteps 0%nat step eq_refl eventID now s Hn) as [Hlater Hstep]. rewrite Z.add_0_r in Hlater, Hstep.
    assert (∀ k x, steps !! k = Some x → step_spec (from + 1 + Z.of_nat k) x) as Hrest.
    { intros k x Hk. replace (from + 1 + Z.of_nat k) with (from + Z.of_nat (S k)) by lia. by apply Hsteps. }
    destruct (decide (State.Version s = from)) as [E|E].
    + destruct (Hstep E Hr) as (s1 & Hs1 & Ev1 & Hr1 & Hk1). rewrite <- Ev1, <- E in Hk1. rewrite Hs1. simpl.
      destruct (validateStateGraph s1) as [[]|e] eqn:Hv1; simpl; [|split; [lia|]; exists s1; split; [done|]; split; [lia|done]].
      specialize (IH (from + 1) draws s1 Hrest ltac:(lia) ltac:(lia) Hnow ltac:(lia) Hr1 Hv1).
      destruct (run_migrations steps draws s1) as [s'|e].
      * destruct IH as (Ev & Hr' & Ha' & Hk & _). split_and!; try done; [by etrans|lia].
      * destruct IH as (Hlt & made & Hm & Hver & Hk). split; [lia|]. exists made. split; [done|]. split; [lia|by etrans].
    + rewrite Hlater by lia. simpl. rewrite Ha. simpl. apply (IH (from + 1)); try done; lia.
Qed.
Lemma migrations_specs k step : migrations !! k = Some step → step_spec (2 + Z.of_nat k) step.
Proof.
  unfold migrations. do 11 (destruct k as [|k]; [intros [= <-]; simpl;
    first [exact topology_step|exact dns_step|exact relay_step|exact authority_step|exact rollout_step|exact pause_step
          |exact transfer_schema_step|exact edit_schema_step|exact policy_step|exact native_step|exact scope_step]|]). done.
Qed.

(** ** From an accepted state *)
Lemma since_empty state version empty check :
  since state version empty check = Ok tt → State.Version state < version → empty = true.
Proof. unfold since. intros H Hv. destruct (Z.ltb_spec (State.Version state) version); [|lia]. destruct empty; [done|discriminate H]. Qed.
Lemma zero_rollout_eq r : zeroNetworkFirewallRollout r = true → r = NetworkFirewallRollout.zero.
Proof.
  destruct r as [phase policy canaries started paused revision], policy as [mode version inbound outbound].
  unfold zeroNetworkFirewallRollout, zeroFirewallPolicy, IsZero. simpl. intros H. split_bools.
  destruct canaries, inbound, outbound; try done. rewrite !Z.eqb_eq in *. by subst.
Qed.
Lemma zero_transfer_eq t : zeroNetworkRouteTransfer t = true → t = NetworkRouteTransfer.zero.
Proof.
  destruct t as [a b c d e f g h i j k l]. unfold zeroNetworkRouteTransfer, IsZero. simpl. intros H. split_bools.
  destruct e, f, g; try done. rewrite !Z.eqb_eq in *. by subst.
Qed.
Lemma zero_edit_eq e : zeroNetworkRouteProfileEdit e = true → e = NetworkRouteProfileEdit.zero.
Proof.
  destruct e as [a b c d e f g h i j]. unfold zeroNetworkRouteProfileEdit, IsZero. simpl. intros H. split_bools.
  destruct d, e; try done. rewrite !Z.eqb_eq in *. by subst.
Qed.

Lemma accepted_unused state n :
  network_accepted state n → unused (State.Version state) n.
Proof.
  intros (_ & _ & Hc). revert Hc. unfold network_checks. cbv zeta. open_guards.
  intros (_ & _ & _ & [] & _ & [] & _ & _ & [] & Hdns & [] & Hrel & [] & Hca & [] & Hro & _ & [] & Htr & [] & Hed & Hpol).
  split; intros Hv.
  - by apply since_empty, bool_decide_eq_true in Hdns.
  - apply since_empty in Hrel; [|done]. split_bools. destruct (Network.RelaySettings n). simpl in *. by subst.
  - by apply since_empty, bool_decide_eq_true in Hca.
  - by apply since_empty, zero_rollout_eq in Hro.
  - destruct (decide (State.Version state < ControlStateVersionFirewallRollout)) as [Hv'|Hv'].
    { apply since_empty, zero_rollout_eq in Hro; [|done]. by rewrite Hro. }
    unfold since in Hro. destruct (Z.ltb_spec (State.Version state) ControlStateVersionFirewallRollout); [lia|].
    unfold validateNetworkFirewallRollout in Hro. cbv zeta in Hro. destruct (Z.ltb_spec (State.Version state) ControlStateVersionFirewallPause); [|lia].
    destruct (decide (NetworkFirewallRollout.Phase (Network.FirewallRollout n) = "")) as [Ep|Ep];
      [rewrite (bool_decide_eq_true_2 _ Ep) in Hro|rewrite (bool_decide_eq_false_2 _ Ep) in Hro]; revert Hro; open_guards;
      [intros [Hz _]|intros (_ & Hz & _)].
    + apply negb_false_iff, zero_rollout_eq in Hz. by rewrite Hz.
    + simpl in Hz. apply negb_false_iff in Hz. unfold IsZero in Hz. lia.
  - by apply since_empty, zero_transfer_eq in Htr.
  - by apply since_empty, zero_edit_eq in Hed.
  - by apply since_empty, bool_decide_eq_true in Hpol.
Qed.

Section startup.
Context `{Crypto}.

Lemma accepted_version state : validateStateGraph state = Ok tt → State.Version state ≤ ControlStateVersionFirewallScopes.
Proof.
  unfold validateStateGraph, graph_version. open_guards. intros ([] & (Hs & _) & _). apply negb_false_iff, contains_true in Hs.
  revert Hs. generalize (State.Version state). apply Forall_forall. unfold supported_versions. by repeat constructor.
Qed.
Lemma settled_find version state id network :
  findNetwork state id = Some network → findNetwork (settled version state) id = Some (settled_network version network).
Proof.
  unfold findNetwork. simpl. induction (State.Networks state) as [|n l IH]; [done|]. simpl.
  assert (Network.ID (settled_network version n) = Network.ID n) as -> by (unfold settled_network; by case_match).
  case_decide; simpl; [by intros [= <-]|]. destruct (list_find _ l) as [[i x]|]; simpl; [|done]. intros [= ->].
  specialize (IH eq_refl). change (list_fmap _ _ (settled_network version) l) with (settled_network version <$> l).
  destruct (list_find _ (settled_network version <$> l)) as [[k y]|]; simpl in *; congruence.
Qed.

Lemma accepted_ready state : validateStateGraph state = Ok tt → ready state.
Proof.
  intros (networks & nodes & Hacc)%accepted_state.
  assert (∀ id network, networks !! id = Some network → id ∈ Network.ID <$> State.Networks state) as Hin.
  { intros id network Hnet. rewrite (accepted_network_index _ _ _ Hacc) in Hnet. apply findNetwork_Some in Hnet as [Hnet <-].
    apply list_elem_of_fmap. eauto. }
  split; [|split].
  - pose proof (accepted_networks _ _ _ Hacc) as Hall. rewrite Forall_forall in Hall. apply Forall_forall. intros n Hn.
    apply accepted_unused; auto.
  - apply (Forall_impl _ _ _ (accepted_nodes _ _ _ Hacc)). intros n (network & address & Hnet & _). eauto.
  - apply (Forall_impl _ _ _ (accepted_recoveries _ _ _ Hacc)). intros r (node & Hnode & _ & _ & _ & Hused) result Hres.
    destruct (AgentRecoveryToken.UsedAt r) as [used|].
    + destruct Hused as (network & hashes & recovered & hash & Hnet & Hused). revert Hused. unfold used_recovery_checks. open_guards.
      intros (claimed & _ & expires & _ & result' & Hres' & _ & H1). revert H1. cbv zeta. open_guards. intros (Hm & _).
      unfold recovery_result_matches in Hm. split_bools.
      assert (result' = result) as -> by congruence.
      match goal with E : EnrollmentBundle.NetworkID _ = Node.NetworkID node |- _ => rewrite E end. eauto.
    + revert Hused. unfold unused_recovery. open_guards. intros [Hnone _]. rewrite Hres in Hnone. split_bools. done.
Qed.

(** C31: starting a server changes no revision, and the text of a configuration only
    by switching the native resolver off.  From every accepted state that is bound to
    its credentials, the migrations either bring the state to the current schema, in
    an accepted state that the next start leaves as it is, or stop because the store
    refuses a state that one of them made.  In the first case every node keeps its
    place, its network's revision and its time, and the text of its configuration is
    the one it had, with the native resolver and its search domain off when the state
    was older than v12.  (The check of a state of v4 to v11 does not ask for them to
    be off, so the comment of the v12 migration holds only of states that leave them
    off.) *)
Theorem migrations_keep_configurations state draws :
  validateStateGraph state = Ok tt → ControlStateVersionCredentialBinding ≤ State.Version state →
  length draws = length migrations → Forall (λ d, d.2 ≠ 0) draws →
  match run_migrations migrations draws state with
  | Err e => refused state e
  | Ok state' =>
    State.Version state' = ControlStateVersionFirewallScopes ∧ validateStateGraph state' = Ok tt ∧
    (∀ draws', length draws' = length migrations → Forall (λ d, d.2 ≠ 0) draws' → run_migrations migrations draws' state' = Ok state') ∧
    ∀ i node network, State.Nodes state !! i = Some node → findNetwork state (Node.NetworkID node) = Some network →
      ∃ node' network', State.Nodes state' !! i = Some node' ∧ Node.ID node' = Node.ID node ∧
        findNetwork state' (Node.NetworkID node') = Some network' ∧
        renderConfig state' network' node' =
          renderConfig state (if State.Version state <? ControlStateVersionNativeDNS then native_off network else network) node ∧
        Network.ConfigRevision network' = Network.ConfigRevision network ∧
        Network.ConfigUpdatedAt network' = Network.ConfigUpdatedAt network
  end.
Proof.
  intros Hv Hver Hlen Hnow. pose proof (accepted_ready _ Hv) as Hr. pose proof (accepted_version _ Hv) as Hmax.
  pose proof (chain migrations 2 draws state migrations_specs eq_refl Hlen Hnow (conj Hver Hmax) Hr Hv) as Hrun.
  destruct (run_migrations migrations draws state) as [state'|e]; [|by destruct Hrun].
  destruct Hrun as (Ev & Hr' & Ha & Hk & _). split; [done|]. split; [done|]. split.
  - intros draws' Hlen' Hnow'.
    assert (2 ≤ State.Version state' ≤ ControlStateVersionFirewallScopes) as Hb by (by rewrite Ev).
    pose proof (chain migrations 2 draws' state' migrations_specs eq_refl Hlen' Hnow' Hb Hr' Ha) as Hs.
    destruct (run_migrations migrations draws' state') as [s|e]; [|lia]. destruct Hs as (_ & _ & _ & _ & Es). by rewrite Es.
  - intros i node network Hi Hnet. pose proof (keeps_nodes _ _ Hk) as Km'.
    apply (f_equal (.!! i)) in Km'. rewrite !list_lookup_fmap in Km'. simpl in Km'. rewrite Hi in Km'.
    destruct (State.Nodes state' !! i) as [node'|] eqn:Hi'; [|done]. apply (inj Some) in Km'.
    assert (Node.ID node' = Node.ID node ∧ Node.NetworkID node' = Node.NetworkID node) as [Eid Enet].
    { split; [by apply (f_equal Node.ID) in Km'|by apply (f_equal Node.NetworkID) in Km']. }
    destruct (keeps_find_network _ state' (Node.NetworkID node) _ Hk (settled_find _ _ _ _ Hnet)) as (network' & Hnet' & Hs).
    exists node', network'. split; [done|]. split; [done|]. split; [by rewrite Enet|]. split.
    + rewrite (keeps_config _ state' i node node' _ network' Hk Hi Hi' Hs). by apply render_state.
    + pose proof (same_core _ _ Hs) as Hc.
      assert (core (settled_network (State.Version state) network) = core network) as Ec by (unfold settled_network; by case_match).
      rewrite Ec in Hc. split; [by apply (f_equal Network.ConfigRevision) in Hc|by apply (f_equal Network.ConfigUpdatedAt) in Hc].
Qed.
End startup.

Lemma trimmed_prefix a : String.prefix "v1:" a = true → a = "v1:" +:+ TrimPrefix a "v1:".
Proof.
  destruct a as [|c1 a]; [done|]. cbn [String.prefix]. destruct (ascii_dec _ c1) as [<-|]; [|done].
  destruct a as [|c2 a]; [done|]. cbn [String.prefix]. destruct (ascii_dec _ c2) as [<-|]; [|done].
  destruct a as [|c3 a]; [done|]. cbn [String.prefix]. destruct (ascii_dec _ c3) as [<-|]; [|done]. intros _.
  assert (TrimPrefix ("v1:" +:+ a) "v1:" = a) as E by apply string_of_bytes_of. by rewrite <- E at 1.
Qed.
Lemma verifier_equal a b : adminCredentialVerifierEqual a b = true → a = b.
Proof.
  unfold adminCredentialVerifierEqual, ValidAdminCredentialVerifier, adminCredentialVerifierPrefix. case_match eqn:E; [done|]. split_bools.
  intros (s & Ha & Hb)%TokenHashEqual_iff.
  assert (TrimPrefix a "v1:" = TrimPrefix b "v1:") as Et.
  { destruct (valid_hash_secret (TrimPrefix a "v1:")) as (x & Hx & <-); [done|].
    destruct (valid_hash_secret (TrimPrefix b "v1:")) as (y & Hy & <-); [done|]. congruence. }
  rewrite (trimmed_prefix a), (trimmed_prefix b) by done. by rewrite Et.
Qed.

(** A bound master key stays: another one is refused, and the administrator's
    credential changes only with the permission to rotate it. *)
Lemma master_key_binding_is_permanent eventID now master admin allow state state' :
  EnsureRecoveryCredentialBinding eventID now master admin allow state = Ok state' → State.MasterKeyVerifier state ≠ "" →
  State.MasterKeyVerifier state' = State.MasterKeyVerifier state ∧
  (State.AdminCredentialVerifier state' = State.AdminCredentialVerifier state ∨ allow = true).
Proof.
  unfold EnsureRecoveryCredentialBinding. open_guards. intros (_ & [] & Ht & Hs) Hbound. revert Ht.
  unfold validateRecoveryCredentialTransition. rewrite (bool_decide_eq_false_2 _ Hbound). simpl. open_guards. intros (Hm & Ha).
  apply negb_false_iff, verifier_equal in Hm. revert Hs. destruct (_ && _) eqn:Esame; [intros [= <-]; auto|].
  open_guards. intros (_ & [= <-]). simpl. split; [done|].
  destruct (adminCredentialVerifierEqual _ admin) eqn:Eadmin; [left; symmetry; by apply verifier_equal|].
  destruct allow; [by right|discriminate Ha].
Qed.

(** ** Example: a state of the first bound version *)
Definition old_network : Network.t :=
  store_network <| Network.DNSSettings := NetworkDNSSettings.zero |> <| Network.RelaySettings := NetworkRelaySettings.zero |>.
Definition old_node (node : Node.t) : Node.t :=
  node <| Node.Site := "" |> <| Node.FailureDomain := "" |> <| Node.CertificateAuthoritySHA256 := "" |>.
Definition old_state : State.t :=
  map_nodes old_node (store_state <| State.Version := 2 |> <| State.Networks := [old_network] |>).
Definition example_draws : list (string * time) := (λ i, ("event-" +:+ Itoa i, 6 * day + i)) <$> seqZ 1 11.
Lemma old_accepted : @validateStateGraph tagged_crypto old_state = Ok tt.
Proof. vm_compute. reflexivity. Qed.
Definition migrated_state : State.t :=
  match @run_migrations tagged_crypto migrations example_draws old_state with Ok s => s | Err _ => State.zero end.
Lemma old_state_migrates : @run_migrations tagged_crypto migrations example_draws old_state = Ok migrated_state.
Proof. vm_compute. reflexivity. Qed.

Lemma migrations_keep_configurations_witness :
  ∃ state', @run_migrations tagged_crypto migrations example_draws old_state = Ok state' ∧ State.Version state' = 13 ∧
    @validateStateGraph tagged_crypto state' = Ok tt.
Proof.
  exists migrated_state. split; [exact old_state_migrates|].
  assert (match @run_migrations tagged_crypto migrations example_draws old_state with
    | Ok state' => State.Version state' = 13 ∧ @validateStateGraph tagged_crypto state' = Ok tt
    | Err e => @refused tagged_crypto old_state e
    end) as Hm.
  { pose proof (@migrations_keep_configurations tagged_crypto old_state example_draws old_accepted) as Hk.
    destruct (@run_migrations tagged_crypto migrations example_draws old_state) as [state'|e].
    - destruct Hk as (Hver & Ha & _); [vm_compute; discriminate|reflexivity|apply (bool_decide_unpack _); vm_compute; exact I|].
      exact (conj Hver Ha).
    - apply Hk; [vm_compute; discriminate|reflexivity|apply (bool_decide_unpack _); vm_compute; exact I]. }
  rewrite old_state_migrates in Hm. exact Hm.
Defined.

(** ** Example: a state of v11 that uses the native resolver

    The store accepts it; the migration to v12 takes a line out of the configuration
    of [b] and leaves the revision. *)
Definition native_network : Network.t := store_network <| Network.DNSSettings := NetworkDNSSettings.make true 53 true "corp.internal" |>.
Definition as_guide (node : Node.t) : Node.t :=
  if Node.ID node == id_of "a" then node <| Node.Role := "lighthouse" |> <| Node.PublicEndpoint := "203.0.113.7:4242" |> else node.
Definition native_state : State.t := map_nodes as_guide store_state <| State.Version := 11 |> <| State.Networks := [native_network] |>.
Definition text_of_b (state : State.t) : string :=
  match findNetwork state "network-0000-0000", findNode state (id_of "b") with
  | Some network, Some node => renderConfig state network node
  | _, _ => ""
  end.
Example native_resolver_switched_off :
  @validateStateGraph tagged_crypto native_state = Ok tt ∧
  match @run_migrations tagged_crypto migrations example_draws native_state with
  | Ok state' => (text_of_b state' == text_of_b native_state, Network.ConfigRevision <$> State.Networks state') = (false, [3])
  | Err _ => False
  end.
Proof. vm_compute. auto. Qed.
