(* ===== verification/AgentState.v ===== *)
(** * The agent's durable state (internal/nodeagent/state.go, internal/agentstate)

    The secret and the monotonic values that an agent keeps across restarts, the
    journal that precedes an enrollment, and the checks they pass before they are
    written and after they are read.  Paths are those of a Unix system.  Parsing of
    URLs is an interface. *)
From S2P Require Import Prelude GoStd Sha256 GoTime IPv4 NetIP Model AuditLog Credentials SignedConfig.
From Stdlib Require Import Ascii.
Open Scope Z_scope.

Definition StateSchemaVersion : Z := 2.
Definition maxBundleFileSize : Z := MaxManagedConfigBytes.

Module AgentState.
Record t := make {
  Version : Z; ServerURL : string; Bearer : string; PendingBearer : string; PendingRecoveryToken : string;
  PendingRecoveryAllowsGenerationAdvance : bool; NodeID : string; NetworkID : string; ConfigSigningPublicKey : string;
  CACertificateSHA256 : string; PublicKeyHash : string; AppliedConfigRevision : Z; AppliedConfigSHA256 : string;
  LastSuccessfulConfigAt : time; CertificateFingerprint : string; CertificateGeneration : Z; CertificateExpiresAt : time;
  CertificateRenewAfter : time; AgentCredentialExpiresAt : time; AgentCredentialGeneration : Z; HeartbeatSequence : Z;
  BootID : string; OutputDir : string }.
#[global] Instance t_eta : Eta t := λ r, make (Version r) (ServerURL r) (Bearer r) (PendingBearer r) (PendingRecoveryToken r)
  (PendingRecoveryAllowsGenerationAdvance r) (NodeID r) (NetworkID r) (ConfigSigningPublicKey r) (CACertificateSHA256 r)
  (PublicKeyHash r) (AppliedConfigRevision r) (AppliedConfigSHA256 r) (LastSuccessfulConfigAt r) (CertificateFingerprint r)
  (CertificateGeneration r) (CertificateExpiresAt r) (CertificateRenewAfter r) (AgentCredentialExpiresAt r)
  (AgentCredentialGeneration r) (HeartbeatSequence r) (BootID r) (OutputDir r).
#[global] Instance t_eq_dec : EqDecision t.
Proof. solve_decision. Defined.
End AgentState.

Module ProvisionalEnrollment.
Record t := make {
  Version : Z; ServerURL : string; EnrollmentToken : string; Bearer : string; PrivateKey : string; PublicKey : string;
  OutputDir : string; CreatedAt : time }.
#[global] Instance t_eq_dec : EqDecision t.
Proof. solve_decision. Defined.
End ProvisionalEnrollment.

(** ** Paths (path/filepath) *)
Definition IsAbs (path : string) : bool := match path with String c _ => bool_decide (c = "/"%char) | EmptyString => false end.
(** One component of a path; [acc] is the cleaned path so far, innermost first. *)
Definition clean_step (rooted : bool) (acc : list string) (component : string) : list string :=
  if (component == "") || (component == ".") then acc
  else if component == ".." then
    match acc with
    | [] => if rooted then [] else [".."]
    | last :: rest => if last == ".." then ".." :: acc else rest
    end
  else component :: acc.
Definition Clean (path : string) : string :=
  let rooted := IsAbs path in
  let components := reverse (foldl (clean_step rooted) [] (split_on "/"%char path)) in
  if rooted then "/" +:+ join "/" components
  else match components with [] => "." | _ => join "/" components end.

(** ** Words *)
Definition identifier_char (c : Z) : bool := alnum c || (c =? 46) || (c =? 95) || (c =? 45).
Definition validIdentifier (value : string) : bool :=
  let value := TrimSpace value in
  (1 <=? len value) && (len value <=? 128) && forallb identifier_char (bytes_of value).

(** encoding/hex *)
Fixpoint hex_decode (l : list Z) : option (list Z) :=
  match l with
  | [] => Some []
  | [_] => None
  | a :: b :: rest =>
      match hex_value a, hex_value b, hex_decode rest with
      | Some x, Some y, Some bytes => Some (16 * x + y :: bytes)
      | _, _, _ => None
      end
  end.
Definition hex_char (d : Z) : Z := if d <? 10 then 48 + d else 87 + d.
Definition hex_encode (l : list Z) : string := string_of (l ≫= λ b, [hex_char (b / 16); hex_char (b mod 16)]).
Definition validDigest (value : string) : bool :=
  match hex_decode (bytes_of value) with
  | Some decoded => (length decoded =? 32)%nat && (hex_encode decoded == value)
  | None => false
  end.

Definition canonicalPublicKeyHash (publicKey : string) : string := HashToken (TrimSpace publicKey +:+ String LF "").

(** ** Server addresses (net/url) *)
Module URL.
Record t := make { Scheme : string; User : bool; Host : string; Path : string; RawQuery : string; Fragment : string }.
#[global] Instance t_eta : Eta t := λ r, make (Scheme r) (User r) (Host r) (Path r) (RawQuery r) (Fragment r).
End URL.
Class URLs := {
  url_Parse : string → option URL.t;
  url_Hostname : URL.t → string;
  url_String : URL.t → string }.

Definition TrimSuffix (s suffix : string) : string :=
  match strip_prefix (reverse (bytes_of suffix)) (reverse (bytes_of s)) with
  | Some rest => string_of (reverse rest)
  | None => s
  end.
Fixpoint drop_slashes (l : list Z) : list Z := match l with 47 :: rest => drop_slashes rest | _ => l end.
Definition trim_slashes (s : string) : string := string_of (reverse (drop_slashes (reverse (bytes_of s)))).

Definition IsLoopback (ip : list Z) : bool :=
  match To4 ip with
  | Some (first :: _) => first =? 127
  | _ => ip == replicate 15 0 ++ [1]
  end.
Definition isLoopbackHost (host : string) : bool :=
  let host := TrimSuffix (ToLower (TrimSpace host)) "." in
  (host == "localhost") || match ParseIP host with Some ip => IsLoopback ip | None => false end.

Section urls.
Context `{URLs}.

Definition normalizeServerURL (raw : string) : result string :=
  parsed ← of_option (url_Parse (TrimSpace raw)) (ErrOther "parse agent server URL");
  fail (ErrOther "agent server URL must contain only a scheme and host")
    when URL.User parsed || (URL.Host parsed == "") || (URL.RawQuery parsed != "") || (URL.Fragment parsed != "");;
  fail (ErrOther "agent server URL cannot contain a path") when (URL.Path parsed != "") && (URL.Path parsed != "/");;
  fail (ErrOther "agent server URL must use HTTPS except on loopback")
    when (URL.Scheme parsed != "https") && ((URL.Scheme parsed != "http") || negb (isLoopbackHost (url_Hostname parsed)));;
  Ok (trim_slashes (url_String (parsed <| URL.Path := "" |>))).

(** ** The checks *)
Definition clean_path (path : string) : bool := IsAbs path && (Clean path == path).

Definition Validate_journal (p : ProvisionalEnrollment.t) : result unit :=
  fail (ErrOther "unsupported provisional enrollment version") when negb (ProvisionalEnrollment.Version p =? StateSchemaVersion);;
  fail (ErrOther "provisional enrollment server URL is invalid")
    when negb (bool_decide (normalizeServerURL (ProvisionalEnrollment.ServerURL p) = Ok (ProvisionalEnrollment.ServerURL p)));;
  fail (ErrOther "provisional enrollment credentials are missing")
    when negb (ValidBearerToken (TrimSpace (ProvisionalEnrollment.EnrollmentToken p)))
      || negb (ValidBearerToken (TrimSpace (ProvisionalEnrollment.Bearer p)));;
  fail (ErrOther "provisional enrollment keypair is missing or too large")
    when (ProvisionalEnrollment.PrivateKey p == "") || (ProvisionalEnrollment.PublicKey p == "")
      || (maxBundleFileSize <? len (ProvisionalEnrollment.PrivateKey p)) || (maxBundleFileSize <? len (ProvisionalEnrollment.PublicKey p));;
  fail (ErrOther "provisional enrollment output or creation time is invalid")
    when negb (clean_path (ProvisionalEnrollment.OutputDir p)) || IsZero (ProvisionalEnrollment.CreatedAt p);;
  Ok tt.

Import AgentState.
Definition valid_signing_key (encoded : string) : bool :=
  match b64_decode encoded with Some key => (length key =? ed25519_PublicKeySize)%nat | None => false end.

Definition Validate (s : AgentState.t) : result unit :=
  fail (ErrOther "unsupported agent state version") when negb (Version s =? StateSchemaVersion);;
  serverURL ← normalizeServerURL (ServerURL s);
  fail (ErrOther "agent server URL is not canonical") when serverURL != ServerURL s;;
  fail (ErrOther "agent bearer is missing or too short") when negb (ValidBearerToken (Bearer s));;
  fail (ErrOther "pending agent bearer is too short") when (PendingBearer s != "") && negb (ValidBearerToken (PendingBearer s));;
  fail (ErrOther "pending agent bearer must differ from the active bearer")
    when (PendingBearer s != "") && (PendingBearer s == Bearer s);;
  fail (ErrOther "pending agent recovery token is invalid")
    when (PendingRecoveryToken s != "") && negb (ValidBearerToken (PendingRecoveryToken s));;
  fail (ErrOther "pending agent recovery token requires a pending bearer")
    when (PendingRecoveryToken s != "") && (PendingBearer s == "");;
  fail (ErrOther "recovery generation advance is only valid for a pending agent recovery")
    when PendingRecoveryAllowsGenerationAdvance s && (PendingRecoveryToken s == "");;
  fail (ErrOther "node and network IDs are required") when negb (validIdentifier (NodeID s)) || negb (validIdentifier (NetworkID s));;
  fail (ErrOther "invalid pinned config-signing public key") when negb (valid_signing_key (ConfigSigningPublicKey s));;
  fail (ErrOther "invalid pinned CA certificate digest") when negb (validDigest (CACertificateSHA256 s));;
  fail (ErrOther "invalid pinned node public-key hash") when negb (ValidTokenHash (PublicKeyHash s));;
  fail (ErrOther "agent revisions and sequences cannot be negative") when (AppliedConfigRevision s <? 0) || (HeartbeatSequence s <? 0);;
  fail (ErrOther "config digest cannot be set without an applied revision")
    when (AppliedConfigRevision s =? 0) && (AppliedConfigSHA256 s != "");;
  fail (ErrOther "applied config digest is invalid") when (0 <? AppliedConfigRevision s) && negb (validDigest (AppliedConfigSHA256 s));;
  fail (ErrOther "certificate fingerprint is invalid") when negb (validDigest (CertificateFingerprint s));;
  fail (ErrOther "certificate generation must be positive") when CertificateGeneration s <? 1;;
  fail (ErrOther "certificate expiry and signed renewal time are invalid")
    when IsZero (CertificateExpiresAt s) || IsZero (CertificateRenewAfter s)
      || negb (Before (CertificateRenewAfter s) (CertificateExpiresAt s));;
  fail (ErrOther "agent credential expiry is required") when IsZero (AgentCredentialExpiresAt s);;
  fail (ErrOther "boot ID is invalid") when negb (validIdentifier (BootID s));;
  fail (ErrOther "output directory must be an absolute, clean path") when negb (clean_path (OutputDir s));;
  fail (ErrOther "agent credential generation must be positive") when AgentCredentialGeneration s <? 1;;
  Ok tt.

(** ** Construction

    [secret] is what the system's random source returns, [boot] the kernel's boot
    identifier where there is one, [absOutput] the output directory made absolute. *)
Definition GenerateBearer (secret : result (list Z)) : result string := b64_encode <$> secret.
Definition CurrentBootID (boot : option string) (secret : result (list Z)) : result string :=
  match boot with
  | Some bootID => Ok bootID
  | None => random ← GenerateBearer secret; Ok ("boot-" +:+ string_of (take 32 (bytes_of random)))
  end.

Definition NewProvisionalEnrollment (serverURL enrollmentToken : string) (absOutput : result string) (secret : result (list Z))
    (now : time) (privateKey publicKey : string) : result ProvisionalEnrollment.t :=
  serverURL ← normalizeServerURL serverURL;
  absOutput ← absOutput;
  bearer ← GenerateBearer secret;
  let journal := ProvisionalEnrollment.make StateSchemaVersion serverURL (TrimSpace enrollmentToken) bearer privateKey publicKey
                   (Clean absOutput) now in
  _ ← Validate_journal journal;
  Ok journal.

Definition NewEnrollmentState (serverURL bearer : string) (absOutput : result string) (boot : option string)
    (secret : result (list Z)) (publicKey : string) (bundle : EnrollmentBundle.t) : result AgentState.t :=
  absOutput ← absOutput;
  serverURL ← normalizeServerURL serverURL;
  bootID ← CurrentBootID boot secret;
  let state := AgentState.make StateSchemaVersion serverURL (TrimSpace bearer) "" "" false (EnrollmentBundle.NodeID bundle)
    (EnrollmentBundle.NetworkID bundle) (EnrollmentBundle.ConfigSigningPublicKey bundle) (ConfigDigest (EnrollmentBundle.CA bundle))
    (canonicalPublicKeyHash publicKey) 0 "" 0 (EnrollmentBundle.CertificateFingerprint bundle)
    (EnrollmentBundle.CertificateGeneration bundle) (EnrollmentBundle.CertificateExpiresAt bundle)
    (EnrollmentBundle.CertificateRenewAfter bundle) (EnrollmentBundle.AgentCredentialExpiresAt bundle)
    (EnrollmentBundle.AgentCredentialGeneration bundle) 0 bootID (Clean absOutput) in
  fail (ErrOther "enrollment identity, CA, or public key does not match its signed metadata")
    when (Node.ID (EnrollmentBundle.Node bundle) != NodeID state) || (Node.NetworkID (EnrollmentBundle.Node bundle) != NetworkID state)
      || (EnrollmentBundle.CACertificateSHA256 bundle != CACertificateSHA256 state)
      || (EnrollmentBundle.PublicKeyHash bundle != PublicKeyHash state);;
  _ ← Validate state;
  Ok state.
End urls.

(** ** Facts *)
Lemma length_bytes_of s : length (bytes_of s) = String.length s.
Proof. induction s as [|c s IH]; simpl; congruence. Qed.
Lemma hex_value_range c d : hex_value c = Some d → 0 ≤ d < 16.
Proof. unfold hex_value, digit. repeat case_match; intros [= <-]; lia. Qed.

Lemma hex_char_value d : 0 ≤ d < 16 → AuditLog.hex_digit (hex_char d) = true ∧ hex_value (hex_char d) = Some d ∧ is_byte (hex_char d).
Proof.
  intros Hd. assert (Forall (λ d, AuditLog.hex_digit (hex_char d) = true ∧ hex_value (hex_char d) = Some d ∧ is_byte (hex_char d))
    (seqZ 0 16)) as H by (repeat constructor; done).
  rewrite Forall_forall in H. apply H, elem_of_seqZ. lia.
Qed.
Definition hex_pair (b : Z) : list Z := [hex_char (b / 16); hex_char (b mod 16)].
Lemma hex_pair_join x y : 0 ≤ x < 16 → 0 ≤ y < 16 → hex_pair (16 * x + y) = [hex_char x; hex_char y].
Proof.
  intros Hx Hy. unfold hex_pair. replace ((16 * x + y) / 16) with x by (Z.div_mod_to_equations; lia).
  by replace ((16 * x + y) mod 16) with y by (Z.div_mod_to_equations; lia).
Qed.
Lemma lower_hex_value c : AuditLog.hex_digit c = true → ∃ d, hex_value c = Some d ∧ 0 ≤ d < 16 ∧ hex_char d = c.
Proof.
  intros Hc. assert (∃ d, hex_value c = Some d ∧ hex_char d = c) as (d & E & Ed); [|eauto using hex_value_range].
  unfold AuditLog.hex_digit in Hc. unfold hex_value, hex_char. destruct (digit c) eqn:E.
  - unfold digit in E. eexists. split; [done|]. destruct (Z.ltb_spec (c - 48) 10); lia.
  - rewrite orb_false_l in Hc. rewrite Hc. eexists. split; [done|]. destruct (Z.ltb_spec (c - 87) 10); lia.
Qed.

Lemma hex_decode_lower n l : length l = (2 * n)%nat → forallb AuditLog.hex_digit l = true →
  ∃ d, hex_decode l = Some d ∧ length d = n ∧ d ≫= hex_pair = l.
Proof.
  revert l. induction n as [|n IH]; intros l Hl Hf; [by destruct l; [exists []|]|].
  destruct l as [|a [|b l]]; [simpl in Hl; lia..|]. cbn [forallb] in Hf. split_bools.
  destruct (IH l) as (d & Ed & Hd & Hj); [simpl in Hl; lia|done|].
  destruct (lower_hex_value a) as (x & Ex & Hx & Cx); [done|]. destruct (lower_hex_value b) as (y & Ey & Hy & Cy); [done|].
  exists (16 * x + y :: d). cbn [hex_decode]. rewrite Ex, Ey, Ed. split_and!; [done|simpl; lia|].
  cbn [mbind list_bind]. rewrite hex_pair_join by done. by rewrite Hj, Cx, Cy.
Qed.
Lemma hex_decode_bytes l d : hex_decode l = Some d → Forall is_byte d.
Proof.
  revert l. induction d as [|x d IH]; intros l H; [constructor|]. destruct l as [|a [|b l]]; [done..|]. cbn [hex_decode] in H.
  destruct (hex_value a) eqn:Ea; [|done]. destruct (hex_value b) eqn:Eb; [|done]. destruct (hex_decode l) eqn:El; [|done].
  injection H as <- <-. apply hex_value_range in Ea, Eb. constructor; [unfold is_byte; lia|eauto].
Qed.
Lemma hex_pairs_digits d : Forall is_byte d →
  forallb AuditLog.hex_digit (d ≫= hex_pair) = true ∧ length (d ≫= hex_pair) = (2 * length d)%nat ∧ Forall is_byte (d ≫= hex_pair).
Proof.
  induction 1 as [|b d Hb _ (IH1 & IH2 & IH3)]; [done|]. cbn [mbind list_bind]. unfold hex_pair at 1 3 5. unfold is_byte in Hb.
  destruct (hex_char_value (b / 16)) as (A1 & _ & A2); [Z.div_mod_to_equations; lia|].
  destruct (hex_char_value (b mod 16)) as (B1 & _ & B2); [Z.div_mod_to_equations; lia|].
  cbn [forallb app length]. rewrite A1, B1. split_and!; [done| |].
  - etransitivity; [apply (f_equal (λ n, S (S n))), IH2|]. simpl. lia.
  - constructor; [done|]. constructor; [done|]. exact IH3.
Qed.

(** The agent's digests are the control plane's fingerprints. *)
Lemma validDigest_fingerprint value : validDigest value = fingerprintPattern value.
Proof.
  apply Bool.eq_iff_eq_true. unfold validDigest, fingerprintPattern, hex_encode. rewrite andb_true_iff, Z.eqb_eq. split.
  - destruct (hex_decode _) as [d|] eqn:E; [|done]. intros H. split_bools. apply Nat.eqb_eq in H.
    apply hex_decode_bytes, hex_pairs_digits in E as (E1 & E2 & E3). change (d ≫= _) with (d ≫= hex_pair) in H0. subst value.
    rewrite bytes_of_string_of by done. split; [done|]. unfold len. rewrite <- length_bytes_of, bytes_of_string_of by done. lia.
  - intros [Hf Hl]. destruct (hex_decode_lower 32 (bytes_of value)) as (d & -> & Hd & Hj); [|done|].
    { rewrite length_bytes_of. unfold len in Hl. lia. }
    rewrite Hd. simpl. apply bool_decide_eq_true. change (d ≫= _) with (d ≫= hex_pair). by rewrite Hj, string_of_bytes_of.
Qed.
