(* ===== verification/AgentWorld.v ===== *)
(** * The machine an agent runs on

    An agent acts on files, on the managed output directory, on the control plane
    and on the Nebula process.  Every such act may fail, and the process may stop
    before any of them.  An operation of the agent is a computation in the monad
    [M]: an error keeps the world as far as it was changed.  What the machine does
    is the class [Environment], a function of the number of acts so far, so that a
    theorem for every environment covers every pattern of failures, crashes, lost
    messages and clock readings; what the control plane answers is the class
    [AgentAPI]. *)
From stdpp Require Import gmap.
From S2P Require Import Prelude GoStd Sha256 GoTime IPv4 NetIP Model AuditLog Credentials SignedConfig AgentOps AgentState.

Open Scope Z_scope.

(** ** Files *)
Module BundleMetadata.
Record t := make {
  NodeID : string; NetworkID : string; Revision : Z; IssuedAt : time; Digest : string; Signature : string;
  CACertificateSHA256 : string; PreviousCACertificateSHA256 : string; CARotationRequired : bool;
  CertificateProfileRenewalRequired : bool; CertificateFingerprint : string; CertificateExpiresAt : time;
  CertificateRenewAfter : time; CertificateGeneration : Z; PublicKeyHash : string }.
#[global] Instance t_eq_dec : EqDecision t.
Proof. solve_decision. Defined.
End BundleMetadata.

(** A file of a version: metadata.json as what it decodes to, any other file as its
    text. *)
Inductive file := Text (content : string) | Metadata (metadata : BundleMetadata.t).
#[export] Instance file_eq_dec : EqDecision file.
Proof. solve_decision. Defined.
Definition directory : Type := gmap string file.

Module Version.
Record t := make { contents : directory; modified : time }.
#[global] Instance t_eta : Eta t := λ r, make (contents r) (modified r).
#[global] Instance t_eq_dec : EqDecision t.
Proof. unfold directory. solve_decision. Defined.
End Version.

(** The managed output directory.  [foreign] are its entries beside the marker, the
    link and the directory of the versions; [versions] is [None] before the directory of the
    versions exists; [current] is the target of the link; [running] is the target
    that the Nebula process last loaded. *)
Module Output.
Record t := make {
  marker : option string; foreign : gset string; versions : option (gmap string Version.t); stages : gset string;
  current : option string; running : option string }.
#[global] Instance t_eta : Eta t := λ r, make (marker r) (foreign r) (versions r) (stages r) (current r) (running r).
Definition version_map (o : t) : gmap string Version.t := default ∅ (versions o).
End Output.

(** The private files beside the state.  [synced] is the state file of the last
    directory sync, which a power failure brings back. *)
Module Files.
Record t := make {
  state : option AgentState.t; synced : option AgentState.t; journal : option ProvisionalEnrollment.t;
  host_key : option string; host_pub : option string }.
#[global] Instance t_eta : Eta t := λ r, make (state r) (synced r) (journal r) (host_key r) (host_pub r).
End Files.

(** ** The environment *)
Inductive saved := SaveFails (msg : string) | SaveUnsynced (msg : string) | SaveSynced.
Inductive delivery := Delivered | RequestLost | ResponseLost.

Class Environment := {
  clock : nat → time;
  random : nat → result (list Z);            (* crypto/rand *)
  temporary : nat → string;                  (* the end of a temporary directory's name *)
  system_boot : nat → option string;         (* the kernel's boot identifier *)
  crashes : nat → bool;                      (* the process stops before this act *)
  fault : nat → option string;               (* this act fails *)
  saving : nat → saved;                      (* replacing the state file *)
  delivers : nat → delivery;                 (* a request over the network *)
  nebula_version : nat → result string;      (* nebula -version *)
  nebula_cert_verify : nat → directory → result unit;
  nebula_test : nat → directory → string → result unit;
  nebula_cert_print : nat → directory → result (list (string * time)) (* fingerprint and notAfter of each certificate *)
}.

(** ** The control plane as the agent sees it (client.go) *)
Module ConfigResponse.
Record t := make { Config : AgentConfig.t; NotModified : bool }.
End ConfigResponse.

Class AgentAPI (S : Type) := {
  get_config : nat → string → string → S → S * result ConfigResponse.t;            (* bearer, etag *)
  get_bootstrap : nat → string → S → S * result EnrollmentBundle.t;                (* bearer *)
  post_recover : nat → string → string → string → S → S * result AgentRecoveryBundle.t;  (* token, public key, new hash *)
  post_heartbeat : nat → string → HeartbeatInput.t → S → S * result unit;
  post_failure : nat → string → Z → string → S → S * result unit;                  (* revision, digest *)
  post_renew : nat → string → string → S → S * result RenewalBundle.t;             (* bearer, public key *)
  post_rotate : nat → string → string → S → S * result CredentialRotation.t        (* bearer, new hash *)
}.

(** The machine.  [output] is one directory: the one whose path the agent's state
    holds.  Every activator is made from that state, and a saved state keeps the path
    of the one before it, so an agent has no other; the path itself is used in the
    rewritten configuration and in reading the link.  An operation with an activator
    of another path would act on the same directory here: no operation makes one. *)
Record world (S : Type) := World {
  files : Files.t; output : Output.t; server : S; tick : nat; halted : bool; sent : list HeartbeatInput.t }.
Arguments World {S}.
Arguments files {S}.
Arguments output {S}.
Arguments server {S}.
Arguments tick {S}.
Arguments halted {S}.
Arguments sent {S}.
#[global] Instance world_eta {S} : Eta (world S) := λ r, World (files r) (output r) (server r) (tick r) (halted r) (sent r).

(** ** Computations *)
Definition M (W A : Type) : Type := W → W * result A.
#[export] Instance M_ret W : MRet (M W) := λ A a w, (w, Ok a).
#[export] Instance M_bind W : MBind (M W) := λ A B f m w,
  match m w with
  | (w', Ok a) => f a w'
  | (w', Err e) => (w', Err e)
  end.
Definition lift {W A} (r : result A) : M W A := λ w, (w, r).
(** The error as a value, where the code goes on after it. *)
Definition try {W A} (m : M W A) : M W (result A) := λ w, let '(w', r) := m w in (w', Ok r).
(** The code of a [defer]: its own outcome is dropped. *)
Definition finally {W A} (m : M W A) (cleanup : M W unit) : M W A := λ w, let '(w', r) := m w in (fst (cleanup w'), r).
Notation "'stop' e 'when' c ;; k" := (mbind (M := M _) (λ _, k) (lift (fail_if c e)))
  (at level 100, e at level 9, c at level 99, k at level 200, right associativity,
   format "'stop'  e  'when'  c ;;  '//' k") : mesh_scope.

Definition stopped : err := ErrOther "process stopped".

Section acts.
Context `{Environment} {S : Type}.

(** One act: nothing happens once the process has stopped. *)
Definition act {A} (f : nat → world S → world S * result A) : M (world S) A := λ w,
  if halted w then (w, Err stopped)
  else
    let n := tick w in
    let w := w <| tick := Datatypes.S n |> in
    if crashes n then (w <| halted := true |>, Err stopped) else f n w.
(** A change of the file system, which fails as a whole. *)
Definition os (f : nat → world S → world S) : M (world S) unit := act (λ n w,
  match fault n with
  | Some msg => (w, Err (ErrOther msg))
  | None => (f n w, Ok tt)
  end).
Definition read {A} (f : world S → result A) : M (world S) A := act (λ n w,
  match fault n with
  | Some msg => (w, Err (ErrOther msg))
  | None => (w, f w)
  end).
(** What the machine supplies: the clock, the random source, a program's output. *)
Definition ask {A} (f : nat → result A) : M (world S) A := act (λ n w, (w, f n)).
Definition change_output (f : Output.t → Output.t) (w : world S) : world S := w <| output := f (output w) |>.
Definition change_files (f : Files.t → Files.t) (w : world S) : world S := w <| files := f (files w) |>.

(** A request: it or its answer may be lost. *)
Definition call {A} (f : nat → S → S * result A) : M (world S) A := act (λ n w,
  match delivers n with
  | RequestLost => (w, Err (ErrOther "request failed"))
  | ResponseLost => (w <| server := fst (f n (server w)) |>, Err (ErrOther "request failed"))
  | Delivered => let '(s, r) := f n (server w) in (w <| server := s |>, r)
  end).
End acts.

(** ** Weakest preconditions *)
Section wp.
Context {W : Type}.

Definition wp {A} (m : M W A) (Q : A → W → Prop) (E : err → W → Prop) (w : W) : Prop :=
  match m w with
  | (w', Ok a) => Q a w'
  | (w', Err e) => E e w'
  end.

Lemma wp_mono {A} (m : M W A) (Q Q' : A → W → Prop) (E E' : err → W → Prop) w :
  wp m Q E w → (∀ a w', Q a w' → Q' a w') → (∀ e w', E e w' → E' e w') → wp m Q' E' w.
Proof. unfold wp. destruct (m w) as [w' [a|e]]; auto. Qed.
Lemma wp_ret {A} (a : A) (Q : A → W → Prop) E w : Q a w → wp (mret a) Q E w.
Proof. done. Qed.
Lemma wp_bind {A B} (m : M W A) (f : A → M W B) Q E w : wp m (λ a, wp (f a) Q E) E w → wp (m ≫= f) Q E w.
Proof. unfold wp, mbind, M_bind. by destruct (m w) as [w' [a|e]]. Qed.
Lemma wp_lift {A} (r : result A) (Q : A → W → Prop) (E : err → W → Prop) w :
  (∀ a, r = Ok a → Q a w) → (∀ e, r = Err e → E e w) → wp (lift r) Q E w.
Proof. unfold wp, lift. destruct r; auto. Qed.
Lemma wp_try {A} (m : M W A) (Q : result A → W → Prop) E w : wp m (λ a, Q (Ok a)) (λ e, Q (Err e)) w → wp (try m) Q E w.
Proof. unfold wp, try. by destruct (m w) as [w' [a|e]]. Qed.
Lemma wp_finally {A} (m : M W A) cleanup (Q : A → W → Prop) E w :
  wp m (λ a, wp cleanup (λ _, Q a) (λ _, Q a)) (λ e, wp cleanup (λ _, E e) (λ _, E e)) w → wp (finally m cleanup) Q E w.
Proof. unfold wp, finally. destruct (m w) as [w' [a|e]], (cleanup w') as [w'' [[]|e']]; auto. Qed.
Lemma run_bind {A B} (m : M W A) (f : A → M W B) w w' b :
  (m ≫= f) w = (w', Ok b) ↔ ∃ a w1, m w = (w1, Ok a) ∧ f a w1 = (w', Ok b).
Proof. unfold mbind, M_bind. destruct (m w) as [w1 [a|e]]; naive_solver. Qed.
Lemma wp_run {A} (m : M W A) (Q : A → W → Prop) E w w' r :
  wp m Q E w → m w = (w', r) → match r with Ok a => Q a w' | Err e => E e w' end.
Proof. unfold wp. intros H E'. rewrite E' in H. by destruct r. Qed.
End wp.

(** [open_run H] opens the successful run [H] of a computation step by step. *)
Ltac open_run H :=
  repeat (let a := fresh "a" in let w := fresh "w" in let H1 := fresh "R" in
          apply run_bind in H; destruct H as (a & w & H1 & H)).

(** ** The rules of the acts *)
Record same {S} (w w' : world S) : Prop := {
  same_files : files w' = files w; same_output : output w' = output w;
  same_server : server w' = server w; same_sent : sent w' = sent w }.

Section rules.
Context `{Environment} {S : Type}.
Implicit Types w : world S.

Lemma same_refl w : same w w.
Proof. by split. Qed.
Lemma same_trans w1 w2 w3 : same w1 w2 → same w2 w3 → same w1 w3.
Proof. intros [] []. split; congruence. Qed.

Lemma wp_act {A} (f : nat → world S → world S * result A) (Q : A → world S → Prop) (E : err → world S → Prop) w :
  (∀ w', same w w' → halted w' = true → E stopped w') →
  (∀ n w', same w w' → halted w' = false → wp (f n) Q E w') → wp (act f) Q E w.
Proof.
  intros H1 H2. unfold wp, act. destruct (halted w) eqn:Eh; [apply H1; [apply same_refl|done]|]. cbv zeta.
  destruct (crashes _); [by apply H1|]. by apply H2.
Qed.
Lemma wp_os f (Q : unit → world S → Prop) (E : err → world S → Prop) w :
  (∀ e w', same w w' → E e w') → (∀ n w', same w w' → halted w' = false → Q tt (f n w')) → wp (os f) Q E w.
Proof.
  intros H1 H2. apply wp_act; [auto|]. intros n w' Hs Hh. unfold wp. destruct (fault n); [by apply H1|by apply H2].
Qed.
Lemma wp_read {A} f (Q : A → world S → Prop) (E : err → world S → Prop) w :
  (∀ e w', same w w' → E e w') → (∀ a w', same w w' → halted w' = false → f w' = Ok a → Q a w') → wp (read f) Q E w.
Proof.
  intros H1 H2. apply wp_act; [auto|]. intros n w' Hs Hh. unfold wp. destruct (fault n); [by apply H1|].
  destruct (f w') eqn:E1; auto.
Qed.
Lemma wp_ask {A} f (Q : A → world S → Prop) (E : err → world S → Prop) w :
  (∀ e w', same w w' → E e w') → (∀ n a w', same w w' → halted w' = false → f n = Ok a → Q a w') → wp (ask f) Q E w.
Proof. intros H1 H2. apply wp_act; [auto|]. intros n w' Hs Hh. unfold wp. destruct (f n) eqn:E1; eauto. Qed.
Lemma wp_call {A} f (Q : A → world S → Prop) (E : err → world S → Prop) w :
  (∀ e w', same w w' → E e w') →
  (∀ w' s e, same w w' → E e (w' <| server := s |>)) →
  (∀ n a s w', same w w' → halted w' = false → f n (server w') = (s, Ok a) → Q a (w' <| server := s |>)) → wp (call f) Q E w.
Proof.
  intros H1 H2 H3. apply wp_act; [auto|]. intros n w' Hs Hh. unfold wp.
  destruct (delivers n); [|by apply H1|by apply H2]. destruct (f n (server w')) as [s [a|e]] eqn:E1; eauto.
Qed.
End rules.

(** ** Computations that leave the agent's own files

    Activation, requests and Nebula's checks change neither the private files nor
    the record of what was sent. *)
Class Framed {S A} (m : M (world S) A) : Prop :=
  framed w : wp m (λ _ w', files w' = files w ∧ sent w' = sent w) (λ _ w', files w' = files w ∧ sent w' = sent w) w.

Section framed.
Context `{Environment} {S : Type}.

Lemma wp_framed {A} (m : M (world S) A) `{!Framed m} (Q : A → world S → Prop) (E : err → world S → Prop) w :
  (∀ a w', files w' = files w → sent w' = sent w → Q a w') → (∀ e w', files w' = files w → sent w' = sent w → E e w') → wp m Q E w.
Proof. intros H1 H2. eapply wp_mono; [apply framed|naive_solver..]. Qed.

#[global] Instance framed_ret {A} (a : A) : Framed (S := S) (mret a).
Proof. intros w. done. Qed.
#[global] Instance framed_lift {A} (r : result A) : Framed (S := S) (lift r).
Proof. intros w. by apply wp_lift. Qed.
#[global] Instance framed_bind {A B} (m : M (world S) A) (f : A → M (world S) B) :
  Framed m → (∀ a, Framed (f a)) → Framed (m ≫= f).
Proof.
  intros Hm Hf w. apply wp_bind. eapply wp_mono; [apply Hm| |done]. intros a w' [E1 E2]. simpl.
  eapply wp_mono; [apply Hf|..]; rewrite E1, E2; done.
Qed.
#[global] Instance framed_try {A} (m : M (world S) A) : Framed m → Framed (try m).
Proof. intros Hm w. apply wp_try. eapply wp_mono; [apply Hm|done..]. Qed.
#[global] Instance framed_finally {A} (m : M (world S) A) cleanup : Framed m → Framed cleanup → Framed (finally m cleanup).
Proof.
  intros Hm Hc w. apply wp_finally.
  eapply wp_mono; [apply Hm|intros ? w' [E1 E2]; (eapply wp_mono; [apply Hc|..]; rewrite E1, E2; done)..].
Qed.
#[global] Instance framed_read {A} (f : world S → result A) : Framed (read f).
Proof. intros w. apply wp_read; intros ? w' []; naive_solver. Qed.
#[global] Instance framed_ask {A} (f : nat → result A) : Framed (S := S) (ask f).
Proof. intros w. apply wp_ask; [intros e w' []; done|intros n a w' []; done]. Qed.
#[global] Instance framed_call {A} (f : nat → S → S * result A) : Framed (call f).
Proof. intros w. apply wp_call; [intros e w' []|intros w' s e []|intros n a s w' []]; done. Qed.
#[global] Instance framed_os_output (f : nat → Output.t → Output.t) : Framed (S := S) (os (λ n, change_output (f n))).
Proof. intros w. apply wp_os; [intros e w' []|intros n w' []]; done. Qed.
#[global] Instance framed_os_id : Framed (S := S) (os (λ _ w, w)).
Proof. intros w. apply wp_os; [intros e w' []|intros n w' []]; done. Qed.
End framed.

#[export] Hint Extern 1 (Framed (match ?x with _ => _ end)) => destruct x : typeclass_instances.
