(* ===== verification/Activation.v ===== *)
(** * Activating a configuration on a node (internal/nodeagent/activate.go and
    validator.go)

    The agent stages a complete bundle, has Nebula validate it, publishes it as an
    immutable version, points the link [current] at it and reloads Nebula; when the
    reload fails the previous target is restored.  Old versions are pruned before
    the next one is staged.

    Permissions and ownership of the files are not modelled: a check of them that
    fails is a fault of the act it belongs to. *)
From stdpp Require Import gmap.
From S2P Require Import Prelude GoStd Sha256 GoTime IPv4 NetIP Model AuditLog Credentials SignedConfig AgentOps AgentState AgentWorld.
From Stdlib Require Import Ascii.
Open Scope Z_scope.

(** ** Nebula's version (validator.go) *)
Fixpoint span_digits (l : list Z) : list Z * list Z :=
  match l with
  | c :: rest => if digit c then let '(ds, tail) := span_digits rest in (c :: ds, tail) else ([], l)
  | [] => ([], [])
  end.
(** [v?([0-9]+)\.([0-9]+)\.([0-9]+)($|[^0-9])] at this place. *)
Definition version_here (l : list Z) : option (list Z * list Z * list Z) :=
  let l := match l with 118 :: rest => rest | _ => l end in
  match span_digits l with
  | (a :: major, 46 :: l) =>
      match span_digits l with
      | (b :: minor, 46 :: l) =>
          match span_digits l with
          | (c :: patch, _) => Some (a :: major, b :: minor, c :: patch)
          | _ => None
          end
      | _ => None
      end
  | _ => None
  end.
(** After the start of the text, the version follows a character that is no digit. *)
Fixpoint version_after (l : list Z) : option (list Z * list Z * list Z) :=
  match l with
  | [] => None
  | c :: rest =>
      match (if digit c then None else version_here rest) with
      | Some v => Some v
      | None => version_after rest
      end
  end.
Definition parseSemanticVersion (output : string) : result (Z * Z * Z) :=
  let l := bytes_of output in
  '(major, minor, patch) ← of_option (match version_here l with Some v => Some v | None => version_after l end)
                             (ErrOther "could not determine Nebula semantic version");
  let part := λ digits, of_option (Atoi (string_of digits)) (ErrOther "could not determine Nebula semantic version") in
  a ← part major; b ← part minor; c ← part patch; Ok (a, b, c).
Definition EnforceMinimumNebulaVersion (output : string) : result unit :=
  '(a, b, c) ← parseSemanticVersion output;
  let unsupported := ErrOther "Nebula is unsupported; version 1.10.3 or newer is required" in
  if 1 <? a then Ok tt else fail unsupported when a <? 1;;
  if 10 <? b then Ok tt else fail unsupported when b <? 10;;
  if 3 <? c then Ok tt else fail unsupported when c <? 3;;
  Ok tt.

Module CertificateDetails.
Record t := make { Fingerprint : string; ExpiresAt : time }.
End CertificateDetails.
Definition parseCertificateDetails (output : list (string * time)) : result CertificateDetails.t :=
  match output with
  | [(fingerprint, notAfter)] =>
      fail (ErrOther "verified Nebula certificate metadata is invalid") when negb (validDigest fingerprint) || IsZero notAfter;;
      Ok (CertificateDetails.make fingerprint notAfter)
  | _ => Err (ErrOther "could not inspect verified Nebula certificate")
  end.

(** ** Bundles *)
Module Bundle.
Record t := make {
  NodeID : string; NetworkID : string; Revision : Z; IssuedAt : time; Digest : string; Signature : string;
  CACertificateSHA256 : string; PreviousCACertificateSHA256 : string; CARotationRequired : bool;
  CertificateProfileRenewalRequired : bool; CertificateFingerprint : string; CertificateExpiresAt : time;
  CertificateRenewAfter : time; CertificateGeneration : Z; PublicKeyHash : string; SignedConfig : string;
  CACertificate : string; Certificate : string; PrivateKey : string; PublicKey : string }.
Definition metadata (b : t) : BundleMetadata.t :=
  BundleMetadata.make (NodeID b) (NetworkID b) (Revision b) (IssuedAt b) (Digest b) (Signature b) (CACertificateSHA256 b)
    (PreviousCACertificateSHA256 b) (CARotationRequired b) (CertificateProfileRenewalRequired b) (CertificateFingerprint b)
    (CertificateExpiresAt b) (CertificateRenewAfter b) (CertificateGeneration b) (PublicKeyHash b).
Definition signature_metadata (b : t) : ConfigSignatureMetadata.t :=
  ConfigSignatureMetadata.make (NodeID b) (NetworkID b) (Revision b) (IssuedAt b) (CACertificateSHA256 b)
    (PreviousCACertificateSHA256 b) (CARotationRequired b) (CertificateProfileRenewalRequired b) (CertificateFingerprint b)
    (CertificateExpiresAt b) (CertificateRenewAfter b) (CertificateGeneration b) (PublicKeyHash b).
Definition with_contents (m : BundleMetadata.t) (config ca certificate private public : string) : t :=
  make (BundleMetadata.NodeID m) (BundleMetadata.NetworkID m) (BundleMetadata.Revision m) (BundleMetadata.IssuedAt m)
    (BundleMetadata.Digest m) (BundleMetadata.Signature m) (BundleMetadata.CACertificateSHA256 m)
    (BundleMetadata.PreviousCACertificateSHA256 m) (BundleMetadata.CARotationRequired m)
    (BundleMetadata.CertificateProfileRenewalRequired m) (BundleMetadata.CertificateFingerprint m)
    (BundleMetadata.CertificateExpiresAt m) (BundleMetadata.CertificateRenewAfter m) (BundleMetadata.CertificateGeneration m)
    (BundleMetadata.PublicKeyHash m) config ca certificate private public.
End Bundle.

Module Activator.
Record t := make {
  OutputDir : string; NodeID : string; NetworkID : string; ConfigSigningPublicKey : string; CACertificateSHA256 : string;
  PublicKeyHash : string }.
End Activator.

Section bundles.
Context `{Crypto}.

Definition within_size (value : string) : bool := (value != "") && (len value <=? maxBundleFileSize).

Definition validateBundle (bundle : Bundle.t) (nodeID networkID signingPublicKey caCertificateSHA256 publicKeyHash : string) :
    result unit :=
  fail (ErrOther "pinned node identity, config-signing key, CA certificate, and public key are required")
    when (nodeID == "") || (networkID == "") || (signingPublicKey == "") || negb (validDigest caCertificateSHA256)
      || negb (ValidTokenHash publicKeyHash);;
  fail (ErrOther "bundle identity does not match the pinned node")
    when (Bundle.NodeID bundle != nodeID) || (Bundle.NetworkID bundle != networkID);;
  fail (ErrOther "bundle revision or digest is invalid") when (Bundle.Revision bundle <? 1) || negb (validDigest (Bundle.Digest bundle));;
  _ ← VerifyConfig signingPublicKey (Bundle.signature_metadata bundle) (Bundle.SignedConfig bundle) (Bundle.Digest bundle)
        (Bundle.Signature bundle);
  fail (ErrOther "bundle CA certificate does not match the enrollment pin")
    when (Bundle.CACertificateSHA256 bundle != caCertificateSHA256)
      || (ConfigDigest (Bundle.CACertificate bundle) != caCertificateSHA256);;
  fail (ErrOther "bundle public key does not match the enrollment pin")
    when (Bundle.PublicKeyHash bundle != publicKeyHash) || (canonicalPublicKeyHash (Bundle.PublicKey bundle) != publicKeyHash);;
  fail (ErrOther "bundle file is empty or exceeds size limit")
    when negb (forallb within_size [Bundle.SignedConfig bundle; Bundle.CACertificate bundle; Bundle.Certificate bundle;
                                    Bundle.PrivateKey bundle; Bundle.PublicKey bundle]);;
  Ok tt.
Definition validate_pinned (a : Activator.t) (bundle : Bundle.t) : result unit :=
  validateBundle bundle (Activator.NodeID a) (Activator.NetworkID a) (Activator.ConfigSigningPublicKey a)
    (Activator.CACertificateSHA256 a) (Activator.PublicKeyHash a).
End bundles.

(** *** Paths in the configuration *)
(** strings.Count of a text that is not empty, and strings.Replace of its first
    occurrence. *)
Fixpoint count_bytes (fuel : nat) (sub l : list Z) : Z :=
  match fuel, l with
  | S fuel, _ :: rest =>
      match strip_prefix sub l with
      | Some tail => 1 + count_bytes fuel sub tail
      | None => count_bytes fuel sub rest
      end
  | _, _ => 0
  end.
Definition Count (s sub : string) : Z := count_bytes (String.length s) (bytes_of sub) (bytes_of s).
Fixpoint replace_bytes (old new l : list Z) : list Z :=
  match strip_prefix old l with
  | Some tail => new ++ tail
  | None => match l with c :: rest => c :: replace_bytes old new rest | [] => [] end
  end.
Definition Replace1 (s old new : string) : string := string_of (replace_bytes (bytes_of old) (bytes_of new) (bytes_of s)).

(** The source ranges over a map; the order matters only for a directory whose own
    path contains one of the three. *)
Definition pki_files : list string := ["ca.crt"; "host.crt"; "host.key"].
Definition rewritePKIPaths (config directory : string) : result string :=
  foldl (λ text name,
    text ← text;
    fail (ErrOther "signed config must contain exactly one path") when negb (Count text ("/etc/nebula/" +:+ name) =? 1);;
    Ok (Replace1 text ("/etc/nebula/" +:+ name) (directory +:+ "/" +:+ name))) (Ok config) pki_files.

(** ** Names *)
Definition b64_name (c : Z) : bool := alnum c || (c =? 45) || (c =? 95).
Definition validVersionName (name : string) : bool :=
  let l := bytes_of name in
  (length l =? 51)%nat && (take 1 l == [114]) && (take 1 (drop 21 l) == [45]) && (take 1 (drop 38 l) == [45])
  && forallb digit (take 20 (drop 1 l)) && forallb AuditLog.hex_digit (take 16 (drop 22 l)) && forallb b64_name (drop 39 l).
Definition staging_prefix : string := ".staging-".
Definition validStagingName (name : string) : bool :=
  match strip_prefix (bytes_of staging_prefix) (bytes_of name) with
  | Some l => (1 <=? length l)%nat && (length l <=? 64)%nat && forallb b64_name l
  | None => false
  end.

Definition managedDirectoryPrefix : string := "mesh-nodeagent-v2" +:+ String LF "".
Definition marker_value (nodeID networkID : string) : string :=
  managedDirectoryPrefix +:+ "node_id=" +:+ nodeID +:+ String LF "" +:+ "network_id=" +:+ networkID +:+ String LF "".
Definition field_value (name line : string) : option string :=
  string_of <$> strip_prefix (bytes_of name) (bytes_of line).
Definition validManagedMarker (marker : string) : bool :=
  match split_on LF marker with
  | [a; b; c; d] =>
      (a +:+ String LF "" == managedDirectoryPrefix)
      && match field_value "node_id=" b with Some id => validIdentifier id | None => false end
      && match field_value "network_id=" c with Some id => validIdentifier id | None => false end && (d == "")
  | _ => false
  end.

Definition protected_paths : list string :=
  ["/bin"; "/boot"; "/dev"; "/etc"; "/home"; "/lib"; "/lib64"; "/opt"; "/proc"; "/root"; "/run"; "/sbin"; "/srv"; "/sys";
   "/tmp"; "/usr"; "/var"].
Definition isProtectedOutputPath (path : string) : bool := (path == "/") || contains protected_paths path.

(** [r%020d-%s-]: the revision in twenty digits and the start of the digest. *)
Definition pad20 (z : Z) : string :=
  string_of (replicate (20 - String.length (Itoa z)) 48) +:+ Itoa z.
Definition version_prefix (revision : Z) (digest : string) : string :=
  "r" +:+ pad20 revision +:+ "-" +:+ string_of (take 16 (bytes_of digest)) +:+ "-".

(** ** Reading files (readSecureBundleFile) *)

(** The text of a string in JSON ([json.Marshal], which escapes HTML too). *)
Definition json_digit (d : Z) : Z := if d <? 10 then d + 48 else d + 87.
Definition json_ascii (c : Z) : list Z :=
  if (c =? 34) || (c =? 92) then [92; c]
  else if c =? 8 then [92; 98] else if c =? 9 then [92; 116] else if c =? 10 then [92; 110]
  else if c =? 12 then [92; 102] else if c =? 13 then [92; 114]
  else if (c <? 32) || (c =? 38) || (c =? 60) || (c =? 62) then [92; 117; 48; 48; json_digit (c / 16); json_digit (c mod 16)]
  else [c].
Definition json_invalid : list Z := bytes_of "\ufffd".
Fixpoint json_escape (l : list Z) : list Z :=
  match l with
  | [] => []
  | b :: r =>
      if b <? 128 then json_ascii b ++ json_escape r else
      match r with
      | b1 :: r1 =>
          if (194 <=? b) && (b <=? 223) && is_cont b1 then b :: b1 :: json_escape r1 else
          match r1 with
          | b2 :: r2 =>
              if valid_utf8 [b; b1; b2] && (224 <=? b) then
                (if [b; b1; b2] == [226; 128; 168] then bytes_of "\u2028"
                 else if [b; b1; b2] == [226; 128; 169] then bytes_of "\u2029" else [b; b1; b2]) ++ json_escape r2
              else
              match r2 with
              | b3 :: r3 =>
                  if valid_utf8 [b; b1; b2; b3] && (240 <=? b) then b :: b1 :: b2 :: b3 :: json_escape r3
                  else json_invalid ++ json_escape r
              | [] => json_invalid ++ json_escape r
              end
          | [] => json_invalid ++ json_escape r
          end
      | [] => json_invalid
      end
  end.
Definition quoted (s : string) : string := String "034"%char (string_of (json_escape (bytes_of s)) +:+ String "034"%char "").
Definition member (name value : string) : string := quoted name +:+ ":" +:+ value.
Definition bool_text (b : bool) : string := if b then "true" else "false".
(** The fields of bundleMetadata in their order; three are left out when empty. *)
Definition metadata_json (m : BundleMetadata.t) : string :=
  let text := λ name value, [member name (quoted value)] in
  let at_ := λ name value, [member name (quoted (RFC3339Nano value))] in
  let flag := λ name (value : bool), if value then [member name (bool_text true)] else [] in
  let fields :=
    text "node_id" (BundleMetadata.NodeID m) ++ text "network_id" (BundleMetadata.NetworkID m) ++
    [member "revision" (Itoa (BundleMetadata.Revision m))] ++ at_ "issued_at" (BundleMetadata.IssuedAt m) ++
    text "digest" (BundleMetadata.Digest m) ++ text "signature" (BundleMetadata.Signature m) ++
    text "ca_sha256" (BundleMetadata.CACertificateSHA256 m) ++
    (if BundleMetadata.PreviousCACertificateSHA256 m == "" then [] else text "previous_ca_sha256" (BundleMetadata.PreviousCACertificateSHA256 m)) ++
    flag "ca_rotation_required" (BundleMetadata.CARotationRequired m) ++
    flag "certificate_profile_renewal_required" (BundleMetadata.CertificateProfileRenewalRequired m) ++
    text "certificate_fingerprint" (BundleMetadata.CertificateFingerprint m) ++
    at_ "certificate_expires_at" (BundleMetadata.CertificateExpiresAt m) ++
    at_ "certificate_renew_after" (BundleMetadata.CertificateRenewAfter m) ++
    [member "certificate_generation" (Itoa (BundleMetadata.CertificateGeneration m))] ++
    text "public_key_hash" (BundleMetadata.PublicKeyHash m) in
  "{" +:+ join "," fields +:+ "}".
(** The bytes of a file; metadata.json ends with a line feed. *)
Definition file_text (f : file) : string :=
  match f with Text text => text | Metadata m => metadata_json m +:+ String LF "" end.
Definition fits (f : file) : bool := len (file_text f) <=? maxBundleFileSize.
Definition readSecureBundleFile (f : option file) : result file :=
  f ← of_option f (ErrOther "inspect bundle file");
  fail (ErrOther "bundle file exceeds size limit") when negb (fits f);;
  Ok f.
Definition secure_text (f : option file) : result string := f ← readSecureBundleFile f; Ok (file_text f).

(** ** The output directory *)
Definition version_path (outputDir child : string) : string := outputDir +:+ "/versions/" +:+ child.

(** The target of the link and the version it leads to.  (A link to a staging
    directory, which the agent never makes, is refused here.) *)
Definition inspectCurrentLink (outputDir : string) (o : Output.t) : result (option (string * string)) :=
  match Output.current o with
  | None => Ok None
  | Some target =>
      fail (ErrOther "current Nebula bundle target must be relative") when IsAbs target;;
      child ← of_option (string_of <$> strip_prefix (bytes_of (outputDir +:+ "/versions/"))
                                         (bytes_of (Clean (outputDir +:+ "/" +:+ target))))
                (ErrOther "current Nebula bundle points outside the versions directory");
      fail (ErrOther "current Nebula bundle must point to one immutable version directory")
        when contains_char child "/"%char || (child == "");;
      fail (ErrOther "inspect current Nebula version directory") when negb (bool_decide (is_Some (Output.version_map o !! child)));;
      Ok (Some (target, child))
  end.

Definition unused (o : Output.t) : bool :=
  bool_decide (Output.marker o = None ∧ Output.foreign o = ∅ ∧ Output.versions o = None ∧ Output.current o = None).
Definition PreflightManagedOutput (path : string) (o : Output.t) : result unit :=
  fail (ErrOther "bundle output must be a dedicated leaf directory, not a filesystem or system root") when isProtectedOutputPath path;;
  if unused o then Ok tt else
  fail (ErrOther "bundle output must be unused or contain only a valid Mesh-managed layout")
    when negb (bool_decide (Output.foreign o = ∅));;
  fail (ErrOther "bundle output ownership marker is invalid")
    when negb (match secure_text (Text <$> Output.marker o) with Ok marker => validManagedMarker marker | Err _ => false end);;
  match Output.versions o with
  | None =>
      fail (ErrOther "managed bundle output has a current link without a versions directory")
        when negb (bool_decide (Output.current o = None));;
      Ok tt
  | Some versions =>
      fail (ErrOther "managed bundle versions contain an invalid entry")
        when negb (forallb (λ entry, validVersionName (fst entry) || validStagingName (fst entry)) (map_to_list versions))
          || negb (forallb validStagingName (elements (Output.stages o)));;
      _ ← inspectCurrentLink path o;
      Ok tt
  end.

(** ** Complete versions *)
Definition completeBundleFileNames : list string :=
  ["ca.crt"; "config.signed.yml"; "config.yml"; "host.crt"; "host.key"; "host.pub"; "metadata.json"].

Import BundleMetadata.
Definition complete_metadata (m : BundleMetadata.t) : bool :=
  negb ((Revision m <? 1) || negb (validDigest (Digest m)) || (CertificateGeneration m <? 1) || IsZero (IssuedAt m)
        || negb (validDigest (CACertificateSHA256 m)) || negb (validDigest (CertificateFingerprint m))
        || IsZero (CertificateExpiresAt m) || IsZero (CertificateRenewAfter m)
        || negb (Before (CertificateRenewAfter m) (CertificateExpiresAt m)) || negb (ValidTokenHash (PublicKeyHash m))
        || (Signature m == "") || negb (validIdentifier (NodeID m)) || negb (validIdentifier (NetworkID m))).
Definition validateCompleteVersionDirectory (name : string) (contents : directory) : result unit :=
  fail (ErrOther "version does not contain the complete immutable bundle file set")
    when negb (size contents =? length completeBundleFileNames)%nat;;
  fail (ErrOther "version contains unexpected entry")
    when negb (forallb (λ entry, contains completeBundleFileNames (fst entry)) (map_to_list contents));;
  metadata ← readSecureBundleFile (contents !! "metadata.json");
  match metadata with
  | Metadata m =>
      fail (ErrOther "bundle metadata is incomplete or invalid") when negb (complete_metadata m);;
      fail (ErrOther "version name does not match immutable bundle metadata")
        when match strip_prefix (bytes_of (version_prefix (Revision m) (Digest m))) (bytes_of name) with
             | Some _ => false
             | None => true
             end;;
      Ok tt
  | _ => Err (ErrOther "decode bundle metadata")
  end.

Section activation.
Context `{Crypto} `{Environment} {S : Type}.
Implicit Types w : world S.
Definition acting (A : Type) : Type := M (world S) A.

(** ** Validation by Nebula *)
Definition Validate_bundle (contents : directory) (config : string) : acting CertificateDetails.t :=
  output ← ask nebula_version;
  _ ← lift (EnforceMinimumNebulaVersion output);
  _ ← ask (λ n, nebula_cert_verify n contents);
  _ ← ask (λ n, nebula_test n contents config);
  printed ← ask (λ n, nebula_cert_print n contents);
  lift (parseCertificateDetails printed).

(** ** Pruning *)
Definition remove_file (version name : string) (o : Output.t) : Output.t :=
  o <| Output.versions := Some (alter (λ v, v <| Version.contents := delete name (Version.contents v) |>) version (Output.version_map o)) |>.
Definition remove_version (version : string) (o : Output.t) : Output.t :=
  o <| Output.versions := Some (delete version (Output.version_map o)) |>.

Fixpoint remove_files (version : string) (names : list string) : acting unit :=
  match names with
  | [] => mret tt
  | name :: rest => _ ← os (λ _, change_output (remove_file version name)); remove_files version rest
  end.
Definition removeCompleteVersionDirectory (version : string) : acting unit :=
  _ ← read (λ w, match Output.version_map (output w) !! version with
                 | Some v => validateCompleteVersionDirectory version (Version.contents v)
                 | None => Err (ErrOther "inspect version directory")
                 end);
  _ ← remove_files version completeBundleFileNames;
  os (λ _, change_output (remove_version version)).

Definition maxRetainedBundleVersions : nat := 5.
Definition retainBeforeActivation : nat := maxRetainedBundleVersions - 1.

Definition check_entry (entry : string * Version.t) : result unit :=
  fail (ErrOther "managed bundle versions contain an invalid retention entry") when negb (validVersionName (fst entry));;
  validateCompleteVersionDirectory (fst entry) (Version.contents (snd entry)).
Fixpoint check_entries (entries : list (string * Version.t)) : result unit :=
  match entries with
  | [] => Ok tt
  | entry :: rest => _ ← check_entry entry; check_entries rest
  end.

(** Newest first, and by name where the times agree. *)
Definition newer (a b : string * time) : bool :=
  if snd a =? snd b then str_le (fst b) (fst a) else snd b <? snd a.
Fixpoint fill_retained (kept : list string) (names : list string) : list string :=
  match names with
  | [] => kept
  | name :: rest =>
      if (length kept =? retainBeforeActivation)%nat then kept
      else fill_retained (if contains kept name then kept else kept ++ [name]) rest
  end.
Definition retained_versions (current : option string) (names : list string) : list string :=
  fill_retained (match current with Some name => [name] | None => [] end) names.

Fixpoint prune_others (current : option string) (retained names : list string) : acting unit :=
  match names with
  | [] => mret tt
  | name :: rest =>
      if contains retained name then prune_others current retained rest
      else
        stop (ErrOther "refusing to prune the current Nebula bundle") when (Some name == current);;
        _ ← removeCompleteVersionDirectory name;
        prune_others current retained rest
  end.

Definition dated (entry : string * Version.t) : string * time := (fst entry, Version.modified (snd entry)).
Definition pruneVersionsBeforeActivation (current : option string) : acting unit :=
  versions ← read (λ w, Ok (Output.version_map (output w)));
  let entries := filter (λ entry, validStagingName (fst entry) = false) (map_to_list versions) in
  _ ← lift (check_entries entries);
  stop (ErrOther "current Nebula bundle is not a validated immutable version")
    when match current with Some name => negb (contains entries.*1 name) | None => false end;;
  if (length entries <=? retainBeforeActivation)%nat then mret tt
  else
    let names := (sort_by newer (dated <$> entries)).*1 in
    _ ← prune_others current (retained_versions current names) names;
    os (λ _ w, w).

(** ** The link *)
Definition set_link (link : option string) (o : Output.t) : Output.t := o <| Output.current := link |>.
Definition add_entry (name : string) (o : Output.t) : Output.t := o <| Output.foreign := {[name]} ∪ Output.foreign o |>.
Definition remove_entry (name : string) (o : Output.t) : Output.t := o <| Output.foreign := Output.foreign o ∖ {[name]} |>.
Definition random_text (n : nat) : result string := GenerateBearer (random n).

Definition replaceSymlink (target : string) : acting unit :=
  text ← ask random_text;
  let temporary := "current.next-" +:+ string_of (take 12 (bytes_of text)) in
  _ ← os (λ _, change_output (add_entry temporary));
  finally (os (λ _, change_output (λ o, remove_entry temporary (set_link (Some target) o))))
          (os (λ _, change_output (remove_entry temporary))).

Definition sync_directory : acting unit := os (λ _ w, w).
Definition Reload : acting unit := os (λ _, change_output (λ o, o <| Output.running := Output.current o |>)).

Definition rollback (previous : option (string * string)) : acting unit :=
  _ ← match previous with
      | Some (target, _) => replaceSymlink target
      | None => os (λ _, change_output (set_link None))
      end;
  _ ← sync_directory;
  match previous with Some _ => Reload | None => mret tt end.

(** The error of a failed rollback is joined to the first. *)
Definition or_roll_back (previous : option (string * string)) (m : acting unit) : acting unit :=
  outcome ← try m;
  match outcome with
  | Ok _ => mret tt
  | Err e => _ ← rollback previous; lift (Err e)
  end.

(** ** Preparing the directory *)
Definition secureManagedOutputDir (path nodeID networkID : string) : acting unit :=
  stop (ErrOther "bundle output must be a dedicated leaf directory, not a filesystem or system root") when isProtectedOutputPath path;;
  marker ← read (λ w, Ok (Output.marker (output w)));
  let value := marker_value nodeID networkID in
  _ ← match marker with
      | None =>
          _ ← read (λ w, fail_if (negb (unused (output w)))
                           (ErrOther "refusing to manage a non-empty directory without the Mesh ownership marker"));
          _ ← os (λ _, change_output (λ o, o <| Output.marker := Some "" |>));
          os (λ _, change_output (λ o, o <| Output.marker := Some value |>))
      | Some text => lift (fail_if (text != value) (ErrOther "bundle ownership marker is invalid"))
      end;
  sync_directory.
Definition secureChildDir : acting unit :=
  os (λ _, change_output (λ o, o <| Output.versions := Some (Output.version_map o) |>)).

(** ** Applying a bundle *)
Definition texts (bundle : Bundle.t) (runtimeConfig : string) : directory :=
  <["ca.crt" := Text (Bundle.CACertificate bundle)]> (<["host.crt" := Text (Bundle.Certificate bundle)]>
  (<["host.key" := Text (Bundle.PrivateKey bundle)]> (<["host.pub" := Text (Bundle.PublicKey bundle)]>
  (<["config.signed.yml" := Text (Bundle.SignedConfig bundle)]> {["config.yml" := Text runtimeConfig]})))).
Definition staged_contents (bundle : Bundle.t) (runtimeConfig validationConfig : string) : directory :=
  <["config.validate.yml" := Text validationConfig]> (texts bundle runtimeConfig).
Definition version_contents (bundle : Bundle.t) (runtimeConfig : string) : directory :=
  <["metadata.json" := Metadata (Bundle.metadata bundle)]> (texts bundle runtimeConfig).

Definition add_stage (name : string) (o : Output.t) : Output.t := o <| Output.stages := {[name]} ∪ Output.stages o |>.
Definition remove_stage (name : string) (o : Output.t) : Output.t := o <| Output.stages := Output.stages o ∖ {[name]} |>.
Definition publish (stage name : string) (version : Version.t) (o : Output.t) : Output.t :=
  remove_stage stage o <| Output.versions := Some (<[name := version]> (Output.version_map o)) |>.

Definition outputDir (a : Activator.t) : string := Clean (Activator.OutputDir a).

Definition version_name (bundle : Bundle.t) (suffix : string) : string :=
  version_prefix (Bundle.Revision bundle) (Bundle.Digest bundle) +:+ string_of (take 12 (bytes_of suffix)).

(** The rename of the staging directory, which an existing version refuses. *)
Definition publish_stage (stage name : string) (contents : directory) : acting unit := act (λ n w,
  match fault n with
  | Some msg => (w, Err (ErrOther msg))
  | None =>
      if bool_decide (is_Some (Output.version_map (output w) !! name)) then (w, Err (ErrOther "publish staged Nebula bundle"))
      else (change_output (publish stage name (Version.make contents (clock n))) w, Ok tt)
  end).

(** From the staging directory to the published version; the files are written and
    synced one by one, but nothing reads them before the publication. *)
Definition stage_and_publish (a : Activator.t) (bundle : Bundle.t) (stage : string) : acting (string * CertificateDetails.t) :=
  runtimeConfig ← lift (rewritePKIPaths (Bundle.SignedConfig bundle) (outputDir a +:+ "/current"));
  validationConfig ← lift (rewritePKIPaths (Bundle.SignedConfig bundle) (version_path (outputDir a) stage));
  _ ← sync_directory;
  details ← Validate_bundle (staged_contents bundle runtimeConfig validationConfig) "config.validate.yml";
  stop (ErrOther "verified Nebula certificate does not match the signed artifact metadata")
    when (CertificateDetails.Fingerprint details != Bundle.CertificateFingerprint bundle)
      || negb (CertificateDetails.ExpiresAt details =? Bundle.CertificateExpiresAt bundle);;
  _ ← sync_directory;
  suffix ← ask random_text;
  let name := version_name bundle suffix in
  _ ← publish_stage stage name (version_contents bundle runtimeConfig);
  mret (name, details).
Definition unless_published {A} (m : acting A) (stage : string) : acting A := λ w,
  match m w with
  | (w', Err e) => (fst (os (λ _, change_output (remove_stage stage)) w'), Err e)
  | (w', Ok a) => (w', Ok a)
  end.

Definition make_stage : acting string :=
  name ← ask (λ n, Ok (staging_prefix +:+ temporary n));
  _ ← os (λ _, change_output (add_stage name));
  mret name.

(** Making a published version live. *)
Definition switch_to (previous : option (string * string)) (name : string) : acting unit :=
  _ ← sync_directory;
  _ ← replaceSymlink ("versions/" +:+ name);
  _ ← or_roll_back previous sync_directory;
  or_roll_back previous Reload.

Definition Apply (a : Activator.t) (bundle : Bundle.t) : acting CertificateDetails.t :=
  _ ← lift (validate_pinned a bundle);
  _ ← read (λ w, PreflightManagedOutput (outputDir a) (output w));
  _ ← sync_directory; (* the lock of the output directory *)
  _ ← read (λ w, PreflightManagedOutput (outputDir a) (output w));
  _ ← secureManagedOutputDir (outputDir a) (Activator.NodeID a) (Activator.NetworkID a);
  _ ← secureChildDir;
  previous ← read (λ w, inspectCurrentLink (outputDir a) (output w));
  _ ← pruneVersionsBeforeActivation (snd <$> previous);
  stage ← make_stage;
  '(name, details) ← unless_published (stage_and_publish a bundle stage) stage;
  _ ← switch_to previous name;
  mret details.

(** ** Reading the live bundle *)
Definition text_of (contents : directory) (name : string) : result string := secure_text (contents !! name).
Definition read_bundle (contents : directory) : result (Bundle.t * string) :=
  file ← readSecureBundleFile (contents !! "metadata.json");
  metadata ← match file with Metadata m => Ok m | Text _ => Err (ErrOther "decode current bundle metadata") end;
  signed ← text_of contents "config.signed.yml"; config ← text_of contents "config.yml"; ca ← text_of contents "ca.crt";
  certificate ← text_of contents "host.crt"; private ← text_of contents "host.key"; public ← text_of contents "host.pub";
  Ok (Bundle.with_contents metadata signed ca certificate private public, config).

Definition live_contents (a : Activator.t) (o : Output.t) : result directory :=
  link ← inspectCurrentLink (outputDir a) o;
  '(_, child) ← of_option link (ErrOther "current Nebula bundle does not exist");
  version ← of_option (Output.version_map o !! child) (ErrOther "inspect current Nebula version directory");
  Ok (Version.contents version).
(** What the directory holds, before Nebula is asked. *)
Definition live_bundle (a : Activator.t) (o : Output.t) : result (Bundle.t * directory) :=
  contents ← live_contents a o;
  '(bundle, config) ← read_bundle contents;
  _ ← validate_pinned a bundle;
  expected ← rewritePKIPaths (Bundle.SignedConfig bundle) (outputDir a +:+ "/current");
  fail (ErrOther "live Nebula config differs from the pinned signed config") when config != expected;;
  Ok (bundle, contents).
Definition CurrentBundle (a : Activator.t) : acting Bundle.t :=
  '(bundle, contents) ← read (λ w, live_bundle a (output w));
  details ← Validate_bundle contents "config.yml";
  stop (ErrOther "current Nebula certificate does not match immutable signed metadata")
    when (CertificateDetails.Fingerprint details != Bundle.CertificateFingerprint bundle)
      || negb (CertificateDetails.ExpiresAt details =? Bundle.CertificateExpiresAt bundle);;
  mret bundle.
End activation.
