(* ===== verification/NodeAgent.v ===== *)
(** * The node agent (internal/nodeagent/agent.go, the store of state.go,
    recovery_key.go and client.go)

    The agent polls the control plane for its signed configuration, activates it,
    renews its certificate, rotates and recovers its credential and reports what it
    runs.  It trusts what it pinned at enrollment: its identity, the key that signs
    configurations, its own public key, and an authority that changes only by
    signed transitions.  Calls are serialized by the agent's mutex and its process
    lock, so an operation is one computation. *)
From stdpp Require Import gmap.
From S2P Require Import Prelude GoStd Sha256 GoTime IPv4 NetIP Model AuditLog Credentials SignedConfig Enrollment Recovery AgentOps.
From S2P Require Import AgentState AgentWorld Activation.
From Stdlib Require Import Ascii.
Open Scope Z_scope.

(** ** What a response must satisfy *)
Definition ErrConfigRollback : err := ErrOther "signed config revision rollback".
Definition ErrConfigEquivocation : err := ErrOther "signed config digest changed at the same revision".
Definition ErrAgentRecoveryPending : err := ErrOther "agent credential recovery is pending; rerun recover-agent".
Definition ErrAgentRecoveryResumeRequired : err :=
  ErrOther "pending recovery bearer is already active; rerun recover-agent with --resume".

Module SyncResult.
Record t := make { Changed : bool; Revision : Z; Digest : string }.
End SyncResult.
Module Health.
Record t := make {
  NebulaVersion : string; CertificateFingerprint : string; NebulaRunning : bool; NativeDNSActive : bool; Status : string;
  LastError : string }.
End Health.

Section checks.
Context `{Crypto}.
Import AgentState.

Definition same_certificate (s : AgentState.t) (fingerprint : string) (expiresAt renewAfter : time) : bool :=
  (fingerprint == CertificateFingerprint s) && (expiresAt =? CertificateExpiresAt s) && (renewAfter =? CertificateRenewAfter s).

Definition VerifySignedConfig (state : AgentState.t) (desired : AgentConfig.t) : result unit :=
  fail (ErrOther "signed config identity does not match enrolled node")
    when (AgentConfig.NodeID desired != NodeID state) || (AgentConfig.NetworkID desired != NetworkID state);;
  fail (ErrOther "signed config revision or digest is invalid")
    when (AgentConfig.Revision desired <? 1) || negb (validDigest (AgentConfig.SHA256 desired));;
  fail (ErrOther "signed config CA or public key does not match the enrollment pin")
    when AgentConfig.PublicKeyHash desired != PublicKeyHash state;;
  _ ← VerifyConfig (ConfigSigningPublicKey state) (AgentConfig.SignatureMetadata desired) (AgentConfig.Config desired)
        (AgentConfig.SHA256 desired) (AgentConfig.Signature desired);
  fail (ErrOther "signed config CA or public key transition does not descend from the enrollment pin")
    when (AgentConfig.CACertificateSHA256 desired != CACertificateSHA256 state)
      && (AgentConfig.PreviousCACertificateSHA256 desired != CACertificateSHA256 state);;
  fail ErrConfigRollback when AgentConfig.Revision desired <? AppliedConfigRevision state;;
  fail ErrConfigRollback when AgentConfig.CertificateGeneration desired <? CertificateGeneration state;;
  fail ErrConfigEquivocation
    when (AgentConfig.CertificateGeneration desired =? CertificateGeneration state) && (CertificateFingerprint state != "")
      && negb (same_certificate state (AgentConfig.CertificateFingerprint desired) (AgentConfig.CertificateExpiresAt desired)
                 (AgentConfig.CertificateRenewAfter desired));;
  fail ErrConfigEquivocation
    when (AgentConfig.Revision desired =? AppliedConfigRevision state) && (0 <? AppliedConfigRevision state)
      && (AgentConfig.SHA256 desired != AppliedConfigSHA256 state);;
  Ok tt.

Definition sameSignedArtifact (current : Bundle.t) (desired : AgentConfig.t) : bool :=
  (Bundle.NodeID current == AgentConfig.NodeID desired) && (Bundle.NetworkID current == AgentConfig.NetworkID desired)
  && (Bundle.Revision current =? AgentConfig.Revision desired) && (Bundle.IssuedAt current =? AgentConfig.IssuedAt desired)
  && (Bundle.Digest current == AgentConfig.SHA256 desired) && (Bundle.Signature current == AgentConfig.Signature desired)
  && (Bundle.CACertificateSHA256 current == AgentConfig.CACertificateSHA256 desired)
  && (Bundle.PreviousCACertificateSHA256 current == AgentConfig.PreviousCACertificateSHA256 desired)
  && Bool.eqb (Bundle.CARotationRequired current) (AgentConfig.CARotationRequired desired)
  && Bool.eqb (Bundle.CertificateProfileRenewalRequired current) (AgentConfig.CertificateProfileRenewalRequired desired)
  && (Bundle.CertificateFingerprint current == AgentConfig.CertificateFingerprint desired)
  && (Bundle.CertificateExpiresAt current =? AgentConfig.CertificateExpiresAt desired)
  && (Bundle.CertificateRenewAfter current =? AgentConfig.CertificateRenewAfter desired)
  && (Bundle.CertificateGeneration current =? AgentConfig.CertificateGeneration desired)
  && (Bundle.PublicKeyHash current == AgentConfig.PublicKeyHash desired)
  && (Bundle.SignedConfig current == AgentConfig.Config desired).

(** The signed artifact of a bootstrap and of a renewal. *)
Definition bootstrap_config (b : EnrollmentBundle.t) : AgentConfig.t :=
  AgentConfig.make (EnrollmentBundle.NodeID b) (EnrollmentBundle.NetworkID b) (EnrollmentBundle.ConfigRevision b)
    (EnrollmentBundle.Config b) (EnrollmentBundle.ConfigIssuedAt b) (EnrollmentBundle.ConfigSHA256 b)
    (EnrollmentBundle.CACertificateSHA256 b) (EnrollmentBundle.PreviousCACertificateSHA256 b)
    (EnrollmentBundle.CARotationRequired b) (EnrollmentBundle.CertificateProfileRenewalRequired b)
    (EnrollmentBundle.CertificateFingerprint b) (EnrollmentBundle.CertificateGeneration b) (EnrollmentBundle.PublicKeyHash b)
    (EnrollmentBundle.ConfigSignature b) (EnrollmentBundle.CertificateExpiresAt b) (EnrollmentBundle.CertificateRenewAfter b).
Definition renewal_config (b : RenewalBundle.t) : AgentConfig.t :=
  AgentConfig.make (RenewalBundle.NodeID b) (RenewalBundle.NetworkID b) (RenewalBundle.ConfigRevision b)
    (RenewalBundle.Config b) (RenewalBundle.ConfigIssuedAt b) (RenewalBundle.ConfigSHA256 b)
    (RenewalBundle.CACertificateSHA256 b) (RenewalBundle.PreviousCACertificateSHA256 b)
    (RenewalBundle.CARotationRequired b) (RenewalBundle.CertificateProfileRenewalRequired b)
    (RenewalBundle.CertificateFingerprint b) (RenewalBundle.CertificateGeneration b) (RenewalBundle.PublicKeyHash b)
    (RenewalBundle.ConfigSignature b) (RenewalBundle.CertificateExpiresAt b) (RenewalBundle.CertificateRenewAfter b).
Definition bundle_for (nodeID networkID : string) (d : AgentConfig.t) (ca certificate private public : string) : Bundle.t :=
  Bundle.make nodeID networkID (AgentConfig.Revision d) (AgentConfig.IssuedAt d) (AgentConfig.SHA256 d) (AgentConfig.Signature d)
    (AgentConfig.CACertificateSHA256 d) (AgentConfig.PreviousCACertificateSHA256 d) (AgentConfig.CARotationRequired d)
    (AgentConfig.CertificateProfileRenewalRequired d) (AgentConfig.CertificateFingerprint d) (AgentConfig.CertificateExpiresAt d)
    (AgentConfig.CertificateRenewAfter d) (AgentConfig.CertificateGeneration d) (AgentConfig.PublicKeyHash d)
    (AgentConfig.Config d) ca certificate private public.

(** The node's key pair, private half first. *)
Definition keys : Type := (string * string)%type.

Definition verifyBootstrapBundle (state : AgentState.t) (keys : keys) (bootstrap : EnrollmentBundle.t) :
    result (AgentConfig.t * Bundle.t) :=
  fail (ErrOther "bootstrap config-signing key does not match the enrollment pin")
    when EnrollmentBundle.ConfigSigningPublicKey bootstrap != ConfigSigningPublicKey state;;
  fail (ErrOther "bootstrap keypair does not match the enrolled public-key pin")
    when canonicalPublicKeyHash (snd keys) != PublicKeyHash state;;
  let desired := bootstrap_config bootstrap in
  _ ← VerifySignedConfig state desired;
  let bundle := bundle_for (AgentConfig.NodeID desired) (AgentConfig.NetworkID desired) desired (EnrollmentBundle.CA bootstrap)
                  (EnrollmentBundle.Certificate bootstrap) (fst keys) (snd keys) in
  _ ← validateBundle bundle (NodeID state) (NetworkID state) (ConfigSigningPublicKey state)
        (AgentConfig.CACertificateSHA256 desired) (PublicKeyHash state);
  Ok (desired, bundle).

Definition verifyRecoveredAgentBundle (state : AgentState.t) (keys : keys) (recovered : AgentRecoveryBundle.t)
    (pendingBearer : string) (now : time) : result (AgentConfig.t * Bundle.t) :=
  let receipt := AgentRecoveryBundle.Receipt recovered in
  let bundle := AgentRecoveryBundle.Bundle recovered in
  _ ← VerifyRecoveryReceipt (ConfigSigningPublicKey state) receipt;
  fail (ErrOther "agent recovery returned a non-monotonic credential generation")
    when negb (if PendingRecoveryAllowsGenerationAdvance state
               then AgentCredentialGeneration state <? RecoveryReceipt.AgentCredentialGeneration receipt
               else negb (AgentCredentialGeneration state =? int64_max)
                    && (RecoveryReceipt.AgentCredentialGeneration receipt =? wrap64 (AgentCredentialGeneration state + 1)));;
  fail (ErrOther "agent recovery receipt identity does not match the enrolled node")
    when (RecoveryReceipt.NodeID receipt != NodeID state) || (RecoveryReceipt.NetworkID receipt != NetworkID state);;
  fail (ErrOther "agent recovery receipt does not authorize the pending bearer")
    when negb (TokenHashEqual (RecoveryReceipt.NewAgentTokenHash receipt) (HashToken pendingBearer));;
  fail (ErrOther "agent recovery receipt credential metadata does not match the bootstrap")
    when negb (RecoveryReceipt.AgentCredentialGeneration receipt =? EnrollmentBundle.AgentCredentialGeneration bundle)
      || negb (RecoveryReceipt.AgentCredentialExpiresAt receipt =? EnrollmentBundle.AgentCredentialExpiresAt bundle);;
  fail (ErrOther "agent recovery returned an invalid credential expiry")
    when negb (After (RecoveryReceipt.AgentCredentialExpiresAt receipt) now)
      || After (RecoveryReceipt.AgentCredentialExpiresAt receipt) (now + 366 * day);;
  fail (ErrOther "agent recovery receipt does not match the signed bootstrap artifact")
    when (RecoveryReceipt.ConfigSHA256 receipt != EnrollmentBundle.ConfigSHA256 bundle)
      || (RecoveryReceipt.ConfigSignature receipt != EnrollmentBundle.ConfigSignature bundle);;
  verifyBootstrapBundle state keys bundle.

Definition validateRecoveryBootstrapAdvance (recovered confirmed : EnrollmentBundle.t) (receipt : RecoveryReceipt.t) : result unit :=
  let same_revision := EnrollmentBundle.ConfigRevision confirmed =? EnrollmentBundle.ConfigRevision recovered in
  let same_generation := EnrollmentBundle.CertificateGeneration confirmed =? EnrollmentBundle.CertificateGeneration recovered in
  fail (ErrOther "recovered bearer returned bootstrap data for different trust pins or identity")
    when (EnrollmentBundle.NodeID confirmed != EnrollmentBundle.NodeID recovered)
      || (EnrollmentBundle.NetworkID confirmed != EnrollmentBundle.NetworkID recovered)
      || (EnrollmentBundle.ConfigSigningPublicKey confirmed != EnrollmentBundle.ConfigSigningPublicKey recovered)
      || (EnrollmentBundle.CACertificateSHA256 confirmed != EnrollmentBundle.CACertificateSHA256 recovered)
      || (EnrollmentBundle.PreviousCACertificateSHA256 confirmed != EnrollmentBundle.PreviousCACertificateSHA256 recovered)
      || (EnrollmentBundle.PublicKeyHash confirmed != EnrollmentBundle.PublicKeyHash recovered)
      || (EnrollmentBundle.CA confirmed != EnrollmentBundle.CA recovered);;
  fail (ErrOther "recovered bearer did not confirm the receipt-authorized credential metadata")
    when negb (EnrollmentBundle.AgentCredentialGeneration confirmed =? RecoveryReceipt.AgentCredentialGeneration receipt)
      || negb (EnrollmentBundle.AgentCredentialExpiresAt confirmed =? RecoveryReceipt.AgentCredentialExpiresAt receipt);;
  fail ErrConfigRollback
    when (EnrollmentBundle.ConfigRevision confirmed <? EnrollmentBundle.ConfigRevision recovered)
      || (EnrollmentBundle.CertificateGeneration confirmed <? EnrollmentBundle.CertificateGeneration recovered);;
  fail ErrConfigEquivocation
    when same_revision && ((EnrollmentBundle.ConfigSHA256 confirmed != EnrollmentBundle.ConfigSHA256 recovered)
                           || (EnrollmentBundle.Config confirmed != EnrollmentBundle.Config recovered));;
  fail ErrConfigEquivocation
    when same_generation
      && ((EnrollmentBundle.CertificateFingerprint confirmed != EnrollmentBundle.CertificateFingerprint recovered)
          || negb (EnrollmentBundle.CertificateExpiresAt confirmed =? EnrollmentBundle.CertificateExpiresAt recovered)
          || negb (EnrollmentBundle.CertificateRenewAfter confirmed =? EnrollmentBundle.CertificateRenewAfter recovered)
          || (EnrollmentBundle.Certificate confirmed != EnrollmentBundle.Certificate recovered));;
  fail ErrConfigEquivocation
    when same_revision && same_generation
      && (negb (EnrollmentBundle.ConfigIssuedAt confirmed =? EnrollmentBundle.ConfigIssuedAt recovered)
          || (EnrollmentBundle.ConfigSignature confirmed != EnrollmentBundle.ConfigSignature recovered));;
  Ok tt.

Definition validateCredentialRotation (state : AgentState.t) (rotation : CredentialRotation.t) (now : time) : result unit :=
  fail (ErrOther "agent credential rotation returned a non-monotonic generation")
    when negb (CredentialRotation.Generation rotation =? wrap64 (AgentCredentialGeneration state + 1));;
  fail (ErrOther "agent credential rotation returned an invalid expiry")
    when negb (After (CredentialRotation.ExpiresAt rotation) (now + hour))
      || After (CredentialRotation.ExpiresAt rotation) (now + 366 * day);;
  Ok tt.
Definition rejectPendingAgentRecovery (state : AgentState.t) : result unit :=
  fail_if (PendingRecoveryToken state != "") ErrAgentRecoveryPending.
End checks.

(** ** The node's key pair (recovery_key.go)

    The curve is an interface. *)
Class X25519 := { x25519_public : list Z → option (list Z) }.

Definition std_to_url (c : Z) : Z := if c =? 43 then 45 else if c =? 47 then 95 else c.
Definition url_to_std (c : Z) : Z := if c =? 45 then 43 else if c =? 95 then 47 else c.
(** encoding/base64 StdEncoding of 32 bytes: 43 digits and the padding. *)
Definition std_encode32 (l : list Z) : string := string_of (url_to_std <$> bytes_of (b64_encode l)) +:+ "=".
Definition std_decode32 (s : string) : option (list Z) :=
  decoded ← b64_decode (string_of (std_to_url <$> take 43 (bytes_of s)));
  if (length decoded =? 32)%nat && (std_encode32 decoded == s) then Some decoded else None.
Definition decodeCanonicalNebulaX25519Key (value header footer : string) : option (list Z) :=
  match split_on LF value with
  | [a; b; c; d] => if (a == header) && (c == footer) && (d == "") then std_decode32 b else None
  | _ => None
  end.
Definition validateRecoveryKeyPair `{X25519} (privateKey publicKey expectedPublicKeyHash : string) : result unit :=
  fail (ErrOther "immutable node public key does not match the enrolled public-key pin")
    when canonicalPublicKeyHash publicKey != expectedPublicKeyHash;;
  private ← of_option (decodeCanonicalNebulaX25519Key privateKey "-----BEGIN NEBULA X25519 PRIVATE KEY-----"
                         "-----END NEBULA X25519 PRIVATE KEY-----") (ErrOther "invalid immutable node private key");
  public ← of_option (decodeCanonicalNebulaX25519Key publicKey "-----BEGIN NEBULA X25519 PUBLIC KEY-----"
                        "-----END NEBULA X25519 PUBLIC KEY-----") (ErrOther "invalid immutable node public key");
  derived ← of_option (x25519_public private) (ErrOther "invalid immutable node X25519 private key");
  fail (ErrOther "immutable node recovery keypair does not match") when derived != public;;
  Ok tt.

(** ** The private files (state.go) *)
Section store.
Context `{URLs} `{Environment} {S : Type}.

Definition Load : M (world S) AgentState.t := read (λ w,
  state ← of_option (Files.state (files w)) (ErrOther "inspect agent state"); _ ← Validate state; Ok state).

(** Replacing the state file: the rename, then the sync of the directory. *)
Definition replace_state (state : AgentState.t) : M (world S) unit := act (λ n w,
  match saving n with
  | SaveFails msg => (w, Err (ErrOther msg))
  | SaveUnsynced msg => (change_files (λ f, f <| Files.state := Some state |>) w, Err (ErrOther msg))
  | SaveSynced => (change_files (λ f, f <| Files.state := Some state |> <| Files.synced := Some state |>) w, Ok tt)
  end).
Definition Save (state : AgentState.t) : M (world S) unit :=
  stop (ErrOther "unsupported agent state version")
    when negb (AgentState.Version state =? 0) && negb (AgentState.Version state =? StateSchemaVersion);;
  let state := state <| AgentState.Version := StateSchemaVersion |> in
  _ ← lift (Validate state);
  _ ← read (λ w, match Files.state (files w) with Some existing => Validate existing | None => Ok tt end);
  replace_state state.

(** One of the key files: it is written once, and created before it is filled. *)
Definition save_key (get : Files.t → option string) (set : option string → Files.t → Files.t) (content : string) : M (world S) unit :=
  existing ← read (λ w, Ok (get (files w)));
  match existing with
  | Some text => lift (fail_if (text != content) (ErrOther "refusing to replace existing node recovery key"))
  | None =>
      _ ← os (λ _, change_files (set (Some "")));
      os (λ _, change_files (set (Some content)))
  end.
(** (The source ranges over a map: the order of the two files is not fixed.) *)
Definition SaveRecoveryKeyPair (privateKey publicKey : string) : M (world S) unit :=
  stop (ErrOther "node recovery keypair is missing or too large")
    when (privateKey == "") || (publicKey == "") || (maxBundleFileSize <? len privateKey) || (maxBundleFileSize <? len publicKey);;
  _ ← save_key Files.host_key (λ c f, f <| Files.host_key := c |>) privateKey;
  _ ← save_key Files.host_pub (λ c f, f <| Files.host_pub := c |>) publicKey;
  sync_directory.
Definition LoadRecoveryKeyPair : M (world S) keys := read (λ w,
  private ← secure_text (Text <$> Files.host_key (files w)); public ← secure_text (Text <$> Files.host_pub (files w)); Ok (private, public)).

Definition LoadProvisionalEnrollment : M (world S) ProvisionalEnrollment.t := read (λ w,
  journal ← of_option (Files.journal (files w)) (ErrOther "file does not exist"); _ ← Validate_journal journal; Ok journal).
(** (The journals are compared by their encodings; here by value.) *)
Definition SaveProvisionalEnrollment (journal : ProvisionalEnrollment.t) : M (world S) unit :=
  _ ← lift (Validate_journal journal);
  existing ← read (λ w, match Files.journal (files w) with
                        | Some existing => _ ← Validate_journal existing; Ok (Some existing)
                        | None => Ok None
                        end);
  match existing with
  | Some existing => lift (fail_if (existing != journal) (ErrOther "a different provisional enrollment is already pending"))
  | None => _ ← os (λ _, change_files (λ f, f <| Files.journal := Some journal |>)); sync_directory
  end.
Definition ClearProvisionalEnrollment : M (world S) unit :=
  _ ← os (λ _, change_files (λ f, f <| Files.journal := None |>)); sync_directory.

(** ** The client (client.go) *)
Definition NewClient (serverURL bearer : string) : result string :=
  _ ← normalizeServerURL serverURL;
  let bearer := TrimSpace bearer in
  fail (ErrOther "agent bearer is missing or too short") when negb (ValidBearerToken bearer);;
  Ok bearer.
(** A heartbeat counts as sent whether or not it arrives. *)
Definition send_heartbeat `{AgentAPI S} (bearer : string) (input : HeartbeatInput.t) : M (world S) unit := act (λ n w,
  let w := w <| sent := sent w ++ [input] |> in
  match delivers n with
  | RequestLost => (w, Err (ErrOther "request failed"))
  | ResponseLost => (w <| server := fst (post_heartbeat n bearer input (server w)) |>, Err (ErrOther "request failed"))
  | Delivered => let '(s, r) := post_heartbeat n bearer input (server w) in (w <| server := s |>, r)
  end).
Definition currentTime : M (world S) time := ask (λ n, Ok (clock n)).
End store.

(** ** The operations *)
Section agent.
Context `{Crypto} `{URLs} `{X25519} `{Environment} {S : Type} `{AgentAPI S}.
Import AgentState.
Definition agent (A : Type) : Type := M (world S) A.

Definition activator (state : AgentState.t) : Activator.t :=
  Activator.make (OutputDir state) (NodeID state) (NetworkID state) (ConfigSigningPublicKey state) (CACertificateSHA256 state)
    (PublicKeyHash state).
(** The activator that already expects the authority of the desired configuration. *)
Definition activator_for (state : AgentState.t) (desired : AgentConfig.t) : Activator.t :=
  activator (state <| CACertificateSHA256 := AgentConfig.CACertificateSHA256 desired |>).
Definition currentBundle (state : AgentState.t) : agent Bundle.t := CurrentBundle (activator state).

(** What the state records of an activated configuration. *)
Definition applied (desired : AgentConfig.t) (expiresAt : time) (state : AgentState.t) : AgentState.t :=
  state <| AppliedConfigRevision := AgentConfig.Revision desired |> <| AppliedConfigSHA256 := AgentConfig.SHA256 desired |>
        <| CACertificateSHA256 := AgentConfig.CACertificateSHA256 desired |>
        <| CertificateFingerprint := AgentConfig.CertificateFingerprint desired |>
        <| CertificateGeneration := AgentConfig.CertificateGeneration desired |> <| CertificateExpiresAt := expiresAt |>
        <| CertificateRenewAfter := AgentConfig.CertificateRenewAfter desired |>.
Definition changed_to (desired : AgentConfig.t) : SyncResult.t :=
  SyncResult.make true (AgentConfig.Revision desired) (AgentConfig.SHA256 desired).

(** The version of the agent is set, and the process lock is held. *)
Definition ready (agentVersion : string) : agent unit :=
  stop (ErrOther "agent version is required") when (TrimSpace agentVersion == "") || (64 <? len agentVersion);;
  sync_directory.

Definition applyBootstrap (state : AgentState.t) (keys : keys) (bootstrap : EnrollmentBundle.t) : agent (AgentState.t * SyncResult.t) :=
  '(desired, bundle) ← lift (verifyBootstrapBundle state keys bootstrap);
  activation ← Apply (activator_for state desired) bundle;
  let state := applied desired (CertificateDetails.ExpiresAt activation) state
                 <| AgentCredentialExpiresAt := EnrollmentBundle.AgentCredentialExpiresAt bootstrap |>
                 <| AgentCredentialGeneration := EnrollmentBundle.AgentCredentialGeneration bootstrap |> in
  _ ← Save state;
  mret (state, changed_to desired).

(** *** Reconciling with the live bundle *)
Definition agrees (state : AgentState.t) (current : Bundle.t) : result unit :=
  let same := same_certificate state (Bundle.CertificateFingerprint current) (Bundle.CertificateExpiresAt current)
                (Bundle.CertificateRenewAfter current) in
  fail ErrConfigRollback when (Bundle.Revision current <? AppliedConfigRevision state)
    || (Bundle.CertificateGeneration current <? CertificateGeneration state);;
  fail ErrConfigEquivocation when (Bundle.Revision current =? AppliedConfigRevision state) && (0 <? AppliedConfigRevision state)
    && (Bundle.Digest current != AppliedConfigSHA256 state);;
  fail ErrConfigEquivocation when (Bundle.CertificateGeneration current =? CertificateGeneration state) && negb same;;
  Ok tt.
Definition reconciled (current : Bundle.t) (state : AgentState.t) : AgentState.t :=
  state <| AppliedConfigRevision := Bundle.Revision current |> <| AppliedConfigSHA256 := Bundle.Digest current |>
        <| CACertificateSHA256 := Bundle.CACertificateSHA256 current |>
        <| CertificateFingerprint := Bundle.CertificateFingerprint current |>
        <| CertificateGeneration := Bundle.CertificateGeneration current |>
        <| CertificateExpiresAt := Bundle.CertificateExpiresAt current |>
        <| CertificateRenewAfter := Bundle.CertificateRenewAfter current |>.
Definition behind (state : AgentState.t) (current : Bundle.t) : bool :=
  (AppliedConfigRevision state <? Bundle.Revision current) || (CertificateGeneration state <? Bundle.CertificateGeneration current)
  || (Bundle.Digest current != AppliedConfigSHA256 state)
  || negb (same_certificate state (Bundle.CertificateFingerprint current) (Bundle.CertificateExpiresAt current)
             (Bundle.CertificateRenewAfter current)).

(** The live bundle, fetched again when it cannot be read. *)
Definition recovered_bundle (state : AgentState.t) : agent (AgentState.t * Bundle.t) :=
  outcome ← try (currentBundle state);
  match outcome with
  | Ok current => mret (state, current)
  | Err _ =>
      bearer ← lift (NewClient (ServerURL state) (Bearer state));
      bootstrap ← call (λ n, get_bootstrap n bearer);
      keys ← LoadRecoveryKeyPair;
      '(state, _) ← applyBootstrap state keys bootstrap;
      current ← currentBundle state;
      mret (state, current)
  end.
Definition loadReconciledState : agent (AgentState.t * Bundle.t) :=
  state ← Load;
  _ ← lift (rejectPendingAgentRecovery state);
  '(state, current) ← recovered_bundle state;
  _ ← lift (agrees state current);
  if behind state current then
    let state := reconciled current state in
    _ ← Save state;
    mret (state, current)
  else mret (state, current).

(** [interval] is ConfigSuccessPersistInterval. *)
Definition recordConfigSuccess (interval : duration) (state : AgentState.t) : agent unit :=
  now ← currentTime;
  let persistInterval := if interval <=? 0 then minute else interval in
  if negb (IsZero (LastSuccessfulConfigAt state)) && negb (Before now (LastSuccessfulConfigAt state))
     && (Sub now (LastSuccessfulConfigAt state) <? persistInterval)
  then mret tt
  else Save (state <| LastSuccessfulConfigAt := now |>).

(** *** Renewing the certificate *)
(** A renewal whose answer was lost may have been committed. *)
Definition recover_renewal (state : AgentState.t) (keys : keys) (bearer : string) (e : err) : agent SyncResult.t :=
  outcome ← try (call (λ n, get_bootstrap n bearer));
  match outcome with
  | Ok bootstrap =>
      stop e when EnrollmentBundle.CertificateGeneration bootstrap <=? CertificateGeneration state;;
      '(_, result) ← applyBootstrap state keys bootstrap;
      mret result
  | Err _ => lift (Err e)
  end.

Definition activate_renewal (state : AgentState.t) (keys : keys) (renewal : RenewalBundle.t) (refresh : AgentState.t → agent AgentState.t) :
    agent SyncResult.t :=
  let desired := renewal_config renewal in
  let bundle := bundle_for (NodeID state) (NetworkID state) desired (RenewalBundle.CA renewal) (RenewalBundle.Certificate renewal)
                  (fst keys) (snd keys) in
  activation ← Apply (activator_for state desired) bundle;
  state ← refresh (applied desired (CertificateDetails.ExpiresAt activation) state);
  _ ← Save state;
  mret (changed_to desired).

Definition renewCertificateLocked : agent SyncResult.t :=
  state ← Load;
  _ ← lift (rejectPendingAgentRecovery state);
  keys ← LoadRecoveryKeyPair;
  bearer ← lift (NewClient (ServerURL state) (Bearer state));
  outcome ← try (call (λ n, post_renew n bearer (snd keys)));
  match outcome with
  | Err e => recover_renewal state keys bearer e
  | Ok renewal =>
      let desired := renewal_config renewal in
      _ ← lift (VerifySignedConfig state desired);
      live ← try (currentBundle state);
      if match live with Ok current => sameSignedArtifact current desired | Err _ => false end
      then mret (SyncResult.make false (AgentConfig.Revision desired) (AgentConfig.SHA256 desired))
      else activate_renewal state keys renewal (λ state, mret state)
  end.
Definition RenewCertificate (agentVersion : string) : agent SyncResult.t :=
  _ ← ready agentVersion; renewCertificateLocked.

(** *** Synchronizing *)
Definition certificate_changed (current : Bundle.t) (desired : AgentConfig.t) : bool :=
  negb (AgentConfig.CertificateGeneration desired =? Bundle.CertificateGeneration current)
  || (AgentConfig.CertificateFingerprint desired != Bundle.CertificateFingerprint current)
  || negb (AgentConfig.CertificateExpiresAt desired =? Bundle.CertificateExpiresAt current)
  || negb (AgentConfig.CertificateRenewAfter desired =? Bundle.CertificateRenewAfter current).
Definition fetch_bootstrap (state : AgentState.t) (bearer : string) : agent SyncResult.t :=
  bootstrap ← call (λ n, get_bootstrap n bearer);
  keys ← LoadRecoveryKeyPair;
  now ← currentTime;
  '(_, result) ← applyBootstrap (state <| LastSuccessfulConfigAt := now |>) keys bootstrap;
  mret result.
(** The live bundle with the desired configuration in it. *)
Definition bundle_with (current : Bundle.t) (desired : AgentConfig.t) : Bundle.t :=
  bundle_for (Bundle.NodeID current) (Bundle.NetworkID current) desired (Bundle.CACertificate current) (Bundle.Certificate current)
    (Bundle.PrivateKey current) (Bundle.PublicKey current).
Definition activate_config (state : AgentState.t) (current : Bundle.t) (desired : AgentConfig.t) : agent SyncResult.t :=
  activation ← Apply (activator_for state desired) (bundle_with current desired);
  now ← currentTime;
  _ ← Save (applied desired (CertificateDetails.ExpiresAt activation) state <| LastSuccessfulConfigAt := now |>);
  mret (changed_to desired).
(** A configuration that has been verified. *)
Definition follow_config (interval : duration) (state : AgentState.t) (current : Bundle.t) (bearer : string)
    (desired : AgentConfig.t) : agent SyncResult.t :=
  if AgentConfig.CACertificateSHA256 desired != CACertificateSHA256 state then fetch_bootstrap state bearer
  else if AgentConfig.CARotationRequired desired || AgentConfig.CertificateProfileRenewalRequired desired then renewCertificateLocked
  else if certificate_changed current desired then fetch_bootstrap state bearer
  else if AgentConfig.Revision desired =? AppliedConfigRevision state then
    stop ErrConfigEquivocation when negb (sameSignedArtifact current desired);;
    _ ← recordConfigSuccess interval state;
    mret (SyncResult.make false (AgentConfig.Revision desired) (AgentConfig.SHA256 desired))
  else activate_config state current desired.

Definition quote (s : string) : string := String "034"%char (s +:+ String "034"%char "").
Definition Sync (agentVersion : string) (interval : duration) : agent SyncResult.t :=
  _ ← ready agentVersion;
  '(state, current) ← loadReconciledState;
  bearer ← lift (NewClient (ServerURL state) (Bearer state));
  response ← call (λ n, get_config n bearer (quote (Bundle.Signature current)));
  if ConfigResponse.NotModified response then
    _ ← recordConfigSuccess interval state;
    mret (SyncResult.make false (AppliedConfigRevision state) (AppliedConfigSHA256 state))
  else
    let desired := ConfigResponse.Config response in
    _ ← lift (VerifySignedConfig state desired);
    follow_config interval state current bearer desired.

(** *** The first bundle *)
Definition InstallEnrollment (agentVersion : string) (state : AgentState.t) (enrollment : EnrollmentBundle.t)
    (privateKey publicKey : string) : agent unit :=
  _ ← ready agentVersion;
  let state := state <| AppliedConfigRevision := 0 |> <| AppliedConfigSHA256 := "" |> in
  _ ← lift (Validate state);
  _ ← SaveRecoveryKeyPair privateKey publicKey;
  _ ← Save state;
  let node := EnrollmentBundle.Node enrollment in
  let desired := bootstrap_config (enrollment <| EnrollmentBundle.NodeID := Node.ID node |>
                                              <| EnrollmentBundle.NetworkID := Node.NetworkID node |>) in
  _ ← lift (VerifySignedConfig state desired);
  let bundle := bundle_for (AgentConfig.NodeID desired) (AgentConfig.NetworkID desired) desired (EnrollmentBundle.CA enrollment)
                  (EnrollmentBundle.Certificate enrollment) privateKey publicKey in
  activation ← Apply (activator state) bundle;
  now ← currentTime;
  _ ← Save (applied desired (CertificateDetails.ExpiresAt activation) state
              <| AgentCredentialExpiresAt := EnrollmentBundle.AgentCredentialExpiresAt enrollment |>
              <| AgentCredentialGeneration := EnrollmentBundle.AgentCredentialGeneration enrollment |>
              <| LastSuccessfulConfigAt := now |>);
  ClearProvisionalEnrollment.

(** *** Rotating the credential *)
(** The control plane's 401, and nothing else, lets the pending bearer be tried. *)
Definition rotate_call (state : AgentState.t) (newHash : string) : agent CredentialRotation.t :=
  bearer ← lift (NewClient (ServerURL state) (Bearer state));
  outcome ← try (call (λ n, post_rotate n bearer newHash));
  match outcome with
  | Ok rotation => mret rotation
  | Err e =>
      stop e when negb (bool_decide (e = ErrUnauthorized));;
      pending ← lift (NewClient (ServerURL state) (PendingBearer state));
      call (λ n, post_rotate n pending newHash)
  end.
Definition pending_rotation (state : AgentState.t) : agent AgentState.t :=
  if PendingBearer state == "" then
    bearer ← ask random_text;
    let state := state <| PendingBearer := bearer |> in
    _ ← Save state;
    mret state
  else mret state.
Definition rotated (rotation : CredentialRotation.t) (state : AgentState.t) : AgentState.t :=
  state <| Bearer := PendingBearer state |> <| PendingBearer := "" |>
        <| AgentCredentialGeneration := CredentialRotation.Generation rotation |>
        <| AgentCredentialExpiresAt := CredentialRotation.ExpiresAt rotation |>.
Definition RotateCredential (agentVersion : string) : agent CredentialRotation.t :=
  _ ← ready agentVersion;
  state ← Load;
  _ ← lift (rejectPendingAgentRecovery state);
  state ← pending_rotation state;
  rotation ← rotate_call state (HashToken (PendingBearer state));
  now ← currentTime;
  _ ← lift (validateCredentialRotation state rotation now);
  _ ← Save (rotated rotation state);
  mret rotation.

(** *** Reporting *)
Definition heartbeat_input (agentVersion : string) (health : Health.t) (state : AgentState.t) (current : Bundle.t) : HeartbeatInput.t :=
  let status := TrimSpace (Health.Status health) in
  HeartbeatInput.make agentVersion (Health.NebulaVersion health) (AppliedConfigRevision state) (CertificateGeneration state)
    (AppliedConfigSHA256 state) (Bundle.CertificateFingerprint current) (Health.NebulaRunning health)
    (Health.NativeDNSActive health) (if status == "" then "healthy" else status) (Health.LastError health) (BootID state)
    (HeartbeatSequence state).
Definition Heartbeat (agentVersion : string) (health : Health.t) : agent Z :=
  _ ← ready agentVersion;
  _ ← lift (EnforceMinimumNebulaVersion (Health.NebulaVersion health));
  '(state, current) ← loadReconciledState;
  stop (ErrOther "reported certificate fingerprint does not match the verified live bundle")
    when (Health.CertificateFingerprint health != "")
      && (Health.CertificateFingerprint health != Bundle.CertificateFingerprint current);;
  boot ← ask (λ n, Ok (system_boot n));
  let state := state <| BootID := default (BootID state) boot |>
                     <| HeartbeatSequence := wrap64 (HeartbeatSequence state + 1) |> in
  _ ← Save state;
  bearer ← lift (NewClient (ServerURL state) (Bearer state));
  _ ← send_heartbeat bearer (heartbeat_input agentVersion health state current);
  mret (HeartbeatSequence state).
Definition ReportConfigApplyFailure (agentVersion : string) (revision : Z) (digest : string) : agent unit :=
  _ ← ready agentVersion;
  state ← Load;
  bearer ← lift (NewClient (ServerURL state) (Bearer state));
  call (λ n, post_failure n bearer revision digest).

(** *** Recovering the credential *)
(** Nebula's checks on a directory of its own: nothing live is touched. *)
Definition validateRecoveryActivationCandidate (parent : string) (bundle : Bundle.t) : agent unit :=
  suffix ← ask (λ n, Ok (temporary n));
  config ← lift (rewritePKIPaths (Bundle.SignedConfig bundle) (parent +:+ "/.agent-recovery-verify-" +:+ suffix));
  _ ← sync_directory;
  details ← Validate_bundle (delete "config.signed.yml" (texts bundle config)) "config.yml";
  lift (fail_if ((CertificateDetails.Fingerprint details != Bundle.CertificateFingerprint bundle)
                 || negb (CertificateDetails.ExpiresAt details =? Bundle.CertificateExpiresAt bundle))
          (ErrOther "verified recovery certificate does not match its signed metadata")).

Fixpoint generateDistinctRecoveryBearer (attempts : nat) (activeBearer previousPending : string) : agent string :=
  match attempts with
  | O => lift (Err (ErrOther "could not generate a distinct replacement recovery bearer"))
  | Datatypes.S attempts =>
      bearer ← ask random_text;
      if negb (TokenEqual (HashToken activeBearer) bearer) && negb (TokenEqual (HashToken previousPending) bearer)
      then mret bearer
      else generateDistinctRecoveryBearer attempts activeBearer previousPending
  end.

Definition replacePendingRecoveryAfterAuthoritativeRejection (state : AgentState.t) (keys : keys) (replacementToken : string) :
    agent AgentState.t :=
  pending ← lift (NewClient (ServerURL state) (PendingBearer state));
  outcome ← try (call (λ n, get_bootstrap n pending));
  match outcome with
  | Ok bootstrap =>
      _ ← lift (verifyBootstrapBundle state keys bootstrap);
      lift (Err ErrAgentRecoveryResumeRequired)
  | Err e =>
      stop e when negb (bool_decide (e = ErrUnauthorized));;
      fresh ← generateDistinctRecoveryBearer 4 (Bearer state) (PendingBearer state);
      let state := state <| PendingRecoveryToken := replacementToken |> <| PendingBearer := fresh |>
                         <| PendingRecoveryAllowsGenerationAdvance := true |> in
      _ ← Save state;
      mret state
  end.

(** The pending pair: the retained one, a replacement of it, or a new one. *)
Definition pending_recovery (state : AgentState.t) (keys : keys) (providedToken : string) : agent AgentState.t :=
  if PendingRecoveryToken state != "" then
    if (providedToken != "") && negb (TokenEqual (HashToken (PendingRecoveryToken state)) providedToken) then
      stop (ErrOther "a canonical replacement agent recovery token is required") when negb (ValidBearerToken providedToken);;
      replacePendingRecoveryAfterAuthoritativeRejection state keys providedToken
    else mret state
  else
    stop (ErrOther "a canonical agent recovery token is required") when negb (ValidBearerToken providedToken);;
    mret (state <| PendingRecoveryToken := providedToken |> <| PendingBearer := "" |>
                <| PendingRecoveryAllowsGenerationAdvance := false |>).
Definition pending_bearer (state : AgentState.t) : agent AgentState.t :=
  if PendingBearer state == "" then bearer ← ask random_text; mret (state <| PendingBearer := bearer |>) else mret state.

Definition recovered_state (receipt : RecoveryReceipt.t) (now : time) (state : AgentState.t) : AgentState.t :=
  state <| Bearer := PendingBearer state |> <| PendingBearer := "" |> <| PendingRecoveryToken := "" |>
        <| PendingRecoveryAllowsGenerationAdvance := false |>
        <| AgentCredentialGeneration := RecoveryReceipt.AgentCredentialGeneration receipt |>
        <| AgentCredentialExpiresAt := RecoveryReceipt.AgentCredentialExpiresAt receipt |> <| LastSuccessfulConfigAt := now |>.

Definition renewRecoveredCertificate (state : AgentState.t) (keys : keys) (minimumGeneration : Z) : agent SyncResult.t :=
  bearer ← lift (NewClient (ServerURL state) (Bearer state));
  renewal ← call (λ n, post_renew n bearer (snd keys));
  let desired := renewal_config renewal in
  _ ← lift (VerifySignedConfig state desired);
  now ← currentTime;
  stop (ErrOther "post-recovery certificate renewal did not return a newer valid certificate")
    when (AgentConfig.CertificateGeneration desired <=? minimumGeneration) || negb (After (AgentConfig.CertificateExpiresAt desired) now);;
  activate_renewal state keys renewal (λ state, now ← currentTime; mret (state <| LastSuccessfulConfigAt := now |>)).

(** The exchange of the token, proved with the new bearer before it is committed. *)
Definition exchange_recovery (parent : string) (state : AgentState.t) (keys : keys) : agent (RecoveryReceipt.t * EnrollmentBundle.t) :=
  _ ← lift (NewClient (ServerURL state) (Bearer state));
  recovered ← call (λ n, post_recover n (PendingRecoveryToken state) (snd keys) (HashToken (PendingBearer state)));
  now ← currentTime;
  _ ← lift (verifyRecoveredAgentBundle state keys recovered (PendingBearer state) now);
  pending ← lift (NewClient (ServerURL state) (PendingBearer state));
  confirmed ← call (λ n, get_bootstrap n pending);
  '(_, confirmedBundle) ← lift (verifyBootstrapBundle state keys confirmed);
  _ ← lift (validateRecoveryBootstrapAdvance (AgentRecoveryBundle.Bundle recovered) confirmed (AgentRecoveryBundle.Receipt recovered));
  now ← currentTime;
  _ ← (if After (EnrollmentBundle.CertificateExpiresAt confirmed) now
       then validateRecoveryActivationCandidate parent confirmedBundle else mret tt);
  mret (AgentRecoveryBundle.Receipt recovered, confirmed).

(** [parent] is the directory of the state file. *)
Definition RecoverCredential (agentVersion parent providedToken : string) : agent SyncResult.t :=
  _ ← ready agentVersion;
  state ← Load;
  keys ← LoadRecoveryKeyPair;
  _ ← lift (validateRecoveryKeyPair (fst keys) (snd keys) (PublicKeyHash state));
  state ← pending_recovery state keys (TrimSpace providedToken);
  stop (ErrOther "pending agent recovery token is invalid") when negb (ValidBearerToken (PendingRecoveryToken state));;
  state ← pending_bearer state;
  stop (ErrOther "pending recovery bearer must differ from the active bearer")
    when TokenEqual (HashToken (Bearer state)) (PendingBearer state);;
  _ ← Save state;
  '(receipt, confirmed) ← exchange_recovery parent state keys;
  now ← currentTime;
  let state := recovered_state receipt now state in
  _ ← Save state;
  now ← currentTime;
  if negb (After (EnrollmentBundle.CertificateExpiresAt confirmed) now)
  then renewRecoveredCertificate state keys (EnrollmentBundle.CertificateGeneration confirmed)
  else '(_, result) ← applyBootstrap state keys confirmed; mret result.
End agent.
