(* ===== verification/AgentSafety.v ===== *)
(** * What an agent guarantees whatever happens around it (internal/nodeagent)

    For every control plane, every pattern of failures, crashes and lost messages:
    an agent's state never goes back, its trust changes only by signed transitions,
    and it never sends a heartbeat twice. *)
From stdpp Require Import gmap.
From S2P Require Import Prelude GoStd Sha256 GoTime IPv4 NetIP Model AuditLog Credentials SignedConfig Enrollment Recovery AgentOps.
From S2P Require Import AgentState AgentWorld Activation NodeAgent.
Open Scope Z_scope.

(** ** Activation leaves the agent's files *)
Section frames.
Context `{Crypto} `{Environment} {S : Type}.

#[global] Instance framed_Validate contents config : Framed (S := S) (Validate_bundle contents config).
Proof. unfold Validate_bundle. apply _. Qed.
#[global] Instance framed_remove_files version names : Framed (S := S) (remove_files version names).
Proof. induction names as [|name names IH]; simpl; apply _. Qed.
#[global] Instance framed_prune_others current retained names : Framed (S := S) (prune_others current retained names).
Proof.
  induction names as [|name names IH]; simpl; [apply _|]. unfold removeCompleteVersionDirectory. destruct (contains _ _); apply _.
Qed.
#[global] Instance framed_prune current : Framed (S := S) (pruneVersionsBeforeActivation current).
Proof. unfold pruneVersionsBeforeActivation. apply _. Qed.
#[global] Instance framed_replace target : Framed (S := S) (replaceSymlink target).
Proof. unfold replaceSymlink. apply _. Qed.
#[global] Instance framed_sync : Framed (S := S) sync_directory.
Proof. unfold sync_directory. apply _. Qed.
#[global] Instance framed_Reload : Framed (S := S) Reload.
Proof. unfold Reload. apply _. Qed.
#[global] Instance framed_rollback previous : Framed (S := S) (rollback previous).
Proof. unfold rollback. destruct previous as [[]|]; apply _. Qed.
#[global] Instance framed_or_roll_back previous (m : M (world S) unit) : Framed m → Framed (or_roll_back previous m).
Proof. unfold or_roll_back. apply _. Qed.
#[global] Instance framed_secure path nodeID networkID : Framed (S := S) (secureManagedOutputDir path nodeID networkID).
Proof. unfold secureManagedOutputDir. cbv zeta. apply _. Qed.
#[global] Instance framed_child : Framed (S := S) secureChildDir.
Proof. unfold secureChildDir. apply _. Qed.
#[global] Instance framed_make_stage : Framed (S := S) make_stage.
Proof. unfold make_stage. apply _. Qed.
#[global] Instance framed_unless {A} (m : M (world S) A) stage : Framed m → Framed (unless_published m stage).
Proof.
  intros Hm w. specialize (Hm w). unfold wp, unless_published in *. destruct (m w) as [w' [a|e]]; [done|].
  pose proof (framed_os_output (λ _, remove_stage stage) w') as Hc. unfold wp in Hc. simpl.
  destruct (os _ w') as [w'' [[]|e']]; simpl; naive_solver congruence.
Qed.
#[global] Instance framed_publish stage name contents : Framed (S := S) (publish_stage stage name contents).
Proof.
  intros w. apply wp_act; [intros w' [] _; done|]. intros n w' [] _. unfold wp. destruct (fault n); [done|]. by case_bool_decide.
Qed.
#[global] Instance framed_stage a bundle stage : Framed (S := S) (stage_and_publish a bundle stage).
Proof. unfold stage_and_publish. apply _. Qed.
#[global] Instance framed_Apply a bundle : Framed (S := S) (Apply a bundle).
Proof. unfold Apply, switch_to. apply _. Qed.
#[global] Instance framed_CurrentBundle a : Framed (S := S) (CurrentBundle a).
Proof. unfold CurrentBundle. apply _. Qed.
End frames.

Section activated.
Context `{Crypto} `{Environment} {S : Type}.

Lemma Apply_details a bundle (w w' : world S) details :
  Apply a bundle w = (w', Ok details) → CertificateDetails.ExpiresAt details = Bundle.CertificateExpiresAt bundle.
Proof.
  unfold Apply. intros Hr. do 9 (apply run_bind in Hr; destruct Hr as (? & ? & _ & Hr)).
  apply run_bind in Hr as ([name d] & w1 & Hp & Hr). open_run Hr. injection Hr as _ ->.
  unfold unless_published in Hp. destruct (stage_and_publish _ _ _ _) as [v [p|]] eqn:E; [|done]. injection Hp as -> ->.
  unfold stage_and_publish in E. open_run E. injection E as _ _ <-. 
  match goal with Hg : lift (fail_if _ _) _ = _ |- _ => injection Hg as _ Hg; apply fail_if_Ok in Hg end. split_bools. lia.
Qed.

Lemma wp_Apply a bundle (Q : CertificateDetails.t → world S → Prop) (E : err → world S → Prop) w :
  (∀ d w', files w' = files w → sent w' = sent w → CertificateDetails.ExpiresAt d = Bundle.CertificateExpiresAt bundle → Q d w') →
  (∀ e w', files w' = files w → sent w' = sent w → E e w') → wp (Apply a bundle) Q E w.
Proof.
  intros H1 H2. pose proof (framed_Apply a bundle w) as Hf. unfold wp in *. destruct (Apply a bundle w) as [w' [d|e]] eqn:Er.
  - destruct Hf. eauto using Apply_details.
  - destruct Hf. auto.
Qed.

(** The live bundle passed every check of the pinned identity. *)
Lemma CurrentBundle_pinned a (w w' : world S) bundle : CurrentBundle a w = (w', Ok bundle) → validate_pinned a bundle = Ok tt.
Proof.
  unfold CurrentBundle. intros Hr. apply run_bind in Hr as ([b contents] & w1 & Hl & Hr). open_run Hr. injection Hr as _ <-.
  unfold read, act in Hl. destruct (halted w); [done|]. destruct (crashes _); [done|]. destruct (fault _); [done|].
  injection Hl as _ Hl. revert Hl. unfold live_bundle. open_guards. intros (c & _ & [b' config] & _ & Hl).
  revert Hl. open_guards. by intros ([] & Hv & t & _ & _ & [= <- _]).
Qed.
Lemma wp_CurrentBundle a (Q : Bundle.t → world S → Prop) (E : err → world S → Prop) w :
  (∀ b w', files w' = files w → sent w' = sent w → validate_pinned a b = Ok tt → Q b w') →
  (∀ e w', files w' = files w → sent w' = sent w → E e w') → wp (CurrentBundle a) Q E w.
Proof.
  intros H1 H2. pose proof (framed_CurrentBundle a w) as Hf. unfold wp in *.
  destruct (CurrentBundle a w) as [w' [b|e]] eqn:Er; destruct Hf; eauto using CurrentBundle_pinned.
Qed.
End activated.

(** ** How a state may change *)
Section descent.
Context `{Crypto}.
Import AgentState.

(** The pinned key signed a transition from one authority to another. *)
Definition transition (key : string) : relation string := λ old new,
  ∃ metadata config digest signature, VerifyConfig key metadata config digest signature = Ok tt ∧
    ConfigSignatureMetadata.PreviousCACertificateSHA256 metadata = old ∧ ConfigSignatureMetadata.CACertificateSHA256 metadata = new.

Record descends (a b : AgentState.t) : Prop := {
  keeps_pins : NodeID b = NodeID a ∧ NetworkID b = NetworkID a ∧ ConfigSigningPublicKey b = ConfigSigningPublicKey a ∧
    PublicKeyHash b = PublicKeyHash a ∧ ServerURL b = ServerURL a ∧ OutputDir b = OutputDir a;
  keeps_trust : rtc (transition (ConfigSigningPublicKey a)) (CACertificateSHA256 a) (CACertificateSHA256 b);
  revision_advances : AppliedConfigRevision a ≤ AppliedConfigRevision b;
  revision_digest : AppliedConfigRevision a = AppliedConfigRevision b → 0 < AppliedConfigRevision a →
    AppliedConfigSHA256 b = AppliedConfigSHA256 a;
  generation_advances : CertificateGeneration a ≤ CertificateGeneration b;
  generation_certificate : CertificateGeneration a = CertificateGeneration b →
    CertificateFingerprint b = CertificateFingerprint a ∧ CertificateExpiresAt b = CertificateExpiresAt a ∧
    CertificateRenewAfter b = CertificateRenewAfter a;
  sequence_advances : HeartbeatSequence a ≤ HeartbeatSequence b }.

#[export] Instance descends_preorder : PreOrder descends.
Proof.
  split; [intros a; split; naive_solver lia || reflexivity|].
  intros a b c [(P1 & P2 & P3 & P4 & P5 & P6) T R D G C Q] [(P1' & P2' & P3' & P4' & P5' & P6') T' R' D' G' C' Q'].
  split; [split_and!; congruence|rewrite P3 in T'; by etransitivity|lia| |lia| |lia].
  - intros E1 E2. rewrite D' by lia. apply D; lia.
  - intros E1. destruct C' as (-> & -> & ->); [lia|]. apply C. lia.
Qed.

(** The fields outside [descends] may change freely. *)
Definition carried (s : AgentState.t) :=
  (NodeID s, NetworkID s, ConfigSigningPublicKey s, PublicKeyHash s, ServerURL s, OutputDir s, CACertificateSHA256 s,
   AppliedConfigRevision s, AppliedConfigSHA256 s, CertificateGeneration s, CertificateFingerprint s, CertificateExpiresAt s,
   CertificateRenewAfter s, HeartbeatSequence s).
Lemma carried_descends a b : carried b = carried a → descends a b.
Proof. intros [= E1 E2 E3 E4 E5 E6 E7 E8 E9 E10 E11 E12 E13 E14]. split; rewrite ?E1, ?E2, ?E3, ?E4, ?E5, ?E6, ?E7; try done; naive_solver lia. Qed.

Lemma verified_descends a desired : VerifySignedConfig a desired = Ok tt → CertificateFingerprint a ≠ "" →
  descends a (applied desired (AgentConfig.CertificateExpiresAt desired) a).
Proof.
  unfold VerifySignedConfig. open_guards. intros (_ & _ & _ & [] & Hv & Hca & Hr & Hg & Hc & Hd & _) Hf.
  rewrite (bool_decide_eq_false_2 _ Hf) in Hc. unfold same_certificate in Hc.
  split; cbn; [done| |lia| |lia| |lia].
  - apply andb_false_iff in Hca as [Hca|Hca]; split_bools; [rewrite Hca; reflexivity|].
    apply rtc_once. exists (AgentConfig.SignatureMetadata desired). by repeat eexists.
  - intros E1 E2. destruct (decide (AgentConfig.SHA256 desired = AppliedConfigSHA256 a)) as [|E]; [done|].
    rewrite (bool_decide_eq_false_2 _ E) in Hd. lia.
  - intros E. apply andb_false_iff in Hc as [Hc|Hc]; [lia|]. split_bools. split_and!; [done|lia..].
Qed.
Lemma agrees_descends a current : agrees a current = Ok tt → validate_pinned (activator a) current = Ok tt →
  descends a (reconciled current a).
Proof.
  unfold agrees, validate_pinned, validateBundle. cbv zeta. open_guards. intros (Hr & Hd & Hc & _) (_ & _ & _ & _ & _ & Hca & _).
  unfold same_certificate in Hc. split_bools. split; cbn; [done| |lia| |lia| |lia].
  - match goal with Hx : Bundle.CACertificateSHA256 _ = _ |- _ => rewrite Hx end. reflexivity.
  - intros E1 E2. destruct (decide (Bundle.Digest current = AppliedConfigSHA256 a)) as [|E]; [done|].
    rewrite (bool_decide_eq_false_2 _ E) in Hd. lia.
  - intros E. apply andb_false_iff in Hc as [Hc|Hc]; [lia|]. split_bools. split_and!; [done|lia..].
Qed.
End descent.

(** ** The invariant of a run *)
Definition sequences {S} (w : world S) : list Z := HeartbeatInput.Sequence <$> sent w.

Lemma sequences_files {S} f (w : world S) : sequences (change_files f w) = sequences w.
Proof. done. Qed.

Section invariant.
Context `{Crypto} `{URLs} `{X25519} `{Environment} {S : Type} `{AgentAPI S}.
Import AgentState.
(** The state file and its durable copy at the start of the run. *)
Context (file0 synced0 : AgentState.t).
Implicit Types w : world S.

Record inv (w : world S) : Prop := {
  inv_state : ∃ file synced, Files.state (files w) = Some file ∧ Files.synced (files w) = Some synced ∧
    descends file0 file ∧ descends synced0 synced ∧ descends synced file ∧ HeartbeatSequence file ≤ int64_max ∧
    Forall (λ n, n ≤ HeartbeatSequence synced) (sequences w);
  inv_sent : StronglySorted Z.lt (sequences w) }.

(** The invariant holds with [st] in the state file. *)
Definition holding (st : AgentState.t) (w : world S) : Prop :=
  inv w ∧ Files.state (files w) = Some st ∧ Validate st = Ok tt.
(** [st'] may replace [st] in the file. *)
Definition ahead (st st' : AgentState.t) : Prop :=
  descends st st' ∧ HeartbeatSequence st' ≤ int64_max ∧ CertificateFingerprint st' ≠ "".

Lemma inv_framed w w' : files w' = files w → sent w' = sent w → inv w → inv w'.
Proof. intros E1 E2 [Hs Ht]. split; unfold sequences; rewrite ?E1, E2; done. Qed.
Lemma holding_framed st w w' : files w' = files w → sent w' = sent w → holding st w → holding st w'.
Proof. intros E1 E2 (Hi & Hs & Hv). split_and!; [by eapply inv_framed|by rewrite E1|done]. Qed.
Lemma holding_inv st w : holding st w → inv w.
Proof. by intros []. Qed.

Lemma Validate_fingerprint st : Validate st = Ok tt → CertificateFingerprint st ≠ "".
Proof.
  unfold Validate. intros Hv E. inv_ok. match goal with Hd : negb (validDigest (CertificateFingerprint _)) = false |- _ =>
    rewrite E in Hd; vm_compute in Hd; done end.
Qed.
Lemma Validate_sequence st : Validate st = Ok tt → 0 ≤ HeartbeatSequence st.
Proof. unfold Validate. intros Hv. inv_ok. split_bools. lia. Qed.

Lemma holding_ahead st w : holding st w → ahead st st.
Proof.
  intros ([(f & s & Hf & _ & _ & _ & _ & Hb & _) _] & Hs & Hv). rewrite Hf in Hs. injection Hs as ->.
  split_and!; [reflexivity|done|by apply Validate_fingerprint].
Qed.
Lemma ahead_carried st st' st'' : ahead st st' → carried st'' = carried st' → ahead st st''.
Proof.
  intros (Hd & Hb & Hf) E. pose proof (carried_descends _ _ E) as Hd'. unfold carried in E. injection E as E1 E2 E3 E4 E5 E6 E7 E8 E9 E10 E11 E12 E13 E14.
  split_and!; [by etransitivity|by rewrite E14|by rewrite E11].
Qed.
Lemma ahead_verified st st' desired expiresAt :
  ahead st st' → VerifySignedConfig st' desired = Ok tt → expiresAt = AgentConfig.CertificateExpiresAt desired →
  validDigest (AgentConfig.CertificateFingerprint desired) = true → ahead st (applied desired expiresAt st').
Proof.
  intros (Hd & Hb & Hf) Hv -> Hx. split_and!; [etransitivity; [done|by apply verified_descends]|done|].
  intros E. cbn in E. rewrite E in Hx. by vm_compute in Hx.
Qed.

(** ** The files *)
Definition written (st : AgentState.t) : AgentState.t := st <| Version := StateSchemaVersion |>.

Lemma wp_Load (Q : AgentState.t → world S → Prop) (E : err → world S → Prop) w :
  inv w → (∀ st w', holding st w' → Q st w') → (∀ e w', inv w' → E e w') → wp Load Q E w.
Proof.
  intros Hi HQ HE. apply wp_read.
  - intros e w' []. apply HE. by eapply inv_framed.
  - intros st w' [] _ Hl. apply HQ. inv_ok. destruct a0. subst. split_and!; [by eapply inv_framed|done|done].
Qed.

Lemma wp_Save st st' (Q : unit → world S → Prop) (E : err → world S → Prop) w :
  holding st w → (Validate (written st') = Ok tt → ahead st st') →
  (∀ w', holding (written st') w' → Files.synced (files w') = Some (written st') → sent w' = sent w → Q tt w') →
  (∀ e w', inv w' → E e w') → wp (Save st') Q E w.
Proof.
  intros ([(f & s & Hf & Hs & D1 & D2 & D3 & Hb & Hq) Ht] & Hst & _) Ha HQ HE. rewrite Hf in Hst. injection Hst as ->.
  assert (∀ w', files w' = files w → sent w' = sent w → inv w') as Hinv.
  { intros w' E1 E2. split; unfold sequences; rewrite ?E1, E2; [|done]. eauto 10. }
  unfold Save. apply wp_bind, wp_lift; [intros _ _|by auto]. cbv zeta.
  apply wp_bind, wp_lift; [intros [] Hv|by auto]. fold (written st') in Hv |- *. destruct (Ha Hv) as (Hd & Hb' & _).
  assert (descends st (written st')) as Hd' by (etransitivity; [exact Hd|by apply carried_descends]).
  assert (descends synced0 (written st')) as D4 by (etransitivity; [exact D2|]; by etransitivity).
  apply wp_bind, wp_read; [intros e w' []; by auto|]. intros [] w' [F1 _ _ F2] _ _.
  apply wp_act; [intros w'' [] _; apply HE, Hinv; congruence|]. intros n w'' [G1 _ _ G2] _. unfold wp.
  assert (sequences w'' = sequences w) as Eq by (unfold sequences; by rewrite G2, F2).
  destruct (saving n) as [msg|msg|].
  - apply HE, Hinv; congruence.
  - apply HE. split; rewrite sequences_files, Eq; [|done]. exists (written st'), s. cbn. rewrite G1, F1.
    split_and!; try done; by etransitivity.
  - assert (Forall (λ k, k ≤ HeartbeatSequence (written st')) (sequences w)) as Hq'.
    { eapply Forall_impl; [exact Hq|]. intros k Hk. pose proof (sequence_advances _ _ D3). pose proof (sequence_advances _ _ Hd').
      cbv beta in Hk |- *. lia. }
    apply HQ; [|done|cbn; congruence]. split_and!; [|done|done]. split; rewrite sequences_files, Eq; [|done].
    exists (written st'), (written st'). split_and!; try done; by etransitivity.
Qed.

(** ** The operations keep the invariant *)
Lemma verified_fingerprint st desired :
  VerifySignedConfig st desired = Ok tt → validDigest (AgentConfig.CertificateFingerprint desired) = true.
Proof.
  unfold VerifySignedConfig. open_guards. intros (_ & _ & _ & [] & Hv & _). revert Hv. unfold VerifyConfig. open_guards.
  intros (k & _ & _ & [] & Hm & _). rewrite validDigest_fingerprint. revert Hm. unfold validateConfigSignatureMetadata. open_guards.
  intros (_ & _ & Hf & _). by split_bools.
Qed.
Lemma ahead_written st st' : ahead st st' → ahead (written st') st'.
Proof. intros (_ & Hb & Hf). split_and!; [by apply carried_descends|done..]. Qed.

(** Runs one step that leaves the files, under [Hh : holding _ _] or [Hh : inv _]. *)
Ltac unchanged Hh :=
  let F1 := fresh in let F2 := fresh in
  intros ?e ?w' F1 F2; first [ exact (inv_framed _ _ F1 F2 (holding_inv _ _ Hh)) | exact (inv_framed _ _ F1 F2 Hh) ].
Ltac move_on Hh a :=
  let w' := fresh "v" in let F1 := fresh in let F2 := fresh in
  intros a w' F1 F2; first [ apply (holding_framed _ _ _ F1 F2) in Hh | apply (inv_framed _ _ F1 F2) in Hh ]; clear F1 F2.
Tactic Notation "step" ident(Hh) "as" ident(a) := apply wp_bind, wp_framed; [apply _|move_on Hh a|unchanged Hh].
Tactic Notation "check" ident(Hh) "as" simple_intropattern(a) simple_intropattern(E) :=
  apply wp_bind, wp_lift; [intros a E|by intros; first [exact (holding_inv _ _ Hh)|exact Hh]].

Lemma applyBootstrap_inv st st1 keys b (Q : AgentState.t * SyncResult.t → world S → Prop) w :
  holding st w → ahead st st1 →
  (∀ st2 r w', holding (written st2) w' → ahead (written st2) st2 → Q (st2, r) w') →
  wp (applyBootstrap st1 keys b) Q (λ _, inv) w.
Proof.
  intros Hh Ha HQ. unfold applyBootstrap. check Hh as [desired bundle] Hv.
  assert (VerifySignedConfig st1 desired = Ok tt ∧ Bundle.CertificateExpiresAt bundle = AgentConfig.CertificateExpiresAt desired)
    as [Hs He].
  { revert Hv. unfold verifyBootstrapBundle. cbv zeta. open_guards. by intros (_ & _ & [] & Hs & [] & _ & [= <- <-]). }
  apply wp_bind, wp_Apply; [|unchanged Hh]. intros d w' F1 F2 Hd. apply (holding_framed _ _ _ F1 F2) in Hh. cbv zeta.
  set (st2 := _ <| AgentCredentialGeneration := _ |>).
  assert (ahead st st2) as Ha2.
  { apply (ahead_carried st (applied desired (CertificateDetails.ExpiresAt d) st1)); [|vm_compute; reflexivity].
    apply ahead_verified; [exact Ha|exact Hs|exact (eq_trans Hd He)|exact (verified_fingerprint _ _ Hs)]. }
  apply wp_bind, (wp_Save st); [done|done| |done]. intros w2 Hh2 _ _. apply wp_ret, HQ; [done|by eapply ahead_written].
Qed.

Lemma currentBundle_agrees st st1 (Q : Bundle.t → world S → Prop) (E : err → world S → Prop) w :
  holding st w → (∀ b w', holding st w' → validate_pinned (activator st1) b = Ok tt → Q b w') →
  (∀ e w', holding st w' → E e w') → wp (currentBundle st1) Q E w.
Proof.
  intros Hh HQ HE. apply wp_CurrentBundle.
  - intros b w' F1 F2 Hb. apply HQ; [by eapply holding_framed|done].
  - intros e w' F1 F2. apply HE. by eapply holding_framed.
Qed.

Lemma loadReconciledState_inv (Q : AgentState.t * Bundle.t → world S → Prop) w :
  inv w → (∀ st st1 b w', holding st w' → ahead st st1 → Q (st1, b) w') → wp loadReconciledState Q (λ _, inv) w.
Proof.
  intros Hi HQ. unfold loadReconciledState. apply wp_bind, wp_Load; [done| |done]. clear w Hi. intros st w Hh.
  check Hh as [] _. apply wp_bind.
  assert (∀ st' st1 b w', holding st' w' → ahead st' st1 → validate_pinned (activator st1) b = Ok tt →
    wp (λ w, (_ ← lift (agrees st1 b); if behind st1 b then _ ← Save (reconciled b st1); mret (reconciled b st1, b) else mret (st1, b)) w)
      Q (λ _, inv) w') as Hrest.
  { intros st' st1 b w' Hh' Ha Hb. check Hh' as [] Hg. case_match.
    - assert (ahead st' (reconciled b st1)) as Ha'.
      { destruct Ha as (Hd & Hq & Hf). split_and!; [etransitivity; [exact Hd|by apply agrees_descends]|done|].
        intros Ef. revert Hb. unfold validate_pinned, validateBundle. open_guards. intros (_ & _ & _ & [] & Hv & _).
        revert Hv. unfold VerifyConfig. open_guards. intros (k & _ & _ & [] & Hm & _). revert Hm.
        unfold validateConfigSignatureMetadata. open_guards. intros (_ & _ & Hfp & _). cbn in Ef, Hfp. rewrite Ef in Hfp.
        split_bools. done. }
      apply wp_bind, (wp_Save st'); [done|done| |done]. intros w2 Hh2 _ _. apply wp_ret. eapply HQ; [done|by eapply ahead_written].
    - apply wp_ret. by eapply HQ. }
  unfold recovered_bundle. apply wp_bind, wp_try, (currentBundle_agrees st); [done|..].
  - intros b w' Hh' Hb. apply wp_ret. eapply Hrest; [done|by eapply holding_ahead|done].
  - clear w Hh. intros e w Hh. check Hh as bearer _. step Hh as bootstrap. step Hh as keys0.
    apply wp_bind, (applyBootstrap_inv st); [done|by eapply holding_ahead|]. intros st2 r w2 Hh2 Ha2.
    apply wp_bind, (currentBundle_agrees (written st2)); [done| |intros e' w' Hh'; by eapply holding_inv].
    intros b w' Hh' Hb. apply wp_ret. by eapply Hrest.
Qed.
(** Fields outside [descends] changed since. *)
Ltac carry Ha := eapply ahead_carried; [exact Ha|vm_compute; reflexivity].

Lemma ready_framed version : Framed (S := S) (ready version).
Proof. unfold ready. apply _. Qed.
#[local] Existing Instance ready_framed.
Lemma currentTime_framed : Framed (S := S) currentTime.
Proof. unfold currentTime. apply _. Qed.
#[local] Existing Instance currentTime_framed.
Lemma LoadRecoveryKeyPair_framed : Framed (S := S) LoadRecoveryKeyPair.
Proof. unfold LoadRecoveryKeyPair. apply _. Qed.
#[local] Existing Instance LoadRecoveryKeyPair_framed.
Lemma rotate_call_framed st h : Framed (S := S) (rotate_call st h).
Proof. unfold rotate_call. apply _. Qed.
#[local] Existing Instance rotate_call_framed.
Lemma candidate_framed parent b : Framed (S := S) (validateRecoveryActivationCandidate parent b).
Proof. unfold validateRecoveryActivationCandidate. apply _. Qed.
#[local] Existing Instance candidate_framed.
Lemma exchange_framed parent st ks : Framed (S := S) (exchange_recovery parent st ks).
Proof. unfold exchange_recovery. apply _. Qed.
#[local] Existing Instance exchange_framed.
Lemma distinct_framed n a b : Framed (S := S) (generateDistinctRecoveryBearer n a b).
Proof. induction n as [|n IH]; simpl; apply _. Qed.
#[local] Existing Instance distinct_framed.

Lemma activate_renewal_inv st st1 ks renewal refresh w :
  holding st w → ahead st st1 → VerifySignedConfig st1 (renewal_config renewal) = Ok tt →
  (∀ st2 (Q : AgentState.t → world S → Prop) w', ahead st st2 → holding st w' →
     (∀ st3 w'', ahead st st3 → holding st w'' → Q st3 w'') → wp (refresh st2) Q (λ _, inv) w') →
  wp (activate_renewal st1 ks renewal refresh) (λ _, inv) (λ _, inv) w.
Proof.
  intros Hh Ha Hs Hr. unfold activate_renewal. cbv zeta. apply wp_bind, wp_Apply; [|unchanged Hh].
  intros d w' F1 F2 Hd. apply (holding_framed _ _ _ F1 F2) in Hh. apply wp_bind, Hr; [|done|].
  - apply ahead_verified; [exact Ha|exact Hs|exact Hd|exact (verified_fingerprint _ _ Hs)].
  - intros st3 w3 Ha3 Hh3. apply wp_bind, (wp_Save st); [done|done| |done]. intros w4 Hh4 _ _. apply wp_ret. by eapply holding_inv.
Qed.

Lemma renewCertificateLocked_inv w : inv w → wp renewCertificateLocked (λ _, inv) (λ _, inv) w.
Proof.
  intros Hi. unfold renewCertificateLocked. apply wp_bind, wp_Load; [done| |done]. clear w Hi. intros st w Hh.
  pose proof (holding_ahead _ _ Hh) as Ha.
  check Hh as [] _. step Hh as ks. check Hh as bearer _. step Hh as outcome. destruct outcome as [renewal|e].
  - cbv zeta. check Hh as [] Hs. step Hh as live. case_match; [apply wp_ret; by eapply holding_inv|].
    eapply activate_renewal_inv; [done|done|done|]. intros st2 Q w' Ha2 Hh2 HQ. apply wp_ret. by apply HQ.
  - unfold recover_renewal. step Hh as b. destruct b as [b|e']; [|apply wp_lift; [done|]; intros; by eapply holding_inv].
    check Hh as [] _. apply wp_bind, (applyBootstrap_inv st); [done|done|]. intros st2 r w2 Hh2 _. apply wp_ret. by eapply holding_inv.
Qed.

Lemma recordConfigSuccess_inv interval st st1 (Q : unit → world S → Prop) w :
  holding st w → ahead st st1 → (∀ w', inv w' → Q tt w') → wp (recordConfigSuccess interval st1) Q (λ _, inv) w.
Proof.
  intros Hh Ha HQ. unfold recordConfigSuccess. step Hh as now. cbv zeta. case_match; [apply wp_ret, HQ; by eapply holding_inv|].
  apply (wp_Save st); [done|intros _; carry Ha| |done]. intros w' Hh' _ _. apply HQ. by eapply holding_inv.
Qed.

Lemma fetch_bootstrap_inv st st1 bearer w : holding st w → ahead st st1 → wp (fetch_bootstrap st1 bearer) (λ _, inv) (λ _, inv) w.
Proof.
  intros Hh Ha. unfold fetch_bootstrap. step Hh as b. step Hh as ks. step Hh as now.
  apply wp_bind, (applyBootstrap_inv st); [done|carry Ha|]. intros st2 r w2 Hh2 _. apply wp_ret. by eapply holding_inv.
Qed.

Lemma follow_config_inv interval st st1 current bearer desired w :
  holding st w → ahead st st1 → VerifySignedConfig st1 desired = Ok tt →
  wp (follow_config interval st1 current bearer desired) (λ _, inv) (λ _, inv) w.
Proof.
  intros Hh Ha Hs. unfold follow_config. case_match; [by eapply fetch_bootstrap_inv|].
  case_match; [apply renewCertificateLocked_inv; by eapply holding_inv|]. case_match; [by eapply fetch_bootstrap_inv|].
  case_match; [check Hh as [] _; apply wp_bind, (recordConfigSuccess_inv _ st); [done|done|intros; by apply wp_ret]|].
  unfold activate_config. apply wp_bind, wp_Apply; [|unchanged Hh].
  intros d w' F1 F2 Hd. apply (holding_framed _ _ _ F1 F2) in Hh. step Hh as now.
  assert (ahead st (applied desired (CertificateDetails.ExpiresAt d) st1)) as Ha'
    by (apply ahead_verified; [exact Ha|exact Hs|exact Hd|exact (verified_fingerprint _ _ Hs)]).
  apply wp_bind, (wp_Save st); [done|intros _; carry Ha'| |done]. intros w2 Hh2 _ _. apply wp_ret. by eapply holding_inv.
Qed.

Lemma Sync_inv version interval w : inv w → wp (Sync version interval) (λ _, inv) (λ _, inv) w.
Proof.
  intros Hi. unfold Sync. step Hi as u. apply wp_bind, loadReconciledState_inv; [done|]. intros st st1 b w' Hh Ha.
  check Hh as bearer _. step Hh as response. case_match.
  - apply wp_bind, (recordConfigSuccess_inv _ st); [done|done|intros; by apply wp_ret].
  - cbv zeta. check Hh as [] Hs. by eapply follow_config_inv.
Qed.
Lemma RenewCertificate_inv version w : inv w → wp (RenewCertificate version) (λ _, inv) (λ _, inv) w.
Proof. intros Hi. unfold RenewCertificate. step Hi as u. by apply renewCertificateLocked_inv. Qed.
Lemma ReportConfigApplyFailure_inv version revision digest w :
  inv w → wp (ReportConfigApplyFailure version revision digest) (λ _, inv) (λ _, inv) w.
Proof.
  intros Hi. unfold ReportConfigApplyFailure. step Hi as u. apply wp_bind, wp_Load; [done| |done]. intros st w' Hh.
  check Hh as bearer _. apply wp_framed; [apply _|unchanged Hh..].
Qed.

Lemma RotateCredential_inv version w : inv w → wp (RotateCredential version) (λ _, inv) (λ _, inv) w.
Proof.
  intros Hi. unfold RotateCredential. step Hi as u. apply wp_bind, wp_Load; [done| |done]. intros st w' Hh.
  pose proof (holding_ahead _ _ Hh) as Ha. check Hh as [] _. apply wp_bind.
  assert (∀ st' st1 w2, holding st' w2 → ahead st' st1 → wp (λ w, (rotation ← rotate_call st1 (HashToken (PendingBearer st1));
    now ← currentTime; _ ← lift (validateCredentialRotation st1 rotation now); _ ← Save (rotated rotation st1); mret rotation) w)
    (λ _, inv) (λ _, inv) w2) as Hrest.
  { intros st' st1 w2 Hh2 Ha2. step Hh2 as r. step Hh2 as now. check Hh2 as [] _.
    apply wp_bind, (wp_Save st'); [done|intros _; carry Ha2| |done]. intros w3 Hh3 _ _. apply wp_ret. by eapply holding_inv. }
  unfold pending_rotation. case_match; [|apply wp_ret; by eapply Hrest]. step Hh as b. cbv zeta.
  assert (ahead st (st <| PendingBearer := b |>)) as Hb by carry Ha.
  apply wp_bind, (wp_Save st); [done|done| |done]. intros w3 Hh3 _ _. apply wp_ret. eapply Hrest; [done|by eapply ahead_written].
Qed.

(** What is pending is no part of what must not go back. *)
Lemma pending_recovery_inv st st1 ks token (Q : AgentState.t → world S → Prop) w :
  holding st w → ahead st st1 → (∀ st' st2 w', holding st' w' → ahead st' st2 → Q st2 w') →
  wp (pending_recovery st1 ks token) Q (λ _, inv) w.
Proof.
  intros Hh Ha HQ. unfold pending_recovery. case_match.
  - case_match; [|apply wp_ret; by eapply HQ]. check Hh as [] _. unfold replacePendingRecoveryAfterAuthoritativeRejection.
    check Hh as pending _. step Hh as outcome. destruct outcome as [b|e].
    + check Hh as pair _. apply wp_lift; [done|]. intros. by eapply holding_inv.
    + check Hh as [] _. step Hh as fresh. cbv zeta. set (st2 := _ <| PendingRecoveryAllowsGenerationAdvance := _ |>).
      assert (ahead st st2) as Ha2 by carry Ha.
      apply wp_bind, (wp_Save st); [done|done| |done]. intros w3 Hh3 _ _. apply wp_ret. eapply HQ; [done|by eapply ahead_written].
  - check Hh as [] _. apply wp_ret. eapply HQ; [done|]. carry Ha.
Qed.

Lemma RecoverCredential_inv version parent token w : inv w → wp (RecoverCredential version parent token) (λ _, inv) (λ _, inv) w.
Proof.
  intros Hi. unfold RecoverCredential. step Hi as u. apply wp_bind, wp_Load; [done| |done]. intros st w' Hh.
  pose proof (holding_ahead _ _ Hh) as Ha. step Hh as ks. check Hh as [] _.
  apply wp_bind, (pending_recovery_inv st); [done|done|]. clear. intros st st1 w Hh Ha. check Hh as [] _. apply wp_bind.
  assert (∀ (Q : AgentState.t → world S → Prop), (∀ st2 w', ahead st st2 → holding st w' → Q st2 w') → wp (pending_bearer st1) Q (λ _, inv) w) as Hp.
  { intros Q HQ. unfold pending_bearer. case_match; [|apply wp_ret; by apply HQ]. step Hh as b. apply wp_ret. apply HQ; [carry Ha|done]. }
  apply Hp. clear dependent w. clear Ha. intros st2 w Ha Hh. check Hh as [] _.
  apply wp_bind, (wp_Save st); [done|done| |done]. intros w7 Hh1 _ _. clear Hh. rename Hh1 into Hh. pose proof (ahead_written _ _ Ha) as Ha2.
  step Hh as ex. destruct ex as [receipt confirmed]. step Hh as now. cbv zeta. set (st3 := recovered_state receipt now st2).
  assert (ahead (written st2) st3) as Ha3 by carry Ha2.
  apply wp_bind, (wp_Save (written st2)); [done|done| |done]. intros w8 Hh1 _ _. clear Hh. rename Hh1 into Hh. pose proof (ahead_written _ _ Ha3) as Ha4.
  step Hh as now2. case_match.
  - unfold renewRecoveredCertificate. check Hh as bearer _. step Hh as renewal. cbv zeta. check Hh as [] Hs. step Hh as now3.
    check Hh as [] _. eapply activate_renewal_inv; [done|done|done|]. intros st5 Q w5 Ha5 Hh5 HQ. step Hh5 as now4.
    apply wp_ret, HQ; [carry Ha5|done].
  - apply wp_bind, (applyBootstrap_inv (written st3)); [done|done|]. intros st5 r w5 Hh5 _. apply wp_ret. by eapply holding_inv.
Qed.

Lemma StronglySorted_snoc (l : list Z) x : Forall (λ y, y < x) l → StronglySorted Z.lt l → StronglySorted Z.lt (l ++ [x]).
Proof.
  induction l as [|y l IH]; intros Hl Hs; simpl; [repeat constructor|]. inversion Hl; subst. inversion Hs; subst.
  constructor; [by apply IH|]. apply Forall_app. split; [done|by apply Forall_singleton].
Qed.

(** A heartbeat goes out only with a sequence number that is durable and new. *)
Lemma wrap64_next z : 0 ≤ z ≤ int64_max → wrap64 (z + 1) ≤ int64_max ∧ (0 ≤ wrap64 (z + 1) → wrap64 (z + 1) = z + 1).
Proof. unfold wrap64, int64_max, int64_min. intros. change (2 ^ 64) with 18446744073709551616. Z.div_mod_to_equations. lia. Qed.

Lemma Heartbeat_inv version health w : inv w → wp (Heartbeat version health) (λ _, inv) (λ _, inv) w.
Proof.
  intros Hi. unfold Heartbeat. step Hi as u. check Hi as [] _. apply wp_bind, loadReconciledState_inv; [done|]. clear.
  intros st st1 b w Hh Ha. check Hh as [] _. step Hh as boot. cbv zeta. set (st2 := _ <| HeartbeatSequence := _ |>).
  assert (0 ≤ HeartbeatSequence st1 ≤ int64_max ∧ HeartbeatSequence st ≤ HeartbeatSequence st1) as [Hb Hle].
  { destruct Ha as ([] & Hb & _), Hh as (_ & _ & Hv). pose proof (Validate_sequence _ Hv). lia. }
  destruct (wrap64_next _ Hb) as [Hw1 Hw2]. assert (Forall (λ n, n ≤ HeartbeatSequence st) (sequences v)) as Hold.
  { destruct Hh as ([(f & s & Hf & _ & _ & _ & D & _ & Hq) _] & Hst & _). rewrite Hf in Hst. injection Hst as ->.
    eapply Forall_impl; [exact Hq|]. intros k Hk. pose proof (sequence_advances _ _ D). cbv beta in Hk |- *. lia. }
  assert (Validate (written st2) = Ok tt → HeartbeatSequence st2 = HeartbeatSequence st1 + 1) as Hnext.
  { intros Hv. apply Validate_sequence in Hv. by apply Hw2. }
  apply wp_bind, (wp_Save st); [done| | |done].
  { intros Hv. specialize (Hnext Hv). destruct Ha as (Hd & _ & Hf). split_and!; [|exact Hw1|exact Hf].
    destruct Hd. split; try done. change (HeartbeatSequence st ≤ HeartbeatSequence st2). lia. }
  intros w2 Hh2 Hsy Hse. specialize (Hnext ltac:(apply Hh2)). check Hh2 as bearer _. apply wp_bind.
  set (input := heartbeat_input version health st2 b). unfold send_heartbeat. apply wp_act.
  { intros w3 [] _. eapply inv_framed; [done|done|by eapply holding_inv]. }
  intros n w3 [F1 _ _ F2] _. assert (∀ w4, files w4 = files w2 → sent w4 = sent w2 ++ [input] → inv w4) as Hsent.
  { intros w4 E1 E2. destruct Hh2 as ([(f & s & Hf & Hs & D1 & D2 & D3 & Hb2 & Hq) Ht] & Hst & _).
    rewrite Hsy in Hs. injection Hs as <-.
    assert (sequences w4 = sequences v ++ [HeartbeatSequence st2]) as Eq by (unfold sequences; by rewrite E2, Hse, fmap_app).
    split; rewrite Eq.
    - exists f, (written st2). rewrite E1. split_and!; try done. apply Forall_app. split; [|by apply Forall_singleton].
      eapply Forall_impl; [exact Hold|]. intros k Hk. cbv beta in Hk |- *. change (k ≤ HeartbeatSequence st2). lia.
    - apply StronglySorted_snoc; [|unfold sequences in Ht; rewrite Hse in Ht; exact Ht].
      eapply Forall_impl; [exact Hold|]. intros k Hk. cbv beta in Hk. lia. }
  unfold wp. cbv zeta. destruct (delivers n); [destruct (post_heartbeat _ _ _ _) as [s [[]|e]]| |]; cbn;
    apply Hsent; cbn; by rewrite ?F1, ?F2.
Qed.
End invariant.

(** ** Runs

    The operations of the agent, each under its own environment, between restarts of
    the process and power failures; the control plane and the output directory may
    change in any way in between. *)
Section runs.
Context `{Crypto} `{URLs} `{X25519} {S : Type} `{AgentAPI S}.

Inductive operation :=
  | OpSync (interval : duration)
  | OpRenew
  | OpRotate
  | OpRecover (parent token : string)
  | OpHeartbeat (health : Health.t)
  | OpReport (revision : Z) (digest : string).
(** The world after an operation, whatever its outcome. *)
Definition perform (env : Environment) (version : string) (op : operation) (w : world S) : world S :=
  match op with
  | OpSync interval => fst (Sync version interval w)
  | OpRenew => fst (RenewCertificate version w)
  | OpRotate => fst (RotateCredential version w)
  | OpRecover parent token => fst (RecoverCredential version parent token w)
  | OpHeartbeat health => fst (Heartbeat version health w)
  | OpReport revision digest => fst (ReportConfigApplyFailure version revision digest w)
  end.

Inductive agent_step (w : world S) : world S → Prop :=
  | step_operation env version op : agent_step w (perform env version op w)
  | step_restart : agent_step w (w <| halted := false |>)
  | step_power_failure : agent_step w (change_files (λ f, f <| Files.state := Files.synced f |>) w)
  | step_elsewhere server' output' : agent_step w (w <| server := server' |> <| output := output' |>).

Lemma perform_inv file0 synced0 env version op w : inv file0 synced0 w → inv file0 synced0 (perform env version op w).
Proof.
  intros Hi. assert (∀ {A} (m : M (world S) A), wp m (λ _, inv file0 synced0) (λ _, inv file0 synced0) w → inv file0 synced0 (fst (m w))) as Hm.
  { intros A m. unfold wp. by destruct (m w) as [w' [a|e]]. }
  destruct op; apply Hm; auto using Sync_inv, RenewCertificate_inv, RotateCredential_inv, RecoverCredential_inv, Heartbeat_inv,
    ReportConfigApplyFailure_inv.
Qed.
Lemma agent_step_inv synced0 w w' : agent_step w w' → inv synced0 synced0 w → inv synced0 synced0 w'.
Proof.
  intros [env version op| | |s o] Hi; [by apply perform_inv| | |]; [by apply (inv_framed _ _ w)| |by apply (inv_framed _ _ w)].
  destruct Hi as [(f & s & Hf & Hs & D1 & D2 & D3 & Hb & Hq) Ht]. split; [|done]. exists s, s. cbn. rewrite Hs.
  split_and!; try done. pose proof (sequence_advances _ _ D3). lia.
Qed.

(** A world in which an agent has been installed. *)
Record installed (w : world S) (file synced : AgentState.t) : Prop := {
  installed_file : Files.state (files w) = Some file;
  installed_synced : Files.synced (files w) = Some synced;
  installed_behind : descends synced file;
  installed_bound : AgentState.HeartbeatSequence file ≤ int64_max;
  installed_sorted : StronglySorted Z.lt (sequences w);
  installed_durable : Forall (λ n, n ≤ AgentState.HeartbeatSequence synced) (sequences w) }.
Lemma installed_inv w file synced : installed w file synced → inv synced synced w.
Proof. intros []. split; [|done]. exists file, synced. split_and!; done || reflexivity. Qed.
Lemma run_inv w w' file synced : rtc agent_step w w' → installed w file synced → inv synced synced w'.
Proof. intros Hr Hi%installed_inv. induction Hr; eauto using agent_step_inv. Qed.

(** C5: whatever the control plane answers, whatever fails, and wherever the process
    stops or the power fails: the durable state of an agent keeps the pinned
    identity and keys, moves to another authority only along transitions that the
    pinned key signed, and never goes back to an earlier configuration revision,
    certificate generation or heartbeat, nor to another content of the same one;
    the state file is never behind the durable one. *)
Theorem agent_state_never_goes_back w w' file synced :
  rtc agent_step w w' → installed w file synced →
  ∃ file' synced', Files.state (files w') = Some file' ∧ Files.synced (files w') = Some synced' ∧
    descends synced synced' ∧ descends synced' file'.
Proof. intros Hr Hi. destruct (run_inv _ _ _ _ Hr Hi) as [(f & s & Hf & Hs & _ & D2 & D3 & _) _]. eauto 10. Qed.

(** C16: in such a run the heartbeats leave with strictly increasing sequence numbers,
    each of them durable before it is sent: no crash makes an agent repeat one. *)
Theorem heartbeats_never_repeat w w' file synced :
  rtc agent_step w w' → installed w file synced →
  StronglySorted Z.lt (sequences w') ∧
  ∃ synced', Files.synced (files w') = Some synced' ∧ Forall (λ n, n ≤ AgentState.HeartbeatSequence synced') (sequences w').
Proof. intros Hr Hi. destruct (run_inv _ _ _ _ Hr Hi) as [(f & s & Hf & Hs & _ & _ & _ & _ & Hq) Ht]. eauto. Qed.
End runs.
