(* ===== verification/ActivationSafety.v ===== *)
(** * What an activation guarantees (internal/nodeagent/activate.go)

    The link always leads to a complete bundle, the previous one or the new one; an
    activated bundle is read back as it was given; the number of versions stays
    bounded.  Two interruptions leave the directory in a state that every later
    activation refuses. *)
From stdpp Require Import gmap.
From S2P Require Import Prelude GoStd Sha256 GoTime IPv4 NetIP Model AuditLog Credentials SignedConfig AgentOps AgentState AgentWorld Activation.
From Stdlib Require Import Ascii.
Open Scope Z_scope.

(** ** Computations seen from the output directory *)
Section output.
Context `{Environment} {S : Type}.
Definition wpo {A} (m : M (world S) A) (Q : A → Output.t → Prop) (E : Output.t → Prop) (w : world S) : Prop :=
  wp m (λ a w', Q a (output w')) (λ _ w', E (output w')) w.

Lemma wpo_bind {A B} (m : M (world S) A) (f : A → M (world S) B) Q E w (R : A → Output.t → Prop) :
  wpo m R E w → (∀ a w', R a (output w') → wpo (f a) Q E w') → wpo (m ≫= f) Q E w.
Proof. intros Hm Hf. apply wp_bind. eapply wp_mono; [exact Hm|intros; by apply Hf|done]. Qed.
Lemma wpo_lift {A} (r : result A) (Q : A → Output.t → Prop) (E : Output.t → Prop) (w : world S) :
  E (output w) → (∀ a, r = Ok a → Q a (output w)) → wpo (lift r) Q E w.
Proof. intros. by apply wp_lift. Qed.
Lemma wpo_try {A} (m : M (world S) A) (Q : result A → Output.t → Prop) E w :
  wpo m (λ a, Q (Ok a)) (λ o, ∀ e, Q (Err e) o) w → wpo (try m) Q E w.
Proof. intros Hm. apply wp_try. eapply wp_mono; [exact Hm|done|auto]. Qed.
Lemma wpo_mono {A} (m : M (world S) A) (Q Q' : A → Output.t → Prop) (E E' : Output.t → Prop) w :
  wpo m Q E w → (∀ a o, Q a o → Q' a o) → (∀ o, E o → E' o) → wpo m Q' E' w.
Proof. intros Hm H1 H2. eapply wp_mono; [exact Hm|auto..]. Qed.
Lemma wpo_ext {A} (m m' : M (world S) A) (Q : A → Output.t → Prop) (E : Output.t → Prop) w :
  m w = m' w → wpo m' Q E w → wpo m Q E w.
Proof. unfold wpo, wp. by intros ->. Qed.
Lemma wpo_os (f : nat → Output.t → Output.t) (Q : unit → Output.t → Prop) (E : Output.t → Prop) (w : world S) :
  E (output w) → (∀ n, Q tt (f n (output w))) → wpo (os (λ n, change_output (f n))) Q E w.
Proof. intros HE HQ. apply wp_os; [intros e w' []; congruence|]. intros n w' [_ Ho _ _] _. cbn. rewrite Ho. apply HQ. Qed.
Lemma wpo_id (Q : unit → Output.t → Prop) (E : Output.t → Prop) (w : world S) :
  E (output w) → Q tt (output w) → wpo (os (λ _ w, w)) Q E w.
Proof. intros HE HQ. apply wp_os; [intros e w' []; congruence|]. intros n w' [_ Ho _ _] _. cbn. by rewrite Ho. Qed.
Lemma wpo_read {A} (f : Output.t → result A) (Q : A → Output.t → Prop) (E : Output.t → Prop) (w : world S) :
  E (output w) → (∀ a, f (output w) = Ok a → Q a (output w)) → wpo (read (λ w, f (output w))) Q E w.
Proof. intros HE HQ. apply wp_read; [intros e w' []; congruence|]. intros a w' [_ Ho _ _] _ Hf. rewrite Ho in Hf |- *. auto. Qed.
Lemma wpo_look {A} (f : world S → result A) (P : Output.t → Prop) (w : world S) : P (output w) → wpo (read f) (λ _, P) P w.
Proof. intros HP. apply wp_read; intros ? w' []; congruence. Qed.
Lemma wpo_ask {A} (f : nat → result A) (Q : A → Output.t → Prop) (E : Output.t → Prop) (w : world S) :
  E (output w) → (∀ a n, f n = Ok a → Q a (output w)) → wpo (ask f) Q E w.
Proof. intros HE HQ. apply wp_ask; [intros e w' []; congruence|]. intros n a w' [_ Ho _ _] _ Hf. rewrite Ho. eauto. Qed.
Lemma wpo_finally {A} (m : M (world S) A) cleanup (Q : A → Output.t → Prop) (E : Output.t → Prop) w :
  wpo m Q E w → (∀ (P : Output.t → Prop) w', (P = E ∨ ∃ a, P = Q a) → P (output w') → wpo cleanup (λ _, P) P w') →
  wpo (finally m cleanup) Q E w.
Proof.
  intros Hm Hc. apply wp_finally. eapply wp_mono; [exact Hm|..].
  - intros a w' Hq. by apply (Hc (Q a)); [eauto|].
  - intros e w' He. by apply (Hc E); [eauto|].
Qed.
End output.

(** ** The live bundle *)
Section live.
Context `{Crypto} `{Environment} {S : Type}.
(** The directory at the start, and what its link leads to. *)
Context (o0 : Output.t) (previous : option (string * string)).

Definition kept (o : Output.t) : Prop :=
  ∀ target child, previous = Some (target, child) → Output.version_map o !! child = Output.version_map o0 !! child.
Definition prior (o : Output.t) : Prop := Output.current o = Output.current o0 ∧ kept o.

Lemma wpo_Validate contents config (P : Output.t → Prop) (w : world S) :
  P (output w) → wpo (Validate_bundle contents config) (λ _, P) P w.
Proof.
  intros HP. unfold Validate_bundle.
  eapply wpo_bind; [apply (wpo_ask _ (λ _, P)); auto|]. clear dependent w. intros ? w HP.
  eapply wpo_bind; [apply (wpo_lift _ (λ _, P)); auto|]. clear dependent w. intros ? w HP.
  do 3 (eapply wpo_bind; [apply (wpo_ask _ (λ _, P)); auto|]; clear dependent w; intros ? w HP).
  by apply wpo_lift.
Qed.
Lemma wpo_sync (P : Output.t → Prop) (w : world S) : P (output w) → wpo sync_directory (λ _, P) P w.
Proof. intros HP. by apply wpo_id. Qed.

Lemma kept_files version name o : (∀ t c, previous = Some (t, c) → version ≠ c) → kept o → kept (remove_file version name o).
Proof.
  intros Hn Hk t c E. unfold remove_file, Output.version_map. cbn. rewrite lookup_alter_ne by eauto. by eapply Hk.
Qed.
Lemma kept_version version o : (∀ t c, previous = Some (t, c) → version ≠ c) → kept o → kept (remove_version version o).
Proof.
  intros Hn Hk t c E. unfold remove_version, Output.version_map. cbn. rewrite lookup_delete_ne by eauto. by eapply Hk.
Qed.

Lemma remove_files_prior version names (w : world S) : (∀ t c, previous = Some (t, c) → version ≠ c) → prior (output w) →
  wpo (remove_files version names) (λ _, prior) prior w.
Proof.
  intros Hn. revert w. induction names as [|name names IH]; intros w HP; simpl; [done|].
  eapply wpo_bind; [apply (wpo_os _ (λ _, prior)); [done|]|by intros; apply IH].
  intros _. destruct HP. split; [done|by apply kept_files].
Qed.
Lemma removeComplete_prior version (w : world S) : (∀ t c, previous = Some (t, c) → version ≠ c) → prior (output w) →
  wpo (removeCompleteVersionDirectory version) (λ _, prior) prior w.
Proof.
  intros Hn HP. unfold removeCompleteVersionDirectory.
  eapply wpo_bind; [by apply wpo_look|]. clear dependent w. intros ? w HP.
  eapply wpo_bind; [by apply remove_files_prior|]. clear dependent w. intros ? w HP.
  apply wpo_os; [done|]. intros _. destruct HP. split; [done|by apply kept_version].
Qed.
Lemma prune_others_prior retained names (w : world S) : prior (output w) →
  wpo (prune_others (snd <$> previous) retained names) (λ _, prior) prior w.
Proof.
  revert w. induction names as [|name names IH]; intros w HP; simpl; [done|]. case_match; [by apply IH|].
  eapply (wpo_bind _ _ _ _ _ (λ _ o, prior o ∧ Some name ≠ snd <$> previous)).
  - apply wpo_lift; [done|]. intros u Hu. apply fail_if_Ok in Hu. by split_bools.
  - clear dependent w. intros _ w [HP Hn].
    eapply wpo_bind; [apply removeComplete_prior; [|done]|by intros; apply IH]. intros t c E ->. by rewrite E in Hn.
Qed.
Lemma prune_prior (w : world S) : prior (output w) → wpo (pruneVersionsBeforeActivation (snd <$> previous)) (λ _, prior) prior w.
Proof.
  intros HP. unfold pruneVersionsBeforeActivation. eapply wpo_bind; [by apply wpo_look|].
  clear dependent w. intros versions w HP. cbv zeta. eapply wpo_bind; [apply (wpo_lift _ (λ _, prior)); auto|].
  clear dependent w. intros [] w HP. eapply wpo_bind; [apply (wpo_lift _ (λ _, prior)); auto|].
  clear dependent w. intros [] w HP. case_match; [done|].
  eapply wpo_bind; [by apply prune_others_prior|]. clear dependent w. intros [] w HP. by apply wpo_id.
Qed.

(** The new version is published, and the link leads to it or where it led before. *)
Definition published (name : string) (contents : directory) (o : Output.t) : Prop :=
  ∃ v, Output.version_map o !! name = Some v ∧ Version.contents v = contents.
(** A name drawn for the bundle. *)
Definition named (bundle : Bundle.t) (name : string) : Prop := ∃ n suffix, random_text n = Ok suffix ∧ name = version_name bundle suffix.
Definition settled (bundle : Bundle.t) (name : string) (contents : directory) (o : Output.t) : Prop :=
  kept o ∧ named bundle name ∧ published name contents o ∧ (Output.current o = Output.current o0 ∨ Output.current o = Some ("versions/" +:+ name)).
Definition linked (target : option string) (bundle : Bundle.t) (name : string) (contents : directory) (o : Output.t) : Prop :=
  settled bundle name contents o ∧ Output.current o = target.

Lemma replaceSymlink_settled bundle name contents target (w : world S) :
  settled bundle name contents (output w) → (Some target = Output.current o0 ∨ target = "versions/" +:+ name) →
  wpo (replaceSymlink target) (λ _, linked (Some target) bundle name contents) (settled bundle name contents) w.
Proof.
  intros HP Ht. unfold replaceSymlink. eapply wpo_bind; [by apply (wpo_ask _ (λ _, settled bundle name contents))|].
  clear dependent w. intros text w HP. cbv zeta. eapply wpo_bind; [by apply (wpo_os _ (λ _, settled bundle name contents))|].
  clear dependent w. intros [] w HP. apply wpo_finally.
  - apply wpo_os; [done|]. intros _. destruct HP as (Hk & Hn & Hp & _). split; [|done]. split_and!; [exact Hk|exact Hn|exact Hp|]. cbn. naive_solver.
  - intros P w' HP' Hw. apply wpo_os; [done|]. intros _. destruct HP' as [->|[a ->]]; exact Hw.
Qed.

Lemma rollback_settled bundle name contents (w : world S) :
  (fst <$> previous) = Output.current o0 → settled bundle name contents (output w) →
  wpo (rollback previous) (λ _, settled bundle name contents) (settled bundle name contents) w.
Proof.
  intros Hpr HP. unfold rollback. eapply (wpo_bind _ _ _ _ _ (λ _, settled bundle name contents)).
  - destruct previous as [[t c]|].
    + eapply wpo_mono; [apply replaceSymlink_settled; [done|by left]|by intros ? ? []|done].
    + apply wpo_os; [done|]. intros _. destruct HP as (Hk & Hn & Hp & _). split_and!; [exact Hk|exact Hn|exact Hp|]. by left.
  - clear dependent w. intros _ w HP. eapply wpo_bind; [by apply wpo_sync|]. clear dependent w. intros [] w HP.
    destruct previous; [|done]. apply wpo_os; [done|]. intros _. exact HP.
Qed.
Lemma or_roll_back_settled bundle name contents (Q : Output.t → Prop) m (w : world S) :
  (fst <$> previous) = Output.current o0 → wpo m (λ _, Q) (settled bundle name contents) w →
  wpo (or_roll_back previous m) (λ _, Q) (settled bundle name contents) w.
Proof.
  intros Hpr Hm. unfold or_roll_back.
  eapply (wpo_bind _ _ _ _ _ (λ r, match r with Ok _ => Q | Err _ => settled bundle name contents end)).
  - apply wpo_try. eapply wpo_mono; [exact Hm|done|done].
  - clear dependent w. intros [u|e] w HP; [done|]. eapply wpo_bind; [by apply rollback_settled|]. clear dependent w.
    intros [] w HP. by apply wpo_lift.
Qed.

(** The preparation of the directory leaves the link and the versions. *)
Lemma secure_prior path nodeID networkID (P : Output.t → Prop) (w : world S) :
  (∀ o m, P o → P (o <| Output.marker := m |>)) → P (output w) →
  wpo (secureManagedOutputDir path nodeID networkID) (λ _, P) P w.
Proof.
  intros Hm HP. unfold secureManagedOutputDir. eapply wpo_bind; [by apply (wpo_lift _ (λ _, P))|]. clear dependent w.
  intros [] w HP. eapply wpo_bind; [by apply wpo_look|]. clear dependent w. intros marker w HP. cbv zeta.
  eapply (wpo_bind _ _ _ _ _ (λ _, P)); [|clear dependent w; intros; by apply wpo_sync].
  destruct marker; [by apply wpo_lift|]. eapply wpo_bind; [by apply wpo_look|]. clear dependent w. intros [] w HP.
  eapply wpo_bind; [apply (wpo_os _ (λ _, P)); [done|intros _; by apply Hm]|]. clear dependent w. intros [] w HP.
  apply wpo_os; [done|intros _; by apply Hm].
Qed.

(** Staging and publishing. *)
Lemma make_stage_prior (w : world S) : prior (output w) → wpo make_stage (λ _, prior) prior w.
Proof.
  intros HP. unfold make_stage. eapply wpo_bind; [by apply (wpo_ask _ (λ _, prior))|]. clear dependent w. intros st w HP.
  eapply wpo_bind; [by apply (wpo_os _ (λ _, prior))|]. clear dependent w. by intros [] w HP.
Qed.
Lemma stage_settled a bundle stage (w : world S) :
  (∀ t c, previous = Some (t, c) → is_Some (Output.version_map o0 !! c)) → prior (output w) →
  wpo (unless_published (stage_and_publish a bundle stage) stage)
    (λ nd o, ∃ config, rewritePKIPaths (Bundle.SignedConfig bundle) (outputDir a +:+ "/current") = Ok config ∧
       settled bundle (fst nd) (version_contents bundle config) o) prior w.
Proof.
  intros Hsome HP. assert (wpo (stage_and_publish a bundle stage)
    (λ nd o, ∃ config, rewritePKIPaths (Bundle.SignedConfig bundle) (outputDir a +:+ "/current") = Ok config ∧
       settled bundle (fst nd) (version_contents bundle config) o) prior w) as Hs.
  { unfold stage_and_publish. eapply (wpo_bind _ _ _ _ _ (λ config o, prior o ∧
      rewritePKIPaths (Bundle.SignedConfig bundle) (outputDir a +:+ "/current") = Ok config)); [by apply wpo_lift; auto|].
    clear dependent w. intros config w [HP Hc]. eapply wpo_bind; [by apply (wpo_lift _ (λ _, prior))|]. clear dependent w. intros validation w HP.
    eapply wpo_bind; [by apply wpo_sync|]. clear dependent w. intros [] w HP.
    eapply wpo_bind; [by apply wpo_Validate|]. clear dependent w. intros details w HP.
    eapply wpo_bind; [by apply (wpo_lift _ (λ _, prior))|]. clear dependent w. intros [] w HP.
    eapply wpo_bind; [by apply wpo_sync|]. clear dependent w. intros [] w HP.
    eapply (wpo_bind _ _ _ _ _ (λ suffix o, prior o ∧ ∃ k, random_text k = Ok suffix)); [by apply wpo_ask; eauto|].
    clear dependent w. intros suffix w [HP [k Hk']]. cbv zeta.
    set (name := version_name bundle suffix).
    eapply (wpo_bind _ _ _ _ _ (λ _, settled bundle name (version_contents bundle config))); [|intros; apply wp_ret; cbn; eauto].
    apply wp_act; [intros w' [_ Ho _ _] _; by rewrite Ho|]. intros n w' [_ Ho _ _] _. unfold wp.
    destruct (fault n); [by rewrite Ho|]. case_bool_decide as Hn; [by rewrite Ho|]. rewrite Ho in Hn.
    change (settled bundle name (version_contents bundle config)
      (publish stage name (Version.make (version_contents bundle config) (clock n)) (output w'))). rewrite Ho.
    destruct HP as [Hcur Hk]. split_and!; [|by exists k, suffix| |by left].
    - intros t c E. unfold publish, Output.version_map. cbn. fold (Output.version_map (output w)).
      destruct (decide (c = name)) as [Ec|Hne].
      + destruct (Hsome t c E) as [v Hv]. rewrite <- (Hk t c E) in Hv. destruct Hn. rewrite <- Ec. eauto.
      + rewrite lookup_insert_ne by done. by eapply Hk.
    - eexists. unfold publish, Output.version_map. cbn. rewrite lookup_insert_eq. done. }
  unfold wpo, wp, unless_published in *. destruct (stage_and_publish a bundle stage w) as [w' [nd|e]]; [done|].
  assert (wpo (os (λ _, change_output (remove_stage stage))) (λ _, prior) prior w') as Hc by (by apply wpo_os).
  unfold wpo, wp in Hc. by destruct (os _ w') as [w'' [[]|e']].
Qed.
End live.

Section apply.
Context `{Crypto} `{Environment} {S : Type}.

Definition untouched (o0 o : Output.t) : Prop :=
  Output.current o = Output.current o0 ∧ Output.version_map o = Output.version_map o0.
Lemma inspect_untouched path o0 o : untouched o0 o → inspectCurrentLink path o = inspectCurrentLink path o0.
Proof. intros [E1 E2]. unfold inspectCurrentLink. by rewrite E1, E2. Qed.
Lemma inspect_facts path o previous : inspectCurrentLink path o = Ok previous →
  (fst <$> previous) = Output.current o ∧ (∀ t c, previous = Some (t, c) → is_Some (Output.version_map o !! c)).
Proof.
  unfold inspectCurrentLink. destruct (Output.current o) as [target|]; [|by intros [= <-]]. open_guards.
  intros (_ & child & _ & _ & Hs & [= <-]). split_bools. split; [done|]. intros t c [= <- <-]. eauto.
Qed.

(** The link leads where it led, to a version that has not changed; or it leads to
    the new version, which is complete. *)
Definition live_after (a : Activator.t) (bundle : Bundle.t) (o0 o : Output.t) : Prop :=
  (Output.current o = Output.current o0 ∧
   ∀ target child, inspectCurrentLink (outputDir a) o0 = Ok (Some (target, child)) →
     Output.version_map o !! child = Output.version_map o0 !! child) ∨
  (∃ name config, rewritePKIPaths (Bundle.SignedConfig bundle) (outputDir a +:+ "/current") = Ok config ∧
     named bundle name ∧ Output.current o = Some ("versions/" +:+ name) ∧ published name (version_contents bundle config) o).
(** The new version is live and loaded. *)
Definition live_now (a : Activator.t) (bundle : Bundle.t) (o : Output.t) : Prop :=
  ∃ name config, rewritePKIPaths (Bundle.SignedConfig bundle) (outputDir a +:+ "/current") = Ok config ∧
    named bundle name ∧ Output.current o = Some ("versions/" +:+ name) ∧ Output.running o = Output.current o ∧
    published name (version_contents bundle config) o.

Lemma untouched_live a bundle o0 o : untouched o0 o → live_after a bundle o0 o.
Proof. intros [E1 E2]. left. split; [done|]. intros. by rewrite E2. Qed.
Lemma prior_live a bundle o0 o previous : inspectCurrentLink (outputDir a) o0 = Ok previous → prior o0 previous o → live_after a bundle o0 o.
Proof. intros Hi [E1 Hk]. left. split; [done|]. intros t c Hi'. rewrite Hi in Hi'. injection Hi' as ->. by eapply Hk. Qed.
Lemma settled_live a bundle o0 o previous name config : inspectCurrentLink (outputDir a) o0 = Ok previous →
  rewritePKIPaths (Bundle.SignedConfig bundle) (outputDir a +:+ "/current") = Ok config →
  settled o0 previous bundle name (version_contents bundle config) o → live_after a bundle o0 o.
Proof. intros Hi Hc (Hk & Hn & Hp & [E|E]); [eapply prior_live; [done|by split]|right; eauto 10]. Qed.

Lemma wpo_weaken {A} (m : M (world S) A) (Q : A → Output.t → Prop) (P E : Output.t → Prop) w :
  wpo m Q P w → (∀ o, P o → E o) → wpo m Q E w.
Proof. intros Hm HE. by eapply wpo_mono; [exact Hm| |exact HE]. Qed.

Lemma switch_live o0 previous bundle name contents (w : world S) :
  (fst <$> previous) = Output.current o0 → settled o0 previous bundle name contents (output w) →
  wpo (switch_to previous name)
    (λ _ o, settled o0 previous bundle name contents o ∧ Output.current o = Some ("versions/" +:+ name) ∧
            Output.running o = Output.current o)
    (settled o0 previous bundle name contents) w.
Proof.
  intros Hpr HP. unfold switch_to. eapply wpo_bind; [by apply wpo_sync|]. clear dependent w. intros [] w HP.
  eapply wpo_bind; [apply replaceSymlink_settled; [exact HP|by right]|].
  clear dependent w. intros [] w HP. set (L := linked _ _ _ _ _ _) in HP. eapply (wpo_bind _ _ _ _ _ (λ _, L)).
  { apply or_roll_back_settled; [done|]. eapply wpo_mono; [by apply (wpo_sync L)|done|by intros o []]. }
  clear dependent w. intros [] w HP.
  apply (or_roll_back_settled _ _ _ _ _ (λ o, settled o0 previous bundle name contents o ∧
    Output.current o = Some ("versions/" +:+ name) ∧ Output.running o = Output.current o)); [done|].
  apply wpo_os; [apply HP|]. intros _. destruct HP as [Hs Hl]. split_and!; [exact Hs|exact Hl|done].
Qed.

(** Up to the pruning the link and the versions are as they were. *)
Definition prepare (a : Activator.t) : M (world S) (option (string * string)) :=
  _ ← read (λ w, PreflightManagedOutput (outputDir a) (output w));
  _ ← sync_directory;
  _ ← read (λ w, PreflightManagedOutput (outputDir a) (output w));
  _ ← secureManagedOutputDir (outputDir a) (Activator.NodeID a) (Activator.NetworkID a);
  _ ← secureChildDir;
  read (λ w, inspectCurrentLink (outputDir a) (output w)).
Lemma prepare_untouched a o0 (w : world S) : untouched o0 (output w) →
  wpo (prepare a) (λ previous o, untouched o0 o ∧ inspectCurrentLink (outputDir a) o0 = Ok previous) (untouched o0) w.
Proof.
  intros HP. unfold prepare. eapply wpo_bind; [by apply wpo_look|]. clear dependent w. intros [] w HP.
  eapply wpo_bind; [by apply wpo_sync|]. clear dependent w. intros [] w HP.
  eapply wpo_bind; [by apply wpo_look|]. clear dependent w. intros [] w HP.
  eapply wpo_bind; [by apply secure_prior|]. clear dependent w. intros [] w HP.
  eapply wpo_bind; [apply (wpo_os _ (λ _, untouched o0)); [done|intros _; exact HP]|]. clear dependent w. intros [] w HP.
  apply (wpo_read (inspectCurrentLink (outputDir a))); [done|]. intros previous Hi. by rewrite (inspect_untouched _ o0) in Hi.
Qed.
Lemma Apply_prepare a bundle (w : world S) : Apply a bundle w =
  (_ ← lift (validate_pinned a bundle); previous ← prepare a; _ ← pruneVersionsBeforeActivation (snd <$> previous);
   stage ← make_stage; '(name, details) ← unless_published (stage_and_publish a bundle stage) stage;
   _ ← switch_to previous name; mret details) w.
Proof.
  unfold Apply, prepare, mbind, M_bind. destruct (lift _ _) as [w1 [[]|e]]; [|done].
  do 5 (destruct (_ _) as [? [[]|?]]; [|done]). done.
Qed.

Lemma Apply_live a bundle (w : world S) :
  wpo (Apply a bundle) (λ _, live_now a bundle) (live_after a bundle (output w)) w.
Proof.
  eapply wpo_ext; [apply Apply_prepare|].
  set (o0 := output w). assert (untouched o0 (output w)) as HP by done. clearbody o0.
  eapply (wpo_bind _ _ _ _ _ (λ _, untouched o0)).
  { apply wpo_lift; [by apply untouched_live|done]. }
  clear dependent w. intros [] w HP. eapply wpo_bind; [eapply wpo_weaken; [by apply (prepare_untouched a o0)|apply untouched_live]|].
  clear dependent w. intros previous w [[Hcur Hver] Hi]. destruct (inspect_facts _ _ _ Hi) as [Hpr Hsome].
  assert (prior o0 previous (output w)) as HP by (split; [done|intros t c _; by rewrite Hver]). clear Hcur Hver.
  eapply wpo_bind; [eapply wpo_weaken; [by apply (prune_prior o0 previous)|by intros o; apply prior_live]|]. clear dependent w. intros [] w HP.
  eapply wpo_bind; [eapply wpo_weaken; [by apply (make_stage_prior o0 previous)|by intros o; apply prior_live]|]. clear dependent w. intros stage w HP.
  eapply wpo_bind; [eapply wpo_weaken; [by apply (stage_settled o0 previous)|by intros o; apply prior_live]|].
  clear dependent w. intros [name details] w (config & Hc & HP). cbn [fst] in HP.
  eapply wpo_bind; [eapply wpo_weaken; [by apply (switch_live o0 previous bundle name (version_contents bundle config))|
    by intros o; apply settled_live]|].
  clear dependent w. intros [] w (Hs & Hl & Hrun). apply wp_ret. exists name, config. destruct Hs as (_ & ? & ? & _). done.
Qed.
End apply.

(** ** Reading the bundle back *)
(** A component of a cleaned path. *)
Definition component (s : string) : Prop := s ≠ "" ∧ s ≠ "." ∧ s ≠ ".." ∧ contains_char s "/"%char = false.
Lemma clean_step_component rooted acc s : component s → clean_step rooted acc s = s :: acc.
Proof. intros (H1 & H2 & H3 & _). unfold clean_step. rewrite !bool_decide_eq_false_2 by done. done. Qed.
Lemma clean_components rooted l acc : Forall component l → foldl (clean_step rooted) acc l = reverse l ++ acc.
Proof.
  revert acc. induction l as [|s l IH]; intros acc Hl; [done|]. inversion Hl; subst. simpl.
  rewrite clean_step_component, IH by done. by rewrite reverse_cons, <- app_assoc.
Qed.
Lemma split_on_components s : Forall (λ c, contains_char c "/"%char = false) (split_on "/"%char s).
Proof.
  induction s as [|c s IH]; simpl; [by repeat constructor|]. destruct (split_on _ s) as [|x l]; [by repeat constructor|].
  inversion IH; subst. case_bool_decide; repeat constructor; try done. simpl. by rewrite bool_decide_eq_false_2.
Qed.
Lemma clean_rooted l : Forall (λ c, contains_char c "/"%char = false) l → Forall component (foldl (clean_step true) [] l).
Proof.
  assert (∀ acc, Forall component acc → Forall (λ c, contains_char c "/"%char = false) l → Forall component (foldl (clean_step true) acc l)) as H;
    [|by apply H]. induction l as [|s l IH]; intros acc Ha Hl; [done|]. inversion Hl; subst. simpl. apply IH; [|done].
  unfold clean_step. case_bool_decide; [done|]. case_bool_decide; [done|]. simpl. case_bool_decide.
  - destruct acc as [|x acc]; [done|]. inversion Ha as [|?? (_ & _ & Hx & _) Ha']; subst. by rewrite bool_decide_eq_false_2.
  - constructor; [|done]. by repeat split.
Qed.
Lemma split_join l : l ≠ [] → Forall (λ c, contains_char c "/"%char = false) l → split_on "/"%char (join "/" l) = l.
Proof.
  induction l as [|s l IH]; intros Hne Hl; [done|]. inversion Hl; subst. destruct l as [|t l]; simpl; [by apply split_on_word|].
  rewrite (split_on_app "/"%char) by done. f_equal. by apply IH.
Qed.

Lemma join_app a b l : a ≠ [] → join "/" (a ++ b :: l) = join "/" a +:+ "/" +:+ join "/" (b :: l).
Proof.
  induction a as [|s a IH]; [done|]. intros _. destruct a as [|t a]; [done|].
  change (join "/" ((s :: t :: a) ++ b :: l)) with (s +:+ "/" +:+ join "/" ((t :: a) ++ b :: l)).
  rewrite IH by done. change (join "/" (s :: t :: a)) with (s +:+ "/" +:+ join "/" (t :: a)). by rewrite <- !string_app_assoc.
Qed.
(** The link inside a cleaned output directory other than the root. *)
Lemma Clean_link path child : IsAbs path = true → Clean path ≠ "/" → component child →
  Clean (Clean path +:+ "/" +:+ "versions/" +:+ child) = version_path (Clean path) child.
Proof.
  intros Ha Hr Hc. unfold Clean at 2 3. unfold Clean in Hr. rewrite Ha in Hr |- *. cbv zeta in Hr |- *.
  set (l := reverse (foldl (clean_step true) [] (split_on "/"%char path))) in Hr |- *.
  assert (Forall component l) as Hl by apply Forall_reverse, clean_rooted, split_on_components.
  assert (l ≠ []) as Hne by (intros E; by rewrite E in Hr). clearbody l.
  assert (component "versions") as Hv by (by repeat split).
  assert (Forall component (l ++ ["versions"; child])) as Hall by (apply Forall_app; split; [done|]; by apply Forall_cons; split; [|apply Forall_singleton]).
  assert (("/" +:+ join "/" l) +:+ "/" +:+ "versions/" +:+ child = "/" +:+ join "/" (l ++ ["versions"; child])) as E.
  { rewrite join_app by done. by rewrite string_app_assoc. }
  unfold version_path. change ("/versions/" +:+ child) with ("/" +:+ "versions/" +:+ child). rewrite E. unfold Clean.
  change (IsAbs ("/" +:+ ?x)) with true. cbv zeta. pose proof (split_on_app "/"%char "") as Hsplit.
  setoid_rewrite (Hsplit _ eq_refl). rewrite split_join; [|by destruct l|by eapply Forall_impl; [exact Hall|intros x (_ & _ & _ & ?)]].
  change (foldl (clean_step true) [] ("" :: ?x)) with (foldl (clean_step true) [] x).
  by rewrite clean_components, app_nil_r, reverse_involutive.
Qed.

Definition plain (c : Z) : bool := negb (c =? 47) && (0 <=? c) && (c <? 256).
Lemma plain_word l : forallb plain l = true → contains_char (string_of l) "/"%char = false.
Proof.
  induction l as [|c l IH]; simpl; [done|]. unfold plain at 1. intros. split_bools. rewrite orb_false_iff. split; [|by apply IH].
  apply bool_decide_eq_false. intros E. apply (f_equal byte_of) in E. change (byte_of "/"%char) with 47 in E.
  unfold byte_of, char_of in E. rewrite N_ascii_embedding in E by lia. lia.
Qed.
Lemma plain_impl (cls : Z → bool) l : (∀ c, cls c = true → plain c = true) → forallb cls l = true → forallb plain l = true.
Proof. intros Hc. rewrite !forallb_forall. auto. Qed.
#[local] Transparent Itoa.
Lemma plain_digits z : 0 ≤ z → forallb plain (bytes_of (Itoa z)) = true.
Proof.
  intros Hz. assert (∀ x s, forallb plain (bytes_of s) = true → forallb plain (bytes_of (pretty_N_go x s)) = true) as Hgo.
  { intros x. induction (N.lt_wf_0 x) as [x _ IH]; intros s Hs.
    destruct (decide (x = 0)%N) as [->|]; [by rewrite pretty_N_go_0|].
    rewrite pretty_N_go_step by lia. apply IH; [apply N.div_lt; lia|]. simpl. rewrite Hs, andb_true_r.
    unfold pretty_N_char. by repeat case_match. }
  unfold Itoa, pretty, pretty_Z. destruct z as [|p|p]; [done| |lia]. by apply (Hgo (N.pos p) "").
Qed.
#[local] Opaque Itoa.
Lemma plain_take n l : forallb plain l = true → forallb plain (take n l) = true.
Proof. rewrite !forallb_forall. intros H x Hx%list_elem_of_In. apply elem_of_take in Hx as (i & Hi & _). by eapply H, list_elem_of_In, list_elem_of_lookup_2. Qed.
Lemma plain_bytes l : forallb plain l = true → Forall is_byte l.
Proof. rewrite Forall_forall, forallb_forall. intros H x Hx%list_elem_of_In%H. unfold plain in Hx. unfold is_byte. lia. Qed.
Lemma plain_app a b : forallb plain (bytes_of a) = true → forallb plain (bytes_of b) = true → forallb plain (bytes_of (a +:+ b)) = true.
Proof. intros Ha Hb. by rewrite bytes_of_app, forallb_app, Ha, Hb. Qed.
Lemma plain_string l : forallb plain l = true → forallb plain (bytes_of (string_of l)) = true.
Proof. intros Hl. by rewrite bytes_of_string_of by by apply plain_bytes. Qed.
Lemma plain_b64 l : Forall is_byte l → forallb plain (bytes_of (b64_encode l)) = true.
Proof.
  intros Hl. apply plain_string, forallb_forall. intros c Hc%list_elem_of_In. apply list_elem_of_fmap in Hc as (d & -> & Hd).
  pose proof (b64_pack_digits _ Hl) as Hp. rewrite Forall_forall in Hp. specialize (Hp d Hd). unfold plain, b64_char.
  repeat case_match; lia.
Qed.

(** The random source yields bytes. *)
Definition random_bytes `{Environment} : Prop := ∀ n l, random n = Ok l → Forall is_byte l.

Lemma version_name_component `{Environment} bundle name : random_bytes → 1 ≤ Bundle.Revision bundle →
  validDigest (Bundle.Digest bundle) = true → named bundle name → component name.
Proof.
  intros Hr Hrev Hd (n & suffix & Hs & ->). unfold random_text, GenerateBearer in Hs. inv_ok. apply Hr in H0.
  assert (forallb plain (bytes_of (version_name bundle suffix)) = true) as Hp.
  { unfold version_name, version_prefix, pad20. subst suffix. repeat apply plain_app; try done.
    - apply plain_string. apply forallb_forall. intros x Hx%list_elem_of_In%elem_of_replicate. destruct Hx as [-> _]. done.
    - apply plain_digits. lia.
    - apply plain_string, plain_take. rewrite validDigest_fingerprint in Hd. unfold fingerprintPattern in Hd. split_bools.
      eapply plain_impl; [|eassumption]. intros c. unfold AuditLog.hex_digit, digit, plain. lia.
    - by apply plain_string, plain_take, plain_b64. }
  repeat split; [done..|]. apply plain_word in Hp. by rewrite string_of_bytes_of in Hp.
Qed.

Lemma strip_prefix_app p l : strip_prefix p (p ++ l) = Some l.
Proof. induction p as [|c p IH]; simpl; [done|]. by rewrite Z.eqb_refl. Qed.
(** The two files whose size is not checked before they are written. *)
Definition readable (bundle : Bundle.t) (config : string) : bool :=
  fits (Text config) && fits (Metadata (Bundle.metadata bundle)).
Definition bundle_texts (bundle : Bundle.t) : list string :=
  [Bundle.SignedConfig bundle; Bundle.CACertificate bundle; Bundle.Certificate bundle; Bundle.PrivateKey bundle; Bundle.PublicKey bundle].
Lemma within_fits text : within_size text = true → fits (Text text) = true.
Proof. unfold within_size. intros H. apply andb_prop in H as [_ H]. exact H. Qed.
Lemma read_version bundle config : Forall (λ text, within_size text = true) (bundle_texts bundle) →
  if readable bundle config then read_bundle (version_contents bundle config) = Ok (bundle, config)
  else is_ok (read_bundle (version_contents bundle config)) = false.
Proof.
  intros Hs. unfold bundle_texts in Hs. rewrite !Forall_cons in Hs. destruct Hs as (H1 & H2 & H3 & H4 & H5 & _).
  assert (∀ f, readSecureBundleFile (Some f) = if fits f then Ok f else Err (ErrOther "bundle file exceeds size limit")) as Hr
    by (intros f; unfold readSecureBundleFile; simpl; by destruct (fits f)).
  unfold read_bundle, text_of, secure_text.
  change (version_contents bundle config !! "metadata.json") with (Some (Metadata (Bundle.metadata bundle))).
  change (version_contents bundle config !! "config.signed.yml") with (Some (Text (Bundle.SignedConfig bundle))).
  change (version_contents bundle config !! "config.yml") with (Some (Text config)).
  change (version_contents bundle config !! "ca.crt") with (Some (Text (Bundle.CACertificate bundle))).
  change (version_contents bundle config !! "host.crt") with (Some (Text (Bundle.Certificate bundle))).
  change (version_contents bundle config !! "host.key") with (Some (Text (Bundle.PrivateKey bundle))).
  change (version_contents bundle config !! "host.pub") with (Some (Text (Bundle.PublicKey bundle))).
  rewrite !Hr, (within_fits _ H1), (within_fits _ H2), (within_fits _ H3), (within_fits _ H4), (within_fits _ H5). unfold readable. destruct (fits (Text config)), (fits (Metadata (Bundle.metadata bundle)));
    [destruct bundle; reflexivity|reflexivity..].
Qed.

Section readback.
Context `{Crypto} `{Environment} {S : Type}.

Lemma Apply_checks a bundle (w w' : world S) d : Apply a bundle w = (w', Ok d) →
  validate_pinned a bundle = Ok tt ∧ outputDir a ≠ "/".
Proof.
  unfold Apply. intros Hr. apply run_bind in Hr as ([] & w1 & Hv & Hr). injection Hv as _ Hv. split; [done|].
  apply run_bind in Hr as (u & w2 & Hp & Hr). clear Hr. unfold read, act in Hp. repeat case_match; try done. injection Hp as _ Hp.
  unfold PreflightManagedOutput in Hp. apply guard_iff in Hp as [Hp _]. intros E. by rewrite E in Hp.
Qed.

Lemma live_now_reads a bundle o : random_bytes → IsAbs (Activator.OutputDir a) = true → outputDir a ≠ "/" →
  validate_pinned a bundle = Ok tt → live_now a bundle o →
  ∃ config, rewritePKIPaths (Bundle.SignedConfig bundle) (outputDir a +:+ "/current") = Ok config ∧
    if readable bundle config then ∃ contents, live_bundle a o = Ok (bundle, contents) else is_ok (live_bundle a o) = false.
Proof.
  intros Hr Ha Hroot Hv (name & config & Hc & Hn & Hl & _ & v & Hlv & Hcon). exists config. split; [done|].
  assert (Forall (λ text, within_size text = true) (bundle_texts bundle)) as Hsizes.
  { revert Hv. unfold validate_pinned, validateBundle. open_guards. intros (_ & _ & _ & [] & _ & _ & _ & Hx & _). apply negb_false_iff in Hx.
    apply Forall_forall. intros text Ht%list_elem_of_In. rewrite forallb_forall in Hx. by apply Hx. }
  pose proof (read_version bundle config Hsizes) as Hread.
  assert (component name) as Hname.
  { revert Hv. unfold validate_pinned, validateBundle. open_guards. intros (_ & _ & Hx & _). split_bools.
    eapply version_name_component; eauto. lia. }
  unfold live_bundle, live_contents, inspectCurrentLink. rewrite Hl.
  change (IsAbs ("versions/" +:+ name)) with false. unfold outputDir in *. rewrite Clean_link by done. unfold version_path.
  rewrite <- (string_app_assoc (Clean (Activator.OutputDir a)) "/versions/" name).
  rewrite (bytes_of_app (_ +:+ "/versions/") name), strip_prefix_app. cbn [fmap option_fmap option_map of_option]. rewrite string_of_bytes_of.
  destruct Hname as (N1 & _ & _ & N2). cbn [mbind result_bind fail_if]. rewrite N2, (bool_decide_eq_false_2 _ N1).
  cbn [mbind result_bind fail_if orb]. rewrite bool_decide_eq_true_2 by eauto. cbn [mbind result_bind fail_if negb of_option].
  rewrite Hlv. cbn [mbind result_bind of_option]. rewrite Hcon. destruct (readable bundle config).
  - exists (version_contents bundle config). rewrite Hread. cbn [mbind result_bind].
    rewrite Hv. cbn [mbind result_bind]. rewrite Hc. cbn [mbind result_bind]. by rewrite bool_decide_eq_true_2.
  - by destruct (read_bundle _).
Qed.

(** C6: wherever an activation fails or the process stops, the link leads where it led,
    to a version that has not changed, or to the new version, which is complete;
    after a success the new version is live and Nebula has loaded it.  The bundle is
    then read back from the directory exactly as it was given, unless config.yml,
    with its paths rewritten, or metadata.json exceeds the limit on files that is
    applied when they are read and not when they are written: then it cannot be read
    back.  (For an output directory with an absolute path and a random source that
    yields bytes.) *)
Theorem activation_keeps_a_live_bundle a bundle (w w' : world S) r :
  random_bytes → IsAbs (Activator.OutputDir a) = true → Apply a bundle w = (w', r) →
  match r with
  | Ok _ => live_now a bundle (output w') ∧
      ∃ config, rewritePKIPaths (Bundle.SignedConfig bundle) (outputDir a +:+ "/current") = Ok config ∧
        if readable bundle config then ∃ contents, live_bundle a (output w') = Ok (bundle, contents)
        else is_ok (live_bundle a (output w')) = false
  | Err _ => live_after a bundle (output w) (output w')
  end.
Proof.
  intros Hr Ha Hrun. pose proof (Apply_live a bundle w) as Hl. unfold wpo, wp in Hl. rewrite Hrun in Hl. destruct r as [d|e]; [|done].
  destruct (Apply_checks _ _ _ _ _ Hrun) as [Hv Hroot]. split; [done|]. by apply live_now_reads.
Qed.
End readback.

(** ** The number of versions *)
Section retention.
Context `{Crypto} `{Environment} {S : Type}.

Definition listed (o : Output.t) : list string :=
  filter (λ name, validStagingName name = false) (map_to_list (Output.version_map o)).*1.
Definition bounded (n : nat) (o : Output.t) : Prop := (length (listed o) ≤ n)%nat.
Definition within (keep : list string) (o : Output.t) : Prop := ∀ name, name ∈ listed o → name ∈ keep.

Lemma listed_entries o :
  listed o = (filter (λ entry : string * Version.t, validStagingName (fst entry) = false) (map_to_list (Output.version_map o))).*1.
Proof.
  unfold listed. induction (map_to_list _) as [|entry l IH]; [done|]. cbn [fmap list_fmap]. rewrite !filter_cons.
  case_decide; [|done]. cbn [fmap list_fmap]. by f_equal.
Qed.
Lemma elem_of_listed name o : name ∈ listed o ↔ validStagingName name = false ∧ is_Some (Output.version_map o !! name).
Proof.
  unfold listed. rewrite list_elem_of_filter, list_elem_of_fmap. split.
  - intros (Hs & [n v] & -> & Hv%elem_of_map_to_list). eauto.
  - intros (Hs & v & Hv). split; [done|]. exists (name, v). by rewrite elem_of_map_to_list.
Qed.
Lemma listed_NoDup o : NoDup (listed o).
Proof. apply NoDup_filter, NoDup_fst_map_to_list. Qed.
Lemma within_bounded keep o : within keep o → bounded (length keep) o.
Proof. intros Hw. apply submseteq_length, NoDup_submseteq; [apply listed_NoDup|exact Hw]. Qed.
Lemma bounded_mono m n o : bounded m o → (m ≤ n)%nat → bounded n o.
Proof. unfold bounded. lia. Qed.

(** Removing files or versions adds no version. *)
Lemma within_file keep version name o : within keep o → within keep (remove_file version name o).
Proof.
  intros Hw x [Hs Hx]%elem_of_listed. apply Hw, elem_of_listed. split; [done|]. revert Hx. unfold remove_file, Output.version_map at 1.
  cbn. by rewrite lookup_alter_is_Some.
Qed.
Lemma within_version keep version o : within (version :: keep) o → within keep (remove_version version o).
Proof.
  intros Hw x [Hs Hx]%elem_of_listed. revert Hx. unfold remove_version, Output.version_map at 1. cbn.
  rewrite lookup_delete_is_Some. intros [Hne Hx]. assert (x ∈ version :: keep) as Hin by (by apply Hw, elem_of_listed). set_solver.
Qed.
Lemma remove_files_keeps (P : Output.t → Prop) version names (w : world S) : (∀ name o, P o → P (remove_file version name o)) →
  P (output w) → wpo (remove_files version names) (λ _, P) P w.
Proof.
  intros Hf. revert w. induction names as [|name names IH]; intros w HP; simpl; [done|].
  eapply wpo_bind; [apply (wpo_os _ (λ _, P)); [done|intros _; by apply Hf]|by intros; apply IH].
Qed.
Lemma prune_others_within keep current retained names (w : world S) : within keep (output w) → within (retained ++ names) (output w) →
  wpo (prune_others current retained names) (λ _, within retained) (within keep) w.
Proof.
  revert w. induction names as [|name names IH]; intros w HK HP; simpl; [by rewrite app_nil_r in HP|].
  destruct (contains retained name) eqn:Ec.
  { apply IH; [done|]. apply contains_true in Ec. intros x Hx. specialize (HP x Hx). set_solver. }
  set (P := λ o, within keep o ∧ within (retained ++ name :: names) o).
  assert (P (output w)) as HPw by done. assert (∀ o, P o → within keep o) as HPk by (by intros o []). clear HK HP Ec.
  eapply wpo_bind; [by apply (wpo_lift _ (λ _, P)); auto|]. clear dependent w. intros [] w HP.
  eapply (wpo_bind _ _ _ _ _ (λ _ o, within keep o ∧ within (retained ++ names) o)); [|clear dependent w; intros _ w []; by apply IH].
  unfold removeCompleteVersionDirectory. eapply wpo_bind; [eapply wpo_weaken; [by apply (wpo_look _ P)|done]|]. clear dependent w. intros ? w [HK HP].
  eapply (wpo_bind _ _ _ _ _ (λ _, P)).
  { apply (wpo_weaken _ _ P); [|done]. apply remove_files_keeps; [|done]. intros x o []. by split; apply within_file. }
  clear dependent w. intros ? w [HK HP]. apply wpo_os; [done|].
  intros _. split; apply within_version; intros x Hx; [specialize (HK x Hx)|specialize (HP x Hx)]; set_solver.
Qed.

Lemma fill_retained_length kept names : (length kept ≤ retainBeforeActivation)%nat →
  (length (fill_retained kept names) ≤ retainBeforeActivation)%nat.
Proof.
  revert kept. induction names as [|name names IH]; intros kept Hk; simpl; [done|]. destruct (Nat.eqb_spec (length kept) retainBeforeActivation); [done|].
  apply IH. case_match; [done|]. rewrite length_app. simpl. lia.
Qed.
Lemma retained_length current names : (length (retained_versions current names) ≤ retainBeforeActivation)%nat.
Proof. apply fill_retained_length. unfold retainBeforeActivation, maxRetainedBundleVersions. destruct current; simpl; lia. Qed.

(** A pruning leaves at most four versions; where it stops early it has added none. *)
Lemma prune_bounded current n (w : world S) : bounded n (output w) →
  wpo (pruneVersionsBeforeActivation current) (λ _, bounded retainBeforeActivation) (bounded n) w.
Proof.
  intros HP. unfold pruneVersionsBeforeActivation.
  eapply (wpo_bind _ _ _ _ _ (λ versions o, bounded n o ∧ versions = Output.version_map o)).
  { apply (wpo_read (λ o, Ok (Output.version_map o))); [done|]. by intros ? [= <-]. }
  clear dependent w. intros versions w [HP ->]. cbv zeta. set (entries := filter _ _).
  assert (listed (output w) = entries.*1) as El by apply listed_entries.
  assert (within entries.*1 (output w)) as Hin by (by intros x; rewrite El).
  assert (length entries ≤ n)%nat as Hn by (unfold bounded in HP; by rewrite El, length_fmap in HP).
  assert (∀ o, within entries.*1 o → bounded n o) as Hb.
  { intros o Hw. eapply bounded_mono; [by apply within_bounded|]. by rewrite length_fmap. }
  clear HP El. clearbody entries. eapply wpo_bind; [by apply (wpo_lift _ (λ _, within entries.*1)); auto|]. clear dependent w. intros [] w Hin.
  eapply wpo_bind; [by apply (wpo_lift _ (λ _, within entries.*1)); auto|]. clear dependent w. intros [] w Hin.
  destruct (Nat.leb_spec (length entries) retainBeforeActivation) as [Hle|Hgt].
  { apply wp_ret. eapply bounded_mono; [by apply within_bounded|]. by rewrite length_fmap. }
  set (names := (sort_by newer (dated <$> entries)).*1).
  assert (∀ x, x ∈ entries.*1 → x ∈ names) as Hnames.
  { intros x. unfold names. rewrite (sort_by_perm newer), <- list_fmap_compose. done. }
  eapply wpo_bind; [eapply wpo_weaken; [apply (prune_others_within entries.*1); [done|]|done]|].
  { intros x Hx%Hin%Hnames. set_solver. }
  clear dependent w. intros [] w Hw. set (retained := retained_versions _ _) in Hw.
  assert (bounded retainBeforeActivation (output w)) as Hr.
  { eapply bounded_mono; [by apply within_bounded|apply retained_length]. }
  apply wpo_id; [|done]. eapply bounded_mono; [exact Hr|lia].
Qed.
Lemma bounded_same n o o' : Output.version_map o' = Output.version_map o → bounded n o → bounded n o'.
Proof. intros E. unfold bounded, listed. by rewrite E. Qed.
Lemma publish_bounded n stage name v o : bounded n o → bounded (1 + n) (publish stage name v o).
Proof.
  intros Hb. eapply (bounded_mono (length (name :: listed o))); [|unfold bounded in Hb; simpl; lia]. apply within_bounded. intros x [Hs Hx]%elem_of_listed.
  revert Hx. unfold publish, Output.version_map at 1. cbn. rewrite lookup_insert_is_Some'. intros [<-|Hx]; [set_solver|].
  right. by apply elem_of_listed.
Qed.
Lemma switch_bounded n previous name (w : world S) : bounded n (output w) → wpo (switch_to previous name) (λ _, bounded n) (bounded n) w.
Proof.
  assert (∀ target (w : world S), bounded n (output w) → wpo (replaceSymlink target) (λ _, bounded n) (bounded n) w) as Hlink.
  { clear. intros target w HP. unfold replaceSymlink. eapply wpo_bind; [by apply (wpo_ask _ (λ _, bounded n))|]. clear dependent w. intros text w HP.
    cbv zeta. eapply wpo_bind; [by apply (wpo_os _ (λ _, bounded n))|]. clear dependent w. intros [] w HP. apply wpo_finally; [by apply wpo_os|].
    intros P w' HP' Hw. apply wpo_os; [done|]. intros _. destruct HP' as [->|[a ->]]; exact Hw. }
  assert (∀ m (w : world S), wpo m (λ _, bounded n) (bounded n) w → wpo (or_roll_back previous m) (λ _, bounded n) (bounded n) w) as Hroll.
  { clear w. intros m w Hm. unfold or_roll_back. eapply (wpo_bind _ _ _ _ _ (λ _, bounded n)); [apply wpo_try; by eapply wpo_mono; [exact Hm|..]|].
    clear dependent w. intros [u|e] w HP; [done|]. eapply (wpo_bind _ _ _ _ _ (λ _, bounded n)); [|intros; by apply wpo_lift].
    unfold rollback. eapply (wpo_bind _ _ _ _ _ (λ _, bounded n)); [destruct previous as [[t c]|]; [by apply Hlink|by apply wpo_os]|].
    clear dependent w. intros _ w HP. eapply wpo_bind; [by apply wpo_sync|]. clear dependent w. intros [] w HP.
    destruct previous; [by apply wpo_os|done]. }
  intros HP. unfold switch_to. eapply wpo_bind; [by apply wpo_sync|]. clear dependent w. intros [] w HP.
  eapply wpo_bind; [by apply Hlink|]. clear dependent w. intros [] w HP.
  eapply wpo_bind; [by apply Hroll, wpo_sync|]. clear dependent w. intros [] w HP. by apply Hroll, wpo_os.
Qed.
Lemma stage_bounded n a bundle stage (w : world S) : bounded n (output w) →
  wpo (unless_published (stage_and_publish a bundle stage) stage) (λ _, bounded (1 + n)) (bounded n) w.
Proof.
  intros HP. assert (wpo (stage_and_publish a bundle stage) (λ _, bounded (1 + n)) (bounded n) w) as Hs.
  { unfold stage_and_publish. do 2 (eapply wpo_bind; [by apply (wpo_lift _ (λ _, bounded n))|]; clear dependent w; intros ? w HP).
    eapply wpo_bind; [by apply wpo_sync|]. clear dependent w. intros [] w HP.
    eapply wpo_bind; [by apply wpo_Validate|]. clear dependent w. intros details w HP.
    eapply wpo_bind; [by apply (wpo_lift _ (λ _, bounded n))|]. clear dependent w. intros [] w HP.
    eapply wpo_bind; [by apply wpo_sync|]. clear dependent w. intros [] w HP.
    eapply wpo_bind; [by apply (wpo_ask _ (λ _, bounded n))|]. clear dependent w. intros suffix w HP. cbv zeta.
    eapply (wpo_bind _ _ _ _ _ (λ _, bounded (1 + n))); [|by intros; apply wp_ret].
    apply wp_act; [intros w' [_ Ho _ _] _; by rewrite Ho|]. intros k w' [_ Ho _ _] _. unfold wp.
    destruct (fault k); [by rewrite Ho|]. case_bool_decide; [by rewrite Ho|]. apply publish_bounded. by rewrite Ho. }
  unfold wpo, wp, unless_published in *. destruct (stage_and_publish a bundle stage w) as [w' [nd|e]]; [done|].
  assert (wpo (os (λ _, change_output (remove_stage stage))) (λ _, bounded n) (bounded n) w') as Hc by (by apply wpo_os).
  unfold wpo, wp in Hc. by destruct (os _ w') as [w'' [[]|e']].
Qed.

(** C27: a successful activation leaves at most five versions in the directory, and one
    that fails or is interrupted anywhere leaves no more than there were, or five. *)
Theorem activation_bounds_versions a bundle (w w' : world S) r :
  Apply a bundle w = (w', r) →
  (length (listed (output w')) ≤
     if is_ok r then maxRetainedBundleVersions else maxRetainedBundleVersions `max` length (listed (output w)))%nat.
Proof.
  intros Hr. set (n := (maxRetainedBundleVersions `max` length (listed (output w)))%nat).
  assert (∀ m o, bounded m o → (m ≤ maxRetainedBundleVersions)%nat → bounded n o) as Hle by (intros m o Hb ?; eapply bounded_mono; [exact Hb|lia]).
  assert (wpo (Apply a bundle) (λ _, bounded maxRetainedBundleVersions) (bounded n) w) as Hw.
  2: { unfold wpo, wp in Hw. rewrite Hr in Hw. by destruct r. }
  assert (bounded n (output w)) as HP by (unfold bounded; lia). clearbody n. clear Hr.
  assert (∀ o, untouched (output w) o → bounded n o) as Hun by (intros o [_ E]; by eapply bounded_same).
  eapply wpo_ext; [apply Apply_prepare|]. eapply (wpo_bind _ _ _ _ _ (λ _, untouched (output w))); [by apply wpo_lift|].
  intros [] w1 H1. eapply wpo_bind; [eapply wpo_weaken; [by apply (prepare_untouched a (output w))|done]|].
  intros previous w2 [H2%Hun _]. clear dependent w w1. rename w2 into w.
  eapply wpo_bind; [by apply prune_bounded|]. clear dependent w. intros [] w HP.
  assert (retainBeforeActivation ≤ maxRetainedBundleVersions)%nat as H4 by (unfold retainBeforeActivation; lia).
  eapply (wpo_bind _ _ _ _ _ (λ _, bounded retainBeforeActivation)).
  { eapply wpo_weaken; [|intros o Ho; by eapply Hle]. unfold make_stage. eapply wpo_bind; [by apply (wpo_ask _ (λ _, bounded retainBeforeActivation))|].
    clear dependent w. intros st w HP. eapply wpo_bind; [by apply (wpo_os _ (λ _, bounded retainBeforeActivation))|]. by intros [] w2 HP2. }
  clear dependent w. intros stage w HP. eapply wpo_bind; [eapply wpo_weaken; [by apply stage_bounded|intros o Ho; by eapply Hle]|].
  clear dependent w. intros [name details] w HP. change (1 + retainBeforeActivation)%nat with maxRetainedBundleVersions in HP.
  eapply wpo_bind; [eapply wpo_weaken; [by apply switch_bounded|intros o Ho; by eapply Hle]|]. clear dependent w. intros [] w HP. by apply wp_ret.
Qed.
End retention.

(** ** Interrupted activations *)
Section blocked.
Context `{Crypto} {S : Type}.

(** Another entry in the output directory, or a version that is not complete. *)
Definition leftover (o : Output.t) : Prop := Output.foreign o ≠ ∅.
Definition torn (o : Output.t) : Prop :=
  ∃ name v, Output.version_map o !! name = Some v ∧ validStagingName name = false ∧ is_ok (check_entry (name, v)) = false.

Lemma leftover_refused path o : leftover o → is_ok (PreflightManagedOutput path o) = false.
Proof.
  intros Hl. unfold PreflightManagedOutput. destruct (isProtectedOutputPath path); [done|]. simpl.
  destruct (unused o) eqn:E; [apply bool_decide_eq_true in E; by destruct E as (_ & E & _), Hl|]. by rewrite (bool_decide_eq_false_2 (Output.foreign o = ∅)).
Qed.
Lemma check_entries_refused l entry : entry ∈ l → is_ok (check_entry entry) = false → is_ok (check_entries l) = false.
Proof.
  induction 1 as [entry l|entry x l _ IH]; intros He; simpl; [by destruct (check_entry entry)|].
  destruct (check_entry x) as [[]|]; [by apply IH|done].
Qed.

Lemma leftover_blocks (env : Environment) a bundle (w w' : world S) r : leftover (output w) → Apply a bundle w = (w', r) →
  is_ok r = false ∧ output w' = output w.
Proof.
  intros Hl Hr. assert (wpo (Apply a bundle) (λ _ _, False) (λ o, o = output w) w) as Hw.
  { unfold Apply. eapply (wpo_bind _ _ _ _ _ (λ _ o, o = output w)); [by apply wpo_lift|]. intros [] v Hv.
    eapply (wpo_bind _ _ _ _ _ (λ _ _, False)); [|done]. apply (wpo_read (PreflightManagedOutput (outputDir a))); [done|].
    intros u Hp. rewrite Hv in Hp. pose proof (leftover_refused (outputDir a) _ Hl) as Hf. by rewrite Hp in Hf. }
  unfold wpo, wp in Hw. rewrite Hr in Hw. by destruct r.
Qed.
Lemma torn_blocks (env : Environment) a bundle (w w' : world S) r : torn (output w) → Apply a bundle w = (w', r) →
  is_ok r = false ∧ untouched (output w) (output w').
Proof.
  intros (name & v & Hv & Hs & He) Hr. assert (wpo (Apply a bundle) (λ _ _, False) (untouched (output w)) w) as Hw.
  { eapply wpo_ext; [apply Apply_prepare|]. eapply (wpo_bind _ _ _ _ _ (λ _, untouched (output w))); [by apply wpo_lift|].
    intros [] w1 H1. eapply wpo_bind; [by apply prepare_untouched|]. intros previous w2 [[H2 H2'] _].
    eapply (wpo_bind _ _ _ _ _ (λ _ _, False)); [|done]. unfold pruneVersionsBeforeActivation.
    eapply (wpo_bind _ _ _ _ _ (λ versions o, untouched (output w) o ∧ versions = Output.version_map (output w))).
    { apply (wpo_read (λ o, Ok (Output.version_map o))); [done|]. intros ? [= <-]. by rewrite H2'. }
    intros versions w3 [H3 ->]. cbv zeta. eapply (wpo_bind _ _ _ _ _ (λ _ _, False)); [|done]. apply wpo_lift; [done|].
    intros u Hc. assert (is_ok (check_entries (filter (λ entry, validStagingName (fst entry) = false)
      (map_to_list (Output.version_map (output w))))) = false) as Hf; [|by rewrite Hc in Hf].
    eapply check_entries_refused; [|exact He]. apply list_elem_of_filter. split; [done|]. by apply elem_of_map_to_list. }
  unfold wpo, wp in Hw. rewrite Hr in Hw. by destruct r.
Qed.
(** *** An interrupted replacement of the link *)
(** Later attempts, each after a restart and under its own environment. *)
Definition restarted (w : world S) : world S := w <| halted := false |>.
Definition attempt (w w' : world S) : Prop := ∃ (env : Environment) a bundle, w' = fst (Apply a bundle (restarted w)).
Lemma leftover_stays w w' : rtc attempt w w' → leftover (output w) → output w' = output w.
Proof.
  induction 1 as [|w1 w2 w3 (env & a & bundle & ->) _ IH]; [done|]. intros Hl. destruct (Apply a bundle (restarted w1)) as [w2 r] eqn:E.
  destruct (leftover_blocks env a bundle (restarted w1) w2 r Hl E) as [_ Eo]. cbn in *. rewrite IH; by rewrite Eo.
Qed.

(** C39: where the process stops after it made the new link and before it renamed it, the
    temporary link stays: every later activation, of whatever bundle, in whatever
    environment and however often it is repeated, then fails. *)
Theorem interrupted_switch_blocks (env : Environment) target text (w w1 w2 : world S) r :
  halted w = false → random_text (tick w) = Ok text → crashes (tick w) = false →
  crashes (1 + tick w) = false → fault (1 + tick w) = None → crashes (2 + tick w) = true →
  replaceSymlink target w = (w1, r) → rtc attempt w1 w2 →
  ∀ (env' : Environment) a bundle, is_ok (snd (Apply a bundle (restarted w2))) = false.
Proof.
  intros Hh Ht Hc0 Hc1 Hf Hc2 Hr Ha env' a bundle. cbn [Nat.add] in Hc1, Hf, Hc2.
  assert (leftover (output w1)) as Hl.
  { unfold replaceSymlink, mbind, M_bind, ask, act in Hr. rewrite ?Hh in Hr. cbv zeta in Hr. rewrite Hc0, Ht in Hr. unfold os, act in Hr. cbn in Hr.
    rewrite ?Hh in Hr. cbn in Hr. rewrite Hc1, Hf in Hr. unfold finally, act in Hr. cbn in Hr. rewrite ?Hh in Hr. cbn in Hr. rewrite Hc2 in Hr. cbn in Hr.
    injection Hr as <- <-. unfold leftover. cbn. set_solver. }
  pose proof (leftover_stays _ _ Ha Hl) as Eo. destruct (Apply a bundle (restarted w2)) as [w3 r3] eqn:E.
  eapply (leftover_blocks env'); [|exact E]. cbn. by rewrite Eo.
Qed.
End blocked.
