(* ===== verification/AgentControl.v ===== *)
(** * Agents and the control plane together (internal/nodeagent with
    internal/control, over the handlers of internal/httpapi/server.go)

    The control plane of the other files is the server of an agent: the handlers
    authenticate the bearer of the request and pass it to the service.  The agent
    sees an error of the service as its status; only 401 matters to it. *)
From stdpp Require Import gmap.
From S2P Require Import Prelude GoStd Sha256 GoTime IPv4 NetIP Model AuditLog Receipts Routes RouteState Reservations.
From S2P Require Import Firewall RoutePolicies NetworkSettings Render RouteTransfer TransferSafety RouteProfileEdit Credentials Nodes CARotation Networks NodeLifecycle FirewallRollout.
From S2P Require Import SignedConfig Enrollment Recovery AgentOps Revocation CertificateReplacement CredentialSafety Renewal StateGraph Store StoreSafety.
From S2P Require Import AgentState AgentWorld Activation NodeAgent AgentSafety ActivationSafety.
From Stdlib Require Import Ascii.
Open Scope Z_scope.

(** ** The handlers *)
(** What a request draws on the side of the control plane. *)
Record plane := Plane {
  plane_clock : nat → time; plane_event : nat → string; plane_claim : nat → result string;
  plane_others : nat → State.t → State.t }.

Section handlers.
Context `{Crypto, Nebula} (p : plane).

Definition bearerToken (bearer : string) : result string :=
  let token := TrimSpace bearer in
  fail ErrUnauthorized when negb (ValidBearerToken token);;
  Ok token.
(** A transaction commits with its success. *)
Definition committed {A} (s : State.t) (r : result (State.t * A)) : State.t * result A :=
  match r with Ok (s', a) => (s', Ok a) | Err e => (s, Err e) end.

Definition agentConfig (n : nat) (bearer ifNoneMatch : string) (s : State.t) : State.t * result ConfigResponse.t :=
  (s, token ← bearerToken bearer;
      config ← AgentOps.AgentConfig (plane_clock p n) (plane_clock p n) (plane_clock p n) token s s;
      Ok (ConfigResponse.make config (ifNoneMatch == quote (AgentConfig.Signature config)))).
Definition agentBootstrap (n : nat) (bearer : string) (s : State.t) : State.t * result EnrollmentBundle.t :=
  (s, token ← bearerToken bearer; AgentBootstrap (plane_clock p n) (plane_clock p n) (plane_clock p n) token s s).
Definition agentRecover (n : nat) (token publicKey newAgentTokenHash : string) (s : State.t) : State.t * result AgentRecoveryBundle.t :=
  RecoverAgent (plane_claim p n) (plane_event p n) (plane_clock p n) (plane_clock p n) (plane_clock p n) token publicKey
    newAgentTokenHash s (plane_others p n) s.
Definition agentHeartbeat (n : nat) (bearer : string) (input : HeartbeatInput.t) (s : State.t) : State.t * result unit :=
  committed s (token ← bearerToken bearer;
    '(s', _) ← AgentOps.Heartbeat (plane_event p n) (plane_clock p n) (plane_clock p n) token input s s; Ok (s', tt)).
Definition agentConfigApplyFailure (n : nat) (bearer : string) (revision : Z) (digest : string) (s : State.t) : State.t * result unit :=
  committed s (token ← bearerToken bearer;
    s' ← FirewallRollout.ReportConfigApplyFailure (plane_event p n) (plane_clock p n) token
           (ConfigApplyFailureInput.make revision digest ConfigApplyFailureCodeActivation) s s; Ok (s', tt)).
Definition agentRenew (n : nat) (bearer publicKey : string) (s : State.t) : State.t * result RenewalBundle.t :=
  match bearerToken bearer with
  | Err e => (s, Err e)
  | Ok token =>
      Renew (plane_claim p n) (plane_event p n) (plane_clock p n) (plane_clock p n) (plane_clock p n) token publicKey s
        (plane_others p n) s
  end.
Definition agentRotateCredential (n : nat) (bearer newTokenHash : string) (s : State.t) : State.t * result CredentialRotation.t :=
  committed s (token ← bearerToken bearer;
    RotateAgentCredential (plane_event p n) (plane_clock p n) token newTokenHash s s).

Definition control_plane : AgentAPI State.t := {|
  get_config := agentConfig; get_bootstrap := agentBootstrap; post_recover := agentRecover; post_heartbeat := agentHeartbeat;
  post_failure := agentConfigApplyFailure; post_renew := agentRenew; post_rotate := agentRotateCredential |}.
End handlers.

(** ** Words without spaces *)
Definition visible (c : Z) : bool := (33 <=? c) && (c <? 127).
Lemma strip_first_visible ps c l :
  forallb (λ p, match p with x :: _ => negb (visible x) | [] => false end) ps = true → visible c = true → strip_first ps (c :: l) = None.
Proof.
  intros Hp Hc. induction ps as [|q ps IH]; simpl in *; [done|]. apply andb_true_iff in Hp as [Hq Hp]. destruct q as [|x q]; [discriminate Hq|]. split_bools. simpl.
  destruct (Z.eqb_spec x c) as [->|]; [congruence|by apply IH].
Qed.
Lemma trim_front_visible fuel ps l :
  forallb (λ p, match p with x :: _ => negb (visible x) | [] => false end) ps = true → forallb visible l = true → trim_front fuel ps l = l.
Proof.
  intros Hp Hl. destruct fuel; [done|]. simpl. destruct l as [|c l]; [|simpl in Hl; split_bools; by rewrite strip_first_visible].
  assert (strip_first ps [] = None) as ->; [|done]. induction ps as [|[|x q] ps IH]; simpl in *; [done..|]. split_bools. by apply IH.
Qed.
Lemma TrimSpace_visible s : forallb visible (bytes_of s) = true → TrimSpace s = s.
Proof.
  intros Hs. unfold TrimSpace. rewrite (trim_front_visible _ space_encodings); [|vm_compute; reflexivity|exact Hs].
  rewrite (trim_front_visible _ (reverse <$> space_encodings)).
  - by rewrite reverse_involutive, string_of_bytes_of.
  - vm_compute. reflexivity.
  - rewrite forallb_forall in Hs |- *. intros x Hx%list_elem_of_In%elem_of_reverse. rewrite reverse_involutive in Hx. by apply Hs, list_elem_of_In.
Qed.
Lemma visible_b64 l : Forall is_byte l → forallb visible (bytes_of (b64_encode l)) = true.
Proof.
  intros Hl. unfold b64_encode. assert (forallb visible (b64_char <$> b64_pack l) = true) as Hv.
  { apply forallb_forall. intros c Hc%list_elem_of_In. apply list_elem_of_fmap in Hc as (d & -> & Hd).
    pose proof (b64_pack_digits _ Hl) as Hp. rewrite Forall_forall in Hp. specialize (Hp d Hd). unfold visible, b64_char.
    repeat case_match; lia. }
  rewrite bytes_of_string_of; [done|]. rewrite Forall_forall. rewrite forallb_forall in Hv.
  intros x Hx%list_elem_of_In%Hv. unfold visible in Hx. unfold is_byte. lia.
Qed.
Lemma HashToken_trim token : TrimSpace (HashToken token) = HashToken token.
Proof. apply TrimSpace_visible, visible_b64, Sum256_ok. Qed.
Lemma bearer_trim token : ValidBearerToken token = true → TrimSpace token = token.
Proof.
  unfold ValidBearerToken, canonical32. destruct (b64_decode token) as [l|] eqn:E; [|done]. intros Hv. split_bools.
  apply b64_decode_bytes in E. apply TrimSpace_visible. subst token. by apply visible_b64.
Qed.

(** ** Completing a rotation whose answer was lost *)
Section rotation.
Context `{Crypto, Nebula} `{URLs} (p : plane).
#[local] Instance the_plane : AgentAPI State.t := control_plane p.
Import AgentState.

(** The control plane has committed the rotation to the agent's pending bearer, with
    this generation: what the agent's bearers authenticate has that credential. *)
Definition rotation_committed (st : AgentState.t) (generation : Z) (s : State.t) : Prop :=
  ∀ n bearer i node, bearer ∈ [Bearer st; PendingBearer st] → agent_at s (HashToken bearer) (plane_clock p n) = Some (i, node) →
    Node.AgentTokenHash node = HashToken (PendingBearer st) ∧ Node.AgentCredentialGeneration node = generation.

(** The control plane then answers every repetition with the same generation. *)
Lemma committed_answer st generation s n bearer :
  rotation_committed st generation s → bearer ∈ [Bearer st; PendingBearer st] → ValidBearerToken bearer = true →
  ∃ r, agentRotateCredential p n bearer (HashToken (PendingBearer st)) s = (s, r) ∧
    ∀ rotation, r = Ok rotation → CredentialRotation.Generation rotation = generation.
Proof.
  intros Hc Hb Hv. unfold agentRotateCredential, bearerToken, RotateAgentCredential. cbv zeta.
  rewrite !(bearer_trim bearer), HashToken_trim, Hv by done. cbn [negb fail_if mbind result_bind]. rewrite !(bearer_trim bearer), Hv by done.
  destruct (_ || _); [eexists; by split|]. cbn [fail_if mbind result_bind].
  destruct (preflightAgentCredential _ _ _) as [x|e]; [|eexists; by split]. cbn [mbind result_bind].
  destruct (agent_at _ _ _) as [[i node]|] eqn:Ea; [|eexists; by split]. cbn [of_option mbind result_bind].
  destruct (Hc _ _ _ _ Hb Ea) as [Eh Eg]. rewrite Eh, (bool_decide_eq_true_2 (HashToken _ = _)) by done.
  assert (∃ r, committed s (rotation ← current_rotation (plane_clock p n) node; Ok (s, rotation)) = (s, r) ∧
    ∀ rotation, r = Ok rotation → CredentialRotation.Generation rotation = generation) as Hr.
  { unfold current_rotation. destruct (_ || _); eexists; (split; [done|]); [done|]. by intros ? [= <-]. }
  destruct (negb _); exact Hr.
Qed.

Lemma wrap64_next_neq z : wrap64 (z + 1) ≠ z.
Proof. unfold wrap64, int64_min. change (2 ^ 64) with 18446744073709551616. intros E. Z.div_mod_to_equations. lia. Qed.

Lemma Validate_credentials st : Validate st = Ok tt → PendingBearer st ≠ "" →
  ValidBearerToken (Bearer st) = true ∧ ValidBearerToken (PendingBearer st) = true.
Proof.
  unfold Validate. intros Hv Hp. inv_ok. split_bools. rewrite (bool_decide_eq_false_2 _ Hp) in *. simpl in *. by split_bools.
Qed.

Lemma wp_rotate_call (env : Environment) st generation s (E : err → world State.t → Prop) (Q : CredentialRotation.t → world State.t → Prop) w :
  rotation_committed st generation s → Validate st = Ok tt → PendingBearer st ≠ "" → server w = s →
  (∀ e w', files w' = files w → server w' = s → E e w') →
  (∀ r w', files w' = files w → server w' = s → CredentialRotation.Generation r = generation → Q r w') →
  wp (rotate_call st (HashToken (PendingBearer st))) Q E w.
Proof.
  intros Hc Hv Hp Hs HE HQ. destruct (Validate_credentials _ Hv Hp) as [Hb1 Hb2].
  assert (∀ bearer (Q' : CredentialRotation.t → world State.t → Prop) (E' : err → world State.t → Prop) w1, bearer ∈ [Bearer st; PendingBearer st] →
    ValidBearerToken bearer = true → files w1 = files w → server w1 = s → (∀ e w', files w' = files w → server w' = s → E' e w') →
    (∀ r w', files w' = files w → server w' = s → CredentialRotation.Generation r = generation → Q' r w') →
    wp (call (λ n, post_rotate n bearer (HashToken (PendingBearer st)))) Q' E' w1) as Hcall.
  { intros bearer Q' E' w1 Hb Hvb F1 F2 HE' HQ'. apply wp_act; [intros w2 [] _; apply HE'; congruence|].
    intros n w2 [G1 _ G3 _] _. unfold wp. rewrite G3, F2. destruct (committed_answer st generation s n bearer Hc Hb Hvb) as (r & Er & Hr).
    unfold post_rotate. cbn [the_plane control_plane]. rewrite Er. destruct (delivers n); [destruct r| |]; cbn; [|apply HE'..].
    + apply HQ'; [cbn; congruence|done|by apply Hr].
    + cbn; congruence.
    + done.
    + cbn; congruence.
    + congruence.
    + cbn; congruence.
    + done. }
  unfold rotate_call. apply wp_bind, wp_lift; [|by auto]. intros bearer Hn.
  assert (bearer = Bearer st) as ->.
  { unfold NewClient in Hn. inv_ok. rewrite <- Hn. by apply bearer_trim. }
  apply wp_bind, wp_try, Hcall; [set_solver|done|done|done| |].
  - intros e w1 F1 F2. apply wp_bind, wp_lift; [|by auto]. intros _ _. apply wp_bind, wp_lift; [|by auto]. intros pending Hn'.
    assert (pending = PendingBearer st) as -> by (unfold NewClient in Hn'; inv_ok; rewrite <- Hn'; by apply bearer_trim).
    apply Hcall; [set_solver|done|done|done|done|done].
  - intros r w1 F1 F2 Hg. by apply wp_ret, HQ.
Qed.

(** C38: a bootstrap between the commit of a rotation and the repetition of its request
    gives the agent the new generation already.  Every repetition is then refused as
    not monotonic: the agent keeps its old bearer, which ends with its hour of grace,
    and never uses the pending one, under every environment. *)
Theorem bootstrap_strands_rotation (env : Environment) version w w' r st s :
  rotation_committed st (AgentCredentialGeneration st) s → Files.state (files w) = Some st → PendingBearer st ≠ "" → server w = s →
  RotateCredential version w = (w', r) → (∀ rotation, r ≠ Ok rotation) ∧ Files.state (files w') = Some st ∧ server w' = s.
Proof.
  intros Hc Hst Hp Hs Hr.
  assert (wp (RotateCredential version) (λ _ _, False) (λ _ w', Files.state (files w') = Some st ∧ server w' = s) w) as Hw.
  { unfold RotateCredential. assert (∀ w', same w w' → Files.state (files w') = Some st ∧ server w' = s) as Hsame
      by (intros w1 [E1 _ E2 _]; by rewrite E1, E2).
    apply wp_bind. unfold ready. apply wp_bind, wp_lift; [|intros; by apply Hsame, same_refl]. intros _ _.
    apply wp_os; [auto|]. intros _ w1 S1 _. apply wp_bind, wp_read; [intros e w2 S2; by apply Hsame, (same_trans _ w1)|].
    intros st' w2 S2 _ Hl. pose proof (same_trans _ _ _ S1 S2) as S12. destruct (Hsame w2 S12) as [F1 F2]. rewrite F1 in Hl.
    inv_ok. destruct a0. injection H2 as <-. subst st'. apply wp_bind, wp_lift; [intros _ _|by auto].
    apply wp_bind. unfold pending_rotation. rewrite (bool_decide_eq_false_2 _ Hp). apply wp_ret.
    apply wp_bind, (wp_rotate_call env st (AgentCredentialGeneration st) s); [done|done|done|done| |].
    - intros e w3 G1 G2. split; [by rewrite G1|done].
    - intros rot w3 G1 G2 Hg. apply wp_bind, wp_ask; [intros e w4 []; split; [congruence|congruence]|]. intros n now w4 [K1 _ K3 _] _ _.
      apply wp_bind, wp_lift; [|intros; split; congruence]. intros [] Hv. exfalso. unfold validateCredentialRotation in Hv. inv_ok.
      split_bools. apply (wrap64_next_neq (AgentCredentialGeneration st)). lia. }
  unfold wp in Hw. rewrite Hr in Hw. destruct r; [done|]. by split.
Qed.

(** *** A machine that works *)
Record quiet (env : Environment) : Prop := {
  never_crashes n : crashes n = false; never_fails n : fault n = None; always_delivers n : delivers n = Delivered;
  always_saves n : saving n = SaveSynced }.

Lemma quiet_act (env : Environment) {S A} (f : nat → world S → world S * result A) (Q : A → world S → Prop) (E : err → world S → Prop) w :
  quiet env → halted w = false → (∀ n w', same w w' → halted w' = false → wp (f n) Q E w') → wp (act f) Q E w.
Proof. intros Hq Hh Hf. unfold wp, act. rewrite Hh. cbv zeta. rewrite (never_crashes env Hq). by apply (Hf (tick w)). Qed.
Lemma quiet_read (env : Environment) {S A} (f : world S → result A) (Q : A → world S → Prop) (E : err → world S → Prop) w a :
  quiet env → halted w = false → (∀ w', same w w' → f w' = Ok a) → (∀ w', same w w' → halted w' = false → Q a w') → wp (read f) Q E w.
Proof.
  intros Hq Hh Hf HQ. apply quiet_act; [done|done|]. intros n w' Hs Hh'. unfold wp. rewrite (never_fails env Hq), Hf by done. by apply HQ.
Qed.
Lemma quiet_ready (env : Environment) {S} version (Q : unit → world S → Prop) (E : err → world S → Prop) w :
  quiet env → halted w = false → (TrimSpace version == "") || (64 <? len version) = false →
  (∀ w', same w w' → halted w' = false → Q tt w') → wp (ready version) Q E w.
Proof.
  intros Hq Hh Hv HQ. unfold ready. apply wp_bind. rewrite Hv. unfold wp at 1, lift, fail_if. apply quiet_act; [done|done|].
  intros n w' Hs Hh'. unfold wp. rewrite (never_fails env Hq). by apply HQ.
Qed.
Lemma quiet_Load (env : Environment) {S} st (Q : AgentState.t → world S → Prop) (E : err → world S → Prop) w :
  quiet env → halted w = false → Files.state (files w) = Some st → Validate st = Ok tt →
  (∀ w', same w w' → halted w' = false → Q st w') → wp Load Q E w.
Proof.
  intros Hq Hh Hf Hv HQ. eapply quiet_read; [done|done| |exact HQ]. intros w' [E1 _ _ _]. rewrite E1, Hf. simpl. by rewrite Hv.
Qed.
Lemma quiet_Save (env : Environment) {S} st old (Q : unit → world S → Prop) (E : err → world S → Prop) w :
  quiet env → halted w = false → Files.state (files w) = Some old → Validate old = Ok tt → Validate (written st) = Ok tt → Version st = StateSchemaVersion →
  (∀ w', halted w' = false → Files.state (files w') = Some (written st) → Files.synced (files w') = Some (written st) →
     server w' = server w → output w' = output w → Q tt w') → wp (Save st) Q E w.
Proof.
  intros Hq Hh Hf Ho Hv Hver HQ. unfold Save. apply wp_bind, wp_lift; [|by rewrite Hver]. intros _ _. cbv zeta. fold (written st).
  apply wp_bind, wp_lift; [|by rewrite Hv]. intros _ _. apply wp_bind. eapply (quiet_read env _ _ _ _ tt); [done|done| |].
  - intros w' [E1 _ _ _]. by rewrite E1, Hf.
  - intros w1 [E1 E2 E3 E4] Hh1. apply quiet_act; [done|done|]. intros n w2 [F1 F2 F3 F4] Hh2. unfold wp. rewrite (always_saves env Hq).
    apply HQ; cbn; congruence.
Qed.

(** The node of the agent holds the credential of the pending bearer; the old bearer
    still authenticates the same node, or nothing. *)
Record awaiting (st : AgentState.t) (s : State.t) (node : Node.t) (expiry : time) : Prop := {
  awaits_pending n : findAgent s (HashToken (PendingBearer st)) (plane_clock p n) = Some node ∧
    ∃ i, agent_at s (HashToken (PendingBearer st)) (plane_clock p n) = Some (i, node);
  awaits_old n : findAgent s (HashToken (Bearer st)) (plane_clock p n) = None ∨
    findAgent s (HashToken (Bearer st)) (plane_clock p n) = Some node ∧
    ∃ i, agent_at s (HashToken (Bearer st)) (plane_clock p n) = Some (i, node);
  awaits_hash : Node.AgentTokenHash node = HashToken (PendingBearer st);
  awaits_generation : Node.AgentCredentialGeneration node = AgentCredentialGeneration st + 1;
  awaits_bound : AgentCredentialGeneration st < int64_max;
  awaits_expiry : Node.AgentCredentialExpiresAt node = Some expiry;
  awaits_fresh n : plane_clock p n < expiry }.
Definition the_rotation (st : AgentState.t) (expiry : time) : CredentialRotation.t :=
  CredentialRotation.make (AgentCredentialGeneration st + 1) expiry.

Lemma valid_hash token : ValidTokenHash (HashToken token) = true.
Proof.
  unfold ValidTokenHash, canonical32, HashToken. destruct (Sum256_ok (bytes_of token)) as [Hl Hb]. rewrite b64_decode_encode by done.
  by rewrite Hl, bool_decide_eq_true_2.
Qed.
Lemma awaiting_answer st s node expiry n bearer : awaiting st s node expiry → 1 ≤ AgentCredentialGeneration st →
  ValidBearerToken bearer = true → findAgent s (HashToken bearer) (plane_clock p n) = Some node →
  (∃ i, agent_at s (HashToken bearer) (plane_clock p n) = Some (i, node)) →
  agentRotateCredential p n bearer (HashToken (PendingBearer st)) s = (s, Ok (the_rotation st expiry)).
Proof.
  intros Hw Hg Hv Hf [i Ha]. unfold agentRotateCredential, bearerToken, RotateAgentCredential. cbv zeta.
  rewrite !(bearer_trim bearer), HashToken_trim, Hv by done. cbn [negb fail_if mbind result_bind].
  rewrite !(bearer_trim bearer), Hv, valid_hash by done. cbn [negb orb fail_if mbind result_bind].
  unfold preflightAgentCredential. rewrite Hf, Ha. cbn [of_option mbind result_bind].
  rewrite (awaits_hash _ _ _ _ Hw), (bool_decide_eq_true_2 (HashToken _ = _)) by done.
  assert (current_rotation (plane_clock p n) node = Ok (the_rotation st expiry)) as Hr.
  { unfold current_rotation, expires_after, the_rotation. rewrite (awaits_expiry _ _ _ _ Hw), (awaits_generation _ _ _ _ Hw).
    assert ((AgentCredentialGeneration st + 1 <? 1) || negb (Before (plane_clock p n) expiry) = false) as ->; [|done].
    pose proof (awaits_fresh _ _ _ _ Hw n). unfold Before. lia. }
  rewrite Hr. by destruct (negb _).
Qed.
Lemma awaiting_refused st s n bearer : ValidBearerToken bearer = true → findAgent s (HashToken bearer) (plane_clock p n) = None →
  agentRotateCredential p n bearer (HashToken (PendingBearer st)) s = (s, Err ErrUnauthorized).
Proof.
  intros Hv Hf. unfold agentRotateCredential, bearerToken, RotateAgentCredential. cbv zeta.
  rewrite !(bearer_trim bearer), HashToken_trim, Hv by done. cbn [negb fail_if mbind result_bind].
  rewrite !(bearer_trim bearer), Hv, valid_hash by done. cbn [negb orb fail_if mbind result_bind].
  unfold preflightAgentCredential. by rewrite Hf.
Qed.

Lemma Validate_rotated st expiry : Validate st = Ok tt → PendingRecoveryToken st = "" → PendingBearer st ≠ "" → expiry ≠ 0 →
  Validate (rotated (the_rotation st expiry) st) = Ok tt.
Proof.
  intros Hv Hrt Hp He. destruct (Validate_credentials _ Hv Hp) as [_ Hb]. revert Hv. unfold Validate. cbn. open_guards.
  intros (Hver & url & Hu & Hurl & _ & _ & _ & Hr1 & _ & Hr3 & Hid & Hk & Hca & Hpk & Hneg & Hd1 & Hd2 & Hf & Hg & Hx & _ & Hbo & Ho & Hcg & _).
  split; [done|]. exists url. split_and!; try done.
  - by rewrite Hb.
  - by rewrite Hrt.
  - unfold IsZero. lia.
  - lia.
Qed.

Lemma Validate_generation st : Validate st = Ok tt → 1 ≤ AgentCredentialGeneration st.
Proof. unfold Validate. intros Hv. inv_ok. lia. Qed.
Lemma Validate_version st : Validate st = Ok tt → Version st = StateSchemaVersion.
Proof. unfold Validate. intros Hv. inv_ok. split_bools. lia. Qed.
Lemma Validate_client st bearer : Validate st = Ok tt → ValidBearerToken bearer = true → NewClient (ServerURL st) bearer = Ok bearer.
Proof.
  intros Hv Hb. unfold NewClient. unfold Validate in Hv. inv_ok. match goal with Hu : normalizeServerURL _ = Ok _ |- _ => rewrite Hu end.
  simpl. by rewrite bearer_trim, Hb.
Qed.
Lemma quiet_call (env : Environment) {A} (f : nat → State.t → State.t * result A) (Q : A → world State.t → Prop) (E : err → world State.t → Prop) w s :
  quiet env → halted w = false → server w = s →
  (∀ n, (∃ a, f n s = (s, Ok a) ∧ ∀ w', files w' = files w → halted w' = false → server w' = s → Q a w') ∨
        ∃ e, f n s = (s, Err e) ∧ ∀ w', files w' = files w → halted w' = false → server w' = s → E e w') → wp (call f) Q E w.
Proof.
  intros Hq Hh Hs Hf. apply quiet_act; [done|done|]. intros n w' [E1 _ E3 _] Hh'. unfold wp. rewrite (always_delivers env Hq), E3, Hs.
  destruct (Hf n) as [(a & -> & HQ)|(e & -> & HE)]; [apply HQ|apply HE]; cbn; congruence.
Qed.
Lemma quiet_rotate (env : Environment) st s node expiry (Q : CredentialRotation.t → world State.t → Prop) w :
  quiet env → halted w = false → server w = s → awaiting st s node expiry → Validate st = Ok tt → PendingBearer st ≠ "" →
  (∀ w', halted w' = false → files w' = files w → server w' = s → Q (the_rotation st expiry) w') →
  wp (rotate_call st (HashToken (PendingBearer st))) Q (λ _ _, False) w.
Proof.
  intros Hq Hh Hs Hw Hv Hp HQ. destruct (Validate_credentials _ Hv Hp) as [Hb1 Hb2]. pose proof (Validate_generation _ Hv) as Hg.
  unfold rotate_call. apply wp_bind, wp_lift; [|by rewrite Validate_client]. rewrite Validate_client by done. intros bearer [= <-].
  apply wp_bind, wp_try, (quiet_call env _ _ _ _ s); [done|done|done|]. intros n.
  destruct (awaits_old _ _ _ _ Hw n) as [Ho|[Ho Ha]]; [right|left; eexists; split; [eapply awaiting_answer; eauto|]; intros w' F1 F2 F3; apply wp_ret; auto].
  eexists. split; [by apply awaiting_refused|]. intros w' F1 F2 F3. apply wp_bind, wp_lift; [|done]. intros _ _.
  apply wp_bind, wp_lift; [|by rewrite Validate_client]. rewrite Validate_client by done. intros pending [= <-].
  apply (quiet_call env _ _ _ _ s); [done|done|done|]. intros n'. left. eexists. destruct (awaits_pending _ _ _ _ Hw n').
  split; [eapply awaiting_answer; eauto|]. intros w2 G1 G2 G3. apply HQ; congruence.
Qed.

(** C28: a rotation that the control plane committed and whose answer was lost is
    completed by repeating it, as long as the agent is still the one generation
    behind that the rotation made.  The agent's saved state is valid, holds the
    pending bearer and no pending recovery, and its generation is one less than the
    node's (a bootstrap in between would have raised it, and then no repetition
    completes the rotation); every clock reading is more than an hour and at most 366
    days before the new credential's expiry; the machine works and every request is
    delivered.  Then, whether or not the old bearer is still in its grace period, one
    repetition makes the agent use the pending bearer, durably, and the control plane
    is as it was. *)
Theorem lost_rotation_is_completed (env : Environment) version w st s node expiry :
  quiet env → halted w = false → (TrimSpace version == "") || (64 <? len version) = false →
  Files.state (files w) = Some st → Validate st = Ok tt → PendingRecoveryToken st = "" → PendingBearer st ≠ "" →
  server w = s → awaiting st s node expiry →
  (∀ n, 0 ≤ clock n ∧ clock n + hour < expiry ≤ clock n + 366 * day) →
  ∃ w', RotateCredential version w = (w', Ok (the_rotation st expiry)) ∧
    Files.state (files w') = Some (rotated (the_rotation st expiry) st) ∧
    Files.synced (files w') = Some (rotated (the_rotation st expiry) st) ∧ server w' = s.
Proof.
  intros Hq Hh Hver Hf Hv Hrt Hp Hs Hw Hcl. destruct (Validate_credentials _ Hv Hp) as [Hb1 Hb2].
  assert (wp (RotateCredential version) (λ r w', r = the_rotation st expiry ∧ Files.state (files w') = Some (rotated (the_rotation st expiry) st) ∧
    Files.synced (files w') = Some (rotated (the_rotation st expiry) st) ∧ server w' = s) (λ _ _, False) w) as Hrun.
  { unfold RotateCredential. apply wp_bind, quiet_ready; [done|done|done|]. intros w1 [E1 E2 E3 E4] Hh1.
    apply wp_bind, (quiet_Load env st); [done|done|by rewrite E1|done|]. intros w2 [F1 F2 F3 F4] Hh2.
    apply wp_bind, wp_lift; [|unfold rejectPendingAgentRecovery; by rewrite Hrt]. intros _ _.
    apply wp_bind. unfold pending_rotation. rewrite (bool_decide_eq_false_2 _ Hp). apply wp_ret, wp_bind.
    apply (quiet_rotate env st s node expiry); [done|done|congruence|done|done|done|]. intros w3 Hh3 G1 G3.
    apply wp_bind, quiet_act; [done|done|]. intros n w4 [K1 K2 K3 K4] Hh4. unfold wp at 1.
    assert (validateCredentialRotation st (the_rotation st expiry) (clock n) = Ok tt) as Hval.
    { pose proof (awaits_bound _ _ _ _ Hw). pose proof (Validate_generation _ Hv). destruct (Hcl n) as (_ & Hc1 & Hc2).
      unfold validateCredentialRotation, the_rotation, After. cbn [CredentialRotation.Generation CredentialRotation.ExpiresAt].
      rewrite wrap64_id by (unfold in_int64, int64_min, int64_max in *; lia).
      by rewrite Z.eqb_refl, (proj2 (Z.ltb_lt _ _) Hc1), (proj2 (Z.ltb_ge _ _) Hc2). }
    apply wp_bind, wp_lift; [|by rewrite Hval]. intros _ _.
    assert (Version st = StateSchemaVersion) as Hvs by (by apply Validate_version).
    assert (written (rotated (the_rotation st expiry) st) = rotated (the_rotation st expiry) st) as Hwr
      by (unfold written; cbn; unfold rotated; cbn; by rewrite <- Hvs).
    apply wp_bind, (quiet_Save env _ st); [done|done|congruence|done| |done|].
    - rewrite Hwr. apply Validate_rotated; [done..|]. destruct (Hcl 0%nat). unfold hour, minute, second in *. lia.
    - intros w5 Hh5 S1 S2 S3 _. rewrite Hwr in S1, S2. apply wp_ret. split_and!; [done|done|done|congruence]. }
  unfold wp in Hrun. destruct (RotateCredential version w) as [w' [r|e]]; [|done]. destruct Hrun as (-> & ? & ? & ?). eauto.
Qed.
End rotation.

(** ** What the control plane serves, the agent accepts *)
Section served.
Context `{Crypto, Nebula, !CryptoLaws}.
Import AgentState.

(** The agent has pinned the node's identity and keys, trusts the authority or the
    one before it, and is at most where the control plane is. *)
Record follows (st : AgentState.t) (s : State.t) (network : Network.t) (node : Node.t) : Prop := {
  follows_node : NodeID st = Node.ID node;
  follows_network : NetworkID st = Network.ID network;
  follows_signing : ConfigSigningPublicKey st = Network.ConfigSigningPublicKey network;
  follows_public : PublicKeyHash st = Node.PublicKeyHash node;
  follows_authority : CACertificateSHA256 st = ConfigDigest (networkTrustBundle network) ∨
    CACertificateSHA256 st = NetworkCARotation.PreviousTrustBundleSHA256 (Network.CARotation network);
  follows_revision : AppliedConfigRevision st ≤ Network.ConfigRevision network;
  follows_generation : CertificateGeneration st ≤ Node.CertificateGeneration node;
  follows_config : AppliedConfigRevision st = Network.ConfigRevision network →
    AppliedConfigSHA256 st = ConfigDigest (renderConfig s network node);
  follows_certificate : CertificateGeneration st = Node.CertificateGeneration node →
    CertificateFingerprint st = Node.CertificateFingerprint node ∧
    CertificateExpiresAt st = valueOrZero (Node.CertificateExpiresAt node) ∧
    CertificateRenewAfter st = valueOrZero (Node.CertificateRenewAfter node) }.

(** The key that signs for the network is the private half of its public key. *)
Definition signs_for (network : Network.t) : Prop :=
  ∃ key, OpenFor "config-signing-key-v1" (Network.EncryptedConfigSigningKey network) = Ok key ∧
         ValidateConfigSigningKeyPair (Network.ConfigSigningPublicKey network) key = Ok tt.

Lemma signed_valid network node config issuedAt signed : signs_for network → signConfig network node config issuedAt = Ok signed →
  validateConfigSignatureMetadata (signed_metadata network node issuedAt) = Ok tt ∧ validateManagedConfig config = Ok tt ∧
  AgentConfig.SHA256 signed = ConfigDigest config ∧ AgentConfig.Config signed = config ∧
  AgentConfig.SignatureMetadata signed = signed_metadata network node issuedAt ∧
  VerifyConfig (Network.ConfigSigningPublicKey network) (AgentConfig.SignatureMetadata signed) config (ConfigDigest config)
    (AgentConfig.Signature signed) = Ok tt.
Proof.
  intros (key & Ho & Hp) Hs. unfold signConfig in Hs. rewrite Ho in Hs. apply bind_Ok in Hs as (k & [= <-] & Hs). cbv zeta in Hs.
  apply bind_Ok in Hs as ([digest signature] & Hsign & [= <-]). pose proof (sign_then_verify _ _ _ _ _ _ Hp Hsign) as Hv.
  assert (digest = ConfigDigest config ∧ validateManagedConfig config = Ok tt ∧
    validateConfigSignatureMetadata (signed_metadata network node issuedAt) = Ok tt) as (-> & Hc & Hm).
  { revert Hsign. unfold SignConfig. open_guards. intros (_ & [] & Hc & [] & Hm & [= <- _]). done. }
  done.
Qed.

Lemma follows_accepts st s network node issuedAt signed : signs_for network → follows st s network node →
  signConfig network node (renderConfig s network node) issuedAt = Ok signed → VerifySignedConfig st signed = Ok tt.
Proof.
  intros Hk Hf Hs. destruct (signed_valid _ _ _ _ _ Hk Hs) as (Hm & _ & Hd & Hc & Em & Hv).
  destruct Hf as [F1 F2 F3 F4 F5 F6 F7 F8 F9]. injection Em as E1 E2 E3 E4 E5 E6 E7 E8 E9 E10 E11 E12 E13.
  unfold VerifySignedConfig. rewrite Hd, Hc, F3, Hv. open_guards. rewrite E1, E2, E3, E5, E6, E9, E10, E11, E12, E13.
  revert Hm. unfold validateConfigSignatureMetadata. open_guards. cbn. intros (_ & Hr & _). split_bools.
  rewrite F1, F2, F4, !bool_decide_eq_true_2, validDigest_fingerprint, fingerprint_digest by done.
  unfold same_certificate. split_and!; try lia; try done. exists tt. split_and!; try lia; try done.
  - destruct F5 as [F5|F5]; rewrite F5; by repeat case_bool_decide.
  - destruct (Z.eqb_spec (Node.CertificateGeneration node) (CertificateGeneration st)) as [E|]; [|done].
    destruct F9 as (-> & -> & ->); [done|]. rewrite (bool_decide_eq_true_2 (_ = Node.CertificateFingerprint node)), !Z.eqb_refl by done. apply andb_false_r.
  - destruct (Z.eqb_spec (Network.ConfigRevision network) (AppliedConfigRevision st)) as [E|]; [|done].
    rewrite F8, bool_decide_eq_true_2 by done. apply andb_false_r.
Qed.

Lemma validateManagedConfig_size config : validateManagedConfig config = Ok tt → within_size config = true.
Proof. unfold validateManagedConfig, within_size. open_guards. intros [Hc _]. split_bools. rewrite bool_decide_eq_false_2 by done. simpl. unfold maxBundleFileSize. lia. Qed.

(** C15: what the control plane serves to an agent that follows it, the agent accepts: the
    polled configuration and the bootstrap carry the same signed artifact, the agent
    verifies both, and what it builds from the bootstrap and its own key pair passes
    the checks of the activation. *)
Theorem served_artifacts_are_accepted t1 t2 t3 token s st network node config bootstrap private public :
  findAgent s (HashToken (TrimSpace token)) t2 = Some node → findNetwork s (Node.NetworkID node) = Some network →
  signs_for network → follows st s network node → canonicalPublicKeyHash public = PublicKeyHash st →
  forallb within_size [networkTrustBundle network; Node.Certificate node; private; public] = true →
  AgentOps.AgentConfig t1 t2 t3 token s s = Ok config → AgentBootstrap t1 t2 t3 token s s = Ok bootstrap →
  VerifySignedConfig st config = Ok tt ∧
  ∃ bundle, verifyBootstrapBundle st (private, public) bootstrap = Ok (config, bundle).
Proof.
  intros Hn Hnet Hk Hf Hpub Hsize Hc Hb.
  assert (signConfig network node (renderConfig s network node) t3 = Ok config ∧
    bootstrap = enrollmentBundle network node (renderConfig s network node) config) as [Hs ->].
  { revert Hc Hb. unfold AgentOps.AgentConfig, AgentBootstrap. cbv zeta. rewrite Hn. cbn [of_option mbind result_bind]. rewrite Hnet. open_guards.
    intros (_ & ? & _ & ? & [= <-] & _ & Hs) (_ & ? & _ & _ & ? & [= <-] & signed & Hs' & [= <-]).
    rewrite Hs in Hs'. by injection Hs' as <-. }
  destruct (signed_valid _ _ _ _ _ Hk Hs) as (Hm & Hcfg & Hd & Ec & Em & Hv). pose proof (follows_accepts _ _ _ _ _ _ Hk Hf Hs) as Hacc.
  split; [done|]. eexists.
  assert (bootstrap_config (enrollmentBundle network node (renderConfig s network node) config) = config) as Eb
    by (rewrite <- Ec at 1; by destruct config).
  unfold verifyBootstrapBundle. cbv zeta. rewrite Eb. cbn [EnrollmentBundle.ConfigSigningPublicKey EnrollmentBundle.CA EnrollmentBundle.Certificate enrollmentBundle snd fst].
  rewrite Hpub, (follows_signing _ _ _ _ Hf), Hacc, !bool_decide_eq_true_2 by done. cbn [negb fail_if mbind result_bind].
  assert (validateBundle (bundle_for (AgentConfig.NodeID config) (AgentConfig.NetworkID config) config (networkTrustBundle network)
    (Node.Certificate node) private public) (NodeID st) (NetworkID st) (Network.ConfigSigningPublicKey network)
    (AgentConfig.CACertificateSHA256 config) (PublicKeyHash st) = Ok tt) as Hvb; [|by rewrite Hvb].
  pose proof Hf as [F1 F2 F3 F4 _ _ _ _ _]. apply validateManagedConfig_size in Hcfg.
  injection Em as E1 E2 E3 E4 E5 E6 E7 E8 E9 E10 E11 E12 E13.
  assert (Bundle.signature_metadata (bundle_for (AgentConfig.NodeID config) (AgentConfig.NetworkID config) config (networkTrustBundle network)
    (Node.Certificate node) private public) = AgentConfig.SignatureMetadata config) as Esm by (by destruct config).
  unfold validateBundle. rewrite Esm. cbn [bundle_for Bundle.SignedConfig Bundle.Digest Bundle.Signature Bundle.NodeID Bundle.NetworkID Bundle.Revision
    Bundle.CACertificateSHA256 Bundle.CACertificate Bundle.PublicKeyHash Bundle.PublicKey Bundle.Certificate Bundle.PrivateKey].
  rewrite Ec, Hd, Hv. open_guards. revert Hm. unfold validateConfigSignatureMetadata. open_guards. cbn. intros Hm.
  decompose record Hm. split_bools.
  rewrite E1, E2, E3, E5, E13, Hpub, F1, F2, F4, !validDigest_fingerprint, !fingerprint_digest.
  assert (Network.ConfigSigningPublicKey network ≠ "") as Hkey.
  { intros E. revert Hv. unfold VerifyConfig. rewrite E. done. }
  cbn [forallb] in Hsize. split_bools. split_and!; [by eval_bools|by rewrite !bool_decide_eq_true_2|lia|].
  exists tt. rewrite !(bool_decide_eq_true_2 (_ = _)) by done. split_and!; try done. eval_bools. done.
Qed.
End served.
