(* ===== verification/AgentExamples.v ===== *)
(** * Example: an agent of the control plane (internal/nodeagent)

    One agent, one machine and the control plane of the other examples: the agent
    fetches its bundle, activates it, reports it and rotates its credential.  The
    theorems about agents are applied to these runs. *)
From stdpp Require Import gmap.
From S2P Require Import Prelude GoStd Sha256 GoTime IPv4 NetIP Model AuditLog Receipts Routes RouteState Reservations.
From S2P Require Import Firewall RoutePolicies NetworkSettings Render RouteTransfer TransferSafety RouteProfileEdit Credentials Nodes CARotation Networks NodeLifecycle FirewallRollout.
From S2P Require Import SignedConfig Enrollment Recovery AgentOps Revocation CertificateReplacement CredentialSafety Renewal StateGraph Store StoreSafety.
From S2P Require Import AgentState AgentWorld Activation NodeAgent AgentSafety ActivationSafety AgentControl.
From Stdlib Require Import Ascii.
Open Scope Z_scope.

(** ** The parameters *)
#[local] Instance example_urls : URLs := {|
  url_Parse s := if s == "https://mesh.example" then Some (URL.make "https" false "mesh.example" "" "" "") else None;
  url_Hostname := URL.Host; url_String u := URL.Scheme u +:+ "://" +:+ URL.Host u +:+ URL.Path u |}.
#[local] Instance example_curve : X25519 := {| x25519_public := Some |}.
#[local] Existing Instance tagged_crypto.
#[local] Existing Instance spelling_issuer.
#[local] Instance tagged_laws : CryptoLaws.
Proof. split; [exact (@signature_size _ toy_laws)|exact (@sign_verifies _ toy_laws)]. Qed.

(** A machine that works. *)
Definition working : Environment := {|
  clock _ := 2 * day; random n := Ok (replicate 32 (10 + Z.of_nat n mod 100)); temporary _ := "0001";
  system_boot _ := Some "boot-0001"; crashes _ := false; fault _ := None; saving _ := SaveSynced; delivers _ := Delivered;
  nebula_version _ := Ok "Version: 1.10.3"; nebula_cert_verify _ _ := Ok tt; nebula_test _ _ _ := Ok tt;
  nebula_cert_print _ _ := Ok [(example_print, 90 * day)] |}.
Definition example_plane : plane := Plane (λ _, 2 * day) (λ _, "event-0000-0009") (λ _, Ok "claim-0000-0009") (λ _ s, s).
#[local] Instance example_api : AgentAPI State.t := control_plane example_plane.

(** ** The agent of node [a], just enrolled *)
Definition example_agent_state : AgentState.t :=
  AgentState.make StateSchemaVersion "https://mesh.example" (example_bearer 1) "" "" false (id_of "a") "network-0000-0000"
    (b64_encode (replicate 32 2)) (ConfigDigest "old authority") (HashToken race_key) 0 "" 0 example_print 1 (90 * day) (60 * day)
    (80 * day) 1 1 "boot-0000" "/var/lib/mesh".
Definition example_files : Files.t :=
  Files.make (Some example_agent_state) (Some example_agent_state) None (Some "private key") (Some race_key).
Definition example_world : world State.t :=
  World example_files (Output.make None ∅ None ∅ None None) store_state 0 false [].
Definition example_version : string := "1.0.0".
Definition example_health : Health.t := Health.make "1.10.3" "" true false "healthy" "".

Definition world_synced : world State.t := perform working example_version (OpSync 0) example_world.
Definition world_reported : world State.t := perform working example_version (OpHeartbeat example_health) world_synced.

(** The first synchronization fetches the bundle, activates it and has Nebula load it;
    the control plane takes the report of the agent. *)
Example first_sync_activates :
  let synced := Files.state (files world_synced) in
  (AgentState.AppliedConfigRevision <$> synced) = Some 3 ∧ is_Some (Output.current (output world_synced)) ∧
  Output.running (output world_synced) = Output.current (output world_synced) ∧
  (λ node, (Node.HeartbeatSequence node, Node.AppliedConfigRevision node, Node.LastSeenAt node)) <$>
    findNode (server world_reported) (id_of "a") = Some (2, 3, Some (2 * day)).
Proof. vm_compute. eauto. Qed.

(** ** Runs with crashes *)
(** The machine stops before its act [k]. *)
Definition dying (k : nat) : Environment := {|
  clock := @clock working; random := @random working; temporary := @temporary working; system_boot := @system_boot working;
  crashes n := (n =? k)%nat; fault := @fault working; saving := @saving working; delivers := @delivers working;
  nebula_version := @nebula_version working; nebula_cert_verify := @nebula_cert_verify working; nebula_test := @nebula_test working;
  nebula_cert_print := @nebula_cert_print working |}.
Definition world_crashed : world State.t := perform (dying 7) example_version (OpSync 0) example_world.
Definition world_restarted : world State.t :=
  change_files (λ f, f <| Files.state := Files.synced f |>) (world_crashed <| halted := false |>).
Definition world_later : world State.t :=
  perform working example_version (OpHeartbeat example_health) (perform working example_version OpRotate world_restarted).
Lemma example_installed : installed example_world example_agent_state example_agent_state.
Proof. split; [reflexivity..|vm_compute; discriminate|constructor|constructor]. Qed.
Lemma example_run : rtc agent_step example_world world_later.
Proof.
  unfold world_later, world_restarted, world_crashed.
  eapply rtc_l; [apply (step_operation _ (dying 7) example_version (OpSync 0))|]. eapply rtc_l; [apply step_restart|].
  eapply rtc_l; [apply step_power_failure|]. eapply rtc_l; [apply (step_operation _ working example_version OpRotate)|].
  apply rtc_once. apply (step_operation _ working example_version (OpHeartbeat example_health)).
Qed.
Lemma agent_state_never_goes_back_witness : ∃ file' synced',
  Files.state (files world_later) = Some file' ∧ Files.synced (files world_later) = Some synced' ∧
  descends example_agent_state synced' ∧ descends synced' file'.
Proof. exact (agent_state_never_goes_back example_world world_later example_agent_state example_agent_state example_run example_installed). Defined.
Lemma heartbeats_never_repeat_witness : StronglySorted Z.lt (sequences world_later) ∧ ∃ synced',
  Files.synced (files world_later) = Some synced' ∧ Forall (λ n, n ≤ AgentState.HeartbeatSequence synced') (sequences world_later).
Proof. exact (heartbeats_never_repeat example_world world_later example_agent_state example_agent_state example_run example_installed). Defined.
(** The heartbeat of this run did leave. *)
Example later_report_sent : sequences world_later = [2].
Proof. vm_compute. reflexivity. Qed.

(** ** Activations *)
Definition served_config : result AgentConfig.t := AgentOps.AgentConfig (2 * day) (2 * day) (2 * day) (example_bearer 1) store_state store_state.
Definition served_bootstrap : result EnrollmentBundle.t := AgentBootstrap (2 * day) (2 * day) (2 * day) (example_bearer 1) store_state store_state.
Definition example_config : AgentConfig.t :=
  match served_config with Ok config => config | Err _ => AgentConfig.make "" "" 0 "" 0 "" "" "" false false "" 0 "" "" 0 0 end.
Definition example_bundle : Bundle.t :=
  bundle_for (id_of "a") "network-0000-0000" example_config "old authority" "certificate" "private key" race_key.
Definition activation (env : Environment) : world State.t * result CertificateDetails.t :=
  Apply (activator example_agent_state) example_bundle example_world.
(** This activation succeeds, its version is the only one, and its files are small
    enough to be read back. *)
Lemma activation_succeeds :
  is_ok (snd (activation working)) = true ∧ length (listed (output (fst (activation working)))) = 1%nat ∧
  match rewritePKIPaths (Bundle.SignedConfig example_bundle) (outputDir (activator example_agent_state) +:+ "/current") with
  | Ok config => readable example_bundle config
  | Err _ => false
  end = true.
Proof. vm_compute. auto. Qed.
Lemma working_random : @random_bytes working.
Proof.
  intros n l [= <-]. pose proof (Z.mod_pos_bound (Z.of_nat n) 100). repeat constructor; lia.
Qed.
Lemma activation_keeps_a_live_bundle_witness :
  live_now (H0 := working) (activator example_agent_state) example_bundle (output (fst (activation working))) ∧
  ∃ contents, live_bundle (activator example_agent_state) (output (fst (activation working))) = Ok (example_bundle, contents).
Proof.
  pose proof (@activation_keeps_a_live_bundle tagged_crypto working State.t (activator example_agent_state) example_bundle example_world
    (fst (activation working)) (snd (activation working)) working_random eq_refl (surjective_pairing _)) as Hkeeps.
  destruct activation_succeeds as (Hok & _ & Hread). destruct (snd (activation working)) as [d|e]; [|discriminate Hok].
  destruct Hkeeps as [Hlive (config & Hc & Hback)]. rewrite Hc in Hread. rewrite Hread in Hback. exact (conj Hlive Hback).
Defined.
Lemma activation_bounds_versions_witness :
  (length (listed (output (fst (activation working)))) ≤
     if is_ok (snd (activation working)) then maxRetainedBundleVersions
     else maxRetainedBundleVersions `max` length (listed (output example_world)))%nat.
Proof.
  exact (@activation_bounds_versions tagged_crypto working State.t (activator example_agent_state) example_bundle example_world
    (fst (activation working)) (snd (activation working)) (surjective_pairing _)).
Defined.
(** The process stops between the new link and its renaming; an attempt on a machine
    that works fails, and so does every other. *)
Definition world_interrupted : world State.t := fst (@replaceSymlink (dying 2) State.t "versions/next" example_world).
Lemma interrupted_switch_blocks_witness : halted world_interrupted = true ∧ ∀ (env : Environment) a bundle,
  is_ok (snd (Apply a bundle (restarted (fst (@Apply _ working _ (activator example_agent_state) example_bundle (restarted world_interrupted)))))) = false.
Proof.
  split; [reflexivity|]. refine (interrupted_switch_blocks (dying 2) "versions/next" (b64_encode (replicate 32 10)) example_world world_interrupted _
    (snd (@replaceSymlink (dying 2) State.t "versions/next" example_world)) eq_refl _ eq_refl eq_refl eq_refl eq_refl (surjective_pairing _) _).
  - reflexivity.
  - apply rtc_once. exists working, (activator example_agent_state), example_bundle. reflexivity.
Defined.

(** ** What is served *)
Definition example_node : Node.t := store_node "a" "10.42.0.10" 1 (Some ["192.168.7.0/24"; "192.168.9.0/24"]) 1.
Lemma example_follows : follows example_agent_state store_state store_network example_node.
Proof.
  split; [vm_compute; reflexivity..|left; vm_compute; reflexivity|vm_compute; discriminate|vm_compute; discriminate|vm_compute; discriminate|].
  intros _. split_and!; vm_compute; reflexivity.
Qed.
Definition example_bootstrap : EnrollmentBundle.t :=
  match served_bootstrap with Ok bootstrap => bootstrap | Err _ => EnrollmentBundle.zero end.
Lemma served_artifacts_are_accepted_witness :
  VerifySignedConfig example_agent_state example_config = Ok tt ∧
  ∃ bundle, verifyBootstrapBundle example_agent_state ("private key", race_key) example_bootstrap = Ok (example_config, bundle).
Proof.
  apply (served_artifacts_are_accepted (2 * day) (2 * day) (2 * day) (example_bearer 1) store_state example_agent_state store_network
    example_node example_config example_bootstrap "private key" race_key);
    [vm_compute; reflexivity|vm_compute; reflexivity| |exact example_follows|vm_compute; reflexivity..].
  exists signing_key. split; vm_compute; reflexivity.
Defined.

(** ** A rotation whose answer is lost *)
Definition deaf : Environment := {|
  clock := @clock working; random := @random working; temporary := @temporary working; system_boot := @system_boot working;
  crashes := @crashes working; fault := @fault working; saving := @saving working; delivers _ := ResponseLost;
  nebula_version := @nebula_version working; nebula_cert_verify := @nebula_cert_verify working; nebula_test := @nebula_test working;
  nebula_cert_print := @nebula_cert_print working |}.
Definition world_lost : world State.t := perform deaf example_version OpRotate example_world.
Definition lost_agent : AgentState.t := default example_agent_state (Files.state (files world_lost)).
Definition lost_node : Node.t := default Node.zero (findNode (server world_lost) (id_of "a")).
Definition lost_expiry : time := valueOrZero (Node.AgentCredentialExpiresAt lost_node).
Lemma lost_awaits : awaiting example_plane lost_agent (server world_lost) lost_node lost_expiry.
Proof.
  split; [intros n; split; [vm_compute; reflexivity|exists 0%nat; vm_compute; reflexivity]|
          intros n; right; split; [vm_compute; reflexivity|exists 0%nat; vm_compute; reflexivity]|vm_compute; reflexivity..|].
  intros n. vm_compute. reflexivity.
Qed.
Lemma working_quiet : quiet working.
Proof. by split. Qed.
Lemma lost_rotation_is_completed_witness : ∃ w',
  @RotateCredential _ working _ _ example_version world_lost = (w', Ok (the_rotation lost_agent lost_expiry)) ∧
  Files.state (files w') = Some (rotated (the_rotation lost_agent lost_expiry) lost_agent) ∧
  Files.synced (files w') = Some (rotated (the_rotation lost_agent lost_expiry) lost_agent) ∧ server w' = server world_lost.
Proof.
  refine (lost_rotation_is_completed example_plane working example_version world_lost lost_agent (server world_lost) lost_node lost_expiry
    working_quiet _ _ _ _ _ _ eq_refl lost_awaits _); [vm_compute; reflexivity..| |].
  - vm_compute. discriminate.
  - intros n. split_and!; vm_compute; congruence.
Defined.

(** A synchronization that fetches the bundle comes first: the agent takes over the
    new generation with it, and the rotation can no longer be completed. *)
Definition world_stranded : world State.t := perform working example_version (OpSync 0) world_lost.
Definition stranded_agent : AgentState.t := default example_agent_state (Files.state (files world_stranded)).
Definition commits (st : AgentState.t) (s : State.t) (bearer : string) : bool :=
  match agent_at s (HashToken bearer) (2 * day) with
  | Some (_, node) => (Node.AgentTokenHash node == HashToken (AgentState.PendingBearer st)) &&
                      (Node.AgentCredentialGeneration node =? AgentState.AgentCredentialGeneration st)
  | None => true
  end.
Definition strands (w : world State.t) (st : AgentState.t) : bool :=
  bool_decide (Files.state (files w) = Some st) && negb (AgentState.PendingBearer st == "") &&
  forallb (commits st (server w)) [AgentState.Bearer st; AgentState.PendingBearer st].
Lemma strands_spec w st : strands w st = true →
  Files.state (files w) = Some st ∧ AgentState.PendingBearer st ≠ "" ∧
  rotation_committed example_plane st (AgentState.AgentCredentialGeneration st) (server w).
Proof.
  intros H. apply andb_prop in H as [H H3]. apply andb_prop in H as [H1 H2]. apply bool_decide_eq_true in H1.
  apply negb_true_iff, bool_decide_eq_false in H2. split_and!; [done..|].
  intros n bearer i node Hb Ha. rewrite forallb_forall in H3. apply list_elem_of_In, H3 in Hb. unfold commits in Hb.
  change (2 * day) with (plane_clock example_plane n) in Hb. rewrite Ha in Hb.
  apply andb_prop in Hb as [E1 E2]. apply bool_decide_eq_true in E1. by apply Z.eqb_eq in E2.
Qed.
Lemma stranded_facts : strands world_stranded stranded_agent = true.
Proof. vm_compute. reflexivity. Qed.
Lemma bootstrap_strands_rotation_witness :
  let run := @RotateCredential _ working _ _ example_version world_stranded in
  (∀ rotation, snd run ≠ Ok rotation) ∧ Files.state (files (fst run)) = Some stranded_agent ∧ server (fst run) = server world_stranded.
Proof.
  intros run. pose proof (strands_spec world_stranded stranded_agent stranded_facts) as facts.
  exact (bootstrap_strands_rotation example_plane working example_version world_stranded (fst run) (snd run) stranded_agent
    (server world_stranded) (proj2 (proj2 facts)) (proj1 facts) (proj1 (proj2 facts)) eq_refl (surjective_pairing _)).
Defined.
