(* ===== verification/Identity.v ===== *)
(** * Identities, sessions and one-time credentials (internal/identity: model.go,
    token.go, audit.go, operations.go, desktop_authorization.go, the checks of
    config.go and the operations of filestore.go)

    The identity store keeps login attempts, sessions, break-glass codes, desktop
    authorizations and an audit log in one document.  Every operation is a
    transaction that commits only a document that validateState accepts.  Times are
    in UTC, so that a canonical time is one that is not zero; a document of the first
    schema, without an audit log, exists only while a store migrates it.  The document's arrays
    are lists: a clone makes an absent array empty.  The sealer's text of an OIDC
    payload stands for its JSON encoding and encryption together. *)
From stdpp Require Import gmap.
From S2P Require Import Prelude GoStd Sha256 GoTime IPv4 NetIP AuditLog AgentState.
From Stdlib Require Import Ascii.
Open Scope Z_scope.

(** ** The interfaces to net/url and the sealer *)
Class IdentityURLs := {
  url_Port : URL.t → string;
  url_ParseRequestURI : string → option URL.t;
  url_QueryUnescape : string → option string }.
Module OIDCPayload.
Record t := make { Nonce : string; PKCEVerifier : string }.
#[global] Instance t_eq_dec : EqDecision t.
Proof. solve_decision. Defined.
End OIDCPayload.
Class Sealer := {
  SealFor : string → OIDCPayload.t → result string;
  OpenFor : string → string → result OIDCPayload.t }.
Definition OIDCTransactionSealPurpose : string := "oidc-login-transaction-v1".

Definition ErrLimit : err := ErrOther "record limit reached".

(** ** Tokens (token.go) *)
Definition ValidOpaqueToken (token : string) : bool := canonical32 token.
Definition HashOpaqueToken (token : string) : result string :=
  fail (ErrOther "opaque token must be canonical unpadded base64url") when negb (ValidOpaqueToken token);;
  Ok (HashToken token).
Definition ValidCredentialHash (value : string) : bool := canonical32 value.
Definition CredentialHashEqual (left right : string) : bool :=
  ValidCredentialHash left && ValidCredentialHash right && (b64_decode left == b64_decode right).
Definition CredentialMatches (hash token : string) : bool :=
  ValidCredentialHash hash && ValidOpaqueToken token && (b64_decode hash == Some (Sum256 (bytes_of token))).

(** ** Bounded values (config.go) *)
Definition HasPrefix (s p : string) : bool := bool_decide (is_Some (strip_prefix (bytes_of p) (bytes_of s))).
Definition identifierPattern (s : string) : bool := match_class group_tail group_tail 127 s.
Definition validPrefixedID (id prefix : string) : bool := HasPrefix id prefix && identifierPattern (TrimPrefix id prefix).
Definition validPolicyFingerprint (value : string) : bool := fingerprintPattern value.
Definition printable (c : Z) : bool := negb (c <? 32) && negb (c =? 127).
Definition validBoundedText (value : string) (minimum maximum : Z) : bool :=
  negb ((len value <? minimum) || (maximum <? len value) || negb (ValidString value) || (TrimSpace value != value))
  && forallb printable (bytes_of value).
Definition validReason (reason : string) : bool := validBoundedText reason 1 256.
Definition isCanonicalTime (value : time) : bool := negb (IsZero value).

Fixpoint contains_bytes (sub l : list Z) : bool :=
  bool_decide (is_Some (strip_prefix sub l)) || match l with _ :: rest => contains_bytes sub rest | [] => false end.
Definition email_char (c : Z) : bool := (c <=? 127) && negb (contains [32; 60; 62; 44; 59] c).
Definition validCanonicalEmail (value : string) : bool :=
  (value == ToLower value) && negb ((len value <? 3) || (254 <? len value)) && validBoundedText value 3 254 &&
  match split_on "@"%char value with
  | [local; domain] =>
      negb ((local == "") || (64 <? len local) || (domain == "") || HasPrefix domain "." || (last (bytes_of domain) == Some 46)
            || contains_bytes [46; 46] (bytes_of domain))
      && forallb email_char (bytes_of value)
  | _ => false
  end.

(** ** Principals and actors (model.go) *)
Definition PrincipalOIDCAdmin : string := "oidc_admin".
Definition PrincipalLegacyAdmin : string := "legacy_admin".
Definition PrincipalService : string := "service_account".
Definition PrincipalBreakGlass : string := "break_glass".

Module Principal.
Record t := make {
  ID : string; Kind : string; Issuer : string; Subject : string; DisplayName : string; Email : string; Groups : list string;
  ACR : string; AMR : list string; AuthTime : time }.
#[global] Instance t_eq_dec : EqDecision t.
Proof. solve_decision. Defined.
Definition zero : t := make "" "" "" "" "" "" [] "" [] 0.
End Principal.
Module Actor.
Record t := make { ID : string; Kind : string; SessionID : string }.
#[global] Instance t_eq_dec : EqDecision t.
Proof. solve_decision. Defined.
End Actor.

Definition hasOIDCClaims (p : Principal.t) : bool :=
  (Principal.Issuer p != "") || (Principal.Subject p != "") || (Principal.Groups p != []) || (Principal.ACR p != "")
  || (Principal.AMR p != []).
Fixpoint claim_values (maxLength : Z) (previous : option string) (values : list string) : bool :=
  match values with
  | [] => true
  | value :: rest => validBoundedText value 1 maxLength && negb (Some value == previous) && claim_values maxLength (Some value) rest
  end.
Fixpoint strings_sorted (values : list string) : bool :=
  match values with
  | a :: ((b :: _) as rest) => str_le a b && strings_sorted rest
  | _ => true
  end.
Definition validateCanonicalClaimValues (values : list string) (maximum maxLength : Z) : result unit :=
  fail (ErrOther "contains too many values") when maximum <? Z.of_nat (length values);;
  fail (ErrOther "values are not canonically sorted") when negb (strings_sorted values);;
  fail (ErrOther "value is invalid or duplicated") when negb (claim_values maxLength None values);;
  Ok tt.
Definition oidc_id (issuer subject : string) : string := "oidc_" +:+ HashToken (issuer +:+ String "000"%char subject).

Section identities.
Context `{URLs, IdentityURLs}.

Definition isLoopbackHost (host : string) : bool :=
  EqualFold host "localhost" || match ParseIP host with Some ip => IsLoopback ip | None => false end.
Definition validateCanonicalURLPort (parsed : URL.t) : result unit :=
  let port := url_Port parsed in
  if port == "" then Ok tt else
  number ← of_option (Atoi port) (ErrOther "port must be a canonical decimal value between 1 and 65535");
  fail (ErrOther "port must be a canonical decimal value between 1 and 65535")
    when (number <? 1) || (65535 <? number) || (Itoa number != port);;
  fail (ErrOther "scheme default port must be omitted")
    when ((URL.Scheme parsed == "https") && (number =? 443)) || ((URL.Scheme parsed == "http") && (number =? 80));;
  Ok tt.
Definition validateIssuerURL (raw : string) (allowInsecureLoopback : bool) : result unit :=
  fail (ErrOther "OIDC issuer must contain 1-2048 characters") when (raw == "") || (2048 <? len raw);;
  parsed ← of_option (url_Parse raw) (ErrOther "OIDC issuer must be an absolute URL");
  fail (ErrOther "OIDC issuer must be an absolute URL") when (URL.Scheme parsed == "") || (URL.Host parsed == "");;
  fail (ErrOther "OIDC issuer must be canonical and contain no credentials, query, or fragment")
    when URL.User parsed || (URL.RawQuery parsed != "") || (URL.Fragment parsed != "");;
  fail (ErrOther "OIDC issuer must use a canonical lowercase scheme and host")
    when (url_Hostname parsed == "") || (last (bytes_of (url_Hostname parsed)) == Some 46)
      || (URL.Host parsed != ToLower (URL.Host parsed)) || (URL.Scheme parsed != ToLower (URL.Scheme parsed));;
  _ ← validateCanonicalURLPort parsed;
  if URL.Scheme parsed == "https" then Ok tt else
  fail (ErrOther "OIDC issuer must use HTTPS except for explicitly allowed loopback development")
    when (URL.Scheme parsed != "http") || negb allowInsecureLoopback || negb (isLoopbackHost (url_Hostname parsed));;
  Ok tt.

Definition Validate_kind (p : Principal.t) : result unit :=
  let kind := Principal.Kind p in
  if kind == PrincipalOIDCAdmin then
    fail (ErrOther "OIDC principal is missing a valid issuer or subject")
      when negb (is_ok (validateIssuerURL (Principal.Issuer p) true)) || negb (validBoundedText (Principal.Subject p) 1 512);;
    fail (ErrOther "OIDC principal ID does not match issuer and subject")
      when Principal.ID p != oidc_id (Principal.Issuer p) (Principal.Subject p);;
    Ok tt
  else if kind == PrincipalLegacyAdmin then
    fail (ErrOther "legacy administrator principal is not canonical")
      when (Principal.ID p != "legacy_admin") || hasOIDCClaims p || (Principal.DisplayName p != "") || (Principal.Email p != "");;
    Ok tt
  else if kind == PrincipalService then
    fail (ErrOther "service principal is not canonical")
      when negb (validPrefixedID (Principal.ID p) "service_") || hasOIDCClaims p || (Principal.Email p != "");;
    Ok tt
  else if kind == PrincipalBreakGlass then
    fail (ErrOther "break-glass principal is not canonical")
      when negb (validPrefixedID (Principal.ID p) "breakglass_bg_") || hasOIDCClaims p || (Principal.DisplayName p != "")
        || (Principal.Email p != "");;
    Ok tt
  else Err (ErrOther "unsupported principal kind").
Definition Validate_principal (p : Principal.t) : result unit :=
  fail (ErrOther "principal has an invalid identity or authentication time")
    when negb (identifierPattern (Principal.ID p)) || negb (isCanonicalTime (Principal.AuthTime p));;
  _ ← Validate_kind p;
  fail (ErrOther "principal display name is invalid")
    when (Principal.DisplayName p != "") && negb (validBoundedText (Principal.DisplayName p) 1 256);;
  fail (ErrOther "principal email is not canonical") when (Principal.Email p != "") && negb (validCanonicalEmail (Principal.Email p));;
  _ ← validateCanonicalClaimValues (Principal.Groups p) 256 256;
  fail (ErrOther "principal ACR is invalid") when (Principal.ACR p != "") && negb (validBoundedText (Principal.ACR p) 1 256);;
  validateCanonicalClaimValues (Principal.AMR p) 16 64.
Definition Principal_Actor (p : Principal.t) (sessionID : string) : result Actor.t :=
  _ ← Validate_principal p;
  fail (ErrOther "actor session ID is invalid") when (sessionID != "") && negb (identifierPattern sessionID);;
  Ok (Actor.make (Principal.ID p) (Principal.Kind p) sessionID).
(** The groups and methods of a claim, sorted. *)
Definition NewOIDCPrincipal (issuer subject displayName email : string) (groups : list string) (acr : string) (amr : list string) (authTime : time) :
    result Principal.t :=
  let principal := Principal.make (oidc_id issuer subject) PrincipalOIDCAdmin issuer subject displayName email (sort_by str_le groups) acr
                     (sort_by str_le amr) authTime in
  _ ← Validate_principal principal;
  Ok principal.
Definition NewLegacyPrincipal (authTime : time) : result Principal.t :=
  let principal := Principal.make "legacy_admin" PrincipalLegacyAdmin "" "" "" "" [] "" [] authTime in
  _ ← Validate_principal principal;
  Ok principal.
Definition NewServicePrincipal (recordID displayName : string) (authTime : time) : result Principal.t :=
  fail (ErrOther "service principal record ID is invalid")
    when negb (identifierPattern recordID) || (128 <? len ("service_" +:+ recordID));;
  let principal := Principal.make ("service_" +:+ recordID) PrincipalService "" "" displayName "" [] "" [] authTime in
  _ ← Validate_principal principal;
  Ok principal.
Definition NewBreakGlassPrincipal (codeID : string) (authTime : time) : result Principal.t :=
  fail (ErrOther "break-glass code ID is invalid")
    when negb (identifierPattern codeID) || negb (HasPrefix codeID "bg_") || (128 <? len ("breakglass_" +:+ codeID));;
  let principal := Principal.make ("breakglass_" +:+ codeID) PrincipalBreakGlass "" "" "" "" [] "" [] authTime in
  _ ← Validate_principal principal;
  Ok principal.
End identities.

Definition Validate_actor (a : Actor.t) : result unit :=
  fail (ErrOther "actor has invalid identifiers")
    when negb (identifierPattern (Actor.ID a)) || ((Actor.SessionID a != "") && negb (identifierPattern (Actor.SessionID a)));;
  let id := Actor.ID a in
  let kind := Actor.Kind a in
  let known := (if kind == PrincipalOIDCAdmin then Some (validPrefixedID id "oidc_")
                else if kind == PrincipalLegacyAdmin then Some (id == "legacy_admin")
                else if kind == PrincipalService then Some (validPrefixedID id "service_")
                else if kind == PrincipalBreakGlass then Some (validPrefixedID id "breakglass_bg_") else None) in
  matches ← of_option known (ErrOther "actor has unsupported kind");
  fail (ErrOther "actor ID does not match its kind") when negb matches;;
  Ok tt.

(** ** The audit log (audit.go) *)
Definition IdentityAuditSessionCreated : string := "session.created".
Definition IdentityAuditSessionRotated : string := "session.rotated".
Definition IdentityAuditSessionRevoked : string := "session.revoked".
Definition IdentityAuditPrincipalRevoked : string := "principal.revoked".
Definition IdentityAuditBreakGlassRegistered : string := "break_glass.registered".
Definition IdentityAuditBreakGlassConsumed : string := "break_glass.consumed".
Definition IdentityAuditBreakGlassRevoked : string := "break_glass.revoked".
Definition maxIdentityAuditDetails : nat := 8.
Definition maxSessions : Z := 4096.

Module IdentityAuditEvent.
Record t := make {
  ID : string; Type_ : string; At : time; Actor : Actor.t; TargetPrincipalID : string; TargetSessionID : string;
  Details : gmap string string }.
#[global] Instance t_eq_dec : EqDecision t.
Proof. solve_decision. Defined.
End IdentityAuditEvent.

Definition validAuditAuthMethod (value : string) : bool := contains ["oidc"; "legacy_token"; "service_account"; "break_glass"] value.
(** strconv.ParseUint in base ten. *)
Definition ParseUint (s : string) : option Z :=
  match bytes_of s with
  | [] => None
  | l => match digits_value 0 l with Some v => if v <? 2 ^ 64 then Some v else None | None => None end
  end.
Definition validAuditSessionVersion (value : string) : bool :=
  match ParseUint value with Some parsed => (0 <? parsed) && (Itoa parsed == value) | None => false end.
Definition validAuditRevokedCount (value : string) : bool :=
  match Atoi value with
  | Some parsed => (0 <? parsed) && (parsed <=? maxSessions) && (Itoa parsed == value)
  | None => false
  end.
(** The layout without a fraction of a second. *)
Definition RFC3339 (t : time) : string := RFC3339Nano (t - t `mod` second).
Definition validCanonicalAuditTime (value : string) : bool :=
  match ParseRFC3339Nano value with Some parsed => RFC3339 parsed == value | None => false end.
Definition exactAuditDetailKeys (details : gmap string string) (keys : list string) : bool :=
  (size details =? length keys)%nat && forallb (λ key, bool_decide (is_Some (details !! key))) keys.
Definition reserved_keys : list string :=
  ["id"; "type"; "at"; "actor"; "actor_id"; "actor_kind"; "actor_session_id"; "target_principal_id"; "target_session_id"; "details"].

Section events.
Import IdentityAuditEvent.
Definition detail (event : t) (key : string) : string := default "" (Details event !! key).
(** The event's own form, per type. *)
Definition canonical_event (event : t) : bool :=
  let own := (TargetSessionID event != "") && (Actor.ID (Actor event) == TargetPrincipalID event)
             && (Actor.SessionID (Actor event) == TargetSessionID event) in
  let code := (TargetSessionID event == "") && exactAuditDetailKeys (Details event) ["expires_at"]
              && validCanonicalAuditTime (detail event "expires_at") in
  let managed := code && (Actor.Kind (Actor event) != PrincipalBreakGlass)
                 && validPrefixedID (TargetPrincipalID event) "breakglass_bg_" in
  let type := Type_ event in
  if type == IdentityAuditSessionCreated then
    own && exactAuditDetailKeys (Details event) ["auth_method"; "session_version"]
    && validAuditSessionVersion (detail event "session_version") && validAuditAuthMethod (detail event "auth_method")
  else if type == IdentityAuditSessionRotated then
    own && exactAuditDetailKeys (Details event) ["session_version"] && validAuditSessionVersion (detail event "session_version")
  else if type == IdentityAuditSessionRevoked then
    (TargetSessionID event != "") && exactAuditDetailKeys (Details event) ["reason"; "session_version"]
    && validReason (detail event "reason") && validAuditSessionVersion (detail event "session_version")
  else if type == IdentityAuditPrincipalRevoked then
    (TargetSessionID event == "") && exactAuditDetailKeys (Details event) ["reason"; "revoked_sessions"]
    && validReason (detail event "reason") && validAuditRevokedCount (detail event "revoked_sessions")
  else if type == IdentityAuditBreakGlassRegistered then managed
  else if type == IdentityAuditBreakGlassConsumed then
    code && (Actor.Kind (Actor event) == PrincipalBreakGlass) && (Actor.ID (Actor event) == TargetPrincipalID event)
  else if type == IdentityAuditBreakGlassRevoked then managed
  else false.
Definition validateIdentityAuditEvent (event : t) : result unit :=
  fail (ErrOther "identity audit event has an invalid ID")
    when negb (HasPrefix (ID event) "audit_") || negb (ValidOpaqueToken (TrimPrefix (ID event) "audit_"));;
  fail (ErrOther "identity audit event has an invalid timestamp") when negb (isCanonicalTime (At event));;
  _ ← Validate_actor (Actor event);
  fail (ErrOther "identity audit event has an invalid target")
    when negb (identifierPattern (TargetPrincipalID event))
      || ((TargetSessionID event != "") && negb (identifierPattern (TargetSessionID event)));;
  fail (ErrOther "identity audit event details must be present and bounded") when (maxIdentityAuditDetails <? size (Details event))%nat;;
  fail (ErrOther "identity audit event has an invalid detail")
    when negb (forallb (λ kv, negb (contains reserved_keys (fst kv)) && identifierPattern (fst kv) && validBoundedText (snd kv) 1 256)
                 (map_to_list (Details event)));;
  fail (ErrOther "audit event is not canonical") when negb (canonical_event event);;
  Ok tt.
(** [token] is what the random source returns. *)
Definition newIdentityAuditEvent (token : result string) (eventType : string) (at_ : time) (actor : Actor.t)
    (targetPrincipalID targetSessionID : string) (details : gmap string string) : result t :=
  token ← token;
  let event := make ("audit_" +:+ token) eventType at_ actor targetPrincipalID targetSessionID details in
  _ ← validateIdentityAuditEvent event;
  Ok event.
End events.

(** ** The document (store.go, filestore.go) *)
Module LoginAttempt.
Record t := make {
  ID : string; TransactionHash : string; StateHash : string; SealedOIDCPayload : string; ReturnPath : string; CreatedAt : time;
  ExpiresAt : time }.
#[global] Instance t_eq_dec : EqDecision t.
Proof. solve_decision. Defined.
End LoginAttempt.
Module Session.
Record t := make {
  ID : string; TokenHash : string; CSRFHash : string; Principal : Principal.t; PolicyFingerprint : string; AuthMethod : string;
  CreatedAt : time; LastSeenAt : time; IdleExpiresAt : time; AbsoluteExpiresAt : time; RevokedAt : option time;
  RevocationReason : string; Version : Z }.
#[global] Instance t_eta : Eta t := λ r, make (ID r) (TokenHash r) (CSRFHash r) (Principal r) (PolicyFingerprint r) (AuthMethod r)
  (CreatedAt r) (LastSeenAt r) (IdleExpiresAt r) (AbsoluteExpiresAt r) (RevokedAt r) (RevocationReason r) (Version r).
#[global] Instance t_eq_dec : EqDecision t.
Proof. solve_decision. Defined.
End Session.
Module BreakGlassCode.
Record t := make {
  ID : string; TokenHash : string; CreatedAt : time; ExpiresAt : time; UsedAt : option time; RevokedAt : option time }.
#[global] Instance t_eta : Eta t := λ r, make (ID r) (TokenHash r) (CreatedAt r) (ExpiresAt r) (UsedAt r) (RevokedAt r).
#[global] Instance t_eq_dec : EqDecision t.
Proof. solve_decision. Defined.
End BreakGlassCode.
Module DesktopAuthorization.
Record t := make {
  ID : string; PollSecretHash : string; State : string; Principal : Principal.t; CreatedAt : time; ExpiresAt : time;
  PollIntervalSeconds : Z; LastPolledAt : option time; DecidedAt : option time; Version : Z }.
#[global] Instance t_eta : Eta t := λ r, make (ID r) (PollSecretHash r) (State r) (Principal r) (CreatedAt r) (ExpiresAt r)
  (PollIntervalSeconds r) (LastPolledAt r) (DecidedAt r) (Version r).
#[global] Instance t_eq_dec : EqDecision t.
Proof. solve_decision. Defined.
End DesktopAuthorization.
Module IdentityState.
Record t := make {
  Schema : string; LoginAttempts : list LoginAttempt.t; Sessions : list Session.t; BreakGlassCodes : list BreakGlassCode.t;
  DesktopAuthorizations : list DesktopAuthorization.t; Audit : list IdentityAuditEvent.t }.
#[global] Instance t_eta : Eta t := λ r, make (Schema r) (LoginAttempts r) (Sessions r) (BreakGlassCodes r)
  (DesktopAuthorizations r) (Audit r).
#[global] Instance t_eq_dec : EqDecision t.
Proof. solve_decision. Defined.
End IdentityState.

Definition identityStateSchema : string := "identity-state-v2".
Definition maxLoginAttempts : Z := 1024.
Definition maxBreakGlassCodes : Z := 256.
Definition maxDesktopAuthorizations : Z := 256.
Definition maxIdentityAuditEvents : Z := 8192.
Definition MinBreakGlassCodeLifetime : duration := 10 * minute.
Definition MaxBreakGlassCodeLifetime : duration := 90 * 24 * hour.
Definition DesktopAuthorizationPending : string := "pending".
Definition DesktopAuthorizationApproved : string := "approved".
Definition DesktopAuthorizationDenied : string := "denied".
Definition DesktopAuthorizationExpired : string := "expired".

(** ** The check of the document *)
Definition count {A} (l : list A) : Z := Z.of_nat (length l).
(** The identities and the credentials taken so far. *)
Definition claims : Type := (gset string * gset string)%type.
Definition claimIdentity (id : string) (c : claims) : result claims :=
  fail (ErrOther "record has an invalid ID") when negb (identifierPattern id);;
  fail (ErrOther "ID is already used") when bool_decide (id ∈ fst c);;
  Ok ({[id]} ∪ fst c, snd c).
Definition claimCredential (hash : string) (c : claims) : result claims :=
  fail (ErrOther "record has an invalid credential hash") when negb (ValidCredentialHash hash);;
  fail (ErrOther "record reuses a credential hash") when bool_decide (hash ∈ snd c);;
  Ok (fst c, {[hash]} ∪ snd c).
Fixpoint claim_all {A} (check : A → claims → result claims) (l : list A) (c : claims) : result claims :=
  match l with
  | [] => Ok c
  | x :: rest => c ← check x c; claim_all check rest c
  end.
Fixpoint distinct_events (ids : list string) (events : list IdentityAuditEvent.t) : result unit :=
  match events with
  | [] => Ok tt
  | event :: rest =>
      _ ← validateIdentityAuditEvent event;
      fail (ErrOther "identity audit event duplicates an ID") when contains ids (IdentityAuditEvent.ID event);;
      distinct_events (IdentityAuditEvent.ID event :: ids) rest
  end.

Definition opt_ok (p : time → bool) (t : option time) : bool := match t with Some t => p t | None => true end.

Section checks.
Context `{URLs, IdentityURLs, Sealer}.

Definition openOIDCPayload (encoded : string) : result OIDCPayload.t :=
  payload ← OpenFor OIDCTransactionSealPurpose encoded;
  fail (ErrOther "OIDC login payload contains invalid credentials")
    when negb (ValidOpaqueToken (OIDCPayload.Nonce payload)) || negb (ValidOpaqueToken (OIDCPayload.PKCEVerifier payload));;
  Ok payload.
Definition containsUnsafeRedirectText (value : string) : bool :=
  contains_char value "092"%char || negb (forallb printable (bytes_of value)).
Definition validReturnPath (value : string) : bool :=
  negb ((len value <? 1) || (1024 <? len value) || negb (HasPrefix value "/") || HasPrefix value "//"
        || ContainsAny value ["013"%char; "010"%char; "092"%char]) &&
  match url_ParseRequestURI value with
  | Some parsed =>
      negb ((URL.Scheme parsed != "") || (URL.Host parsed != "") || (URL.Fragment parsed != "") || negb (HasPrefix (URL.Path parsed) "/")
            || HasPrefix (URL.Path parsed) "//" || containsUnsafeRedirectText (URL.Path parsed)) &&
      match url_QueryUnescape (URL.RawQuery parsed) with
      | Some decoded => negb (containsUnsafeRedirectText decoded)
      | None => false
      end
  | None => false
  end.

Definition check_attempt (a : LoginAttempt.t) (c : claims) : result claims :=
  c ← claimIdentity (LoginAttempt.ID a) c;
  c ← claimCredential (LoginAttempt.TransactionHash a) c;
  c ← claimCredential (LoginAttempt.StateHash a) c;
  let created := LoginAttempt.CreatedAt a in
  let expires := LoginAttempt.ExpiresAt a in
  fail (ErrOther "login attempt has invalid lifecycle metadata")
    when negb (isCanonicalTime created) || negb (isCanonicalTime expires) || negb (After expires created)
      || (Sub expires created <? minute) || (10 * minute <? Sub expires created) || negb (validReturnPath (LoginAttempt.ReturnPath a))
      || (len (LoginAttempt.SealedOIDCPayload a) <? 1) || (8192 <? len (LoginAttempt.SealedOIDCPayload a));;
  _ ← openOIDCPayload (LoginAttempt.SealedOIDCPayload a);
  Ok c.

Definition want_method (kind : string) : string :=
  if kind == PrincipalOIDCAdmin then "oidc" else if kind == PrincipalLegacyAdmin then "legacy_token"
  else if kind == PrincipalService then "service_account" else if kind == PrincipalBreakGlass then "break_glass" else "".
Definition validateSession (s : Session.t) : result unit :=
  let created := Session.CreatedAt s in
  let seen := Session.LastSeenAt s in
  let idle := Session.IdleExpiresAt s in
  let absolute := Session.AbsoluteExpiresAt s in
  fail (ErrOther "invalid identity, credential, policy, or version")
    when negb (identifierPattern (Session.ID s)) || negb (ValidCredentialHash (Session.TokenHash s))
      || negb (ValidCredentialHash (Session.CSRFHash s)) || CredentialHashEqual (Session.TokenHash s) (Session.CSRFHash s)
      || negb (validPolicyFingerprint (Session.PolicyFingerprint s)) || (Session.Version s <? 1);;
  _ ← Validate_principal (Session.Principal s);
  fail (ErrOther "authentication method does not match principal kind")
    when Session.AuthMethod s != want_method (Principal.Kind (Session.Principal s));;
  fail (ErrOther "invalid session lifetime")
    when negb (isCanonicalTime created) || negb (isCanonicalTime seen) || negb (isCanonicalTime idle) || negb (isCanonicalTime absolute)
      || Before seen created || negb (After idle seen) || (hour <? Sub idle seen) || negb (After absolute created)
      || (Sub absolute created <? 15 * minute) || After idle absolute || (8 * hour <? Sub absolute created);;
  fail (ErrOther "principal authentication time is after session creation")
    when After (Principal.AuthTime (Session.Principal s)) (created + 2 * minute);;
  fail (ErrOther "invalid session revocation metadata")
    when negb (Bool.eqb (bool_decide (Session.RevokedAt s = None)) (Session.RevocationReason s == ""))
      || negb (opt_ok (λ at_, isCanonicalTime at_ && negb (Before at_ created)) (Session.RevokedAt s))
      || ((Session.RevocationReason s != "") && negb (validReason (Session.RevocationReason s)));;
  Ok tt.
Definition check_session (s : Session.t) (c : claims) : result claims :=
  c ← claimIdentity (Session.ID s) c;
  c ← claimCredential (Session.TokenHash s) c;
  c ← claimCredential (Session.CSRFHash s) c;
  _ ← validateSession s;
  Ok c.

Definition check_code (code : BreakGlassCode.t) (c : claims) : result claims :=
  c ← claimIdentity (BreakGlassCode.ID code) c;
  fail (ErrOther "break-glass code has a noncanonical ID") when negb (HasPrefix (BreakGlassCode.ID code) "bg_");;
  c ← claimCredential (BreakGlassCode.TokenHash code) c;
  let created := BreakGlassCode.CreatedAt code in
  let expires := BreakGlassCode.ExpiresAt code in
  fail (ErrOther "break-glass code has invalid lifecycle metadata")
    when negb (isCanonicalTime created) || negb (isCanonicalTime expires) || negb (After expires created)
      || (Sub expires created <? MinBreakGlassCodeLifetime) || (MaxBreakGlassCodeLifetime <? Sub expires created)
      || negb (opt_ok (λ used, isCanonicalTime used && negb (Before used created) && Before used expires) (BreakGlassCode.UsedAt code))
      || negb (opt_ok (λ revoked, isCanonicalTime revoked && negb (Before revoked created)) (BreakGlassCode.RevokedAt code))
      || (bool_decide (is_Some (BreakGlassCode.UsedAt code)) && bool_decide (is_Some (BreakGlassCode.RevokedAt code)));;
  Ok c.

Definition ValidDesktopAuthorizationRequestID (value : string) : bool :=
  HasPrefix value "desktop_" && (let rest := bytes_of (TrimPrefix value "desktop_") in (length rest =? 43)%nat && forallb group_tail rest).
Definition validateDesktopAuthorizationRecord (r : DesktopAuthorization.t) : result unit :=
  let created := DesktopAuthorization.CreatedAt r in
  let expires := DesktopAuthorization.ExpiresAt r in
  let interval := wrap64 (DesktopAuthorization.PollIntervalSeconds r * second) in
  fail (ErrOther "invalid lifecycle metadata")
    when negb (isCanonicalTime created) || negb (isCanonicalTime expires) || negb (After expires created)
      || (Sub expires created <? minute) || (10 * minute <? Sub expires created) || (interval <? second) || (30 * second <? interval)
      || (DesktopAuthorization.Version r <? 1);;
  fail (ErrOther "invalid poll metadata")
    when negb (opt_ok (λ polled, isCanonicalTime polled && negb (Before polled created) && Before polled expires)
                 (DesktopAuthorization.LastPolledAt r));;
  let state := DesktopAuthorization.State r in
  if state == DesktopAuthorizationPending then
    fail (ErrOther "pending request contains decision data")
      when bool_decide (is_Some (DesktopAuthorization.DecidedAt r)) || (Principal.ID (DesktopAuthorization.Principal r) != "");;
    Ok tt
  else if (state == DesktopAuthorizationApproved) || (state == DesktopAuthorizationDenied) then
    fail (ErrOther "decided request contains invalid decision data")
      when negb (bool_decide (is_Some (DesktopAuthorization.DecidedAt r)))
        || negb (opt_ok (λ decided, isCanonicalTime decided && negb (Before decided created) && Before decided expires)
                   (DesktopAuthorization.DecidedAt r))
        || negb (is_ok (Validate_principal (DesktopAuthorization.Principal r)));;
    Ok tt
  else Err (ErrOther "invalid state").
Definition check_desktop (r : DesktopAuthorization.t) (c : claims) : result claims :=
  c ← claimIdentity (DesktopAuthorization.ID r) c;
  fail (ErrOther "desktop authorization has a noncanonical ID") when negb (ValidDesktopAuthorizationRequestID (DesktopAuthorization.ID r));;
  c ← claimCredential (DesktopAuthorization.PollSecretHash r) c;
  _ ← validateDesktopAuthorizationRecord r;
  Ok c.

Definition validateState (state : IdentityState.t) : result unit :=
  fail (ErrOther "unsupported identity state schema") when IdentityState.Schema state != identityStateSchema;;
  fail (ErrOther "identity state exceeds a record-count limit")
    when (maxLoginAttempts <? count (IdentityState.LoginAttempts state)) || (maxSessions <? count (IdentityState.Sessions state))
      || (maxBreakGlassCodes <? count (IdentityState.BreakGlassCodes state))
      || (maxDesktopAuthorizations <? count (IdentityState.DesktopAuthorizations state))
      || (maxIdentityAuditEvents <? count (IdentityState.Audit state));;
  c ← claim_all check_attempt (IdentityState.LoginAttempts state) (∅, ∅);
  c ← claim_all check_session (IdentityState.Sessions state) c;
  c ← claim_all check_code (IdentityState.BreakGlassCodes state) c;
  _ ← claim_all check_desktop (IdentityState.DesktopAuthorizations state) c;
  distinct_events [] (IdentityState.Audit state).
End checks.

(** ** Operations

    A transaction: the changed document is committed when it passes the check. *)
Module LoginAttemptInput.
Record t := make {
  ID : string; TransactionToken : string; StateToken : string; Nonce : string; PKCEVerifier : string; ReturnPath : string;
  CreatedAt : time; ExpiresAt : time }.
End LoginAttemptInput.
Module ConsumedLoginAttempt.
Record t := make { ID : string; Nonce : string; PKCEVerifier : string; ReturnPath : string; CreatedAt : time; ExpiresAt : time }.
End ConsumedLoginAttempt.
Module CreateSessionInput.
Record t := make {
  ID : string; Token : string; CSRFToken : string; Principal : Principal.t; PolicyFingerprint : string; AuthMethod : string;
  CreatedAt : time; LastSeenAt : time; IdleExpiresAt : time; AbsoluteExpiresAt : time }.
End CreateSessionInput.
Module BreakGlassCodeInput.
Record t := make { ID : string; Token : string; CreatedAt : time; ExpiresAt : time }.
End BreakGlassCodeInput.
Module DesktopInput.
Record t := make { ID : string; PollSecret : string; CreatedAt : time; ExpiresAt : time; PollInterval : duration }.
End DesktopInput.
Module DesktopPoll.
Record t := make { State : string; Principal : Principal.t; ExpiresAt : time; PollInterval : duration }.
End DesktopPoll.

Module BreakGlassCodeSummary.
Record t := make {
  ID : string; CreatedAt : time; ExpiresAt : time; UsedAt : option time; RevokedAt : option time; State : string }.
End BreakGlassCodeSummary.
Module SessionSummary.
Record t := make {
  ID : string; Principal : Principal.t; PolicyFingerprint : string; AuthMethod : string; CreatedAt : time; LastSeenAt : time;
  IdleExpiresAt : time; AbsoluteExpiresAt : time; RevokedAt : option time; RevocationReason : string; Version : Z }.
End SessionSummary.
Module SessionListFilter.
Record t := make { PrincipalID : string; IncludeRevoked : bool; Limit : Z }.
End SessionListFilter.
Module IdentityAuditListFilter.
Record t := make { PrincipalID : string; SessionID : string; Type_ : string; Limit : Z }.
End IdentityAuditListFilter.
Module CleanupResult.
Record t := make { LoginAttempts : Z; Sessions : Z; BreakGlassCodes : Z; DesktopAuthorizations : Z }.
End CleanupResult.

(** An unsigned counter of 64 bits. *)
Definition next_version (v : Z) : Z := (v + 1) `mod` 2 ^ 64.

(** The backend of the store in one call: it refuses the call (a cancelled context, a
    closed store, an earlier write whose durability is still uncertain), and it
    answers for the write of a document. *)
Inductive write := Written | WriteFailed (e : err) | WriteUncertain.
Class Backend := { refuses : option err; stores : IdentityState.t → write }.
Definition ErrUncertainCommit : err := ErrOther "identity state commit durability is uncertain".

Section operations.
Context `{URLs, IdentityURLs, Sealer} {backend : Backend}.

Definition update {A} (mutate : IdentityState.t → result (IdentityState.t * A)) (s : IdentityState.t) : IdentityState.t * result A :=
  match refuses with
  | Some e => (s, Err e)
  | None =>
      match ('(next, a) ← mutate s; _ ← validateState next; Ok (next, a)) with
      | Err e => (s, Err e)
      | Ok (next, a) =>
          if bool_decide (next = s) then (s, Ok a) else
          match stores next with
          | Written => (next, Ok a)
          | WriteFailed e => (s, Err e)
          | WriteUncertain => (next, Err ErrUncertainCommit)
          end
      end
  end.
(** A read of the current document. *)
Definition view : result unit := match refuses with Some e => Err e | None => Ok tt end.
(** What a transaction found, after it has been committed. *)
Definition found {A} (r : IdentityState.t * result (option A)) : IdentityState.t * result A :=
  (fst r, o ← snd r; of_option o ErrUnauthorized).

Definition pruneDesktopAuthorizations (now : time) (removeExpired : bool) (s : IdentityState.t) : IdentityState.t :=
  s <| IdentityState.DesktopAuthorizations := filter (λ r, Before now (if removeExpired then DesktopAuthorization.ExpiresAt r
                                                                       else DesktopAuthorization.ExpiresAt r + 5 * minute) = true)
                                                (IdentityState.DesktopAuthorizations s) |>.
Definition pruneExpired (now : time) (s : IdentityState.t) : IdentityState.t :=
  pruneDesktopAuthorizations now true
    (s <| IdentityState.LoginAttempts := filter (λ a, Before now (LoginAttempt.ExpiresAt a) = true) (IdentityState.LoginAttempts s) |>
       <| IdentityState.Sessions := filter (λ x, Before now (Session.IdleExpiresAt x) && Before now (Session.AbsoluteExpiresAt x) = true)
                                      (IdentityState.Sessions s) |>
       <| IdentityState.BreakGlassCodes := filter (λ c, Before now (BreakGlassCode.ExpiresAt c) = true) (IdentityState.BreakGlassCodes s) |>).

Definition appendIdentityAudit (event : IdentityAuditEvent.t) (s : IdentityState.t) : result IdentityState.t :=
  _ ← validateIdentityAuditEvent event;
  fail ErrLimit when maxIdentityAuditEvents <=? count (IdentityState.Audit s);;
  fail ErrConflict when contains (IdentityAuditEvent.ID <$> IdentityState.Audit s) (IdentityAuditEvent.ID event);;
  Ok (s <| IdentityState.Audit := IdentityState.Audit s ++ [event] |>).

Definition put_session (i : nat) (x : Session.t) (s : IdentityState.t) : IdentityState.t :=
  s <| IdentityState.Sessions := <[i := x]> (IdentityState.Sessions s) |>.
Definition put_code (i : nat) (c : BreakGlassCode.t) (s : IdentityState.t) : IdentityState.t :=
  s <| IdentityState.BreakGlassCodes := <[i := c]> (IdentityState.BreakGlassCodes s) |>.
Definition put_desktop (i : nat) (r : DesktopAuthorization.t) (s : IdentityState.t) : IdentityState.t :=
  s <| IdentityState.DesktopAuthorizations := <[i := r]> (IdentityState.DesktopAuthorizations s) |>.
Definition drop_desktop (i : nat) (s : IdentityState.t) : IdentityState.t :=
  s <| IdentityState.DesktopAuthorizations := delete i (IdentityState.DesktopAuthorizations s) |>.
Definition drop_attempt (i : nat) (s : IdentityState.t) : IdentityState.t :=
  s <| IdentityState.LoginAttempts := delete i (IdentityState.LoginAttempts s) |>.
Definition session_at (s : IdentityState.t) (id : string) : option (nat * Session.t) :=
  list_find (λ x, Session.ID x = id) (IdentityState.Sessions s).
Definition code_at (s : IdentityState.t) (id : string) : option (nat * BreakGlassCode.t) :=
  list_find (λ c, BreakGlassCode.ID c = id) (IdentityState.BreakGlassCodes s).

(** *** Login attempts *)
Definition canonicalLoginInput (input : LoginAttemptInput.t) : result OIDCPayload.t :=
  fail (ErrOther "login transaction contains invalid identifiers or credentials")
    when negb (identifierPattern (LoginAttemptInput.ID input)) || negb (ValidOpaqueToken (LoginAttemptInput.TransactionToken input))
      || negb (ValidOpaqueToken (LoginAttemptInput.StateToken input)) || negb (ValidOpaqueToken (LoginAttemptInput.Nonce input))
      || negb (ValidOpaqueToken (LoginAttemptInput.PKCEVerifier input));;
  let created := LoginAttemptInput.CreatedAt input in
  let expires := LoginAttemptInput.ExpiresAt input in
  fail (ErrOther "login transaction contains invalid lifecycle metadata")
    when IsZero created || IsZero expires || negb (After expires created) || (Sub expires created <? minute)
      || (10 * minute <? Sub expires created) || negb (validReturnPath (LoginAttemptInput.ReturnPath input));;
  Ok (OIDCPayload.make (LoginAttemptInput.Nonce input) (LoginAttemptInput.PKCEVerifier input)).
Definition same_attempt (a b : LoginAttempt.t) : bool :=
  (LoginAttempt.ID a == LoginAttempt.ID b) && CredentialHashEqual (LoginAttempt.TransactionHash a) (LoginAttempt.TransactionHash b)
  && CredentialHashEqual (LoginAttempt.StateHash a) (LoginAttempt.StateHash b) && (LoginAttempt.ReturnPath a == LoginAttempt.ReturnPath b)
  && (LoginAttempt.CreatedAt a =? LoginAttempt.CreatedAt b) && (LoginAttempt.ExpiresAt a =? LoginAttempt.ExpiresAt b).
Definition attempt_collides (record existing : LoginAttempt.t) : bool :=
  (LoginAttempt.ID existing == LoginAttempt.ID record)
  || CredentialHashEqual (LoginAttempt.TransactionHash existing) (LoginAttempt.TransactionHash record)
  || CredentialHashEqual (LoginAttempt.StateHash existing) (LoginAttempt.StateHash record).
Definition CreateLoginAttempt (input : LoginAttemptInput.t) (s : IdentityState.t) : IdentityState.t * result unit :=
  match (payload ← canonicalLoginInput input;
         transactionHash ← HashOpaqueToken (LoginAttemptInput.TransactionToken input);
         stateHash ← HashOpaqueToken (LoginAttemptInput.StateToken input);
         sealed ← SealFor OIDCTransactionSealPurpose payload;
         Ok (payload, LoginAttempt.make (LoginAttemptInput.ID input) transactionHash stateHash sealed (LoginAttemptInput.ReturnPath input)
                        (LoginAttemptInput.CreatedAt input) (LoginAttemptInput.ExpiresAt input))) with
  | Err e => (s, Err e)
  | Ok (payload, record) =>
      update (λ s,
        let s := pruneExpired (LoginAttempt.CreatedAt record) s in
        match list_find (λ existing, attempt_collides record existing = true) (IdentityState.LoginAttempts s) with
        | Some (_, existing) =>
            existingPayload ← openOIDCPayload (LoginAttempt.SealedOIDCPayload existing);
            fail ErrConflict when negb (same_attempt existing record && (existingPayload == payload));;
            Ok (s, tt)
        | None =>
            fail ErrLimit when maxLoginAttempts <=? count (IdentityState.LoginAttempts s);;
            Ok (s <| IdentityState.LoginAttempts := IdentityState.LoginAttempts s ++ [record] |>, tt)
        end) s
  end.
Definition ConsumeLoginAttempt (transactionToken stateToken : string) (now : time) (s : IdentityState.t) : IdentityState.t * result ConsumedLoginAttempt.t :=
  match HashOpaqueToken transactionToken, HashOpaqueToken stateToken with
  | Ok transactionHash, Ok stateHash =>
      if IsZero now then (s, Err ErrUnauthorized) else
      found (update (λ s,
        match list_find (λ a, CredentialHashEqual (LoginAttempt.TransactionHash a) transactionHash = true) (IdentityState.LoginAttempts s) with
        | Some (i, attempt) =>
            if negb (CredentialHashEqual (LoginAttempt.StateHash attempt) stateHash) then Ok (s, None)
            else if negb (Before now (LoginAttempt.ExpiresAt attempt)) then Ok (drop_attempt i s, None)
            else
              payload ← openOIDCPayload (LoginAttempt.SealedOIDCPayload attempt);
              Ok (drop_attempt i s, Some (ConsumedLoginAttempt.make (LoginAttempt.ID attempt) (OIDCPayload.Nonce payload)
                    (OIDCPayload.PKCEVerifier payload) (LoginAttempt.ReturnPath attempt) (LoginAttempt.CreatedAt attempt)
                    (LoginAttempt.ExpiresAt attempt)))
        | None => Ok (pruneExpired now s, None)
        end) s)
  | _, _ => (s, Err ErrUnauthorized)
  end.

(** *** Sessions *)
Definition canonicalSessionInput (input : CreateSessionInput.t) : result Session.t :=
  tokenHash ← HashOpaqueToken (CreateSessionInput.Token input);
  csrfHash ← HashOpaqueToken (CreateSessionInput.CSRFToken input);
  fail (ErrOther "session and CSRF credentials must be distinct") when CredentialHashEqual tokenHash csrfHash;;
  let record := Session.make (CreateSessionInput.ID input) tokenHash csrfHash (CreateSessionInput.Principal input)
                  (CreateSessionInput.PolicyFingerprint input) (CreateSessionInput.AuthMethod input) (CreateSessionInput.CreatedAt input)
                  (CreateSessionInput.LastSeenAt input) (CreateSessionInput.IdleExpiresAt input)
                  (CreateSessionInput.AbsoluteExpiresAt input) None "" 1 in
  _ ← validateSession record;
  Ok record.
Definition Session_Actor (x : Session.t) : result Actor.t := Principal_Actor (Session.Principal x) (Session.ID x).
Definition ValidCSRF (x : Session.t) (token : string) : bool := ValidOpaqueToken token && CredentialMatches (Session.CSRFHash x) token.
Definition session_collides (record existing : Session.t) : bool :=
  (Session.ID existing == Session.ID record) || CredentialHashEqual (Session.TokenHash existing) (Session.TokenHash record)
  || CredentialHashEqual (Session.CSRFHash existing) (Session.CSRFHash record).
Definition CreateSession (draw : result string) (input : CreateSessionInput.t) (s : IdentityState.t) : IdentityState.t * result Session.t :=
  match (record ← canonicalSessionInput input;
         actor ← Session_Actor record;
         audit ← newIdentityAuditEvent draw IdentityAuditSessionCreated (Session.CreatedAt record) actor
                   (Principal.ID (Session.Principal record)) (Session.ID record)
                   {["auth_method" := Session.AuthMethod record; "session_version" := "1"]};
         Ok (record, audit)) with
  | Err e => (s, Err e)
  | Ok (record, audit) =>
      update (λ s,
        let s := pruneExpired (Session.CreatedAt record) s in
        match list_find (λ existing, session_collides record existing = true) (IdentityState.Sessions s) with
        | Some (_, existing) => fail ErrConflict when negb (bool_decide (existing = record));; Ok (s, record)
        | None =>
            fail ErrLimit when maxSessions <=? count (IdentityState.Sessions s);;
            s ← appendIdentityAudit audit (s <| IdentityState.Sessions := IdentityState.Sessions s ++ [record] |>);
            Ok (s, record)
        end) s
  end.

Definition live_at (x : Session.t) (now : time) : bool :=
  bool_decide (Session.RevokedAt x = None) && negb (Before now (Session.LastSeenAt x)) && Before now (Session.IdleExpiresAt x)
  && Before now (Session.AbsoluteExpiresAt x).
Definition AuthenticateSession (token policyFingerprint : string) (now : time) (s : IdentityState.t) : result Session.t :=
  match HashOpaqueToken token with
  | Err _ => Err ErrUnauthorized
  | Ok tokenHash =>
      fail ErrUnauthorized when negb (validPolicyFingerprint policyFingerprint) || IsZero now;;
      _ ← view;
      '(_, x) ← of_option (list_find (λ x, CredentialHashEqual (Session.TokenHash x) tokenHash = true) (IdentityState.Sessions s)) ErrUnauthorized;
      fail ErrUnauthorized when negb (live_at x now) || (Session.PolicyFingerprint x != policyFingerprint);;
      Ok x
  end.

Definition seen (x : Session.t) (seenAt idleExpiresAt : time) : bool :=
  (Session.LastSeenAt x =? seenAt) && (Session.IdleExpiresAt x =? idleExpiresAt).
Definition bad_times (x : Session.t) (seenAt idleExpiresAt : time) : bool :=
  Before seenAt (Session.LastSeenAt x) || negb (After idleExpiresAt seenAt) || After idleExpiresAt (Session.AbsoluteExpiresAt x).
Definition TouchSession (sessionID : string) (expectedVersion : Z) (seenAt idleExpiresAt : time) (s : IdentityState.t) : IdentityState.t * result Session.t :=
  if negb (identifierPattern sessionID) || (expectedVersion =? 0) || IsZero seenAt || IsZero idleExpiresAt then (s, Err ErrConflict) else
  update (λ s,
    '(i, x) ← of_option (session_at s sessionID) ErrNotFound;
    fail ErrUnauthorized when bool_decide (is_Some (Session.RevokedAt x)) || negb (Before seenAt (Session.IdleExpiresAt x))
      || negb (Before seenAt (Session.AbsoluteExpiresAt x));;
    if (Session.Version x =? next_version expectedVersion) && seen x seenAt idleExpiresAt then Ok (s, x) else
    fail ErrConflict when negb (Session.Version x =? expectedVersion) || bad_times x seenAt idleExpiresAt;;
    if seen x seenAt idleExpiresAt then Ok (s, x) else
    let x := x <| Session.LastSeenAt := seenAt |> <| Session.IdleExpiresAt := idleExpiresAt |>
               <| Session.Version := next_version (Session.Version x) |> in
    Ok (put_session i x s, x)) s.

Definition uses_credential (hash : string) (x : Session.t) : bool :=
  CredentialHashEqual (Session.TokenHash x) hash || CredentialHashEqual (Session.CSRFHash x) hash.
(** The hashes of the new credentials. *)
Definition rotation_hashes (newToken newCSRFToken : string) : result (string * string) :=
  let indistinct := ErrOther "session and CSRF credentials must be distinct" in
  newTokenHash ← HashOpaqueToken newToken;
  newCSRFHash ← match HashOpaqueToken newCSRFToken with Ok hash => Ok hash | Err _ => Err indistinct end;
  fail indistinct when CredentialHashEqual newTokenHash newCSRFHash;;
  Ok (newTokenHash, newCSRFHash).
Definition RotateSession (draw : result string) (sessionID : string) (expectedVersion : Z) (newToken newCSRFToken : string)
    (seenAt idleExpiresAt : time) (s : IdentityState.t) : IdentityState.t * result Session.t :=
  if negb (identifierPattern sessionID) || (expectedVersion =? 0) || IsZero seenAt || IsZero idleExpiresAt then (s, Err ErrConflict) else
  match rotation_hashes newToken newCSRFToken with
  | Err e => (s, Err e)
  | Ok (newTokenHash, newCSRFHash) =>
      update (λ s,
        '(i, x) ← of_option (session_at s sessionID) ErrNotFound;
        if (Session.Version x =? next_version expectedVersion) && CredentialHashEqual (Session.TokenHash x) newTokenHash
           && CredentialHashEqual (Session.CSRFHash x) newCSRFHash && seen x seenAt idleExpiresAt then Ok (s, x) else
        fail ErrConflict when bool_decide (is_Some (Session.RevokedAt x)) || negb (Session.Version x =? expectedVersion)
          || negb (Before seenAt (Session.IdleExpiresAt x)) || negb (Before seenAt (Session.AbsoluteExpiresAt x))
          || bad_times x seenAt idleExpiresAt;;
        fail ErrConflict when CredentialHashEqual (Session.TokenHash x) newTokenHash || CredentialHashEqual (Session.CSRFHash x) newCSRFHash;;
        fail ErrConflict when existsb (λ other, uses_credential newTokenHash other || uses_credential newCSRFHash other)
                                (delete i (IdentityState.Sessions s));;
        let x := x <| Session.TokenHash := newTokenHash |> <| Session.CSRFHash := newCSRFHash |> <| Session.LastSeenAt := seenAt |>
                   <| Session.IdleExpiresAt := idleExpiresAt |> <| Session.Version := next_version (Session.Version x) |> in
        actor ← Session_Actor x;
        audit ← newIdentityAuditEvent draw IdentityAuditSessionRotated seenAt actor (Principal.ID (Session.Principal x)) (Session.ID x)
                  {["session_version" := Itoa (Session.Version x)]};
        s ← appendIdentityAudit audit (put_session i x s);
        Ok (s, x)) s
  end.

(** *** Revocation *)
Definition authenticateAuditCaller (s : IdentityState.t) (actor : Actor.t) (at_ : time) : result unit :=
  fail ErrUnauthorized when negb (is_ok (Validate_actor actor)) || negb (isCanonicalTime at_);;
  if Actor.SessionID actor == "" then
    fail ErrUnauthorized when (Actor.Kind actor != PrincipalLegacyAdmin) && (Actor.Kind actor != PrincipalService);; Ok tt
  else
    '(_, x) ← of_option (session_at s (Actor.SessionID actor)) ErrUnauthorized;
    fail ErrUnauthorized when (Principal.ID (Session.Principal x) != Actor.ID actor)
      || (Principal.Kind (Session.Principal x) != Actor.Kind actor) || negb (live_at x at_);;
    Ok tt.
Definition revoked (at_ : time) (reason : string) (x : Session.t) : Session.t :=
  x <| Session.RevokedAt := Some at_ |> <| Session.RevocationReason := reason |> <| Session.Version := next_version (Session.Version x) |>.
Definition revokeSession (draw : result string) (caller : option Actor.t) (sessionID : string) (at_ : time) (reason : string) (s : IdentityState.t) :
    IdentityState.t * result Session.t :=
  if negb (identifierPattern sessionID) || IsZero at_ || negb (validReason reason) then (s, Err (ErrOther "invalid session revocation")) else
  update (λ s,
    '(i, x) ← of_option (session_at s sessionID) ErrNotFound;
    match Session.RevokedAt x with
    | Some revokedAt => fail ErrConflict when negb ((revokedAt =? at_) && (Session.RevocationReason x == reason));; Ok (s, x)
    | None =>
        fail (ErrOther "session revocation predates creation") when Before at_ (Session.CreatedAt x);;
        actor ← match caller with None => Session_Actor x | Some actor => Ok actor end;
        _ ← authenticateAuditCaller s actor at_;
        let x := revoked at_ reason x in
        audit ← newIdentityAuditEvent draw IdentityAuditSessionRevoked at_ actor (Principal.ID (Session.Principal x)) (Session.ID x)
                  {["reason" := reason; "session_version" := Itoa (Session.Version x)]};
        s ← appendIdentityAudit audit (put_session i x s);
        Ok (s, x)
    end) s.
Definition RevokeSessionAs (draw : result string) (actor : Actor.t) (sessionID : string) (at_ : time) (reason : string) (s : IdentityState.t) :
    IdentityState.t * result Session.t :=
  match Validate_actor actor with Err e => (s, Err e) | Ok _ => revokeSession draw (Some actor) sessionID at_ reason s end.

(** The sessions of the principal, revoked in order; the first gives the actor of a
    request without a caller. *)
Fixpoint revoke_all (principalID : string) (at_ : time) (reason : string) (actor : option Actor.t) (l : list Session.t) :
    result (list Session.t * option Actor.t * nat) :=
  match l with
  | [] => Ok ([], actor, 0%nat)
  | x :: rest =>
      if (Principal.ID (Session.Principal x) != principalID) || bool_decide (is_Some (Session.RevokedAt x)) then
        '(rest, actor, n) ← revoke_all principalID at_ reason actor rest; Ok (x :: rest, actor, n)
      else
        fail (ErrOther "principal revocation predates a session") when Before at_ (Session.CreatedAt x);;
        actor ← match actor with Some actor => Ok actor | None => Principal_Actor (Session.Principal x) "" end;
        '(rest, actor, n) ← revoke_all principalID at_ reason (Some actor) rest;
        Ok (revoked at_ reason x :: rest, actor, Datatypes.S n)
  end.
Definition revokePrincipal (draw : result string) (caller : option Actor.t) (principalID : string) (at_ : time) (reason : string) (s : IdentityState.t) :
    IdentityState.t * result nat :=
  if negb (identifierPattern principalID) || IsZero at_ || negb (validReason reason) then (s, Err (ErrOther "invalid principal revocation")) else
  update (λ s,
    _ ← match caller with Some actor => authenticateAuditCaller s actor at_ | None => Ok tt end;
    '(sessions, actor, n) ← revoke_all principalID at_ reason caller (IdentityState.Sessions s);
    match n, actor with
    | Datatypes.S _, Some actor =>
        audit ← newIdentityAuditEvent draw IdentityAuditPrincipalRevoked at_ actor principalID ""
                  {["reason" := reason; "revoked_sessions" := Itoa (Z.of_nat n)]};
        s ← appendIdentityAudit audit (s <| IdentityState.Sessions := sessions |>);
        Ok (s, n)
    | _, _ => Ok (s, 0%nat)
    end) s.
Definition RevokePrincipalAs (draw : result string) (actor : Actor.t) (principalID : string) (at_ : time) (reason : string) (s : IdentityState.t) :
    IdentityState.t * result nat :=
  match Validate_actor actor with Err e => (s, Err e) | Ok _ => revokePrincipal draw (Some actor) principalID at_ reason s end.

(** *** Break-glass codes *)
Definition validBreakGlassCodeInput (input : BreakGlassCodeInput.t) : bool :=
  let created := BreakGlassCodeInput.CreatedAt input in
  let expires := BreakGlassCodeInput.ExpiresAt input in
  identifierPattern (BreakGlassCodeInput.ID input) && HasPrefix (BreakGlassCodeInput.ID input) "bg_" && negb (IsZero created)
  && negb (IsZero expires) && After expires created && (MinBreakGlassCodeLifetime <=? Sub expires created)
  && (Sub expires created <=? MaxBreakGlassCodeLifetime).
Definition new_code (input : BreakGlassCodeInput.t) (tokenHash : string) : BreakGlassCode.t :=
  BreakGlassCode.make (BreakGlassCodeInput.ID input) tokenHash (BreakGlassCodeInput.CreatedAt input) (BreakGlassCodeInput.ExpiresAt input) None None.
Definition code_collides (record existing : BreakGlassCode.t) : bool :=
  (BreakGlassCode.ID existing == BreakGlassCode.ID record)
  || CredentialHashEqual (BreakGlassCode.TokenHash existing) (BreakGlassCode.TokenHash record).
Definition add_code (record : BreakGlassCode.t) (s : IdentityState.t) : IdentityState.t :=
  s <| IdentityState.BreakGlassCodes := IdentityState.BreakGlassCodes s ++ [record] |>.
Definition CreateBreakGlassCode (input : BreakGlassCodeInput.t) (s : IdentityState.t) : IdentityState.t * result unit :=
  if negb (validBreakGlassCodeInput input) then (s, Err (ErrOther "invalid break-glass code metadata")) else
  match HashOpaqueToken (BreakGlassCodeInput.Token input) with
  | Err e => (s, Err e)
  | Ok tokenHash =>
      let record := new_code input tokenHash in
      update (λ s,
        let s := pruneExpired (BreakGlassCode.CreatedAt record) s in
        match list_find (λ existing, code_collides record existing = true) (IdentityState.BreakGlassCodes s) with
        | Some (_, existing) => fail ErrConflict when negb (bool_decide (existing = record));; Ok (s, tt)
        | None =>
            fail ErrLimit when maxBreakGlassCodes <=? count (IdentityState.BreakGlassCodes s);;
            Ok (add_code record s, tt)
        end) s
  end.
Definition BreakGlassCodeUsable : string := "usable".
Definition BreakGlassCodeUsed : string := "used".
Definition BreakGlassCodeRevoked : string := "revoked".
Definition BreakGlassCodeExpired : string := "expired".
Definition breakGlassCodeState (code : BreakGlassCode.t) (now : time) : string :=
  if bool_decide (is_Some (BreakGlassCode.UsedAt code)) then BreakGlassCodeUsed
  else if bool_decide (is_Some (BreakGlassCode.RevokedAt code)) then BreakGlassCodeRevoked
  else if negb (Before now (BreakGlassCode.ExpiresAt code)) then BreakGlassCodeExpired
  else BreakGlassCodeUsable.
Definition breakGlassCodeSummary (code : BreakGlassCode.t) (now : time) : BreakGlassCodeSummary.t :=
  BreakGlassCodeSummary.make (BreakGlassCode.ID code) (BreakGlassCode.CreatedAt code) (BreakGlassCode.ExpiresAt code)
    (BreakGlassCode.UsedAt code) (BreakGlassCode.RevokedAt code) (breakGlassCodeState code now).
(** The result says whether the code is new. *)
Definition RegisterBreakGlassCodeAs (draw : result string) (actor : Actor.t) (input : BreakGlassCodeInput.t) (s : IdentityState.t) : 
    IdentityState.t * result (BreakGlassCodeSummary.t * bool) :=
  match (fail ErrUnauthorized when Actor.Kind actor == PrincipalBreakGlass;;
         fail (ErrOther "invalid break-glass code metadata")
           when negb (identifierPattern (BreakGlassCodeInput.ID input)) || negb (HasPrefix (BreakGlassCodeInput.ID input) "bg_")
             || IsZero (BreakGlassCodeInput.CreatedAt input) || IsZero (BreakGlassCodeInput.ExpiresAt input);;
         tokenHash ← HashOpaqueToken (BreakGlassCodeInput.Token input);
         let record := new_code input tokenHash in
         principal ← NewBreakGlassPrincipal (BreakGlassCode.ID record) (BreakGlassCode.CreatedAt record);
         audit ← newIdentityAuditEvent draw IdentityAuditBreakGlassRegistered (BreakGlassCode.CreatedAt record) actor (Principal.ID principal) ""
                   {["expires_at" := RFC3339 (BreakGlassCode.ExpiresAt record)]};
         Ok (record, audit)) with
  | Err e => (s, Err e)
  | Ok (record, audit) =>
      update (λ s,
        _ ← authenticateAuditCaller s actor (BreakGlassCode.CreatedAt record);
        let s := pruneExpired (BreakGlassCode.CreatedAt record) s in
        match list_find (λ existing, code_collides record existing = true) (IdentityState.BreakGlassCodes s) with
        | Some (_, existing) =>
            fail ErrConflict when negb ((BreakGlassCode.ID existing == BreakGlassCode.ID record)
              && CredentialHashEqual (BreakGlassCode.TokenHash existing) (BreakGlassCode.TokenHash record)
              && (BreakGlassCode.ExpiresAt existing =? BreakGlassCode.ExpiresAt record));;
            Ok (s, (breakGlassCodeSummary existing (BreakGlassCode.CreatedAt existing), false))
        | None =>
            fail (ErrOther "invalid break-glass code metadata") when negb (validBreakGlassCodeInput input);;
            fail ErrLimit when maxBreakGlassCodes <=? count (IdentityState.BreakGlassCodes s);;
            s ← appendIdentityAudit audit (add_code record s);
            Ok (s, (breakGlassCodeSummary record (BreakGlassCode.CreatedAt record), true))
        end) s
  end.
Definition usable (code : BreakGlassCode.t) (token : string) (now : time) : bool :=
  bool_decide (BreakGlassCode.UsedAt code = None) && bool_decide (BreakGlassCode.RevokedAt code = None)
  && Before now (BreakGlassCode.ExpiresAt code) && CredentialMatches (BreakGlassCode.TokenHash code) token.
Definition consumeBreakGlassCode (draw : result string) (codeID token : string) (now : time) (audited : bool) (s : IdentityState.t) :
    IdentityState.t * result BreakGlassCode.t :=
  if negb (identifierPattern codeID) || negb (ValidOpaqueToken token) || IsZero now then (s, Err ErrUnauthorized) else
  found (update (λ s,
    match code_at s codeID with
    | None => Ok (s, None)
    | Some (i, code) =>
        if negb (usable code token now) then Ok (s, None) else
        s ← (if audited then
               principal ← NewBreakGlassPrincipal (BreakGlassCode.ID code) now;
               actor ← Principal_Actor principal "";
               audit ← newIdentityAuditEvent draw IdentityAuditBreakGlassConsumed now actor (Principal.ID principal) ""
                         {["expires_at" := RFC3339 (BreakGlassCode.ExpiresAt code)]};
               appendIdentityAudit audit s
             else Ok s);
        let code := code <| BreakGlassCode.UsedAt := Some now |> in
        Ok (put_code i code s, Some code)
    end) s).
Definition RevokeBreakGlassCodeAs (draw : result string) (actor : Actor.t) (codeID : string) (at_ : time) (s : IdentityState.t) :
    IdentityState.t * result BreakGlassCodeSummary.t :=
  if negb (identifierPattern codeID) || negb (HasPrefix codeID "bg_") || IsZero at_ || (Actor.Kind actor == PrincipalBreakGlass)
  then (s, Err ErrUnauthorized) else
  update (λ s,
    _ ← authenticateAuditCaller s actor at_;
    '(i, code) ← of_option (code_at s codeID) ErrNotFound;
    fail ErrConflict when Before at_ (BreakGlassCode.CreatedAt code);;
    fail ErrConflict when bool_decide (is_Some (BreakGlassCode.UsedAt code));;
    if bool_decide (is_Some (BreakGlassCode.RevokedAt code)) then Ok (s, breakGlassCodeSummary code at_) else
    principal ← NewBreakGlassPrincipal (BreakGlassCode.ID code) at_;
    audit ← newIdentityAuditEvent draw IdentityAuditBreakGlassRevoked at_ actor (Principal.ID principal) ""
              {["expires_at" := RFC3339 (BreakGlassCode.ExpiresAt code)]};
    let code := code <| BreakGlassCode.RevokedAt := Some at_ |> in
    s ← appendIdentityAudit audit (put_code i code s);
    Ok (s, breakGlassCodeSummary code at_)) s.

(** *** Inventories *)
Definition MaxSessionListLimit : Z := 256.
Definition MaxIdentityAuditListLimit : Z := 256.
Definition sessionSummary (x : Session.t) : SessionSummary.t :=
  SessionSummary.make (Session.ID x) (Session.Principal x) (Session.PolicyFingerprint x) (Session.AuthMethod x) (Session.CreatedAt x)
    (Session.LastSeenAt x) (Session.IdleExpiresAt x) (Session.AbsoluteExpiresAt x) (Session.RevokedAt x) (Session.RevocationReason x)
    (Session.Version x).
(** The newest first, then by identifier. *)
Definition newest {A} (at_ : A → time) (id : A → string) (a b : A) : bool :=
  if at_ a =? at_ b then str_le (id a) (id b) else After (at_ a) (at_ b).
Definition ListSessions (f : SessionListFilter.t) (s : IdentityState.t) : result (list SessionSummary.t) :=
  let principal := SessionListFilter.PrincipalID f in
  fail (ErrOther "session list filter is invalid")
    when (SessionListFilter.Limit f <? 1) || (MaxSessionListLimit <? SessionListFilter.Limit f)
      || ((principal != "") && negb (identifierPattern principal));;
  _ ← view;
  let listed := filter (λ x, negb (((principal != "") && (Principal.ID (Session.Principal x) != principal))
                                   || (negb (SessionListFilter.IncludeRevoked f) && bool_decide (is_Some (Session.RevokedAt x)))) = true)
                  (IdentityState.Sessions s) in
  Ok (take (Z.to_nat (SessionListFilter.Limit f)) (sort_by (newest SessionSummary.CreatedAt SessionSummary.ID) (sessionSummary <$> listed))).
Definition validIdentityAuditEventType (value : string) : bool :=
  contains [IdentityAuditSessionCreated; IdentityAuditSessionRotated; IdentityAuditSessionRevoked; IdentityAuditPrincipalRevoked;
            IdentityAuditBreakGlassRegistered; IdentityAuditBreakGlassConsumed; IdentityAuditBreakGlassRevoked] value.
(** A summary of an event has the fields of the event. *)
Definition ListIdentityAudit (f : IdentityAuditListFilter.t) (s : IdentityState.t) : result (list IdentityAuditEvent.t) :=
  let principal := IdentityAuditListFilter.PrincipalID f in
  let session := IdentityAuditListFilter.SessionID f in
  let type := IdentityAuditListFilter.Type_ f in
  fail (ErrOther "identity audit list filter is invalid")
    when (IdentityAuditListFilter.Limit f <? 1) || (MaxIdentityAuditListLimit <? IdentityAuditListFilter.Limit f)
      || ((principal != "") && negb (identifierPattern principal)) || ((session != "") && negb (identifierPattern session))
      || ((type != "") && negb (validIdentityAuditEventType type));;
  _ ← view;
  let listed := filter (λ e, negb (((principal != "") && (IdentityAuditEvent.TargetPrincipalID e != principal))
                                   || ((session != "") && (IdentityAuditEvent.TargetSessionID e != session))
                                   || ((type != "") && (IdentityAuditEvent.Type_ e != type))) = true) (IdentityState.Audit s) in
  Ok (take (Z.to_nat (IdentityAuditListFilter.Limit f)) (sort_by (newest IdentityAuditEvent.At IdentityAuditEvent.ID) listed)).
Definition ListBreakGlassCodes (now : time) (s : IdentityState.t) : result (list BreakGlassCodeSummary.t) :=
  fail (ErrOther "break-glass inventory time is required") when IsZero now;;
  _ ← view;
  Ok (sort_by (newest BreakGlassCodeSummary.CreatedAt BreakGlassCodeSummary.ID)
        ((λ code, breakGlassCodeSummary code now) <$> IdentityState.BreakGlassCodes s)).
Definition CountUsableBreakGlassCodes (now : time) (s : IdentityState.t) : result Z :=
  fail (ErrOther "break-glass inventory time is required") when IsZero now;;
  _ ← view;
  Ok (count (filter (λ code, breakGlassCodeState code now = BreakGlassCodeUsable) (IdentityState.BreakGlassCodes s))).

(** *** Desktop authorizations *)
Definition CreateDesktopAuthorization (input : DesktopInput.t) (s : IdentityState.t) : IdentityState.t * result unit :=
  let created := DesktopInput.CreatedAt input in
  let expires := DesktopInput.ExpiresAt input in
  let interval := DesktopInput.PollInterval input in
  if negb (ValidDesktopAuthorizationRequestID (DesktopInput.ID input)) || negb (ValidOpaqueToken (DesktopInput.PollSecret input))
     || negb (isCanonicalTime created) || negb (isCanonicalTime expires) || negb (After expires created) || (Sub expires created <? minute)
     || (10 * minute <? Sub expires created) || (interval <? second) || (30 * second <? interval) || negb (Z.rem interval second =? 0)
  then (s, Err (ErrOther "desktop authorization request is invalid")) else
  match HashOpaqueToken (DesktopInput.PollSecret input) with
  | Err _ => (s, Err (ErrOther "desktop authorization request is invalid"))
  | Ok hash =>
      let record := DesktopAuthorization.make (DesktopInput.ID input) hash DesktopAuthorizationPending Principal.zero created expires
                      (Z.quot interval second) None None 1 in
      update (λ s,
        let s := pruneDesktopAuthorizations created false s in
        fail ErrConflict when existsb (λ r, (DesktopAuthorization.ID r == DesktopAuthorization.ID record)
                                            || CredentialHashEqual (DesktopAuthorization.PollSecretHash r) hash)
                                (IdentityState.DesktopAuthorizations s);;
        fail ErrLimit when maxDesktopAuthorizations <=? count (IdentityState.DesktopAuthorizations s);;
        Ok (s <| IdentityState.DesktopAuthorizations := IdentityState.DesktopAuthorizations s ++ [record] |>, tt)) s
  end.
(** [approve] is the decision; an unknown one is refused before. *)
Definition DecideDesktopAuthorization (requestID : string) (principal : Principal.t) (approve : bool) (now : time) (s : IdentityState.t) :
    IdentityState.t * result unit :=
  if negb (ValidDesktopAuthorizationRequestID requestID) || negb (is_ok (Validate_principal principal)) || negb (isCanonicalTime now)
  then (s, Err (ErrOther "desktop authorization decision is invalid")) else
  update (λ s,
    '(i, r) ← of_option (list_find (λ r, DesktopAuthorization.ID r = requestID) (IdentityState.DesktopAuthorizations s)) ErrNotFound;
    fail ErrConflict when negb (Before now (DesktopAuthorization.ExpiresAt r));;
    let target := if approve then DesktopAuthorizationApproved else DesktopAuthorizationDenied in
    if DesktopAuthorization.State r != DesktopAuthorizationPending then
      fail ErrConflict when negb ((DesktopAuthorization.State r == target) && bool_decide (DesktopAuthorization.Principal r = principal));;
      Ok (s, tt)
    else
      Ok (put_desktop i (r <| DesktopAuthorization.State := target |> <| DesktopAuthorization.Principal := principal |>
                           <| DesktopAuthorization.DecidedAt := Some now |>
                           <| DesktopAuthorization.Version := next_version (DesktopAuthorization.Version r) |>) s, tt)) s.
Definition PollDesktopAuthorization (requestID pollSecret : string) (now : time) (s : IdentityState.t) : IdentityState.t * result DesktopPoll.t :=
  match HashOpaqueToken pollSecret with
  | Err _ => (s, Err ErrUnauthorized)
  | Ok hash =>
      if negb (ValidDesktopAuthorizationRequestID requestID) || negb (isCanonicalTime now) then (s, Err ErrUnauthorized) else
      found (update (λ s,
        match list_find (λ r, DesktopAuthorization.ID r = requestID ∧ CredentialHashEqual (DesktopAuthorization.PollSecretHash r) hash = true)
                (IdentityState.DesktopAuthorizations s) with
        | None => Ok (s, None)
        | Some (i, r) =>
            let interval := wrap64 (DesktopAuthorization.PollIntervalSeconds r * second) in
            fail ErrLimit when match DesktopAuthorization.LastPolledAt r with Some polled => Before now (polled + interval) | None => false end;;
            let answer := λ state principal, Some (DesktopPoll.make state principal (DesktopAuthorization.ExpiresAt r) interval) in
            if negb (Before now (DesktopAuthorization.ExpiresAt r)) then Ok (drop_desktop i s, answer DesktopAuthorizationExpired Principal.zero)
            else if DesktopAuthorization.State r == DesktopAuthorizationDenied then
              Ok (drop_desktop i s, answer DesktopAuthorizationDenied Principal.zero)
            else if DesktopAuthorization.State r == DesktopAuthorizationApproved then
              Ok (drop_desktop i s, answer DesktopAuthorizationApproved (DesktopAuthorization.Principal r))
            else
              Ok (put_desktop i (r <| DesktopAuthorization.LastPolledAt := Some now |>
                                   <| DesktopAuthorization.Version := next_version (DesktopAuthorization.Version r) |>) s,
                  answer (DesktopAuthorization.State r) Principal.zero)
        end) s)
  end.

Definition CleanupExpired (now : time) (s : IdentityState.t) : IdentityState.t * result CleanupResult.t :=
  if IsZero now then (s, Err (ErrOther "cleanup time is required")) else
  update (λ s,
    let next := pruneExpired now s in
    Ok (next, CleanupResult.make (count (IdentityState.LoginAttempts s) - count (IdentityState.LoginAttempts next))
                (count (IdentityState.Sessions s) - count (IdentityState.Sessions next))
                (count (IdentityState.BreakGlassCodes s) - count (IdentityState.BreakGlassCodes next))
                (count (IdentityState.DesktopAuthorizations s) - count (IdentityState.DesktopAuthorizations next)))) s.
End operations.
