(* ===== verification/IdentitySafety.v ===== *)
(** * What the identity store guarantees (internal/identity)

    In every sequence of operations: an ended session stays out, a one-time
    credential is used once, and an authenticated session is within its bounds. *)
From stdpp Require Import gmap.
From S2P Require Import Prelude GoStd Sha256 GoTime IPv4 NetIP AuditLog AgentState Identity.
Open Scope Z_scope.

(** ** Credentials *)
Lemma CredentialHashEqual_eq a b : CredentialHashEqual a b = true → a = b.
Proof.
  unfold CredentialHashEqual, ValidCredentialHash, canonical32. destruct (b64_decode a) as [x|], (b64_decode b) as [y|]; intros; split_bools; try done.
  match goal with E : Some _ = Some _ |- _ => injection E as -> end. congruence.
Qed.
Lemma CredentialHashEqual_refl a : ValidCredentialHash a = true → CredentialHashEqual a a = true.
Proof. intros Hv. unfold CredentialHashEqual. by rewrite Hv, bool_decide_eq_true_2. Qed.

(** ** What the check of the document gives *)
Lemma claim_all_checked {A} (check : A → claims → result claims) l c c' x : claim_all check l c = Ok c' → x ∈ l → ∃ c1 c2, check x c1 = Ok c2.
Proof.
  revert c. induction l as [|y l IH]; intros c; simpl; [set_solver|]. intros (c1 & H1 & H2)%bind_Ok [->|Hx]%elem_of_cons; eauto.
Qed.

Section claims.
Context {A : Type} (check : A → claims → result claims) (key : A → string) (taken : claims → gset string).
Hypothesis check_claims : ∀ x c c', check x c = Ok c' → (key x ∉ taken c) ∧ ({[key x]} ∪ taken c) ⊆ taken c'.

Lemma claim_all_distinct l c c' : claim_all check l c = Ok c' →
  NoDup (key <$> l) ∧ (∀ x, x ∈ l → key x ∉ taken c) ∧ taken c ⊆ taken c'.
Proof.
  revert c. induction l as [|x l IH]; intros c; simpl; [intros [= <-]; split_and!; [constructor|set_solver|done]|].
  intros (c1 & H1 & H2)%bind_Ok. apply check_claims in H1 as [N1 S1]. destruct (IH _ H2) as (N2 & N3 & S2). split_and!; [|set_solver|set_solver].
  constructor; [|done]. intros (y & E & Hy)%list_elem_of_fmap. apply (N3 y Hy). rewrite <- E. set_solver.
Qed.
End claims.

Lemma claimIdentity_claims id c c' : claimIdentity id c = Ok c' → (id ∉ fst c) ∧ c' = ({[id]} ∪ fst c, snd c).
Proof. unfold claimIdentity. intros [_ Hc]%guard_iff. apply guard_iff in Hc as [Hn Hc]. injection Hc as <-. by split_bools. Qed.
Lemma claimCredential_claims hash c c' : claimCredential hash c = Ok c' → (hash ∉ snd c) ∧ c' = (fst c, {[hash]} ∪ snd c).
Proof. unfold claimCredential. intros [_ Hc]%guard_iff. apply guard_iff in Hc as [Hn Hc]. injection Hc as <-. by split_bools. Qed.
Ltac open_claims :=
  repeat match goal with
  | H : claimIdentity _ _ = Ok _ |- _ => apply claimIdentity_claims in H as [? ->]
  | H : claimCredential _ _ = Ok _ |- _ => apply claimCredential_claims in H as [? ->]
  end.

Section valid.
Context `{URLs, IdentityURLs, Sealer}.

Lemma check_session_claims x c c' : check_session x c = Ok c' →
  ((Session.ID x ∉ fst c) ∧ ({[Session.ID x]} ∪ fst c) ⊆ fst c') ∧ ((Session.TokenHash x ∉ snd c) ∧ ({[Session.TokenHash x]} ∪ snd c) ⊆ snd c') ∧
  validateSession x = Ok tt.
Proof.
  unfold check_session. open_guards. intros (c1 & H1' & c2 & H2' & c3 & H3' & [] & Hv & [= <-]). open_claims. simpl in *. set_solver.
Qed.
Lemma check_attempt_claims a c c' : check_attempt a c = Ok c' →
  (LoginAttempt.TransactionHash a ∉ snd c) ∧ ({[LoginAttempt.TransactionHash a]} ∪ snd c) ⊆ snd c'.
Proof.
  unfold check_attempt. open_guards. intros (c1 & H1' & c2 & H2' & c3 & H3' & _ & ? & _ & [= <-]). open_claims. simpl in *. set_solver.
Qed.
Lemma check_code_claims x c c' : check_code x c = Ok c' → (BreakGlassCode.ID x ∉ fst c) ∧ ({[BreakGlassCode.ID x]} ∪ fst c) ⊆ fst c'.
Proof.
  unfold check_code. open_guards. intros (c1 & H1' & _ & c2 & H2' & _ & [= <-]). open_claims. simpl in *. set_solver.
Qed.
Lemma check_desktop_claims x c c' : check_desktop x c = Ok c' → (DesktopAuthorization.ID x ∉ fst c) ∧ ({[DesktopAuthorization.ID x]} ∪ fst c) ⊆ fst c'.
Proof.
  unfold check_desktop. open_guards. intros (c1 & H1' & _ & c2 & H2' & ? & _ & [= <-]). open_claims. simpl in *. set_solver.
Qed.

Record sound (s : IdentityState.t) : Prop := {
  sound_sessions : NoDup (Session.ID <$> IdentityState.Sessions s);
  sound_tokens : NoDup (Session.TokenHash <$> IdentityState.Sessions s);
  sound_attempts : NoDup (LoginAttempt.TransactionHash <$> IdentityState.LoginAttempts s);
  sound_codes : NoDup (BreakGlassCode.ID <$> IdentityState.BreakGlassCodes s);
  sound_desktops : NoDup (DesktopAuthorization.ID <$> IdentityState.DesktopAuthorizations s);
  sound_session x : x ∈ IdentityState.Sessions s → validateSession x = Ok tt }.
Lemma valid_sound s : validateState s = Ok tt → sound s.
Proof.
  unfold validateState. open_guards. intros (_ & _ & c1 & H1' & c2 & H2' & c3 & H3' & c4 & H4' & _). split.
  - eapply (claim_all_distinct check_session Session.ID fst), H2'. intros; by eapply check_session_claims.
  - eapply (claim_all_distinct check_session Session.TokenHash snd), H2'. intros; by eapply check_session_claims.
  - eapply (claim_all_distinct check_attempt LoginAttempt.TransactionHash snd check_attempt_claims), H1'.
  - eapply (claim_all_distinct check_code BreakGlassCode.ID fst check_code_claims), H3'.
  - eapply (claim_all_distinct check_desktop DesktopAuthorization.ID fst check_desktop_claims), H4'.
  - intros x Hx. destruct (claim_all_checked check_session _ _ _ x H2' Hx) as (d1 & d2 & Hd). by eapply check_session_claims.
Qed.

(** ** Transactions *)
Lemma transaction_spec {backend : Backend} {A} (f : IdentityState.t → result (IdentityState.t * A)) s s' r : update f s = (s', r) →
  (s' = s ∧ ∃ e, r = Err e) ∨ (∃ a, f s = Ok (s', a) ∧ validateState s' = Ok tt ∧ (r = Ok a ∨ r = Err ErrUncertainCommit)).
Proof.
  unfold update. destruct refuses; [intros [= <- <-]; eauto|]. destruct (f s) as [[n a]|e] eqn:E; simpl; [|intros [= <- <-]; eauto].
  destruct (validateState n) as [[]|e] eqn:Ev; simpl; [|intros [= <- <-]; eauto].
  case_bool_decide; [subst n; intros [= <- <-]; eauto 6|]. destruct (stores n); intros [= <- <-]; eauto 8.
Qed.
Lemma appendIdentityAudit_spec event s s' : appendIdentityAudit event s = Ok s' → s' = s <| IdentityState.Audit := IdentityState.Audit s ++ [event] |>.
Proof. unfold appendIdentityAudit. intros (? & _ & Ha)%bind_Ok. by apply guard_iff in Ha as [_ [_ [= <-]]%guard_iff]. Qed.
Lemma HashOpaqueToken_spec token h : HashOpaqueToken token = Ok h → h = HashToken token.
Proof. unfold HashOpaqueToken. by intros [_ [= <-]]%guard_iff. Qed.

Lemma rotation_hashes_spec token csrf h h' : rotation_hashes token csrf = Ok (h, h') → h = HashToken token.
Proof. unfold rotation_hashes. open_guards. by intros (h1 & ->%HashOpaqueToken_spec & h2 & _ & _ & [= <- <-]). Qed.

(** The operations of the store, one value per call. *)
Inductive identity_op :=
  | OpCreateLoginAttempt (input : LoginAttemptInput.t)
  | OpConsumeLoginAttempt (transactionToken stateToken : string) (now : time)
  | OpCreateSession (draw : result string) (input : CreateSessionInput.t)
  | OpTouchSession (id : string) (version : Z) (seenAt idle : time)
  | OpRotateSession (draw : result string) (id : string) (version : Z) (token csrf : string) (seenAt idle : time)
  | OpRevokeSession (draw : result string) (caller : option Actor.t) (id : string) (at_ : time) (reason : string)
  | OpRevokePrincipal (draw : result string) (caller : option Actor.t) (principal : string) (at_ : time) (reason : string)
  | OpCreateBreakGlassCode (input : BreakGlassCodeInput.t)
  | OpRegisterBreakGlassCode (draw : result string) (actor : Actor.t) (input : BreakGlassCodeInput.t)
  | OpConsumeBreakGlassCode (draw : result string) (id token : string) (now : time) (audited : bool)
  | OpRevokeBreakGlassCode (draw : result string) (actor : Actor.t) (id : string) (at_ : time)
  | OpCreateDesktop (input : DesktopInput.t)
  | OpDecideDesktop (id : string) (principal : Principal.t) (approve : bool) (now : time)
  | OpPollDesktop (id secret : string) (now : time)
  | OpCleanup (now : time).
Definition outcome {A} (r : IdentityState.t * result A) : IdentityState.t * bool := (fst r, is_ok (snd r)).
Definition run_op {backend : Backend} (o : identity_op) (s : IdentityState.t) : IdentityState.t * bool :=
  match o with
  | OpCreateLoginAttempt input => outcome (CreateLoginAttempt input s)
  | OpConsumeLoginAttempt token state now => outcome (ConsumeLoginAttempt token state now s)
  | OpCreateSession draw input => outcome (CreateSession draw input s)
  | OpTouchSession id version seenAt idle => outcome (TouchSession id version seenAt idle s)
  | OpRotateSession draw id version token csrf seenAt idle => outcome (RotateSession draw id version token csrf seenAt idle s)
  | OpRevokeSession draw None id at_ reason => outcome (revokeSession draw None id at_ reason s)
  | OpRevokeSession draw (Some actor) id at_ reason => outcome (RevokeSessionAs draw actor id at_ reason s)
  | OpRevokePrincipal draw None principal at_ reason => outcome (revokePrincipal draw None principal at_ reason s)
  | OpRevokePrincipal draw (Some actor) principal at_ reason => outcome (RevokePrincipalAs draw actor principal at_ reason s)
  | OpCreateBreakGlassCode input => outcome (CreateBreakGlassCode input s)
  | OpRegisterBreakGlassCode draw actor input => outcome (RegisterBreakGlassCodeAs draw actor input s)
  | OpConsumeBreakGlassCode draw id token now audited => outcome (consumeBreakGlassCode draw id token now audited s)
  | OpRevokeBreakGlassCode draw actor id at_ => outcome (RevokeBreakGlassCodeAs draw actor id at_ s)
  | OpCreateDesktop input => outcome (CreateDesktopAuthorization input s)
  | OpDecideDesktop id principal approve now => outcome (DecideDesktopAuthorization id principal approve now s)
  | OpPollDesktop id secret now => outcome (PollDesktopAuthorization id secret now s)
  | OpCleanup now => outcome (CleanupExpired now s)
  end.
(** A run: the calls, each with what the backend answers to it. *)
Definition run_ops (calls : list (Backend * identity_op)) (s : IdentityState.t) : IdentityState.t :=
  foldl (λ s (call : Backend * identity_op), fst (@run_op (fst call) (snd call) s)) s calls.

(** The time at which the operation drops what has expired. *)
Definition prune_time (o : identity_op) : option time :=
  match o with
  | OpCreateLoginAttempt input => Some (LoginAttemptInput.CreatedAt input)
  | OpConsumeLoginAttempt _ _ now | OpCleanup now => Some now
  | OpCreateSession _ input => Some (CreateSessionInput.CreatedAt input)
  | OpCreateBreakGlassCode input | OpRegisterBreakGlassCode _ _ input => Some (BreakGlassCodeInput.CreatedAt input)
  | _ => None
  end.

(** *** What an operation does to the records

    The abstract steps, up to the audit log. *)
Inductive effect (s : IdentityState.t) : identity_op → IdentityState.t → Prop :=
  | effect_none o : effect s o s
  | effect_prune o now : prune_time o = Some now → effect s o (pruneExpired now s)
  | effect_attempt input now a : prune_time (OpCreateLoginAttempt input) = Some now → LoginAttempt.TransactionHash a = HashToken (LoginAttemptInput.TransactionToken input) →
      effect s (OpCreateLoginAttempt input)
        (pruneExpired now s <| IdentityState.LoginAttempts := IdentityState.LoginAttempts (pruneExpired now s) ++ [a] |>)
  | effect_consumed token state now i a : IdentityState.LoginAttempts s !! i = Some a →
      LoginAttempt.TransactionHash a = HashToken token → LoginAttempt.StateHash a = HashToken state →
      effect s (OpConsumeLoginAttempt token state now) (drop_attempt i s)
  | effect_session draw input now x : prune_time (OpCreateSession draw input) = Some now → Session.TokenHash x = HashToken (CreateSessionInput.Token input) →
      effect s (OpCreateSession draw input)
        (pruneExpired now s <| IdentityState.Sessions := IdentityState.Sessions (pruneExpired now s) ++ [x] |>)
  | effect_touch o i x x' : IdentityState.Sessions s !! i = Some x → Session.TokenHash x' = Session.TokenHash x →
      Session.RevokedAt x' = Session.RevokedAt x → effect s o (put_session i x' s)
  | effect_rotate draw id version token csrf seenAt idle i x' : Session.TokenHash x' = HashToken token →
      effect s (OpRotateSession draw id version token csrf seenAt idle) (put_session i x' s)
  | effect_revoke o i x at_ reason : IdentityState.Sessions s !! i = Some x → effect s o (put_session i (revoked at_ reason x) s)
  | effect_revoke_all o principal at_ reason actor l actor' n :
      revoke_all principal at_ reason actor (IdentityState.Sessions s) = Ok (l, actor', n) → effect s o (s <| IdentityState.Sessions := l |>)
  | effect_register o input now : prune_time o = Some now → o = OpCreateBreakGlassCode input ∨ (∃ draw actor, o = OpRegisterBreakGlassCode draw actor input) →
      effect s o (add_code (new_code input (HashToken (BreakGlassCodeInput.Token input))) (pruneExpired now s))
  | effect_code o i c c' : IdentityState.BreakGlassCodes s !! i = Some c → BreakGlassCode.ID c' = BreakGlassCode.ID c →
      (is_Some (BreakGlassCode.UsedAt c) → is_Some (BreakGlassCode.UsedAt c')) →
      (is_Some (BreakGlassCode.RevokedAt c) → is_Some (BreakGlassCode.RevokedAt c')) → effect s o (put_code i c' s)
  | effect_desktop input now r : DesktopAuthorization.ID r = DesktopInput.ID input →
      DesktopAuthorization.PollSecretHash r = HashToken (DesktopInput.PollSecret input) → DesktopAuthorization.State r = DesktopAuthorizationPending →
      effect s (OpCreateDesktop input) (pruneDesktopAuthorizations now false s
        <| IdentityState.DesktopAuthorizations := IdentityState.DesktopAuthorizations (pruneDesktopAuthorizations now false s) ++ [r] |>)
  | effect_decide id principal (approve : bool) now i r r' : IdentityState.DesktopAuthorizations s !! i = Some r →
      DesktopAuthorization.ID r = id → DesktopAuthorization.ID r' = id →
      DesktopAuthorization.PollSecretHash r' = DesktopAuthorization.PollSecretHash r → DesktopAuthorization.Principal r' = principal →
      DesktopAuthorization.State r' = (if approve then DesktopAuthorizationApproved else DesktopAuthorizationDenied) →
      effect s (OpDecideDesktop id principal approve now) (put_desktop i r' s)
  | effect_poll o i r r' : IdentityState.DesktopAuthorizations s !! i = Some r → DesktopAuthorization.ID r' = DesktopAuthorization.ID r →
      DesktopAuthorization.PollSecretHash r' = DesktopAuthorization.PollSecretHash r →
      DesktopAuthorization.State r' = DesktopAuthorization.State r → DesktopAuthorization.Principal r' = DesktopAuthorization.Principal r →
      effect s o (put_desktop i r' s)
  | effect_answered o i : effect s o (drop_desktop i s).

(** A committed change: a valid document, reached by an abstract step, with an audit
    log that extends the old one. *)
Definition reaches (s : IdentityState.t) (o : identity_op) (s' : IdentityState.t) : Prop :=
  ∃ s1 l, effect s o s1 ∧ s' = s1 <| IdentityState.Audit := IdentityState.Audit s ++ l |>.
Definition commits (s : IdentityState.t) (o : identity_op) (s' : IdentityState.t) : Prop :=
  s' = s ∨ (validateState s' = Ok tt ∧ reaches s o s').
Lemma reaches_silent s o s1 : effect s o s1 → IdentityState.Audit s1 = IdentityState.Audit s → reaches s o s1.
Proof. intros He Ha. exists s1, []. split; [done|]. rewrite app_nil_r, <- Ha. by destruct s1. Qed.
Lemma reaches_audited s o s1 event s' : effect s o s1 → IdentityState.Audit s1 = IdentityState.Audit s →
  appendIdentityAudit event s1 = Ok s' → reaches s o s'.
Proof. intros He Ha ->%appendIdentityAudit_spec. exists s1, [event]. by rewrite Ha. Qed.
Lemma update_commits {backend : Backend} {A} (f : IdentityState.t → result (IdentityState.t * A)) s o :
  (∀ s' a, f s = Ok (s', a) → reaches s o s') → commits s o (fst (update f s)).
Proof.
  intros Hf. destruct (update f s) as [s' r] eqn:E. apply transaction_spec in E as [[-> _]|(a & Ha & Hv & _)]; [by left|]. right. eauto.
Qed.

Lemma list_find_lookup {A} (P : A → Prop) `{∀ x, Decision (P x)} l i x : list_find P l = Some (i, x) → l !! i = Some x ∧ P x.
Proof. intros (Hl & HP & _)%list_find_Some. done. Qed.

Lemma elem_of_list_put {A} (l : list A) i x y : x ∈ <[i := y]> l → x = y ∨ x ∈ l.
Proof.
  intros [j Hj]%list_elem_of_lookup. apply list_lookup_insert_Some in Hj as [(_ & -> & _)|[_ Hj]]; [by left|].
  right. by eapply list_elem_of_lookup_2.
Qed.
Lemma elem_of_list_drop {A} (l : list A) i x : x ∈ delete i l → x ∈ l.
Proof. intros Hx. eapply elem_of_submseteq; [done|]. apply sublist_submseteq, sublist_delete. Qed.

Lemma CreateLoginAttempt_commits {backend : Backend} input s : commits s (OpCreateLoginAttempt input) (fst (CreateLoginAttempt input s)).
Proof.
  unfold CreateLoginAttempt. case_match eqn:E; [|by left]. case_match. subst. revert E. open_guards.
  intros (p' & _ & h1 & Eh%HashOpaqueToken_spec & h2 & _ & sealed & _ & [= <- <-]). subst.
  apply update_commits. intros s' []. case_match.
  - case_match. open_guards. intros (? & _ & _ & [= <-]). apply reaches_silent; [by constructor|done].
  - open_guards. intros (_ & [= <-]). apply reaches_silent; [by constructor|done].
Qed.
Lemma ConsumeLoginAttempt_commits {backend : Backend} token state now s :
  commits s (OpConsumeLoginAttempt token state now) (fst (ConsumeLoginAttempt token state now s)).
Proof.
  unfold ConsumeLoginAttempt. case_match eqn:E1; [|by left]. case_match eqn:E2; [|by left]. case_match; [by left|].
  apply HashOpaqueToken_spec in E1 as ->, E2 as ->. apply update_commits. intros s' r. case_match eqn:E; [destruct p as [i attempt]|].
  2: { intros [= <- <-]. apply reaches_silent; [by constructor|done]. }
  apply list_find_lookup in E as [Hi Hh%CredentialHashEqual_eq].
  case_match eqn:Es; [intros [= <- <-]; apply reaches_silent; [by constructor|done]|].
  apply negb_false_iff, CredentialHashEqual_eq in Es. case_match; open_guards.
  - intros [= <- <-]. apply reaches_silent; [by eapply effect_consumed|done].
  - intros (? & _ & [= <- <-]). apply reaches_silent; [by eapply effect_consumed|done].
Qed.
Lemma CreateSession_commits {backend : Backend} draw input s : commits s (OpCreateSession draw input) (fst (CreateSession draw input s)).
Proof.
  unfold CreateSession. case_match eqn:E; [|by left]. case_match. subst. revert E. unfold canonicalSessionInput. open_guards.
  intros (x & (h1 & Eh%HashOpaqueToken_spec & h2 & _ & _ & _ & _ & [= <-]) & actor & _ & audit & _ & [= <- <-]). subst.
  apply update_commits. intros s' r. case_match.
  - case_match. open_guards. intros (_ & [= <- <-]). apply reaches_silent; [by constructor|done].
  - open_guards. intros (_ & s2 & Ha & [= <- <-]). eapply reaches_audited, Ha; [by constructor|done].
Qed.
Lemma TouchSession_commits {backend : Backend} id version seenAt idle s :
  commits s (OpTouchSession id version seenAt idle) (fst (TouchSession id version seenAt idle s)).
Proof.
  unfold TouchSession. case_match; [by left|]. apply update_commits. intros s' r. open_guards. intros ([i x] & Hx & Ha).
  apply list_find_lookup in Hx as [Hx _]. apply guard_iff in Ha as [_ Ha].
  case_match; [injection Ha as <- <-; apply reaches_silent; [by constructor|done]|]. apply guard_iff in Ha as [_ Ha].
  case_match; injection Ha as <- <-; (apply reaches_silent; [|done]); [by constructor|by eapply effect_touch].
Qed.
Lemma RotateSession_commits {backend : Backend} draw id version token csrf seenAt idle s :
  commits s (OpRotateSession draw id version token csrf seenAt idle) (fst (RotateSession draw id version token csrf seenAt idle s)).
Proof.
  unfold RotateSession. case_match; [by left|]. case_match eqn:E; [|by left]. case_match. subst. apply rotation_hashes_spec in E as ->.
  apply update_commits. intros s' r. open_guards. intros ([i x] & Hx & Ha).
  case_match; [injection Ha as <- <-; apply reaches_silent; [by constructor|done]|]. revert Ha. open_guards.
  intros (_ & _ & _ & actor & _ & event & _ & s2 & Ha & [= <- <-]). eapply reaches_audited, Ha; [by constructor|done].
Qed.
Lemma revokeSession_commits {backend : Backend} draw caller caller' id at_ reason s :
  commits s (OpRevokeSession draw caller id at_ reason) (fst (revokeSession draw caller' id at_ reason s)).
Proof.
  unfold revokeSession. case_match; [by left|]. apply update_commits. intros s' r. open_guards. intros ([i x] & Hx & Ha).
  apply list_find_lookup in Hx as [Hx _]. revert Ha. case_match; open_guards.
  - intros (_ & [= <- <-]). apply reaches_silent; [by constructor|done].
  - intros (_ & actor & _ & [] & _ & event & _ & s2 & Ha & [= <- <-]). eapply reaches_audited, Ha; [by constructor|done].
Qed.
Lemma revokePrincipal_commits {backend : Backend} draw caller caller' principal at_ reason s :
  commits s (OpRevokePrincipal draw caller principal at_ reason) (fst (revokePrincipal draw caller' principal at_ reason s)).
Proof.
  unfold revokePrincipal. case_match; [by left|]. apply update_commits. intros s' r. open_guards.
  intros ([] & _ & [[l actor] n] & Hl & Ha). destruct n as [|n]; [|destruct actor as [actor|]].
  - injection Ha as <- <-. apply reaches_silent; [by constructor|done].
  - revert Ha. open_guards. intros (event & _ & s2 & Ha & [= <- <-]). eapply reaches_audited, Ha; [by eapply effect_revoke_all|done].
  - injection Ha as <- <-. apply reaches_silent; [by constructor|done].
Qed.
Lemma CreateBreakGlassCode_commits {backend : Backend} input s : commits s (OpCreateBreakGlassCode input) (fst (CreateBreakGlassCode input s)).
Proof.
  unfold CreateBreakGlassCode. case_match; [by left|]. case_match eqn:E; [|by left]. apply HashOpaqueToken_spec in E as ->.
  apply update_commits. intros s' r. case_match; [case_match|]; open_guards; intros (_ & [= <- <-]);
    (apply reaches_silent; [|done]); [by constructor|constructor; [done|by left]].
Qed.
Lemma RegisterBreakGlassCodeAs_commits {backend : Backend} draw actor input s :
  commits s (OpRegisterBreakGlassCode draw actor input) (fst (RegisterBreakGlassCodeAs draw actor input s)).
Proof.
  unfold RegisterBreakGlassCodeAs. case_match eqn:E; [|by left]. case_match. subst. revert E. open_guards.
  intros (_ & _ & hash & Eh%HashOpaqueToken_spec & principal & _ & event & _ & [= <- <-]). subst.
  apply update_commits. intros s' r. open_guards. intros ([] & _ & Ha). revert Ha. case_match; [case_match|]; open_guards.
  - intros (_ & [= <- <-]). apply reaches_silent; [by constructor|done].
  - intros (_ & _ & s2 & Ha & [= <- <-]). eapply reaches_audited, Ha; [constructor; eauto|done].
Qed.
Lemma consumeBreakGlassCode_commits {backend : Backend} draw id token now audited s :
  commits s (OpConsumeBreakGlassCode draw id token now audited) (fst (consumeBreakGlassCode draw id token now audited s)).
Proof.
  unfold consumeBreakGlassCode. case_match; [by left|]. apply update_commits. intros s' r. case_match eqn:E; [case_match; subst|].
  2: { intros [= <- <-]. apply reaches_silent; [by constructor|done]. }
  apply list_find_lookup in E as [Hc _]. case_match; [intros [= <- <-]; apply reaches_silent; [by constructor|done]|].
  intros (s1 & Ha & Hr)%bind_Ok. injection Hr as <- <-. destruct audited; revert Ha; open_guards.
  - intros (p & _ & actor & _ & event & _ & ->%appendIdentityAudit_spec). eexists (put_code _ _ s), [event].
    split; [|reflexivity]. by eapply effect_code.
  - intros [= <-]. apply reaches_silent; [by eapply effect_code|done].
Qed.
Lemma RevokeBreakGlassCodeAs_commits {backend : Backend} draw actor id at_ s :
  commits s (OpRevokeBreakGlassCode draw actor id at_) (fst (RevokeBreakGlassCodeAs draw actor id at_ s)).
Proof.
  unfold RevokeBreakGlassCodeAs. case_match; [by left|]. apply update_commits. intros s' r. open_guards.
  intros ([] & _ & [i c] & Hc & Ha). apply list_find_lookup in Hc as [Hc _].
  apply guard_iff in Ha as [_ Ha]. apply guard_iff in Ha as [_ Ha]. revert Ha. case_match; open_guards.
  - intros [= <- <-]. apply reaches_silent; [by constructor|done].
  - intros (p & _ & event & _ & s2 & Ha & [= <- <-]). eapply reaches_audited, Ha; [by eapply effect_code|done].
Qed.
Lemma CreateDesktopAuthorization_commits {backend : Backend} input s : commits s (OpCreateDesktop input) (fst (CreateDesktopAuthorization input s)).
Proof.
  unfold CreateDesktopAuthorization. case_match; [by left|]. case_match eqn:E; [|by left]. apply HashOpaqueToken_spec in E as ->.
  apply update_commits. intros s' r. open_guards. intros (_ & _ & [= <- <-]). apply reaches_silent; [by constructor|done].
Qed.
Lemma DecideDesktopAuthorization_commits {backend : Backend} id principal approve now s :
  commits s (OpDecideDesktop id principal approve now) (fst (DecideDesktopAuthorization id principal approve now s)).
Proof.
  unfold DecideDesktopAuthorization. case_match; [by left|]. apply update_commits. intros s' r. open_guards. intros ([i d] & Hd & Ha).
  apply list_find_lookup in Hd as [Hd Hid]. apply guard_iff in Ha as [_ Ha]. revert Ha. case_match; open_guards.
  - intros (_ & [= <- <-]). apply reaches_silent; [by constructor|done].
  - intros [= <- <-]. apply reaches_silent; [by eapply effect_decide|done].
Qed.
Lemma PollDesktopAuthorization_commits {backend : Backend} id secret now s :
  commits s (OpPollDesktop id secret now) (fst (PollDesktopAuthorization id secret now s)).
Proof.
  unfold PollDesktopAuthorization. case_match; [|by left]. case_match; [by left|]. apply update_commits. intros s' r.
  case_match eqn:E; [case_match; subst|]; [|intros [= <- <-]; apply reaches_silent; [by constructor|done]].
  apply list_find_lookup in E as [Hd _]. intros [_ Ha]%guard_iff. revert Ha.
  repeat case_match; intros [= <- <-]; (apply reaches_silent; [|done]); try constructor. by eapply effect_poll.
Qed.
Lemma run_op_commits {backend : Backend} o s : commits s o (fst (run_op o s)).
Proof.
  destruct o; simpl; auto using CreateLoginAttempt_commits, ConsumeLoginAttempt_commits, CreateSession_commits, TouchSession_commits,
    RotateSession_commits, CreateBreakGlassCode_commits, RegisterBreakGlassCodeAs_commits, consumeBreakGlassCode_commits,
    RevokeBreakGlassCodeAs_commits, CreateDesktopAuthorization_commits, DecideDesktopAuthorization_commits, PollDesktopAuthorization_commits.
  - destruct caller; simpl; [|apply revokeSession_commits]. unfold RevokeSessionAs. case_match; [apply revokeSession_commits|by left].
  - destruct caller; simpl; [|apply revokePrincipal_commits]. unfold RevokePrincipalAs. case_match; [apply revokePrincipal_commits|by left].
  - unfold CleanupExpired. case_match; [by left|]. apply update_commits. intros s' r [= <- <-]. apply reaches_silent; [by constructor|done].
Qed.

Lemma run_op_valid {backend : Backend} o s : validateState s = Ok tt → validateState (fst (run_op o s)) = Ok tt.
Proof. intros Hv. destruct (run_op_commits o s) as [->|[? _]]; done. Qed.
Lemma run_ops_valid ops s : validateState s = Ok tt → validateState (run_ops ops s) = Ok tt.
Proof. revert s. induction ops as [|[b o] ops IH]; simpl; auto using run_op_valid. Qed.

(** An invariant of the steps is an invariant of the runs. *)
Lemma run_ops_invariant (P : IdentityState.t → Prop) (allowed : identity_op → Prop) :
  (∀ s l, P s → P (s <| IdentityState.Audit := l |>)) → (∀ s o s', allowed o → effect s o s' → P s → P s') →
  ∀ ops s, Forall allowed ops.*2 → P s → P (run_ops ops s).
Proof.
  intros Haudit Hstep ops. induction ops as [|[b o] ops IH]; intros s Ho Hs; simpl; [done|]. apply Forall_cons in Ho as [Ho Hops]. apply IH; [done|].
  destruct (run_op_commits o s) as [->|(_ & s1 & l & He & ->)]; eauto.
Qed.

(** *** Sessions *)
Lemma revoke_all_spec principal at_ reason actor l l' actor' n : revoke_all principal at_ reason actor l = Ok (l', actor', n) →
  Forall2 (λ x x', Session.TokenHash x' = Session.TokenHash x ∧ Session.ID x' = Session.ID x ∧ (is_Some (Session.RevokedAt x) → is_Some (Session.RevokedAt x'))
                   ∧ (Principal.ID (Session.Principal x) = principal → is_Some (Session.RevokedAt x'))) l l'.
Proof.
  revert actor l' actor' n. induction l as [|x l IH]; intros actor l' actor' n; simpl; [intros [= <- <- <-]; constructor|].
  case_match eqn:E; open_guards.
  - intros ([[l2 a2] n2] & Hl & [= <- <- <-]). constructor; [|by eapply IH]. split_and!; [done..|]. intros Hp.
    apply orb_true_iff in E as [E|E]; split_bools; [done|eauto].
  - intros (_ & a1 & _ & [[l2 a2] n2] & Hl & [= <- <- <-]). constructor; [|by eapply IH]. simpl. split_and!; eauto.
Qed.

(** No session that is in force has the credential. *)
Definition dead (h : string) (s : IdentityState.t) : Prop :=
  ∀ x, x ∈ IdentityState.Sessions s → Session.TokenHash x = h → is_Some (Session.RevokedAt x).
(** The operation gives a session the credential. *)
Definition grants (h : string) (o : identity_op) : Prop :=
  match o with
  | OpCreateSession _ input => HashToken (CreateSessionInput.Token input) = h
  | OpRotateSession _ _ _ token _ _ _ => HashToken token = h
  | _ => False
  end.
Lemma dead_put h s i x' : dead h s → (Session.TokenHash x' = h → is_Some (Session.RevokedAt x')) → dead h (put_session i x' s).
Proof. intros Hd Hx x Hi Hh. apply elem_of_list_put in Hi as [->|Hi]; eauto. Qed.
Lemma dead_step h s o s' : ¬ grants h o → effect s o s' → dead h s → dead h s'.
Proof.
  intros Hg He Hd. destruct He; simpl in Hg; try exact Hd.
  1, 2: intros y Hy; apply Hd; by apply list_elem_of_filter in Hy as [_ ?].
  - intros y [Hy|Hy]%elem_of_app; [|apply list_elem_of_singleton in Hy as ->; congruence].
    apply Hd. by apply list_elem_of_filter in Hy as [_ ?].
  - apply dead_put; [done|]. intros Hh. match goal with E : Session.RevokedAt _ = _ |- _ => rewrite E end.
    eapply Hd; [by eapply list_elem_of_lookup_2|congruence].
  - apply dead_put; [done|congruence].
  - apply dead_put; [done|]. simpl. eauto.
  - intros y Hy Hh. match goal with E : revoke_all _ _ _ _ _ = _ |- _ => apply revoke_all_spec in E as Hl end.
    apply list_elem_of_lookup in Hy as [i Hi]. destruct (Forall2_lookup_r _ _ _ _ _ Hl Hi) as (z & Hz & E & _ & Hr & _).
    apply Hr, Hd; [by eapply list_elem_of_lookup_2|congruence].
  - intros y Hy. apply Hd. by apply list_elem_of_filter in Hy as [_ ?].
Qed.

Lemma AuthenticateSession_spec {backend : Backend} token fingerprint now s x : AuthenticateSession token fingerprint now s = Ok x →
  x ∈ IdentityState.Sessions s ∧ Session.TokenHash x = HashToken token ∧ live_at x now = true ∧ Session.PolicyFingerprint x = fingerprint.
Proof.
  unfold AuthenticateSession. case_match eqn:E; [|done]. apply HashOpaqueToken_spec in E as ->. open_guards.
  intros (_ & [] & _ & [i y] & Hy & Ha). apply guard_iff in Ha as [Hb [= <-]]. apply list_find_lookup in Hy as [Hy Hh%CredentialHashEqual_eq]. split_bools.
  split_and!; [by eapply list_elem_of_lookup_2|done..].
Qed.
Lemma dead_refused {backend : Backend} token fingerprint now s : dead (HashToken token) s → is_ok (AuthenticateSession token fingerprint now s) = false.
Proof.
  intros Hd. destruct (AuthenticateSession token fingerprint now s) as [x|] eqn:E; [|done].
  apply AuthenticateSession_spec in E as (Hx & Hh & Hl & _). destruct (Hd x Hx Hh) as [t Ht]. unfold live_at in Hl. by rewrite Ht in Hl.
Qed.

(** The operation ends the session's credential. *)
Inductive ends (x : Session.t) : identity_op → Prop :=
  | ends_rotate draw version token csrf seenAt idle : HashToken token ≠ Session.TokenHash x →
      ends x (OpRotateSession draw (Session.ID x) version token csrf seenAt idle)
  | ends_revoke draw caller at_ reason : ends x (OpRevokeSession draw caller (Session.ID x) at_ reason)
  | ends_revoke_principal draw caller at_ reason : ends x (OpRevokePrincipal draw caller (Principal.ID (Session.Principal x)) at_ reason).

Lemma fmap_NoDup_index {A B} (f : A → B) l i j x y : NoDup (f <$> l) → l !! i = Some x → l !! j = Some y → f x = f y → i = j.
Proof.
  intros Hn Hi Hj E. eapply (NoDup_lookup (f <$> l)); [done| |]; rewrite list_lookup_fmap; [by rewrite Hi|rewrite Hj; simpl; by rewrite E].
Qed.
Lemma revoke_all_count principal at_ reason actor l l' actor' n : revoke_all principal at_ reason actor l = Ok (l', actor', n) →
  (is_Some actor → is_Some actor') ∧ match n with O => l' = l | Datatypes.S _ => is_Some actor' end.
Proof.
  revert actor l' actor' n. induction l as [|x l IH]; intros actor l' actor' n; simpl; [by intros [= <- <- <-]|].
  case_match; open_guards.
  - intros ([[l2 a2] n2] & Hl & [= <- <- <-]). apply IH in Hl as [? ?]. split; [done|]. destruct n2; by subst.
  - intros (_ & a1 & _ & [[l2 a2] n2] & Hl & [= <- <- <-]). apply IH in Hl as [? ?]. eauto.
Qed.

Section ending.
Context (s : IdentityState.t) (x : Session.t) (Hs : sound s) (Hx : x ∈ IdentityState.Sessions s).

(** A session replaced at its own place leaves its credential with its successor. *)
Lemma dead_replaced i x0 x' : session_at s (Session.ID x) = Some (i, x0) →
  (Session.TokenHash x' = Session.TokenHash x → is_Some (Session.RevokedAt x')) → dead (Session.TokenHash x) (put_session i x' s).
Proof.
  intros [Hi Hid]%list_find_lookup Hx'. apply list_elem_of_lookup in Hx as [j Hj].
  assert (i = j) as -> by (eapply (fmap_NoDup_index Session.ID); [apply Hs|done..]). intros y [k Hk]%list_elem_of_lookup Hh.
  apply list_lookup_insert_Some in Hk as [(_ & <- & _)|[Hne Hk]]; [auto|]. destruct Hne.
  eapply (fmap_NoDup_index Session.TokenHash); [apply Hs|done..|congruence].
Qed.
Lemma session_found i x0 : session_at s (Session.ID x) = Some (i, x0) → x0 = x.
Proof.
  intros [Hi Hid]%list_find_lookup. apply list_elem_of_lookup in Hx as [j Hj].
  assert (i = j) as -> by (eapply (fmap_NoDup_index Session.ID); [apply Hs|done..]). congruence.
Qed.
Lemma dead_revoked : is_Some (Session.RevokedAt x) → dead (Session.TokenHash x) s.
Proof.
  intros Hr y [k Hk]%list_elem_of_lookup Hh. apply list_elem_of_lookup in Hx as [j Hj].
  assert (k = j) as -> by (eapply (fmap_NoDup_index Session.TokenHash); [apply Hs|done..]). by simplify_eq.
Qed.
Lemma dead_audited h event s1 s2 : appendIdentityAudit event s1 = Ok s2 → dead h s1 → dead h s2.
Proof. by intros ->%appendIdentityAudit_spec. Qed.

Lemma update_ok {backend : Backend} {A} (f : IdentityState.t → result (IdentityState.t * A)) (P : IdentityState.t → Prop) :
  (∀ s' a, f s = Ok (s', a) → P s') → snd (outcome (update f s)) = true → P (fst (update f s)).
Proof.
  intros Hf. unfold outcome. simpl. destruct (update f s) as [s' r] eqn:E. apply transaction_spec in E as [[-> [e ->]]|(a & Ha & _ & [->| ->])]; [done| |done].
  simpl. eauto.
Qed.
Lemma rotate_ends {backend : Backend} draw version token csrf seenAt idle : HashToken token ≠ Session.TokenHash x →
  snd (run_op (OpRotateSession draw (Session.ID x) version token csrf seenAt idle) s) = true →
  dead (Session.TokenHash x) (fst (run_op (OpRotateSession draw (Session.ID x) version token csrf seenAt idle) s)).
Proof.
  intros Hne. simpl. unfold RotateSession. case_match; [done|]. case_match eqn:E; [|done]. case_match. subst. apply rotation_hashes_spec in E as ->. apply update_ok. intros s' r. open_guards.
  intros ([i x0] & Hi & Ha). pose proof (session_found _ _ Hi) as ->. case_match.
  - split_bools. destruct Hne. symmetry. by apply CredentialHashEqual_eq.
  - revert Ha. open_guards. intros (_ & _ & _ & actor & _ & event & _ & s2 & Ha & [= <- <-]). eapply dead_audited; [done|].
    eapply dead_replaced; [done|by simpl].
Qed.
Lemma revoke_ends {backend : Backend} draw caller at_ reason : snd (outcome (revokeSession draw caller (Session.ID x) at_ reason s)) = true →
  dead (Session.TokenHash x) (fst (revokeSession draw caller (Session.ID x) at_ reason s)).
Proof.
  unfold revokeSession. case_match; [done|]. apply update_ok. intros s' r. open_guards. intros ([i x0] & Hi & Ha).
  pose proof (session_found _ _ Hi) as ->. revert Ha. case_match eqn:E; open_guards.
  - intros (_ & [= <- <-]). apply dead_revoked. by rewrite E.
  - intros (_ & actor & _ & [] & _ & event & _ & s2 & Ha & [= <- <-]). eapply dead_audited; [done|]. eapply dead_replaced; [done|by simpl; eauto].
Qed.
Lemma revokePrincipal_ends {backend : Backend} draw caller at_ reason :
  snd (outcome (revokePrincipal draw caller (Principal.ID (Session.Principal x)) at_ reason s)) = true →
  dead (Session.TokenHash x) (fst (revokePrincipal draw caller (Principal.ID (Session.Principal x)) at_ reason s)).
Proof.
  unfold revokePrincipal. case_match; [done|]. apply update_ok. intros s' r. open_guards.
  intros ([] & _ & [[l actor] n] & Hl & Ha). pose proof (revoke_all_count _ _ _ _ _ _ _ _ Hl) as [_ Hn]. apply revoke_all_spec in Hl.
  assert (dead (Session.TokenHash x) (s <| IdentityState.Sessions := l |>)) as Hd.
  { intros y [k Hk]%list_elem_of_lookup Hh. destruct (Forall2_lookup_r _ _ _ _ _ Hl Hk) as (z & Hz & E & _ & _ & Hr). apply Hr.
    apply list_elem_of_lookup in Hx as [j Hj].
    assert (k = j) as -> by (eapply (fmap_NoDup_index Session.TokenHash); [apply Hs|done..|congruence]). by simplify_eq. }
  destruct n as [|n]; [injection Ha as <- <-; subst l; by destruct s|]. destruct Hn as [b ->].
  revert Ha. open_guards. intros (event & _ & s2 & Ha & [= <- <-]). by eapply dead_audited.
Qed.
End ending.

(** C8: a credential that has authenticated a session never authenticates again
    once the session was rotated to another credential, revoked, or revoked with its
    principal: no later sequence of operations, at no time and under no policy, lets
    it in, unless an operation hands the very same credential out again. *)
Theorem ended_sessions_stay_out (before during : Backend) s token fingerprint now x o ops :
  validateState s = Ok tt → AuthenticateSession (backend := before) token fingerprint now s = Ok x → ends x o →
  snd (run_op (backend := during) o s) = true → Forall (λ o, ¬ grants (HashToken token) o) ops.*2 →
  ∀ (after : Backend) fingerprint' now',
    is_ok (AuthenticateSession token fingerprint' now' (run_ops ops (fst (run_op (backend := during) o s)))) = false.
Proof.
  intros Hv%valid_sound (Hx & Hh & _)%AuthenticateSession_spec He Hok Hops after fingerprint' now'. apply dead_refused.
  apply (run_ops_invariant (dead (HashToken token)) (λ o, ¬ grants (HashToken token) o)); [done|intros; by eapply dead_step|done|].
  rewrite <- Hh. destruct He; [by apply rotate_ends|destruct caller as [actor|]..]; simpl in *; revert Hok.
  - unfold RevokeSessionAs. case_match; [by apply revoke_ends|done].
  - by apply revoke_ends.
  - unfold RevokePrincipalAs. case_match; [by apply revokePrincipal_ends|done].
  - by apply revokePrincipal_ends.
Qed.

(** *** One-time credentials *)
Lemma delete_distinct {A B} (f : A → B) l i a x : NoDup (f <$> l) → l !! i = Some a → x ∈ delete i l → f x ≠ f a.
Proof.
  intros Hn Hi Hx E. apply delete_Permutation in Hi. rewrite Hi, fmap_cons in Hn. apply NoDup_cons in Hn as [Hn _].
  apply Hn. rewrite <- E. by apply list_elem_of_fmap_2.
Qed.
(** The operation issues the login transaction, the break-glass code, the desktop
    request. *)
Definition issues_attempt (h : string) (o : identity_op) : Prop :=
  match o with OpCreateLoginAttempt input => HashToken (LoginAttemptInput.TransactionToken input) = h | _ => False end.
Definition issues_code (id : string) (o : identity_op) : Prop :=
  match o with
  | OpCreateBreakGlassCode input | OpRegisterBreakGlassCode _ _ input => BreakGlassCodeInput.ID input = id
  | _ => False
  end.
Definition issues_desktop (id : string) (o : identity_op) : Prop :=
  match o with OpCreateDesktop input => DesktopInput.ID input = id | _ => False end.

Definition no_attempt (h : string) (s : IdentityState.t) : Prop := ∀ a, a ∈ IdentityState.LoginAttempts s → LoginAttempt.TransactionHash a ≠ h.
Definition spent (id : string) (s : IdentityState.t) : Prop :=
  ∀ c, c ∈ IdentityState.BreakGlassCodes s → BreakGlassCode.ID c = id → is_Some (BreakGlassCode.UsedAt c) ∨ is_Some (BreakGlassCode.RevokedAt c).
Definition no_desktop (id : string) (s : IdentityState.t) : Prop :=
  ∀ r, r ∈ IdentityState.DesktopAuthorizations s → DesktopAuthorization.ID r ≠ id.

Lemma no_attempt_step h s o s' : ¬ issues_attempt h o → effect s o s' → no_attempt h s → no_attempt h s'.
Proof.
  intros Hg He Hd. destruct He; simpl in Hg; try exact Hd; intros y Hy; try (apply Hd; by apply list_elem_of_filter in Hy as [_ ?]).
  - apply elem_of_app in Hy as [Hy|Hy]; [apply Hd; by apply list_elem_of_filter in Hy as [_ ?]|].
    apply list_elem_of_singleton in Hy as ->. congruence.
  - apply Hd. exact (elem_of_list_drop _ _ _ Hy).
Qed.
Lemma spent_step id s o s' : ¬ issues_code id o → effect s o s' → spent id s → spent id s'.
Proof.
  intros Hg He Hd. destruct He; try exact Hd; intros y Hy; try (apply Hd; by apply list_elem_of_filter in Hy as [_ ?]).
  - apply elem_of_app in Hy as [Hy|Hy]; [apply Hd; by apply list_elem_of_filter in Hy as [_ ?]|].
    apply list_elem_of_singleton in Hy as ->. simpl. intros Hid. destruct Hg. naive_solver.
  - intros Hid. apply elem_of_list_put in Hy as [->|Hy]; [|auto]. destruct (Hd c); [by eapply list_elem_of_lookup_2|congruence|eauto..].
Qed.
Lemma no_desktop_step id s o s' : ¬ issues_desktop id o → effect s o s' → no_desktop id s → no_desktop id s'.
Proof.
  intros Hg He Hd. destruct He; simpl in Hg; try exact Hd; intros y Hy; try (apply Hd; by apply list_elem_of_filter in Hy as [_ ?]).
  - apply elem_of_app in Hy as [Hy|Hy]; [apply Hd; by apply list_elem_of_filter in Hy as [_ ?]|].
    apply list_elem_of_singleton in Hy as ->. congruence.
  - apply elem_of_list_put in Hy as [->|Hy]; [|auto]. subst. intros E. eapply (Hd r); [by eapply list_elem_of_lookup_2|congruence].
  - apply elem_of_list_put in Hy as [->|Hy]; [|auto]. intros E. eapply (Hd r); [by eapply list_elem_of_lookup_2|congruence].
  - apply Hd. exact (elem_of_list_drop _ _ _ Hy).
Qed.

Lemma found_ok {backend : Backend} {A} (f : IdentityState.t → result (IdentityState.t * option A)) s a (P : IdentityState.t → Prop) :
  (∀ s', f s = Ok (s', Some a) → P s') → snd (found (update f s)) = Ok a → P (fst (found (update f s))).
Proof.
  intros Hf. unfold found. simpl. destruct (update f s) as [s' r] eqn:E.
  apply transaction_spec in E as [[-> [e ->]]|(b & Hb & _ & [->| ->])]; simpl; [done| |done]. destruct b; [|done]. intros [= ->]. auto.
Qed.
Ltac open_found s' :=
  let Hf := fresh in
  intros Hf; match goal with |- context [fst (found ?r)] => pattern (fst (found r)) end; revert Hf; apply found_ok; intros s'.
Lemma ConsumeLoginAttempt_spec {backend : Backend} token state now s a : sound s → snd (ConsumeLoginAttempt token state now s) = Ok a →
  ¬ no_attempt (HashToken token) s ∧ no_attempt (HashToken token) (fst (ConsumeLoginAttempt token state now s)).
Proof.
  intros Hs. unfold ConsumeLoginAttempt. case_match eqn:E1; [|done]. case_match eqn:E2; [|done]. case_match; [done|].
  apply HashOpaqueToken_spec in E1 as ->. open_found s'. case_match eqn:E; [case_match; subst|done].
  apply list_find_lookup in E as [Hi Hh%CredentialHashEqual_eq]. case_match; [done|]. case_match; [done|]. open_guards.
  intros (? & _ & [= <- _]). split.
  - intros Hn. eapply Hn; [by eapply list_elem_of_lookup_2|done].
  - intros y Hy. rewrite <- Hh. eapply (delete_distinct LoginAttempt.TransactionHash); [apply Hs|done..].
Qed.
Lemma consumeBreakGlassCode_spec {backend : Backend} draw id token now audited s c : sound s → snd (consumeBreakGlassCode draw id token now audited s) = Ok c →
  ¬ spent id s ∧ spent id (fst (consumeBreakGlassCode draw id token now audited s)).
Proof.
  intros Hs. unfold consumeBreakGlassCode. case_match; [done|]. open_found s'. case_match eqn:E; [destruct p as [i b]|done].
  apply list_find_lookup in E as [Hi Hid]. case_match eqn:Eu; [done|]. intros (s1 & Ha & Hr)%bind_Ok. injection Hr as <- _.
  unfold usable in Eu. split_bools. split.
  - intros Hp. destruct (Hp b) as [Hp'|Hp']; [by eapply list_elem_of_lookup_2|done|..]; destruct Hp'; congruence.
  - assert (IdentityState.BreakGlassCodes s1 = IdentityState.BreakGlassCodes s) as Ec.
    { destruct audited; revert Ha; open_guards; [|by intros [= <-]]. by intros (? & _ & ? & _ & ? & _ & ->%appendIdentityAudit_spec). }
    intros y [k Hk]%list_elem_of_lookup Hy. simpl in Hk. rewrite Ec in Hk.
    apply list_lookup_insert_Some in Hk as [(_ & <- & _)|[Hne Hk]]; [simpl; eauto|]. destruct Hne.
    eapply (fmap_NoDup_index BreakGlassCode.ID); [apply Hs|done..|congruence].
Qed.
Lemma RevokeBreakGlassCodeAs_spec {backend : Backend} draw actor id at_ s c : sound s → snd (RevokeBreakGlassCodeAs draw actor id at_ s) = Ok c →
  spent id (fst (RevokeBreakGlassCodeAs draw actor id at_ s)).
Proof.
  intros Hs Hok. assert (snd (outcome (RevokeBreakGlassCodeAs draw actor id at_ s)) = true) as Hb by (unfold outcome; simpl; by rewrite Hok).
  clear Hok. revert Hb. unfold RevokeBreakGlassCodeAs. case_match; [done|]. apply update_ok. intros s' r. open_guards.
  intros ([] & _ & [i c0] & Hc & Ha). apply list_find_lookup in Hc as [Hi Hid].
  apply guard_iff in Ha as [_ Ha]. apply guard_iff in Ha as [_ Ha].
  assert (∀ y, y ∈ IdentityState.BreakGlassCodes s → BreakGlassCode.ID y = id → y = c0) as Hsame.
  { intros y [k Hk]%list_elem_of_lookup Hy.
    assert (k = i) as -> by (eapply (fmap_NoDup_index BreakGlassCode.ID); [apply Hs|done..|congruence]). congruence. }
  revert Ha. case_match eqn:E; open_guards.
  - split_bools. intros [= <- <-] y Hy Hyid. right. rewrite (Hsame y Hy Hyid). eauto.
  - intros (p & _ & event & _ & s2 & ->%appendIdentityAudit_spec & [= <- <-]). intros y [k Hk]%list_elem_of_lookup Hyid. simpl in Hk.
    apply list_lookup_insert_Some in Hk as [(_ & <- & _)|[Hne Hk]]; [simpl; eauto|]. destruct Hne.
    eapply (fmap_NoDup_index BreakGlassCode.ID); [apply Hs|done..|congruence].
Qed.
Lemma PollDesktopAuthorization_spec {backend : Backend} id secret now s answer : sound s → snd (PollDesktopAuthorization id secret now s) = Ok answer →
  ¬ no_desktop id s ∧ (DesktopPoll.State answer = DesktopAuthorizationApproved →
    no_desktop id (fst (PollDesktopAuthorization id secret now s)) ∧
    ∃ r, r ∈ IdentityState.DesktopAuthorizations s ∧ DesktopAuthorization.ID r = id ∧ DesktopAuthorization.State r = DesktopAuthorizationApproved
         ∧ DesktopAuthorization.PollSecretHash r = HashToken secret ∧ DesktopAuthorization.Principal r = DesktopPoll.Principal answer
         ∧ now < DesktopAuthorization.ExpiresAt r).
Proof.
  intros Hs. unfold PollDesktopAuthorization. case_match eqn:E1; [|done]. apply HashOpaqueToken_spec in E1 as ->. case_match; [done|].
  open_found s'. case_match eqn:E; [destruct p as [i d]|done]. apply list_find_lookup in E as [Hi [Hid Hh%CredentialHashEqual_eq]].
  intros [_ Ha]%guard_iff. pose proof (list_elem_of_lookup_2 _ _ _ Hi) as Hin. split; [intros Hn; by apply (Hn d)|]. revert Ha.
  case_match eqn:Ee; [intros [= <- <-]; done|]. case_match eqn:Ed; [intros [= <- <-]; done|].
  case_match eqn:Ea; intros [= <- <-]; simpl; intros HA; split_bools; [|done]. split.
  - intros y Hy. rewrite <- Hid. eapply (delete_distinct DesktopAuthorization.ID); [apply Hs|done..].
  - exists d. split_and!; try done. unfold Before in *. lia.
Qed.

(** The credential has had its use: a login transaction consumed, a break-glass code
    consumed or revoked, a desktop approval collected. *)
Inductive credential :=
  | LoginTransaction (token : string)
  | BreakGlass (id : string)
  | DesktopRequest (id : string).
Definition issues (k : credential) (o : identity_op) : Prop :=
  match k with
  | LoginTransaction token => issues_attempt (HashToken token) o
  | BreakGlass id => issues_code id o
  | DesktopRequest id => issues_desktop id o
  end.
(** The operation accepts the credential in the document. *)
Definition accepts {backend : Backend} (k : credential) (o : identity_op) (s : IdentityState.t) : Prop :=
  match k, o with
  | LoginTransaction token, OpConsumeLoginAttempt token' state now => token' = token ∧ is_ok (snd (ConsumeLoginAttempt token state now s)) = true
  | BreakGlass id, OpConsumeBreakGlassCode draw id' token now audited =>
      id' = id ∧ is_ok (snd (consumeBreakGlassCode draw id token now audited s)) = true
  | DesktopRequest id, OpPollDesktop id' secret now => id' = id ∧ is_ok (snd (PollDesktopAuthorization id secret now s)) = true
  | _, _ => False
  end.
(** The operation uses the credential up. *)
Definition uses_up {backend : Backend} (k : credential) (o : identity_op) (s : IdentityState.t) : Prop :=
  match k, o with
  | BreakGlass id, OpRevokeBreakGlassCode draw actor id' at_ => id' = id ∧ is_ok (snd (RevokeBreakGlassCodeAs draw actor id at_ s)) = true
  | DesktopRequest id, OpPollDesktop id' secret now =>
      id' = id ∧ ∃ answer, snd (PollDesktopAuthorization id secret now s) = Ok answer ∧ DesktopPoll.State answer = DesktopAuthorizationApproved
  | _, _ => accepts k o s
  end.
Definition gone (k : credential) (s : IdentityState.t) : Prop :=
  match k with
  | LoginTransaction token => no_attempt (HashToken token) s
  | BreakGlass id => spent id s
  | DesktopRequest id => no_desktop id s
  end.
Lemma is_ok_inv {A} (r : result A) : is_ok r = true → ∃ a, r = Ok a.
Proof. destruct r; [eauto|done]. Qed.
Lemma gone_step k s o s' : ¬ issues k o → effect s o s' → gone k s → gone k s'.
Proof. destruct k; simpl; eauto using no_attempt_step, spent_step, no_desktop_step. Qed.
Lemma gone_refused {backend : Backend} k o s : sound s → gone k s → ¬ accepts k o s.
Proof.
  intros Hs Hg. destruct k, o; simpl; try tauto; intros [-> [a Ha]%is_ok_inv].
  - by apply ConsumeLoginAttempt_spec in Ha as [Hn _].
  - by apply consumeBreakGlassCode_spec in Ha as [Hn _].
  - by apply PollDesktopAuthorization_spec in Ha as [Hn _].
Qed.
Lemma uses_up_gone {backend : Backend} k o s : sound s → uses_up k o s → gone k (fst (run_op o s)).
Proof.
  intros Hs. destruct k, o; simpl; try tauto.
  - intros [-> [a Ha]%is_ok_inv]. by apply ConsumeLoginAttempt_spec in Ha as [_ ?].
  - intros [-> [a Ha]%is_ok_inv]. by apply consumeBreakGlassCode_spec in Ha as [_ ?].
  - intros [-> [a Ha]%is_ok_inv]. by eapply RevokeBreakGlassCodeAs_spec.
  - intros (-> & answer & Ha & Happ). apply PollDesktopAuthorization_spec in Ha as [_ Hp]; [|done]. by destruct (Hp Happ).
Qed.

(** C13: a login transaction is consumed once, a break-glass code is consumed once
    and not after it was revoked, and an approved desktop request hands its principal
    out once: after that, whatever operations follow, no call is accepted with the
    credential until an operation issues it anew. *)
Theorem credentials_are_used_once (during after : Backend) k s o ops o' :
  validateState s = Ok tt → uses_up (backend := during) k o s → Forall (λ o, ¬ issues k o) ops.*2 →
  ¬ accepts (backend := after) k o' (run_ops ops (fst (run_op (backend := during) o s))).
Proof.
  intros Hv Hu Hops. apply gone_refused; [by apply valid_sound, run_ops_valid, run_op_valid|].
  apply (run_ops_invariant (gone k) (λ o, ¬ issues k o)); [by destruct k|intros; by eapply gone_step|done|].
  by apply uses_up_gone; [apply valid_sound|].
Qed.

(** C20: in every document the store reaches, an authenticated session is one whose
    credential is the one presented, that nobody has revoked, of a checked principal
    and under the policy in force; it was seen at most an hour ago, created at most
    eight hours ago, and its principal signed in at most two minutes after that. *)
Theorem authenticated_sessions_are_fresh {backend : Backend} ops s token fingerprint now x :
  validateState s = Ok tt → AuthenticateSession token fingerprint now (run_ops ops s) = Ok x →
  Session.TokenHash x = HashToken token ∧ Session.RevokedAt x = None ∧ Session.PolicyFingerprint x = fingerprint
  ∧ Validate_principal (Session.Principal x) = Ok tt ∧ Session.AuthMethod x = want_method (Principal.Kind (Session.Principal x))
  ∧ Session.CreatedAt x <= Session.LastSeenAt x <= now
  ∧ now < Session.LastSeenAt x + hour ∧ now < Session.CreatedAt x + 8 * hour
  ∧ Principal.AuthTime (Session.Principal x) <= Session.CreatedAt x + 2 * minute.
Proof.
  intros Hv (Hx & Hh & Hl & Hp)%AuthenticateSession_spec.
  pose proof (sound_session _ (valid_sound _ (run_ops_valid ops s Hv)) x Hx) as Hok. revert Hok. unfold validateSession. open_guards.
  intros (_ & [] & HP & HM & HL & HA & _ & _). unfold live_at in Hl. split_bools.
  assert (hour = 3600000000000 ∧ int64_max = 9223372036854775807) as [Eh Ei] by done.
  unfold Before, After, Sub in *. split_and!; try done; lia.
Qed.

(** *** Desktop requests *)
Definition recorded (ops : list identity_op) (r : DesktopAuthorization.t) : Prop :=
  (∃ input, OpCreateDesktop input ∈ ops ∧ DesktopInput.ID input = DesktopAuthorization.ID r
            ∧ HashToken (DesktopInput.PollSecret input) = DesktopAuthorization.PollSecretHash r) ∧
  (DesktopAuthorization.State r = DesktopAuthorizationApproved →
   ∃ now, OpDecideDesktop (DesktopAuthorization.ID r) (DesktopAuthorization.Principal r) true now ∈ ops).
Definition all_recorded (id : string) (ops : list identity_op) (s : IdentityState.t) : Prop :=
  ∀ r, r ∈ IdentityState.DesktopAuthorizations s → DesktopAuthorization.ID r = id → recorded ops r.
Lemma recorded_mono ops ops' r : ops ⊆ ops' → recorded ops r → recorded ops' r.
Proof. unfold recorded. set_solver. Qed.
Lemma recorded_step id ops o s s' : effect s o s' → all_recorded id ops s → all_recorded id (ops ++ [o]) s'.
Proof.
  assert (DesktopAuthorizationPending ≠ DesktopAuthorizationApproved ∧ DesktopAuthorizationDenied ≠ DesktopAuthorizationApproved) as [Hpa Hda] by done.
  intros He Hd. assert (all_recorded id (ops ++ [o]) s) as Hd'.
  { intros r Hr Hid. apply (recorded_mono ops); [set_solver|auto]. }
  destruct He; try exact Hd'; intros y Hy; try (apply Hd'; by apply list_elem_of_filter in Hy as [_ ?]).
  - apply elem_of_app in Hy as [Hy|Hy]; [apply Hd'; by apply list_elem_of_filter in Hy as [_ ?]|].
    apply list_elem_of_singleton in Hy as ->. intros Hid. split; [|congruence]. exists input. split_and!; [set_solver|done..].
  - apply elem_of_list_put in Hy as [->|Hy]; [|auto]. intros Hid.
    destruct (Hd' r) as [(input & ? & ? & ?) _]; [by eapply list_elem_of_lookup_2|congruence|]. split.
    + exists input. split_and!; [done|congruence..].
    + destruct approve; [|congruence]. intros _. exists now. apply elem_of_app. right. apply list_elem_of_singleton. congruence.
  - apply elem_of_list_put in Hy as [->|Hy]; [|auto]. intros Hid.
    destruct (Hd' r) as [(input & ? & ? & ?) Ha]; [by eapply list_elem_of_lookup_2|congruence|]. split.
    + exists input. split_and!; [done|congruence..].
    + intros HA. destruct Ha as [now Ha]; [congruence|]. exists now. congruence.
  - apply Hd'. exact (elem_of_list_drop _ _ _ Hy).
Qed.
Lemma run_ops_recorded id s ops : no_desktop id s → all_recorded id ops.*2 (run_ops ops s).
Proof.
  intros Hn. induction ops as [|[b o] ops IH] using rev_ind; [intros r Hr Hid; by destruct (Hn r)|].
  unfold run_ops. rewrite foldl_app, fmap_app. fold (run_ops ops s). simpl.
  destruct (run_op_commits o (run_ops ops s)) as [->|(_ & s1 & l & He & ->)].
  - intros r Hr Hid. apply (recorded_mono ops.*2); [set_solver|auto].
  - exact (recorded_step _ _ _ _ _ He IH).
Qed.

(** C21: a device that polls and is told it is approved holds the secret the request
    was created with, and the principal it is given is one that approved this very
    request: in every run from a document without the request, an approval reported
    by a poll was preceded by the request's creation with that secret and by a
    decision of that principal in favour. *)
Theorem desktop_approvals_are_granted {backend : Backend} s ops id secret now answer :
  validateState s = Ok tt → no_desktop id s → snd (PollDesktopAuthorization id secret now (run_ops ops s)) = Ok answer →
  DesktopPoll.State answer = DesktopAuthorizationApproved →
  (∃ input, OpCreateDesktop input ∈ ops.*2 ∧ DesktopInput.ID input = id ∧ HashToken (DesktopInput.PollSecret input) = HashToken secret) ∧
  (∃ decided, OpDecideDesktop id (DesktopPoll.Principal answer) true decided ∈ ops.*2).
Proof.
  intros Hv Hn Ha Happ. apply PollDesktopAuthorization_spec in Ha as [_ Hp]; [|by apply valid_sound, run_ops_valid].
  destruct (Hp Happ) as (_ & r & Hr & Hid & Hs & Hh & Hpr & _).
  destruct (run_ops_recorded id s ops Hn r Hr Hid) as [(input & Hi & Hii & His) Hd]. destruct (Hd Hs) as [decided Hd']. split.
  - exists input. split_and!; [done|congruence..].
  - exists decided. congruence.
Qed.
End valid.

(** ** A store at work *)
Module IdentityExample.
#[local] Instance no_urls : URLs := {| url_Parse _ := None; url_Hostname := URL.Host; url_String := URL.Path |}.
#[local] Instance no_identity_urls : IdentityURLs := {| url_Port _ := ""; url_ParseRequestURI _ := None; url_QueryUnescape := Some |}.
#[local] Instance no_sealer : Sealer := {| SealFor _ _ := Err ErrUnauthorized; OpenFor _ _ := Err ErrUnauthorized |}.
#[local] Instance working : Backend := {| refuses := None; stores _ := Written |}.
#[local] Instance uncertain : Backend | 5 := {| refuses := None; stores _ := WriteUncertain |}.
Definition tok (name : string) : string := HashToken name.
Definition t0 : time := 1000 * hour.
Definition admin : Principal.t := Principal.make "legacy_admin" PrincipalLegacyAdmin "" "" "" "" [] "" [] t0.
Definition admin_actor : Actor.t := Actor.make "legacy_admin" PrincipalLegacyAdmin "".
Definition policy : string := ConfigDigest "policy".
Definition empty : IdentityState.t := IdentityState.make identityStateSchema [] [] [] [] [].
Definition op_session : identity_op :=
  OpCreateSession (Ok (tok "audit 1")) (CreateSessionInput.make "session-1" (tok "cookie") (tok "csrf") admin policy "legacy_token" t0 t0
    (t0 + 30 * minute) (t0 + 8 * hour)).
Definition op_rotate : identity_op :=
  OpRotateSession (Ok (tok "audit 2")) "session-1" 1 (tok "cookie 2") (tok "csrf 2") (t0 + minute) (t0 + 31 * minute).
Definition op_session_2 : identity_op :=
  OpCreateSession (Ok (tok "audit 3")) (CreateSessionInput.make "session-2" (tok "cookie 3") (tok "csrf 3") admin policy "legacy_token" t0 t0
    (t0 + 30 * minute) (t0 + 8 * hour)).
Definition with_session : IdentityState.t := fst (run_op op_session empty).
Definition the_session : Session.t :=
  match AuthenticateSession (tok "cookie") policy (t0 + second) with_session with
  | Ok x => x
  | Err _ => Session.make "" "" "" admin "" "" 0 0 0 0 None "" 0
  end.
Lemma ended_sessions_stay_out_witness :
  snd (run_op op_rotate with_session) = true ∧ ∀ (after : Backend) fingerprint' now', is_ok (AuthenticateSession (tok "cookie") fingerprint' now'
    (run_ops [(uncertain, op_session_2); (working, OpCleanup (t0 + 2 * minute))] (fst (run_op (backend := working) op_rotate with_session)))) = false.
Proof.
  split; [vm_compute; reflexivity|].
  refine (ended_sessions_stay_out working working with_session (tok "cookie") policy (t0 + second) the_session op_rotate
    [(uncertain, op_session_2); (working, OpCleanup (t0 + 2 * minute))] _ _ _ _ _);
    [vm_compute; reflexivity|vm_compute; reflexivity| |vm_compute; reflexivity|].
  - assert (Session.ID the_session = "session-1") as E by (vm_compute; reflexivity). unfold op_rotate. rewrite <- E. constructor. vm_compute. discriminate.
  - repeat constructor; vm_compute; [discriminate|tauto].
Defined.
Lemma authenticated_sessions_are_fresh_witness :
  Session.TokenHash the_session = HashToken (tok "cookie") ∧ Session.RevokedAt the_session = None ∧ Session.PolicyFingerprint the_session = policy
  ∧ Validate_principal (Session.Principal the_session) = Ok tt
  ∧ Session.AuthMethod the_session = want_method (Principal.Kind (Session.Principal the_session))
  ∧ Session.CreatedAt the_session <= Session.LastSeenAt the_session <= t0 + second
  ∧ t0 + second < Session.LastSeenAt the_session + hour ∧ t0 + second < Session.CreatedAt the_session + 8 * hour
  ∧ Principal.AuthTime (Session.Principal the_session) <= Session.CreatedAt the_session + 2 * minute.
Proof. apply (authenticated_sessions_are_fresh [(working, op_session)] empty (tok "cookie") policy (t0 + second) the_session); vm_compute; reflexivity. Defined.

Definition device : string := "desktop_" +:+ tok "device".
Definition op_request : identity_op := OpCreateDesktop (DesktopInput.make device (tok "secret") t0 (t0 + 5 * minute) (5 * second)).
Definition op_decide : identity_op := OpDecideDesktop device admin true (t0 + second).
Definition op_poll : identity_op := OpPollDesktop device (tok "secret") (t0 + 2 * second).
Definition approved : IdentityState.t := run_ops [(working, op_request); (working, op_decide)] empty.
Definition the_answer : DesktopPoll.t := DesktopPoll.make DesktopAuthorizationApproved admin (t0 + 5 * minute) (5 * second).
Lemma credentials_are_used_once_witness :
  ¬ accepts (DesktopRequest device) op_poll (run_ops [(working, op_session); (working, OpCleanup (t0 + 3 * second))] (fst (run_op op_poll approved))).
Proof.
  apply (credentials_are_used_once working working (DesktopRequest device) approved op_poll
    [(working, op_session); (working, OpCleanup (t0 + 3 * second))] op_poll).
  - vm_compute; reflexivity.
  - split; [reflexivity|]. exists the_answer. split; vm_compute; reflexivity.
  - repeat constructor; vm_compute; tauto.
Defined.
Lemma desktop_approvals_are_granted_witness :
  (∃ input, OpCreateDesktop input ∈ [op_request; op_decide] ∧ DesktopInput.ID input = device
            ∧ HashToken (DesktopInput.PollSecret input) = HashToken (tok "secret")) ∧
  (∃ decided, OpDecideDesktop device (DesktopPoll.Principal the_answer) true decided ∈ [op_request; op_decide]).
Proof.
  apply (desktop_approvals_are_granted empty [(working, op_request); (working, op_decide)] device (tok "secret") (t0 + 2 * second) the_answer);
    [vm_compute; reflexivity| |vm_compute; reflexivity|reflexivity].
  intros r Hr. by apply elem_of_nil in Hr.
Defined.
End IdentityExample.
