(* ===== verification/IdentityPolicy.v ===== *)
(** * Who may sign in, and with which role (internal/identity: config.go, rbac.go,
    breakglass.go)

    The configuration of identities and its normal form, the role a principal has
    under it, and the text of a break-glass credential.  Slices are lists: the code
    does not tell an absent slice from an empty one. *)
From stdpp Require Import gmap.
From S2P Require Import Prelude GoStd Sha256 GoTime IPv4 NetIP AuditLog AgentState Identity.
From Stdlib Require Import Ascii.
Open Scope Z_scope.

(** ** Configuration *)
Definition ModeLegacyToken : string := "legacy-token".
Definition ModeHybrid : string := "hybrid".
Definition ModeOIDC : string := "oidc".
Definition RoleViewer : string := "viewer".
Definition RoleOperator : string := "operator".
Definition RoleAdmin : string := "admin".

Module AdminSelector.
Record t := make { Kind : string; Value : string }.
#[global] Instance t_eq_dec : EqDecision t.
Proof. solve_decision. Defined.
End AdminSelector.
Module RoleBinding.
Record t := make { Role : string; Selector : AdminSelector.t }.
#[global] Instance t_eq_dec : EqDecision t.
Proof. solve_decision. Defined.
End RoleBinding.
Module OIDCConfig.
Record t := make {
  Issuer : string; ClientID : string; ClientSecretFile : string; Scopes : list string; GroupsClaim : string;
  AllowedSigningAlgs : list string; Admins : list AdminSelector.t; RoleBindings : list RoleBinding.t;
  RequiredACRAny : list string; RequiredAMRAll : list string; MaxAuthenticationAge : duration }.
End OIDCConfig.
Module SessionConfig.
Record t := make { IdleTTL : duration; AbsoluteTTL : duration; LoginAttemptTTL : duration; TouchInterval : duration }.
End SessionConfig.
Module BreakGlassConfig.
Record t := make { Enabled : bool; MinimumUsableCodes : Z }.
End BreakGlassConfig.
Module IdentityConfig.
Record t := make {
  Mode : string; PublicURL : string; OIDC : option OIDCConfig.t; Sessions : SessionConfig.t; LegacyBrowserLogin : bool;
  LegacyBearer : bool; BreakGlass : BreakGlassConfig.t }.
End IdentityConfig.

Definition defaultIdleTTL : duration := 15 * minute.
Definition defaultAbsoluteTTL : duration := hour.
Definition defaultLoginAttemptTTL : duration := 5 * minute.
Definition defaultTouchInterval : duration := minute.
Definition MinBreakGlassUsableCodes : Z := 2.
Definition MaxBreakGlassUsableCodes : Z := 32.

Definition letter (c : Z) : bool := ((65 <=? c) && (c <=? 90)) || ((97 <=? c) && (c <=? 122)).
Definition claimNamePattern (s : string) : bool :=
  match_class (λ c, letter c || (c =? 95)) (λ c, alnum c || contains [95; 46; 58; 47; 45] c) 127 s.
Definition scope_char (c : Z) : bool :=
  (c =? 33) || ((35 <=? c) && (c <=? 91)) || ((93 <=? c) && (c <=? 126)).
Definition scopePattern (s : string) : bool := match_class scope_char scope_char 127 s.
Definition reservedOIDCClaimNames : list string :=
  ["iss"; "sub"; "aud"; "exp"; "iat"; "nbf"; "nonce"; "azp"; "auth_time"; "acr"; "amr"; "email"; "email_verified"; "name";
   "preferred_username"; "at_hash"; "c_hash"; "sid"; "jti"; "_claim_names"; "_claim_sources"].
Definition allowedAlgorithms : list string := ["RS256"; "PS256"; "ES256"; "EdDSA"].

(** path/filepath: the last component. *)
Definition Base (path : string) : string :=
  if path == "" then "." else default "/" (last (filter (λ c, c ≠ "") (split_on "/"%char path))).

(** ** Bounded lists and selectors *)
Fixpoint canonical_values (maxLength : Z) (valid : string → bool) (seen : list string) (values : list string) : bool :=
  match values with
  | [] => true
  | value :: rest =>
      negb ((TrimSpace value != value) || (maxLength <? len value) || negb (valid value)) && negb (contains seen value)
      && canonical_values maxLength valid (value :: seen) rest
  end.
Definition canonicalStrings (values : list string) (minimum maximum maxLength : Z) (valid : string → bool) : result (list string) :=
  fail (ErrOther "wrong number of values") when (count values <? minimum) || (maximum <? count values);;
  fail (ErrOther "value is invalid or duplicated") when negb (canonical_values maxLength valid [] values);;
  Ok (sort_by str_le values).
(** In a sorted list. *)
Definition containsString (values : list string) (expected : string) : bool := contains values expected.

Definition normalizeAccessSelector (groupsClaim : string) (selector : AdminSelector.t) : result AdminSelector.t :=
  let kind := TrimSpace (AdminSelector.Kind selector) in
  let value := TrimSpace (AdminSelector.Value selector) in
  if kind == "subject" then
    fail (ErrOther "selector has an invalid subject") when negb (validBoundedText value 1 512);; Ok (AdminSelector.make kind value)
  else if kind == "verified_email" then
    fail (ErrOther "selector has an invalid canonical email") when negb (validCanonicalEmail value);; Ok (AdminSelector.make kind value)
  else if kind == "group" then
    fail (ErrOther "group selector requires groups_claim") when groupsClaim == "";;
    fail (ErrOther "selector has an invalid group") when negb (validBoundedText value 1 256);;
    Ok (AdminSelector.make kind value)
  else Err (ErrOther "selector has unsupported kind").
Definition selector_key (selector : AdminSelector.t) : string :=
  AdminSelector.Kind selector +:+ String "000"%char (AdminSelector.Value selector).
(** The selectors of the administrators; [keys] are those taken before. *)
Fixpoint normalize_admins (groupsClaim : string) (keys : list string) (l : list AdminSelector.t) : result (list AdminSelector.t * list string) :=
  match l with
  | [] => Ok ([], keys)
  | selector :: rest =>
      selector ← normalizeAccessSelector groupsClaim selector;
      fail (ErrOther "OIDC admin selector is duplicated") when contains keys (selector_key selector);;
      '(rest, keys) ← normalize_admins groupsClaim (selector_key selector :: keys) rest;
      Ok (selector :: rest, keys)
  end.
Definition role_known (role : string) : bool := contains [RoleViewer; RoleOperator; RoleAdmin] role.
Fixpoint normalize_bindings (groupsClaim : string) (keys : list string) (l : list RoleBinding.t) : result (list RoleBinding.t * list string) :=
  match l with
  | [] => Ok ([], keys)
  | binding :: rest =>
      fail (ErrOther "unsupported RBAC role") when negb (role_known (RoleBinding.Role binding));;
      selector ← normalizeAccessSelector groupsClaim (RoleBinding.Selector binding);
      fail (ErrOther "OIDC role binding duplicates another access selector") when contains keys (selector_key selector);;
      '(rest, keys) ← normalize_bindings groupsClaim (selector_key selector :: keys) rest;
      Ok (RoleBinding.make (RoleBinding.Role binding) selector :: rest, keys)
  end.
Definition selector_le (a b : AdminSelector.t) : bool :=
  if AdminSelector.Kind a == AdminSelector.Kind b then str_le (AdminSelector.Value a) (AdminSelector.Value b)
  else str_le (AdminSelector.Kind a) (AdminSelector.Kind b).
Definition binding_le (a b : RoleBinding.t) : bool :=
  if RoleBinding.Role a == RoleBinding.Role b then selector_le (RoleBinding.Selector a) (RoleBinding.Selector b)
  else str_le (RoleBinding.Role a) (RoleBinding.Role b).

(** ** The normal form of a configuration *)
Section config.
Context `{URLs, IdentityURLs}.

Definition validatePublicURL (raw : string) (allowInsecureLoopback : bool) : result unit :=
  fail (ErrOther "public_url must contain 1-2048 characters") when (raw == "") || (2048 <? len raw);;
  parsed ← of_option (url_Parse raw) (ErrOther "public_url must be an absolute URL");
  fail (ErrOther "public_url must be an absolute URL") when (URL.Scheme parsed == "") || (URL.Host parsed == "");;
  fail (ErrOther "public_url must be an origin without credentials, path, query, or fragment")
    when URL.User parsed || (URL.RawQuery parsed != "") || (URL.Fragment parsed != "") || (URL.Path parsed != "");;
  fail (ErrOther "public_url must use a canonical lowercase scheme and host")
    when (url_Hostname parsed == "") || (last (bytes_of (url_Hostname parsed)) == Some 46)
      || (URL.Host parsed != ToLower (URL.Host parsed)) || (URL.Scheme parsed != ToLower (URL.Scheme parsed));;
  _ ← validateCanonicalURLPort parsed;
  if URL.Scheme parsed == "https" then Ok tt else
  fail (ErrOther "public_url must use HTTPS except for explicitly allowed loopback development")
    when (URL.Scheme parsed != "http") || negb allowInsecureLoopback || negb (isLoopbackHost (url_Hostname parsed));;
  Ok tt.
Definition validateSessionConfig (c : SessionConfig.t) : result unit :=
  let idle := SessionConfig.IdleTTL c in
  let absolute := SessionConfig.AbsoluteTTL c in
  let login := SessionConfig.LoginAttemptTTL c in
  let touch := SessionConfig.TouchInterval c in
  fail (ErrOther "session idle_ttl must be between 5 minutes and 1 hour") when (idle <? 5 * minute) || (hour <? idle);;
  fail (ErrOther "session absolute_ttl must be between 15 minutes and 8 hours and not shorter than idle_ttl")
    when (absolute <? 15 * minute) || (8 * hour <? absolute) || (absolute <? idle);;
  fail (ErrOther "session login_attempt_ttl must be between 1 and 10 minutes") when (login <? minute) || (10 * minute <? login);;
  fail (ErrOther "session touch_interval must be between 30 seconds and 5 minutes and shorter than idle_ttl")
    when (touch <? 30 * second) || (5 * minute <? touch) || (idle <=? touch);;
  Ok tt.
Definition valid_secret_file (path : string) : bool :=
  negb ((path == "") || (4096 <? len path) || contains_char path "000"%char || negb (IsAbs path) || (Clean path != path)
        || (Base path == ".") || (Base path == "/")).
Definition valid_groups_claim (name : string) : result unit :=
  if name == "" then Ok tt else
  fail (ErrOther "OIDC groups_claim is invalid") when negb (claimNamePattern name);;
  fail (ErrOther "OIDC groups_claim collides with a reserved security claim") when contains reservedOIDCClaimNames name;;
  Ok tt.
Definition normalizeOIDC (allowInsecureLoopback : bool) (input : OIDCConfig.t) : result OIDCConfig.t :=
  let issuer := TrimSpace (OIDCConfig.Issuer input) in
  let clientID := TrimSpace (OIDCConfig.ClientID input) in
  let clientSecretFile := TrimSpace (OIDCConfig.ClientSecretFile input) in
  let groupsClaim := TrimSpace (OIDCConfig.GroupsClaim input) in
  _ ← validateIssuerURL issuer allowInsecureLoopback;
  fail (ErrOther "OIDC client_id must be 1-256 printable characters") when negb (validBoundedText clientID 1 256);;
  fail (ErrOther "OIDC client_secret_file must be a clean absolute path") when negb (valid_secret_file clientSecretFile);;
  _ ← valid_groups_claim groupsClaim;
  scopes ← canonicalStrings (OIDCConfig.Scopes input) 1 32 128 scopePattern;
  fail (ErrOther "OIDC scopes must include openid") when negb (containsString scopes "openid");;
  fail (ErrOther "OIDC offline_access is not permitted because Mesh does not retain refresh tokens") when containsString scopes "offline_access";;
  algorithms ← canonicalStrings (OIDCConfig.AllowedSigningAlgs input) 1 8 16 (contains allowedAlgorithms);
  let selectors := count (OIDCConfig.Admins input) + count (OIDCConfig.RoleBindings input) in
  fail (ErrOther "OIDC access policy must contain 1-256 admin selectors or role bindings") when (selectors <? 1) || (256 <? selectors);;
  '(admins, keys) ← normalize_admins groupsClaim [] (OIDCConfig.Admins input);
  '(bindings, _) ← normalize_bindings groupsClaim keys (OIDCConfig.RoleBindings input);
  acr ← canonicalStrings (OIDCConfig.RequiredACRAny input) 0 16 256 (λ value, validBoundedText value 1 256);
  amr ← canonicalStrings (OIDCConfig.RequiredAMRAll input) 0 16 64 (λ value, validBoundedText value 1 64);
  fail (ErrOther "OIDC production policy requires at least one ACR or AMR assurance rule") when (acr == []) && (amr == []);;
  let age := OIDCConfig.MaxAuthenticationAge input in
  fail (ErrOther "OIDC max_authentication_age must be a positive whole-second duration no longer than 24 hours")
    when (age <? second) || (24 * hour <? age) || negb (Z.rem age second =? 0);;
  Ok (OIDCConfig.make issuer clientID clientSecretFile scopes groupsClaim algorithms (sort_by selector_le admins)
        (sort_by binding_le bindings) acr amr age).

Definition or_default (value fallback : duration) : duration := if value =? 0 then fallback else value.
Definition session_defaults (c : SessionConfig.t) : SessionConfig.t :=
  SessionConfig.make (or_default (SessionConfig.IdleTTL c) defaultIdleTTL) (or_default (SessionConfig.AbsoluteTTL c) defaultAbsoluteTTL)
    (or_default (SessionConfig.LoginAttemptTTL c) defaultLoginAttemptTTL) (or_default (SessionConfig.TouchInterval c) defaultTouchInterval).
Definition check_mode (c : IdentityConfig.t) : result unit :=
  let mode := IdentityConfig.Mode c in
  let oidc := bool_decide (is_Some (IdentityConfig.OIDC c)) in
  let breakGlass := IdentityConfig.BreakGlass c in
  if mode == ModeLegacyToken then
    fail (ErrOther "legacy-token mode cannot contain OIDC configuration") when oidc;;
    fail (ErrOther "legacy-token mode requires legacy_bearer") when negb (IdentityConfig.LegacyBearer c);;
    fail (ErrOther "legacy-token mode cannot enable OIDC break-glass recovery")
      when BreakGlassConfig.Enabled breakGlass || negb (BreakGlassConfig.MinimumUsableCodes breakGlass =? 0);;
    Ok tt
  else if mode == ModeHybrid then
    fail (ErrOther "hybrid mode requires OIDC configuration and legacy_bearer") when negb oidc || negb (IdentityConfig.LegacyBearer c);; Ok tt
  else if mode == ModeOIDC then
    fail (ErrOther "oidc mode requires OIDC configuration and forbids legacy authentication")
      when negb oidc || IdentityConfig.LegacyBearer c || IdentityConfig.LegacyBrowserLogin c;;
    fail (ErrOther "oidc mode requires break-glass recovery") when negb (BreakGlassConfig.Enabled breakGlass);;
    Ok tt
  else Err (ErrOther "unsupported identity mode").
Definition check_break_glass (c : BreakGlassConfig.t) : result BreakGlassConfig.t :=
  if BreakGlassConfig.Enabled c then
    let minimum := if BreakGlassConfig.MinimumUsableCodes c =? 0 then MinBreakGlassUsableCodes else BreakGlassConfig.MinimumUsableCodes c in
    fail (ErrOther "break-glass minimum_usable_codes is out of range")
      when (minimum <? MinBreakGlassUsableCodes) || (MaxBreakGlassUsableCodes <? minimum);;
    Ok (BreakGlassConfig.make true minimum)
  else
    fail (ErrOther "break-glass minimum_usable_codes requires break-glass recovery to be enabled")
      when negb (BreakGlassConfig.MinimumUsableCodes c =? 0);;
    Ok c.
Definition Normalized (allowInsecureLoopback : bool) (c : IdentityConfig.t) : result IdentityConfig.t :=
  let publicURL := TrimSpace (IdentityConfig.PublicURL c) in
  let sessions := session_defaults (IdentityConfig.Sessions c) in
  _ ← validatePublicURL publicURL allowInsecureLoopback;
  _ ← validateSessionConfig sessions;
  _ ← check_mode c;
  breakGlass ← check_break_glass (IdentityConfig.BreakGlass c);
  oidc ← match IdentityConfig.OIDC c with
         | None => Ok None
         | Some oidc => oidc ← normalizeOIDC allowInsecureLoopback oidc; Ok (Some oidc)
         end;
  Ok (IdentityConfig.make (IdentityConfig.Mode c) publicURL oidc sessions (IdentityConfig.LegacyBrowserLogin c)
        (IdentityConfig.LegacyBearer c) breakGlass).
End config.

(** ** Roles *)
Definition PermissionNetworksRead : string := "networks.read".
Definition PermissionNetworksWrite : string := "networks.write".
Definition PermissionNetworksSecurity : string := "networks.security".
Definition PermissionIdentityManage : string := "identity.manage".
Definition PermissionAuditRead : string := "audit.read".
Definition rolePermissions (role : string) : option (list string) :=
  if role == RoleViewer then Some [PermissionNetworksRead; PermissionAuditRead]
  else if role == RoleOperator then Some [PermissionNetworksRead; PermissionNetworksWrite; PermissionAuditRead]
  else if role == RoleAdmin then
    Some [PermissionNetworksRead; PermissionNetworksWrite; PermissionNetworksSecurity; PermissionIdentityManage; PermissionAuditRead]
  else None.
Definition PermissionsForRole (role : string) : result (list string) := of_option (rolePermissions role) (ErrOther "unsupported RBAC role").
Definition RoleAllows (role permission : string) : bool :=
  match rolePermissions role with Some permissions => contains permissions permission | None => false end.
Definition roleRank (role : string) : Z :=
  if role == RoleViewer then 1 else if role == RoleOperator then 2 else if role == RoleAdmin then 3 else 0.
Definition selectorMatchesPrincipal (selector : AdminSelector.t) (p : Principal.t) : bool :=
  let kind := AdminSelector.Kind selector in
  let value := AdminSelector.Value selector in
  if kind == "subject" then Principal.Subject p == value
  else if kind == "verified_email" then Principal.Email p == value
  else if kind == "group" then contains (Principal.Groups p) value
  else false.
(** The strongest role of the bindings that match, from a role on. *)
Definition strongest (p : Principal.t) (role : string) (bindings : list RoleBinding.t) : string :=
  foldl (λ role binding, if selectorMatchesPrincipal (RoleBinding.Selector binding) p && (roleRank role <? roleRank (RoleBinding.Role binding))
                         then RoleBinding.Role binding else role) role bindings.

Section roles.
Context `{URLs, IdentityURLs}.
Definition RoleForPrincipal (p : Principal.t) (c : IdentityConfig.t) : result string :=
  _ ← Validate_principal p;
  let kind := Principal.Kind p in
  if (kind == PrincipalLegacyAdmin) || (kind == PrincipalService) || (kind == PrincipalBreakGlass) then Ok RoleAdmin
  else if kind == PrincipalOIDCAdmin then
    oidc ← of_option (IdentityConfig.OIDC c) ErrUnauthorized;
    if existsb (λ selector, selectorMatchesPrincipal selector p) (OIDCConfig.Admins oidc) then Ok RoleAdmin else
    let role := strongest p "" (OIDCConfig.RoleBindings oidc) in
    fail ErrUnauthorized when role == "";;
    Ok role
  else Err ErrUnauthorized.
End roles.

(** ** Break-glass credentials *)
Module BreakGlassCredential.
Record t := make { ID : string; Token : string }.
End BreakGlassCredential.
Definition BreakGlassCredentialPrefix : string := "mesh-bg-v1".
Definition ParseBreakGlassCredential (input : string) : result BreakGlassCredential.t :=
  match split_on "."%char input with
  | [prefix; id; token] =>
      fail (ErrOther "invalid break-glass credential")
        when (prefix != BreakGlassCredentialPrefix) || negb (HasPrefix id "bg_") || negb (ValidOpaqueToken (TrimPrefix id "bg_"))
          || negb (ValidOpaqueToken token);;
      Ok (BreakGlassCredential.make id token)
  | _ => Err (ErrOther "invalid break-glass credential")
  end.
Definition credential_String (c : BreakGlassCredential.t) : string :=
  if negb (HasPrefix (BreakGlassCredential.ID c) "bg_") || negb (ValidOpaqueToken (TrimPrefix (BreakGlassCredential.ID c) "bg_"))
     || negb (ValidOpaqueToken (BreakGlassCredential.Token c)) then ""
  else BreakGlassCredentialPrefix +:+ "." +:+ BreakGlassCredential.ID c +:+ "." +:+ BreakGlassCredential.Token c.
(** [idToken] and [secret] are what the random source returns. *)
Definition NewBreakGlassCredential (idToken secret : result string) : result (BreakGlassCredential.t * string) :=
  idToken ← idToken;
  secret ← secret;
  let credential := BreakGlassCredential.make ("bg_" +:+ idToken) secret in
  Ok (credential, credential_String credential).

(** ** The normal form is stable *)

(** [TrimSpace] leaves nothing to trim. *)
Lemma strip_prefix_spec p l r : strip_prefix p l = Some r ↔ l = p ++ r.
Proof.
  revert l. induction p as [|x p IH]; intros [|y l]; simpl; [naive_solver..|]. destruct (Z.eqb_spec x y) as [->|Hne].
  - rewrite IH. naive_solver.
  - naive_solver.
Qed.
Lemma strip_first_None ps l : strip_first ps l = None ↔ ∀ p, p ∈ ps → ∀ r, l ≠ p ++ r.
Proof.
  induction ps as [|p ps IH]; simpl; [set_solver|]. destruct (strip_prefix p l) as [r|] eqn:E.
  - split; [done|]. intros Hn. exfalso. apply (Hn p (list_elem_of_here _ _) r). by apply strip_prefix_spec.
  - rewrite IH. split; [|set_solver]. intros Hn q [->|Hq]%elem_of_cons r Er; [|by eapply Hn]. apply strip_prefix_spec in Er. congruence.
Qed.
Lemma strip_first_Some ps l r : strip_first ps l = Some r → ∃ p, p ∈ ps ∧ l = p ++ r.
Proof.
  induction ps as [|p ps IH]; simpl; [done|]. destruct (strip_prefix p l) as [q|] eqn:E; [|set_solver].
  intros [= ->]. exists p. split; [left|by apply strip_prefix_spec].
Qed.
Lemma trim_front_done n ps l : strip_first ps l = None → trim_front n ps l = l.
Proof. destruct n; simpl; [done|]. by intros ->. Qed.
Lemma trim_front_trims n ps l : [] ∉ ps → (length l ≤ n)%nat → strip_first ps (trim_front n ps l) = None.
Proof.
  intros Hp. revert l. induction n as [|n IH]; intros l Hl; simpl.
  - destruct l; [|simpl in Hl; lia]. apply strip_first_None. intros p Hin r E. destruct p; [done|discriminate].
  - destruct (strip_first ps l) as [r|] eqn:E; [|done]. apply IH. apply strip_first_Some in E as (p & Hin & ->).
    destruct p; [done|]. rewrite length_app in Hl. simpl in Hl. lia.
Qed.
Lemma trim_front_suffix n ps l : ∃ k, l = k ++ trim_front n ps l.
Proof.
  revert l. induction n as [|n IH]; intros l; simpl; [by exists []|]. destruct (strip_first ps l) as [r|] eqn:E; [|by exists []].
  apply strip_first_Some in E as (p & _ & ->). destruct (IH r) as [k Hk]. exists (p ++ k). by rewrite <- app_assoc, <- Hk.
Qed.
Lemma bytes_are_bytes s : Forall is_byte (bytes_of s).
Proof. induction s; constructor; auto using byte_of_range. Qed.
Lemma no_empty_space : ([] ∉ space_encodings) ∧ ([] ∉ reverse <$> space_encodings).
Proof. split; intros E; apply (bool_decide_eq_true_2 _) in E; vm_compute in E; discriminate. Qed.
Lemma TrimSpace_idemp s : TrimSpace (TrimSpace s) = TrimSpace s.
Proof.
  destruct no_empty_space as [H1 H2]. unfold TrimSpace at 2 3. cbv zeta.
  set (front := trim_front (length (bytes_of s)) space_encodings (bytes_of s)).
  set (back := trim_front (length front) (reverse <$> space_encodings) (reverse front)).
  assert (strip_first space_encodings front = None) as Hf by (by apply trim_front_trims).
  assert (strip_first (reverse <$> space_encodings) back = None) as Hb by (apply trim_front_trims; [done|by rewrite length_reverse]).
  destruct (trim_front_suffix (length (bytes_of s)) space_encodings (bytes_of s)) as [k1 E1]. fold front in E1.
  destruct (trim_front_suffix (length front) (reverse <$> space_encodings) (reverse front)) as [k2 E2]. fold back in E2.
  apply (f_equal reverse) in E2. rewrite reverse_involutive, reverse_app in E2.
  assert (bytes_of (string_of (reverse back)) = reverse back) as Eb.
  { apply bytes_of_string_of. pose proof (bytes_are_bytes s) as Hs. rewrite E1, E2 in Hs. by apply Forall_app in Hs as [_ [Hs _]%Forall_app]. }
  unfold TrimSpace. cbv zeta. rewrite Eb, (trim_front_done _ space_encodings).
  - rewrite reverse_involutive. by rewrite trim_front_done.
  - rewrite strip_first_None in Hf |- *. intros p Hp r E. apply (Hf p Hp (r ++ reverse k2)). by rewrite E2, E, app_assoc.
Qed.

(** The orders of the sorted lists. *)
Section lexicographic.
Context {A B : Type} `{EqDecision B} (key : A → B) (le1 : B → B → bool) (le2 : A → A → bool).
Context (total1 : ∀ a b, le1 a b = true ∨ le1 b a = true) (trans1 : ∀ a b c, le1 a b = true → le1 b c = true → le1 a c = true)
        (antisym1 : ∀ a b, le1 a b = true → le1 b a = true → a = b).
Context (total2 : ∀ a b, le2 a b = true ∨ le2 b a = true) (trans2 : ∀ a b c, le2 a b = true → le2 b c = true → le2 a c = true).
Definition lexicographic (a b : A) : bool := if key a == key b then le2 a b else le1 (key a) (key b).
Context (antisym2 : ∀ a b, key a = key b → le2 a b = true → le2 b a = true → a = b).
Lemma lexicographic_total a b : lexicographic a b = true ∨ lexicographic b a = true.
Proof. unfold lexicographic. repeat case_bool_decide; try congruence; auto. Qed.
Lemma lexicographic_antisym a b : lexicographic a b = true → lexicographic b a = true → a = b.
Proof. unfold lexicographic. repeat case_bool_decide; try congruence; auto. Qed.
Lemma lexicographic_trans a b c : lexicographic a b = true → lexicographic b c = true → lexicographic a c = true.
Proof.
  unfold lexicographic. destruct (decide (key a = key b)) as [E|N], (decide (key b = key c)) as [E'|N'].
  - rewrite !bool_decide_true by congruence. eauto.
  - rewrite (bool_decide_true (key a = key b)), !bool_decide_false by congruence. by rewrite E.
  - rewrite (bool_decide_true (key b = key c)), !bool_decide_false by congruence. by rewrite E'.
  - rewrite (bool_decide_false (key a = key b)), (bool_decide_false (key b = key c)) by done. intros L1 L2. case_bool_decide as Ec; [|eauto].
    destruct N. apply antisym1; [done|]. by rewrite Ec.
Qed.
End lexicographic.
Lemma selector_le_total a b : selector_le a b = true ∨ selector_le b a = true.
Proof. apply (lexicographic_total AdminSelector.Kind str_le); auto using str_le_total. Qed.
Lemma selector_le_trans a b c : selector_le a b = true → selector_le b c = true → selector_le a c = true.
Proof. apply (lexicographic_trans AdminSelector.Kind str_le); eauto using str_le_trans, str_le_antisym. Qed.
Lemma selector_le_antisym a b : selector_le a b = true → selector_le b a = true → a = b.
Proof.
  apply (lexicographic_antisym AdminSelector.Kind str_le); auto using str_le_antisym. destruct a as [ka va], b as [kb vb]; simpl.
  intros [k1 v1] [k2 v2]. simpl. intros -> L1 L2. f_equal. by apply str_le_antisym.
Qed.
Lemma binding_le_total a b : binding_le a b = true ∨ binding_le b a = true.
Proof. apply (lexicographic_total RoleBinding.Role str_le); auto using str_le_total, selector_le_total. Qed.
Lemma binding_le_trans a b c : binding_le a b = true → binding_le b c = true → binding_le a c = true.
Proof. apply (lexicographic_trans RoleBinding.Role str_le); eauto using str_le_trans, str_le_antisym, selector_le_trans. Qed.
Lemma binding_le_antisym a b : binding_le a b = true → binding_le b a = true → a = b.
Proof.
  apply (lexicographic_antisym RoleBinding.Role str_le); auto using str_le_antisym.
  intros [r1 s1] [r2 s2]. simpl. intros -> L1 L2. f_equal. by apply selector_le_antisym.
Qed.
Lemma sort_strings_idemp l : sort_by str_le (sort_by str_le l) = sort_by str_le l.
Proof.
  apply sort_by_id; eauto using str_le_total, str_le_trans, str_le_antisym. apply sort_by_sorted; eauto using str_le_total, str_le_trans.
Qed.
Lemma sort_selectors_idemp l : sort_by selector_le (sort_by selector_le l) = sort_by selector_le l.
Proof.
  apply sort_by_id; eauto using selector_le_total, selector_le_trans, selector_le_antisym.
  apply sort_by_sorted; eauto using selector_le_total, selector_le_trans.
Qed.
Lemma sort_bindings_idemp l : sort_by binding_le (sort_by binding_le l) = sort_by binding_le l.
Proof.
  apply sort_by_id; eauto using binding_le_total, binding_le_trans, binding_le_antisym.
  apply sort_by_sorted; eauto using binding_le_total, binding_le_trans.
Qed.

(** The checked lists. *)
Lemma canonical_values_spec maxLength valid seen l : canonical_values maxLength valid seen l = true ↔
  NoDup l ∧ ∀ v, v ∈ l → (v ∉ seen) ∧ TrimSpace v = v ∧ len v <= maxLength ∧ valid v = true.
Proof.
  revert seen. induction l as [|v l IH]; intros seen; simpl; [split; [split; [constructor|set_solver]|done]|].
  rewrite !andb_true_iff, IH, !negb_true_iff, !negb_orb_false, !negb_false_iff, contains_false, Z.ltb_ge, bool_decide_eq_true, NoDup_cons.
  split.
  - intros [[[[Ht Hl] Hv] Hs] [Hn Ha]]. split; [split; [|done]|].
    + intros Hin. destruct (Ha v Hin) as [Hns _]. set_solver.
    + intros w [->|Hw]%elem_of_cons; [done|]. destruct (Ha w Hw) as (? & ? & ? & ?). set_solver.
  - intros [[Hv Hn] Ha]. destruct (Ha v (list_elem_of_here _ _)) as (? & ? & ? & ?). split; [tauto|]. split; [done|].
    intros w Hw. destruct (Ha w) as (? & ? & ? & ?); [by right|]. split_and!; [|done..]. intros [->|?]%elem_of_cons; [done|done].
Qed.
Lemma canonicalStrings_stable values minimum maximum maxLength valid out :
  canonicalStrings values minimum maximum maxLength valid = Ok out → canonicalStrings out minimum maximum maxLength valid = Ok out.
Proof.
  unfold canonicalStrings. open_guards. intros (Hc & Hv & [= <-]). unfold count in *.
  rewrite sort_by_length, sort_strings_idemp. split_and!; [done| |done]. apply negb_false_iff in Hv. apply negb_false_iff.
  rewrite canonical_values_spec in Hv |- *. destruct Hv as [Hn Ha]. split; [by rewrite sort_by_perm|].
  intros v Hin. apply Ha. by rewrite sort_by_perm in Hin.
Qed.

Lemma normalizeAccessSelector_stable groups x y : normalizeAccessSelector groups x = Ok y → normalizeAccessSelector groups y = Ok y.
Proof.
  unfold normalizeAccessSelector. cbv zeta.
  pose proof (TrimSpace_idemp (AdminSelector.Kind x)) as Hk. pose proof (TrimSpace_idemp (AdminSelector.Value x)) as Hv.
  revert Hk Hv. generalize (TrimSpace (AdminSelector.Kind x)) (TrimSpace (AdminSelector.Value x)). intros kind value Hk Hv Hy.
  assert (y = AdminSelector.make kind value) as ->; [|simpl; by rewrite Hk, Hv].
  repeat case_match; [..|done]; revert Hy; open_guards; naive_solver.
Qed.
Lemma normalize_admins_spec groups keys l l' keys' : normalize_admins groups keys l = Ok (l', keys') ↔
  Forall2 (λ x y, normalizeAccessSelector groups x = Ok y) l l' ∧ NoDup (selector_key <$> l') ∧
  (∀ y, y ∈ l' → selector_key y ∉ keys) ∧ keys' = reverse (selector_key <$> l') ++ keys.
Proof.
  revert keys l' keys'. induction l as [|x l IH]; intros keys l' keys'; simpl.
  - split; [intros [= <- <-]; split_and!; [constructor|constructor|set_solver|done]|].
    intros (Hf & _ & _ & ->). by inversion Hf.
  - open_guards. split.
    + intros (y & Hy & Hk & [l2 k2] & Hl & [= <- <-]). apply contains_false in Hk. apply IH in Hl as (Hf & Hn & Ha & ->). split_and!.
      * by constructor.
      * constructor; [|done]. intros (z & E & Hz)%list_elem_of_fmap. apply (Ha z Hz). rewrite <- E. left.
      * intros z [->|Hz]%elem_of_cons; [done|]. specialize (Ha z Hz). set_solver.
      * by rewrite fmap_cons, reverse_cons, <- app_assoc.
    + intros (Hf & Hn & Ha & ->). inversion Hf as [|? y ? l2 Hy Hl]; subst. csimpl in Hn. apply NoDup_cons in Hn as [Hk Hn].
      exists y. split_and!; [done|apply contains_false, Ha; left|]. exists (l2, reverse (selector_key <$> l2) ++ selector_key y :: keys).
      split; [|by rewrite fmap_cons, reverse_cons, <- app_assoc]. apply IH. split_and!; [done..| |done].
      intros z Hz [E|Hin]%elem_of_cons; [|by apply (Ha z); [right|]]. apply Hk. rewrite <- E. by apply list_elem_of_fmap_2.
Qed.
Definition binding_normal (groups : string) (x y : RoleBinding.t) : Prop :=
  role_known (RoleBinding.Role x) = true ∧ normalizeAccessSelector groups (RoleBinding.Selector x) = Ok (RoleBinding.Selector y)
  ∧ RoleBinding.Role y = RoleBinding.Role x.
Definition binding_key (b : RoleBinding.t) : string := selector_key (RoleBinding.Selector b).
Lemma normalize_bindings_spec groups keys l l' keys' : normalize_bindings groups keys l = Ok (l', keys') ↔
  Forall2 (binding_normal groups) l l' ∧ NoDup (binding_key <$> l') ∧
  (∀ y, y ∈ l' → binding_key y ∉ keys) ∧ keys' = reverse (binding_key <$> l') ++ keys.
Proof.
  revert keys l' keys'. induction l as [|x l IH]; intros keys l' keys'; simpl.
  - split; [intros [= <- <-]; split_and!; [constructor|constructor|set_solver|done]|].
    intros (Hf & _ & _ & ->). by inversion Hf.
  - open_guards. split.
    + intros (Hr & y & Hy & Hk & [l2 k2] & Hl & [= <- <-]). apply negb_false_iff in Hr.
      apply contains_false in Hk. apply IH in Hl as (Hf & Hn & Ha & ->). split_and!.
      * constructor; [|done]. by split_and!.
      * constructor; [|done]. intros (z & E & Hz)%list_elem_of_fmap. apply (Ha z Hz). rewrite <- E. left.
      * intros z [->|Hz]%elem_of_cons; [done|]. specialize (Ha z Hz). set_solver.
      * by rewrite fmap_cons, reverse_cons, <- app_assoc.
    + intros (Hf & Hn & Ha & ->). inversion Hf as [|? y ? l2 (Hr & Hy & Hrole) Hl]; subst. csimpl in Hn. apply NoDup_cons in Hn as [Hk Hn].
      rewrite Hr. split; [done|]. exists (RoleBinding.Selector y). split_and!; [done|apply contains_false; apply (Ha y); left|].
      exists (l2, reverse (binding_key <$> l2) ++ binding_key y :: keys).
      split; [|rewrite fmap_cons, reverse_cons, <- app_assoc; simpl; destruct y; simpl in *; by subst]. apply IH. split_and!; [done..| |done].
      intros z Hz [E|Hin]%elem_of_cons; [|by apply (Ha z); [right|]]. apply Hk. change (binding_key z = binding_key y) in E. rewrite <- E. by apply list_elem_of_fmap_2.
Qed.
Lemma Forall2_stable {A} (R : A → A → Prop) l l' : (∀ x y, R x y → R y y) → Forall2 R l l' → ∀ k, k ≡ₚ l' → Forall2 R k k.
Proof.
  intros Hs Hf k Hk. apply Forall_Forall2_diag, Forall_forall. intros y Hy. rewrite Hk in Hy. apply list_elem_of_lookup in Hy as [i Hi].
  destruct (Forall2_lookup_r _ _ _ _ _ Hf Hi) as (x & _ & Hr). eauto.
Qed.
Lemma selectors_stable groups admins bindings admins' keys bindings' keys' :
  normalize_admins groups [] admins = Ok (admins', keys) → normalize_bindings groups keys bindings = Ok (bindings', keys') →
  ∃ keys1 keys2, normalize_admins groups [] (sort_by selector_le admins') = Ok (sort_by selector_le admins', keys1) ∧
    normalize_bindings groups keys1 (sort_by binding_le bindings') = Ok (sort_by binding_le bindings', keys2).
Proof.
  intros (Hf & Hn & _ & ->)%normalize_admins_spec (Gf & Gn & Ga & _)%normalize_bindings_spec. do 2 eexists. split.
  - apply normalize_admins_spec. split_and!; [|by rewrite sort_by_perm|set_solver|done].
    eapply Forall2_stable; [|exact Hf|apply sort_by_perm]. intros x y. apply normalizeAccessSelector_stable.
  - apply normalize_bindings_spec. split_and!; [|by rewrite sort_by_perm| |done].
    + eapply Forall2_stable; [|exact Gf|apply sort_by_perm]. intros x y (Hr & Hy & E). split_and!; [congruence| |done].
      by eapply normalizeAccessSelector_stable.
    + intros y Hy. rewrite sort_by_perm in Hy. specialize (Ga y Hy). rewrite app_nil_r, elem_of_reverse in Ga |- *. by rewrite sort_by_perm.
Qed.

Section stable.
Context `{URLs, IdentityURLs}.

Lemma normalizeOIDC_stable loopback c out : normalizeOIDC loopback c = Ok out → normalizeOIDC loopback out = Ok out.
Proof.
  unfold normalizeOIDC. cbv zeta. open_guards.
  intros ([] & Hi & Hc & Hs & [] & Hg & scopes & Hsc & Ho & Hoff & algorithms & Hal & Hn & [admins keys] & Ha & Hb).
  revert Hb. open_guards. intros ([bindings keys'] & Hb & Hd). revert Hd. open_guards.
  intros (acr & Hacr & amr & Hamr & Hr & Hage & [= <-]).
  cbn [OIDCConfig.Issuer OIDCConfig.ClientID OIDCConfig.ClientSecretFile OIDCConfig.Scopes OIDCConfig.GroupsClaim OIDCConfig.AllowedSigningAlgs
       OIDCConfig.Admins OIDCConfig.RoleBindings OIDCConfig.RequiredACRAny OIDCConfig.RequiredAMRAll OIDCConfig.MaxAuthenticationAge].
  rewrite !TrimSpace_idemp.
  destruct (selectors_stable _ _ _ _ _ _ _ Ha Hb) as (k1 & k2 & Ha' & Hb').
  assert (count (sort_by selector_le admins) = count (OIDCConfig.Admins c)) as Eca.
  { unfold count. apply normalize_admins_spec in Ha as [Ha%Forall2_length _]. by rewrite sort_by_length, Ha. }
  assert (count (sort_by binding_le bindings) = count (OIDCConfig.RoleBindings c)) as Ecb.
  { unfold count. apply normalize_bindings_spec in Hb as [Hb%Forall2_length _]. by rewrite sort_by_length, Hb. }
  exists tt. split_and!; [done..|]. exists tt. split; [done|]. exists scopes. split_and!; [by eapply canonicalStrings_stable|done..|].
  exists algorithms. rewrite Eca, Ecb. split_and!; [by eapply canonicalStrings_stable|done|].
  eexists. split; [exact Ha'|]. simpl. open_guards. eexists. split; [exact Hb'|]. simpl. open_guards.
  exists acr. split; [by eapply canonicalStrings_stable|]. exists amr. split_and!; [by eapply canonicalStrings_stable|done..|].
  by rewrite sort_selectors_idemp, sort_bindings_idemp.
Qed.
Lemma or_default_stable value fallback : fallback ≠ 0 → or_default (or_default value fallback) fallback = or_default value fallback.
Proof. intros Hf. unfold or_default. destruct (Z.eqb_spec value 0) as [E|E]; [by destruct (Z.eqb_spec fallback 0)|]. by destruct (Z.eqb_spec value 0). Qed.
Lemma session_defaults_stable c : session_defaults (session_defaults c) = session_defaults c.
Proof. unfold session_defaults. simpl. by rewrite !or_default_stable. Qed.
Lemma check_break_glass_stable c out : check_break_glass c = Ok out → check_break_glass out = Ok out.
Proof.
  unfold check_break_glass. destruct (BreakGlassConfig.Enabled c) eqn:E; open_guards.
  - intros [Hm [= <-]]. simpl. open_guards. destruct (Z.eqb_spec (BreakGlassConfig.MinimumUsableCodes c) 0) as [E0|E0]; [done|].
    by rewrite (proj2 (Z.eqb_neq _ _) E0).
  - intros [Hm [= <-]]. rewrite E. open_guards. done.
Qed.

(** C29: a configuration is normalized once: what the check of a configuration
    returns, with its defaults filled in, its texts trimmed, its selectors and its
    lists checked and sorted, passes the same check and is returned unchanged. *)
Theorem Normalized_stable loopback c out : Normalized loopback c = Ok out → Normalized loopback out = Ok out.
Proof.
  unfold Normalized. cbv zeta. open_guards. intros ([] & Hp & [] & Hs & [] & Hm & breakGlass & Hb & oidc & Ho & [= <-]). simpl.
  rewrite TrimSpace_idemp, session_defaults_stable.
  exists tt. split; [done|]. exists tt. split; [done|]. exists tt. split; [|exists breakGlass; split; [by eapply check_break_glass_stable|]].
  - revert Hm. unfold check_mode. simpl. assert (bool_decide (is_Some oidc) = bool_decide (is_Some (IdentityConfig.OIDC c))) as ->.
    { apply bool_decide_ext. destruct (IdentityConfig.OIDC c); [|naive_solver]. revert Ho. open_guards. intros (o & _ & [= <-]). naive_solver. }
    unfold check_break_glass in Hb. destruct (BreakGlassConfig.Enabled (IdentityConfig.BreakGlass c)) eqn:E; revert Hb; open_guards.
    + intros [_ [= <-]]. simpl. repeat case_match; open_guards; naive_solver.
    + intros [_ [= <-]]. by rewrite E.
  - exists oidc. split; [|done]. destruct (IdentityConfig.OIDC c) as [o|]; [|naive_solver].
    revert Ho. open_guards. intros (o' & Ho & [= <-]). by rewrite (normalizeOIDC_stable _ _ _ Ho).
Qed.
End stable.

(** ** The role is the strongest one granted *)
Lemma roleRank_inj a b : 0 < roleRank a → roleRank a = roleRank b → a = b.
Proof. unfold roleRank. repeat case_bool_decide; subst; try done; lia. Qed.
Lemma RoleAllows_mono a b permission : roleRank a <= roleRank b → RoleAllows a permission = true → RoleAllows b permission = true.
Proof.
  unfold roleRank, RoleAllows, rolePermissions. repeat case_bool_decide; subst; try done; try lia;
    rewrite !contains_true, !elem_of_cons; tauto.
Qed.
Lemma strongest_spec p role bindings : let r := strongest p role bindings in
  (r = role ∨ ∃ b, b ∈ bindings ∧ selectorMatchesPrincipal (RoleBinding.Selector b) p = true ∧ RoleBinding.Role b = r ∧ roleRank role < roleRank r)
  ∧ roleRank role <= roleRank r
  ∧ ∀ b, b ∈ bindings → selectorMatchesPrincipal (RoleBinding.Selector b) p = true → roleRank (RoleBinding.Role b) <= roleRank r.
Proof.
  revert role. induction bindings as [|b l IH]; intros role; [split_and!; [by left|simpl; lia|set_solver]|].
  set (role' := if selectorMatchesPrincipal (RoleBinding.Selector b) p && (roleRank role <? roleRank (RoleBinding.Role b))
                then RoleBinding.Role b else role).
  change (strongest p role (b :: l)) with (strongest p role' l). destruct (IH role') as (Hr & Hle & Ha). cbv zeta in *.
  assert (roleRank role <= roleRank role' ∧
          (selectorMatchesPrincipal (RoleBinding.Selector b) p = true → roleRank (RoleBinding.Role b) <= roleRank role')) as [H1 H2].
  { unfold role'. destruct (selectorMatchesPrincipal (RoleBinding.Selector b) p); simpl; [|split; [lia|done]].
    destruct (Z.ltb_spec (roleRank role) (roleRank (RoleBinding.Role b))); lia. }
  split_and!; [|lia|].
  - destruct Hr as [->|(d & Hd & Hm & Hrole & Hlt)]; [|right; exists d; split_and!; [by right|done..|lia]]. unfold role'.
    destruct (selectorMatchesPrincipal (RoleBinding.Selector b) p) eqn:Em; simpl; [|by left].
    destruct (Z.ltb_spec (roleRank role) (roleRank (RoleBinding.Role b))); [|by left]. right. exists b. split_and!; [left|done..].
  - intros d [->|Hd]%elem_of_cons Hm; [specialize (H2 Hm); lia|auto].
Qed.

(** What the access policy grants the principal. *)
Definition grants_role (o : OIDCConfig.t) (p : Principal.t) (role : string) : Prop :=
  (role = RoleAdmin ∧ ∃ selector, selector ∈ OIDCConfig.Admins o ∧ selectorMatchesPrincipal selector p = true) ∨
  (0 < roleRank role ∧ ∃ b, b ∈ OIDCConfig.RoleBindings o ∧ selectorMatchesPrincipal (RoleBinding.Selector b) p = true ∧ RoleBinding.Role b = role).
Lemma grants_role_positive o p role : grants_role o p role → 0 < roleRank role.
Proof. intros [[-> _]|[? _]]; done. Qed.
Lemma roleRank_admin role : roleRank role <= roleRank RoleAdmin.
Proof. unfold roleRank. repeat case_bool_decide; try done; lia. Qed.

Section access.
Context `{URLs, IdentityURLs}.
Lemma RoleForPrincipal_oidc p c : Principal.Kind p = PrincipalOIDCAdmin → RoleForPrincipal p c =
  (_ ← Validate_principal p;
   oidc ← of_option (IdentityConfig.OIDC c) ErrUnauthorized;
   if existsb (λ selector, selectorMatchesPrincipal selector p) (OIDCConfig.Admins oidc) then Ok RoleAdmin else
   fail ErrUnauthorized when strongest p "" (OIDCConfig.RoleBindings oidc) == "";;
   Ok (strongest p "" (OIDCConfig.RoleBindings oidc))).
Proof. intros Hk. unfold RoleForPrincipal. by rewrite Hk. Qed.
Lemma RoleForPrincipal_spec p c r : Principal.Kind p = PrincipalOIDCAdmin → RoleForPrincipal p c = Ok r →
  Validate_principal p = Ok tt ∧ ∃ o, IdentityConfig.OIDC c = Some o ∧ grants_role o p r ∧ ∀ r', grants_role o p r' → roleRank r' <= roleRank r.
Proof.
  intros Hk. rewrite RoleForPrincipal_oidc by done. open_guards. intros ([] & Hv & o & Ho & Hr). split; [done|]. exists o. split; [done|].
  case_match eqn:E.
  - injection Hr as <-. apply existsb_exists in E as (x & Hx%list_elem_of_In & Hm). split; [left; eauto|]. intros. apply roleRank_admin.
  - revert Hr. open_guards. intros [He [= <-]]. apply bool_decide_eq_false in He.
    destruct (strongest_spec p "" (OIDCConfig.RoleBindings o)) as (Hr & _ & Ha). split.
    + right. destruct Hr as [?|(b & Hb & Hm & Hrole & Hlt)]; [done|]. change (roleRank "") with 0 in Hlt. eauto 6.
    + intros r' [[-> (x & Hx & Hm)]|(_ & b & Hb & Hm & <-)]; [|auto]. exfalso.
      assert (existsb (λ selector, selectorMatchesPrincipal selector p) (OIDCConfig.Admins o) = true); [|congruence].
      apply existsb_exists. exists x. by rewrite <- list_elem_of_In.
Qed.
Lemma RoleForPrincipal_granted p c o r : Principal.Kind p = PrincipalOIDCAdmin → Validate_principal p = Ok tt → IdentityConfig.OIDC c = Some o →
  grants_role o p r → is_ok (RoleForPrincipal p c) = true.
Proof.
  intros Hk Hv Ho Hg. rewrite RoleForPrincipal_oidc, Hv, Ho by done. simpl. case_match eqn:E; [done|].
  destruct (strongest_spec p "" (OIDCConfig.RoleBindings o)) as (Hr & _ & Ha).
  destruct Hg as [[-> (x & Hx & Hm)]|(Hp & b & Hb & Hm & Hrole)].
  - exfalso. assert (existsb (λ selector, selectorMatchesPrincipal selector p) (OIDCConfig.Admins o) = true); [|congruence].
    apply existsb_exists. exists x. by rewrite <- list_elem_of_In.
  - rewrite bool_decide_eq_false_2; [done|]. intros Ee. specialize (Ha b Hb Hm). rewrite Ee, Hrole in Ha. change (roleRank "") with 0 in Ha. lia.
Qed.

(** C25: the role of a person who signed in is the strongest that the access policy
    grants: it is one of the granted roles, no granted role outranks it, nor allows
    anything that it does not, and no other role is returned, in whatever order the
    selectors and the bindings are listed; without a grant there is no role. *)
Theorem role_is_strongest p c r : Principal.Kind p = PrincipalOIDCAdmin →
  (RoleForPrincipal p c = Ok r ↔
   Validate_principal p = Ok tt ∧ ∃ o, IdentityConfig.OIDC c = Some o ∧ grants_role o p r
   ∧ (∀ r', grants_role o p r' → roleRank r' <= roleRank r)
   ∧ ∀ r' permission, grants_role o p r' → RoleAllows r' permission = true → RoleAllows r permission = true).
Proof.
  intros Hk. split.
  - intros (Hv & o & Ho & Hg & Hm)%RoleForPrincipal_spec; [|done]. split; [done|]. exists o. split_and!; [done..|].
    intros r' permission Hr'. by apply RoleAllows_mono, Hm.
  - intros (Hv & o & Ho & Hg & Hm & _). pose proof (RoleForPrincipal_granted _ _ _ _ Hk Hv Ho Hg) as Hok.
    destruct (RoleForPrincipal p c) as [r0|] eqn:E; [|done]. f_equal. apply RoleForPrincipal_spec in E as (_ & o' & Ho' & Hg0 & Hm0); [|done].
    simplify_eq. apply roleRank_inj; [by eapply grants_role_positive|]. specialize (Hm _ Hg0). specialize (Hm0 _ Hg). lia.
Qed.
End access.

(** ** Break-glass credentials read back *)
Lemma b64_digits_no_dot l digits : b64_digits l = Some digits → 46 ∉ l.
Proof.
  revert digits. induction l as [|c l IH]; intros digits; [set_solver|]. cbn [b64_digits].
  intros Hd [<-|Hin]%elem_of_cons; [done|]. revert Hd. case_match; [by intros ?%IH|].
  destruct (b64_digit c); [|done]. simpl. destruct (b64_digits l) eqn:E; [|done]. intros _. by eapply IH.
Qed.
Lemma contains_char_false s c : byte_of c ∉ bytes_of s → contains_char s c = false.
Proof.
  induction s as [|d s IH]; simpl; [done|]. intros Hn. rewrite not_elem_of_cons in Hn. destruct Hn as [Hne Hn].
  rewrite (IH Hn), bool_decide_eq_false_2; [done|]. by intros ->.
Qed.
Lemma token_no_dot token : ValidOpaqueToken token = true → contains_char token "."%char = false.
Proof.
  unfold ValidOpaqueToken, canonical32, b64_decode. destruct (b64_digits (bytes_of token)) eqn:E; [|done]. intros _.
  apply contains_char_false. by eapply b64_digits_no_dot.
Qed.
Lemma HasPrefix_TrimPrefix s p : HasPrefix s p = true → s = p +:+ TrimPrefix s p.
Proof.
  unfold HasPrefix, TrimPrefix. rewrite bool_decide_eq_true. intros [r E]. rewrite E. apply strip_prefix_spec in E as Es.
  apply bytes_of_inj. rewrite bytes_of_app, bytes_of_string_of; [done|].
  pose proof (bytes_are_bytes s) as Hs. rewrite Es in Hs. by apply Forall_app in Hs as [_ ?].
Qed.

(** The text of a break-glass credential is read back as the credential it was
    written from, and a text that is read is the text of what was read: parsing and
    printing are inverse to each other, and everything else is refused. *)
Theorem break_glass_credential_round_trip text c :
  ParseBreakGlassCredential text = Ok c ↔ text ≠ "" ∧ credential_String c = text.
Proof.
  unfold ParseBreakGlassCredential, credential_String. split.
  - pose proof (join_split_on "."%char text) as Ej. destruct (split_on "."%char text) as [|prefix [|id [|token [|]]]]; try done. open_guards.
    intros [Hb [= <-]]. apply negb_orb_false in Hb as [Hb Ht]. apply negb_orb_false in Hb as [Hb Hi]. apply negb_orb_false in Hb as [Hp Hpre].
    cbn [BreakGlassCredential.ID BreakGlassCredential.Token]. rewrite Ht, Hi, Hpre. split_bools. subst prefix. simpl. simpl in Ej. subst text. done.
  - intros [Hne He]. case_match eqn:E; [by subst|]. apply negb_orb_false in E as [E Ht]. apply negb_orb_false in E as [Hpre Hi].
    destruct c as [id token]. cbn [BreakGlassCredential.ID BreakGlassCredential.Token] in *.
    assert (contains_char id "."%char = false) as Hid.
    { apply negb_false_iff in Hpre, Hi. rewrite (HasPrefix_TrimPrefix _ _ Hpre), contains_char_app. by rewrite (token_no_dot _ Hi). }
    rewrite <- He, (split_on_app "."%char BreakGlassCredentialPrefix) by done. rewrite (split_on_app "."%char id) by done.
    rewrite split_on_word by (apply token_no_dot; by apply negb_false_iff in Ht). rewrite Hpre, Hi, Ht. done.
Qed.
