(* ===== verification/IdentityFlow.v ===== *)
(** * Signing in with an OIDC provider (internal/identity: oidc_flow.go and the JSON
    reader of filestore.go)

    A login starts with an attempt in the identity store and ends by consuming it,
    exchanging the code and checking the claims of the ID token.  What the provider
    and its client library answer is a parameter: the exchange of a code, the
    verification of a token's signature, and the parsing of JSON text into values.
    The HTTP client, the discovery of the provider and the bound on concurrent
    completions are left out. *)
From stdpp Require Import gmap.
From S2P Require Import Prelude GoStd Sha256 GoTime IPv4 NetIP AuditLog AgentState Identity IdentitySafety IdentityPolicy.
From Stdlib Require Import Ascii.
Open Scope Z_scope.

(** ** JSON values

    A member of an object carries its text as it was written. *)
Inductive json :=
  | JNull
  | JBool (b : bool)
  | JInt (z : Z)
  | JNumber
  | JString (s : string)
  | JArray (l : list json)
  | JObject (members : list (string * (string * json))).
Abbreviation RawMessage := (string * json)%type (only parsing).
Abbreviation object := (gmap string (string * json)) (only parsing).

(** json.Unmarshal into a string, a slice of strings and an int64. *)
Definition unmarshal_string (v : json) : option string :=
  match v with JString s => Some s | JNull => Some "" | _ => None end.
Definition unmarshal_strings (v : json) : option (option (list string)) :=
  match v with
  | JNull => Some None
  | JArray l => Some <$> mapM unmarshal_string l
  | _ => None
  end.
Definition unmarshal_int64 (v : json) : option Z :=
  match v with JInt z => if (int64_min <=? z) && (z <=? int64_max) then Some z else None | JNull => Some 0 | _ => None end.

Fixpoint distinct (l : list string) : bool :=
  match l with [] => true | x :: rest => negb (contains rest x) && distinct rest end.
(** No object of the value repeats a name, and the nesting is bounded. *)
Fixpoint rejectDuplicateJSONNames (depth : Z) (v : json) : bool :=
  negb (64 <? depth) &&
  match v with
  | JObject members => distinct (fst <$> members) && forallb (λ '(_, (_, v)), rejectDuplicateJSONNames (depth + 1) v) members
  | JArray l => forallb (rejectDuplicateJSONNames (depth + 1)) l
  | _ => true
  end.

(** ** What the provider and the JSON parser answer *)
Module IDToken.
Record t := make {
  Issuer : string; Subject : string; Audience : list string; Expiry : time; IssuedAt : time; Nonce : string; AccessTokenHash : string;
  Claims : option string }.
End IDToken.
Class Provider := {
  available : bool;
  AuthCodeURL : string → string → string → string → option string → string;
  Exchange : string → string → option (string * option string);
  Verify : string → option IDToken.t;
  VerifyAccessToken : IDToken.t → string → bool }.
Class JSONParser := { parse_json : string → option json }.

(** ** Claims *)
Definition claim_error : err := ErrOther "claim is invalid".
Section claims.
Context `{JSONParser}.
Definition decodeJSONObject (raw : string) (maximum : Z) : result object :=
  fail (ErrOther "JSON object is empty, oversized, or invalid UTF-8") when (len raw <? 2) || (maximum <? len raw) || negb (ValidString raw);;
  v ← of_option (parse_json raw) (ErrOther "JSON value is not an object");
  fail (ErrOther "duplicate JSON object name") when negb (rejectDuplicateJSONNames 0 v);;
  match v with
  | JObject members => Ok (list_to_map members)
  | _ => Err (ErrOther "JSON value is not an object")
  end.
End claims.
Definition optionalJSONString (o : object) (name : string) (maximum : Z) : result (option string) :=
  match o !! name with
  | None => Ok None
  | Some (raw, v) =>
      fail claim_error when maximum * 6 + 2 <? len raw;;
      value ← of_option (unmarshal_string v) claim_error;
      fail claim_error when negb (validBoundedText value 1 maximum);;
      Ok (Some value)
  end.
Definition requiredJSONString (o : object) (name : string) (maximum : Z) : result string :=
  value ← optionalJSONString o name maximum;
  value ← of_option value claim_error;
  fail claim_error when value == "";;
  Ok value.
Definition optionalJSONBool (o : object) (name : string) : result (option bool) :=
  match o !! name with
  | None => Ok None
  | Some (raw, _) => if raw == "true" then Ok (Some true) else if raw == "false" then Ok (Some false) else Err claim_error
  end.
Definition valid_values (maximumLength : Z) (values : list string) : bool :=
  forallb (λ value, validBoundedText value 1 maximumLength) values && distinct values.
(** The values, sorted; none when the claim is absent. *)
Definition optionalJSONStringArray (o : object) (name : string) (maximumCount maximumLength : Z) : result (option (list string)) :=
  match o !! name with
  | None => Ok None
  | Some (raw, v) =>
      fail claim_error when maximumCount * (maximumLength * 6 + 3) + 2 <? len raw;;
      values ← of_option (unmarshal_strings v) claim_error;
      values ← of_option values claim_error;
      fail claim_error when maximumCount <? count values;;
      fail claim_error when negb (valid_values maximumLength values);;
      Ok (Some (sort_by str_le values))
  end.
Definition oidcAudienceClaim (claim : option RawMessage) : result (list string) :=
  '(raw, v) ← of_option claim claim_error;
  fail claim_error when raw == "";;
  match unmarshal_string v with
  | Some single => fail claim_error when negb (validBoundedText single 1 256);; Ok [single]
  | None =>
      values ← of_option (unmarshal_strings v) claim_error;
      let values := default [] values in
      fail claim_error when (count values <? 1) || (16 <? count values);;
      fail claim_error when negb (valid_values 256 values);;
      Ok values
  end.
(** time.Unix, whose seconds wrap. *)
Definition Unix (seconds : Z) : time := wrap64 (seconds + 62135596800) * second.
Definition optionalOIDCTime (o : object) (name : string) : result (option time) :=
  match o !! name with
  | None => Ok None
  | Some (_, v) =>
      seconds ← of_option (unmarshal_int64 v) claim_error;
      fail claim_error when seconds <=? 0;;
      Ok (Some (Unix seconds))
  end.
Definition requiredOIDCTime (o : object) (name : string) : result time :=
  value ← optionalOIDCTime o name;
  of_option value claim_error.

Module oidcTokenClaims.
Record t := make {
  Subject : string; Audience : list string; Expiry : time; IssuedAt : time; Nonce : string; AuthorizedBy : string; AuthTime : time;
  ACR : string; AMR : list string; Email : string; EmailVerified : bool; DisplayName : string; Groups : list string; AtHash : string }.
End oidcTokenClaims.
Definition selectorMatchesClaims (selector : AdminSelector.t) (subject email : string) (emailVerified : bool) (groups : list string) : bool :=
  let kind := AdminSelector.Kind selector in
  let value := AdminSelector.Value selector in
  if kind == "subject" then subject == value
  else if kind == "verified_email" then emailVerified && (email == value)
  else if kind == "group" then contains groups value
  else false.
Definition hasAccess (o : OIDCConfig.t) (subject email : string) (emailVerified : bool) (groups : list string) : bool :=
  existsb (λ selector, selectorMatchesClaims selector subject email emailVerified groups) (OIDCConfig.Admins o)
  || existsb (λ binding, selectorMatchesClaims (RoleBinding.Selector binding) subject email emailVerified groups) (OIDCConfig.RoleBindings o).
Definition maxOIDCClaimsSize : Z := 65536.
Definition oidcIssuedAtSkew : duration := minute.

Module OIDCCompleteResult.
Record t := make { Principal : Principal.t; ReturnPath : string; AttemptConsumed : bool }.
End OIDCCompleteResult.

Section flow.
Context `{URLs, IdentityURLs, Sealer, Provider, JSONParser} {backend : Backend}.
Context (config : OIDCConfig.t).

(** A text that may be absent is the empty text then. *)
Definition text_of (value : option string) : string := default "" value.
(** Any failure is a refusal. *)
Definition unauthorized {A} (r : result A) : result A := match r with Ok a => Ok a | Err _ => Err ErrUnauthorized end.
Definition validateIDTokenClaims (idToken : IDToken.t) (accessToken : string) (attempt : ConsumedLoginAttempt.t) (now : time) :
    result oidcTokenClaims.t :=
  raw ← of_option (IDToken.Claims idToken) ErrUnauthorized;
  fail ErrUnauthorized when (len raw <? 1) || (maxOIDCClaimsSize <? len raw);;
  claims ← decodeJSONObject raw maxOIDCClaimsSize;
  issuer ← unauthorized (requiredJSONString claims "iss" 2048);
  fail ErrUnauthorized when (issuer != OIDCConfig.Issuer config) || (IDToken.Issuer idToken != issuer);;
  subject ← unauthorized (requiredJSONString claims "sub" 512);
  fail ErrUnauthorized when negb (validBoundedText subject 1 512) || (IDToken.Subject idToken != subject);;
  audience ← unauthorized (oidcAudienceClaim (claims !! "aud"));
  fail ErrUnauthorized when (audience != IDToken.Audience idToken) || negb (contains audience (OIDCConfig.ClientID config));;
  expiry ← unauthorized (requiredOIDCTime claims "exp");
  fail ErrUnauthorized when (expiry != IDToken.Expiry idToken) || negb (Before now expiry);;
  issuedAt ← unauthorized (requiredOIDCTime claims "iat");
  fail ErrUnauthorized when (issuedAt != IDToken.IssuedAt idToken) || After issuedAt now
    || Before issuedAt (ConsumedLoginAttempt.CreatedAt attempt - oidcIssuedAtSkew);;
  nonce ← unauthorized (requiredJSONString claims "nonce" 128);
  fail ErrUnauthorized when negb (ValidOpaqueToken nonce) || (nonce != ConsumedLoginAttempt.Nonce attempt) || (IDToken.Nonce idToken != nonce);;
  azp ← unauthorized (optionalJSONString claims "azp" 256);
  fail ErrUnauthorized when ((1 <? count audience) && (azp != Some (OIDCConfig.ClientID config)))
    || (bool_decide (is_Some azp) && (azp != Some (OIDCConfig.ClientID config)));;
  authTime ← unauthorized (requiredOIDCTime claims "auth_time");
  fail ErrUnauthorized when After authTime now || After authTime issuedAt || (OIDCConfig.MaxAuthenticationAge config <? Sub now authTime);;
  acr ← unauthorized (optionalJSONString claims "acr" 256);
  fail ErrUnauthorized when (OIDCConfig.RequiredACRAny config != [])
    && match acr with Some value => negb (contains (OIDCConfig.RequiredACRAny config) value) | None => true end;;
  amr ← unauthorized (optionalJSONStringArray claims "amr" 16 64);
  fail ErrUnauthorized when (OIDCConfig.RequiredAMRAll config != []) && bool_decide (amr = None);;
  let amr := default [] amr in
  fail ErrUnauthorized when negb (forallb (contains amr) (OIDCConfig.RequiredAMRAll config));;
  email ← unauthorized (optionalJSONString claims "email" 254);
  fail ErrUnauthorized when match email with Some value => negb (validCanonicalEmail value) | None => false end;;
  verified ← unauthorized (optionalJSONBool claims "email_verified");
  let emailVerified := default false verified in
  fail ErrUnauthorized when emailVerified && negb (bool_decide (is_Some email));;
  displayName ← unauthorized (optionalJSONString claims "name" 256);
  groups ← (if OIDCConfig.GroupsClaim config == "" then Ok [] else
            groups ← unauthorized (optionalJSONStringArray claims (OIDCConfig.GroupsClaim config) 256 256);
            Ok (default [] groups));
  atHash ← unauthorized (optionalJSONString claims "at_hash" 256);
  fail ErrUnauthorized when text_of atHash != IDToken.AccessTokenHash idToken;;
  fail ErrUnauthorized when (text_of atHash != "") && negb (VerifyAccessToken idToken accessToken);;
  notBefore ← unauthorized (optionalOIDCTime claims "nbf");
  fail ErrUnauthorized when match notBefore with Some t => After t now | None => false end;;
  fail ErrUnauthorized when negb (hasAccess config subject (text_of email) emailVerified groups);;
  Ok (oidcTokenClaims.make subject audience expiry issuedAt nonce (text_of azp) authTime (text_of acr) amr (text_of email) emailVerified
        (text_of displayName) groups (text_of atHash)).

(** ** The flow *)
Fixpoint newDistinctOpaqueTokens (n : nat) (seen : list string) (draws : list (result string)) : result (list string) :=
  match n, draws with
  | O, _ => Ok []
  | _, [] => Err (ErrOther "random source is exhausted")
  | Datatypes.S n', draw :: rest =>
      value ← draw;
      if contains seen value then newDistinctOpaqueTokens n seen rest else
      values ← newDistinctOpaqueTokens n' (value :: seen) rest;
      Ok (value :: values)
  end.
Definition ErrOIDCUnavailable : err := ErrOther "OIDC provider unavailable".
Definition clock_error : err := ErrOther "OIDC clock returned zero time".
(** [draws] is what the random source returns, [now] what the clock reads. *)
Definition Start (sessions : SessionConfig.t) (returnPath : string) (now : time) (draws : list (result string)) (s : IdentityState.t) :
    IdentityState.t * result (string * string) :=
  match (fail (ErrOther "OIDC return path must be a safe relative path") when negb (validReturnPath returnPath);;
         fail ErrOIDCUnavailable when negb available;;
         fail clock_error when IsZero now;;
         values ← newDistinctOpaqueTokens 5 [] draws;
         Ok values) with
  | Ok [transaction; state; nonce; verifier; idEntropy] =>
      let attemptTTL := Z.min (SessionConfig.LoginAttemptTTL sessions) defaultLoginAttemptTTL in
      let attempt := LoginAttemptInput.make ("login_" +:+ idEntropy) transaction state nonce verifier returnPath now (now + attemptTTL) in
      let '(s, created) := CreateLoginAttempt attempt s in
      (s, _ ← created;
          let acr := if OIDCConfig.RequiredACRAny config == [] then None else Some (join " " (OIDCConfig.RequiredACRAny config)) in
          Ok (AuthCodeURL state nonce verifier (Itoa (Z.quot (OIDCConfig.MaxAuthenticationAge config) second)) acr, transaction))
  | Ok _ => (s, Err (ErrOther "random source is exhausted"))
  | Err e => (s, Err e)
  end.

Definition maxOIDCIDTokenSize : Z := 131072.
Definition maxOIDCAuthorizationCodeSize : Z := 4096.
Definition maxOIDCAccessTokenSize : Z := 16384.
Definition validAuthorizationCode (code : string) : bool :=
  (1 <=? len code) && (len code <=? maxOIDCAuthorizationCodeSize) && ValidString code && validBoundedText code 1 maxOIDCAuthorizationCodeSize.
(** From the consumed attempt to the principal; [now] is read after the exchange. *)
Definition authenticate (attempt : ConsumedLoginAttempt.t) (code : string) (now : time) : result Principal.t :=
  fail ErrUnauthorized when negb (validAuthorizationCode code);;
  '(accessToken, rawIDToken) ← of_option (Exchange code (ConsumedLoginAttempt.PKCEVerifier attempt)) ErrUnauthorized;
  rawIDToken ← of_option rawIDToken ErrUnauthorized;
  fail ErrUnauthorized when (len accessToken <? 1) || (maxOIDCAccessTokenSize <? len accessToken) || (len rawIDToken <? 1)
    || (maxOIDCIDTokenSize <? len rawIDToken) || (TrimSpace rawIDToken != rawIDToken);;
  idToken ← of_option (Verify rawIDToken) ErrUnauthorized;
  fail clock_error when IsZero now;;
  claims ← unauthorized (validateIDTokenClaims idToken accessToken attempt now);
  let principalEmail := if oidcTokenClaims.EmailVerified claims then oidcTokenClaims.Email claims else "" in
  unauthorized (NewOIDCPrincipal (OIDCConfig.Issuer config) (oidcTokenClaims.Subject claims) (oidcTokenClaims.DisplayName claims) principalEmail
                  (oidcTokenClaims.Groups claims) (oidcTokenClaims.ACR claims) (oidcTokenClaims.AMR claims) (oidcTokenClaims.AuthTime claims)).
(** The answer and the error go together: a failed completion still says whether the
    attempt is gone. *)
Definition Complete (transactionToken stateToken code : string) (now validationNow : time) (s : IdentityState.t) :
    IdentityState.t * (OIDCCompleteResult.t * option err) :=
  let nothing consumed := OIDCCompleteResult.make Principal.zero "" consumed in
  if negb available then (s, (nothing false, Some ErrOIDCUnavailable)) else
  if IsZero now then (s, (nothing false, Some clock_error)) else
  let '(s, consumed) := ConsumeLoginAttempt transactionToken stateToken now s in
  match consumed with
  | Err e => (s, (nothing (bool_decide (e = ErrUncertainCommit)), Some ErrUnauthorized))
  | Ok attempt =>
      match authenticate attempt code validationNow with
      | Err e => (s, (OIDCCompleteResult.make Principal.zero (ConsumedLoginAttempt.ReturnPath attempt) true, Some e))
      | Ok principal => (s, (OIDCCompleteResult.make principal (ConsumedLoginAttempt.ReturnPath attempt) true, None))
      end
  end.
Definition ConsumeAuthorizationError (transactionToken stateToken : string) (now : time) (s : IdentityState.t) : IdentityState.t * result string :=
  if IsZero now then (s, Err clock_error) else
  let '(s, consumed) := ConsumeLoginAttempt transactionToken stateToken now s in
  (s, attempt ← unauthorized consumed; Ok (ConsumedLoginAttempt.ReturnPath attempt)).
End flow.

(** ** Who gets in *)
Lemma unauthorized_Ok {A} (r : result A) a : unauthorized r = Ok a ↔ r = Ok a.
Proof. destruct r; simpl; [done|]. split; discriminate. Qed.
#[export] Hint Rewrite @unauthorized_Ok : mesh.

Section policy.
Context `{URLs, IdentityURLs, Sealer, Provider, JSONParser} {backend : Backend}.

Lemma role_known_rank role : role_known role = true → 0 < roleRank role.
Proof. unfold role_known. rewrite contains_true. by intros [<-|[<-|[<-|[]]]]%list_elem_of_In. Qed.
Lemma normalized_bindings loopback c o b : normalizeOIDC loopback c = Ok o → b ∈ OIDCConfig.RoleBindings o → 0 < roleRank (RoleBinding.Role b).
Proof.
  unfold normalizeOIDC. cbv zeta. open_guards. intros (_ & _ & _ & _ & _ & _ & scopes & _ & _ & _ & algorithms & _ & _ & [admins keys] & _ & Hb).
  revert Hb. open_guards. intros ([bindings keys'] & Hb & Hd). revert Hd. open_guards. intros (acr & _ & amr & _ & _ & _ & [= <-]).
  cbn [OIDCConfig.RoleBindings]. rewrite sort_by_elem. intros [i Hi]%list_elem_of_lookup.
  apply normalize_bindings_spec in Hb as [Hf _]. destruct (Forall2_lookup_r _ _ _ _ _ Hf Hi) as (x & _ & Hr & _ & ->).
  by apply role_known_rank.
Qed.
Lemma normalized_age loopback c o : normalizeOIDC loopback c = Ok o → OIDCConfig.MaxAuthenticationAge o <= 24 * hour.
Proof.
  unfold normalizeOIDC. cbv zeta. open_guards. intros (_ & _ & _ & _ & _ & _ & scopes & _ & _ & _ & algorithms & _ & _ & [admins keys] & _ & Hb).
  revert Hb. open_guards. intros ([bindings keys'] & Hb & Hd). revert Hd. open_guards. intros (acr & _ & amr & _ & _ & Hage & [= <-]).
  cbn [OIDCConfig.MaxAuthenticationAge]. split_bools. lia.
Qed.

(** A selector that matches the claims of a token matches the principal made of them. *)
Lemma selectorMatches selector subject email (emailVerified : bool) groups p :
  Principal.Subject p = subject → Principal.Email p = (if emailVerified then email else "") → Principal.Groups p = sort_by str_le groups →
  selectorMatchesClaims selector subject email emailVerified groups = true → selectorMatchesPrincipal selector p = true.
Proof.
  intros Es Ee Eg. unfold selectorMatchesClaims, selectorMatchesPrincipal. rewrite Es, Ee, Eg. cbv zeta.
  destruct (AdminSelector.Kind selector == "subject"); [done|].
  destruct (AdminSelector.Kind selector == "verified_email"); [by destruct emailVerified|].
  destruct (AdminSelector.Kind selector == "group"); [|done]. rewrite !contains_true. by rewrite sort_by_elem.
Qed.
Lemma hasAccess_grants o p subject email (emailVerified : bool) groups :
  (∀ b, b ∈ OIDCConfig.RoleBindings o → 0 < roleRank (RoleBinding.Role b)) →
  Principal.Subject p = subject → Principal.Email p = (if emailVerified then email else "") → Principal.Groups p = sort_by str_le groups →
  hasAccess o subject email emailVerified groups = true → ∃ role, grants_role o p role.
Proof.
  intros Hb Es Ee Eg. unfold hasAccess. intros [Ha|Ha]%orb_true_iff; apply existsb_exists in Ha as (x & Hx%list_elem_of_In & Hm).
  - exists RoleAdmin. left. split; [done|]. exists x. split; [done|]. by eapply selectorMatches.
  - exists (RoleBinding.Role x). right. split; [auto|]. exists x. split_and!; [done| |done]. by eapply selectorMatches.
Qed.

(** What the checks of a token's claims establish. *)
Lemma validateIDTokenClaims_spec o idToken accessToken attempt now claims :
  validateIDTokenClaims o idToken accessToken attempt now = Ok claims →
  oidcTokenClaims.Nonce claims = ConsumedLoginAttempt.Nonce attempt ∧ OIDCConfig.ClientID o ∈ oidcTokenClaims.Audience claims ∧
  now < oidcTokenClaims.Expiry claims ∧ oidcTokenClaims.AuthTime claims <= now ∧
  Sub now (oidcTokenClaims.AuthTime claims) <= OIDCConfig.MaxAuthenticationAge o ∧
  (OIDCConfig.RequiredACRAny o ≠ [] → oidcTokenClaims.ACR claims ∈ OIDCConfig.RequiredACRAny o) ∧
  (∀ m, m ∈ OIDCConfig.RequiredAMRAll o → m ∈ oidcTokenClaims.AMR claims) ∧
  hasAccess o (oidcTokenClaims.Subject claims) (oidcTokenClaims.Email claims) (oidcTokenClaims.EmailVerified claims)
    (oidcTokenClaims.Groups claims) = true.
Proof.
  unfold validateIDTokenClaims. cbv zeta. open_guards.
  intros (raw & _ & _ & object & _ & issuer & _ & _ & subject & _ & _ & audience & _ & Haud & expiry & _ & Hexp & issuedAt & _ & _ &
    nonce & _ & Hn & azp & _ & _ & authTime & _ & Hauth & acr & _ & Hacr & amr & _ & _ & Hamr & email & _ & _ & verified & _ & _ &
    displayName & _ & groups & _ & atHash & _ & _ & _ & notBefore & _ & _ & Hacc & [= <-]).
  cbn [oidcTokenClaims.Nonce oidcTokenClaims.Audience oidcTokenClaims.Expiry oidcTokenClaims.AuthTime oidcTokenClaims.ACR oidcTokenClaims.AMR
       oidcTokenClaims.Subject oidcTokenClaims.Email oidcTokenClaims.EmailVerified oidcTokenClaims.Groups].
  split_bools. unfold After, Before in *. split_and!; try done; try lia.
  - by apply contains_true.
  - intros Hne. apply andb_false_iff in Hacr as [Hacr|Hacr]; [by split_bools|]. destruct acr as [value|]; [|done]. split_bools. by apply contains_true.
  - intros m Hm. rewrite forallb_forall in Hamr. by apply contains_true, Hamr, list_elem_of_In.
Qed.

Lemma authenticate_spec loopback c o attempt code now p : normalizeOIDC loopback c = Ok o → authenticate o attempt code now = Ok p →
  Principal.Kind p = PrincipalOIDCAdmin ∧ Principal.Issuer p = OIDCConfig.Issuer o ∧ Validate_principal p = Ok tt ∧ (∃ role, grants_role o p role) ∧
  Principal.AuthTime p <= now ∧ now - Principal.AuthTime p <= OIDCConfig.MaxAuthenticationAge o ∧
  (OIDCConfig.RequiredACRAny o ≠ [] → Principal.ACR p ∈ OIDCConfig.RequiredACRAny o) ∧
  (∀ m, m ∈ OIDCConfig.RequiredAMRAll o → m ∈ Principal.AMR p).
Proof.
  intros Hn. unfold authenticate. open_guards. intros (_ & [accessToken rawIDToken] & _ & Ha). revert Ha. open_guards.
  intros (raw & _ & _ & idToken & _ & _ & claims & Hc & Hp). revert Hp. unfold NewOIDCPrincipal. cbv zeta. open_guards. intros ([] & Hv & [= <-]).
  apply validateIDTokenClaims_spec in Hc as (_ & _ & _ & Ht & Hs & Hacr & Hamr & Hacc).
  pose proof (normalized_age _ _ _ Hn) as Hage.
  cbn [Principal.Kind Principal.Issuer Principal.AuthTime Principal.ACR Principal.AMR]. split_and!; try done.
  - eapply hasAccess_grants; [intros b; by eapply normalized_bindings|reflexivity..|done].
  - assert (hour = 3600000000000 ∧ int64_max = 9223372036854775807) as [Eh Ei] by done. unfold Sub in Hs. lia.
  - intros m Hm. rewrite sort_by_elem. auto.
Qed.

(** C9: whoever completes a sign-in meets the policy in force: the principal comes
    from the configured issuer, has a role under the access policy, signed in no
    longer ago than the configured age, by a required method and with every required
    factor; and the login transaction is spent: it is not in the store any more. *)
Theorem sign_in_meets_policy loopback configured c o s transactionToken stateToken code now validationNow s' answer :
  validateState s = Ok tt → Normalized loopback configured = Ok c → IdentityConfig.OIDC c = Some o →
  Complete o transactionToken stateToken code now validationNow s = (s', (answer, None)) →
  let p := OIDCCompleteResult.Principal answer in
  (∃ role, RoleForPrincipal p c = Ok role) ∧ Principal.Issuer p = OIDCConfig.Issuer o ∧
  Principal.AuthTime p <= validationNow ∧ validationNow - Principal.AuthTime p <= OIDCConfig.MaxAuthenticationAge o ∧
  (OIDCConfig.RequiredACRAny o ≠ [] → Principal.ACR p ∈ OIDCConfig.RequiredACRAny o) ∧
  (∀ m, m ∈ OIDCConfig.RequiredAMRAll o → m ∈ Principal.AMR p) ∧
  OIDCCompleteResult.AttemptConsumed answer = true ∧ no_attempt (HashToken transactionToken) s'.
Proof.
  intros Hs Hc Ho. unfold Complete. case_match; [done|]. case_match; [done|].
  destruct (ConsumeLoginAttempt transactionToken stateToken now s) as [s1 r] eqn:Er. destruct r as [attempt|]; [|done].
  destruct (authenticate o attempt code validationNow) as [p|] eqn:Ea; [|done]. intros [= <- <-]. cbn.
  assert (∃ d, normalizeOIDC loopback d = Ok o) as [d Hd].
  { revert Hc. unfold Normalized. cbv zeta. open_guards. intros (_ & _ & _ & _ & _ & _ & ? & _ & oidc & Hn & [= <-]). simpl in Ho. subst oidc.
    destruct (IdentityConfig.OIDC configured) as [d|]; [|done]. revert Hn. open_guards. intros (o' & Hn & [= <-]). eauto. }
  destruct (authenticate_spec _ _ _ _ _ _ _ Hd Ea) as (Hk & Hi & Hv & [role Hg] & Ht & Hage & Hacr & Hamr). split_and!; try done.
  - pose proof (RoleForPrincipal_granted _ _ _ _ Hk Hv Ho Hg) as Hok. destruct (RoleForPrincipal p c); [eauto|done].
  - pose proof (ConsumeLoginAttempt_spec transactionToken stateToken now s attempt (valid_sound _ Hs)) as Hspec. rewrite Er in Hspec. by apply Hspec.
Qed.
End policy.
