(* ===== verification/IdentityLogin.v ===== *)
(** * A login that was started can be completed (internal/identity)

    The check of the document survives the removal of records, and a login attempt
    stays in the store until it is consumed with its own credentials or expires. *)
From stdpp Require Import gmap.
From S2P Require Import Prelude GoStd Sha256 GoTime IPv4 NetIP AuditLog Credentials AgentState Identity IdentitySafety.
Open Scope Z_scope.

(** ** Fewer records pass the check too *)
Definition within (c c' : claims) : Prop := (fst c ⊆ fst c') ∧ (snd c ⊆ snd c').
#[export] Instance within_preorder : PreOrder within.
Proof. split; [by split|]. intros a b c [] []. split; set_solver. Qed.

Section shrinking.
Context {A : Type} (check : A → claims → result claims).
(** A record that is accepted after more records is accepted after fewer. *)
Definition shrinks : Prop := ∀ x c c1, check x c = Ok c1 → within c c1 ∧ ∀ d, within d c → ∃ d1, check x d = Ok d1 ∧ within d1 c1.
Lemma shrinks_intro :
  (∀ x c c1 d, check x c = Ok c1 → within d c → within c c1 ∧ ∃ d1, check x d = Ok d1 ∧ within d1 c1) → shrinks.
Proof. intros Hs x c c1 Hc. split; [by apply (Hs x c c1 c)|]. intros d Hd. by apply (Hs x c c1 d). Qed.
Lemma claim_all_shrinks l k c c1 d : shrinks → k `sublist_of` l → claim_all check l c = Ok c1 → within d c →
  ∃ d1, claim_all check k d = Ok d1 ∧ within d1 c1.
Proof.
  intros Hm Hk. revert c d. induction Hk as [|x k l Hk IH|x k l Hk IH]; intros c d; simpl.
  - intros [= <-] Hd. eauto.
  - intros (c2 & Hx & Hl)%bind_Ok Hd. destruct (Hm _ _ _ Hx) as [_ Hs]. destruct (Hs d Hd) as (d2 & -> & Hd2). simpl. by eapply IH.
  - intros (c2 & Hx & Hl)%bind_Ok Hd. destruct (Hm _ _ _ Hx) as [Hw _]. eapply IH; [done|]. by transitivity c.
Qed.
End shrinking.

Lemma claimIdentity_shrinks id c c1 d : claimIdentity id c = Ok c1 → within d c → within c c1 ∧ ∃ d1, claimIdentity id d = Ok d1 ∧ within d1 c1.
Proof.
  unfold claimIdentity, within. intros [Hi [Hn [= <-]]%guard_iff]%guard_iff [H1 H2]. simpl. split; [set_solver|].
  rewrite Hi. apply bool_decide_eq_false in Hn. rewrite bool_decide_eq_false_2 by set_solver. simpl. eexists. split; [done|]. simpl. set_solver.
Qed.
Lemma claimCredential_shrinks hash c c1 d : claimCredential hash c = Ok c1 → within d c →
  within c c1 ∧ ∃ d1, claimCredential hash d = Ok d1 ∧ within d1 c1.
Proof.
  unfold claimCredential, within. intros [Hi [Hn [= <-]]%guard_iff]%guard_iff [H1 H2]. simpl. split; [set_solver|].
  rewrite Hi. apply bool_decide_eq_false in Hn. rewrite bool_decide_eq_false_2 by set_solver. simpl. eexists. split; [done|]. simpl. set_solver.
Qed.
(** [shrink_claims] replays the claims of a check from fewer claims. *)
Ltac shrink_claims :=
  repeat match goal with
  | E : claimIdentity ?id ?c = Ok ?c1, W : within ?d ?c |- _ =>
      destruct (claimIdentity_shrinks _ _ _ _ E W) as (? & ? & ? & ?); clear E
  | E : claimCredential ?h ?c = Ok ?c1, W : within ?d ?c |- _ =>
      destruct (claimCredential_shrinks _ _ _ _ E W) as (? & ? & ? & ?); clear E
  end.

Section valid.
Context `{URLs, IdentityURLs, Sealer}.
Ltac shrink_check :=
  apply shrinks_intro; intros x c c1 d Hc Hd; inv_ok; shrink_claims; subst; split; [by repeat (etransitivity; [eassumption|])|];
  eexists; split; [|eassumption]; cbv zeta;
  repeat first [eassumption | reflexivity | apply guard_iff; split; [eassumption|] | apply bind_Ok; eexists; split; [eassumption|]].
Lemma check_attempt_shrinks : shrinks check_attempt.
Proof. unfold check_attempt. shrink_check. Qed.
Lemma check_session_shrinks : shrinks check_session.
Proof. unfold check_session. shrink_check. Qed.
Lemma check_code_shrinks : shrinks check_code.
Proof. unfold check_code. shrink_check. Qed.
Lemma check_desktop_shrinks : shrinks check_desktop.
Proof. unfold check_desktop. shrink_check. Qed.

(** The document without some of its records. *)
Lemma valid_fewer s attempts sessions codes desktops : validateState s = Ok tt →
  attempts `sublist_of` IdentityState.LoginAttempts s → sessions `sublist_of` IdentityState.Sessions s →
  codes `sublist_of` IdentityState.BreakGlassCodes s → desktops `sublist_of` IdentityState.DesktopAuthorizations s →
  validateState (IdentityState.make (IdentityState.Schema s) attempts sessions codes desktops (IdentityState.Audit s)) = Ok tt.
Proof.
  unfold validateState. cbn [IdentityState.Schema IdentityState.LoginAttempts IdentityState.Sessions IdentityState.BreakGlassCodes
    IdentityState.DesktopAuthorizations IdentityState.Audit]. open_guards.
  intros (Hs & Hn & c1 & E1 & c2 & E2 & c3 & E3 & c4 & E4 & Ha) S1 S2 S3 S4.
  destruct (claim_all_shrinks _ _ _ _ _ _ check_attempt_shrinks S1 E1 (reflexivity _)) as (d1 & D1 & W1).
  destruct (claim_all_shrinks _ _ _ _ _ _ check_session_shrinks S2 E2 W1) as (d2 & D2 & W2).
  destruct (claim_all_shrinks _ _ _ _ _ _ check_code_shrinks S3 E3 W2) as (d3 & D3 & W3).
  destruct (claim_all_shrinks _ _ _ _ _ _ check_desktop_shrinks S4 E4 W3) as (d4 & D4 & W4).
  apply sublist_length in S1, S2, S3, S4. split; [done|]. split; [unfold count in *; split_bools; lia|]. eauto 10.
Qed.
Lemma valid_drop_attempt s i : validateState s = Ok tt → validateState (drop_attempt i s) = Ok tt.
Proof. intros Hv. destruct s. apply (valid_fewer (IdentityState.make _ _ _ _ _ _)); auto using sublist_delete. Qed.

(** ** The attempt waits *)

(** What the store knows of a login that was started. *)
Definition waiting (input : LoginAttemptInput.t) (s : IdentityState.t) : Prop :=
  ∃ a, a ∈ IdentityState.LoginAttempts s ∧ LoginAttempt.ID a = LoginAttemptInput.ID input ∧
    LoginAttempt.TransactionHash a = HashToken (LoginAttemptInput.TransactionToken input) ∧
    LoginAttempt.StateHash a = HashToken (LoginAttemptInput.StateToken input) ∧ LoginAttempt.ReturnPath a = LoginAttemptInput.ReturnPath input ∧
    LoginAttempt.CreatedAt a = LoginAttemptInput.CreatedAt input ∧ LoginAttempt.ExpiresAt a = LoginAttemptInput.ExpiresAt input ∧
    openOIDCPayload (LoginAttempt.SealedOIDCPayload a) = Ok (OIDCPayload.make (LoginAttemptInput.Nonce input) (LoginAttemptInput.PKCEVerifier input)).
(** The operation neither consumes the attempt nor outlives it. *)
Definition undisturbed (input : LoginAttemptInput.t) (o : identity_op) : Prop :=
  (∀ t, prune_time o = Some t → t < LoginAttemptInput.ExpiresAt input) ∧
  match o with
  | OpConsumeLoginAttempt token state _ =>
      ¬ (HashToken token = HashToken (LoginAttemptInput.TransactionToken input) ∧ HashToken state = HashToken (LoginAttemptInput.StateToken input))
  | _ => True
  end.
Lemma delete_other {A} (l : list A) i x y : l !! i = Some x → y ∈ l → y ≠ x → y ∈ delete i l.
Proof. intros Hi Hy Hne. apply delete_Permutation in Hi. rewrite Hi in Hy. by apply elem_of_cons in Hy as [->|?]. Qed.
Lemma waiting_step input s o s' : undisturbed input o → effect s o s' → waiting input s → waiting input s'.
Proof.
  intros [Ht Hc] He (a & Ha & Hid & Hth & Hsh & Hr & Hcr & Hex & Hp).
  assert (∀ now, prune_time o = Some now → a ∈ IdentityState.LoginAttempts (pruneExpired now s)) as Hkeep.
  { intros now Hn. apply list_elem_of_filter. split; [|done]. unfold Before. rewrite Hex. apply Z.ltb_lt. auto. }
  destruct He; exists a; split_and!; try done; auto.
  - apply elem_of_app. left. auto.
  - simpl. eapply delete_other; [done..|]. intros ->. apply Hc. split; congruence.
  - by apply Hkeep.
  - by apply Hkeep.
Qed.

(** What the sealer promises: a sealed payload opens to what was sealed. *)
Class SealerLaws : Prop := open_sealed purpose payload text : SealFor purpose payload = Ok text → OpenFor purpose text = Ok payload.
Lemma update_Ok {backend : Backend} {A} (f : IdentityState.t → result (IdentityState.t * A)) s a (P : IdentityState.t → Prop) :
  (∀ s', f s = Ok (s', a) → P s') → snd (update f s) = Ok a → P (fst (update f s)).
Proof.
  intros Hf. destruct (update f s) as [s' r] eqn:E. apply transaction_spec in E as [[-> [e ->]]|(b & Hb & _ & [->| ->])]; simpl; [done| |done].
  intros [= ->]. auto.
Qed.
Lemma CreateLoginAttempt_waits {backend : Backend} `{!SealerLaws} input s : snd (CreateLoginAttempt input s) = Ok tt →
  waiting input (fst (CreateLoginAttempt input s)).
Proof.
  unfold CreateLoginAttempt. case_match eqn:E; [|done]. case_match. subst. revert E. unfold canonicalLoginInput. cbv zeta. open_guards.
  intros (p & (Hv & _ & [= <-]) & h1 & ->%HashOpaqueToken_spec & h2 & ->%HashOpaqueToken_spec & sealed & Hs & [= <- <-]).
  apply update_Ok. intros s'. case_match eqn:El; [destruct p as [i existing]|].
  - open_guards. intros (opened & Ho & Hsame & [= <-]). apply list_find_lookup in El as [Hi _]. exists existing.
    split; [by eapply list_elem_of_lookup_2|]. unfold same_attempt in Hsame. split_bools. simpl in *.
    split_and!; try done; try (by apply CredentialHashEqual_eq); try lia. congruence.
  - open_guards. intros (_ & [= <-]). eexists. split; [simpl; apply elem_of_app; right; by left|]. simpl. split_and!; try done.
    unfold openOIDCPayload. rewrite (open_sealed _ _ _ Hs). simpl. split_bools.
    repeat match goal with E : ValidOpaqueToken _ = true |- _ => rewrite E end. done.
Qed.
Lemma HashToken_valid token : ValidCredentialHash (HashToken token) = true.
Proof.
  unfold ValidCredentialHash, canonical32, HashToken. destruct (Sum256_ok (bytes_of token)) as [Hl Hb]. rewrite b64_decode_encode by done.
  by rewrite Hl, bool_decide_eq_true_2.
Qed.

(** What the consumer of the attempt is told. *)
Definition attempt_of (input : LoginAttemptInput.t) : ConsumedLoginAttempt.t :=
  ConsumedLoginAttempt.make (LoginAttemptInput.ID input) (LoginAttemptInput.Nonce input) (LoginAttemptInput.PKCEVerifier input)
    (LoginAttemptInput.ReturnPath input) (LoginAttemptInput.CreatedAt input) (LoginAttemptInput.ExpiresAt input).
Lemma waiting_consumed {backend : Backend} input s now : validateState s = Ok tt → waiting input s → refuses = None → (∀ d, stores d = Written) →
  ValidOpaqueToken (LoginAttemptInput.TransactionToken input) = true → ValidOpaqueToken (LoginAttemptInput.StateToken input) = true →
  now ≠ 0 → now < LoginAttemptInput.ExpiresAt input →
  snd (ConsumeLoginAttempt (LoginAttemptInput.TransactionToken input) (LoginAttemptInput.StateToken input) now s) = Ok (attempt_of input).
Proof.
  intros Hv (a & Ha & Hid & Hth & Hsh & Hr & Hcr & Hex & Hp) Hre Hst Vt Vs Hn Hnow.
  unfold ConsumeLoginAttempt, HashOpaqueToken. rewrite Vt, Vs. simpl. unfold IsZero. rewrite (proj2 (Z.eqb_neq _ _) Hn).
  assert (∃ i, list_find (λ a, CredentialHashEqual (LoginAttempt.TransactionHash a) (HashToken (LoginAttemptInput.TransactionToken input)) = true)
                 (IdentityState.LoginAttempts s) = Some (i, a)) as [i Hi].
  { destruct (list_find_elem_of (λ a, CredentialHashEqual (LoginAttempt.TransactionHash a)
      (HashToken (LoginAttemptInput.TransactionToken input)) = true) _ a Ha) as [[i b] Hb].
    { rewrite Hth. apply CredentialHashEqual_refl, HashToken_valid. }
    exists i. rewrite Hb. apply list_find_lookup in Hb as [Hb Eb%CredentialHashEqual_eq]. apply list_elem_of_lookup in Ha as [j Hj].
    assert (i = j) as -> by (eapply (fmap_NoDup_index LoginAttempt.TransactionHash); [by apply valid_sound|done..|congruence]). congruence. }
  unfold found, update. rewrite Hre, Hi, Hsh, CredentialHashEqual_refl by apply HashToken_valid. simpl. unfold Before. rewrite Hex, Hp. simpl.
  rewrite (proj2 (Z.ltb_lt _ _) Hnow). simpl. rewrite (valid_drop_attempt _ i Hv). simpl. rewrite Hst.
  case_bool_decide; simpl; unfold attempt_of; congruence.
Qed.

(** C26: a login that was started can be completed: until it expires, and as long as
    nobody consumes it with both of its credentials, whatever else the store does and
    whatever its backend answers in between, a consumer with the credentials is given
    the nonce, the verifier and the return path the login was started with. *)
Theorem started_logins_complete (starting consuming : Backend) `{!SealerLaws} input s calls now :
  validateState s = Ok tt → snd (CreateLoginAttempt (backend := starting) input s) = Ok tt → Forall (undisturbed input) calls.*2 →
  @refuses consuming = None → (∀ d, @stores consuming d = Written) → now ≠ 0 → now < LoginAttemptInput.ExpiresAt input →
  snd (ConsumeLoginAttempt (backend := consuming) (LoginAttemptInput.TransactionToken input) (LoginAttemptInput.StateToken input) now
    (run_ops calls (fst (CreateLoginAttempt (backend := starting) input s)))) = Ok (attempt_of input).
Proof.
  intros Hv Hc Hcalls Hr Hs Hn Hnow. assert (ValidOpaqueToken (LoginAttemptInput.TransactionToken input) = true ∧
    ValidOpaqueToken (LoginAttemptInput.StateToken input) = true) as [Vt Vs].
  { revert Hc. unfold CreateLoginAttempt. case_match eqn:E; [|done]. intros _. revert E. unfold canonicalLoginInput. cbv zeta. open_guards.
    intros (p & (Hb & _) & _). by split_bools. }
  apply waiting_consumed; try done.
  - apply run_ops_valid. apply (run_op_valid (backend := starting) (OpCreateLoginAttempt input) s Hv).
  - apply (run_ops_invariant (waiting input) (undisturbed input)); [done|intros; by eapply waiting_step|done|]. by apply CreateLoginAttempt_waits.
Qed.
End valid.
