(* ===== verification/IdentityExamples.v ===== *)
(** * A sign-in from start to end (internal/identity)

    One configuration, one provider and one store, on which the theorems about
    configurations, roles and logins are applied. *)
From stdpp Require Import gmap.
From S2P Require Import Prelude GoStd Sha256 GoTime IPv4 NetIP AuditLog AgentState Identity IdentitySafety IdentityPolicy IdentityFlow IdentityLogin.
Open Scope Z_scope.

Module SignIn.
#[local] Instance origins : URLs := {|
  url_Parse s := if s == "https://mesh.example" then Some (URL.make "https" false "mesh.example" "" "" "")
                 else if s == "https://issuer.example" then Some (URL.make "https" false "issuer.example" "" "" "") else None;
  url_Hostname := URL.Host; url_String u := URL.Scheme u +:+ "://" +:+ URL.Host u |}.
#[local] Instance paths : IdentityURLs := {|
  url_Port _ := ""; url_ParseRequestURI s := Some (URL.make "" false "" s "" ""); url_QueryUnescape := Some |}.
#[local] Instance sealer : Sealer := {|
  SealFor _ payload := if (length (bytes_of (OIDCPayload.Nonce payload)) =? 43)%nat
                       then Ok (OIDCPayload.Nonce payload +:+ OIDCPayload.PKCEVerifier payload) else Err ErrUnauthorized;
  OpenFor _ text := Ok (OIDCPayload.make (string_of (take 43 (bytes_of text))) (string_of (drop 43 (bytes_of text)))) |}.
#[local] Instance sealer_laws : SealerLaws.
Proof.
  intros purpose [nonce verifier] text. simpl. case_match eqn:E; [|done]. intros [= <-]. apply Nat.eqb_eq in E.
  rewrite bytes_of_app, take_app_length', drop_app_length', !string_of_bytes_of by done. done.
Qed.
#[local] Instance steady : Backend := {| refuses := None; stores _ := Written |}.

(** ** The configuration *)
Definition subject (value : string) : AdminSelector.t := AdminSelector.make "subject" value.
Definition group (value : string) : AdminSelector.t := AdminSelector.make " group " value.
Definition configured : IdentityConfig.t :=
  IdentityConfig.make ModeHybrid " https://mesh.example"
    (Some (OIDCConfig.make "https://issuer.example" "mesh" "/etc/mesh/secret" ["profile"; "openid"] "groups" ["RS256"; "ES256"] []
             [RoleBinding.make RoleViewer (subject "alice"); RoleBinding.make RoleOperator (group "ops")] ["phr"] ["mfa"] hour))
    (SessionConfig.make 0 0 0 0) false true (BreakGlassConfig.make true 0).
Definition config : IdentityConfig.t := match Normalized false configured with Ok c => c | Err _ => configured end.
Definition policy : OIDCConfig.t := default (OIDCConfig.make "" "" "" [] "" [] [] [] [] [] 0) (IdentityConfig.OIDC config).
Lemma Normalized_stable_witness : Normalized false configured = Ok config ∧ Normalized false config = Ok config.
Proof. split; [|apply (Normalized_stable false configured config)]; vm_compute; reflexivity. Defined.

(** ** A login *)
Definition tok (name : string) : string := HashToken name.
Definition start_time : time := Unix 1700000000.
Definition input : LoginAttemptInput.t :=
  LoginAttemptInput.make "login_1" (tok "transaction") (tok "state") (tok "nonce") (tok "verifier") "/networks" start_time (start_time + 5 * minute).
Definition empty_store : IdentityState.t := IdentityState.make identityStateSchema [] [] [] [] [].
Definition other : LoginAttemptInput.t :=
  LoginAttemptInput.make "login_2" (tok "transaction 2") (tok "state 2") (tok "nonce 2") (tok "verifier 2") "/" start_time (start_time + 5 * minute).
Definition meanwhile : list (Backend * identity_op) :=
  [(steady, OpCreateLoginAttempt other); (steady, OpConsumeLoginAttempt (tok "transaction") (tok "state 2") (start_time + minute));
   (steady, OpCleanup (start_time + 2 * minute))].
Definition store : IdentityState.t := run_ops meanwhile (fst (CreateLoginAttempt input empty_store)).
Lemma started_logins_complete_witness :
  snd (ConsumeLoginAttempt (LoginAttemptInput.TransactionToken input) (LoginAttemptInput.StateToken input) (start_time + 3 * minute)
    (run_ops meanwhile (fst (CreateLoginAttempt input empty_store)))) = Ok (attempt_of input).
Proof.
  refine (started_logins_complete steady steady input empty_store meanwhile (start_time + 3 * minute) _ _ _ eq_refl (λ _, eq_refl) _ _).
  - vm_compute. reflexivity.
  - vm_compute. reflexivity.
  - repeat constructor; simpl; try (intros t [= <-]; vm_compute; reflexivity). intros [_ E]. vm_compute in E. discriminate.
  - vm_compute. discriminate.
  - vm_compute. reflexivity.
Defined.

(** ** The provider's answer *)
Definition member (name : string) (raw : string) (v : json) : string * (string * json) := (name, (raw, v)).
Definition token_claims : json :=
  JObject [member "iss" "i" (JString "https://issuer.example"); member "sub" "s" (JString "alice"); member "aud" "a" (JString "mesh");
           member "exp" "e" (JInt 1700000600); member "iat" "i" (JInt 1700000060); member "nonce" "n" (JString (tok "nonce"));
           member "auth_time" "t" (JInt 1700000000); member "acr" "c" (JString "phr"); member "amr" "m" (JArray [JString "pwd"; JString "mfa"]);
           member "groups" "g" (JArray [JString "ops"; JString "dev"])].
#[local] Instance provider : Provider := {|
  available := true; AuthCodeURL state _ _ _ _ := state;
  Exchange code verifier := if (code == "code") && (verifier == tok "verifier") then Some ("access", Some "token") else None;
  Verify token := Some (IDToken.make "https://issuer.example" "alice" ["mesh"] (Unix 1700000600) (Unix 1700000060) (tok "nonce") "" (Some "claims"));
  VerifyAccessToken _ _ := true |}.
#[local] Instance parser : JSONParser := {| parse_json text := if text == "claims" then Some token_claims else None |}.
Definition ending : IdentityState.t * (OIDCCompleteResult.t * option err) :=
  Complete policy (tok "transaction") (tok "state") "code" (start_time + 2 * minute) (start_time + 2 * minute) store.
Definition signed_in : Principal.t := OIDCCompleteResult.Principal (fst (snd ending)).
Lemma sign_in_meets_policy_witness :
  (∃ role, RoleForPrincipal signed_in config = Ok role) ∧ Principal.Issuer signed_in = OIDCConfig.Issuer policy ∧
  Principal.AuthTime signed_in <= start_time + 2 * minute ∧
  start_time + 2 * minute - Principal.AuthTime signed_in <= OIDCConfig.MaxAuthenticationAge policy ∧
  (OIDCConfig.RequiredACRAny policy ≠ [] → Principal.ACR signed_in ∈ OIDCConfig.RequiredACRAny policy) ∧
  (∀ m, m ∈ OIDCConfig.RequiredAMRAll policy → m ∈ Principal.AMR signed_in) ∧
  OIDCCompleteResult.AttemptConsumed (fst (snd ending)) = true ∧ no_attempt (HashToken (tok "transaction")) (fst ending).
Proof.
  apply (sign_in_meets_policy false configured config policy store (tok "transaction") (tok "state") "code" (start_time + 2 * minute)
    (start_time + 2 * minute) (fst ending) (fst (snd ending))); vm_compute; reflexivity.
Defined.

(** ** The role: an operator by group, a viewer by name *)
Lemma role_is_strongest_witness :
  RoleForPrincipal signed_in config = Ok RoleOperator ↔
  Validate_principal signed_in = Ok tt ∧ ∃ o, IdentityConfig.OIDC config = Some o ∧ grants_role o signed_in RoleOperator
  ∧ (∀ r', grants_role o signed_in r' → roleRank r' <= roleRank RoleOperator)
  ∧ ∀ r' permission, grants_role o signed_in r' → RoleAllows r' permission = true → RoleAllows RoleOperator permission = true.
Proof. apply (role_is_strongest signed_in config RoleOperator). vm_compute. reflexivity. Defined.
Example operator : RoleForPrincipal signed_in config = Ok RoleOperator.
Proof. vm_compute. reflexivity. Qed.
End SignIn.
